(* ===== verification/_CoqProject ===== *)
-Q . S2P
Prelude.v
BitBuffer.v
BitBufferFacts.v
BitBufferProps.v
Scrambler.v
Interleaver.v
ConvCode.v
Viterbi.v
Crc.v
Rm3014.v
TchReorder.v
ErrorControl.v
Fcs.v
Tdma.v
TimeslotAlloc.v
Codec.v
MacFields.v
MacPdus.v
Fillbits.v
Defrag.v
TxReceipt.v
Sysinfo.v
Frag.v
UplinkPdus.v
AccessAssign.v
Robust.v
UmacMs.v
Downlink.v
Circuits.v
UlSched.v
LlcPdus.v
UmacBs.v
Lmac.v
Router.v
Phy.v
Station.v
Llc.v
LlcFacts.v
LlcInv.v
LlcTick.v
LlcRun.v
LlcPeer.v
Typed.v
CmceFields.v
SdsCodec.v
CmceUl.v
CmceDl.v
MlePdus.v
LlcUp.v
Mle.v
MleFacts.v
MleRun.v
MleClaims.v
CmceIngress.v
CmceReceive.v
CmceDown.v
SndcpPdus.v
SndcpCodec.v
Sndcp.v
SndcpFacts.v
SndcpRun.v
