(* ===== verification/Prelude.v ===== *)
(** * Nexus-BS: a verification development for the TETRA base station stack

    ** The program

    Nexus-BS (src/crates) is a TETRA base station in Rust, with the mobile's side of the
    protocol beside it.  A timeslot passes through: the physical layer (tetra-entities/src/phy:
    bursts to and from the radio), the lower MAC (lmac: channel coding, which logical channel a
    block belongs to), the upper MAC (umac: MAC PDUs, fragmentation, the scheduler of the cell,
    traffic circuits), the LLC and above it MLE, MM, CMCE and SNDCP.  The entities exchange
    messages through one queue (messagerouter.rs).  Every PDU is read and written through the
    bit cursor of tetra-core/src/bitbuffer.rs.

    ** Conventions

    [usize] is [nat]; machine integers are [Z] with the wrap-around of the release profile written
    out ([u8], [u16], ..., [i16], [i32]).  A Rust function that can panic returns [option], [None] being the panic
    (assertion, index out of range, [unwrap], subtraction below zero); a second, inner [option]
    or a sum is the function's own [Option] or [Result].  Parsers and writers live in a state
    and error monad over the buffer ([method], with [Ok], [Err] and [Panic]).  Mutation is state
    passing; the shared cells of transmit receipts live in a store, so that clones alias.  Log
    output is left out.  Effects on parts outside a model are recorded in order.

    ** Files, from the bottom up

    - Prelude: the panic model, checked arrays, machine integers, bit strings, tactics.
    - BitBuffer, BitBufferFacts, BitBufferProps: bitbuffer.rs; the byte-wise code against bit
      strings, the window invariant [wf], and the rules [emits] (a writer appends exactly these
      bits) and [parses] (a reader consumes exactly these bits) all codecs are verified with.
    - Scrambler, Interleaver, ConvCode, Viterbi, Crc, Rm3014, TchReorder: the stages of
      lmac/components; ErrorControl composes them into [encode_cp]/[decode_cp] (signalling),
      [encode_tp]/[decode_tp] (speech) and [encode_aach]/[decode_aach], as errorcontrol.rs does.
    - Fcs: the frame check sequence of the LLC (llc/components/fcs.rs), an instance of Crc.
    - Tdma, TimeslotAlloc, TxReceipt: tdma_time.rs, timeslot_alloc.rs, tx_receipt.rs.
    - Codec: field codecs, the [Codec] interface of information elements, parser automation.
    - MacFields, MacPdus, UplinkPdus, Sysinfo, AccessAssign, LlcPdus: the MAC and basic-link
      PDUs of tetra-pdus; Robust: their parsers on arbitrary bits.
    - Fillbits, Frag, Defrag: fillbits.rs, bs_frag.rs, defrag.rs, bs_defrag.rs, ms_defrag.rs.
    - UmacMs: umac_ms.rs (reception and random access).  Circuits: circuit_mgr.rs of the upper
      MAC.  UlSched: the uplink half of bs_sched.rs and its access assignment.  UmacBs: the
      receive path of umac_bs.rs.  Lmac: lmac_bs.rs and lmac_ms.rs.
    - Router: messagerouter.rs over the interface [TetraEntityTrait]; Phy: slotter.rs and the
      slot exchange of phy_bs.rs.
    - Llc: the basic link of llc_bs_ms.rs (requests, reception, acknowledgements, repetitions,
      priorities); LlcFacts: its PDUs as bit strings; LlcInv and LlcTick: its invariant, operation
      by operation; LlcRun: any sequence of events; LlcPeer: two entities facing each other.
    - Typed: the optional and repeated elements of layer 3 PDUs (typed_pdu_fields.rs).
      CmceFields, SdsCodec, CmceUl, CmceDl: the fields, the twelve uplink and the seventeen
      downlink PDUs of tetra-pdus/src/cmce.  MlePdus: the network broadcast of tetra-pdus/src/mle.
    - Mle: mle_bs.rs and its broadcast; MleFacts: its operations; LlcUp: what the LLC hands up;
      MleRun: MLE and LLC exchanging messages in any order; MleClaims: handles, broadcast and
      responses.
    - CmceIngress: the reception of CMCE, from cmce_bs.rs through cc_bs/ingress.rs and sds_bs.rs to
      the state machine for each PDU, with the replies of cc_bs/shared.rs; CmceReceive: a PDU from
      its codec through the MLE to that state machine; CmceDown: the PDUs and priorities sent.
    - SndcpPdus: the control and user data PDUs of packet data (sndcp/pdp.rs, transfer.rs,
      unitdata.rs), SndcpCodec: their round trips.  Sndcp: the state machine of a terminal
      (state.rs), the table of contexts (context.rs), activation and deactivation
      (pdp_service.rs), the bearer manager (bearer.rs) and the control PDU handlers of
      wap_session.rs; SndcpFacts: their invariants; SndcpRun: any sequence of operations.
    - Downlink and Station compose them: Downlink is the path of a message from the fragmenter
      of the base station to the LLC of a mobile; Station the uplink, from the mobile's request
      through the burst to the LLC of the base station, with the router in between.

    ** What the theorems show

    - End to end: a downlink message of up to 4096 bits, unless it ends within the last four bits
      of a block, arrives exactly once, unchanged, within a bounded number of slots
      ([downlink_delivery]); a random access arrives exactly once and
      is acknowledged ([random_access_delivery]); every planned slot, signalling or
      speech, becomes a burst from which a receiver recovers all blocks ([downlink_slot_on_air]); whether a second half slot is
      signalling or speech is decided by the first half in time ([stolen_second_half]).
    - Channel coding: each chain is inverted by its decoder for all inputs; the Viterbi decoder
      is maximum-likelihood and its 16-bit metrics do not overflow; CRCs detect bursts, the
      Reed-Muller code corrects single errors; decoding any received block gives
      the most likely word and as verdict its CRC check.
    - The basic link of the LLC: under any sequence of primitives, PDUs, reports and slots it
      never panics ([llc_never_panics]), answers every request once, those to be acknowledged by
      a group apart ([llc_answers_every_request]), keeps its limits ([llc_limits]) and lets no link idle ([llc_no_idle_link]); a TL-SDU is
      delivered once per N(S) ([bl_data_delivered_once]), and a transfer between two idle entities is
      delivered unchanged and confirmed ([basic_link_transfer]).
    - The MLE over the basic link: in any run with messages delivered in any order neither panics
      and every request of layer 3, acknowledged ones being to individual addresses, is reported
      once to its sender ([layer3_told_once]); handles
      are found whenever one is free ([free_handle_found]); the broadcast is what is configured
      ([broadcast_announces_cells]).
    - Layer 3 PDUs: an uplink PDU reaches the state machine for its type unchanged, is answered
      as not supported or, as short data of a stranger, dropped ([uplink_pdu_delivered]); no short
      SDU makes the reception panic ([short_sdu_never_panics]), and an element parser panics
      exactly on certain overlong elements ([element_panics_iff]); downlink PDUs are read back ([downlink_pdus_roundtrip]) and the
      priority probed from their bits is that of the PDU ([downlink_priority_of_pdu]).
    - Packet data: whatever terminals, network and timers do, contexts and state machines stay
      consistent ([bearers_consistent]), and every demand for a context and every request to
      transmit is answered ([activation_answered], [transmit_request_answered]).
    - Refinement: the defragmenter implements a map from senders to bit strings, the circuit
      manager four bounded queues, for every sequence of operations.
    - Scheduling: in every reachable state the slots of uplink grants are free or the mobile's
      own, future, distinct and then reserved; reservations are kept until their slot has passed and never offered for random
      access; the allocator of traffic slots is all-or-nothing and never robs an owner.
    - Robustness and errors: no bit pattern makes a header parser or the lower MAC panic; the
      loops over received blocks and the queue of the two MACs come to rest; and the inputs that do
      make the code panic are characterised exactly ([mac_access_panics_iff]).
    - Round trips of PDUs, and the places where the code does not do what it means to
      ([scramb_colour_zero], [exact_fit_truncated], [granting_delay_short],
      [phase_adjustment_half_right], [schf_second_block_panics], [malformed_block_panics],
      [ext_services_clear_misread], [emergency_preemption_loses_sdu], [long_release_panics],
      [release_extract_starts_early], [response_finds_no_acknowledgement],
      [deactivated_in_ready]).

    ** Fuel

    Loops that are not structural take fuel, and out of fuel is a distinct result.  Buffer loops
    take the number of bits, which each iteration reduces; the loops over a received block take
    its length plus one, and it is proved that they never run out; for the router's queue it is
    proved that some fuel suffices for every queue, and in the end-to-end theorems the number
    is given.  The search for a transfer handle takes one try more than there are transfers.

    ** Not modelled

    The downlink queues of bs_sched.rs and the voice path, hangtime and request path of
    umac_bs.rs; the advanced link of the LLC; the call state machines, timers and short data
    routing of CMCE behind its reception, MM with its PDUs, and of SNDCP the entity itself, the
    packet data channel and the IP and WAP gateways (they depend on configuration, dashboards,
    wall-clock time and network peers); the MLE of the mobile, whose
    procedures are unimplemented in the code; signal processing and radio drivers (floating point,
    devices); network, dashboard, health and configuration code (I/O, threads, files); the
    programs under bins.  Values these parts supply, such as scrambling codes, circuits, speakers,
    registered subscribers and the network time, are arguments or state components of the models. *)

From Stdlib Require Import ZArith Lia ZifyNat Btauto.
From stdpp Require Export base tactics option numbers list.
From stdpp Require Import strings.

Declare Scope nexus_scope.

(** Invariant preservation, and the emit/parse rules of codecs. *)
Create HintDb bitbuffer.
Create HintDb codec.
Delimit Scope nexus_scope with nx.

(** ** Arithmetic automation *)

(** [divlia] is [lia] after the Euclidean equations of every [/] and [mod]
    (on [nat], [N] and [Z]) have been added to the context. *)
Ltac divlia := zify; Z.to_euclidean_division_equations; lia.

(** [btrue c] ([bfalse c]) rewrites the arithmetic test [c] to its value. *)
Ltac btrue c :=
  replace c with true by (symmetry; first
    [apply Nat.leb_le | apply Nat.ltb_lt | apply Nat.eqb_eq
    |apply Z.leb_le | apply Z.ltb_lt | apply Z.eqb_eq]; divlia).
Ltac bfalse c :=
  replace c with false by (symmetry; first
    [apply Nat.leb_gt | apply Nat.ltb_ge | apply Nat.eqb_neq
    |apply Z.leb_gt | apply Z.ltb_ge | apply Z.eqb_neq]; divlia).

#[global] Arguments Nat.div : simpl never.
#[global] Arguments Nat.modulo : simpl never.
#[global] Arguments Nat.leb : simpl never.
#[global] Arguments Nat.ltb : simpl never.
#[global] Arguments Nat.eqb : simpl never.
#[global] Arguments Nat.sub : simpl never.
#[global] Arguments Nat.mul : simpl never.
#[global] Arguments Nat.min : simpl never.
#[global] Arguments Z.eqb : simpl never.
#[global] Arguments Z.leb : simpl never.
#[global] Arguments Z.ltb : simpl never.
#[global] Arguments Z.testbit : simpl never.
#[global] Arguments Z.shiftl : simpl never.
#[global] Arguments Z.shiftr : simpl never.
#[global] Arguments Z.land : simpl never.
#[global] Arguments Z.lor : simpl never.
#[global] Arguments Z.lxor : simpl never.
#[global] Arguments Z.pow : simpl never.
#[global] Arguments Z.modulo : simpl never.
#[global] Arguments Z.div : simpl never.
#[global] Arguments Z.of_nat : simpl never.

(** ** Panics

    A Rust computation that may panic but has no other effect is an [option]:
    [None] is the panic (failed [assert!], slice index out of range, ...). *)

Definition assert_ (c : bool) : option unit := if c then Some tt else None.

(** [slice[i] = x] on a slice, [Vec] or array: out of range panics. *)
Definition array_set {A} (l : list A) (i : nat) (x : A) : option (list A) :=
  if i <? length l then Some (<[i := x]> l) else None.

(** [for x in xs { acc = f(acc, x) }] where the body may panic. *)
Fixpoint foldM {A B} (f : A -> B -> option A) (xs : list B) (acc : A) : option A :=
  match xs with
  | [] => Some acc
  | x :: xs' => acc' ← f acc x; foldM f xs' acc'
  end.

(** [for i in ixs { output[dst(i)] = input[src(i)]; }], the loop shape of every
    interleaver, puncturer and reordering table of the lower MAC. *)
Definition for_copy {I A} (ixs : list I) (src dst : I -> nat) (input output : list A)
  : option (list A) :=
  foldM (fun out i => x ← input !! src i; array_set out (dst i) x) ixs output.

(** [&slice[a..b]]: panics unless [a <= b <= len]. *)
Definition slice {A} (l : list A) (a b : nat) : option (list A) :=
  if (a <=? b) && (b <=? length l) then Some (take (b - a) (drop a l)) else None.

(** [dst[a..a+src.len()].copy_from_slice(src)]. *)
Definition splice {A} (l : list A) (a : nat) (src : list A) : option (list A) :=
  if a + length src <=? length l
  then Some (take a l ++ src ++ drop (a + length src) l) else None.

(** [slice.chunks_exact(n)]: the whole chunks, the remainder dropped. *)
Fixpoint chunks_exact_fuel {A} (fuel n : nat) (l : list A) : list (list A) :=
  match fuel with
  | O => []
  | S fuel' => if length l <? n then [] else take n l :: chunks_exact_fuel fuel' n (drop n l)
  end.
Definition chunks_exact {A} (n : nat) (l : list A) : list (list A) :=
  chunks_exact_fuel (length l / n) n l.

(** ** Results with a mutated receiver

    A method [fn f(&mut self) -> Result<A, E>] maps a state to a value and a
    new state, to an error and the state it leaves behind, or panics. *)

Inductive outcome (S E A : Type) : Type :=
  | Ok (a : A) (s : S)
  | Err (e : E) (s : S)
  | Panic.
Arguments Ok {S E A} a s.
Arguments Err {S E A} e s.
Arguments Panic {S E A}.

Definition method (S E A : Type) : Type := S -> outcome S E A.

#[global] Instance method_ret {S E} : MRet (method S E) := fun A a s => Ok a s.
#[global] Instance method_bind {S E} : MBind (method S E) :=
  fun A B k m s =>
    match m s with
    | Ok a s' => k a s'
    | Err e s' => Err e s'
    | Panic => Panic
    end.

(** [return Err(e)] *)
Definition fail {S E A} (e : E) : method S E A := fun s => Err e s.
(** A pure, possibly panicking expression used inside a method. *)
Definition panicking {S E A} (o : option A) : method S E A :=
  fun s => match o with Some a => Ok a s | None => Panic end.
(** An expression that only reads the receiver. *)
Definition reading {S E A} (f : S -> A) : method S E A := fun s => Ok (f s) s.

(** ** Machine-width integers *)

Definition u8 (x : Z) : Z := (x mod 2 ^ 8)%Z.
Definition u16 (x : Z) : Z := (x mod 2 ^ 16)%Z.
Definition u32 (x : Z) : Z := (x mod 2 ^ 32)%Z.
Definition u64 (x : Z) : Z := (x mod 2 ^ 64)%Z.
Definition wrap_signed (w x : Z) : Z := ((x + 2 ^ (w - 1)) mod 2 ^ w - 2 ^ (w - 1))%Z.
Definition i8 (x : Z) : Z := wrap_signed 8 x.
Definition i16 (x : Z) : Z := wrap_signed 16 x.
Definition i32 (x : Z) : Z := wrap_signed 32 x.

Definition is_byte (x : Z) : Prop := (0 <= x < 256)%Z.

(** ** Bit strings, most significant bit first *)

Definition b2z (b : bool) : Z := if b then 1%Z else 0%Z.

(** The unsigned integer a bit string denotes. *)
Definition bits_val (l : list bool) : Z := foldl (fun acc b => 2 * acc + b2z b)%Z 0%Z l.

(** The [n] low bits of [v], most significant first. *)
Definition val_bits (n : nat) (v : Z) : list bool :=
  (fun i => Z.testbit v (Z.of_nat (n - 1 - i))) <$> seq 0 n.

(** ** Lemmas on panicking folds *)

Lemma bind_Some {A B} (x : A) (k : A -> option B) : (y ← Some x; k y) = k x.
Proof. done. Qed.

(** Run a step whose result is known. *)
Ltac step := progress (repeat (rewrite bind_Some; cbv beta iota)).

Lemma foldM_app {A B} (f : A -> B -> option A) xs ys acc :
  foldM f (xs ++ ys) acc = acc' ← foldM f xs acc; foldM f ys acc'.
Proof.
  revert acc; induction xs as [|x xs IH]; intros acc; simpl; [done|].
  destruct (f acc x); simpl; auto.
Qed.

(** A fold whose body never panics is an ordinary [foldl]. *)
Lemma foldM_total {A B} (f : A -> B -> option A) (g : A -> B -> A) (P : A -> Prop) (Q : B -> Prop) :
  (forall a b, P a -> Q b -> f a b = Some (g a b) /\ P (g a b)) ->
  forall xs a, P a -> Forall Q xs -> foldM f xs a = Some (foldl g a xs) /\ P (foldl g a xs).
Proof.
  intros Hf xs; induction xs as [|x xs IH]; intros a Ha HQ; simpl; [done|].
  inversion HQ; subst. destruct (Hf a x) as [E HP]; [done..|]. rewrite E. simpl. auto.
Qed.

Lemma array_set_Some {A} (l : list A) i x :
  i < length l -> array_set l i x = Some (<[i := x]> l).
Proof. intros H. unfold array_set. apply Nat.ltb_lt in H. by rewrite H. Qed.

Lemma splice_app {A} (pre old post src : list A) :
  length old = length src ->
  splice (pre ++ old ++ post) (length pre) src = Some (pre ++ src ++ post).
Proof.
  intros H. unfold splice. rewrite !length_app, H.
  rewrite (proj2 (Nat.leb_le _ _)) by lia.
  rewrite take_app_length, drop_app_ge by lia.
  by rewrite drop_app_ge, H, !(Nat.add_comm (length pre)), Nat.add_sub, Nat.sub_diag by lia.
Qed.

Lemma array_set_app {A} (pre : list A) y post x :
  array_set (pre ++ y :: post) (length pre) x = Some (pre ++ x :: post).
Proof.
  rewrite array_set_Some by (rewrite length_app; simpl; lia).
  by rewrite insert_app_r_alt, Nat.sub_diag by lia.
Qed.

Lemma slice_full {A} (l : list A) n : length l = n -> slice l 0 n = Some l.
Proof.
  intros <-. unfold slice. rewrite Nat.leb_refl. simpl. by rewrite Nat.sub_0_r, drop_0, firstn_all.
Qed.

Lemma splice_full {A} (l src : list A) : length l = length src -> splice l 0 src = Some src.
Proof.
  intros H. pose proof (splice_app [] l [] src H) as E. cbn [app] in E.
  by rewrite !app_nil_r in E.
Qed.

Lemma foldM_ext {A B} (f g : A -> B -> option A) xs acc :
  (forall a x, x ∈ xs -> f a x = g a x) -> foldM f xs acc = foldM g xs acc.
Proof.
  revert acc; induction xs as [|x xs IH]; intros acc H; simpl; [done|].
  rewrite H by (by left). destruct (g acc x); simpl; [|done].
  apply IH. intros; apply H. by right.
Qed.

Lemma fmap_rev {A B} (f : A -> B) l : f <$> rev l = rev (f <$> l).
Proof. induction l; simpl; [done|]. by rewrite fmap_app, IHl. Qed.

(** A list with at least [n] elements, split. *)
Lemma split_length {A} (l : list A) n :
  n <= length l -> exists l1 l2, l = l1 ++ l2 /\ length l1 = n.
Proof.
  intros H. exists (take n l), (drop n l). by rewrite take_drop, length_take_le.
Qed.

Lemma chunks_exact_concat {A} n (ls : list (list A)) :
  0 < n -> Forall (fun l => length l = n) ls -> chunks_exact n (concat ls) = ls.
Proof.
  intros Hn H. assert (length (concat ls) = length ls * n) as E.
  { induction H; simpl; [done|]. rewrite length_app. lia. }
  unfold chunks_exact. rewrite E, Nat.div_mul by lia. clear E.
  induction H as [|l ls Hl _ IH]; simpl; [done|].
  rewrite length_app. rewrite (proj2 (Nat.ltb_ge _ _)) by lia.
  f_equal; [by rewrite <- Hl, take_app_length|].
  rewrite drop_app_ge, Hl, Nat.sub_diag by lia. apply IH.
Qed.

(** Every list whose length is a multiple of [n] is a concatenation of chunks. *)
Lemma chunk_list {A} n k (l : list A) :
  length l = k * n ->
  exists ls, l = concat ls /\ length ls = k /\ Forall (fun c => length c = n) ls.
Proof.
  revert l; induction k as [|k IH]; intros l Hl.
  - exists []. destruct l; simpl in *; [done|lia].
  - destruct (IH (drop n l)) as (ls & E & Hk & HF); [rewrite length_drop; lia|].
    exists (take n l :: ls). simpl. rewrite <- E, take_drop, Hk. split_and!; [done..|].
    constructor; [|done]. rewrite length_take. lia.
Qed.

(** The copy loop with distinct in-range destinations: every destination holds
    its source, everything else is untouched. *)
Lemma for_copy_spec {I A} (ixs : list I) (src dst : I -> nat) (input output : list A) :
  NoDup (dst <$> ixs) ->
  Forall (fun i => src i < length input) ixs ->
  Forall (fun i => dst i < length output) ixs ->
  exists out, for_copy ixs src dst input output = Some out /\
    length out = length output /\
    (forall i, i ∈ ixs -> out !! dst i = input !! src i) /\
    (forall j, j ∉ (dst <$> ixs) -> out !! j = output !! j).
Proof.
  revert output; induction ixs as [|i ixs IH]; intros output Hnd Hs Hd; simpl.
  { exists output. repeat split; auto. intros i Hi. by apply not_elem_of_nil in Hi. }
  inversion Hnd as [|? ? Hni Hnd']; inversion Hs as [|? ? Hsi Hs'];
    inversion Hd as [|? ? Hdi Hd']; subst.
  destruct (lookup_lt_is_Some_2 input (src i) Hsi) as [x Hx].
  destruct (IH (<[dst i := x]> output)) as (out & E & Hlen & Hin & Hout); auto.
  { eapply Forall_impl; [exact Hd'|]. intros j Hj. by rewrite length_insert. }
  exists out. unfold for_copy in *. simpl. rewrite Hx. simpl.
  rewrite array_set_Some by done. simpl. rewrite E.
  rewrite length_insert in Hlen. split; [done|]. split; [done|]. split.
  - intros j Hj. apply elem_of_cons in Hj as [->|Hj]; [|auto].
    rewrite Hout by done. by rewrite list_lookup_insert_eq, Hx by done.
  - intros j Hj. apply not_elem_of_cons in Hj as [Hne Hj].
    rewrite Hout by done. by rewrite list_lookup_insert_ne by congruence.
Qed.

Lemma foldM_inv {A B} (P : A -> Prop) (f : A -> B -> option A) xs : forall acc r,
  (forall a x a', P a -> f a x = Some a' -> P a') -> P acc -> foldM f xs acc = Some r -> P r.
Proof.
  induction xs as [|x xs IH]; intros acc r Hf Ha E; simpl in E; [congruence|].
  destruct (f acc x) as [a'|] eqn:Ea; [|done]. simpl in E.
  eapply IH; [exact Hf|by eapply Hf|exact E].
Qed.

(** A copy loop only moves values around. *)
Lemma copy_step_Forall {A} (P : A -> Prop) (input out out' : list A) i j :
  Forall P input -> Forall P out ->
  (x ← input !! i; array_set out j x) = Some out' -> Forall P out'.
Proof.
  intros Hi Ho E. destruct (input !! i) as [x|] eqn:Ex; [|done]. simpl in E.
  unfold array_set in E. destruct (j <? length out); [|done]. injection E as <-.
  apply Forall_insert; [done|]. rewrite Forall_lookup in Hi. eauto.
Qed.

Lemma for_copy_Forall {I A} (P : A -> Prop) (ixs : list I) src dst (input output out : list A) :
  for_copy ixs src dst input output = Some out ->
  Forall P input -> Forall P output -> Forall P out.
Proof.
  intros E Hi Ho. unfold for_copy in E. revert E. apply foldM_inv; [|done].
  intros a x a' Ha. by apply copy_step_Forall.
Qed.

(** Arrays holding one bit per byte. *)
Definition is_bit (x : Z) : Prop := x = 0%Z \/ x = 1%Z.

Lemma is_bit_b2z b : is_bit (b2z b).
Proof. destruct b; [by right|by left]. Qed.

Lemma bits_of_array l : Forall is_bit l -> exists bs, l = b2z <$> bs.
Proof.
  induction 1 as [|x l [-> | ->] _ (bs & ->)]; [by exists []|by exists (false :: bs)|].
  by exists (true :: bs).
Qed.

Lemma array_of_bits bs : Forall is_bit (b2z <$> bs).
Proof. apply Forall_fmap, Forall_true. intros b. apply is_bit_b2z. Qed.

Lemma zeros_are_bits n : replicate n 0%Z = b2z <$> replicate n false.
Proof. by rewrite fmap_replicate. Qed.

(** ** Lemmas on machine-width integers *)

Lemma u8_small x : (0 <= x < 256)%Z -> u8 x = x.
Proof. intros H. unfold u8. apply Z.mod_small. exact H. Qed.
Lemma u16_small x : (0 <= x < 65536)%Z -> u16 x = x.
Proof. intros H. unfold u16. apply Z.mod_small. exact H. Qed.
Lemma u32_small x : (0 <= x < 2 ^ 32)%Z -> u32 x = x.
Proof. intros H. unfold u32. apply Z.mod_small. exact H. Qed.
Lemma u64_small x : (0 <= x < 2 ^ 64)%Z -> u64 x = x.
Proof. intros H. unfold u64. apply Z.mod_small. exact H. Qed.

Lemma wrap_signed_small w x :
  (0 < w)%Z -> (- 2 ^ (w - 1) <= x < 2 ^ (w - 1))%Z -> wrap_signed w x = x.
Proof.
  intros Hw Hx. unfold wrap_signed. rewrite Z.mod_small; [lia|].
  replace (2 ^ w)%Z with (2 * 2 ^ (w - 1))%Z; [lia|].
  rewrite <- Z.pow_succ_r by lia. f_equal. lia.
Qed.
Lemma i8_small x : (-128 <= x < 128)%Z -> i8 x = x.
Proof. intros. by apply wrap_signed_small. Qed.
Lemma i16_small x : (-32768 <= x < 32768)%Z -> i16 x = x.
Proof. intros. by apply wrap_signed_small. Qed.
Lemma i32_small x : (-2147483648 <= x < 2147483648)%Z -> i32 x = x.
Proof. intros. by apply wrap_signed_small. Qed.

(** ** Lemmas on bit strings *)

Lemma length_val_bits n v : length (val_bits n v) = n.
Proof. unfold val_bits. by rewrite length_fmap, length_seq. Qed.

Lemma lookup_val_bits n v i :
  i < n -> val_bits n v !! i = Some (Z.testbit v (Z.of_nat (n - 1 - i))).
Proof.
  intros H. unfold val_bits. rewrite list_lookup_fmap, lookup_seq_lt by done. done.
Qed.

Lemma foldl_bits_val l acc :
  foldl (fun acc b => 2 * acc + b2z b)%Z acc l
  = (acc * 2 ^ Z.of_nat (length l) + bits_val l)%Z.
Proof.
  revert acc; induction l as [|b l IH]; intros acc.
  - cbn. lia.
  - unfold bits_val. cbn [foldl length]. rewrite !IH.
    rewrite Nat2Z.inj_succ, Z.pow_succ_r by lia. nia.
Qed.

Lemma bits_val_cons b l :
  bits_val (b :: l) = (b2z b * 2 ^ Z.of_nat (length l) + bits_val l)%Z.
Proof. unfold bits_val at 1. cbn [foldl]. rewrite foldl_bits_val. lia. Qed.

Lemma bits_val_app l1 l2 :
  bits_val (l1 ++ l2) = (bits_val l1 * 2 ^ Z.of_nat (length l2) + bits_val l2)%Z.
Proof. unfold bits_val at 1. rewrite foldl_app. apply foldl_bits_val. Qed.

Lemma bits_val_bound l : (0 <= bits_val l < 2 ^ Z.of_nat (length l))%Z.
Proof.
  induction l as [|b l IH]; [cbn; lia|].
  rewrite bits_val_cons. cbn [length]. rewrite Nat2Z.inj_succ, Z.pow_succ_r by lia.
  destruct b; cbn [b2z]; lia.
Qed.

Lemma val_bits_S n v : val_bits (S n) v = Z.testbit v (Z.of_nat n) :: val_bits n v.
Proof.
  unfold val_bits. cbn [seq fmap list_fmap].
  replace (S n - 1 - 0) with n by lia. f_equal.
  rewrite <- (fmap_S_seq 0 n), <- list_fmap_compose.
  apply list_fmap_ext. intros i x Hi. apply lookup_seq in Hi as [-> Hi]. simpl.
  do 2 f_equal. lia.
Qed.

Lemma bits_val_val_bits n v : bits_val (val_bits n v) = (v mod 2 ^ Z.of_nat n)%Z.
Proof.
  induction n as [|n IH].
  - cbn. by rewrite Z.mod_1_r.
  - rewrite val_bits_S, bits_val_cons, length_val_bits, IH.
    rewrite <- !Z.land_ones by lia. rewrite Nat2Z.inj_succ.
    rewrite Z.add_nocarry_lxor.
    2:{ apply Z.bits_inj'. intros i Hi. rewrite !Z.land_spec, Z.bits_0.
        rewrite <- Z.shiftl_mul_pow2 by lia.
        destruct (Z.ltb_spec i (Z.of_nat n)).
        - by rewrite Z.shiftl_spec_low by lia.
        - rewrite Z.ones_spec_high by lia. by rewrite andb_false_r, andb_false_r. }
    apply Z.bits_inj'. intros i Hi. rewrite Z.lxor_spec, !Z.land_spec.
    rewrite <- Z.shiftl_mul_pow2 by lia.
    destruct (Z.ltb_spec i (Z.of_nat n)) as [Hlt|Hge].
    + rewrite Z.shiftl_spec_low, !Z.ones_spec_low by lia. btauto.
    + rewrite (Z.ones_spec_high (Z.of_nat n)) by lia.
      rewrite Z.shiftl_spec by lia. rewrite andb_false_r, xorb_false_r.
      destruct (Z.eqb_spec i (Z.of_nat n)) as [->|Hne].
      * rewrite Z.sub_diag, Z.ones_spec_low by lia. by destruct (Z.testbit v _).
      * rewrite Z.ones_spec_high by lia. rewrite andb_false_r.
        destruct (Z.testbit v (Z.of_nat n)); cbn [b2z]; [|by rewrite Z.bits_0].
        apply (Z.bits_above_log2 1); cbn; lia.
Qed.

Lemma bits_val_val_bits_small n v :
  (0 <= v < 2 ^ Z.of_nat n)%Z -> bits_val (val_bits n v) = v.
Proof. intros H. rewrite bits_val_val_bits. by apply Z.mod_small. Qed.

Lemma val_bits_add_mul n v c : val_bits n (v + c * 2 ^ Z.of_nat n) = val_bits n v.
Proof.
  apply list_fmap_ext. intros i x Hi. apply lookup_seq in Hi as [-> Hi]. simpl.
  rewrite <- (Z.mod_pow2_bits_low (v + c * 2 ^ Z.of_nat n) (Z.of_nat n)) by lia.
  rewrite <- (Z.mod_pow2_bits_low v (Z.of_nat n)) by lia.
  by rewrite Z_mod_plus_full.
Qed.

Lemma val_bits_bits_val l : val_bits (length l) (bits_val l) = l.
Proof.
  induction l as [|b l IH]; [done|].
  cbn [length]. rewrite val_bits_S, bits_val_cons. pose proof (bits_val_bound l) as Hb.
  rewrite Z.add_comm, val_bits_add_mul, IH. f_equal.
  rewrite Z.testbit_eqb by lia. rewrite Z_div_plus by lia.
  rewrite Z.div_small by lia. by destruct b.
Qed.

Lemma bits_val_inj l1 l2 : length l1 = length l2 -> bits_val l1 = bits_val l2 -> l1 = l2.
Proof. intros Hl Hv. rewrite <- (val_bits_bits_val l1), <- (val_bits_bits_val l2). congruence. Qed.
