(* ===== verification/BitBuffer.v ===== *)
(** * The bit cursor (crates/tetra-core/src/bitbuffer.rs)

    [BitBuffer] is the byte vector with a window [start, end) and a cursor that
    every PDU codec and every lower-MAC stage reads and writes.  The definitions
    follow the byte-wise code (head bits, full bytes, tail bits); the theorems
    relate it to an abstract bit string.  [usize] positions are [nat]: a buffer
    is far shorter than 2^64 bits, so no position computation overflows. *)

From Stdlib Require Import ZArith Lia ZifyNat Btauto Ascii.
From stdpp Require Import strings.
From S2P Require Import Prelude.

(** ** Parse errors (crates/tetra-core/src/pdu_parse_error.rs) *)

Inductive PduParseErr :=
  | InvalidPduType (expected found : Z)
  | BufferEnded (field : option string)
  | InvalidTrailingMbitValue
  | InvalidElemId (found : Z)
  | FieldNotPresent (field : option string)
  | InvalidValue (field : string) (value : Z)
  | InconsistentLength (expected found : nat)
  | Inconsistency (field reason : string)
  | NotImplemented (field : option string).

#[global] Instance PduParseErr_eq_dec : EqDecision PduParseErr.
Proof. solve_decision. Defined.

(** ** The structure *)

Record BitBuffer := mkBitBuffer {
  buffer : list Z;
  start : nat;
  pos : nat;
  end_ : nat;
  flag_autoexpand : bool
}.

Abbreviation M := (method BitBuffer PduParseErr).

Definition with_pos (self : BitBuffer) (p : nat) : BitBuffer :=
  mkBitBuffer (buffer self) (start self) p (end_ self) (flag_autoexpand self).
Definition with_buffer (self : BitBuffer) (l : list Z) : BitBuffer :=
  mkBitBuffer l (start self) (pos self) (end_ self) (flag_autoexpand self).

(** ** Construction *)

Definition new (len_bits : nat) : BitBuffer :=
  mkBitBuffer (replicate ((len_bits + 7) / 8) 0%Z) 0 0 len_bits false.

Definition new_autoexpand (initial_max_len_bits : nat) : BitBuffer :=
  mkBitBuffer (replicate ((initial_max_len_bits + 7) / 8) 0%Z) 0 0 0 true.

Definition from_vec (data : list Z) : BitBuffer :=
  mkBitBuffer data 0 0 (length data * 8) false.

(** ** Lengths and cursors *)

Definition get_len (self : BitBuffer) : nat := end_ self - start self.
Definition get_len_remaining (self : BitBuffer) : nat := end_ self - pos self.
Definition get_len_written (self : BitBuffer) : nat := pos self - start self.
Definition get_pos (self : BitBuffer) : nat := pos self - start self.

Definition seek (offset : nat) : M unit := fun self =>
  let abs := start self + offset in
  if abs <=? end_ self then Ok tt (with_pos self abs) else Panic.

(** A negative [new_pos] becomes a huge [usize] and fails the same assertion. *)
Definition seek_rel (offset : Z) : M unit := fun self =>
  let new_pos := (Z.of_nat (pos self) + offset)%Z in
  if ((Z.of_nat (start self) <=? new_pos) && (new_pos <=? Z.of_nat (end_ self)))%Z
  then Ok tt (with_pos self (Z.to_nat new_pos)) else Panic.

Definition set_raw_start (s : nat) : M unit := fun self =>
  if (s <=? end_ self) && (s <=? pos self)
  then Ok tt (mkBitBuffer (buffer self) s (pos self) (end_ self) (flag_autoexpand self))
  else Panic.

Definition set_raw_end (e : nat) : M unit := fun self =>
  if (e <=? length (buffer self) * 8) && (start self <=? e) && (pos self <=? e)
  then Ok tt (mkBitBuffer (buffer self) (start self) (pos self) e (flag_autoexpand self))
  else Panic.

Definition set_raw_pos (p : nat) : M unit := fun self =>
  if (start self <=? p) && (p <=? end_ self) then Ok tt (with_pos self p) else Panic.

(** ** Reading *)

(** The [while bits_remaining >= 8] loop; [fuel] bounds its iterations. *)
Fixpoint read_full_bytes (fuel : nat) (buf : list Z) (result : Z) (bit_pos bits_remaining : nat)
  : option (Z * nat * nat) :=
  match fuel with
  | 0 => Some (result, bit_pos, bits_remaining)
  | S fuel' =>
      if 8 <=? bits_remaining then
        byte ← buf !! (bit_pos / 8);
        read_full_bytes fuel' buf (Z.lor (u64 (Z.shiftl result 8)) byte)
          (bit_pos + 8) (bits_remaining - 8)
      else Some (result, bit_pos, bits_remaining)
  end.

Definition read_head (buf : list Z) (bit_pos num_bits : nat) : option (Z * nat * nat) :=
  let head := bit_pos mod 8 in
  if negb (head =? 0) && (0 <? num_bits) then
    let take := Nat.min (8 - head) num_bits in
    byte ← buf !! (bit_pos / 8);
    let shift := 8 - head - take in
    let mask := u8 (Z.shiftl 1 (Z.of_nat take) - 1) in
    let bits := Z.land (Z.shiftr byte (Z.of_nat shift)) mask in
    Some (bits, bit_pos + take, num_bits - take)
  else Some (0%Z, bit_pos, num_bits).

Definition read_tail (buf : list Z) (result : Z) (bit_pos bits_remaining : nat) : option Z :=
  if 0 <? bits_remaining then
    byte ← buf !! (bit_pos / 8);
    Some (foldl (fun result i =>
      let shift := 7 - (bit_pos mod 8 + i) in
      let bit := Z.land (Z.shiftr byte (Z.of_nat shift)) 1 in
      Z.lor (u64 (Z.shiftl result 1)) bit) result (seq 0 bits_remaining))
  else Some result.

Definition read_bits_at_unchecked (self : BitBuffer) (bit_pos num_bits : nat) : option Z :=
  '(result, bit_pos, bits_remaining) ← read_head (buffer self) bit_pos num_bits;
  '(result, bit_pos, bits_remaining) ←
    read_full_bytes bits_remaining (buffer self) result bit_pos bits_remaining;
  read_tail (buffer self) result bit_pos bits_remaining.

Definition read_bit_at_unchecked (self : BitBuffer) (bit_pos : nat) : option Z :=
  byte ← buffer self !! (bit_pos / 8);
  Some (Z.land (Z.shiftr byte (Z.of_nat (7 - bit_pos mod 8))) 1).

(** The outer [option] is the slice panic, the inner one the Rust [Option]. *)
Definition peek_bits_startoffset (self : BitBuffer) (offset num_bits : nat)
  : option (option Z) :=
  let abs_pos := start self + offset in
  if (64 <? num_bits) || (end_ self <? start self + offset + num_bits) then Some None
  else v ← read_bits_at_unchecked self abs_pos num_bits; Some (Some v).

(** [offset as usize] of a negative [isize] wraps modulo 2^64. *)
Definition peek_bits_posoffset (self : BitBuffer) (offset : Z) (num_bits : nat)
  : option (option Z) :=
  let start_offset :=
    if (0 <=? offset)%Z then pos self - start self + Z.to_nat offset
    else Z.to_nat (u64 (Z.of_nat (pos self - start self) + u64 offset)) in
  peek_bits_startoffset self start_offset num_bits.

Definition peek_bits (self : BitBuffer) (num_bits : nat) : option (option Z) :=
  peek_bits_posoffset self 0 num_bits.

Definition read_bits (num_bits : nat) : M (option Z) := fun self =>
  match peek_bits_startoffset self (pos self - start self) num_bits with
  | None => Panic
  | Some None => Ok None self
  | Some (Some v) => Ok (Some v) (with_pos self (pos self + num_bits))
  end.

Definition read_bit : M (option Z) := fun self =>
  match peek_bits_startoffset self (pos self - start self) 1 with
  | None => Panic
  | Some None => Ok None self
  | Some (Some v) => Ok (Some (u8 v)) (with_pos self (pos self + 1))
  end.

Definition read_field (num_bits : nat) (error_string : string) : M Z :=
  v ← read_bits num_bits;
  match v with
  | Some v => mret v
  | None => fail (BufferEnded (Some error_string))
  end.

(** [Option::unwrap] *)
Definition unwrap {A} (m : M (option A)) : M A := o ← m; panicking o.

(** ** Writing *)

Definition _realloc_tail (self : BitBuffer) (new_cap_bits : nat) : option BitBuffer :=
  let new_cap_bytes := (new_cap_bits + 7) / 8 in
  if length (buffer self) <=? new_cap_bytes
  then Some (with_buffer self (buffer self ++ replicate (new_cap_bytes - length (buffer self)) 0%Z))
  else None.

Definition _move_end (needed_extra_bits : nat) (self : BitBuffer) : option BitBuffer :=
  let free_cap_bits := length (buffer self) * 8 - end_ self in
  let needed_total_bits := end_ self + needed_extra_bits in
  self ← (if free_cap_bits <? needed_extra_bits then
            let double_cap_bits := length (buffer self) * 8 * 2 in
            let new_cap_bits := Nat.max needed_total_bits double_cap_bits in
            _realloc_tail self new_cap_bits
          else Some self);
  Some (mkBitBuffer (buffer self) (start self) (pos self) (end_ self + needed_extra_bits)
          (flag_autoexpand self)).

Definition u8_not (x : Z) : Z := u8 (Z.lnot x).

(** The byte update [byte = (byte & !(mask as u8)) | (bits_to_write << shift)]. *)
Definition merge_byte (byte bits_to_write : Z) (nbits shift : nat) : Z :=
  let mask := Z.shiftl (Z.shiftl 1 (Z.of_nat nbits) - 1) (Z.of_nat shift) in
  Z.lor (Z.land byte (u8_not (u8 mask))) (u8 (Z.shiftl bits_to_write (Z.of_nat shift))).

Definition low_mask (n : nat) : Z := (Z.shiftl 1 (Z.of_nat n) - 1)%Z.

Definition write_head (buf : list Z) (v : Z) (cur remaining : nat)
  : option (list Z * nat * nat) :=
  let head_offset := cur mod 8 in
  if negb (head_offset =? 0) && (0 <? remaining) then
    let h := Nat.min remaining (8 - head_offset) in
    let idx := cur / 8 in
    byte ← buf !! idx;
    let bits_to_write := Z.land (u8 (Z.shiftr v (Z.of_nat (remaining - h)))) (low_mask h) in
    let shift := 8 - (head_offset + h) in
    buf ← array_set buf idx (merge_byte byte bits_to_write h shift);
    Some (buf, cur + h, remaining - h)
  else Some (buf, cur, remaining).

Fixpoint write_full_bytes (fuel : nat) (buf : list Z) (v : Z) (cur remaining : nat)
  : option (list Z * nat * nat) :=
  match fuel with
  | 0 => Some (buf, cur, remaining)
  | S fuel' =>
      if 8 <=? remaining then
        let idx := cur / 8 in
        let byte_val := u8 (Z.land (Z.shiftr v (Z.of_nat (remaining - 8))) 255) in
        buf ← array_set buf idx byte_val;
        write_full_bytes fuel' buf v (cur + 8) (remaining - 8)
      else Some (buf, cur, remaining)
  end.

Definition write_tail (buf : list Z) (v : Z) (cur remaining : nat) : option (list Z) :=
  if 0 <? remaining then
    let idx := cur / 8 in
    byte ← buf !! idx;
    let bits_to_write := Z.land (u8 v) (low_mask remaining) in
    let shift := 8 - (cur mod 8 + remaining) in
    array_set buf idx (merge_byte byte bits_to_write remaining shift)
  else Some buf.

Definition write_at (buf : list Z) (v : Z) (cur remaining : nat) : option (list Z) :=
  '(buf, cur, remaining) ← write_head buf v cur remaining;
  '(buf, cur, remaining) ← write_full_bytes remaining buf v cur remaining;
  write_tail buf v cur remaining.

(** [if self.pos + n > self.end { if autoexpand { _move_end(n) } else { panic } }] *)
Definition make_room (num_bits : nat) (self : BitBuffer) : option BitBuffer :=
  if end_ self <? pos self + num_bits then
    if flag_autoexpand self then _move_end num_bits self else None
  else Some self.

Definition write_bits (value : Z) (num_bits : nat) : M unit := fun self =>
  if negb (num_bits <=? 64) then Panic
  else if negb ((num_bits =? 64) || (Z.shiftr value (Z.of_nat num_bits) =? 0)%Z) then Panic
  else match make_room num_bits self with
  | None => Panic
  | Some self =>
      let v := if num_bits =? 64 then value else Z.land value (low_mask num_bits) in
      match write_at (buffer self) v (pos self) num_bits with
      | None => Panic
      | Some buf => Ok tt (with_pos (with_buffer self buf) (pos self + num_bits))
      end
  end.

Definition write_bit (value : Z) : M unit := fun self =>
  if negb ((value =? 0) || (value =? 1))%Z then Panic
  else match make_room 1 self with
  | None => Panic
  | Some self =>
      let index := pos self / 8 in
      match buffer self !! index with
      | None => Panic
      | Some byte =>
          let mask := u8 (Z.shiftl 1 (Z.of_nat (7 - pos self mod 8))) in
          let byte := Z.land byte (u8_not mask) in
          let byte := Z.lor byte (u8 (Z.shiftl value (Z.of_nat (7 - pos self mod 8)))) in
          match array_set (buffer self) index byte with
          | None => Panic
          | Some buf => Ok tt (with_pos (with_buffer self buf) (pos self + 1))
          end
      end
  end.

(** Xors the bit at [pos]; note that neither [end] nor autoexpand is consulted. *)
Definition xor_bit (value : Z) : M unit := fun self =>
  let index := pos self / 8 in
  match buffer self !! index with
  | None => Panic
  | Some byte =>
      let byte := Z.lxor byte (u8 (Z.shiftl value (Z.of_nat (7 - pos self mod 8)))) in
      match array_set (buffer self) index byte with
      | None => Panic
      | Some buf => Ok tt (with_pos (with_buffer self buf) (pos self + 1))
      end
  end.

(** The chunk loops: 64 bits per iteration, [fuel] bounds the iterations. *)
Fixpoint write_zeroes_loop (fuel bits_remaining : nat) : M unit :=
  match fuel with
  | 0 => mret tt
  | S fuel' =>
      if 0 <? bits_remaining then
        let chunk_size := Nat.min bits_remaining 64 in
        _ ← write_bits 0 chunk_size;
        write_zeroes_loop fuel' (bits_remaining - chunk_size)
      else mret tt
  end.
Definition write_zeroes (num_bits : nat) : M unit := write_zeroes_loop num_bits num_bits.

Fixpoint write_ones_loop (fuel bits_remaining : nat) : M unit :=
  match fuel with
  | 0 => mret tt
  | S fuel' =>
      if 0 <? bits_remaining then
        let chunk_size := Nat.min bits_remaining 64 in
        let val := Z.shiftr 18446744073709551615 (Z.of_nat (64 - chunk_size)) in
        _ ← write_bits val chunk_size;
        write_ones_loop fuel' (bits_remaining - chunk_size)
      else mret tt
  end.
Definition write_ones (num_bits : nat) : M unit := write_ones_loop num_bits num_bits.

(** [dst.copy_bits(src, num_bits)]; the state is the pair (dst, src). *)
Fixpoint copy_bits_loop (fuel bits_remaining : nat) (self src : BitBuffer)
  : outcome (BitBuffer * BitBuffer) PduParseErr unit :=
  match fuel with
  | 0 => Ok tt (self, src)
  | S fuel' =>
      if 0 <? bits_remaining then
        let bits_to_copy := Nat.min bits_remaining 64 in
        if bits_to_copy <=? get_len_remaining src then
          match unwrap (read_bits bits_to_copy) src with
          | Ok v src =>
              match write_bits v bits_to_copy self with
              | Ok _ self => copy_bits_loop fuel' (bits_remaining - bits_to_copy) self src
              | _ => Panic
              end
          | _ => Panic
          end
        else Panic
      else Ok tt (self, src)
  end.
Definition copy_bits (num_bits : nat) (self src : BitBuffer)
  : outcome (BitBuffer * BitBuffer) PduParseErr unit :=
  copy_bits_loop num_bits num_bits self src.

(** [copy_bits_from_bitarr]: one bit per byte. *)
Fixpoint copy_bits_from_bitarr (buf : list Z) : M unit :=
  match buf with
  | [] => mret tt
  | bit :: buf' =>
      if ((bit =? 0) || (bit =? 1))%Z
      then _ ← write_bit bit; copy_bits_from_bitarr buf'
      else panicking None
  end.

Definition from_bitarr (data : list Z) : option BitBuffer :=
  match copy_bits_from_bitarr data (new (length data)) with
  | Ok _ buf => Some (with_pos buf (start buf))
  | _ => None
  end.

(** A literal of ['0'] and ['1'] characters; any other character panics. *)
Fixpoint write_bitstr (bitstr : list Ascii.ascii) : M unit :=
  match bitstr with
  | [] => mret tt
  | c :: bitstr' =>
      if Ascii.eqb c "0"%char then _ ← write_bit 0; write_bitstr bitstr'
      else if Ascii.eqb c "1"%char then _ ← write_bit 1; write_bitstr bitstr'
      else panicking None
  end.

Definition from_bitstr (bitstr : string) : option BitBuffer :=
  match write_bitstr (String.list_ascii_of_string bitstr) (new (String.length bitstr)) with
  | Ok _ buf => Some (with_pos buf (start buf))
  | _ => None
  end.

Definition from_bitbuffer (bitbuffer : BitBuffer) : option BitBuffer :=
  let start_byte := start bitbuffer / 8 in
  let end_byte := (end_ bitbuffer + 7) / 8 in
  buf ← slice (buffer bitbuffer) start_byte end_byte;
  let start := start bitbuffer mod 8 in
  Some (mkBitBuffer buf start start (start + get_len bitbuffer) false).

Definition from_bitbuffer_pos (bitbuffer : BitBuffer) : option BitBuffer :=
  let start_byte := pos bitbuffer / 8 in
  let end_byte := (end_ bitbuffer + 7) / 8 in
  buf ← slice (buffer bitbuffer) start_byte end_byte;
  let start := pos bitbuffer mod 8 in
  Some (mkBitBuffer buf start start (start + get_len_remaining bitbuffer) false).

(** [to_bitarr(&mut slice)] with a slice of [num_bits] entries: the whole slice
    is overwritten, so its new contents are the result. *)
Fixpoint to_bitarr_loop (fuel bits_remaining : nat) (acc : list Z) : M (list Z) :=
  match fuel with
  | 0 => mret acc
  | S fuel' =>
      if 0 <? bits_remaining then
        let bits_to_read := Nat.min bits_remaining 64 in
        v ← unwrap (read_bits bits_to_read);
        let chunk := (fun i => u8 (Z.land (Z.shiftr v (Z.of_nat (bits_to_read - 1 - i))) 1))
                       <$> seq 0 bits_to_read in
        to_bitarr_loop fuel' (bits_remaining - bits_to_read) (acc ++ chunk)
      else mret acc
  end.
Definition to_bitarr (num_bits : nat) : M (list Z) := to_bitarr_loop num_bits num_bits [].

Definition to_bitstr (self : BitBuffer) : option string :=
  cs ← mapM (fun i =>
         bit ← read_bit_at_unchecked self (start self + i);
         Some (if (bit =? 1)%Z then "1"%char else "0"%char))
       (seq 0 (get_len self));
  Some (String.string_of_list_ascii cs).

(** [into_bitvec]: note the missing [self.start +]. *)
Definition into_bitvec (self : BitBuffer) : option (list Z) :=
  mapM (fun i => read_bit_at_unchecked self i) (seq 0 (get_len self)).

(** [read_bits_into_slice]: the bytes written to the output slice. *)
Fixpoint read_bits_into_slice_loop (num_bytes bits_remaining : nat) (acc : list Z)
  : M (option (list Z)) :=
  match num_bytes with
  | 0 => mret (Some acc)
  | S num_bytes' =>
      let bits_in_byte := Nat.min bits_remaining 8 in
      v ← read_bits bits_in_byte;
      match v with
      | None => mret None
      | Some v =>
          let byte := u8 (Z.shiftl (u8 v) (Z.of_nat (8 - bits_in_byte))) in
          read_bits_into_slice_loop num_bytes' (bits_remaining - bits_in_byte) (acc ++ [byte])
      end
  end.
Definition read_bits_into_slice (num_bits buf_len : nat) : M (option (list Z)) :=
  let num_bytes := (num_bits + 7) / 8 in
  if num_bytes <=? buf_len then read_bits_into_slice_loop num_bytes num_bits []
  else panicking None.

(** [xor_bytearr]: chunks of up to 64 bits, each read, xored with the next bytes of [data] and
    written back; [None] when the bits run out. *)
Definition xor_chunk (bytes : list Z) (chunk_bits : nat) : Z :=
  Z.shiftr (foldl (fun acc byte => Z.lor (u64 (Z.shiftl acc 8)) byte) 0%Z bytes) (Z.of_nat ((8 - chunk_bits mod 8) mod 8)).
Fixpoint xor_bytearr_loop (fuel : nat) (data : list Z) (bits_remaining : nat) : M (option unit) :=
  match fuel with
  | 0 => mret (Some tt)
  | S fuel' =>
      if 0 <? bits_remaining then
        let chunk_bits := Nat.min bits_remaining 64 in
        v ← read_bits chunk_bits;
        match v with
        | None => mret None
        | Some val =>
            let chunk_bytes := (chunk_bits + 7) / 8 in
            bytes ← panicking (slice data 0 chunk_bytes);
            _ ← seek_rel (- Z.of_nat chunk_bits);
            _ ← write_bits (Z.lxor val (xor_chunk bytes chunk_bits)) chunk_bits;
            xor_bytearr_loop fuel' (drop chunk_bytes data) (bits_remaining - chunk_bits)
        end
      else mret (Some tt)
  end.
Definition xor_bytearr (data : list Z) (num_bits : nat) : M (option unit) := xor_bytearr_loop num_bits data num_bits.
