(* ===== verification/BitBufferFacts.v ===== *)
(** * The bit cursor as a bit string

    The byte-wise reader and writer of [BitBuffer] against the abstract view of
    a buffer as a string of bits, the window invariant, and the sequential
    reasoning rules ([parses], [emits]) that the PDU codecs are verified with. *)

From Stdlib Require Import ZArith Lia ZifyNat Btauto.
From stdpp Require Import strings.
From S2P Require Import Prelude BitBuffer.

(** ** The abstract view *)

(** Bit [i] of a byte vector, most significant bit of each byte first. *)
Definition getbit (buf : list Z) (i : nat) : bool :=
  Z.testbit (buf !!! (i / 8)) (Z.of_nat (7 - i mod 8)).
Definition getbits (buf : list Z) (p n : nat) : list bool := getbit buf <$> seq p n.

(** The window invariant of the structure. *)
Record wf (b : BitBuffer) : Prop := {
  wf_bytes : Forall is_byte (buffer b);
  wf_start : start b <= pos b;
  wf_pos : pos b <= end_ b;
  wf_end : end_ b <= 8 * length (buffer b)
}.

(** What is left to read, and the whole window. *)
Definition remaining (b : BitBuffer) : list bool :=
  getbits (buffer b) (pos b) (end_ b - pos b).
Definition window (b : BitBuffer) : list bool :=
  getbits (buffer b) (start b) (end_ b - start b).

(** ** Bit-string bookkeeping *)

Lemma length_getbits buf p n : length (getbits buf p n) = n.
Proof. unfold getbits. by rewrite length_fmap, length_seq. Qed.

Lemma getbits_app buf p n m : getbits buf p (n + m) = getbits buf p n ++ getbits buf (p + n) m.
Proof. unfold getbits. by rewrite seq_app, fmap_app. Qed.

Lemma lookup_getbits buf p n i : i < n -> getbits buf p n !! i = Some (getbit buf (p + i)).
Proof. intros H. unfold getbits. by rewrite list_lookup_fmap, lookup_seq_lt. Qed.

Lemma getbits_ext buf buf' p p' n :
  (forall i, i < n -> getbit buf (p + i) = getbit buf' (p' + i)) ->
  getbits buf p n = getbits buf' p' n.
Proof.
  intros H. apply list_eq. intros i. destruct (decide (i < n)) as [Hi|Hi].
  - rewrite !lookup_getbits by done. by rewrite H.
  - rewrite !lookup_ge_None_2; [done|rewrite length_getbits; lia..].
Qed.

Lemma take_getbits buf p n k : k <= n -> take k (getbits buf p n) = getbits buf p k.
Proof.
  intros H. replace n with (k + (n - k)) by lia.
  rewrite getbits_app, take_app_le, take_ge; rewrite ?length_getbits; auto.
Qed.

Lemma drop_getbits buf p n k : k <= n -> drop k (getbits buf p n) = getbits buf (p + k) (n - k).
Proof.
  intros H. replace n with (k + (n - k)) at 1 by lia.
  rewrite getbits_app, drop_app_length'; [done|by rewrite length_getbits].
Qed.

Lemma lookup_byte (buf : list Z) i :
  Forall is_byte buf -> i < length buf ->
  exists x, buf !! i = Some x /\ buf !!! i = x /\ is_byte x.
Proof.
  intros Hb Hi. destruct (lookup_lt_is_Some_2 buf i Hi) as [x Hx].
  exists x. split; [done|]. split.
  - by apply list_lookup_total_correct.
  - rewrite Forall_lookup in Hb. eauto.
Qed.

Lemma testbit_byte_high x k : is_byte x -> (8 <= k)%Z -> Z.testbit x k = false.
Proof.
  intros [H0 H1] Hk. destruct (Z.eqb_spec x 0) as [->|Hx]; [apply Z.bits_0|].
  apply Z.bits_above_log2; [lia|]. apply Z.log2_lt_pow2; [lia|].
  pose proof (Z.pow_le_mono_r 2 8 k). lia.
Qed.

(** ** Reading *)

Lemma shiftl_lor_add a b k :
  (0 <= k)%Z -> (0 <= b < 2 ^ k)%Z -> Z.lor (Z.shiftl a k) b = (a * 2 ^ k + b)%Z.
Proof.
  intros Hk Hb. rewrite <- Z.shiftl_mul_pow2 by done. symmetry.
  rewrite Z.add_nocarry_lxor.
  - apply Z.bits_inj'. intros i Hi. rewrite Z.lxor_spec, Z.lor_spec.
    destruct (Z.ltb_spec i k).
    + rewrite Z.shiftl_spec_low by lia. btauto.
    + rewrite <- (Z.mod_small b (2 ^ k)) by lia.
      rewrite Z.mod_pow2_bits_high by lia. btauto.
  - apply Z.bits_inj'. intros i Hi. rewrite Z.land_spec, Z.bits_0.
    destruct (Z.ltb_spec i k).
    + rewrite Z.shiftl_spec_low by lia. btauto.
    + rewrite <- (Z.mod_small b (2 ^ k)) by lia.
      rewrite Z.mod_pow2_bits_high by lia. btauto.
Qed.

(** The bits of a single byte, extracted with a shift and a mask. *)
Lemma bits_of_byte buf p k :
  p mod 8 + k <= 8 ->
  bits_val (getbits buf p k)
  = Z.land (Z.shiftr (buf !!! (p / 8)) (Z.of_nat (8 - p mod 8 - k))) (Z.ones (Z.of_nat k)).
Proof.
  intros Hk. rewrite Z.land_ones by lia. rewrite <- bits_val_val_bits. f_equal.
  apply list_eq. intros i. destruct (decide (i < k)) as [Hi|Hi].
  - rewrite lookup_getbits, lookup_val_bits by done. f_equal. unfold getbit.
    rewrite Z.shiftr_spec by lia.
    replace ((p + i) / 8) with (p / 8) by divlia.
    f_equal. replace ((p + i) mod 8) with (p mod 8 + i) by divlia. lia.
  - rewrite !lookup_ge_None_2; [done|rewrite ?length_getbits, ?length_val_bits; lia..].
Qed.

Lemma ones_shiftl n : (Z.shiftl 1 (Z.of_nat n) - 1)%Z = Z.ones (Z.of_nat n).
Proof. rewrite Z.ones_equiv, Z.shiftl_1_l. lia. Qed.

Definition head_len (p n : nat) : nat :=
  if (p mod 8 =? 0) then 0 else Nat.min (8 - p mod 8) n.

Lemma read_head_spec buf p n :
  Forall is_byte buf -> p + n <= 8 * length buf ->
  read_head buf p n
  = Some (bits_val (getbits buf p (head_len p n)), p + head_len p n, n - head_len p n).
Proof.
  intros Hb Hn. unfold read_head, head_len.
  destruct (Nat.eqb_spec (p mod 8) 0) as [E|E]; simpl.
  { by rewrite Nat.add_0_r, Nat.sub_0_r. }
  destruct (Nat.ltb_spec 0 n) as [Hn0|Hn0]; simpl.
  2:{ replace n with 0 by lia. rewrite Nat.min_0_r, Nat.add_0_r. done. }
  destruct (lookup_byte buf (p / 8)) as (x & Hx & Hx' & Hxb); [done|divlia|].
  rewrite Hx. simpl. do 3 f_equal.
  rewrite bits_of_byte by lia. rewrite Hx', ones_shiftl.
  rewrite u8_small; [done|]. rewrite Z.ones_equiv.
  pose proof (Z.pow_le_mono_r 2 (Z.of_nat (Nat.min (8 - p mod 8) n)) 8).
  pose proof (Z.pow_pos_nonneg 2 (Z.of_nat (Nat.min (8 - p mod 8) n))). lia.
Qed.

Lemma byte_as_bits buf p :
  Forall is_byte buf -> p mod 8 = 0 -> p / 8 < length buf ->
  buf !!! (p / 8) = bits_val (getbits buf p 8).
Proof.
  intros Hb Hp Hl. rewrite bits_of_byte by lia. rewrite Hp. simpl.
  destruct (lookup_byte buf (p / 8)) as (x & _ & -> & [H0 H1]); [done..|].
  rewrite Z.shiftr_0_r, Z.land_ones by lia. by rewrite Z.mod_small.
Qed.

(** Appending [k] bits below an accumulator of a [u64] that has room for them. *)
Lemma u64_push l v k :
  length l + k <= 64 -> (0 <= v < 2 ^ Z.of_nat k)%Z ->
  Z.lor (u64 (Z.shiftl (bits_val l) (Z.of_nat k))) v
  = (bits_val l * 2 ^ Z.of_nat k + v)%Z.
Proof.
  intros Hl Hv. rewrite u64_small; [apply shiftl_lor_add; lia|].
  rewrite Z.shiftl_mul_pow2 by lia. pose proof (bits_val_bound l) as Hb.
  assert (2 ^ (Z.of_nat (length l)) * 2 ^ Z.of_nat k <= 2 ^ 64)%Z.
  { rewrite <- Z.pow_add_r by lia. apply Z.pow_le_mono_r; lia. }
  pose proof (Z.pow_pos_nonneg 2 (Z.of_nat k)). nia.
Qed.

Lemma read_full_bytes_spec fuel buf l p n :
  Forall is_byte buf -> (n <> 0 -> p mod 8 = 0) -> p + n <= 8 * length buf ->
  length l + n <= 64 -> n / 8 <= fuel ->
  read_full_bytes fuel buf (bits_val l) p n
  = Some (bits_val (l ++ getbits buf p (8 * (n / 8))), p + 8 * (n / 8), n mod 8).
Proof.
  intros Hb. revert l p n; induction fuel as [|fuel IH]; intros l p n Hp Hn Hl Hf; simpl.
  { replace (n / 8) with 0 by lia. simpl. rewrite app_nil_r, Nat.add_0_r.
    do 2 f_equal. divlia. }
  destruct (Nat.leb_spec 8 n) as [H8|H8].
  2:{ replace (n / 8) with 0 by divlia. simpl. rewrite app_nil_r, Nat.add_0_r.
      do 2 f_equal. divlia. }
  assert (Hp0 : p mod 8 = 0) by (apply Hp; lia). clear Hp.
  destruct (lookup_byte buf (p / 8)) as (x & Hx & Hx' & Hxb); [done|divlia|].
  rewrite Hx. simpl.
  change 8%Z with (Z.of_nat 8). rewrite u64_push; [|lia|exact Hxb].
  replace (bits_val l * 2 ^ Z.of_nat 8 + x)%Z with (bits_val (l ++ getbits buf p 8)).
  2:{ rewrite bits_val_app, length_getbits. f_equal. rewrite <- Hx'. symmetry.
      apply byte_as_bits; [done|lia|divlia]. }
  rewrite IH; [|divlia|lia|rewrite length_app, length_getbits; lia|divlia].
  replace (8 * (n / 8)) with (8 + 8 * ((n - 8) / 8)) by divlia.
  rewrite getbits_app, app_assoc. do 2 f_equal; [f_equal; first [done|lia]|divlia].
Qed.

Lemma read_tail_spec buf l p n :
  Forall is_byte buf -> p mod 8 + n <= 8 -> p + n <= 8 * length buf -> length l + n <= 64 ->
  read_tail buf (bits_val l) p n = Some (bits_val (l ++ getbits buf p n)).
Proof.
  intros Hb Hp Hn Hl. unfold read_tail.
  destruct (Nat.ltb_spec 0 n) as [H|H].
  2:{ replace n with 0 by lia. simpl. by rewrite app_nil_r. }
  destruct (lookup_byte buf (p / 8)) as (x & Hx & Hx' & Hxb); [done|divlia|].
  rewrite Hx. simpl. f_equal.
  assert (Hgen : forall k j l, j + k <= n -> length l + k <= 64 ->
    foldl (fun result i => Z.lor (u64 (Z.shiftl result 1))
       (Z.land (Z.shiftr x (Z.of_nat (7 - (p mod 8 + i)))) 1)) (bits_val l) (seq j k)
    = bits_val (l ++ getbits buf (p + j) k)).
  { intros k; induction k as [|k IH]; intros j l' Hj Hl'; simpl; [by rewrite app_nil_r|].
    assert (Hbit : Z.land (Z.shiftr x (Z.of_nat (7 - (p mod 8 + j)))) 1
                   = bits_val (getbits buf (p + j) 1)).
    { rewrite bits_of_byte by divlia. replace ((p + j) / 8) with (p / 8) by divlia.
      rewrite Hx'. replace (8 - (p + j) mod 8 - 1) with (7 - (p mod 8 + j)) by divlia.
      done. }
    rewrite Hbit. change (Z.shiftl (bits_val l') 1) with (Z.shiftl (bits_val l') (Z.of_nat 1)).
    rewrite u64_push; [|lia|].
    2:{ pose proof (bits_val_bound (getbits buf (p + j) 1)) as B.
        by rewrite length_getbits in B. }
    replace (bits_val l' * 2 ^ Z.of_nat 1 + bits_val (getbits buf (p + j) 1))%Z
      with (bits_val (l' ++ getbits buf (p + j) 1)).
    2:{ by rewrite bits_val_app, length_getbits. }
    rewrite IH; [|lia|rewrite length_app, length_getbits; lia].
    rewrite <- app_assoc. f_equal. change (S k) with (1 + k).
    rewrite getbits_app. by replace (p + S j) with (p + j + 1) by lia. }
  rewrite Hgen by lia. by rewrite Nat.add_0_r.
Qed.

(** The byte-wise reader returns the value of the addressed bit string. *)
Lemma read_bits_at_unchecked_spec b p n :
  Forall is_byte (buffer b) -> p + n <= 8 * length (buffer b) -> n <= 64 ->
  read_bits_at_unchecked b p n = Some (bits_val (getbits (buffer b) p n)).
Proof.
  intros Hb Hn H64. unfold read_bits_at_unchecked.
  rewrite read_head_spec by done. simpl. set (h := head_len p n).
  assert (Hh : h <= n /\ (n - h <> 0 -> (p + h) mod 8 = 0)).
  { unfold h, head_len. destruct (Nat.eqb_spec (p mod 8) 0); split; divlia. }
  destruct Hh as [Hh1 Hh2].
  rewrite read_full_bytes_spec; [|done|done|lia|rewrite length_getbits; lia|divlia].
  simpl. rewrite read_tail_spec; [|done|..].
  - rewrite <- app_assoc, <- getbits_app.
    replace (8 * ((n - h) / 8) + (n - h) mod 8) with (n - h) by divlia.
    rewrite <- getbits_app. do 3 f_equal. lia.
  - destruct (decide (n - h = 0)) as [E|E].
    + rewrite E. change (0 / 8) with 0. change (0 mod 8) with 0. divlia.
    + specialize (Hh2 E). divlia.
  - divlia.
  - rewrite length_app, !length_getbits. divlia.
Qed.

Lemma read_bit_at_unchecked_spec b p :
  Forall is_byte (buffer b) -> p < 8 * length (buffer b) ->
  read_bit_at_unchecked b p = Some (b2z (getbit (buffer b) p)).
Proof.
  intros Hb Hp. unfold read_bit_at_unchecked.
  destruct (lookup_byte (buffer b) (p / 8)) as (x & Hx & Hx' & Hxb); [done|divlia|].
  rewrite Hx. simpl. f_equal. unfold getbit. rewrite Hx'.
  change 1%Z with (Z.ones 1). rewrite Z.land_ones by lia.
  rewrite Z.shiftr_div_pow2 by lia. change (2 ^ 1)%Z with 2%Z.
  rewrite <- Z.testbit_spec' by lia. by destruct (Z.testbit _ _).
Qed.

(** ** Writing *)

Lemma testbit_u8 x k : (0 <= k)%Z -> Z.testbit (u8 x) k = (k <? 8)%Z && Z.testbit x k.
Proof.
  intros Hk. unfold u8. destruct (Z.ltb_spec k 8).
  - by rewrite Z.mod_pow2_bits_low by lia.
  - by rewrite Z.mod_pow2_bits_high by lia.
Qed.

Lemma u8_is_byte x : is_byte (u8 x).
Proof. unfold is_byte, u8. change 256%Z with (2 ^ 8)%Z. apply Z.mod_pos_bound. done. Qed.

Lemma is_byte_bits x : (forall k, (8 <= k)%Z -> Z.testbit x k = false) -> is_byte x.
Proof.
  intros H. assert (x = u8 x) as ->; [|apply u8_is_byte].
  apply Z.bits_inj'. intros i Hi. rewrite testbit_u8 by done.
  destruct (Z.ltb_spec i 8); [done|]. by apply H.
Qed.

Lemma lor_is_byte x y : is_byte x -> is_byte y -> is_byte (Z.lor x y).
Proof. intros. apply is_byte_bits. intros. by rewrite Z.lor_spec, !testbit_byte_high. Qed.
Lemma land_is_byte x y : is_byte x -> is_byte (Z.land x y).
Proof. intros. apply is_byte_bits. intros. by rewrite Z.land_spec, testbit_byte_high. Qed.
Lemma lxor_is_byte x y : is_byte x -> is_byte y -> is_byte (Z.lxor x y).
Proof. intros. apply is_byte_bits. intros. by rewrite Z.lxor_spec, !testbit_byte_high. Qed.

(** Every bit of an updated byte: the field comes from the written value, the
    neighbouring bits from the old byte. *)
Lemma merge_byte_spec byte bits n shift k :
  is_byte byte -> n + shift <= 8 -> k < 8 ->
  Z.testbit (merge_byte byte bits n shift) (Z.of_nat k)
  = if (shift <=? k) && (k <? shift + n) then Z.testbit bits (Z.of_nat (k - shift))
    else Z.testbit byte (Z.of_nat k) || ((shift + n <=? k) && Z.testbit bits (Z.of_nat (k - shift))).
Proof.
  intros Hb Hn Hk. unfold merge_byte, u8_not.
  rewrite Z.lor_spec, Z.land_spec, !testbit_u8 by lia.
  rewrite Z.lnot_spec, testbit_u8 by lia. rewrite ones_shiftl.
  btrue (Z.of_nat k <? 8)%Z. simpl.
  destruct (Nat.leb_spec shift k) as [H1|H1]; simpl.
  - rewrite !Z.shiftl_spec by lia.
    replace (Z.of_nat k - Z.of_nat shift)%Z with (Z.of_nat (k - shift)) by lia.
    destruct (Nat.ltb_spec k (shift + n)) as [H2|H2].
    + rewrite Z.ones_spec_low by lia. simpl. btauto.
    + rewrite Z.ones_spec_high by lia. simpl.
      btrue (shift + n <=? k). btauto.
  - rewrite !Z.shiftl_spec_low by lia. simpl.
    bfalse (shift + n <=? k). btauto.
Qed.

Lemma merge_byte_is_byte byte bits n shift : is_byte byte -> is_byte (merge_byte byte bits n shift).
Proof. intros. apply lor_is_byte; [by apply land_is_byte|apply u8_is_byte]. Qed.

(** [upd p e f buf buf']: [buf'] is [buf] with the bits of [p, e) replaced. *)
Definition upd (p e : nat) (f : nat -> bool) (buf buf' : list Z) : Prop :=
  length buf' = length buf /\ Forall is_byte buf' /\
  forall i, i < 8 * length buf ->
    getbit buf' i = if (p <=? i) && (i <? e) then f i else getbit buf i.

Lemma upd_refl p f buf : Forall is_byte buf -> upd p p f buf buf.
Proof.
  intros H. split; [done|]. split; [done|]. intros i _.
  destruct (Nat.leb_spec p i), (Nat.ltb_spec i p); simpl; (done || lia).
Qed.

Lemma upd_trans p q e f buf1 buf2 buf3 :
  p <= q -> q <= e -> upd p q f buf1 buf2 -> upd q e f buf2 buf3 -> upd p e f buf1 buf3.
Proof.
  intros Hpq Hqe (L1 & B1 & G1) (L2 & B2 & G2). split; [lia|]. split; [done|].
  intros i Hi. rewrite G2 by lia. rewrite G1 by lia.
  destruct (Nat.leb_spec q i), (Nat.ltb_spec i e), (Nat.leb_spec p i), (Nat.ltb_spec i q);
    simpl; (done || lia).
Qed.

(** One byte replaced. *)
Lemma upd_byte buf p n x f :
  Forall is_byte buf -> is_byte x -> p mod 8 + n <= 8 -> p + n <= 8 * length buf ->
  p / 8 < length buf ->
  (forall k, k < 8 -> Z.testbit x (Z.of_nat (7 - k))
     = if (p mod 8 <=? k) && (k <? p mod 8 + n) then f (8 * (p / 8) + k)
       else Z.testbit (buf !!! (p / 8)) (Z.of_nat (7 - k))) ->
  upd p (p + n) f buf (<[p / 8 := x]> buf).
Proof.
  intros Hb Hx Hn Hl Hlt Hbits. split; [by rewrite length_insert|]. split.
  { by apply Forall_insert. }
  intros i Hi. unfold getbit. destruct (decide (i / 8 = p / 8)) as [E|E].
  - rewrite E, list_lookup_total_insert_eq by lia. rewrite Hbits by divlia.
    replace (8 * (p / 8) + i mod 8) with i by divlia.
    replace (p mod 8 <=? i mod 8) with (p <=? i).
    2:{ destruct (Nat.leb_spec p i), (Nat.leb_spec (p mod 8) (i mod 8)); divlia. }
    replace (i mod 8 <? p mod 8 + n) with (i <? p + n); [done|].
    destruct (Nat.ltb_spec i (p + n)), (Nat.ltb_spec (i mod 8) (p mod 8 + n)); divlia.
  - rewrite list_lookup_total_insert_ne by congruence.
    destruct (Nat.leb_spec p i), (Nat.ltb_spec i (p + n)); simpl; try done. divlia.
Qed.

(** The masked merge as an update: [n] bits of [v >> (rem - n)] at [cur]. *)
Lemma upd_merge buf v cur n rem :
  Forall is_byte buf -> cur mod 8 + n <= 8 -> n <= rem -> 0 < n -> cur + n <= 8 * length buf ->
  upd cur (cur + n) (fun i => Z.testbit v (Z.of_nat (cur + rem - 1 - i))) buf
    (<[cur / 8 := merge_byte (buf !!! (cur / 8))
         (Z.land (u8 (Z.shiftr v (Z.of_nat (rem - n)))) (low_mask n)) n
         (8 - (cur mod 8 + n))]> buf).
Proof.
  intros Hb Hn Hr H0 Hl.
  destruct (lookup_byte buf (cur / 8)) as (x & _ & Hx & Hxb); [done|divlia|]. rewrite Hx.
  apply upd_byte; [done|by apply merge_byte_is_byte|done|done|divlia|].
  intros k Hk. rewrite merge_byte_spec by (done || lia). rewrite Hx.
  unfold low_mask. rewrite ones_shiftl, !Z.land_spec.
  destruct (Nat.leb_spec (8 - (cur mod 8 + n)) (7 - k)) as [H1|H1],
    (Nat.ltb_spec (7 - k) (8 - (cur mod 8 + n) + n)) as [H2|H2]; simpl.
  - btrue (cur mod 8 <=? k).
    btrue (k <? cur mod 8 + n). simpl.
    rewrite testbit_u8, Z.ones_spec_low by lia. rewrite Z.shiftr_spec by lia.
    btrue (Z.of_nat (7 - k - (8 - (cur mod 8 + n))) <? 8)%Z.
    rewrite andb_true_r. simpl. f_equal. divlia.
  - rewrite Z.ones_spec_high by lia. rewrite !andb_false_r, orb_false_r.
    bfalse (cur mod 8 <=? k). done.
  - (* below the field *)
    bfalse (k <? cur mod 8 + n).
    rewrite andb_false_r. bfalse (8 - (cur mod 8 + n) + n <=? 7 - k). by rewrite orb_false_r.
  - lia.
Qed.

Lemma write_head_spec buf v cur rem :
  Forall is_byte buf -> cur + rem <= 8 * length buf ->
  exists buf', write_head buf v cur rem
    = Some (buf', cur + head_len cur rem, rem - head_len cur rem) /\
  upd cur (cur + head_len cur rem) (fun i => Z.testbit v (Z.of_nat (cur + rem - 1 - i))) buf buf'.
Proof.
  intros Hb Hl. unfold write_head, head_len.
  destruct (Nat.eqb_spec (cur mod 8) 0) as [E|E]; simpl.
  { exists buf. rewrite Nat.add_0_r, Nat.sub_0_r. split; [done|by apply upd_refl]. }
  destruct (Nat.ltb_spec 0 rem) as [H0|H0]; simpl.
  2:{ exists buf. replace rem with 0 by lia. rewrite Nat.min_0_r, Nat.add_0_r.
      split; [done|by apply upd_refl]. }
  rewrite (Nat.min_comm rem). set (h := Nat.min (8 - cur mod 8) rem).
  assert (Hh : 0 < h /\ h <= rem /\ cur mod 8 + h <= 8) by (unfold h; divlia).
  destruct (lookup_byte buf (cur / 8)) as (x & Hx & Hx' & Hxb); [done|divlia|].
  rewrite Hx. simpl. rewrite array_set_Some by divlia. simpl.
  eexists. split; [done|]. rewrite <- Hx'. apply upd_merge; [done|lia..].
Qed.

Lemma write_full_bytes_spec fuel buf v cur rem :
  Forall is_byte buf -> (rem <> 0 -> cur mod 8 = 0) -> cur + rem <= 8 * length buf ->
  rem / 8 <= fuel ->
  exists buf', write_full_bytes fuel buf v cur rem
    = Some (buf', cur + 8 * (rem / 8), rem mod 8) /\
  upd cur (cur + 8 * (rem / 8)) (fun i => Z.testbit v (Z.of_nat (cur + rem - 1 - i))) buf buf'.
Proof.
  revert buf cur rem; induction fuel as [|fuel IH]; intros buf cur rem Hb Hp Hl Hf; simpl.
  { replace (rem / 8) with 0 by lia. exists buf. rewrite Nat.mul_0_r, Nat.add_0_r.
    split; [do 2 f_equal; divlia|by apply upd_refl]. }
  destruct (Nat.leb_spec 8 rem) as [H8|H8].
  2:{ replace (rem / 8) with 0 by divlia. exists buf. rewrite Nat.mul_0_r, Nat.add_0_r.
      split; [do 2 f_equal; divlia|by apply upd_refl]. }
  assert (Hp0 : cur mod 8 = 0) by (apply Hp; lia). clear Hp.
  rewrite array_set_Some by divlia. simpl.
  set (buf1 := <[cur / 8 := _]> buf).
  assert (U1 : upd cur (cur + 8) (fun i => Z.testbit v (Z.of_nat (cur + rem - 1 - i))) buf buf1).
  { apply upd_byte; [done|apply u8_is_byte|lia|lia|divlia|]. intros k Hk.
    change 255%Z with (Z.ones 8). rewrite testbit_u8, Z.land_spec by lia.
    rewrite Z.ones_spec_low, Z.shiftr_spec by lia.
    btrue (Z.of_nat (7 - k) <? 8)%Z.
    btrue (cur mod 8 <=? k).
    btrue (k <? cur mod 8 + 8).
    rewrite andb_true_r. simpl. f_equal. divlia. }
  pose proof U1 as (L1 & B1 & _).
  destruct (IH buf1 (cur + 8) (rem - 8)) as (buf' & E & U2); [done|divlia|lia|divlia|].
  exists buf'. rewrite E. split; [do 2 f_equal; [f_equal|]; divlia|].
  replace (cur + 8 * (rem / 8)) with (cur + 8 + 8 * ((rem - 8) / 8)) by divlia.
  eapply (upd_trans _ (cur + 8)); [lia|lia|exact U1|].
  replace (cur + rem - 1) with (cur + 8 + (rem - 8) - 1) by lia. done.
Qed.

Lemma write_tail_spec buf v cur rem :
  Forall is_byte buf -> cur mod 8 + rem <= 8 -> cur + rem <= 8 * length buf ->
  exists buf', write_tail buf v cur rem = Some buf' /\
  upd cur (cur + rem) (fun i => Z.testbit v (Z.of_nat (cur + rem - 1 - i))) buf buf'.
Proof.
  intros Hb Hm Hl. unfold write_tail. destruct (Nat.ltb_spec 0 rem) as [H0|H0].
  2:{ exists buf. replace rem with 0 by lia. rewrite Nat.add_0_r.
      split; [done|by apply upd_refl]. }
  destruct (lookup_byte buf (cur / 8)) as (x & Hx & Hx' & Hxb); [done|divlia|].
  rewrite Hx. simpl. rewrite array_set_Some by divlia. eexists. split; [done|].
  rewrite <- Hx'. replace (u8 v) with (u8 (Z.shiftr v (Z.of_nat (rem - rem)))).
  2:{ rewrite Nat.sub_diag. by rewrite Z.shiftr_0_r. }
  by apply upd_merge.
Qed.

(** The byte-wise writer replaces exactly the addressed bits by those of [v]. *)
Lemma write_at_spec buf v p n :
  Forall is_byte buf -> p + n <= 8 * length buf ->
  exists buf', write_at buf v p n = Some buf' /\
    upd p (p + n) (fun i => Z.testbit v (Z.of_nat (p + n - 1 - i))) buf buf'.
Proof.
  intros Hb Hl. unfold write_at.
  destruct (write_head_spec buf v p n) as (b1 & E1 & U1); [done..|]. rewrite E1. simpl.
  set (h := head_len p n) in *.
  assert (Hh : h <= n /\ (n - h <> 0 -> (p + h) mod 8 = 0)).
  { unfold h, head_len. destruct (Nat.eqb_spec (p mod 8) 0); split; divlia. }
  destruct Hh as [Hh1 Hh2]. pose proof U1 as (L1 & B1 & _).
  destruct (write_full_bytes_spec (n - h) b1 v (p + h) (n - h)) as (b2 & E2 & U2);
    [done|done|lia|divlia|].
  rewrite E2. simpl. pose proof U2 as (L2 & B2 & _).
  destruct (write_tail_spec b2 v (p + h + 8 * ((n - h) / 8)) ((n - h) mod 8)) as (b3 & E3 & U3).
  { done. }
  { destruct (decide (n - h = 0)) as [E|E].
    - rewrite E. change (0 / 8) with 0. change (0 mod 8) with 0. divlia.
    - specialize (Hh2 E). divlia. }
  { divlia. }
  exists b3. split; [done|].
  eapply (upd_trans _ (p + h)); [lia|lia|exact U1|].
  replace (p + h + (n - h) - 1) with (p + n - 1) in U2 by lia.
  replace (p + h + 8 * ((n - h) / 8) + (n - h) mod 8) with (p + n) in U3 by divlia.
  eapply (upd_trans _ (p + h + 8 * ((n - h) / 8))); [lia|divlia|exact U2|exact U3].
Qed.

(** ** Growing the buffer *)

Lemma getbit_app_l buf ext i : i < 8 * length buf -> getbit (buf ++ ext) i = getbit buf i.
Proof. intros H. unfold getbit. rewrite lookup_total_app_l by divlia. done. Qed.

Lemma is_byte_0 : is_byte 0.
Proof. unfold is_byte. lia. Qed.

(** Room for [n] more bits: inside the window, or appending to a growing buffer. *)
Definition room (b : BitBuffer) (n : nat) : Prop :=
  pos b + n <= end_ b \/ (flag_autoexpand b = true /\ pos b = end_ b).

(** Same bits, at least the same capacity, end moved to [e]. *)
Record grown (b b' : BitBuffer) (e : nat) : Prop := {
  gr_wf : wf b';
  gr_start : start b' = start b;
  gr_pos : pos b' = pos b;
  gr_flag : flag_autoexpand b' = flag_autoexpand b;
  gr_end : end_ b' = e;
  gr_bits : forall i, i < end_ b -> getbit (buffer b') i = getbit (buffer b) i
}.

Lemma move_end_spec b n :
  wf b -> exists b', _move_end n b = Some b' /\ grown b b' (end_ b + n).
Proof.
  intros [Wb Ws Wp We]. unfold _move_end.
  destruct (Nat.ltb_spec (length (buffer b) * 8 - end_ b) n) as [H|H]; simpl.
  - unfold _realloc_tail. set (cap := (Nat.max _ _ + 7) / 8).
    assert (Hc : length (buffer b) <= cap /\ end_ b + n <= 8 * cap) by (unfold cap; divlia).
    destruct Hc as [Hc1 Hc2]. btrue (length (buffer b) <=? cap). simpl.
    eexists. split; [done|]. constructor; simpl; try done.
    + constructor; simpl; try lia.
      * apply Forall_app_2; [done|]. apply Forall_replicate, is_byte_0.
      * rewrite length_app, length_replicate. lia.
    + intros i Hi. apply getbit_app_l. lia.
  - eexists. split; [done|]. constructor; simpl; try done. constructor; simpl; lia || done.
Qed.

Lemma make_room_spec b n :
  wf b -> room b n ->
  exists b', make_room n b = Some b' /\ grown b b' (Nat.max (end_ b) (pos b + n)).
Proof.
  intros W R. pose proof W as [Wb Ws Wp We]. unfold make_room.
  destruct (Nat.ltb_spec (end_ b) (pos b + n)) as [H|H].
  - destruct R as [R|[R1 R2]]; [lia|]. rewrite R1.
    replace (Nat.max (end_ b) (pos b + n)) with (end_ b + n) by lia. by apply move_end_spec.
  - eexists. split; [done|]. constructor; simpl; try done. lia.
Qed.

(** ** Sequential writing *)

(** [wrote b b' bs]: the bits [bs] were written at the cursor, the cursor moved
    behind them, everything else in the window is as before. *)
Record wrote (b b' : BitBuffer) (bs : list bool) : Prop := {
  wr_wf : wf b';
  wr_start : start b' = start b;
  wr_pos : pos b' = pos b + length bs;
  wr_flag : flag_autoexpand b' = flag_autoexpand b;
  wr_end : end_ b' = Nat.max (end_ b) (pos b + length bs);
  wr_bits : getbits (buffer b') (pos b) (length bs) = bs;
  wr_frame : forall i, i < pos b \/ pos b + length bs <= i < end_ b ->
    getbit (buffer b') i = getbit (buffer b) i
}.

(** [emits m a bs]: wherever there is room, [m] returns [a] and writes [bs]. *)
Definition emits {A} (m : M A) (a : A) (bs : list bool) : Prop :=
  forall b, wf b -> room b (length bs) -> exists b', m b = Ok a b' /\ wrote b b' bs.

Lemma wrote_nil b : wf b -> wrote b b [].
Proof.
  intros W. pose proof W as [Wb Ws Wp We]. constructor; simpl; try done; lia.
Qed.

Lemma wrote_trans b b1 b2 bs1 bs2 :
  wrote b b1 bs1 -> wrote b1 b2 bs2 -> wrote b b2 (bs1 ++ bs2).
Proof.
  intros [W1 S1 P1 F1 E1 B1 R1] [W2 S2 P2 F2 E2 B2 R2].
  constructor; rewrite ?length_app; try done; try lia; try congruence.
  - rewrite getbits_app. f_equal.
    + rewrite <- B1 at 2. apply getbits_ext. intros i Hi. apply R2. left. lia.
    + rewrite <- B2 at 2. by rewrite P1.
  - intros i [Hi|Hi].
    + rewrite R2 by lia. apply R1. lia.
    + rewrite R2 by lia. apply R1. lia.
Qed.

Lemma room_wrote b b1 bs1 n : room b (length bs1 + n) -> wrote b b1 bs1 -> room b1 n.
Proof.
  intros [R|[R1 R2]] [W1 S1 P1 F1 E1 B1 _]; [left; lia|right]. split; [congruence|lia].
Qed.

Lemma emits_ret {A} (a : A) : emits (mret a) a [].
Proof. intros b W _. exists b. split; [done|by apply wrote_nil]. Qed.

Lemma emits_bind {A B} (m : M A) (k : A -> M B) a c bs1 bs2 :
  emits m a bs1 -> emits (k a) c bs2 -> emits (m ≫= k) c (bs1 ++ bs2).
Proof.
  intros H1 H2 b W R. rewrite length_app in R.
  destruct (H1 b) as (b1 & E1 & W1); [done|destruct R; [left; lia|right; done]|].
  destruct (H2 b1) as (b2 & E2 & W2); [by destruct W1|by eapply room_wrote|].
  exists b2. split; [|by eapply wrote_trans].
  unfold mbind, method_bind. by rewrite E1.
Qed.

Lemma upd_wrote b b1 buf bs :
  wf b -> grown b b1 (Nat.max (end_ b) (pos b + length bs)) ->
  upd (pos b1) (pos b1 + length bs) (fun i => default false (bs !! (i - pos b1))) (buffer b1) buf ->
  wrote b (with_pos (with_buffer b1 buf) (pos b1 + length bs)) bs.
Proof.
  intros W [G1 G2 G3 G4 G5 G6] (L & By & U). pose proof G1 as [Wb Ws Wp We].
  destruct W as [Wb0 Ws0 Wp0 We0].
  constructor; simpl; try done; try lia.
  - constructor; simpl; try done; lia.
  - apply list_eq. intros i. destruct (decide (i < length bs)) as [Hi|Hi].
    + rewrite lookup_getbits by done. rewrite U by lia.
      btrue (pos b1 <=? pos b + i). btrue (pos b + i <? pos b1 + length bs). simpl.
      replace (pos b + i - pos b1) with i by lia.
      destruct (lookup_lt_is_Some_2 bs i Hi) as [x Hx]. by rewrite Hx.
    + rewrite !lookup_ge_None_2; [done|lia|rewrite length_getbits; lia].
  - intros i Hi. rewrite U by lia. rewrite <- G6 by lia.
    destruct Hi as [Hi|Hi].
    + by bfalse (pos b1 <=? i).
    + bfalse (i <? pos b1 + length bs). by rewrite andb_false_r.
Qed.

Lemma write_bits_emits v n :
  (0 <= v < 2 ^ Z.of_nat n)%Z -> n <= 64 -> emits (write_bits v n) tt (val_bits n v).
Proof.
  intros Hv Hn b W R. rewrite length_val_bits in R. unfold write_bits.
  btrue (n <=? 64). simpl. rewrite Z.shiftr_div_pow2, Z.div_small by lia.
  rewrite orb_true_r. simpl.
  destruct (make_room_spec b n) as (b1 & -> & G); [done..|].
  replace (if n =? 64 then v else Z.land v (low_mask n)) with v.
  2:{ destruct (n =? 64); [done|]. unfold low_mask.
      by rewrite ones_shiftl, Z.land_ones, Z.mod_small by lia. }
  pose proof G as [[Wb Ws Wp We] G2 G3 G4 G5 G6].
  destruct (write_at_spec (buffer b1) v (pos b1) n) as (buf & -> & U); [done|lia|].
  eexists. split; [done|].
  replace (pos b1 + n) with (pos b1 + length (val_bits n v)) by (rewrite length_val_bits; lia).
  apply upd_wrote; [done|by rewrite length_val_bits|].
  rewrite length_val_bits. destruct U as (L & By & U). split; [done|]. split; [done|].
  intros i Hi. rewrite U by done.
  destruct (Nat.leb_spec (pos b1) i), (Nat.ltb_spec i (pos b1 + n)); simpl; try done.
  rewrite lookup_val_bits by lia. simpl. do 2 f_equal. lia.
Qed.

Lemma write_bit_emits (x : bool) : emits (write_bit (b2z x)) tt [x].
Proof.
  intros b W R. unfold write_bit.
  replace (negb _) with false by (by destruct x).
  destruct (make_room_spec b 1) as (b1 & -> & G); [done..|].
  pose proof G as [[Wb Ws Wp We] G2 G3 G4 G5 G6].
  destruct (lookup_byte (buffer b1) (pos b1 / 8)) as (y & Hy & Hy' & Hyb); [done|divlia|].
  rewrite Hy, array_set_Some by divlia. eexists. split; [done|].
  apply (upd_wrote b b1 _ [x]); [done|done|]. simpl.
  apply upd_byte; [done| |divlia|lia|divlia|].
  { apply lor_is_byte; [by apply land_is_byte|apply u8_is_byte]. }
  intros k Hk. unfold u8_not.
  rewrite Z.lor_spec, Z.land_spec, !testbit_u8 by lia.
  btrue (Z.of_nat (7 - k) <? 8)%Z. rewrite Z.lnot_spec, testbit_u8, Hy' by lia.
  btrue (Z.of_nat (7 - k) <? 8)%Z. simpl.
  destruct (decide (k = pos b1 mod 8)) as [->|Hne].
  - btrue (pos b1 mod 8 <=? pos b1 mod 8). btrue (pos b1 mod 8 <? pos b1 mod 8 + 1). simpl.
    rewrite !Z.shiftl_spec, !Z.sub_diag by lia.
    replace (8 * (pos b1 / 8) + pos b1 mod 8 - pos b1) with 0 by divlia. simpl.
    by destruct (Z.testbit y _), x.
  - replace ((pos b1 mod 8 <=? k) && (k <? pos b1 mod 8 + 1)) with false.
    2:{ symmetry. apply andb_false_iff. rewrite Nat.leb_gt, Nat.ltb_ge. lia. }
    assert (Hs : forall z, (0 <= z <= 1)%Z ->
      Z.testbit (Z.shiftl z (Z.of_nat (7 - pos b1 mod 8))) (Z.of_nat (7 - k)) = false).
    { intros z Hz. destruct (Z.ltb_spec (Z.of_nat (7 - k)) (Z.of_nat (7 - pos b1 mod 8))).
      - by apply Z.shiftl_spec_low.
      - rewrite Z.shiftl_spec by lia. destruct (decide (z = 0)%Z) as [->|]; [apply Z.bits_0|].
        replace z with 1%Z by lia. apply (Z.bits_above_log2 1); [lia|]. cbn. divlia. }
    rewrite !Hs by (destruct x; simpl; lia). simpl. btauto.
Qed.

Lemma val_bits_0 n : val_bits n 0 = replicate n false.
Proof.
  apply list_eq. intros i. destruct (decide (i < n)) as [Hi|Hi].
  - rewrite lookup_val_bits by done. rewrite Z.bits_0. by rewrite lookup_replicate_2.
  - rewrite !lookup_ge_None_2; [done|rewrite ?length_replicate, ?length_val_bits; lia..].
Qed.

Lemma val_bits_ones n : val_bits n (Z.ones (Z.of_nat n)) = replicate n true.
Proof.
  apply list_eq. intros i. destruct (decide (i < n)) as [Hi|Hi].
  - rewrite lookup_val_bits by done. rewrite Z.ones_spec_low by lia.
    by rewrite lookup_replicate_2.
  - rewrite !lookup_ge_None_2; [done|rewrite ?length_replicate, ?length_val_bits; lia..].
Qed.

Lemma write_zeroes_emits n : emits (write_zeroes n) tt (replicate n false).
Proof.
  unfold write_zeroes.
  assert (H : forall fuel n, n <= fuel -> emits (write_zeroes_loop fuel n) tt (replicate n false)).
  { intros fuel; induction fuel as [|fuel IH]; intros m Hm; simpl.
    { replace m with 0 by lia. apply emits_ret. }
    destruct (Nat.ltb_spec 0 m); [|replace m with 0 by lia; apply emits_ret].
    replace (replicate m false)
      with (replicate (Nat.min m 64) false ++ replicate (m - Nat.min m 64) false).
    2:{ rewrite <- replicate_add. f_equal. lia. }
    apply emits_bind with tt; [|apply IH; lia].
    rewrite <- val_bits_0. apply write_bits_emits; [|lia].
    pose proof (Z.pow_pos_nonneg 2 (Z.of_nat (Nat.min m 64))). lia. }
  by apply H.
Qed.

Lemma write_ones_emits n : emits (write_ones n) tt (replicate n true).
Proof.
  unfold write_ones.
  assert (H : forall fuel n, n <= fuel -> emits (write_ones_loop fuel n) tt (replicate n true)).
  { intros fuel; induction fuel as [|fuel IH]; intros m Hm; simpl.
    { replace m with 0 by lia. apply emits_ret. }
    destruct (Nat.ltb_spec 0 m); [|replace m with 0 by lia; apply emits_ret].
    replace (replicate m true)
      with (replicate (Nat.min m 64) true ++ replicate (m - Nat.min m 64) true).
    2:{ rewrite <- replicate_add. f_equal. lia. }
    apply emits_bind with tt; [|apply IH; lia].
    set (c := Nat.min m 64).
    replace (Z.shiftr 18446744073709551615 (Z.of_nat (64 - c))) with (Z.ones (Z.of_nat c)).
    2:{ change 18446744073709551615%Z with (Z.ones 64). assert (c <= 64) by lia.
        apply Z.bits_inj'. intros i Hi. rewrite Z.shiftr_spec by done.
        destruct (Z.ltb_spec i (Z.of_nat c)).
        - by rewrite !Z.ones_spec_low by lia.
        - by rewrite !Z.ones_spec_high by lia. }
    rewrite <- val_bits_ones. apply write_bits_emits; [|lia].
    rewrite Z.ones_equiv. pose proof (Z.pow_pos_nonneg 2 (Z.of_nat c)). lia. }
  by apply H.
Qed.

Lemma copy_bits_from_bitarr_emits bs :
  emits (copy_bits_from_bitarr (b2z <$> bs)) tt bs.
Proof.
  induction bs as [|x bs IH]; [apply emits_ret|]. simpl.
  replace ((b2z x =? 0) || (b2z x =? 1))%Z with true by (by destruct x).
  change (x :: bs) with ([x] ++ bs).
  apply emits_bind with tt; [apply write_bit_emits|done].
Qed.

(** ** Sequential reading *)

(** [parses m bs rest a]: with [bs ++ rest] ahead of the cursor, [m] consumes
    exactly [bs] and returns [a]; the lookahead [rest] is left in place. *)
Definition parses {A} (m : M A) (bs rest : list bool) (a : A) : Prop :=
  forall b, wf b -> remaining b = bs ++ rest ->
    m b = Ok a (with_pos b (pos b + length bs)).

Lemma length_remaining b : length (remaining b) = end_ b - pos b.
Proof. apply length_getbits. Qed.

Lemma remaining_with_pos b n :
  n <= end_ b - pos b -> remaining (with_pos b (pos b + n)) = drop n (remaining b).
Proof.
  intros H. unfold remaining. simpl. rewrite drop_getbits by done. f_equal. lia.
Qed.

Lemma wf_with_pos b p : wf b -> start b <= p <= end_ b -> wf (with_pos b p).
Proof. intros [Wb Ws Wp We] H. constructor; simpl; try done; lia. Qed.

Lemma wf_advance b n : wf b -> n <= end_ b - pos b -> wf (with_pos b (pos b + n)).
Proof. intros [Wb Ws Wp We] H. constructor; simpl; try done; lia. Qed.

Lemma parses_advance b bs rest :
  wf b -> remaining b = bs ++ rest ->
  wf (with_pos b (pos b + length bs)) /\
  remaining (with_pos b (pos b + length bs)) = rest /\ length bs <= end_ b - pos b.
Proof.
  intros W E. assert (H : length bs <= end_ b - pos b).
  { rewrite <- length_remaining, E, length_app. lia. }
  split; [by apply wf_advance|]. split; [|done].
  by rewrite remaining_with_pos, E, drop_app_length.
Qed.

Lemma parses_ret {A} (a : A) rest : parses (mret a) [] rest a.
Proof.
  intros b W E. simpl. rewrite Nat.add_0_r. by destruct b.
Qed.

Lemma parses_bind {A B} (m : M A) (k : A -> M B) a c bs1 bs2 rest :
  parses m bs1 (bs2 ++ rest) a -> parses (k a) bs2 rest c ->
  parses (m ≫= k) (bs1 ++ bs2) rest c.
Proof.
  intros H1 H2 b W E. rewrite <- app_assoc in E.
  unfold mbind, method_bind. rewrite (H1 b) by done.
  destruct (parses_advance b bs1 (bs2 ++ rest)) as (W1 & R1 & _); [done..|].
  rewrite (H2 _ W1 R1). simpl. rewrite length_app. unfold with_pos. simpl.
  by rewrite Nat.add_assoc.
Qed.

Lemma peek_bits_startoffset_spec b off n :
  wf b -> n <= 64 -> start b + off + n <= end_ b ->
  peek_bits_startoffset b off n
  = Some (Some (bits_val (getbits (buffer b) (start b + off) n))).
Proof.
  intros [Wb Ws Wp We] Hn Ho. unfold peek_bits_startoffset.
  bfalse (64 <? n). bfalse (end_ b <? start b + off + n). simpl.
  by rewrite read_bits_at_unchecked_spec by (done || lia).
Qed.

(** Looking ahead at [n] bits, [off] bits behind the cursor. *)
Lemma peek_ahead b off n :
  wf b -> n <= 64 ->
  peek_bits_posoffset b (Z.of_nat off) n =
  Some (if length (remaining b) <? off + n then None else Some (bits_val (take n (drop off (remaining b))))).
Proof.
  intros W Hn. rewrite length_remaining. pose proof W as [Wb Ws Wp We].
  unfold peek_bits_posoffset. btrue (0 <=? Z.of_nat off)%Z. rewrite Nat2Z.id.
  destruct (Nat.ltb_spec (end_ b - pos b) (off + n)) as [H|H].
  - unfold peek_bits_startoffset. btrue (end_ b <? start b + (pos b - start b + off) + n). by rewrite orb_true_r.
  - rewrite peek_bits_startoffset_spec by (done || lia). unfold remaining.
    rewrite drop_getbits, take_getbits by lia. do 4 f_equal. lia.
Qed.

Lemma peek_here b n :
  wf b -> n <= 64 ->
  peek_bits b n = Some (if length (remaining b) <? n then None else Some (bits_val (take n (remaining b)))).
Proof. intros W Hn. apply (peek_ahead b 0 n W Hn). Qed.

Lemma read_bits_parses n bs rest :
  length bs = n -> n <= 64 -> parses (read_bits n) bs rest (Some (bits_val bs)).
Proof.
  intros <- Hn b W E. destruct (parses_advance b bs rest) as (W1 & R1 & Hl); [done..|].
  pose proof W as [Wb Ws Wp We]. unfold read_bits.
  rewrite peek_bits_startoffset_spec by (done || lia).
  replace (start b + (pos b - start b)) with (pos b) by lia.
  do 2 f_equal. replace (getbits _ _ _) with bs; [done|].
  rewrite <- (take_getbits _ _ (end_ b - pos b)) by lia.
  change (getbits (buffer b) (pos b) (end_ b - pos b)) with (remaining b).
  by rewrite E, take_app_length.
Qed.

(** Reading past the window end: nothing is consumed. *)
Lemma read_bits_short n b : wf b -> length (remaining b) < n -> read_bits n b = Ok None b.
Proof.
  intros [Wb Ws Wp We] Hn. rewrite length_remaining in Hn.
  unfold read_bits, peek_bits_startoffset.
  btrue (end_ b <? start b + (pos b - start b) + n). by rewrite orb_true_r.
Qed.

Lemma read_field_parses n name bs rest :
  length bs = n -> n <= 64 -> parses (read_field n name) bs rest (bits_val bs).
Proof.
  intros Hl Hn. unfold read_field. rewrite <- (app_nil_r bs) at 1.
  apply parses_bind with (Some (bits_val bs)); [by apply read_bits_parses|].
  apply parses_ret.
Qed.

Lemma read_field_short n name b :
  wf b -> length (remaining b) < n -> read_field n name b = Err (BufferEnded (Some name)) b.
Proof.
  intros W Hn. unfold read_field, mbind, method_bind. by rewrite read_bits_short.
Qed.

Lemma read_field_val n name v rest :
  (0 <= v < 2 ^ Z.of_nat n)%Z -> n <= 64 -> parses (read_field n name) (val_bits n v) rest v.
Proof.
  intros Hv Hn. rewrite <- (bits_val_val_bits_small n v) at 2 by done.
  apply read_field_parses; [apply length_val_bits|done].
Qed.

Lemma unwrap_parses {A} (m : M (option A)) bs rest a :
  parses m bs rest (Some a) -> parses (unwrap m) bs rest a.
Proof.
  intros H b W E. unfold unwrap, mbind, method_bind. by rewrite H.
Qed.

Lemma split_at {A} (l : list A) n : n <= length l ->
  exists l1 l2, l = l1 ++ l2 /\ length l1 = n.
Proof.
  intros H. exists (take n l), (drop n l). split; [by rewrite take_drop|].
  rewrite length_take. lia.
Qed.

Lemma bits_val_expand bs :
  (fun i => u8 (Z.land (Z.shiftr (bits_val bs) (Z.of_nat (length bs - 1 - i))) 1))
    <$> seq 0 (length bs) = b2z <$> bs.
Proof.
  transitivity (b2z <$> val_bits (length bs) (bits_val bs)); [|by rewrite val_bits_bits_val].
  unfold val_bits.
  rewrite <- list_fmap_compose. apply list_fmap_ext. intros i x Hi.
  apply lookup_seq in Hi as [-> Hi]. simpl.
  change 1%Z with (Z.ones 1) at 1. rewrite Z.land_ones by lia.
  rewrite Z.shiftr_div_pow2 by lia. change (2 ^ 1)%Z with 2%Z.
  rewrite <- Z.testbit_spec' by lia. by destruct (Z.testbit _ _).
Qed.

Lemma to_bitarr_parses bs rest : parses (to_bitarr (length bs)) bs rest (b2z <$> bs).
Proof.
  unfold to_bitarr.
  assert (H : forall fuel bs acc, length bs <= fuel ->
    parses (to_bitarr_loop fuel (length bs) acc) bs rest (acc ++ (b2z <$> bs))).
  { intros fuel; induction fuel as [|fuel IH]; intros l acc Hl; simpl.
    { destruct l; [|simpl in Hl; lia]. simpl. rewrite app_nil_r. apply parses_ret. }
    destruct (Nat.ltb_spec 0 (length l)) as [H0|H0].
    2:{ destruct l; [|simpl in H0; lia]. simpl. rewrite app_nil_r. apply parses_ret. }
    destruct (split_at l (Nat.min (length l) 64)) as (l1 & l2 & -> & Hl1); [lia|].
    rewrite <- Hl1. rewrite length_app in *.
    apply parses_bind with (bits_val l1).
    { apply unwrap_parses, read_bits_parses; [done|lia]. }
    rewrite bits_val_expand, fmap_app, app_assoc.
    replace (length l1 + length l2 - length l1) with (length l2) by lia.
    apply IH. lia. }
  specialize (H (length bs) bs []). by apply H.
Qed.

(** Copying between two buffers: what is written depends on the bits of the source only. *)
Lemma copy_bits_uniform self bs rest :
  wf self -> room self (length bs) ->
  exists self', wrote self self' bs /\ forall src, wf src -> remaining src = bs ++ rest ->
    copy_bits (length bs) self src = Ok tt (self', with_pos src (pos src + length bs)).
Proof.
  unfold copy_bits.
  assert (H : forall fuel bs self, length bs <= fuel -> wf self -> room self (length bs) ->
    exists self', wrote self self' bs /\ forall src, wf src -> remaining src = bs ++ rest ->
      copy_bits_loop fuel (length bs) self src = Ok tt (self', with_pos src (pos src + length bs))).
  { intros fuel; induction fuel as [|fuel IH]; intros l self0 Hl W R; simpl.
    { destruct l; [|simpl in Hl; lia]. exists self0. split; [by apply wrote_nil|]. intros src0 Ws E.
      simpl. rewrite Nat.add_0_r. by destruct src0. }
    destruct (Nat.ltb_spec 0 (length l)) as [H0|H0].
    2:{ destruct l; [|simpl in H0; lia]. exists self0. split; [by apply wrote_nil|]. intros src0 Ws E.
        simpl. rewrite Nat.add_0_r. by destruct src0. }
    destruct (split_at l (Nat.min (length l) 64)) as (l1 & l2 & -> & Hl1); [lia|].
    rewrite <- Hl1. rewrite length_app in *. pose proof (bits_val_bound l1) as Hb.
    destruct (write_bits_emits (bits_val l1) (length l1)) with (b := self0) as (self1 & E1 & Wr1);
      [done|lia|done|rewrite length_val_bits; destruct R; [left; lia|by right]|].
    rewrite val_bits_bits_val in Wr1.
    destruct (IH l2 self1) as (self2 & Wr2 & E2); [lia|by destruct Wr1|by eapply room_wrote|].
    exists self2. split; [by eapply wrote_trans|]. intros src0 Ws E. rewrite <- app_assoc in E.
    destruct (parses_advance src0 l1 (l2 ++ rest)) as (W1 & R1 & Hle); [done..|].
    unfold get_len_remaining. btrue (length l1 <=? end_ src0 - pos src0).
    rewrite (unwrap_parses _ l1 (l2 ++ rest) (bits_val l1)); [|by apply read_bits_parses; lia|done|done].
    rewrite E1. replace (length l1 + length l2 - length l1) with (length l2) by lia.
    rewrite E2 by done. unfold with_pos. simpl. by rewrite Nat.add_assoc. }
  intros. by apply H.
Qed.

Lemma copy_bits_spec self src bs rest :
  wf self -> wf src -> remaining src = bs ++ rest -> room self (length bs) ->
  exists self', copy_bits (length bs) self src
    = Ok tt (self', with_pos src (pos src + length bs)) /\ wrote self self' bs.
Proof.
  intros W Ws E R. destruct (copy_bits_uniform self bs rest W R) as (self' & Wr & H). exists self'. split; [by apply H|done].
Qed.

(** A fresh buffer of [n] zero bits. *)
Lemma wf_new n : wf (new n).
Proof.
  constructor; simpl; try lia.
  - apply Forall_replicate, is_byte_0.
  - rewrite length_replicate. divlia.
Qed.

Lemma wf_new_autoexpand n : wf (new_autoexpand n).
Proof.
  constructor; simpl; try lia. apply Forall_replicate, is_byte_0.
Qed.

(** [holds b bs]: a well-formed buffer positioned at its start whose window is [bs]. *)
Record holds (b : BitBuffer) (bs : list bool) : Prop := {
  ho_wf : wf b;
  ho_pos : pos b = start b;
  ho_window : window b = bs
}.

Lemma holds_remaining b bs : holds b bs -> remaining b = bs.
Proof. intros [W P <-]. unfold remaining, window. by rewrite P. Qed.

Lemma holds_len b bs : holds b bs -> get_len b = length bs.
Proof. intros [W P <-]. unfold window, get_len. by rewrite length_getbits. Qed.

(** Filling a fresh fixed-size buffer and rewinding. *)
Lemma emits_new_holds {A} (m : M A) a bs :
  emits m a bs ->
  exists b', m (new (length bs)) = Ok a b' /\ start b' = 0 /\
    holds (with_pos b' 0) bs /\ flag_autoexpand b' = false.
Proof.
  intros H. destruct (H (new (length bs))) as (b' & E & [W S P F En B Fr]);
    [apply wf_new|left; simpl; lia|].
  simpl in *. exists b'. split; [done|]. split; [done|]. split; [|done].
  destruct W as [Wb Ws Wp We]. constructor; simpl; [constructor; simpl; try done; lia|done|].
  unfold window. simpl. rewrite S, En. rewrite Nat.max_id, Nat.sub_0_r. done.
Qed.

Lemma from_bitarr_holds bs :
  exists b, from_bitarr (b2z <$> bs) = Some b /\ holds b bs /\ start b = 0 /\
    flag_autoexpand b = false.
Proof.
  unfold from_bitarr. rewrite length_fmap.
  destruct (emits_new_holds _ _ _ (copy_bits_from_bitarr_emits bs)) as (b' & -> & S & Hh & F).
  rewrite S. by eauto.
Qed.

(** A buffer with these bits *)
Definition buffer_of (bits : list bool) : BitBuffer := default (new 0) (from_bitarr (b2z <$> bits)).
Lemma buffer_of_holds bits : holds (buffer_of bits) bits.
Proof. destruct (from_bitarr_holds bits) as (b & E & Hb & _). unfold buffer_of. by rewrite E. Qed.


Lemma from_bitbuffer_holds b :
  wf b -> exists b', from_bitbuffer b = Some b' /\ holds b' (window b).
Proof.
  intros [Wb Ws Wp We]. unfold from_bitbuffer, slice.
  btrue (start b / 8 <=? (end_ b + 7) / 8). btrue ((end_ b + 7) / 8 <=? length (buffer b)). simpl.
  eexists. split; [done|].
  assert (Hlen : length (take ((end_ b + 7) / 8 - start b / 8) (drop (start b / 8) (buffer b)))
                 = (end_ b + 7) / 8 - start b / 8).
  { rewrite length_take, length_drop. divlia. }
  constructor; simpl; [constructor; simpl; unfold get_len; try lia|done|].
  - by apply Forall_take, Forall_drop.
  - unfold window, get_len. simpl. replace (start b mod 8 + (end_ b - start b) - start b mod 8)
      with (end_ b - start b) by lia.
    apply getbits_ext. intros i Hi. unfold getbit.
    rewrite lookup_total_take_lt by divlia. rewrite lookup_total_drop.
    do 2 f_equal; divlia.
Qed.

Lemma from_bitbuffer_pos_holds b :
  wf b -> exists b', from_bitbuffer_pos b = Some b' /\ holds b' (remaining b).
Proof.
  intros [Wb Ws Wp We]. unfold from_bitbuffer_pos, slice.
  btrue (pos b / 8 <=? (end_ b + 7) / 8). btrue ((end_ b + 7) / 8 <=? length (buffer b)). simpl.
  eexists. split; [done|].
  assert (Hlen : length (take ((end_ b + 7) / 8 - pos b / 8) (drop (pos b / 8) (buffer b)))
                 = (end_ b + 7) / 8 - pos b / 8).
  { rewrite length_take, length_drop. divlia. }
  constructor; simpl; [constructor; simpl; unfold get_len_remaining; try lia|done|].
  - by apply Forall_take, Forall_drop.
  - unfold window, remaining, get_len_remaining. simpl.
    replace (pos b mod 8 + (end_ b - pos b) - pos b mod 8) with (end_ b - pos b) by lia.
    apply getbits_ext. intros i Hi. unfold getbit.
    rewrite lookup_total_take_lt by divlia. rewrite lookup_total_drop.
    do 2 f_equal; divlia.
Qed.

(** ** Theorems *)

(** Write then read.  Writing an [n]-bit value (up to 64 bits, at any bit
    offset, in place or growing the buffer) and reading [n] bits back at the same
    position returns the value, and no other bit of the window changes. *)
Theorem write_bits_read_bits b v n :
  wf b -> room b n -> n <= 64 -> (0 <= v < 2 ^ Z.of_nat n)%Z ->
  exists b', write_bits v n b = Ok tt b' /\ wf b' /\ pos b' = pos b + n /\
    read_bits n (with_pos b' (pos b)) = Ok (Some v) b' /\
    (forall i, i < pos b \/ pos b + n <= i < end_ b ->
       getbit (buffer b') i = getbit (buffer b) i).
Proof.
  intros W R Hn Hv. destruct (write_bits_emits v n Hv Hn b W) as (b' & E & [W' S' P' F' N' B' Fr']).
  { by rewrite length_val_bits. }
  rewrite length_val_bits in *. exists b'. split_and!; try done.
  pose proof W as [Wb Ws Wp We]. pose proof W' as [Wb' Ws' Wp' We'].
  set (b0 := with_pos b' (pos b)).
  assert (W0 : wf b0) by (apply wf_with_pos; [done|lia]).
  assert (Hr : remaining b0 = val_bits n v ++ drop n (remaining b0)).
  { rewrite <- (take_drop n (remaining b0)) at 1. f_equal. rewrite <- B'. unfold remaining. simpl.
    rewrite take_getbits. f_equal. lia. }
  rewrite (read_bits_parses n (val_bits n v) _ (length_val_bits _ _) Hn b0 W0 Hr).
  rewrite bits_val_val_bits_small, length_val_bits by done. f_equal.
  unfold b0, with_pos. simpl. rewrite <- P'. by destruct b'.
Qed.

