(* ===== verification/BitBufferProps.v ===== *)
(** * Properties of the bit buffer

    The invariant [wf] under every cursor and data operation, the read/write round
    trip with its frame, appending with growth, and what happens when a read or a
    write does not fit. *)

From Stdlib Require Import ZArith Lia ZifyNat.
From S2P Require Import Prelude BitBuffer BitBufferFacts.

(** ** The invariant *)

(** [m] takes well-formed buffers to well-formed buffers when it returns. *)
Definition preserves {A} (m : M A) : Prop :=
  forall b a b', wf b -> m b = Ok a b' -> wf b'.

Lemma preserves_ret {A} (a : A) : preserves (mret a).
Proof. intros b a' b' W [= _ <-]. done. Qed.

Lemma preserves_panicking {A} (o : option A) : preserves (panicking o).
Proof. intros b a b' W. destruct o; [intros [= _ <-]; done|done]. Qed.

Lemma preserves_bind {A B} (m : M A) (k : A -> M B) :
  preserves m -> (forall a, preserves (k a)) -> preserves (m ≫= k).
Proof.
  intros Hm Hk b c b' W. unfold mbind, method_bind. destruct (m b) as [a b1| |] eqn:E; try done.
  intros Ek. eapply Hk; [|exact Ek]. by eapply Hm.
Qed.

Lemma preserves_seek n : preserves (seek n).
Proof.
  intros b a b' W. unfold seek. destruct (Nat.leb_spec (start b + n) (end_ b)); [|done].
  intros [= _ <-]. apply wf_with_pos; [done|lia].
Qed.

Lemma preserves_seek_rel z : preserves (seek_rel z).
Proof.
  intros b a b' W. unfold seek_rel. destruct (_ && _)%Z eqn:E; [|done].
  apply andb_true_iff in E as [H1 H2]. apply Z.leb_le in H1, H2.
  intros [= _ <-]. apply wf_with_pos; [done|lia].
Qed.

Lemma preserves_set_raw_start n : preserves (set_raw_start n).
Proof.
  intros b a b' [Wb Ws Wp We]. unfold set_raw_start. destruct (_ && _) eqn:E; [|done].
  apply andb_true_iff in E as [H1 H2]. apply Nat.leb_le in H1, H2.
  intros [= _ <-]. constructor; simpl; done || lia.
Qed.

Lemma preserves_set_raw_end n : preserves (set_raw_end n).
Proof.
  intros b a b' [Wb Ws Wp We]. unfold set_raw_end. destruct (_ && _) eqn:E; [|done].
  rewrite !andb_true_iff, !Nat.leb_le in E. intros [= _ <-]. constructor; simpl; done || lia.
Qed.

Lemma preserves_set_raw_pos n : preserves (set_raw_pos n).
Proof.
  intros b a b' W. unfold set_raw_pos. destruct (_ && _) eqn:E; [|done].
  rewrite andb_true_iff, !Nat.leb_le in E. intros [= _ <-]. by apply wf_with_pos.
Qed.

Lemma preserves_read_bits n : preserves (read_bits n).
Proof.
  intros b a b' W. pose proof W as [Wb Ws Wp We]. unfold read_bits, peek_bits_startoffset.
  destruct (_ || _) eqn:E; [intros [= _ <-]; done|].
  apply orb_false_iff in E as [_ E]. apply Nat.ltb_ge in E.
  destruct (read_bits_at_unchecked _ _ _); [|done]. simpl. intros [= _ <-].
  apply wf_with_pos; [done|lia].
Qed.

Lemma preserves_read_bit : preserves read_bit.
Proof.
  intros b a b' W. pose proof W as [Wb Ws Wp We]. unfold read_bit, peek_bits_startoffset.
  destruct (_ || _) eqn:E; [intros [= _ <-]; done|].
  apply orb_false_iff in E as [_ E]. apply Nat.ltb_ge in E.
  destruct (read_bits_at_unchecked _ _ _); [|done]. simpl. intros [= _ <-].
  apply wf_with_pos; [done|lia].
Qed.

(** Making room, also when only part of the write is past the end. *)
Lemma make_room_wf n b b1 :
  wf b -> make_room n b = Some b1 ->
  wf b1 /\ start b1 = start b /\ pos b1 = pos b /\ pos b + n <= end_ b1.
Proof.
  intros W. pose proof W as [Wb Ws Wp We]. unfold make_room.
  destruct (Nat.ltb_spec (end_ b) (pos b + n)) as [H|H].
  - destruct (flag_autoexpand b); [|done]. intros E.
    destruct (move_end_spec b n W) as (b' & E' & [G1 G2 G3 G4 G5 G6]).
    rewrite E in E'. injection E' as <-. split_and!; try done. lia.
  - intros [= <-]. done.
Qed.

Lemma preserves_write_bits v n : preserves (write_bits v n).
Proof.
  intros b a b' W. unfold write_bits. destruct (negb _); [done|]. destruct (negb _); [done|].
  destruct (make_room n b) as [b1|] eqn:E; [|done].
  destruct (make_room_wf n b b1 W E) as ([Wb Ws Wp We] & Hs & Hp & He).
  set (w := if n =? 64 then v else _).
  destruct (write_at_spec (buffer b1) w (pos b1) n) as (buf & -> & L & By & _); [done|lia|].
  intros [= _ <-]. constructor; simpl; try done; lia.
Qed.

Lemma preserves_write_bit v : preserves (write_bit v).
Proof.
  intros b a b' W. unfold write_bit. destruct (negb _); [done|].
  destruct (make_room 1 b) as [b1|] eqn:E; [|done].
  destruct (make_room_wf 1 b b1 W E) as ([Wb Ws Wp We] & Hs & Hp & He).
  destruct (lookup_byte (buffer b1) (pos b1 / 8)) as (y & -> & _ & Hyb); [done|divlia|].
  rewrite array_set_Some by divlia. intros [= _ <-]. constructor; simpl; try lia.
  - apply Forall_insert; [done|]. apply lor_is_byte; [by apply land_is_byte|apply u8_is_byte].
  - rewrite length_insert. lia.
Qed.

Lemma preserves_write_zeroes n : preserves (write_zeroes n).
Proof.
  unfold write_zeroes. generalize n at 2. induction n as [|n IH]; intros m; simpl.
  - apply preserves_ret.
  - destruct (0 <? m); [|apply preserves_ret].
    apply preserves_bind; [apply preserves_write_bits|]. intros _. apply IH.
Qed.

Lemma preserves_write_ones n : preserves (write_ones n).
Proof.
  unfold write_ones. generalize n at 2. induction n as [|n IH]; intros m; simpl.
  - apply preserves_ret.
  - destruct (0 <? m); [|apply preserves_ret].
    apply preserves_bind; [apply preserves_write_bits|]. intros _. apply IH.
Qed.

Lemma preserves_copy_bits_from_bitarr l : preserves (copy_bits_from_bitarr l).
Proof.
  induction l as [|x l IH]; simpl; [apply preserves_ret|].
  destruct (_ || _); [|apply preserves_panicking].
  apply preserves_bind; [apply preserves_write_bit|]. intros _. apply IH.
Qed.

Lemma preserves_unwrap {A} (m : M (option A)) : preserves m -> preserves (unwrap m).
Proof. intros H. apply preserves_bind; [done|]. intros o. apply preserves_panicking. Qed.

Lemma preserves_to_bitarr n : preserves (to_bitarr n).
Proof.
  unfold to_bitarr. generalize (@nil Z). generalize n at 2.
  induction n as [|n IH]; intros m acc; simpl; [apply preserves_ret|].
  destruct (0 <? m); [|apply preserves_ret].
  apply preserves_bind; [apply preserves_unwrap, preserves_read_bits|]. intros v. apply IH.
Qed.

Lemma preserves_xor_bytearr data n : preserves (xor_bytearr data n).
Proof.
  unfold xor_bytearr. generalize n at 2. revert data. induction n as [|n IH]; intros data m; simpl; [apply preserves_ret|].
  destruct (0 <? m); [|apply preserves_ret]. apply preserves_bind; [apply preserves_read_bits|].
  intros [v|]; [|apply preserves_ret]. apply preserves_bind; [apply preserves_panicking|]. intros bytes.
  apply preserves_bind; [apply preserves_seek_rel|]. intros _. apply preserves_bind; [apply preserves_write_bits|]. intros _. apply IH.
Qed.

Lemma preserves_read_bits_into_slice n len : preserves (read_bits_into_slice n len).
Proof.
  unfold read_bits_into_slice. destruct (_ <=? _); [|apply preserves_panicking].
  generalize ((n + 7) / 8) as k. intros k. generalize (@nil Z). revert n. induction k as [|k IH]; intros m acc; simpl; [apply preserves_ret|].
  apply preserves_bind; [apply preserves_read_bits|]. intros [v|]; [apply IH|apply preserves_ret].
Qed.

(** Both buffers of a copy. *)
Lemma copy_bits_preserves n self src self' src' :
  copy_bits n self src = Ok tt (self', src') -> (wf self -> wf self') /\ (wf src -> wf src').
Proof.
  unfold copy_bits. generalize n at 2. revert self src. induction n as [|n IH]; intros self src m E; simpl in E;
    [injection E as <- <-; done|].
  destruct (0 <? m); [|injection E as <- <-; done]. destruct (_ <=? _); [|done].
  destruct (unwrap (read_bits _) src) as [v src1| |] eqn:Er; [|done|done].
  destruct (write_bits v _ self) as [u self1| |] eqn:Ew; [|done|done]. apply IH in E as [H1 H2]. split; intros W.
  - apply H1. by eapply preserves_write_bits.
  - apply H2. eapply preserves_unwrap; [apply preserves_read_bits|done|exact Er].
Qed.

(** Before the end of the window [xor_bit] is harmless. *)
Lemma xor_bit_wf v b b' : wf b -> pos b < end_ b -> (0 <= v < 256)%Z -> xor_bit v b = Ok tt b' -> wf b'.
Proof.
  intros [Wb Ws Wp We] Hp Hv. unfold xor_bit. destruct (lookup_byte (buffer b) (pos b / 8)) as (y & -> & _ & Hyb); [done|divlia|].
  rewrite array_set_Some by divlia. intros [= <-]. constructor; simpl; try lia.
  - apply Forall_insert; [done|]. apply lxor_is_byte; [done|apply u8_is_byte].
  - rewrite length_insert. lia.
Qed.

#[export] Hint Resolve preserves_xor_bytearr preserves_read_bits_into_slice : bitbuffer.
#[export] Hint Resolve preserves_seek preserves_seek_rel preserves_set_raw_start
  preserves_set_raw_end preserves_set_raw_pos preserves_read_bits preserves_read_bit
  preserves_write_bits preserves_write_bit preserves_write_zeroes preserves_write_ones
  preserves_copy_bits_from_bitarr preserves_to_bitarr preserves_ret : bitbuffer.

(** The operations a client can run on one buffer, results discarded.  In a copy the buffer is
    the destination or the source. *)
Inductive bitop :=
  | OSeek (offset : nat)
  | OSeekRel (offset : Z)
  | OSetRawStart (s : nat)
  | OSetRawEnd (e : nat)
  | OSetRawPos (p : nat)
  | OReadBits (num_bits : nat)
  | OReadBit
  | OReadBitsIntoSlice (num_bits buf_len : nat)
  | OWriteBits (value : Z) (num_bits : nat)
  | OWriteBit (value : Z)
  | OWriteZeroes (num_bits : nat)
  | OWriteOnes (num_bits : nat)
  | OXorBit (value : Z)
  | OXorBytearr (data : list Z) (num_bits : nat)
  | OCopyBitsFrom (num_bits : nat) (src : BitBuffer)
  | OCopyBitsInto (num_bits : nat) (dst : BitBuffer)
  | OCopyBitsFromBitarr (buf : list Z)
  | OToBitarr (num_bits : nat).

Definition run_op (o : bitop) : M unit :=
  match o with
  | OSeek n => seek n
  | OSeekRel z => seek_rel z
  | OSetRawStart s => set_raw_start s
  | OSetRawEnd e => set_raw_end e
  | OSetRawPos p => set_raw_pos p
  | OReadBits n => _ ← read_bits n; mret tt
  | OReadBit => _ ← read_bit; mret tt
  | OReadBitsIntoSlice n len => _ ← read_bits_into_slice n len; mret tt
  | OWriteBits v n => write_bits v n
  | OWriteBit v => write_bit v
  | OWriteZeroes n => write_zeroes n
  | OWriteOnes n => write_ones n
  | OXorBit v => xor_bit v
  | OXorBytearr data n => _ ← xor_bytearr data n; mret tt
  | OCopyBitsFrom n src => fun b =>
      match copy_bits n b src with Ok _ (b, _) => Ok tt b | Err e (b, _) => Err e b | Panic => Panic end
  | OCopyBitsInto n dst => fun b =>
      match copy_bits n dst b with Ok _ (_, b) => Ok tt b | Err e (_, b) => Err e b | Panic => Panic end
  | OCopyBitsFromBitarr l => copy_bits_from_bitarr l
  | OToBitarr n => _ ← to_bitarr n; mret tt
  end.

Fixpoint run_ops (os : list bitop) : M unit :=
  match os with
  | [] => mret tt
  | o :: os' => _ ← run_op o; run_ops os'
  end.

(** [xor_bit], which moves the cursor without looking at the end, is given a byte and used
    before the end of the window; the other operations are free. *)
Definition op_fits (o : bitop) (b : BitBuffer) : Prop :=
  match o with OXorBit v => (0 <= v < 256)%Z /\ pos b < end_ b | _ => True end.
Fixpoint ops_fit (os : list bitop) (b : BitBuffer) : Prop :=
  match os with
  | [] => True
  | o :: os' => op_fits o b /\ forall b', run_op o b = Ok tt b' -> ops_fit os' b'
  end.

Lemma run_op_wf o b b' : wf b -> op_fits o b -> run_op o b = Ok tt b' -> wf b'.
Proof.
  intros W Hf E.
  destruct o; cbn [run_op op_fits] in *;
    try (revert E; match goal with |- ?m b = _ -> _ => assert (H : preserves m) by auto with bitbuffer end; intros E; by eapply H);
    try (revert E; match goal with |- ?m b = _ -> _ => assert (H : preserves m)
           by (apply preserves_bind; [auto with bitbuffer|intros; apply preserves_ret]) end; intros E; by eapply H).
  - destruct Hf as [Hv Hp]. exact (xor_bit_wf _ _ _ W Hp Hv E).
  - destruct (copy_bits num_bits b src) as [[] [b1 s1]|e [b1 s1]|] eqn:Ec; [|done|done]. injection E as <-.
    by apply (copy_bits_preserves _ _ _ _ _ Ec).
  - destruct (copy_bits num_bits dst b) as [[] [d1 b1]|e [d1 b1]|] eqn:Ec; [|done|done]. injection E as <-.
    by apply (copy_bits_preserves _ _ _ _ _ Ec).
Qed.

(** ** Theorems *)

(** C33 (buffer invariant).  No sequence of seeks, window changes, reads, writes, growing
    ones included, copies from and to other buffers, and xors takes a well-formed buffer
    (bytes in range, [start <= pos <= end], the window inside the allocation) to one that is
    not, provided that [xor_bit], which does not look at the end of the window, is only used
    before it. *)
Theorem bitbuffer_wf_invariant os b b' :
  wf b -> ops_fit os b -> run_ops os b = Ok tt b' -> wf b'.
Proof.
  revert b. induction os as [|o os IH]; intros b W Hf E; simpl in E; [by injection E as <-|].
  destruct Hf as [Ho Hf]. unfold mbind, method_bind in E. destruct (run_op o b) as [[] b1| |] eqn:E1; try done.
  apply (IH b1); [by eapply run_op_wf|by apply Hf|done].
Qed.

Lemma bitbuffer_wf_invariant_witness :
  exists b', run_ops [OWriteBits 0xabc 12; OSeek 0; OXorBit 1; OReadBits 5; OWriteOnes 100; OSetRawEnd 106]
               (new_autoexpand 8) = Ok tt b' /\ wf b'.
Proof.
  eexists. split; [vm_compute; reflexivity|].
  apply (bitbuffer_wf_invariant
    [OWriteBits 0xabc 12; OSeek 0; OXorBit 1; OReadBits 5; OWriteOnes 100; OSetRawEnd 106] (new_autoexpand 8)).
  - apply wf_new_autoexpand.
  - split; [exact I|]. intros b1 E1. split; [exact I|]. intros b2 E2. split.
    + vm_compute in E1. injection E1 as <-. vm_compute in E2. injection E2 as <-. split; [lia|]. cbn. lia.
    + intros b3 _. split; [exact I|]. intros b4 _. split; [exact I|]. intros b5 _. split; [exact I|]. intros b6 _. exact I.
  - vm_compute. reflexivity.
Defined.
