(* ===== verification/Scrambler.v ===== *)
(** * Scrambling (crates/tetra-entities/src/lmac/components/scrambler.rs)

    The 32-bit LFSR keystream and its in-place application to a block. *)

From Stdlib Require Import ZArith Lia ZifyNat Btauto.
From S2P Require Import Prelude BitBuffer BitBufferFacts.
Local Open Scope Z_scope.

(** Default scrambling code of the BSCH. *)
Definition SCRAMB_INIT : Z := 3.

(** One Fibonacci step; returns the output bit and the new register. *)
Definition next_lfsr_bit (lfsr : Z) : Z * Z :=
  let x := lfsr in
  let s k := Z.shiftr x (32 - k) in
  let bit := Z.land
    (Z.lxor (Z.lxor (Z.lxor (Z.lxor (Z.lxor (Z.lxor (Z.lxor (Z.lxor (Z.lxor (Z.lxor
      (Z.lxor (Z.lxor (Z.lxor x (s 26)) (s 23)) (s 22)) (s 16)) (s 12)) (s 11)) (s 10))
      (s 8)) (s 7)) (s 5)) (s 4)) (s 2)) (s 1)) 1 in
  (u8 bit, Z.lor (Z.shiftr x 1) (u32 (Z.shiftl bit 31))).

Fixpoint lfsr_bits (lfsr : Z) (n : nat) : list Z :=
  match n with
  | O => []
  | S n' => let '(bit, lfsr') := next_lfsr_bit lfsr in bit :: lfsr_bits lfsr' n'
  end.

(** Fills a slice of [len] entries with raw scrambling bits. *)
Definition tetra_scramb_get_bits (lfsr_init : Z) (len : nat) : list Z := lfsr_bits lfsr_init len.

Fixpoint tetra_scramb_loop (n : nat) (lfsr : Z) : M unit :=
  match n with
  | O => mret tt
  | S n' =>
      let '(bit, lfsr') := next_lfsr_bit lfsr in
      _ ← xor_bit bit; tetra_scramb_loop n' lfsr'
  end.

Definition tetra_scramb_bits (lfsr_init : Z) : M unit := fun buf =>
  let num_bits := get_len_remaining buf in
  (_ ← tetra_scramb_loop num_bits lfsr_init; seek_rel (- Z.of_nat num_bits)) buf.

(** [mcc], [mnc]: u16, [colour]: u8. *)
Definition tetra_scramb_get_init (mcc mnc colour : Z) : Z :=
  if colour =? 0 then 0
  else Z.lor (u32 (Z.shiftl
         (Z.lor (Z.lor colour (u32 (Z.shiftl mnc 6))) (u32 (Z.shiftl mcc 20))) 2)) SCRAMB_INIT.

(** ** Facts *)

Definition keystream (lfsr : Z) (n : nat) : list bool := (Z.eqb 1) <$> lfsr_bits lfsr n.

Lemma length_lfsr_bits lfsr n : length (lfsr_bits lfsr n) = n.
Proof. revert lfsr; induction n; intros lfsr; simpl; congruence. Qed.

Lemma length_keystream lfsr n : length (keystream lfsr n) = n.
Proof. unfold keystream. by rewrite length_fmap, length_lfsr_bits. Qed.

Lemma lfsr_bit_cases lfsr : fst (next_lfsr_bit lfsr) = b2z (1 =? fst (next_lfsr_bit lfsr)).
Proof.
  unfold next_lfsr_bit. cbn [fst].
  match goal with |- context [Z.land ?e 1] => generalize e end. intros e.
  change 1 with (Z.ones 1) at 1 3. rewrite Z.land_ones by lia.
  pose proof (Z.mod_pos_bound e (2 ^ 1)). change (2 ^ 1) with 2 in *.
  assert (e mod 2 = 0 \/ e mod 2 = 1) as [-> | ->] by lia; done.
Qed.

(** Flipping the bit under the cursor. *)
Lemma xor_bit_spec b x :
  wf b -> (pos b < end_ b)%nat ->
  exists b', xor_bit (b2z x) b = Ok tt b' /\ wf b' /\ start b' = start b /\
    pos b' = S (pos b) /\ end_ b' = end_ b /\ flag_autoexpand b' = flag_autoexpand b /\
    length (buffer b') = length (buffer b) /\
    (forall i, (i < 8 * length (buffer b))%nat -> getbit (buffer b') i =
       if (i =? pos b)%nat then xorb (getbit (buffer b) i) x else getbit (buffer b) i).
Proof.
  intros [Wb Ws Wp We] Hp. unfold xor_bit.
  destruct (lookup_byte (buffer b) (pos b / 8)) as (y & Hy & Hy' & Hyb); [done|divlia|].
  rewrite Hy, array_set_Some by divlia. eexists. split; [done|]. simpl.
  set (nb := Z.lxor y _).
  assert (Hnb : is_byte nb) by (apply lxor_is_byte; [done|apply u8_is_byte]).
  assert (U : upd (pos b) (pos b + 1) (fun i => xorb (getbit (buffer b) i) x) (buffer b)
                (<[(pos b / 8)%nat := nb]> (buffer b))).
  { apply upd_byte; [done|done|divlia|lia|divlia|]. intros k Hk. unfold nb.
    rewrite Z.lxor_spec, testbit_u8 by lia. btrue (Z.of_nat (7 - k) <? 8).
    rewrite Hy'. simpl. unfold getbit.
    destruct (decide (k = pos b mod 8)%nat) as [->|Hne].
    - btrue (pos b mod 8 <=? pos b mod 8)%nat. btrue (pos b mod 8 <? pos b mod 8 + 1)%nat. simpl.
      rewrite Z.shiftl_spec, Z.sub_diag by lia.
      replace ((8 * (pos b / 8) + pos b mod 8) / 8)%nat with (pos b / 8)%nat by divlia.
      replace ((8 * (pos b / 8) + pos b mod 8) mod 8)%nat with (pos b mod 8)%nat by divlia.
      rewrite Hy'. by destruct x.
    - replace ((pos b mod 8 <=? k) && (k <? pos b mod 8 + 1))%nat with false.
      2:{ symmetry. apply andb_false_iff. rewrite Nat.leb_gt, Nat.ltb_ge. lia. }
      replace (Z.testbit (Z.shiftl (b2z x) _) _) with false; [by rewrite xorb_false_r|].
      symmetry. destruct (Z.ltb_spec (Z.of_nat (7 - k)) (Z.of_nat (7 - pos b mod 8))).
      + by apply Z.shiftl_spec_low.
      + rewrite Z.shiftl_spec by lia. destruct x; simpl; [|apply Z.bits_0].
        apply (Z.bits_above_log2 1); [lia|]. cbn. divlia. }
  destruct U as (L & By & U). repeat split; simpl; try done; try lia.
  intros i Hi. rewrite U by done. destruct (Nat.eqb_spec i (pos b)) as [->|Hne].
  - btrue (pos b <=? pos b)%nat. by btrue (pos b <? pos b + 1)%nat.
  - replace ((pos b <=? i) && (i <? pos b + 1))%nat with false; [done|].
    symmetry. apply andb_false_iff. rewrite Nat.leb_gt, Nat.ltb_ge. lia.
Qed.

Lemma scramb_loop_spec n lfsr b :
  wf b -> (pos b + n <= end_ b)%nat ->
  exists b', tetra_scramb_loop n lfsr b = Ok tt b' /\ wf b' /\ start b' = start b /\
    pos b' = (pos b + n)%nat /\ end_ b' = end_ b /\ flag_autoexpand b' = flag_autoexpand b /\
    length (buffer b') = length (buffer b) /\
    (forall i, (i < 8 * length (buffer b))%nat -> getbit (buffer b') i =
       xorb (getbit (buffer b) i) (if (pos b <=? i)%nat
                                   then default false (keystream lfsr n !! (i - pos b)%nat)
                                   else false)).
Proof.
  revert lfsr b; induction n as [|n IH]; intros lfsr b W Hn.
  { exists b. simpl. rewrite Nat.add_0_r. repeat split; try done; try apply W.
    intros i Hi. destruct (_ <=? _)%nat; by rewrite xorb_false_r. }
  cbn [tetra_scramb_loop]. destruct (next_lfsr_bit lfsr) as [bit lfsr'] eqn:El.
  pose proof (lfsr_bit_cases lfsr) as Hc. rewrite El in Hc. simpl in Hc.
  destruct (xor_bit_spec b (1 =? bit)) as (b1 & E1 & W1 & S1 & P1 & N1 & F1 & L1 & G1); [done|lia|].
  rewrite <- Hc in E1. unfold mbind, method_bind. rewrite E1.
  destruct (IH lfsr' b1) as (b2 & E2 & W2 & S2 & P2 & N2 & F2 & L2 & G2); [done|lia|].
  exists b2. split; [done|]. repeat split; try done; try lia; try congruence; try apply W2.
  intros i Hi. rewrite G2 by lia. rewrite G1 by lia. rewrite P1.
  unfold keystream. cbn [lfsr_bits]. rewrite El.
  destruct (Nat.eqb_spec i (pos b)) as [->|Hne].
  - bfalse (S (pos b) <=? pos b)%nat. btrue (pos b <=? pos b)%nat.
    rewrite Nat.sub_diag, xorb_false_r. done.
  - destruct (Nat.leb_spec (S (pos b)) i).
    + btrue (pos b <=? i)%nat. by replace (i - pos b)%nat with (S (i - S (pos b))) by lia.
    + by bfalse (pos b <=? i)%nat.
Qed.

(** Two byte vectors with the same bits are the same. *)
Lemma buffer_ext (l1 l2 : list Z) :
  Forall is_byte l1 -> Forall is_byte l2 -> length l1 = length l2 ->
  (forall i, (i < 8 * length l1)%nat -> getbit l1 i = getbit l2 i) -> l1 = l2.
Proof.
  intros B1 B2 L G. apply list_eq. intros j. destruct (decide (j < length l1)%nat) as [Hj|Hj].
  - destruct (lookup_byte l1 j) as (x & Hx & Tx & Bx); [done..|].
    destruct (lookup_byte l2 j) as (y & Hy & Ty & By); [done|lia|].
    rewrite Hx, Hy. f_equal. apply Z.bits_inj'. intros k Hk.
    destruct (Z.ltb_spec k 8); [|by rewrite !testbit_byte_high].
    specialize (G (8 * j + (7 - Z.to_nat k))%nat). unfold getbit in G.
    replace ((8 * j + (7 - Z.to_nat k)) / 8)%nat with j in G by divlia.
    rewrite Tx, Ty in G.
    replace (Z.of_nat (7 - (8 * j + (7 - Z.to_nat k)) mod 8)) with k in G by divlia.
    apply G. divlia.
  - by rewrite !lookup_ge_None_2 by lia.
Qed.

(** What scrambling does: the bits from the cursor to the end are XORed with the
    keystream, every other bit, the cursor and the window are unchanged. *)
Lemma tetra_scramb_bits_spec code b :
  wf b ->
  exists b', tetra_scramb_bits code b = Ok tt b' /\ wf b' /\
    (start b', pos b', end_ b', flag_autoexpand b', length (buffer b'))
      = (start b, pos b, end_ b, flag_autoexpand b, length (buffer b)) /\
    (forall i, (i < 8 * length (buffer b))%nat -> getbit (buffer b') i =
       xorb (getbit (buffer b) i)
         (if (pos b <=? i)%nat
          then default false (keystream code (end_ b - pos b) !! (i - pos b)%nat)
          else false)).
Proof.
  intros W. pose proof W as [Wb Ws Wp We]. unfold tetra_scramb_bits, get_len_remaining.
  destruct (scramb_loop_spec (end_ b - pos b) code b)
    as (b1 & E1 & W1 & S1 & P1 & N1 & F1 & L1 & G1); [done|lia|].
  unfold mbind, method_bind. rewrite E1. unfold seek_rel. rewrite S1, P1, N1.
  replace (Z.of_nat (pos b + (end_ b - pos b)) + - Z.of_nat (end_ b - pos b))
    with (Z.of_nat (pos b)) by lia.
  btrue (Z.of_nat (start b) <=? Z.of_nat (pos b)). btrue (Z.of_nat (pos b) <=? Z.of_nat (end_ b)).
  simpl. rewrite Nat2Z.id. eexists. split; [done|]. destruct W1 as [Wb1 Ws1 Wp1 We1].
  split; [constructor; simpl; try done; lia|]. split; [simpl; congruence|exact G1].
Qed.

Lemma scramb_remaining code b b' :
  wf b -> tetra_scramb_bits code b = Ok tt b' ->
  remaining b' = zip_with xorb (remaining b) (keystream code (length (remaining b))).
Proof.
  intros W E. destruct (tetra_scramb_bits_spec code b W) as (b1 & E1 & W1 & P & G).
  rewrite E in E1. injection E1 as <-. injection P as S0 P N F L.
  destruct W as [Wb Ws Wp We]. rewrite length_remaining.
  apply list_eq. intros i. rewrite lookup_zip_with. unfold remaining. rewrite P, N.
  destruct (decide (i < end_ b - pos b)%nat) as [Hi|Hi].
  - rewrite !lookup_getbits by done. simpl. rewrite G by lia.
    btrue (pos b <=? pos b + i)%nat. replace (pos b + i - pos b)%nat with i by lia.
    destruct (lookup_lt_is_Some_2 (keystream code (end_ b - pos b)) i) as [x Hx].
    { by rewrite length_keystream. }
    by rewrite Hx.
  - rewrite !(lookup_ge_None_2 (getbits _ _ _)); [done|rewrite length_getbits; lia..].
Qed.

(** Any byte vector is restored when the keystream is applied twice. *)
Lemma scramb_scramb code b b' :
  wf b -> tetra_scramb_bits code b = Ok tt b' -> tetra_scramb_bits code b' = Ok tt b.
Proof.
  intros W E. destruct (tetra_scramb_bits_spec code b W) as (b1 & E1 & W1 & P1 & G1).
  rewrite E in E1. injection E1 as <-.
  destruct (tetra_scramb_bits_spec code b' W1) as (b2 & E2 & W2 & P2 & G2).
  rewrite E2. f_equal. rewrite P1 in P2. injection P1 as S1 Q1 N1 F1 L1.
  injection P2 as S2 Q2 N2 F2 L2.
  assert (Hbuf : buffer b2 = buffer b).
  { apply buffer_ext; [apply W2|apply W|done|]. intros i Hi.
    rewrite G2 by lia. rewrite G1 by lia. rewrite Q1, N1.
    rewrite xorb_assoc, xorb_nilpotent. apply xorb_false_r. }
  destruct b, b2; simpl in *; congruence.
Qed.

Lemma scramb_code_value mcc mnc colour :
  0 < colour < 64 -> 0 <= mnc < 2 ^ 14 -> 0 <= mcc < 2 ^ 10 ->
  tetra_scramb_get_init mcc mnc colour = 4 * (mcc * 2 ^ 20 + mnc * 2 ^ 6 + colour) + 3.
Proof.
  intros Hc Hn Hm. unfold tetra_scramb_get_init, SCRAMB_INIT. bfalse (colour =? 0).
  assert (E1 : u32 (Z.shiftl mnc 6) = Z.shiftl mnc 6).
  { apply u32_small. rewrite Z.shiftl_mul_pow2 by lia. lia. }
  assert (E2 : u32 (Z.shiftl mcc 20) = Z.shiftl mcc 20).
  { apply u32_small. rewrite Z.shiftl_mul_pow2 by lia. lia. }
  rewrite E1, E2. rewrite (Z.lor_comm colour), shiftl_lor_add by lia.
  rewrite (Z.lor_comm (_ + _) (Z.shiftl mcc 20)), shiftl_lor_add by lia.
  rewrite u32_small by (rewrite Z.shiftl_mul_pow2 by lia; lia).
  rewrite shiftl_lor_add by lia. lia.
Qed.

Lemma xor_zero_stream l : zip_with xorb l (replicate (length l) false) = l.
Proof. induction l as [|b l IH]; simpl; [done|]. by rewrite xorb_false_r, IH. Qed.

(** The all-zero register never leaves zero. *)
Lemma lfsr_zero n : lfsr_bits 0 n = replicate n 0.
Proof. induction n as [|n IH]; [done|]. cbn. by f_equal. Qed.

Lemma keystream_zero n : keystream 0 n = replicate n false.
Proof. unfold keystream. rewrite lfsr_zero, fmap_replicate. done. Qed.

(** ** Theorems *)

(** Scrambling is an involution.  Applying the same scrambling code twice to
    any well-formed buffer restores it exactly: bytes, window and cursor. *)
Theorem tetra_scramb_bits_involutive code b :
  wf b ->
  exists b', tetra_scramb_bits code b = Ok tt b' /\ wf b' /\ pos b' = pos b /\
    remaining b' = zip_with xorb (remaining b) (keystream code (length (remaining b))) /\
    tetra_scramb_bits code b' = Ok tt b.
Proof.
  intros W. destruct (tetra_scramb_bits_spec code b W) as (b' & E & W' & P & _).
  exists b'. injection P as _ P _ _ _. split_and!; try done.
  - by apply scramb_remaining.
  - by apply scramb_scramb.
Qed.


(** Cells have distinct codes.  Over the ETSI widths (10-bit MCC, 14-bit MNC,
    6-bit non-zero colour code) different cells get different scrambling codes,
    and every code is a 32-bit register whose two low bits are the fixed ones. *)
Theorem tetra_scramb_get_init_injective mcc mnc colour mcc' mnc' colour' :
  0 <= mcc < 2 ^ 10 -> 0 <= mnc < 2 ^ 14 -> 0 < colour < 64 ->
  0 <= mcc' < 2 ^ 10 -> 0 <= mnc' < 2 ^ 14 -> 0 < colour' < 64 ->
  tetra_scramb_get_init mcc mnc colour = tetra_scramb_get_init mcc' mnc' colour' ->
  mcc = mcc' /\ mnc = mnc' /\ colour = colour' /\
  0 <= tetra_scramb_get_init mcc mnc colour < 2 ^ 32 /\
  tetra_scramb_get_init mcc mnc colour mod 4 = SCRAMB_INIT.
Proof.
  intros Hm Hn Hc Hm' Hn' Hc' E. rewrite !scramb_code_value in * by done.
  unfold SCRAMB_INIT. split_and!; try divlia.
Qed.


(** Colour code 0 switches scrambling off.  For colour code 0 the computed
    register is all zero, its keystream is all zero and scrambling changes
    nothing, whereas the register with the two fixed bits set does scramble. *)
Theorem scramb_colour_zero mcc mnc b :
  wf b ->
  tetra_scramb_get_init mcc mnc 0 = 0 /\
  (exists b', tetra_scramb_bits (tetra_scramb_get_init mcc mnc 0) b = Ok tt b' /\
     remaining b' = remaining b) /\
  keystream SCRAMB_INIT 32 <> replicate 32 false.
Proof.
  intros W. split_and!; [done| |by vm_compute].
  change (tetra_scramb_get_init mcc mnc 0) with 0.
  destruct (tetra_scramb_bits_spec 0 b W) as (b' & E & _). exists b'. split; [done|].
  rewrite (scramb_remaining 0 b b' W E), keystream_zero. apply xor_zero_stream.
Qed.

