(* ===== verification/Interleaver.v ===== *)
(** * Interleaving (crates/tetra-entities/src/lmac/components/interleaver.rs)

    Block interleaving over a multiplicative index map and matrix (transpose)
    interleaving, with their inverses. *)

From Stdlib Require Import ZArith Lia ZifyNat.
From S2P Require Import Prelude.

(** [u32] arguments; [wrapping_mul] then [%]. *)
Definition block_interl_func (k a i : Z) : Z := (1 + u32 (a * i) mod k)%Z.

(** The index computed inside the loops: [usize] to [u32] and back. *)
Definition interl_index (k a i : nat) : nat :=
  Z.to_nat (block_interl_func (u32 (Z.of_nat k)) (u32 (Z.of_nat a)) (u32 (Z.of_nat i))).

Definition block_interleave (k a : nat) (input output : list Z) : option (list Z) :=
  if (k <=? length input) && (k <=? length output)
  then for_copy (seq 1 k) (fun i => i - 1) (fun i => interl_index k a i - 1) input output
  else None.

Definition block_deinterleave (k a : nat) (input output : list Z) : option (list Z) :=
  if (k <=? length input) && (k <=? length output)
  then for_copy (seq 1 k) (fun i => interl_index k a i - 1) (fun i => i - 1) input output
  else None.

(** The nested loops [for i in 0..columns { for j in 0..lines { .. } }]. *)
Definition matrix_order (lines columns : nat) : list (nat * nat) :=
  i ← seq 0 columns; j ← seq 0 lines; [(i, j)].

Definition matrix_interleave (lines columns : nat) (input output : list Z) : option (list Z) :=
  let total := lines * columns in
  if (total <=? length input) && (total <=? length output)
  then for_copy (matrix_order lines columns)
         (fun '(i, j) => j * columns + i) (fun '(i, j) => i * lines + j) input output
  else None.

Definition matrix_deinterleave (lines columns : nat) (input output : list Z) : option (list Z) :=
  let total := lines * columns in
  if (total <=? length input) && (total <=? length output)
  then for_copy (matrix_order lines columns)
         (fun '(i, j) => i * lines + j) (fun '(i, j) => j * columns + i) input output
  else None.

(** ** The block map is a permutation *)

Section block.
Context (k a : nat).
Context (Hk : 0 < k) (Hka : (Z.of_nat k * Z.of_nat a < 2 ^ 32)%Z).
Context (Ha : 0 < a) (Hcop : Z.gcd (Z.of_nat a) (Z.of_nat k) = 1%Z).

Lemma interl_index_val i : i <= k -> interl_index k a i = 1 + (a * i) mod k.
Proof.
  intros Hi. unfold interl_index, block_interl_func.
  rewrite !(u32_small (Z.of_nat _)) by nia. rewrite u32_small by nia. nia || lia.
Qed.

Lemma interl_index_inj i j :
  1 <= i <= k -> 1 <= j <= k -> interl_index k a i = interl_index k a j -> i = j.
Proof.
  intros Hi Hj. rewrite !interl_index_val by lia. intros E.
  assert (Ez : ((Z.of_nat a * Z.of_nat i) mod Z.of_nat k
                = (Z.of_nat a * Z.of_nat j) mod Z.of_nat k)%Z) by nia.
  assert (Hdiv : (Z.of_nat k | Z.of_nat a * (Z.of_nat i - Z.of_nat j))%Z).
  { apply Z.mod_divide; [lia|]. rewrite Z.mul_sub_distr_l.
    by rewrite Zminus_mod, Ez, Z.sub_diag, Z.mod_0_l by lia. }
  apply Z.gauss in Hdiv; [|by rewrite Z.gcd_comm].
  destruct Hdiv as [q Hq]. destruct (Z.lt_trichotomy q 0) as [|[->|]]; nia.
Qed.

Lemma interl_index_range i : i <= k -> 1 <= interl_index k a i <= k.
Proof. intros Hi. rewrite interl_index_val by done. divlia. Qed.

Lemma interl_NoDup : NoDup ((fun i => interl_index k a i - 1) <$> seq 1 k).
Proof.
  apply NoDup_fmap_2_strong; [|apply NoDup_seq].
  intros i j Hi Hj E. apply elem_of_seq in Hi, Hj.
  pose proof (interl_index_range i). pose proof (interl_index_range j).
  apply interl_index_inj; lia.
Qed.

(** De-interleaving restores the first [k] entries and touches nothing else. *)
Lemma block_roundtrip input out0 out1 :
  k <= length input -> k <= length out0 -> k <= length out1 ->
  exists mid, block_interleave k a input out0 = Some mid /\ length mid = length out0 /\
    drop k mid = drop k out0 /\
    block_deinterleave k a mid out1 = Some (take k input ++ drop k out1).
Proof.
  intros Hi H0 H1. unfold block_interleave, block_deinterleave.
  btrue (k <=? length input). btrue (k <=? length out0). simpl.
  destruct (for_copy_spec (seq 1 k) (fun i => i - 1) (fun i => interl_index k a i - 1)
              input out0) as (mid & E & L & In & Out).
  { exact interl_NoDup. }
  { apply Forall_forall. intros i Hin. apply elem_of_seq in Hin. lia. }
  { apply Forall_forall. intros i Hin. apply elem_of_seq in Hin.
    pose proof (interl_index_range i). lia. }
  exists mid. split; [done|]. split; [done|]. split.
  { apply list_eq. intros i. rewrite !lookup_drop. apply Out.
    intros (j & Ej & Hj)%list_elem_of_fmap. apply elem_of_seq in Hj.
    pose proof (interl_index_range j). lia. }
  btrue (k <=? length mid). btrue (k <=? length out1). simpl.
  destruct (for_copy_spec (seq 1 k) (fun i => interl_index k a i - 1) (fun i => i - 1)
              mid out1) as (out & E' & L' & In' & Out').
  { apply NoDup_fmap_2_strong; [|apply NoDup_seq].
    intros i j Hii Hjj Eij. apply elem_of_seq in Hii, Hjj. lia. }
  { apply Forall_forall. intros i Hin. apply elem_of_seq in Hin.
    pose proof (interl_index_range i). lia. }
  { apply Forall_forall. intros i Hin. apply elem_of_seq in Hin. lia. }
  rewrite E'. f_equal. apply list_eq. intros i. destruct (decide (i < k)) as [Hlt|Hge].
  - rewrite lookup_app_l, lookup_take_lt by (rewrite ?length_take; lia).
    assert (Hel : S i ∈ seq 1 k) by (apply elem_of_seq; lia).
    specialize (In' (S i) Hel). specialize (In (S i) Hel). simpl in *.
    replace (S i - 1) with i in * by lia. congruence.
  - rewrite lookup_app_r by (rewrite length_take; lia). rewrite lookup_drop, length_take.
    replace (k + (i - Nat.min k (length input))) with i by lia.
    apply Out'. intros Hel. apply list_elem_of_fmap in Hel as (j & -> & Hj).
    apply elem_of_seq in Hj. lia.
Qed.

Lemma block_deinterleave_total input output :
  k <= length input -> k <= length output ->
  exists out, block_deinterleave k a input output = Some out /\ length out = length output.
Proof.
  intros Hi Ho. unfold block_deinterleave.
  btrue (k <=? length input). btrue (k <=? length output). simpl.
  destruct (for_copy_spec (seq 1 k) (fun i => interl_index k a i - 1) (fun i => i - 1)
              input output) as (out & E & L & _); [| | |eauto].
  - apply NoDup_fmap_2_strong; [|apply NoDup_seq].
    intros i j Hii Hjj Eij. apply elem_of_seq in Hii, Hjj. lia.
  - apply Forall_forall. intros i Hin. apply elem_of_seq in Hin.
    pose proof (interl_index_range i). lia.
  - apply Forall_forall. intros i Hin. apply elem_of_seq in Hin. lia.
Qed.
End block.

(** ** Matrix interleaving is a transposition *)

Lemma elem_of_matrix_order lines columns i j :
  (i, j) ∈ matrix_order lines columns <-> i < columns /\ j < lines.
Proof.
  unfold matrix_order. rewrite list_elem_of_bind. split.
  - intros (x & Hx & H). apply list_elem_of_bind in Hx as (y & Hy & Hy').
    apply list_elem_of_singleton in Hy. apply elem_of_seq in H, Hy'.
    injection Hy as -> ->. lia.
  - intros [Hi Hj]. exists i. split; [|apply elem_of_seq; lia].
    apply list_elem_of_bind. exists j. split; [by apply list_elem_of_singleton|].
    apply elem_of_seq. lia.
Qed.

Lemma NoDup_matrix_order lines columns : NoDup (matrix_order lines columns).
Proof.
  unfold matrix_order. apply NoDup_bind.
  - intros x1 x2 y _ _ Hy1 Hy2. apply list_elem_of_bind in Hy1 as (j1 & H1 & _), Hy2 as (j2 & H2 & _).
    apply list_elem_of_singleton in H1, H2. congruence.
  - intros x _. apply NoDup_bind.
    + intros y1 y2 z _ _ H1 H2. apply list_elem_of_singleton in H1, H2. congruence.
    + intros y _. apply NoDup_singleton.
    + apply NoDup_seq.
  - apply NoDup_seq.
Qed.

Lemma pair_index_inj (m i j i' j' : nat) :
  j < m -> j' < m -> i * m + j = i' * m + j' -> i = i' /\ j = j'.
Proof. intros. assert (i = i') by nia. subst. lia. Qed.

Lemma matrix_roundtrip lines columns input out0 out1 :
  lines * columns <= length input -> lines * columns <= length out0 ->
  lines * columns <= length out1 ->
  exists mid, matrix_interleave lines columns input out0 = Some mid /\ length mid = length out0 /\
    matrix_deinterleave lines columns mid out1
    = Some (take (lines * columns) input ++ drop (lines * columns) out1).
Proof.
  intros Hi H0 H1. unfold matrix_interleave, matrix_deinterleave.
  btrue (lines * columns <=? length input). btrue (lines * columns <=? length out0). simpl.
  destruct (for_copy_spec (matrix_order lines columns) (fun '(i, j) => j * columns + i)
              (fun '(i, j) => i * lines + j) input out0) as (mid & E & L & In & Out).
  { apply NoDup_fmap_2_strong; [|apply NoDup_matrix_order].
    intros [i j] [i' j'] Ha Hb Eq. apply elem_of_matrix_order in Ha, Hb.
    apply pair_index_inj in Eq as [-> ->]; [done|lia..]. }
  { apply Forall_forall. intros [i j] Hin. apply elem_of_matrix_order in Hin. nia. }
  { apply Forall_forall. intros [i j] Hin. apply elem_of_matrix_order in Hin. nia. }
  exists mid. split; [done|]. split; [done|].
  btrue (lines * columns <=? length mid). btrue (lines * columns <=? length out1). simpl.
  destruct (for_copy_spec (matrix_order lines columns) (fun '(i, j) => i * lines + j)
              (fun '(i, j) => j * columns + i) mid out1) as (out & E' & L' & In' & Out').
  { apply NoDup_fmap_2_strong; [|apply NoDup_matrix_order].
    intros [i j] [i' j'] Ha Hb Eq. apply elem_of_matrix_order in Ha, Hb.
    apply pair_index_inj in Eq as [-> ->]; [done|lia..]. }
  { apply Forall_forall. intros [i j] Hin. apply elem_of_matrix_order in Hin. nia. }
  { apply Forall_forall. intros [i j] Hin. apply elem_of_matrix_order in Hin. nia. }
  rewrite E'. f_equal. apply list_eq. intros p.
  destruct (decide (p < lines * columns)) as [Hlt|Hge].
  - rewrite lookup_app_l, lookup_take_lt by (rewrite ?length_take; lia).
    assert (Hc : columns <> 0) by lia.
    assert (Hel : (p mod columns, p / columns) ∈ matrix_order lines columns).
    { apply elem_of_matrix_order. split; [by apply Nat.mod_upper_bound|].
      apply Nat.Div0.div_lt_upper_bound. lia. }
    specialize (In' _ Hel). specialize (In _ Hel). simpl in In, In'.
    replace (p / columns * columns + p mod columns) with p in *; [congruence|].
    rewrite (Nat.div_mod_eq p columns) at 1. lia.
  - rewrite lookup_app_r by (rewrite length_take; lia). rewrite lookup_drop, length_take.
    replace (lines * columns + (p - Nat.min (lines * columns) (length input))) with p by lia.
    apply Out'. intros Hel. apply list_elem_of_fmap in Hel as ([i j] & -> & Hj).
    apply elem_of_matrix_order in Hj. nia.
Qed.

Lemma block_interleave_Forall (P : Z -> Prop) k a input output out :
  block_interleave k a input output = Some out ->
  Forall P input -> Forall P output -> Forall P out.
Proof. unfold block_interleave. destruct (_ && _); [apply for_copy_Forall|done]. Qed.

Lemma matrix_interleave_Forall (P : Z -> Prop) lines columns input output out :
  matrix_interleave lines columns input output = Some out ->
  Forall P input -> Forall P output -> Forall P out.
Proof. unfold matrix_interleave. destruct (_ && _); [apply for_copy_Forall|done]. Qed.

Lemma matrix_deinterleave_total lines columns input output :
  lines * columns <= length input -> lines * columns <= length output ->
  exists out, matrix_deinterleave lines columns input output = Some out /\ length out = length output /\
    forall P : Z -> Prop, Forall P input -> Forall P output -> Forall P out.
Proof.
  intros Hi Ho. unfold matrix_deinterleave.
  btrue (lines * columns <=? length input). btrue (lines * columns <=? length output). simpl.
  destruct (for_copy_spec (matrix_order lines columns) (fun '(i, j) => i * lines + j)
              (fun '(i, j) => j * columns + i) input output) as (out & E & L & _).
  { apply NoDup_fmap_2_strong; [|apply NoDup_matrix_order].
    intros [i j] [i' j'] Ha Hb Eq. apply elem_of_matrix_order in Ha, Hb.
    apply pair_index_inj in Eq as [-> ->]; [done|lia..]. }
  { apply Forall_forall. intros [i j] Hin. apply elem_of_matrix_order in Hin. nia. }
  { apply Forall_forall. intros [i j] Hin. apply elem_of_matrix_order in Hin. nia. }
  exists out. split; [done|]. split; [done|]. intros P. by apply (for_copy_Forall P _ _ _ _ _ _ E).
Qed.

(** ** Theorems *)

(** Block interleaving is a bijection.  Whenever [a] is coprime to [k] (as for
    every channel) and the products fit in 32 bits, de-interleaving what
    [block_interleave] produced restores the [k] bits in order. *)
Theorem block_interleave_inverse k a input out0 out1 :
  0 < k -> (Z.of_nat k * Z.of_nat a < 2 ^ 32)%Z -> 0 < a ->
  Z.gcd (Z.of_nat a) (Z.of_nat k) = 1%Z ->
  k <= length input -> k <= length out0 -> k <= length out1 ->
  exists mid, block_interleave k a input out0 = Some mid /\ length mid = length out0 /\
    drop k mid = drop k out0 /\
    block_deinterleave k a mid out1 = Some (take k input ++ drop k out1).
Proof. intros Hk Hka Ha Hcop. by apply block_roundtrip. Qed.


(** Matrix interleaving is a bijection: For every number of lines and columns,
    [matrix_deinterleave] undoes [matrix_interleave]. *)
Lemma matrix_interleave_inverse lines columns input out0 out1 :
  lines * columns <= length input -> lines * columns <= length out0 ->
  lines * columns <= length out1 ->
  exists mid, matrix_interleave lines columns input out0 = Some mid /\ length mid = length out0 /\
    matrix_deinterleave lines columns mid out1
    = Some (take (lines * columns) input ++ drop (lines * columns) out1).
Proof. apply matrix_roundtrip. Qed.

