(* ===== verification/ConvCode.v ===== *)
(** * Convolutional encoding and puncturing
      (crates/tetra-entities/src/lmac/components/convenc.rs)

    The rate-1/4 signalling encoder, the rate-1/3 speech encoder, the rate
    compatible puncturer and its inverse.  Bits are [u8] values in one-bit-per-byte
    arrays, as in the source. *)

From Stdlib Require Import ZArith Lia ZifyNat.
From S2P Require Import Prelude.

Inductive RcpcPunctMode :=
  | Rate2_3 | Rate1_3 | Rate292_432 | Rate148_432 | Rate112_168 | Rate72_162 | Rate38_80.

(** ** Encoders: the shift register [delayed: [u8; 4]] *)

Record ConvEncState := mkEnc { d0 : Z; d1 : Z; d2 : Z; d3 : Z }.

Definition enc_new : ConvEncState := mkEnc 0 0 0 0.
Definition enc_reset (_ : ConvEncState) : ConvEncState := mkEnc 0 0 0 0.

(** Returns the new register, [out: [u8; 4]] and the packed nibble. *)
Definition encode_bit (self : ConvEncState) (bit : Z) : ConvEncState * list Z * Z :=
  let g1 := Z.lxor (Z.lxor bit (d0 self)) (d3 self) in
  let g2 := Z.lxor (Z.lxor (Z.lxor bit (d1 self)) (d2 self)) (d3 self) in
  let g3 := Z.lxor (Z.lxor (Z.lxor bit (d0 self)) (d1 self)) (d3 self) in
  let g4 := Z.lxor (Z.lxor (Z.lxor bit (d0 self)) (d2 self)) (d3 self) in
  (mkEnc bit (d0 self) (d1 self) (d2 self), [g1; g2; g3; g4],
   Z.lor (Z.lor (Z.lor g1 (u8 (Z.shiftl g2 1))) (u8 (Z.shiftl g3 2))) (u8 (Z.shiftl g4 3))).

(** [encode]: chunk [i] of the output receives the four bits of input bit [i]. *)
Fixpoint encode_loop (self : ConvEncState) (input : list Z) (i : nat) (output : list Z)
  : option (ConvEncState * list Z) :=
  match input with
  | [] => Some (self, output)
  | bit :: input' =>
      let '(self', out, _) := encode_bit self bit in
      output' ← splice output (i * 4) out;
      encode_loop self' input' (S i) output'
  end.
Definition encode (self : ConvEncState) (input output : list Z) : option (ConvEncState * list Z) :=
  if length input * 4 <=? length output then encode_loop self input 0 output else None.

(** [encode_rate1_3]: keeps G1, G2 and G3. *)
Fixpoint encode_rate1_3_loop (self : ConvEncState) (input : list Z) (i : nat) (output : list Z)
  : option (ConvEncState * list Z) :=
  match input with
  | [] => Some (self, output)
  | bit :: input' =>
      let '(self', g4, _) := encode_bit self bit in
      output' ← array_set output (i * 3) (g4 !!! 0);
      output' ← array_set output' (i * 3 + 1) (g4 !!! 1);
      output' ← array_set output' (i * 3 + 2) (g4 !!! 2);
      encode_rate1_3_loop self' input' (S i) output'
  end.
Definition encode_rate1_3 (self : ConvEncState) (input output : list Z)
  : option (ConvEncState * list Z) :=
  if length input * 3 <=? length output then encode_rate1_3_loop self input 0 output else None.

(** The speech encoder has the same register and other generators. *)
Definition speech_encode_bit (self : ConvEncState) (bit : Z) : ConvEncState * list Z :=
  let g1 := Z.lxor (Z.lxor (Z.lxor (Z.lxor bit (d0 self)) (d1 self)) (d2 self)) (d3 self) in
  let g2 := Z.lxor (Z.lxor (Z.lxor bit (d0 self)) (d2 self)) (d3 self) in
  let g3 := Z.lxor (Z.lxor bit (d1 self)) (d3 self) in
  (mkEnc bit (d0 self) (d1 self) (d2 self), [g1; g2; g3]).

Fixpoint speech_encode_loop (self : ConvEncState) (input : list Z) (i : nat) (output : list Z)
  : option (ConvEncState * list Z) :=
  match input with
  | [] => Some (self, output)
  | bit :: input' =>
      let '(self', g3) := speech_encode_bit self bit in
      output' ← array_set output (i * 3) (g3 !!! 0);
      output' ← array_set output' (i * 3 + 1) (g3 !!! 1);
      output' ← array_set output' (i * 3 + 2) (g3 !!! 2);
      speech_encode_loop self' input' (S i) output'
  end.
Definition speech_encode (self : ConvEncState) (input output : list Z)
  : option (ConvEncState * list Z) :=
  if length input * 3 <=? length output then speech_encode_loop self input 0 output else None.

(** ** Puncturing *)

Definition i_equals (j : nat) : nat := j.
Definition i_292 (j : nat) : nat := j + (j - 1) / 65.
Definition i_148 (j : nat) : nat := j + (j - 1) / 35.

Record Puncturer := mkPuncturer {
  p_ : list nat;
  t_ : nat;
  period : nat;
  i_func : nat -> nat
}.

Definition P_RATE2_3 : list nat := [0; 1; 2; 5].
Definition P_RATE1_3 : list nat := [0; 1; 2; 3; 5; 6; 7].
Definition P_RATE8_12 : list nat := [0; 1; 2; 4].
Definition P_RATE8_18 : list nat := [0; 1; 2; 3; 4; 5; 7; 8; 10; 11].
Definition P_RATE8_17 : list nat :=
  [0; 1; 2; 3; 4; 5; 7; 8; 10; 11; 13; 14; 16; 17; 19; 20; 22; 23].

Definition get_puncturer (pu : RcpcPunctMode) : Puncturer :=
  match pu with
  | Rate2_3 => mkPuncturer P_RATE2_3 3 8 i_equals
  | Rate1_3 => mkPuncturer P_RATE1_3 6 8 i_equals
  | Rate292_432 => mkPuncturer P_RATE2_3 3 8 i_292
  | Rate148_432 => mkPuncturer P_RATE1_3 6 8 i_148
  | Rate112_168 => mkPuncturer P_RATE8_12 3 6 i_equals
  | Rate72_162 => mkPuncturer P_RATE8_18 9 12 i_equals
  | Rate38_80 => mkPuncturer P_RATE8_17 17 24 i_equals
  end.

(** The mother-code position (1-based) of punctured bit [j]. *)
Definition punct_k (pu : Puncturer) (j : nat) : option nat :=
  let i := i_func pu j in
  let blk := (i - 1) / t_ pu in
  let idx := i - t_ pu * blk in
  p ← p_ pu !! idx;
  Some (period pu * blk + p).

Definition get_punctured_rate (pu : RcpcPunctMode) (input output : list Z) : option (list Z) :=
  let puncturer := get_puncturer pu in
  foldM (fun out j =>
    k ← punct_k puncturer j;
    x ← input !! (k - 1);
    array_set out (j - 1) x) (seq 1 (length output)) output.

Definition tetra_rcpc_depunct (pu : RcpcPunctMode) (input : list Z) (len : nat)
  (output : list Z) : option (list Z) :=
  let puncturer := get_puncturer pu in
  foldM (fun out j =>
    k ← punct_k puncturer j;
    x ← input !! (j - 1);
    array_set out (k - 1) x) (seq 1 len) output.

(** Compares, ignoring erasures; [None] is [Err(())]. *)
Fixpoint mother_memcmp_loop (mother depunct : list Z) (matched : nat) : option nat :=
  match mother, depunct with
  | m :: mother', d :: depunct' =>
      if (d =? 255)%Z then mother_memcmp_loop mother' depunct' matched
      else if negb (d =? m)%Z then None
      else mother_memcmp_loop mother' depunct' (S matched)
  | _, _ => Some matched
  end.
Definition mother_memcmp (mother depunct : list Z) : option nat :=
  mother_memcmp_loop mother depunct 0.

(** ** Encoders as polynomial convolution over booleans *)

(** A register of past input bits, newest first, and a generator polynomial
    1, D, .., D^4. *)
Definition gen_out (poly : list bool) (reg : list bool) (bit : bool) : bool :=
  foldr xorb false (zip_with andb poly (bit :: reg)).
Definition reg_next (reg : list bool) (bit : bool) : list bool := bit :: take 3 reg.

Fixpoint conv (polys : list (list bool)) (reg : list bool) (bits : list bool)
  : list (list bool) :=
  match bits with
  | [] => []
  | b :: bits' => ((fun p => gen_out p reg b) <$> polys) :: conv polys (reg_next reg b) bits'
  end.

Definition reg_after (reg : list bool) (bits : list bool) : list bool := foldl reg_next reg bits.

Definition enc_of (reg : list bool) : ConvEncState :=
  mkEnc (b2z (reg !!! 0)) (b2z (reg !!! 1)) (b2z (reg !!! 2)) (b2z (reg !!! 3)).

Definition cch_polys : list (list bool) :=
  [[true; true; false; false; true]; [true; false; true; true; true];
   [true; true; true; false; true]; [true; true; false; true; true]].
Definition speech_polys : list (list bool) :=
  [[true; true; true; true; true]; [true; true; false; true; true];
   [true; false; true; false; true]].

Lemma length_conv polys reg bits : length (conv polys reg bits) = length bits.
Proof. revert reg; induction bits; intros reg; simpl; auto. Qed.

Lemma conv_app polys reg b1 b2 :
  conv polys reg (b1 ++ b2) = conv polys reg b1 ++ conv polys (reg_after reg b1) b2.
Proof. revert reg; induction b1; intros reg; simpl; [done|]. f_equal. auto. Qed.

Lemma length_reg_after reg bits : length reg = 4 -> length (reg_after reg bits) = 4.
Proof.
  revert reg; induction bits; intros reg H; simpl; [done|]. apply IHbits.
  simpl. rewrite length_take. lia.
Qed.

(** The register of four booleans, taken apart. *)
Lemma reg_inv (reg : list bool) : length reg = 4 -> exists a b c d, reg = [a; b; c; d].
Proof.
  intros H. destruct reg as [|a [|b [|c [|d [|]]]]]; simpl in H; try lia. eauto 6.
Qed.

Lemma encode_bit_conv reg b :
  length reg = 4 ->
  fst (encode_bit (enc_of reg) (b2z b))
  = (enc_of (reg_next reg b), b2z <$> ((fun p => gen_out p reg b) <$> cch_polys)).
Proof.
  intros H. apply reg_inv in H as (x & y & z & w & ->). by destruct b, x, y, z, w.
Qed.

Lemma speech_encode_bit_conv reg b :
  length reg = 4 ->
  speech_encode_bit (enc_of reg) (b2z b)
  = (enc_of (reg_next reg b), b2z <$> ((fun p => gen_out p reg b) <$> speech_polys)).
Proof.
  intros H. apply reg_inv in H as (x & y & z & w & ->). by destruct b, x, y, z, w.
Qed.

Lemma encode_loop_conv bits : forall reg i pre rest,
  length reg = 4 -> length pre = i * 4 -> length bits * 4 <= length rest ->
  encode_loop (enc_of reg) (b2z <$> bits) i (pre ++ rest)
  = Some (enc_of (reg_after reg bits),
          pre ++ (b2z <$> concat (conv cch_polys reg bits)) ++ drop (length bits * 4) rest).
Proof.
  induction bits as [|b bits IH]; intros reg i pre rest Hr Hp Hl; [done|].
  cbn [encode_loop fmap list_fmap]. pose proof (encode_bit_conv reg b Hr) as E.
  destruct (encode_bit (enc_of reg) (b2z b)) as [[e o] nib]. simpl in E. injection E as -> ->.
  destruct (split_length rest 4) as (old & post & -> & Ho); [simpl in Hl; lia|].
  rewrite <- Hp, splice_app by (by rewrite Ho). cbn [mbind option_bind].
  rewrite app_assoc, IH.
  - cbn [reg_after foldl conv concat length]. rewrite fmap_app, <- !app_assoc.
    rewrite (drop_app_ge old) by (rewrite Ho; lia).
    repeat f_equal. lia.
  - simpl. rewrite length_take. lia.
  - rewrite length_app. simpl. lia.
  - rewrite length_app in Hl. simpl in Hl. lia.
Qed.

Lemma length_concat_conv polys reg bits :
  length (concat (conv polys reg bits)) = length bits * length polys.
Proof.
  revert reg; induction bits; intros reg; simpl; [done|].
  rewrite length_app, length_fmap, IHbits. lia.
Qed.

(** [encode] fills the front of an array that is long enough. *)
Lemma encode_conv reg bits output :
  length reg = 4 -> length bits * 4 <= length output ->
  encode (enc_of reg) (b2z <$> bits) output
  = Some (enc_of (reg_after reg bits),
          (b2z <$> concat (conv cch_polys reg bits)) ++ drop (length bits * 4) output).
Proof.
  intros Hr Ho. unfold encode. rewrite length_fmap. btrue (length bits * 4 <=? length output).
  by apply (encode_loop_conv bits reg 0 [] output).
Qed.

(** The three stores of the rate-1/3 loops. *)
Lemma array_set3 {A B} (pre : list A) x y z post g0 g1 g2 i (k : list A -> option B) :
  length pre = i ->
  (o ← array_set (pre ++ [x; y; z] ++ post) i g0;
   o ← array_set o (i + 1) g1; o ← array_set o (i + 2) g2; k o)
  = k (pre ++ [g0; g1; g2] ++ post).
Proof.
  intros <-. cbn [app]. rewrite array_set_app. cbn [mbind option_bind].
  replace (length pre + 1) with (length (pre ++ [g0])) by (rewrite length_app; simpl; lia).
  replace (length pre + 2) with (length (pre ++ [g0; g1])) by (rewrite length_app; simpl; lia).
  change (g0 :: y :: z :: post) with ([g0] ++ y :: z :: post).
  rewrite (app_assoc pre [g0]), array_set_app. cbn [mbind option_bind].
  rewrite <- app_assoc. cbn [app].
  change (g0 :: g1 :: z :: post) with ([g0; g1] ++ z :: post).
  rewrite (app_assoc pre [g0; g1]), array_set_app. cbn [mbind option_bind].
  by rewrite <- app_assoc.
Qed.

Lemma speech_encode_loop_conv bits : forall reg i pre rest,
  length reg = 4 -> length pre = i * 3 -> length bits * 3 <= length rest ->
  speech_encode_loop (enc_of reg) (b2z <$> bits) i (pre ++ rest)
  = Some (enc_of (reg_after reg bits),
          pre ++ (b2z <$> concat (conv speech_polys reg bits)) ++ drop (length bits * 3) rest).
Proof.
  induction bits as [|b bits IH]; intros reg i pre rest Hr Hp Hl; [done|].
  cbn [speech_encode_loop fmap list_fmap]. rewrite (speech_encode_bit_conv reg b Hr).
  destruct rest as [|x [|y [|z post]]]; try (simpl in Hl; lia).
  change (x :: y :: z :: post) with ([x; y; z] ++ post).
  rewrite (array_set3 pre x y z post) by done. rewrite app_assoc, IH.
  - cbn [reg_after foldl conv concat length]. rewrite fmap_app, <- !app_assoc.
    rewrite (drop_app_ge [x; y; z]) by (simpl; lia).
    repeat f_equal. simpl. lia.
  - simpl. rewrite length_take. lia.
  - rewrite length_app. simpl. lia.
  - simpl in Hl. lia.
Qed.

Lemma speech_encode_conv reg bits output :
  length reg = 4 -> length output = length bits * 3 ->
  speech_encode (enc_of reg) (b2z <$> bits) output
  = Some (enc_of (reg_after reg bits), b2z <$> concat (conv speech_polys reg bits)).
Proof.
  intros Hr Ho. unfold speech_encode. rewrite length_fmap.
  btrue (length bits * 3 <=? length output).
  pose proof (speech_encode_loop_conv bits reg 0 [] output) as E. cbn [app] in E.
  rewrite E by (simpl; lia). by rewrite drop_ge, app_nil_r by lia.
Qed.

(** ** The puncturer keeps an increasing sequence of positions *)

(** The position of punctured bit [j] in the mother block, from 0. *)
Definition kept (pu : RcpcPunctMode) (j : nat) : nat :=
  default 0 (punct_k (get_puncturer pu) j) - 1.

(** Well-formed tables: [t + 1] strictly increasing entries in [1..period]
    after the unused entry 0. *)
Definition table_ok (pu : Puncturer) : bool :=
  (length (p_ pu) =? S (t_ pu)) && (0 <? t_ pu)
  && forallb (fun i => default 0 (p_ pu !! i) <? default 0 (p_ pu !! S i)) (seq 0 (t_ pu))
  && (default 0 (p_ pu !! t_ pu) <=? period pu).

Lemma tables_ok pu : table_ok (get_puncturer pu) = true.
Proof. by destruct pu. Qed.

Section puncturer.
Context (pu : Puncturer) (Hok : table_ok pu = true).

Let p (i : nat) : nat := default 0 (p_ pu !! i).

Lemma table_facts :
  length (p_ pu) = S (t_ pu) /\ 0 < t_ pu /\ p (t_ pu) <= period pu /\
  forall i, i < t_ pu -> p i < p (S i).
Proof.
  unfold table_ok in Hok. rewrite !andb_true_iff, forallb_forall, Nat.eqb_eq, Nat.ltb_lt, Nat.leb_le in Hok.
  destruct Hok as [[[H1 H2] H3] H4]. unfold p. split_and!; [lia..|].
  intros i Hi. specialize (H3 i). rewrite in_seq, Nat.ltb_lt in H3. apply H3. lia.
Qed.

Lemma p_range i : 1 <= i <= t_ pu -> 1 <= p i <= period pu.
Proof.
  destruct table_facts as (_ & _ & Hmax & Hinc).
  intros Hi. split.
  - destruct i; [lia|]. specialize (Hinc i). lia.
  - assert (forall d, i + d <= t_ pu -> p i <= p (i + d)) as Hmono.
    { induction d; intros Hd; [by rewrite Nat.add_0_r|].
      rewrite Nat.add_succ_r in *. specialize (Hinc (i + d)). lia. }
    specialize (Hmono (t_ pu - i)). replace (i + (t_ pu - i)) with (t_ pu) in Hmono by lia. lia.
Qed.

(** Position of mother index [i], written with quotient and remainder. *)
Definition pk (i : nat) : nat :=
  period pu * ((i - 1) / t_ pu) + p ((i - 1) mod t_ pu + 1) - 1.

Lemma pk_lt i : 1 <= i -> pk i < pk (S i).
Proof.
  intros Hi. destruct table_facts as (_ & Ht & _ & Hinc). unfold pk.
  destruct i as [|i]; [lia|]. rewrite !Nat.sub_succ, !Nat.sub_0_r.
  pose proof (Nat.mod_upper_bound i (t_ pu)). pose proof (Nat.div_mod_eq i (t_ pu)).
  pose proof (p_range (i mod t_ pu + 1)).
  destruct (decide (i mod t_ pu + 1 = t_ pu)) as [Hw|Hw].
  - assert (S i / t_ pu = S (i / t_ pu) /\ S i mod t_ pu = 0) as [-> ->].
    { split.
      - symmetry. apply (Nat.div_unique _ _ _ 0); nia.
      - symmetry. apply (Nat.mod_unique _ _ (S (i / t_ pu))); nia. }
    pose proof (p_range (0 + 1)). nia.
  - assert (S i / t_ pu = i / t_ pu /\ S i mod t_ pu = S (i mod t_ pu)) as [-> ->].
    { split.
      - symmetry. apply (Nat.div_unique _ _ _ (S (i mod t_ pu))); nia.
      - symmetry. apply (Nat.mod_unique _ _ (i / t_ pu)); nia. }
    specialize (Hinc (i mod t_ pu + 1)). replace (S (i mod t_ pu) + 1)
      with (S (i mod t_ pu + 1)) by lia. nia.
Qed.

Lemma pk_mono i j : 1 <= i -> i < j -> pk i < pk j.
Proof.
  intros Hi Hj. induction Hj as [|j Hj IH]; [by apply pk_lt|].
  pose proof (pk_lt j). lia.
Qed.

Lemma punct_k_pk j : 1 <= i_func pu j -> punct_k pu j = Some (S (pk (i_func pu j))).
Proof.
  intros Hi. destruct table_facts as (Hl & Ht & _ & _). unfold punct_k.
  set (i := i_func pu j) in *.
  pose proof (Nat.mod_upper_bound (i - 1) (t_ pu)). pose proof (Nat.div_mod_eq (i - 1) (t_ pu)).
  replace (i - t_ pu * ((i - 1) / t_ pu)) with ((i - 1) mod t_ pu + 1) by lia.
  pose proof (p_range ((i - 1) mod t_ pu + 1)) as Hr. unfold p in Hr.
  destruct (lookup_lt_is_Some_2 (p_ pu) ((i - 1) mod t_ pu + 1)) as [x Hx]; [lia|].
  unfold pk, p. rewrite Hx in *. simpl in *. f_equal. lia.
Qed.
End puncturer.

Lemma i_func_inc pu i j :
  1 <= i -> i < j -> 1 <= i_func (get_puncturer pu) i < i_func (get_puncturer pu) j.
Proof. destruct pu; simpl; unfold i_equals, i_292, i_148; divlia. Qed.

Lemma kept_pk pu j :
  1 <= j ->
  punct_k (get_puncturer pu) j = Some (S (kept pu j)) /\
  kept pu j = pk (get_puncturer pu) (i_func (get_puncturer pu) j).
Proof.
  intros Hj. unfold kept. pose proof (i_func_inc pu j (S j)).
  rewrite punct_k_pk by (apply tables_ok || lia). simpl. split; f_equal; lia.
Qed.

Lemma kept_mono pu i j : 1 <= i -> i < j -> kept pu i < kept pu j.
Proof.
  intros Hi Hj. rewrite (proj2 (kept_pk pu i Hi)), (proj2 (kept_pk pu j ltac:(lia))).
  pose proof (i_func_inc pu i j). apply pk_mono; [apply tables_ok|lia..].
Qed.

Lemma kept_NoDup pu n : NoDup (kept pu <$> seq 1 n).
Proof.
  apply NoDup_fmap_2_strong; [|apply NoDup_seq]. intros i j Hi Hj E.
  apply elem_of_seq in Hi, Hj. destruct (Nat.lt_trichotomy i j) as [H|[H|H]]; [|done|];
    apply (kept_mono pu) in H; lia.
Qed.

Lemma pred_NoDup n : NoDup ((fun j => j - 1) <$> seq 1 n).
Proof.
  apply NoDup_fmap_2_strong; [|apply NoDup_seq]. intros i j Hi Hj E.
  apply elem_of_seq in Hi, Hj. lia.
Qed.

Lemma punct_spec pu input output :
  (forall j, 1 <= j <= length output -> kept pu j < length input) ->
  exists out, get_punctured_rate pu input output = Some out /\ length out = length output /\
    forall j, 1 <= j <= length output -> out !! (j - 1) = input !! kept pu j.
Proof.
  intros H. unfold get_punctured_rate.
  destruct (for_copy_spec (seq 1 (length output)) (kept pu) (fun j => j - 1) input output)
    as (out & E & Hl & Ho & _).
  - apply pred_NoDup.
  - apply Forall_seq. intros j Hj. apply H. lia.
  - apply Forall_seq. intros j Hj. lia.
  - exists out. split; [|split; [done|]].
    + rewrite <- E. apply foldM_ext. intros a j Hj. apply elem_of_seq in Hj.
      rewrite (proj1 (kept_pk pu j ltac:(lia))). simpl. by replace (S (kept pu j) - 1) with (kept pu j) by lia.
    + intros j Hj. apply Ho, elem_of_seq. lia.
Qed.

Lemma depunct_spec pu input len output :
  len <= length input ->
  (forall j, 1 <= j <= len -> kept pu j < length output) ->
  exists out, tetra_rcpc_depunct pu input len output = Some out /\ length out = length output /\
    (forall j, 1 <= j <= len -> out !! kept pu j = input !! (j - 1)) /\
    (forall q, (forall j, 1 <= j <= len -> kept pu j <> q) -> out !! q = output !! q).
Proof.
  intros Hlen H. unfold tetra_rcpc_depunct.
  destruct (for_copy_spec (seq 1 len) (fun j => j - 1) (kept pu) input output)
    as (out & E & Hl & Ho & Hn).
  - apply kept_NoDup.
  - apply Forall_seq. intros j Hj. lia.
  - apply Forall_seq. intros j Hj. apply H. lia.
  - exists out. split; [|split; [done|split]].
    + rewrite <- E. apply foldM_ext. intros a j Hj. apply elem_of_seq in Hj.
      rewrite (proj1 (kept_pk pu j ltac:(lia))). simpl.
      destruct (input !! (j - 1)); simpl; [|done]. by replace (S (kept pu j) - 1) with (kept pu j) by lia.
    + intros j Hj. apply Ho, elem_of_seq. lia.
    + intros q Hq. apply Hn. intros [j [-> Hj]]%list_elem_of_fmap.
      apply elem_of_seq in Hj. apply (Hq j); lia || done.
Qed.

(** Puncturing into [n] bits and depuncturing the first [len] of them over
    erasures gives the mother block back, up to the erased positions. *)
Lemma depunct_punct pu mother out0 len erased :
  len <= length out0 ->
  (forall j, 1 <= j <= length out0 -> kept pu j < length mother) ->
  length mother <= length erased ->
  exists t3, get_punctured_rate pu mother out0 = Some t3 /\ length t3 = length out0 /\
    forall t3', take len t3' = take len t3 ->
    exists out, tetra_rcpc_depunct pu t3' len erased = Some out /\ length out = length erased /\
      (forall j, 1 <= j <= len -> out !! kept pu j = mother !! kept pu j) /\
      (forall q, out !! q = mother !! q \/ out !! q = erased !! q).
Proof.
  intros Hlen Hk He. destruct (punct_spec pu mother out0 Hk) as (t3 & E3 & L3 & H3).
  exists t3. split; [done|]. split; [done|]. intros t3' Ht.
  assert (Hlook : forall j, 1 <= j <= len -> t3' !! (j - 1) = mother !! kept pu j).
  { intros j Hj. rewrite <- (lookup_take_lt t3' len) by lia.
    rewrite Ht, lookup_take_lt by lia. apply H3. lia. }
  destruct (depunct_spec pu t3' len erased) as (out & E & L & Hin & Hout).
  { apply (f_equal length) in Ht. rewrite !length_take in Ht. lia. }
  { intros j Hj. specialize (Hk j). lia. }
  exists out. split_and!; try done.
  - intros j Hj. by rewrite Hin, Hlook.
  - intros q. destruct (decide (q ∈ kept pu <$> seq 1 len)) as [Hq|Hq].
    + apply list_elem_of_fmap in Hq as (j & -> & Hj). apply elem_of_seq in Hj.
      left. by rewrite Hin, Hlook by lia.
    + right. apply Hout. intros j Hj <-. apply Hq, list_elem_of_fmap. exists j.
      split; [done|]. apply elem_of_seq. lia.
Qed.

Lemma punct_Forall (P : Z -> Prop) pu input output out :
  get_punctured_rate pu input output = Some out ->
  Forall P input -> Forall P output -> Forall P out.
Proof.
  intros E Hi Ho. revert E. apply foldM_inv; [|done]. intros a j a' Ha Ej.
  destruct (punct_k _ j) as [k|]; [|done]. simpl in Ej.
  exact (copy_step_Forall P input a a' (k - 1) (j - 1) Hi Ha Ej).
Qed.

(** ** One bit of every symbol survives puncturing *)

Lemma pk_eval pu b r :
  table_ok pu = true -> r < t_ pu ->
  pk pu (t_ pu * b + r + 1) = period pu * b + default 0 (p_ pu !! (r + 1)) - 1.
Proof.
  intros Hok Hr. unfold pk. rewrite Nat.add_sub.
  replace ((t_ pu * b + r) / t_ pu) with b by (apply (Nat.div_unique _ _ _ r); lia).
  by replace ((t_ pu * b + r) mod t_ pu) with r by (apply (Nat.mod_unique _ _ b); lia).
Qed.

(** Row [r] of block [b] of an unstretched puncturer. *)
Lemma kept_eval pu b r :
  i_func (get_puncturer pu) = i_equals -> r < t_ (get_puncturer pu) ->
  kept pu (t_ (get_puncturer pu) * b + r + 1)
  = period (get_puncturer pu) * b + default 0 (p_ (get_puncturer pu) !! (r + 1)) - 1.
Proof.
  intros Hi Hr. set (j := t_ _ * b + r + 1). assert (Hj : 1 <= j) by (unfold j; lia).
  rewrite (proj2 (kept_pk pu j Hj)), Hi. unfold i_equals, j.
  apply pk_eval; [apply tables_ok|done].
Qed.

Lemma kept_first_2_3 i : exists j, 1 <= j /\ 2 * j <= 3 * i + 3 /\ kept Rate2_3 j = i * 4.
Proof.
  pose proof (Nat.div_mod_eq i 2). pose proof (Nat.mod_upper_bound i 2).
  destruct (decide (i mod 2 = 0)) as [E|E].
  - exists (3 * (i / 2) + 0 + 1). rewrite (kept_eval Rate2_3) by (simpl; lia || done). simpl. lia.
  - exists (3 * (i / 2) + 2 + 1). rewrite (kept_eval Rate2_3) by (simpl; lia || done). simpl. lia.
Qed.

Lemma kept_first_112_168 i : exists j, 1 <= j /\ 2 * j <= 3 * i + 3 /\ kept Rate112_168 j = i * 3.
Proof.
  pose proof (Nat.div_mod_eq i 2). pose proof (Nat.mod_upper_bound i 2).
  destruct (decide (i mod 2 = 0)) as [E|E].
  - exists (3 * (i / 2) + 0 + 1). rewrite (kept_eval Rate112_168) by (simpl; lia || done). simpl. lia.
  - exists (3 * (i / 2) + 2 + 1). rewrite (kept_eval Rate112_168) by (simpl; lia || done). simpl. lia.
Qed.

Lemma kept_first_72_162 i : exists j, 1 <= j /\ 4 * j <= 9 * i + 9 /\ kept Rate72_162 j = i * 3.
Proof.
  pose proof (Nat.div_mod_eq i 4) as Hd. pose proof (Nat.mod_upper_bound i 4).
  destruct (i mod 4) as [|[|[|[|]]]]; [| | | |lia].
  - exists (9 * (i / 4) + 0 + 1). rewrite (kept_eval Rate72_162) by (simpl; lia || done). simpl. lia.
  - exists (9 * (i / 4) + 3 + 1). rewrite (kept_eval Rate72_162) by (simpl; lia || done). simpl. lia.
  - exists (9 * (i / 4) + 5 + 1). rewrite (kept_eval Rate72_162) by (simpl; lia || done). simpl. lia.
  - exists (9 * (i / 4) + 7 + 1). rewrite (kept_eval Rate72_162) by (simpl; lia || done). simpl. lia.
Qed.

(** Bounds of the kept positions, from the last one. *)
Lemma kept_bound pu j n : 1 <= j <= n -> kept pu j <= kept pu n.
Proof.
  intros Hj. destruct (decide (j = n)) as [->|]; [done|].
  pose proof (kept_mono pu j n). lia.
Qed.
