(* ===== verification/Viterbi.v ===== *)
(** * Viterbi decoding (crates/tetra-entities/src/lmac/components/viterbi.rs)

    The decoder with its [i8] soft bits, [i16] path metrics and [u16] decision
    bitmaps, and the proof that it returns a maximum-likelihood message: no
    metric overflows, and no message of the same length that drives the encoder
    back to state 0 correlates better with what was received. *)

From Stdlib Require Import ZArith Lia ZifyNat.
From S2P Require Import Prelude ConvCode.

Abbreviation SoftBit := Z (only parsing).
Abbreviation Metric := Z (only parsing).

Definition K : nat := 5.
Definition num_states (k : nat) : nat := 2 ^ (k - 1).
Definition NUM_STATES : nat := num_states K.

(** The encoder output for [state] when the bit leaving the register is 0. *)
Definition encoder_output (poly : list bool) (state : nat) : bool :=
  foldl (fun out bit_i =>
    let past_input_bit := Nat.testbit state (K - 2 - bit_i) in
    if past_input_bit && (poly !!! bit_i) then negb out else out) false (seq 0 (K - 1)).

Definition new_with_polynomials (generator_polynomials : list (list bool)) : list (list SoftBit) :=
  (fun poly => (fun state => if encoder_output poly state then 1%Z else (-1)%Z)
                 <$> seq 0 NUM_STATES) <$> generator_polynomials.

(** Wrap-around [i8] product and [i16] subtraction, as in a release build. *)
Definition branch_metrics (expected_0 : list (list SoftBit)) (received : list SoftBit)
  : list Metric :=
  foldl (fun bm re => zip_with (fun m e => i16 (m - i8 (re.1 * e))) bm re.2)
    (replicate NUM_STATES 0%Z) (zip received expected_0).

(** The closure of [std::array::from_fn]: new metrics so far and [decisions]. *)
Definition acs (metrics branch_metrics_0 : list Metric) (acc : list Metric * Z) (state : nat)
  : list Metric * Z :=
  let '(new, decisions) := acc in
  let predecessor_0 := (state * 2) mod NUM_STATES in
  let predecessor_1 := predecessor_0 + 1 in
  let metric_0 := i16 (metrics !!! predecessor_0 + branch_metrics_0 !!! state) in
  let metric_1 := i16 (metrics !!! predecessor_1 - branch_metrics_0 !!! state) in
  if (metric_1 <? metric_0)%Z
  then (new ++ [metric_1], Z.lor decisions (Z.shiftl 1 (Z.of_nat state)))
  else (new ++ [metric_0], decisions).

Definition trellis_step (expected_0 : list (list SoftBit)) (acc : list Metric * list Z)
  (received : list SoftBit) : list Metric * list Z :=
  let '(metrics, trellis_decisions) := acc in
  let branch_metrics_0 := branch_metrics expected_0 received in
  let '(metrics', decisions) :=
    foldl (acs metrics branch_metrics_0) ([], 0%Z) (seq 0 NUM_STATES) in
  (metrics', trellis_decisions ++ [decisions]).

Definition METRIC_MAX_2 : Z := 32767 / 2.
Definition initial_metrics : list Metric := <[0 := 0%Z]> (replicate NUM_STATES METRIC_MAX_2).

Definition traceback_step (acc : list Z * nat) (decisions : Z) : list Z * nat :=
  let '(decoded_bits, best_state) := acc in
  (decoded_bits ++ [Z.land (Z.shiftr (Z.of_nat best_state) (Z.of_nat (K - 2))) 1],
   (best_state * 2) mod NUM_STATES
   + Z.to_nat (Z.land (Z.shiftr decisions (Z.of_nat best_state)) 1)).

Definition decode (expected_0 : list (list SoftBit)) (received_bits : list SoftBit) : list Z :=
  let '(_, trellis_decisions) :=
    foldl (trellis_step expected_0) (initial_metrics, [])
      (chunks_exact (length expected_0) received_bits) in
  let '(decoded_bits, _) := foldl traceback_step ([], 0) (rev trellis_decisions) in
  rev decoded_bits.

Definition TetraViterbiDecoder_new : list (list SoftBit) :=
  new_with_polynomials
    [[true; true; false; false; true]; [true; false; true; true; true];
     [true; true; true; false; true]; [true; true; false; true; true]].

Definition TetraCodecViterbiDecoder_new : list (list SoftBit) :=
  new_with_polynomials
    [[true; true; true; true; true]; [true; true; false; true; true];
     [true; false; true; false; true]].

(** The soft value of a received byte in [dec_sb1]. *)
Definition soft_of_byte (b : Z) : SoftBit :=
  if (b =? 0)%Z then (-1)%Z else if (b =? 1)%Z then 1%Z else 0%Z.

Definition dec_sb1 (in_buf out_buf : list Z) (sym_count : nat) : option (list Z) :=
  if (sym_count <=? 864) && (sym_count * 4 <=? length in_buf) && (sym_count <=? length out_buf)
  then
    let soft := soft_of_byte <$> take (sym_count * 4) in_buf in
    let decoded := decode TetraViterbiDecoder_new soft in
    d ← slice decoded 0 sym_count;
    splice out_buf 0 d
  else None.

(** ** Trellis paths

    State [s < 16] holds the last four input bits, the newest in bit 3. *)

Definition zeros4 : list bool := [false; false; false; false].
Definition reg_of (s : nat) : list bool :=
  [Nat.testbit s 3; Nat.testbit s 2; Nat.testbit s 1; Nat.testbit s 0].
Definition next (s : nat) (b : bool) : nat := (if b then 8 else 0) + s / 2.
Definition run (s : nat) (path : list bool) : nat := foldl next s path.
Definition pred (s : nat) (x : bool) : nat := (s * 2) mod NUM_STATES + (if x then 1 else 0).

Definition trans (polys : list (list bool)) (s : nat) (b : bool) : list bool :=
  (fun p => gen_out p (reg_of s) b) <$> polys.

Definition pm (b : bool) : Z := if b then 1%Z else (-1)%Z.
Fixpoint correlate (soft : list Z) (bits : list bool) : Z :=
  match soft, bits with
  | r :: soft', b :: bits' => (r * pm b + correlate soft' bits')%Z
  | _, _ => 0%Z
  end.

(** The correlation a path collects along the trellis. *)
Fixpoint gain (polys : list (list bool)) (s : nat) (path : list bool) (chunks : list (list Z))
  : Z :=
  match path, chunks with
  | b :: path', c :: chunks' =>
      (correlate c (trans polys s b) + gain polys (next s b) path' chunks')%Z
  | _, _ => 0%Z
  end.

(** Generators whose newest and oldest taps are set, as all TETRA ones. *)
Definition good_poly (p : list bool) : Prop :=
  exists a b c, p = [true; a; b; c; true].

(** Case analysis on the sixteen states. *)
Ltac states s := first [exfalso; lia | destruct s as [|s]; [|states s]].

Lemma reg_of_next s b : s < 16 -> reg_of (next s b) = reg_next (reg_of s) b.
Proof. intros H. states s; by destruct b. Qed.

Lemma next_lt s b : s < 16 -> next s b < 16.
Proof. intros H. unfold next. destruct b; divlia. Qed.

Lemma pred_lt s x : s < 16 -> pred s x < 16.
Proof. intros H. states s; destruct x; vm_compute; lia. Qed.

Lemma next_pred s x : s < 16 -> next (pred s x) (Nat.testbit s 3) = s.
Proof. intros H. states s; by destruct x. Qed.

Lemma pred_next s b :
  s < 16 -> pred (next s b) (Nat.testbit s 0) = s /\ Nat.testbit (next s b) 3 = b.
Proof. intros H. states s; by destruct b. Qed.

Lemma out_pred p s x :
  good_poly p -> s < 16 ->
  gen_out p (reg_of (pred s x)) (Nat.testbit s 3) = xorb (encoder_output p s) x.
Proof.
  intros (a & b & c & ->) H. states s; by destruct a, b, c, x.
Qed.

Lemma correlate_app s1 s2 b1 b2 :
  length s1 = length b1 ->
  correlate (s1 ++ s2) (b1 ++ b2) = (correlate s1 b1 + correlate s2 b2)%Z.
Proof.
  revert b1; induction s1 as [|r s1 IH]; intros [|b b1] H; simpl in *; try lia.
  rewrite IH by lia. lia.
Qed.

Lemma correlate_xor c bits x :
  correlate c ((fun b => xorb b x) <$> bits)
  = (if x then - correlate c bits else correlate c bits)%Z.
Proof.
  revert bits; induction c as [|r c IH]; intros [|b bits]; simpl; try (by destruct x).
  rewrite IH. destruct x, b; simpl; lia.
Qed.

Lemma correlate_bound c bits B :
  (0 <= B)%Z -> Forall (fun r => Z.abs r <= B)%Z c ->
  (Z.abs (correlate c bits) <= Z.of_nat (length c) * B)%Z.
Proof.
  intros HB H. revert bits; induction H as [|r c Hr _ IH]; intros [|b bits]; simpl; try lia.
  specialize (IH bits). destruct b; simpl; nia.
Qed.

(** ** Branch metrics do not overflow *)

Section branch.
Context (B : Z) (HB : (0 <= B <= 127)%Z).

Lemma branch_fold c : forall polys bm s m A,
  Forall (fun r => Z.abs r <= B)%Z c -> length c = length polys ->
  s < NUM_STATES -> bm !! s = Some m -> (Z.abs m <= A)%Z ->
  (A + Z.of_nat (length c) * B <= 32767)%Z ->
  foldl (fun bm re => zip_with (fun m e => i16 (m - i8 (re.1 * e))) bm re.2) bm
    (zip c (new_with_polynomials polys)) !! s
  = Some (m - correlate c ((fun p => encoder_output p s) <$> polys))%Z.
Proof.
  induction c as [|r c IH]; intros [|p polys] bm s m A Hc Hl Hs Hm HA Hov; simpl in Hl; try lia.
  - simpl. rewrite Hm. f_equal. lia.
  - inversion Hc as [|? ? Hr Hc']; subst. cbn [new_with_polynomials fmap list_fmap zip zip_with foldl].
    cbn [length] in Hov.
    set (e := pm (encoder_output p s)).
    assert (He : Z.abs e = 1%Z) by (unfold e; by destruct (encoder_output p s)).
    assert (Hre : (Z.abs (r * e) <= B)%Z) by nia.
    rewrite (IH polys _ s (m - r * e)%Z (A + B)%Z); try done; try lia.
    + f_equal. simpl. fold e. lia.
    + rewrite lookup_zip_with, Hm. cbn [mbind option_bind fst snd].
      rewrite list_lookup_fmap, lookup_seq_lt by done. simpl.
      replace (if encoder_output p s then 1%Z else (-1)%Z) with e by done.
      rewrite i8_small by lia. rewrite i16_small by lia. done.
Qed.

Lemma branch_metrics_spec c polys s :
  Forall (fun r => Z.abs r <= B)%Z c -> length c = length polys ->
  s < NUM_STATES -> (Z.of_nat (length c) * B <= 32767)%Z ->
  branch_metrics (new_with_polynomials polys) c !! s
  = Some (- correlate c ((fun p => encoder_output p s) <$> polys))%Z.
Proof.
  intros Hc Hl Hs Hov. unfold branch_metrics.
  rewrite (branch_fold c polys _ s 0%Z 0%Z) by (done || lia || by apply lookup_replicate_2).
  done.
Qed.
End branch.

(** ** Add-compare-select *)

Section select.
Context (metrics bm : list Metric).

Let metric_0 s := i16 (metrics !!! ((s * 2) mod NUM_STATES) + bm !!! s).
Let metric_1 s := i16 (metrics !!! ((s * 2) mod NUM_STATES + 1) - bm !!! s).

Lemma acs_fold n :
  let '(new, dec) := foldl (acs metrics bm) ([], 0%Z) (seq 0 n) in
  length new = n /\ (0 <= dec)%Z /\
  (forall s, s < n -> new !! s = Some (if (metric_1 s <? metric_0 s)%Z
                                       then metric_1 s else metric_0 s)) /\
  (forall s, Z.testbit dec (Z.of_nat s) = (s <? n) && (metric_1 s <? metric_0 s)%Z).
Proof.
  induction n as [|n IH].
  { simpl. split_and!; [done|lia|lia|]. intros s. by rewrite Z.testbit_0_l. }
  rewrite seq_S, foldl_app. simpl Nat.add. cbn [foldl].
  destruct (foldl (acs metrics bm) ([], 0%Z) (seq 0 n)) as [new dec].
  destruct IH as (Hl & Hd & Hm & Ht). unfold acs.
  fold (metric_0 n) (metric_1 n). destruct (metric_1 n <? metric_0 n)%Z eqn:E.
  all: split_and!; [rewrite length_app; simpl; lia| | |].
  all: try (intros s Hs; destruct (decide (s = n)) as [->|];
    [rewrite lookup_app_r, Hl, Nat.sub_diag by lia; simpl; by rewrite E
    |rewrite lookup_app_l by lia; apply Hm; lia]).
  - apply Z.lor_nonneg. split; [done|]. apply Z.shiftl_nonneg. lia.
  - intros s. rewrite Z.lor_spec, Ht. destruct (decide (s = n)) as [->|].
    + rewrite E, Z.shiftl_1_l, Z.pow2_bits_true by lia.
      by rewrite (proj2 (Nat.ltb_lt n (S n))), orb_true_r by lia.
    + rewrite Z.shiftl_1_l, Z.pow2_bits_false, orb_false_r by lia.
      f_equal. apply eq_bool_prop_intro. rewrite !Is_true_true, !Nat.ltb_lt. lia.
  - done.
  - intros s. rewrite Ht. destruct (decide (s = n)) as [->|].
    + by rewrite E, !andb_false_r.
    + f_equal. apply eq_bool_prop_intro. rewrite !Is_true_true, !Nat.ltb_lt. lia.
Qed.
End select.

(** ** The survivor invariant *)

Definition init (s : nat) : Z := if s =? 0 then 0%Z else METRIC_MAX_2.

(** The path selected by the decision words [ds], newest first, and its origin. *)
Fixpoint survivor (ds : list Z) (s : nat) : list bool * nat :=
  match ds with
  | [] => ([], s)
  | d :: ds' =>
      let '(path, s0) := survivor ds' (pred s (Z.testbit d (Z.of_nat s))) in
      (path ++ [Nat.testbit s 3], s0)
  end.

Lemma traceback_survivor ds : forall s acc,
  s < 16 -> Forall (fun d => 0 <= d)%Z ds ->
  foldl traceback_step (acc, s) ds
  = (acc ++ (b2z <$> rev (survivor ds s).1), (survivor ds s).2).
Proof.
  induction ds as [|d ds IH]; intros s acc Hs Hd; cbn [foldl survivor].
  { by rewrite app_nil_r. }
  inversion Hd as [|? ? Hd0 Hd']; subst. unfold traceback_step at 2.
  replace ((s * 2) mod NUM_STATES + Z.to_nat (Z.land (Z.shiftr d (Z.of_nat s)) 1))
    with (pred s (Z.testbit d (Z.of_nat s))).
  2:{ unfold pred. f_equal. change 1%Z with (Z.ones 1). rewrite Z.land_ones by lia.
      change (2 ^ 1)%Z with 2%Z. rewrite <- Z.bit0_mod, Z.shiftr_spec by lia.
      rewrite Z.add_0_l. by destruct (Z.testbit d (Z.of_nat s)). }
  rewrite IH by (by apply pred_lt || done).
  destruct (survivor ds (pred s (Z.testbit d (Z.of_nat s)))) as [path s0]. cbn [fst snd].
  rewrite rev_app_distr. simpl. rewrite <- app_assoc. repeat f_equal. simpl. f_equal.
  clear -Hs. states s; done.
Qed.

Lemma run_lt s path : s < 16 -> run s path < 16.
Proof. revert s; induction path; intros s H; simpl; [done|]. by apply IHpath, next_lt. Qed.

Lemma gain_snoc polys path b c chunks : forall s,
  length path = length chunks ->
  gain polys s (path ++ [b]) (chunks ++ [c])
  = (gain polys s path chunks + correlate c (trans polys (run s path) b))%Z.
Proof.
  revert chunks. induction path as [|x path IH]; intros [|ch chunks] s H; simpl in *; try lia.
  rewrite IH by lia. simpl. lia.
Qed.

Section invariant.
Context (polys : list (list bool)) (B : Z).
Context (Hpolys : Forall good_poly polys) (HB : (0 <= B <= 127)%Z).

Let N := length polys.
Definition bounded_chunk (c : list Z) : Prop :=
  length c = N /\ Forall (fun r => Z.abs r <= B)%Z c.

(** Path [path] from [s0] explains metric [m] of state [s], and nothing beats it. *)
Record best (chunks : list (list Z)) (s : nat) (m : Z) (path : list bool) (s0 : nat) : Prop := {
  best_origin : s0 < 16;
  best_length : length path = length chunks;
  best_run : run s0 path = s;
  best_metric : m = (init s0 - gain polys s0 path chunks)%Z;
  best_least : forall s0' path', s0' < 16 -> length path' = length chunks ->
    run s0' path' = s -> (m <= init s0' - gain polys s0' path' chunks)%Z
}.

Definition inv (chunks : list (list Z)) (metrics : list Z) (ds : list Z) : Prop :=
  length metrics = 16 /\ Forall (fun d => 0 <= d)%Z ds /\
  forall s, s < 16 ->
    best chunks s (metrics !!! s) (survivor ds s).1 (survivor ds s).2.

Lemma gain_bound chunks : forall s path,
  Forall bounded_chunk chunks ->
  (Z.abs (gain polys s path chunks) <= Z.of_nat (length chunks) * (Z.of_nat N * B))%Z.
Proof.
  induction chunks as [|c chunks IH]; intros s [|b path] H; simpl; try lia.
  inversion H as [|? ? [Hl Hb] Hcs]; subst. specialize (IH (next s b) path Hcs).
  pose proof (correlate_bound c (trans polys s b) B ltac:(lia) Hb) as Hc.
  rewrite Hl in Hc. nia.
Qed.

Lemma init_bound s : (0 <= init s <= 16383)%Z.
Proof. unfold init, METRIC_MAX_2. destruct (s =? 0); divlia. Qed.

Lemma best_bound chunks s m path s0 :
  Forall bounded_chunk chunks -> best chunks s m path s0 ->
  (Z.abs m <= 16383 + Z.of_nat (length chunks) * (Z.of_nat N * B))%Z.
Proof.
  intros Hc [_ _ _ -> _]. pose proof (gain_bound chunks s0 path Hc).
  pose proof (init_bound s0). lia.
Qed.

Lemma correlate_pred c s x :
  s < 16 ->
  correlate c (trans polys (pred s x) (Nat.testbit s 3))
  = let v := correlate c ((fun p => encoder_output p s) <$> polys) in
    (if x then - v else v)%Z.
Proof.
  intros Hs. simpl. rewrite <- correlate_xor. f_equal. rewrite <- list_fmap_compose.
  apply list_fmap_ext. intros i p Hp. unfold compose. apply out_pred; [|done].
  rewrite Forall_forall in Hpolys. apply Hpolys. by apply list_elem_of_lookup_2 in Hp.
Qed.

(** The candidate metric of state [s] through its predecessor [x]. *)
Let cand (metrics : list Z) (c : list Z) (s : nat) (x : bool) : Z :=
  (metrics !!! pred s x - correlate c (trans polys (pred s x) (Nat.testbit s 3)))%Z.

Lemma trellis_step_spec metrics trellis c M :
  bounded_chunk c -> (forall s, s < 16 -> (Z.abs (metrics !!! s) <= M)%Z) ->
  (M + Z.of_nat N * B <= 32767)%Z ->
  exists metrics' d,
    trellis_step (new_with_polynomials polys) (metrics, trellis) c
    = (metrics', trellis ++ [d]) /\ length metrics' = 16 /\ (0 <= d)%Z /\
    forall s, s < 16 ->
      Z.testbit d (Z.of_nat s) = (cand metrics c s true <? cand metrics c s false)%Z /\
      metrics' !!! s = cand metrics c s (Z.testbit d (Z.of_nat s)).
Proof.
  intros [Hl Hc] HM Hov. assert (0 <= M)%Z by (specialize (HM 0); lia).
  unfold trellis_step.
  pose proof (acs_fold metrics (branch_metrics (new_with_polynomials polys) c) NUM_STATES) as Ha.
  destruct (foldl _ ([], 0%Z) _) as [new d]. destruct Ha as (Hlen & Hd & Hm & Ht).
  exists new, d. split_and!; [done..|]. intros s Hs.
  set (v := correlate c ((fun p => encoder_output p s) <$> polys)).
  assert (Hv : (Z.abs v <= Z.of_nat N * B)%Z).
  { rewrite <- Hl. apply correlate_bound; [lia|done]. }
  assert (Eb : branch_metrics (new_with_polynomials polys) c !!! s = (- v)%Z).
  { apply list_lookup_total_correct. apply (branch_metrics_spec B); try done. lia. }
  assert (Ec : forall x, cand metrics c s x
               = (metrics !!! pred s x - if x then - v else v)%Z).
  { intros x. unfold cand. by rewrite correlate_pred. }
  assert (E0 : i16 (metrics !!! ((s * 2) mod NUM_STATES)
               + branch_metrics (new_with_polynomials polys) c !!! s) = cand metrics c s false).
  { rewrite Ec, Eb. replace (pred s false) with ((s * 2) mod NUM_STATES) by (unfold pred; lia).
    pose proof (HM _ (pred_lt s false Hs)) as HM0. unfold pred in HM0. rewrite Nat.add_0_r in HM0.
    rewrite i16_small; lia. }
  assert (E1 : i16 (metrics !!! ((s * 2) mod NUM_STATES + 1)
               - branch_metrics (new_with_polynomials polys) c !!! s) = cand metrics c s true).
  { rewrite Ec, Eb. fold (pred s true). pose proof (HM _ (pred_lt s true Hs)).
    change ((s * 2) mod NUM_STATES + 1) with (pred s true). rewrite i16_small; lia. }
  rewrite Ht. specialize (Hm s Hs). apply list_lookup_total_correct in Hm.
  rewrite Hm, E0, E1. rewrite (proj2 (Nat.ltb_lt s NUM_STATES)) by done.
  rewrite !andb_true_l. split; [done|].
  by destruct (cand metrics c s true <? cand metrics c s false)%Z.
Qed.

(** The winner among the two extended survivors is the best path. *)
Lemma best_extend chunks c metrics s x (path : bool -> list bool) (s0 : bool -> nat) :
  s < 16 ->
  (forall y, best chunks (pred s y) (metrics !!! pred s y) (path y) (s0 y)) ->
  (forall y, cand metrics c s x <= cand metrics c s y)%Z ->
  best (chunks ++ [c]) s (cand metrics c s x) (path x ++ [Nat.testbit s 3]) (s0 x).
Proof.
  intros Hs Hb Hx. destruct (Hb x) as [Ho Hlen Hrun Hm _]. split.
  - done.
  - rewrite !length_app. simpl. lia.
  - unfold run in *. rewrite foldl_app. simpl. by rewrite Hrun, next_pred.
  - rewrite gain_snoc by done. unfold cand. rewrite Hrun. lia.
  - intros s0' path' Ho' Hl' Hr'.
    destruct path' as [|b path' _] using rev_ind.
    { rewrite length_app in Hl'. simpl in Hl'. lia. }
    rewrite !length_app in Hl'. simpl in Hl'. rewrite gain_snoc by lia.
    unfold run in Hr'. rewrite foldl_app in Hr'. simpl in Hr'. fold (run s0' path') in Hr'.
    destruct (pred_next (run s0' path') b) as [Hp Hb3]; [by apply run_lt|].
    rewrite Hr' in Hp, Hb3. set (y := Nat.testbit (run s0' path') 0) in Hp.
    destruct (Hb y) as [_ _ _ _ Hleast]. specialize (Hleast s0' path' Ho' ltac:(lia) (eq_sym Hp)).
    specialize (Hx y). unfold cand at 2 in Hx. rewrite Hb3, Hp in Hx. rewrite Hp in Hleast. lia.
Qed.

Lemma inv_step chunks c metrics trellis :
  Forall bounded_chunk chunks -> bounded_chunk c ->
  (Z.of_nat (S (length chunks)) * (Z.of_nat N * B) <= 8191)%Z ->
  inv chunks metrics (rev trellis) ->
  exists metrics' trellis',
    trellis_step (new_with_polynomials polys) (metrics, trellis) c = (metrics', trellis') /\
    inv (chunks ++ [c]) metrics' (rev trellis').
Proof.
  intros Hcs Hc Hov (Hlen & Hds & Hbest).
  destruct (trellis_step_spec metrics trellis c
              (16383 + Z.of_nat (length chunks) * (Z.of_nat N * B))) as (m' & d & E & Hl' & Hd & Hs').
  - done.
  - intros s Hs. eapply best_bound; [done|]. by apply Hbest.
  - lia.
  - exists m', (trellis ++ [d]). split; [done|]. rewrite rev_app_distr. simpl.
    split; [done|]. split; [by constructor|]. intros s Hs. destruct (Hs' s Hs) as [Hsel Hm].
    rewrite Hm. cbn [app survivor]. set (x := Z.testbit d (Z.of_nat s)) in *.
    pose proof (best_extend chunks c metrics s x
      (fun y => (survivor (rev trellis) (pred s y)).1)
      (fun y => (survivor (rev trellis) (pred s y)).2) Hs) as Hext.
    cbn beta in Hext. destruct (survivor (rev trellis) (pred s x)) as [path s0].
    cbn [fst snd] in *. apply Hext.
    + intros y. apply Hbest. by apply pred_lt.
    + intros y. symmetry in Hsel.
      destruct x; [apply Z.ltb_lt in Hsel|apply Z.ltb_ge in Hsel]; destruct y; lia.
Qed.
End invariant.

Lemma inv_run polys B chunks :
  Forall good_poly polys -> (0 <= B <= 127)%Z -> Forall (bounded_chunk polys B) chunks ->
  (Z.of_nat (length chunks) * (Z.of_nat (length polys) * B) <= 8191)%Z ->
  exists metrics trellis,
    foldl (trellis_step (new_with_polynomials polys)) (initial_metrics, []) chunks
    = (metrics, trellis) /\ inv polys chunks metrics (rev trellis).
Proof.
  intros Hp HB. induction chunks as [|c chunks IH] using rev_ind; intros Hc Hov.
  - exists initial_metrics, []. split; [done|]. split; [done|]. split; [done|].
    intros s Hs. split; [done..| |].
    + simpl. clear -Hs. states s; done.
    + intros s0 path _ Hl Hr. destruct path; [|done]. simpl in *. subst s0.
      clear -Hs. states s; vm_compute; lia || done.
  - rewrite Forall_app in Hc. destruct Hc as [Hcs Hc]. inversion Hc; subst.
    rewrite length_app in Hov. simpl in Hov.
    destruct IH as (m & t & E & Hinv); [done|nia|].
    rewrite foldl_app, E. cbn [foldl]. apply (inv_step polys B); try done. lia.
Qed.

(** ** Paths and encoder outputs *)

Lemma reg_of_run s path : s < 16 -> reg_of (run s path) = reg_after (reg_of s) path.
Proof.
  revert s; induction path as [|b path IH]; intros s Hs; [done|].
  cbn [run foldl reg_after]. rewrite <- reg_of_next by done. by apply IH, next_lt.
Qed.

Lemma reg_of_zero s : s < 16 -> reg_of s = zeros4 -> s = 0.
Proof. intros H. states s; done. Qed.

Lemma run_zero path : run 0 path = 0 <-> reg_after zeros4 path = zeros4.
Proof.
  change zeros4 with (reg_of 0). rewrite <- reg_of_run by lia. split; [by intros ->|].
  apply reg_of_zero, run_lt. lia.
Qed.

Lemma gain_conv polys chunks : forall s path,
  s < 16 -> length path = length chunks -> Forall (fun c => length c = length polys) chunks ->
  gain polys s path chunks = correlate (concat chunks) (concat (conv polys (reg_of s) path)).
Proof.
  induction chunks as [|c chunks IH]; intros s [|b path] Hs Hl Hc; simpl in Hl; try lia.
  { done. }
  inversion Hc; subst. cbn [gain concat conv]. rewrite correlate_app by (by rewrite length_fmap).
  rewrite IH by (by apply next_lt || lia || done). by rewrite reg_of_next.
Qed.

Lemma bounded_chunks polys B chunks :
  Forall (fun c => length c = length polys) chunks ->
  Forall (fun r => Z.abs r <= B)%Z (concat chunks) -> Forall (bounded_chunk polys B) chunks.
Proof.
  induction chunks as [|c chunks IH]; intros Hl Hb; [done|]. inversion Hl; subst.
  simpl in Hb. apply Forall_app in Hb as [? ?]. constructor; [done|auto].
Qed.

(** The decoder on chunks: a best path from state 0 to state 0. *)
Lemma decode_best polys B chunks :
  Forall good_poly polys -> 0 < length polys -> (0 <= B <= 127)%Z ->
  Forall (bounded_chunk polys B) chunks ->
  (Z.of_nat (length chunks) * (Z.of_nat (length polys) * B) <= 8191)%Z ->
  exists d, decode (new_with_polynomials polys) (concat chunks) = b2z <$> d /\
    length d = length chunks /\ run 0 d = 0 /\
    forall m, length m = length chunks -> run 0 m = 0 ->
      (gain polys 0 m chunks <= gain polys 0 d chunks)%Z.
Proof.
  intros Hp HN HB Hc Hov.
  destruct (inv_run polys B chunks Hp HB Hc Hov) as (m & t & E & (_ & Hds & Hbest)).
  specialize (Hbest 0 ltac:(lia)).
  exists (survivor (rev t) 0).1. unfold decode.
  assert (length (new_with_polynomials polys) = length polys) as -> by apply length_fmap.
  rewrite chunks_exact_concat, E.
  2: done.
  2: eapply Forall_impl; [exact Hc|]; intros c [Hl _]; exact Hl.
  rewrite traceback_survivor by (done || lia). simpl. rewrite <- fmap_rev, rev_involutive.
  destruct (survivor (rev t) 0) as [d s0]. destruct Hbest as [Ho Hl Hr Hm Hleast]. simpl in *.
  assert (s0 = 0) as ->.
  { destruct (decide (s0 = 0)) as [|Hs0]; [done|exfalso].
    assert (run 0 (replicate (length chunks) false) = 0) as Hz.
    { generalize (length chunks). intros n. induction n; [done|]. simpl. exact IHn. }
    specialize (Hleast 0 _ ltac:(lia) (length_replicate _ _) Hz).
    pose proof (gain_bound polys B HB chunks 0 (replicate (length chunks) false) Hc).
    pose proof (gain_bound polys B HB chunks s0 d Hc).
    unfold init in *. rewrite Nat.eqb_refl in Hleast. apply Nat.eqb_neq in Hs0.
    rewrite Hs0 in Hm. change METRIC_MAX_2 with 16383%Z in *. lia. }
  split_and!; [done..|]. intros m' Hl' Hr'. specialize (Hleast 0 m' Ho Hl' Hr').
  unfold init in *. rewrite Nat.eqb_refl in *. lia.
Qed.

(** ** Noise-free reception *)

(** What is received agrees with [bit] or is an erasure. *)
Definition agrees (r : Z) (bit : bool) : Prop := r = 0%Z \/ r = pm bit.

(** Every chunk agrees with the encoder output, and its first bit is present. *)
Definition clean (chunks : list (list Z)) (outs : list (list bool)) : Prop :=
  Forall2 (fun c o => Forall2 agrees c o /\ exists b, o !! 0 = Some b /\ c !! 0 = Some (pm b))
    chunks outs.

Fixpoint weight (c : list Z) : Z :=
  match c with [] => 0%Z | r :: c' => (Z.abs r + weight c')%Z end.

Lemma correlate_agrees c o : Forall2 agrees c o -> correlate c o = weight c.
Proof.
  induction 1 as [|r b c o H _ IH]; [done|]. cbn [correlate weight]. rewrite IH.
  destruct H as [-> | ->], b; simpl; lia.
Qed.

Lemma correlate_le_weight c o : (correlate c o <= weight c)%Z.
Proof.
  revert o; induction c as [|r c IH]; intros [|b o]; simpl; try lia.
  - clear. assert (0 <= weight c)%Z by (induction c; simpl; lia). lia.
  - specialize (IH o). destruct b; simpl; lia.
Qed.

Lemma gain_le_weight polys chunks : forall s path,
  (gain polys s path chunks <= weight (concat chunks))%Z.
Proof.
  assert (Happ : forall a b, weight (a ++ b) = (weight a + weight b)%Z).
  { induction a; intros b; cbn [app weight]; [lia|rewrite IHa; lia]. }
  assert (Hpos : forall a, (0 <= weight a)%Z) by (induction a; simpl; lia).
  induction chunks as [|c chunks IH]; intros s [|b path]; simpl; try lia; try apply Hpos.
  rewrite Happ. pose proof (correlate_le_weight c (trans polys s b)).
  specialize (IH (next s b) path). lia.
Qed.

Lemma weight_app a b : weight (a ++ b) = (weight a + weight b)%Z.
Proof. induction a; cbn [app weight]; [lia|rewrite IHa; lia]. Qed.

(** A path that collects the whole weight of a clean chunk sends its first bit. *)
Lemma correlate_max_head c o o' b b' :
  Forall2 agrees c o -> c !! 0 = Some (pm b) -> o' !! 0 = Some b' ->
  correlate c o' = weight c -> b' = b.
Proof.
  intros Ha Hc Ho E. destruct c as [|r c]; [done|]. destruct o' as [|x o']; [done|].
  simpl in Hc, Ho. injection Hc as ->. injection Ho as ->. cbn [correlate weight] in E.
  pose proof (correlate_le_weight c o'). destruct b, b'; simpl in *; lia.
Qed.

Lemma gen_out_inj p reg b b' :
  good_poly p -> gen_out p reg b' = gen_out p reg b -> b' = b.
Proof.
  intros (x & y & z & ->).
  assert (E : forall b, gen_out [true; x; y; z; true] reg b
              = xorb b (foldr xorb false (zip_with andb [x; y; z; true] reg))) by done.
  rewrite !E. by destruct (foldr _ _ _), b, b'.
Qed.

Lemma clean_unique polys chunks : forall s m d,
  Forall good_poly polys -> 0 < length polys ->
  clean chunks (conv polys (reg_of s) m) -> length d = length m -> s < 16 ->
  gain polys s d chunks = weight (concat chunks) -> d = m.
Proof.
  induction chunks as [|c chunks IH]; intros s [|b m] [|b' d] Hp HN Hc Hl Hs Hg;
    simpl in Hl; try lia; try done; inversion Hc as [|? ? ? ? [Ha (x & Hx & Hx')] Hc']; subst.
  cbn [gain concat] in Hg. rewrite weight_app in Hg.
  pose proof (correlate_le_weight c (trans polys s b')).
  pose proof (gain_le_weight polys chunks (next s b') d).
  destruct polys as [|p polys]; [simpl in HN; lia|]. inversion Hp; subst.
  assert (b' = b) as ->.
  { simpl in Hx. injection Hx as <-. apply (gen_out_inj p (reg_of s)); [done|].
    apply (correlate_max_head c _ (trans (p :: polys) s b') _ _ Ha Hx'); [done|lia]. }
  f_equal. apply (IH (next s b)); try done; try lia.
  - by rewrite reg_of_next.
  - by apply next_lt.
Qed.

Lemma clean_gain polys chunks : forall s m,
  s < 16 -> clean chunks (conv polys (reg_of s) m) ->
  gain polys s m chunks = weight (concat chunks).
Proof.
  induction chunks as [|c chunks IH]; intros s [|b m] Hs Hc; try done;
    inversion Hc as [|? ? ? ? [Ha _] Hc']; subst.
  cbn [gain concat]. rewrite weight_app. rewrite <- reg_of_next in Hc' by done.
  rewrite (IH _ _ (next_lt s b Hs) Hc'). f_equal. by apply correlate_agrees.
Qed.

Lemma clean_bounded polys chunks m :
  clean chunks (conv polys zeros4 m) -> Forall (bounded_chunk polys 1) chunks.
Proof.
  unfold clean. generalize zeros4. revert chunks.
  induction m as [|b m IH]; intros chunks reg H; inversion H as [|c ? ? ? [Ha _] Hc']; subst;
    [done|]. constructor; [|by eapply IH]. split.
  - apply Forall2_length in Ha. by rewrite Ha, length_fmap.
  - clear -Ha. induction Ha as [|r x ? ? [-> | ->] ? IH]; constructor; try done; try lia.
    destruct x; simpl; lia.
Qed.

(** The message comes back whenever every received symbol is right or erased and
    one bit per symbol survives. *)
Lemma decode_clean polys chunks m :
  Forall good_poly polys -> 0 < length polys -> reg_after zeros4 m = zeros4 ->
  clean chunks (conv polys zeros4 m) -> (Z.of_nat (length m) * Z.of_nat (length polys) <= 8191)%Z ->
  decode (new_with_polynomials polys) (concat chunks) = b2z <$> m.
Proof.
  intros Hp HN Hz Hc Hov. pose proof (Forall2_length _ _ _ Hc) as Hl. rewrite length_conv in Hl.
  destruct (decode_best polys 1 chunks) as (d & E & Hd & _ & Hbest); try done; try lia.
  { by eapply clean_bounded. }
  rewrite E. f_equal.
  apply (clean_unique polys chunks 0); try done; try lia.
  apply Z.le_antisymm; [apply gain_le_weight|].
  rewrite <- (clean_gain polys chunks 0 m) by (done || lia).
  apply Hbest; [lia|]. by apply run_zero.
Qed.

(** Clean reception, stated on positions of the flat block. *)
Lemma clean_flat polys m : forall reg soft,
  0 < length polys -> length soft = length m * length polys ->
  (forall q b, concat (conv polys reg m) !! q = Some b ->
     exists r, soft !! q = Some r /\ agrees r b) ->
  (forall i b, concat (conv polys reg m) !! (i * length polys) = Some b ->
     soft !! (i * length polys) = Some (pm b)) ->
  exists chunks, soft = concat chunks /\ clean chunks (conv polys reg m).
Proof.
  induction m as [|x m IH]; intros reg soft HN Hl Ha Hf.
  { exists []. destruct soft; [|done]. split; [done|constructor]. }
  cbn [length conv concat] in *. set (o := (fun p => gen_out p reg x) <$> polys) in *.
  assert (Ho : length o = length polys) by apply length_fmap.
  destruct (split_length soft (length polys)) as (c & soft' & -> & Hc); [lia|].
  rewrite length_app in Hl.
  destruct (IH (reg_next reg x) soft') as (chunks & -> & Hcl); [done|lia| | |].
  - intros q b Hq. destruct (Ha (length o + q) b) as (r & Hr & Hrb).
    { rewrite lookup_app_r by lia. by replace (length o + q - length o) with q by lia. }
    exists r. split; [|done]. rewrite lookup_app_r in Hr by lia.
    by replace (length o + q - length c) with q in Hr by lia.
  - intros i b Hi. specialize (Hf (S i) b). rewrite !lookup_app_r in Hf by lia.
    replace (S i * length polys - length o) with (i * length polys) in Hf by lia.
    replace (S i * length polys - length c) with (i * length polys) in Hf by lia. auto.
  - exists (c :: chunks). split; [done|]. constructor; [split|done].
    + apply Forall2_same_length_lookup. split; [lia|]. intros q r b Hr Hb.
      destruct (Ha q b) as (r' & Hr' & Hrb).
      { by rewrite lookup_app_l by (by eapply lookup_lt_Some). }
      rewrite lookup_app_l in Hr' by (by eapply lookup_lt_Some). congruence.
    + destruct (lookup_lt_is_Some_2 o 0) as [b Hb]; [lia|]. exists b. split; [done|].
      specialize (Hf 0 b). rewrite !lookup_app_l in Hf by lia. auto.
Qed.

Lemma soft_of_b2z b : soft_of_byte (b2z b) = pm b.
Proof. by destruct b. Qed.

(** What a receive buffer of [0], [1] and [0xff] bytes holds of a code word. *)
Definition received (code : list bool) (n : nat) (in_buf : list Z) : Prop :=
  (forall q b, code !! q = Some b -> in_buf !! q = Some (b2z b) \/ in_buf !! q = Some 255%Z) /\
  (forall i b, code !! (i * n) = Some b -> in_buf !! (i * n) = Some (b2z b)).

Lemma received_clean polys m in_buf :
  0 < length polys -> length m * length polys <= length in_buf ->
  received (concat (conv polys zeros4 m)) (length polys) in_buf ->
  exists chunks,
    soft_of_byte <$> take (length m * length polys) in_buf = concat chunks /\
    clean chunks (conv polys zeros4 m).
Proof.
  intros HN Hl [Ha Hf]. apply clean_flat; [done|rewrite length_fmap, length_take; lia| |].
  - intros q b Hq. pose proof (lookup_lt_Some _ _ _ Hq) as Hlt. rewrite length_concat_conv in Hlt.
    rewrite list_lookup_fmap, lookup_take_lt by done.
    destruct (Ha q b Hq) as [E|E]; rewrite E; simpl; eexists; (split; [done|]); [right|by left].
    apply soft_of_b2z.
  - intros i b Hi. pose proof (lookup_lt_Some _ _ _ Hi) as Hlt. rewrite length_concat_conv in Hlt.
    rewrite list_lookup_fmap, lookup_take_lt by done. rewrite (Hf i b Hi). simpl.
    by rewrite soft_of_b2z.
Qed.

Lemma cch_polys_good : Forall good_poly cch_polys.
Proof. unfold cch_polys. repeat constructor; repeat eexists. Qed.
Lemma speech_polys_good : Forall good_poly speech_polys.
Proof. unfold speech_polys. repeat constructor; repeat eexists. Qed.

Lemma dec_sb1_clean m in_buf out_buf :
  reg_after zeros4 m = zeros4 -> length m <= 864 -> length m * 4 <= length in_buf ->
  length m <= length out_buf ->
  received (concat (conv cch_polys zeros4 m)) 4 in_buf ->
  dec_sb1 in_buf out_buf (length m) = Some ((b2z <$> m) ++ drop (length m) out_buf).
Proof.
  intros Hz Hm Hl Ho Hr. unfold dec_sb1.
  btrue (length m <=? 864). btrue (length m * 4 <=? length in_buf).
  btrue (length m <=? length out_buf). simpl.
  destruct (received_clean cch_polys m in_buf) as (chunks & E & Hc); [simpl; lia|done..|].
  change (length cch_polys) with 4 in E. rewrite E.
  change TetraViterbiDecoder_new with (new_with_polynomials cch_polys).
  rewrite (decode_clean cch_polys chunks m); try done; try apply cch_polys_good; try (simpl; lia).
  rewrite slice_full by apply length_fmap. simpl.
  rewrite <- (take_drop (length m) out_buf) at 1.
  pose proof (splice_app [] (take (length m) out_buf) (drop (length m) out_buf) (b2z <$> m)) as Es.
  cbn [app length] in Es. apply Es. rewrite length_fmap, length_take. lia.
Qed.

(** A terminated message whose code word no other one's exceeds in correlation. *)
Definition most_likely (soft : list Z) (d : list bool) : Prop :=
  reg_after zeros4 d = zeros4 /\
  forall m, length m = length d -> reg_after zeros4 m = zeros4 ->
    (correlate soft (concat (conv cch_polys zeros4 m)) <= correlate soft (concat (conv cch_polys zeros4 d)))%Z.

(** Whatever is received, [dec_sb1] returns the most likely terminated message. *)
Lemma dec_sb1_total in_buf out_buf n :
  n <= 864 -> n * 4 <= length in_buf -> n <= length out_buf ->
  let soft := soft_of_byte <$> take (n * 4) in_buf in
  exists d, dec_sb1 in_buf out_buf n = Some ((b2z <$> d) ++ drop n out_buf) /\ length d = n /\
    decode TetraViterbiDecoder_new soft = b2z <$> d /\ most_likely soft d.
Proof.
  intros Hn Hi Ho soft. unfold dec_sb1.
  btrue (n <=? 864). btrue (n * 4 <=? length in_buf). btrue (n <=? length out_buf). simpl. fold soft.
  destruct (chunk_list 4 n soft) as (chunks & Es & Hl & Hc).
  { unfold soft. rewrite length_fmap, length_take. lia. }
  assert (Hb : Forall (fun r => Z.abs r <= 1)%Z soft).
  { unfold soft. apply Forall_fmap, Forall_true. intros b. unfold soft_of_byte, compose.
    destruct (b =? 0)%Z, (b =? 1)%Z; simpl; lia. }
  change TetraViterbiDecoder_new with (new_with_polynomials cch_polys). rewrite Es in Hb |- *.
  destruct (decode_best cch_polys 1 chunks) as (d & E & Hd & Hz & Hbest).
  - apply cch_polys_good.
  - simpl. lia.
  - lia.
  - by apply bounded_chunks.
  - simpl. lia.
  - exists d. rewrite E, slice_full by (rewrite length_fmap; lia). step.
    split_and!; [|lia|done|split; [by apply run_zero|]].
    2: { intros m Hm Hzm. change zeros4 with (reg_of 0). rewrite <- !gain_conv by (done || lia).
         apply Hbest; [lia|by apply run_zero]. }
    rewrite <- (take_drop n out_buf) at 1.
    pose proof (splice_app [] (take n out_buf) (drop n out_buf) (b2z <$> d)) as Esp.
    cbn [app length] in Esp. apply Esp. rewrite length_fmap, length_take. lia.
Qed.

(** ** Theorems *)

(** C14 (maximum likelihood).  For any generators with newest and oldest tap set,
    and soft bits small enough for the [i16] metrics, the decoder returns a
    terminated message whose code word correlates with the received soft bits at
    least as well as the code word of every other terminated message. *)
Theorem decode_maximum_likelihood polys soft n B :
  Forall good_poly polys -> 0 < length polys -> length soft = n * length polys ->
  (0 <= B <= 127)%Z -> Forall (fun r => Z.abs r <= B)%Z soft ->
  (Z.of_nat n * (Z.of_nat (length polys) * B) <= 8191)%Z ->
  exists d, decode (new_with_polynomials polys) soft = b2z <$> d /\
    length d = n /\ reg_after zeros4 d = zeros4 /\
    forall m, length m = n -> reg_after zeros4 m = zeros4 ->
      (correlate soft (concat (conv polys zeros4 m))
       <= correlate soft (concat (conv polys zeros4 d)))%Z.
Proof.
  intros Hp HN Hl HB Hb Hov.
  destruct (chunk_list (length polys) n soft Hl) as (chunks & -> & <- & Hc).
  destruct (decode_best polys B chunks) as (d & E & Hd & Hz & Hbest); try done.
  { by apply bounded_chunks. }
  exists d. split_and!; try done; [by apply run_zero|].
  intros m Hm Hzm. change zeros4 with (reg_of 0). rewrite <- !gain_conv by (done || lia).
  apply Hbest; [done|by apply run_zero].
Qed.

(** Five symbols of the signalling code, one of them received inverted. *)
Lemma decode_maximum_likelihood_witness :
  exists d, decode (new_with_polynomials cch_polys)
    [1; 1; 1; 1;  1; -1; 1; 1;  -1; 1; 1; -1;  -1; 1; -1; 1;  1; -1; 1; 1]%Z = b2z <$> d /\
    length d = 5 /\ reg_after zeros4 d = zeros4 /\
    forall m, length m = 5 -> reg_after zeros4 m = zeros4 ->
      (correlate [1; 1; 1; 1;  1; -1; 1; 1;  -1; 1; 1; -1;  -1; 1; -1; 1;  1; -1; 1; 1]
         (concat (conv cch_polys zeros4 m))
       <= correlate [1; 1; 1; 1;  1; -1; 1; 1;  -1; 1; 1; -1;  -1; 1; -1; 1;  1; -1; 1; 1]
         (concat (conv cch_polys zeros4 d)))%Z.
Proof.
  apply (decode_maximum_likelihood cch_polys _ 5 1).
  - apply cch_polys_good.
  - simpl. lia.
  - reflexivity.
  - lia.
  - repeat constructor; simpl; lia.
  - simpl. lia.
Defined.
