(* ===== verification/Crc.v ===== *)
(** * Cyclic redundancy checks
      (crates/tetra-entities/src/lmac/components/crc16.rs)

    A generic bitwise CRC of any width, its linearity, residue and burst-error
    detection, and the CRC-16 of the control channels as an instance.  The LLC
    frame check sequence (file Fcs) is the 32-bit instance. *)

From Stdlib Require Import ZArith Lia ZifyNat Btauto.
From S2P Require Import Prelude.

(** ** crc16.rs *)

Definition GEN_POLY : Z := 0x1021.
Definition TETRA_CRC_OK : Z := 0x1d0f.

Definition get_nth_bit (input : list Z) (bit : nat) : option Z :=
  let byte := bit / 8 in
  let bit_in_byte := 7 - bit mod 8 in
  x ← input !! byte;
  Some (Z.land (Z.shiftr x (Z.of_nat bit_in_byte)) 1).

(** The loop body shared by the two CRC functions. *)
Definition crc16_step (crc bit : Z) : Z :=
  let crc := Z.lxor crc (u16 (Z.shiftl bit 15)) in
  if negb (Z.land crc 0x8000 =? 0)%Z
  then Z.lxor (u16 (u16 (Z.shiftl crc 1) + 0)) GEN_POLY
  else u16 (Z.shiftl crc 1).

Definition crc16_itut_bytes (crc : Z) (input : list Z) (number_bits : nat) : option Z :=
  foldM (fun crc i => bit ← get_nth_bit input i; Some (crc16_step crc bit))
    (seq 0 number_bits) crc.

Definition crc16_itut_bits (crc : Z) (input : list Z) (number_bits : nat) : Z :=
  foldl (fun crc b => crc16_step crc (Z.land b 1)) crc (take number_bits input).

Definition crc16_ccitt_bits (input : list Z) (len : nat) : Z :=
  crc16_itut_bits 0xffff input len.

(** ** A CRC register of width [n] with feedback polynomial [poly] *)

Section generic.
Context (w : nat) (poly : Z).
Let n := Z.of_nat w.
Context (Hn : (0 < n)%Z) (Hpoly : (0 <= poly < 2 ^ n)%Z) (Hodd : Z.testbit poly 0 = true).

Definition shift_out (crc : Z) : Z := Z.land (Z.shiftl crc 1) (Z.ones n).
Definition crc_step (crc : Z) (b : bool) : Z :=
  Z.lxor (shift_out crc) (if xorb (Z.testbit crc (n - 1)) b then poly else 0%Z).
Definition crc (init : Z) (bits : list bool) : Z := foldl crc_step init bits.

Definition reg (x : Z) : Prop := (0 <= x < 2 ^ n)%Z.

Lemma testbit_shift_out x i :
  (0 <= i)%Z -> Z.testbit (shift_out x) i = ((0 <? i)%Z && (i <? n)%Z) && Z.testbit x (i - 1).
Proof using Hn. clear Hpoly Hodd.
  intros Hi. unfold shift_out. rewrite Z.land_spec, Z.shiftl_spec by done.
  destruct (Z.ltb_spec i n).
  - rewrite Z.ones_spec_low by lia. destruct (Z.ltb_spec 0 i).
    + by rewrite andb_true_r.
    + replace (i - 1)%Z with (-1)%Z by lia. by rewrite Z.testbit_neg_r by lia.
  - rewrite Z.ones_spec_high by lia. by rewrite !andb_false_r.
Qed.

Lemma reg_land x : (0 <= x)%Z -> reg (Z.land x (Z.ones n)).
Proof using Hn. clear Hpoly Hodd. intros H. unfold reg. rewrite Z.land_ones by lia. apply Z.mod_pos_bound. lia. Qed.

Lemma reg_lxor x y : reg x -> reg y -> reg (Z.lxor x y).
Proof using Hn. clear Hpoly Hodd.
  intros Hx Hy. unfold reg in *.
  assert (0 <= Z.lxor x y)%Z by (apply Z.lxor_nonneg; lia).
  split; [done|]. replace (Z.lxor x y) with (Z.land (Z.lxor x y) (Z.ones n)).
  { rewrite Z.land_ones by lia. apply Z.mod_pos_bound. lia. }
  rewrite Z.land_ones_low; [done|done|].
  destruct (decide (Z.lxor x y = 0%Z)) as [->|]; [simpl; lia|].
  pose proof (Z.log2_lxor x y ltac:(lia) ltac:(lia)).
  assert (forall z, (0 <= z < 2 ^ n)%Z -> (Z.log2 z < n)%Z) as Hlog.
  { intros z Hz. destruct (decide (z = 0%Z)) as [->|]; [simpl; lia|].
    apply Z.log2_lt_pow2; lia. }
  pose proof (Hlog x Hx). pose proof (Hlog y Hy). lia.
Qed.

Lemma reg_step x b : reg x -> reg (crc_step x b).
Proof.
  intros Hx. apply reg_lxor.
  - apply reg_land. rewrite Z.shiftl_mul_pow2 by lia. unfold reg in Hx. lia.
  - destruct (xorb _ _); [done|]. unfold reg. lia.
Qed.

Lemma reg_crc bits : forall x, reg x -> reg (crc x bits).
Proof. induction bits; intros x Hx; simpl; [done|]. by apply IHbits, reg_step. Qed.

(** The register is linear in its content and the input. *)
Lemma crc_step_lxor x y b c :
  crc_step (Z.lxor x y) (xorb b c) = Z.lxor (crc_step x b) (crc_step y c).
Proof.
  apply Z.bits_inj'. intros i Hi. unfold crc_step.
  rewrite !Z.lxor_spec, !testbit_shift_out, !Z.lxor_spec by done.
  destruct (Z.testbit x (n - 1)), (Z.testbit y (n - 1)), b, c; simpl;
    rewrite ?Z.bits_0; btauto.
Qed.

Lemma crc_lxor bits1 : forall bits2 x y, length bits1 = length bits2 ->
  crc (Z.lxor x y) (zip_with xorb bits1 bits2) = Z.lxor (crc x bits1) (crc y bits2).
Proof.
  induction bits1 as [|b bits1 IH]; intros [|c bits2] x y H; simpl in *; try lia.
  rewrite crc_step_lxor. apply IH. lia.
Qed.

(** Shifting in zeros keeps a non-zero register non-zero. *)
Lemma crc_step_zero x : reg x -> crc_step x false = 0%Z -> x = 0%Z.
Proof.
  intros Hx E. unfold crc_step in E. rewrite xorb_false_r in E.
  destruct (Z.testbit x (n - 1)) eqn:Etop.
  - apply (f_equal (fun z => Z.testbit z 0)) in E.
    rewrite Z.lxor_spec, testbit_shift_out, Hodd, Z.bits_0 in E by lia. done.
  - rewrite Z.lxor_0_r in E. apply Z.bits_inj'. intros i Hi. rewrite Z.bits_0.
    destruct (Z.lt_ge_cases i (n - 1)) as [Hlt|Hge].
    + apply (f_equal (fun z => Z.testbit z (i + 1))) in E.
      rewrite testbit_shift_out, Z.bits_0 in E by lia.
      rewrite (proj2 (Z.ltb_lt 0 (i + 1))), (proj2 (Z.ltb_lt (i + 1) n)) in E by lia.
      by rewrite Z.add_simpl_r in E.
    + destruct (decide (i = n - 1)%Z) as [->|]; [done|].
      rewrite <- (Z.mod_small x (2 ^ n)) by done. apply Z.mod_pow2_bits_high. lia.
Qed.

Lemma crc_zeros x k : reg x -> crc x (replicate k false) = 0%Z -> x = 0%Z.
Proof.
  revert x; induction k as [|k IH]; intros x Hx E; [done|]. cbn [replicate crc foldl] in E.
  apply crc_step_zero; [done|]. apply IH; [by apply reg_step|done].
Qed.

(** Feeding a register its own content, most significant bit first, clears it. *)
Lemma crc_self_loop x j :
  j <= w -> crc (Z.land (Z.shiftl x (n - Z.of_nat j)) (Z.ones n)) (val_bits j x) = 0%Z.
Proof.
  induction j as [|j IH]; intros Hj.
  - cbn. apply Z.bits_inj'. intros i Hi. rewrite Z.land_spec, Z.bits_0.
    destruct (Z.lt_ge_cases i n).
    + rewrite Z.shiftl_spec_low by lia. done.
    + by rewrite Z.ones_spec_high, andb_false_r by lia.
  - rewrite val_bits_S. cbn [crc foldl].
    replace (crc_step _ (Z.testbit x (Z.of_nat j)))
      with (Z.land (Z.shiftl x (n - Z.of_nat j)) (Z.ones n)); [apply IH; lia|].
    unfold crc_step. rewrite Z.land_spec, Z.ones_spec_low, andb_true_r by lia.
    rewrite Z.shiftl_spec by lia. replace (n - 1 - (n - Z.of_nat (S j)))%Z with (Z.of_nat j) by lia.
    rewrite xorb_nilpotent, Z.lxor_0_r. apply Z.bits_inj'. intros i Hi.
    rewrite testbit_shift_out, !Z.land_spec by done.
    destruct (Z.lt_ge_cases i n).
    2:{ rewrite Z.ones_spec_high by lia. rewrite (proj2 (Z.ltb_ge i n)) by lia.
        by rewrite !andb_false_r. }
    rewrite (proj2 (Z.ltb_lt i n)), (Z.ones_spec_low n i), andb_true_r by lia.
    rewrite andb_true_r, Z.shiftl_spec by done. destruct (Z.ltb_spec 0 i).
    + rewrite Z.shiftl_spec, (Z.ones_spec_low n (i - 1)), andb_true_r by lia.
      simpl. f_equal. lia.
    + rewrite Z.testbit_neg_r by lia. done.
Qed.

Lemma crc_self x : reg x -> crc x (val_bits w x) = 0%Z.
Proof.
  intros Hx. pose proof (crc_self_loop x w ltac:(lia)) as E. fold n in E.
  rewrite Z.sub_diag, Z.shiftl_0_r, Z.land_ones, Z.mod_small in E by (done || lia). done.
Qed.

Lemma zip_xorb_zeros bits k : length bits = k -> zip_with xorb bits (replicate k false) = bits.
Proof.
  intros <-. induction bits as [|b bits IH]; simpl; [done|]. by rewrite xorb_false_r, IH.
Qed.

(** The check bits of a word alone are the register it leaves when shifted out. *)
Lemma crc_word x : reg x -> crc 0 (val_bits w x) = crc x (replicate w false).
Proof.
  intros Hx. pose proof (crc_lxor (val_bits w x) (replicate w false) 0 x) as E.
  rewrite length_val_bits, length_replicate in E. specialize (E eq_refl).
  rewrite zip_xorb_zeros, Z.lxor_0_l, crc_self in E by (done || apply length_val_bits).
  symmetry in E. by apply Z.lxor_eq in E.
Qed.

(** ** Burst detection *)

(** A burst of at most [w] bits leaves a non-zero register. *)
Lemma crc_burst bits :
  length bits <= w -> crc 0 bits = 0%Z -> bits = replicate (length bits) false.
Proof.
  intros Hl E. set (padded := bits ++ replicate (w - length bits) false).
  assert (Hlen : length padded = w) by (unfold padded; rewrite length_app, length_replicate; lia).
  assert (crc 0 padded = 0%Z) as Ep.
  { unfold padded, crc. rewrite foldl_app. fold (crc 0 bits). rewrite E.
    clear. induction (w - length bits) as [|k IH]; [done|]. cbn [replicate foldl].
    replace (crc_step 0 false) with 0%Z; [done|]. unfold crc_step.
    by rewrite Z.bits_0, Z.lxor_0_r. }
  pose proof (bits_val_bound padded) as Hb. rewrite Hlen in Hb.
  rewrite <- (val_bits_bits_val padded), Hlen, crc_word in Ep by done.
  apply crc_zeros in Ep; [|done].
  assert (padded = replicate w false) as Hz.
  { rewrite <- (val_bits_bits_val padded), Ep, Hlen. clear.
    induction w as [|k IH]; [done|]. rewrite val_bits_S, Z.bits_0. simpl. by f_equal. }
  unfold padded in Hz. apply (f_equal (take (length bits))) in Hz.
  by rewrite take_app_length, take_replicate, Nat.min_l in Hz by done.
Qed.

Lemma crc_app x b1 b2 : crc x (b1 ++ b2) = crc (crc x b1) b2.
Proof. unfold crc. by rewrite foldl_app. Qed.

(** Two blocks that differ within [w] consecutive bits have different checks. *)
Lemma crc_detects_burst x pre e1 e2 post :
  reg x -> length e1 = length e2 -> length e1 <= w -> e1 <> e2 ->
  crc x (pre ++ e1 ++ post) <> crc x (pre ++ e2 ++ post).
Proof.
  intros Hx Hl Hw Hne E. apply Hne. rewrite !crc_app in E. set (y := crc x pre) in *.
  assert (reg y) as Hy by by apply reg_crc.
  assert (forall u v, reg u -> reg v -> crc u post = crc v post -> u = v) as Hinj.
  { intros u v Hu Hv Euv. apply Z.lxor_eq. apply (crc_zeros _ (length post)).
    - by apply reg_lxor.
    - replace (replicate (length post) false) with (zip_with xorb post post).
      + rewrite crc_lxor, Euv by done. apply Z.lxor_nilpotent.
      + clear. induction post; simpl; [done|]. by rewrite xorb_nilpotent, IHpost. }
  apply Hinj in E; [|by apply reg_crc..].
  assert (crc 0 (zip_with xorb e1 e2) = 0%Z) as Ez.
  { rewrite <- (Z.lxor_nilpotent y) at 1. rewrite crc_lxor, E by done.
    apply Z.lxor_nilpotent. }
  apply crc_burst in Ez; [|rewrite length_zip_with; lia].
  rewrite length_zip_with in Ez. clear -Hl Ez. revert e2 Hl Ez.
  induction e1 as [|a e1 IH]; intros [|b e2] Hl Ez; simpl in *; try lia; [done|].
  injection Ez as Hab Ez. apply xorb_eq in Hab as ->. f_equal. apply IH; [lia|done].
Qed.

(** Appending the complemented register leaves a fixed residue. *)
Lemma crc_residue x :
  reg x -> crc x (val_bits w (Z.lxor x (Z.ones n))) = crc 0 (replicate w true).
Proof.
  intros Hx. replace (val_bits w (Z.lxor x (Z.ones n)))
    with (zip_with xorb (val_bits w x) (replicate w true)).
  - rewrite <- (Z.lxor_0_r x) at 1.
    rewrite crc_lxor, crc_self, Z.lxor_0_l by (done || by rewrite length_val_bits, length_replicate).
    done.
  - assert (H : forall k, k <= w -> zip_with xorb (val_bits k x) (replicate k true)
                          = val_bits k (Z.lxor x (Z.ones n))).
    { induction k as [|k IH]; intros Hk; [done|]. rewrite !val_bits_S. simpl.
      rewrite Z.lxor_spec, Z.ones_spec_low, IH by lia. done. }
    by apply H.
Qed.
End generic.

(** ** CRC-16 is the 16-bit instance *)

Abbreviation crc16 := (crc 16 GEN_POLY).

Lemma reg16 x : reg 16 x <-> (0 <= x < 65536)%Z.
Proof. done. Qed.

Lemma u16_land x : u16 x = Z.land x (Z.ones 16).
Proof. by rewrite Z.land_ones by lia. Qed.

Lemma crc16_step_generic x b : crc16_step x (b2z b) = crc_step 16 GEN_POLY x b.
Proof.
  unfold crc16_step, crc_step. set (y := Z.lxor x (u16 (Z.shiftl (b2z b) 15))).
  assert (Hy : forall i, (0 <= i)%Z ->
            Z.testbit y i = xorb (Z.testbit x i) ((i =? 15)%Z && b)).
  { intros i Hi. unfold y. rewrite Z.lxor_spec. f_equal. destruct b; cbn [b2z].
    - change (u16 (Z.shiftl 1 15)) with (2 ^ 15)%Z. rewrite andb_true_r.
      destruct (Z.eqb_spec i 15) as [->|]; [done|]. by rewrite Z.pow2_bits_false by lia.
    - change (u16 (Z.shiftl 0 15)) with 0%Z. by rewrite Z.bits_0, andb_false_r. }
  assert (Hs : u16 (Z.shiftl y 1) = shift_out 16 x).
  { rewrite u16_land. apply Z.bits_inj'. intros i Hi.
    rewrite testbit_shift_out, Z.land_spec by done. destruct (Z.ltb_spec i (Z.of_nat 16)).
    - rewrite Z.ones_spec_low, andb_true_r, Z.shiftl_spec by lia. destruct (Z.ltb_spec 0 i).
      + rewrite Hy by lia. rewrite (proj2 (Z.eqb_neq (i - 1) 15)) by lia. by rewrite xorb_false_r.
      + by rewrite Z.testbit_neg_r by lia.
    - by rewrite Z.ones_spec_high, !andb_false_r by lia. }
  assert (Ht : negb (Z.land y 0x8000 =? 0)%Z = xorb (Z.testbit x (Z.of_nat 16 - 1)) b).
  { change (Z.of_nat 16 - 1)%Z with 15%Z. specialize (Hy 15%Z ltac:(lia)). simpl in Hy.
    rewrite <- Hy. change 0x8000%Z with (2 ^ 15)%Z. destruct (Z.testbit y 15) eqn:E.
    - destruct (Z.eqb_spec (Z.land y (2 ^ 15)) 0) as [H0|]; [|done].
      apply (f_equal (fun z => Z.testbit z 15)) in H0.
      by rewrite Z.land_spec, E, Z.pow2_bits_true in H0 by lia.
    - rewrite (proj2 (Z.eqb_eq (Z.land y (2 ^ 15)) 0)); [done|]. apply Z.bits_inj'. intros i Hi.
      rewrite Z.land_spec, Z.bits_0. destruct (decide (i = 15%Z)) as [->|]; [by rewrite E|].
      by rewrite Z.pow2_bits_false, andb_false_r by lia. }
  rewrite Ht, Hs, Z.add_0_r. destruct (xorb _ _); [|by rewrite Z.lxor_0_r].
  f_equal. rewrite <- Hs. unfold u16. by rewrite Z.mod_mod by lia.
Qed.

Lemma land_b2z_1 b : Z.land (b2z b) 1 = b2z b.
Proof. by destruct b. Qed.

Lemma crc16_itut_bits_generic init bits n :
  crc16_itut_bits init (b2z <$> bits) n = crc16 init (take n bits).
Proof.
  unfold crc16_itut_bits, crc. rewrite <- fmap_take. generalize (take n bits). clear bits.
  intros bits. revert init. induction bits as [|b bits IH]; intros init; simpl; [done|].
  by rewrite land_b2z_1, crc16_step_generic, IH.
Qed.

Lemma crc16_poly_ok : (0 <= GEN_POLY < 2 ^ Z.of_nat 16)%Z /\ Z.testbit GEN_POLY 0 = true.
Proof. by vm_compute. Qed.

Lemma crc16_residue init bits :
  (0 <= init < 65536)%Z ->
  crc16 init (bits ++ val_bits 16 (Z.lxor (crc16 init bits) 0xffff)) = TETRA_CRC_OK.
Proof.
  intros H. rewrite crc_app, (crc_residue 16 GEN_POLY); try apply crc16_poly_ok; try lia.
  - by vm_compute.
  - by apply reg_crc; try apply crc16_poly_ok.
Qed.

(** The byte-wise variant is the bit-wise one on the unpacked bytes. *)
Lemma get_nth_bit_spec input i :
  i < length input * 8 ->
  exists b, concat (val_bits 8 <$> input) !! i = Some b /\ get_nth_bit input i = Some (b2z b).
Proof.
  revert i; induction input as [|x input IH]; intros i Hi; [simpl in Hi; lia|].
  cbn [fmap list_fmap concat]. destruct (decide (i < 8)) as [H8|H8].
  - rewrite lookup_app_l by (by rewrite length_val_bits). rewrite lookup_val_bits by done.
    eexists. split; [done|]. unfold get_nth_bit. rewrite Nat.div_small, Nat.mod_small by done.
    simpl. f_equal. change 1%Z with (Z.ones 1). rewrite Z.land_ones by lia.
    change (2 ^ 1)%Z with 2%Z. rewrite <- Z.bit0_mod, Z.shiftr_spec, Z.add_0_l by lia.
    replace (8 - 1 - i) with (7 - i) by lia. by destruct (Z.testbit x _).
  - rewrite lookup_app_r, length_val_bits by (rewrite length_val_bits; lia).
    destruct (IH (i - 8)) as (b & Hb & Hg); [simpl in Hi; lia|]. exists b. split; [done|].
    rewrite <- Hg. unfold get_nth_bit.
    replace (i / 8) with (S ((i - 8) / 8)) by divlia.
    replace (i mod 8) with ((i - 8) mod 8) by divlia. done.
Qed.

Lemma crc16_bytes_loop k : forall input c,
  k <= length input * 8 ->
  crc16_itut_bytes c input k
  = Some (crc16 c (take k (concat (val_bits 8 <$> input)))).
Proof.
  induction k as [|k IH]; intros input c Hk; [done|].
  unfold crc16_itut_bytes in *. rewrite seq_S, foldM_app, IH by lia. cbn [Nat.add foldM].
  destruct (get_nth_bit_spec input k) as (b & Hb & Hg); [lia|].
  cbn [mbind option_bind]. rewrite Hg. cbn [mbind option_bind].
  rewrite (take_S_r _ _ _ Hb), crc_app, crc16_step_generic. done.
Qed.

(** ** Theorems *)

(** Burst detection.  Two blocks of the same length that differ, and differ
    only within 16 consecutive bits, never have the same CRC-16. *)
Theorem crc16_detects_burst pre e1 e2 post :
  length e1 = length e2 -> length e1 <= 16 -> e1 <> e2 ->
  let block e := b2z <$> (pre ++ e ++ post) in
  crc16_ccitt_bits (block e1) (length (block e1))
  <> crc16_ccitt_bits (block e2) (length (block e2)).
Proof.
  intros Hl H16 Hne block. unfold block, crc16_ccitt_bits.
  rewrite !crc16_itut_bits_generic, !length_fmap, !firstn_all.
  by apply crc_detects_burst; try apply crc16_poly_ok.
Qed.


(** Bytes and bits.  [crc16_itut_bytes] on packed bytes computes what
    [crc16_itut_bits] computes on the same bits unpacked one per byte. *)
Theorem crc16_itut_bytes_bits c input number_bits :
  number_bits <= length input * 8 ->
  crc16_itut_bytes c input number_bits
  = Some (crc16_itut_bits c (b2z <$> concat (val_bits 8 <$> input)) number_bits).
Proof. intros H. rewrite crc16_itut_bits_generic. by apply crc16_bytes_loop. Qed.

