(* ===== verification/Rm3014.v ===== *)
(** * The shortened Reed-Muller code (30,14) of the access assignment channel
      (crates/tetra-entities/src/lmac/components/rm3014.rs)

    The encoder, the syndrome former and the single-error corrector; encoding is
    systematic, every code word has syndrome 0, and any single bit error is
    corrected. *)

From Stdlib Require Import ZArith Lia ZifyNat Btauto.
From S2P Require Import Prelude.

Definition RM_30_14_GEN : list (list Z) :=
  [[1; 0; 0; 1; 1; 0; 1; 1; 0; 1; 1; 0; 0; 0; 0; 0];
   [0; 0; 1; 0; 1; 1; 0; 1; 1; 1; 1; 0; 0; 0; 0; 0];
   [1; 1; 1; 1; 1; 1; 0; 0; 0; 0; 1; 0; 0; 0; 0; 0];
   [1; 1; 1; 0; 0; 0; 0; 0; 0; 0; 1; 1; 1; 1; 0; 0];
   [1; 0; 0; 1; 1; 0; 0; 0; 0; 0; 1; 1; 1; 0; 1; 0];
   [0; 1; 0; 1; 0; 1; 0; 0; 0; 0; 1; 1; 0; 1; 1; 0];
   [0; 0; 1; 0; 1; 1; 0; 0; 0; 0; 1; 0; 1; 1; 1; 0];
   [1; 1; 1; 1; 1; 1; 1; 1; 1; 1; 0; 1; 1; 1; 1; 1];
   [1; 0; 0; 0; 0; 0; 1; 1; 0; 0; 1; 1; 1; 0; 0; 1];
   [0; 1; 0; 0; 0; 0; 1; 0; 1; 0; 1; 1; 0; 1; 0; 1];
   [0; 0; 1; 0; 0; 0; 0; 1; 1; 0; 1; 0; 1; 1; 0; 1];
   [0; 0; 0; 1; 0; 0; 1; 0; 0; 1; 1; 1; 0; 0; 1; 1];
   [0; 0; 0; 0; 1; 0; 0; 1; 0; 1; 1; 0; 1; 0; 1; 1];
   [0; 0; 0; 0; 0; 1; 0; 0; 1; 1; 1; 0; 0; 1; 1; 1]]%Z.

Definition RM_30_14_ROWS_PRECOMPUTED : list Z :=
  [0x20009b60; 0x10002de0; 0x0800fc20; 0x0400e03c; 0x0200983a; 0x01005436; 0x00802c2e;
   0x0040ffdf; 0x00208339; 0x001042b5; 0x000821ad; 0x00041273; 0x0002096b; 0x000104e7]%Z.

Definition tetra_rm3014_compute (input : Z) : Z :=
  foldl (fun val i =>
    let bit := Z.land (Z.shiftr input (Z.of_nat (13 - i))) 1 in
    if (bit =? 1)%Z then Z.lxor val (RM_30_14_ROWS_PRECOMPUTED !!! i) else val) 0%Z (seq 0 14).

Definition tetra_rm3014_decode_naive (codeword : Z) : Z := u16 (Z.shiftr codeword 16).

Definition gen_entry (i j : nat) : Z := (RM_30_14_GEN !!! i) !!! j.

Definition compute_col_syndromes : list Z :=
  (fun k => foldl (fun syn j =>
     let bit := if k <? 14 then gen_entry k j else b2z (k - 14 =? j) in
     Z.lor syn (u16 (Z.shiftl bit (Z.of_nat j)))) 0%Z (seq 0 16)) <$> seq 0 30.

Definition COL_SYNDROMES : list Z := Eval vm_compute in compute_col_syndromes.

Definition syndrome_sum (codeword : Z) (j : nat) : Z :=
  let sum := foldl (fun sum i =>
    Z.lxor sum (Z.land (u8 (Z.land (Z.shiftr codeword (Z.of_nat (29 - i))) 1)) (gen_entry i j)))
    0%Z (seq 0 14) in
  Z.lxor sum (u8 (Z.land (Z.shiftr codeword (Z.of_nat (29 - (14 + j)))) 1)).

Definition compute_syndrome (codeword : Z) : Z :=
  foldl (fun syn j =>
    if negb (Z.land (syndrome_sum codeword j) 1 =? 0)%Z
    then Z.lor syn (Z.shiftl 1 (Z.of_nat j)) else syn) 0%Z (seq 0 16).

(** The [for .. break] over the column syndromes. *)
Fixpoint correct_loop (cols : list Z) (k : nat) (syn corrected : Z) : Z :=
  match cols with
  | [] => corrected
  | col_syn :: cols' =>
      if (col_syn =? syn)%Z then Z.lxor corrected (Z.shiftl 1 (Z.of_nat (29 - k)))
      else correct_loop cols' (S k) syn corrected
  end.

Definition tetra_rm3014_decode_limited_ecc (codeword : Z) : Z :=
  let syn := compute_syndrome codeword in
  let corrected :=
    if negb (syn =? 0)%Z then correct_loop COL_SYNDROMES 0 syn codeword else codeword in
  u16 (Z.shiftr corrected 16).

(** ** Bits *)

Lemma land_shiftr_1 x k : Z.land (Z.shiftr x (Z.of_nat k)) 1 = b2z (Z.testbit x (Z.of_nat k)).
Proof.
  change 1%Z with (Z.ones 1). rewrite Z.land_ones by lia. change (2 ^ 1)%Z with 2%Z.
  rewrite <- Z.bit0_mod, Z.shiftr_spec, Z.add_0_l by lia. by destruct (Z.testbit x _).
Qed.

(** Syndrome bit [j] as a parity. *)
Definition synbit (cw : Z) (j : nat) : bool :=
  xorb (foldl (fun s i => xorb s (Z.testbit cw (Z.of_nat (29 - i)) && Z.testbit (gen_entry i j) 0))
          false (seq 0 14))
       (Z.testbit cw (Z.of_nat (29 - (14 + j)))).

Arguments synbit : simpl never.
Arguments syndrome_sum : simpl never.
Arguments gen_entry : simpl never.

Lemma u8_b2z b : u8 (b2z b) = b2z b.
Proof. by destruct b. Qed.

Lemma lxor_b2z a b : Z.lxor (b2z a) (b2z b) = b2z (xorb a b).
Proof. by destruct a, b. Qed.

Lemma gen_entry_bit i j : gen_entry i j = b2z (Z.testbit (gen_entry i j) 0).
Proof.
  assert (H : Forall (Forall (fun x => x = b2z (Z.testbit x 0))) RM_30_14_GEN)
    by (repeat constructor).
  unfold gen_entry. destruct (RM_30_14_GEN !! i) as [row|] eqn:Ei.
  - rewrite (list_lookup_total_correct _ _ _ Ei). rewrite Forall_lookup in H.
    specialize (H i row Ei). rewrite Forall_lookup in H.
    destruct (row !! j) as [x|] eqn:Ej.
    + rewrite (list_lookup_total_correct _ _ _ Ej). by apply (H j).
    + rewrite list_lookup_total_alt, Ej. done.
  - rewrite (list_lookup_total_alt RM_30_14_GEN), Ei. simpl. by rewrite list_lookup_total_alt.
Qed.

Lemma syndrome_fold_bit cw j l : forall s,
  foldl (fun sum i =>
    Z.lxor sum (Z.land (u8 (Z.land (Z.shiftr cw (Z.of_nat (29 - i))) 1)) (gen_entry i j)))
    (b2z s) l
  = b2z (foldl (fun s i => xorb s (Z.testbit cw (Z.of_nat (29 - i)) && Z.testbit (gen_entry i j) 0))
           s l).
Proof.
  induction l as [|i l IH]; intros s; cbn [foldl]; [done|]. rewrite <- IH. f_equal.
  rewrite land_shiftr_1, u8_b2z. rewrite gen_entry_bit at 1.
  by destruct s, (Z.testbit cw (Z.of_nat (29 - i))), (Z.testbit (gen_entry i j) 0).
Qed.

Lemma syndrome_sum_bit cw j : syndrome_sum cw j = b2z (synbit cw j).
Proof.
  unfold syndrome_sum, synbit. rewrite land_shiftr_1, u8_b2z, <- lxor_b2z. f_equal.
  apply (syndrome_fold_bit cw j (seq 0 14) false).
Qed.

(** ** Linearity *)

Lemma synbit_lxor a b j : synbit (Z.lxor a b) j = xorb (synbit a j) (synbit b j).
Proof.
  unfold synbit. generalize (29 - (14 + j)). intros k. rewrite Z.lxor_spec.
  assert (H : forall l s t, foldl (fun s i => xorb s (Z.testbit (Z.lxor a b) (Z.of_nat (29 - i))
                && Z.testbit (gen_entry i j) 0)) (xorb s t) l
    = xorb (foldl (fun s i => xorb s (Z.testbit a (Z.of_nat (29 - i))
                && Z.testbit (gen_entry i j) 0)) s l)
           (foldl (fun s i => xorb s (Z.testbit b (Z.of_nat (29 - i))
                && Z.testbit (gen_entry i j) 0)) t l)).
  { induction l as [|i l IH]; intros s t; cbn [foldl]; [done|]. rewrite <- IH. f_equal.
    rewrite Z.lxor_spec. btauto. }
  rewrite <- (xorb_false_l false) at 1. rewrite H. btauto.
Qed.

Lemma synbit_0 j : synbit 0 j = false.
Proof. pose proof (synbit_lxor 0 0 j) as H. rewrite Z.lxor_0_l in H. by destruct (synbit 0 j). Qed.

(** Any linear functional of a code word is the sum of its values on the rows. *)
Lemma compute_hom (h : Z -> bool) x :
  (forall a b, h (Z.lxor a b) = xorb (h a) (h b)) ->
  h (tetra_rm3014_compute x)
  = foldl (fun s i => xorb s (Z.testbit x (Z.of_nat (13 - i)) && h (RM_30_14_ROWS_PRECOMPUTED !!! i)))
      false (seq 0 14).
Proof.
  intros Hh. assert (h 0%Z = false) as H0.
  { pose proof (Hh 0%Z 0%Z) as H. rewrite Z.lxor_0_l in H. by destruct (h 0%Z). }
  unfold tetra_rm3014_compute. rewrite <- H0. generalize 0%Z at 1 2. generalize (seq 0 14).
  intros l. induction l as [|i l IH]; intros v; cbn [foldl]; [done|]. rewrite IH. f_equal.
  rewrite land_shiftr_1. destruct (Z.testbit x (Z.of_nat (13 - i))); simpl.
  - rewrite Hh. done.
  - by rewrite xorb_false_r.
Qed.

Lemma rows_syndrome j i :
  j < 16 -> i < 14 -> synbit (RM_30_14_ROWS_PRECOMPUTED !!! i) j = false.
Proof.
  intros Hj Hi.
  assert (H : forallb (fun j => forallb (fun i =>
     negb (synbit (RM_30_14_ROWS_PRECOMPUTED !!! i) j)) (seq 0 14)) (seq 0 16) = true)
    by (vm_compute; reflexivity).
  rewrite forallb_forall in H. specialize (H j). rewrite in_seq in H.
  specialize (H ltac:(lia)). rewrite forallb_forall in H. specialize (H i).
  rewrite in_seq in H. specialize (H ltac:(lia)). by apply negb_true_iff in H.
Qed.

Lemma synbit_code x j : j < 16 -> synbit (tetra_rm3014_compute x) j = false.
Proof.
  intros Hj. rewrite (compute_hom (fun z => synbit z j)) by (intros; apply synbit_lxor).
  assert (H : Forall (fun i => i < 14) (seq 0 14)) by (apply Forall_seq; lia).
  revert H. generalize (seq 0 14). intros l Hl. induction Hl as [|i l Hi _ IH]; [done|].
  cbn [foldl]. by rewrite rows_syndrome, andb_false_r.
Qed.

Lemma odd_b2z b : negb (Z.land (b2z b) 1 =? 0)%Z = b.
Proof. by destruct b. Qed.

Local Opaque synbit gen_entry syndrome_sum.

Lemma testbit_syndrome cw i :
  (0 <= i)%Z -> Z.testbit (compute_syndrome cw) i = (i <? 16)%Z && synbit cw (Z.to_nat i).
Proof.
  intros Hi. unfold compute_syndrome.
  assert (H : forall n, n <= 16 -> Z.testbit (foldl (fun syn j =>
     if negb (Z.land (syndrome_sum cw j) 1 =? 0)%Z
     then Z.lor syn (Z.shiftl 1 (Z.of_nat j)) else syn) 0%Z (seq 0 n)) i
     = (i <? Z.of_nat n)%Z && synbit cw (Z.to_nat i)).
  { induction n as [|n IH]; intros Hn.
    { simpl. rewrite Z.bits_0. by destruct (Z.ltb_spec i (Z.of_nat 0)); [lia|]. }
    rewrite seq_S, foldl_app. cbn [Nat.add foldl]. rewrite syndrome_sum_bit, odd_b2z.
    destruct (decide (i = Z.of_nat n)) as [->|Hne].
    - rewrite (proj2 (Z.ltb_lt (Z.of_nat n) (Z.of_nat (S n)))), Nat2Z.id, andb_true_l by lia.
      rewrite (proj2 (Z.ltb_ge _ _)) in IH by lia. rewrite andb_false_l in IH.
      destruct (synbit cw n) eqn:E.
      + rewrite Z.lor_spec, Z.shiftl_1_l, Z.pow2_bits_true by lia. apply orb_true_r.
      + apply IH. lia.
    - transitivity ((i <? Z.of_nat n)%Z && synbit cw (Z.to_nat i)).
      + rewrite <- IH by lia. destruct (synbit cw n); [|done].
        by rewrite Z.lor_spec, Z.shiftl_1_l, Z.pow2_bits_false, orb_false_r by lia.
      + f_equal. destruct (Z.ltb_spec i (Z.of_nat n)), (Z.ltb_spec i (Z.of_nat (S n))); lia || done. }
  by apply (H 16).
Qed.

Lemma syndrome_error x e :
  compute_syndrome (Z.lxor (tetra_rm3014_compute x) e) = compute_syndrome e.
Proof.
  apply Z.bits_inj'. intros i Hi. rewrite !testbit_syndrome by done.
  destruct (Z.ltb_spec i 16); [|done]. rewrite synbit_lxor, synbit_code by lia.
  by rewrite xorb_false_l.
Qed.

(** ** The code is systematic *)

Ltac row_bits :=
  repeat match goal with |- context [Z.testbit (RM_30_14_ROWS_PRECOMPUTED !!! ?a) ?b] =>
    let v := eval vm_compute in (Z.testbit (RM_30_14_ROWS_PRECOMPUTED !!! a) b) in
    change (Z.testbit (RM_30_14_ROWS_PRECOMPUTED !!! a) b) with v end;
  rewrite ?andb_false_r, ?andb_true_r, ?xorb_false_r, ?xorb_false_l.

Lemma testbit_code_high x i :
  i < 14 -> Z.testbit (tetra_rm3014_compute x) (Z.of_nat (16 + i)) = Z.testbit x (Z.of_nat i).
Proof.
  intros Hi. rewrite (compute_hom (fun z => Z.testbit z (Z.of_nat (16 + i))))
    by (intros; apply Z.lxor_spec).
  cbn [foldl seq].
  do 14 (destruct i as [|i]; [row_bits; reflexivity|]). exfalso; lia.
Qed.

Lemma testbit_code_above x m : (30 <= m)%Z -> Z.testbit (tetra_rm3014_compute x) m = false.
Proof.
  intros Hm. rewrite (compute_hom (fun z => Z.testbit z m)) by (intros; apply Z.lxor_spec).
  assert (H : Forall (fun r => 0 <= r < 2 ^ 30)%Z RM_30_14_ROWS_PRECOMPUTED)
    by (repeat constructor; vm_compute; done).
  assert (Hr : forall i, Z.testbit (RM_30_14_ROWS_PRECOMPUTED !!! i) m = false).
  { intros i. rewrite list_lookup_total_alt. destruct (RM_30_14_ROWS_PRECOMPUTED !! i) as [r|] eqn:E.
    - simpl. rewrite Forall_lookup in H. specialize (H i r E).
      rewrite <- (Z.mod_small r (2 ^ 30)) by done. apply Z.mod_pow2_bits_high. lia.
    - apply (Z.bits_above_log2 1); simpl; lia. }
  cbn [foldl seq]. by rewrite !Hr, !andb_false_r.
Qed.

Lemma code_high x : (0 <= x < 2 ^ 14)%Z -> Z.shiftr (tetra_rm3014_compute x) 16 = x.
Proof.
  intros Hx. apply Z.bits_inj'. intros i Hi. rewrite Z.shiftr_spec by done.
  destruct (Z.lt_ge_cases i 14).
  - replace (i + 16)%Z with (Z.of_nat (16 + Z.to_nat i)) by lia.
    rewrite testbit_code_high by lia. by rewrite Z2Nat.id.
  - rewrite testbit_code_above by lia. symmetry.
    rewrite <- (Z.mod_small x (2 ^ 14)) by done. apply Z.mod_pow2_bits_high. lia.
Qed.

Lemma code_bound x : (0 <= tetra_rm3014_compute x < 2 ^ Z.of_nat 30)%Z.
Proof.
  assert (E : tetra_rm3014_compute x = (tetra_rm3014_compute x mod 2 ^ 30)%Z).
  { apply Z.bits_inj'. intros i Hi. destruct (Z.lt_ge_cases i 30).
    - by rewrite Z.mod_pow2_bits_low.
    - rewrite Z.mod_pow2_bits_high by lia. by apply testbit_code_above. }
  rewrite E. apply Z.mod_pos_bound. lia.
Qed.

Lemma correct_column k cw :
  k < 30 ->
  compute_syndrome (2 ^ Z.of_nat (29 - k)) <> 0%Z /\
  correct_loop COL_SYNDROMES 0 (compute_syndrome (2 ^ Z.of_nat (29 - k))) cw
  = Z.lxor cw (2 ^ Z.of_nat (29 - k)).
Proof.
  intros Hk.
  do 30 (destruct k as [|k]; [split; [vm_compute; discriminate|vm_compute; reflexivity]|]).
  exfalso; lia.
Qed.

Lemma decode_error x e :
  (0 <= x < 2 ^ 14)%Z -> e = 0%Z \/ (exists k, k < 30 /\ e = (2 ^ Z.of_nat k)%Z) ->
  tetra_rm3014_decode_limited_ecc (Z.lxor (tetra_rm3014_compute x) e) = x.
Proof.
  intros Hx He. unfold tetra_rm3014_decode_limited_ecc. rewrite syndrome_error.
  destruct He as [->|(k & Hk & ->)].
  - change (negb (compute_syndrome 0 =? 0)%Z) with false. cbn iota. rewrite Z.lxor_0_r, code_high by done.
    apply u16_small. lia.
  - destruct (correct_column (29 - k) (Z.lxor (tetra_rm3014_compute x) (2 ^ Z.of_nat k)))
      as [Hnz E]; [lia|].
    replace (29 - (29 - k)) with k in * by lia.
    rewrite (proj2 (Z.eqb_neq _ _) Hnz). cbn [negb]. rewrite E.
    rewrite Z.lxor_assoc, Z.lxor_nilpotent, Z.lxor_0_r, code_high by done. apply u16_small. lia.
Qed.

(** ** Theorems *)

(** Single-error correction.  For every 14-bit word, the (30,14) code word is
    decoded to that word when it arrives unchanged and when any one of its 30
    bits is inverted. *)
Theorem rm3014_corrects_single_error x e :
  (0 <= x < 2 ^ 14)%Z -> e = 0%Z \/ (exists k, k < 30 /\ e = (2 ^ Z.of_nat k)%Z) ->
  tetra_rm3014_decode_limited_ecc (Z.lxor (tetra_rm3014_compute x) e) = x.
Proof. apply decode_error. Qed.

