(* ===== verification/TchReorder.v ===== *)
(** * ACELP bit reordering (crates/tetra-entities/src/lmac/components/tch_reorder.rs)

    Codec order to channel order and back.  The three sensitivity-class tables
    together are a permutation of the 137 positions of a subframe, so the two
    conversions are inverse to each other. *)

From Stdlib Require Import ZArith Lia ZifyNat.
From S2P Require Import Prelude.

Definition NUM_ACELP_BITS : nat := 137.

Definition CLASS0_POS : list nat :=
  [35; 36; 37; 38; 39; 40; 41; 42; 43; 47; 48; 56; 61; 62; 63; 64; 65; 66; 67; 68; 69; 70; 74; 75;
   83; 88; 89; 90; 91; 92; 93; 94; 95; 96; 97; 101; 102; 110; 115; 116; 117; 118; 119; 120; 121;
   122; 123; 124; 128; 129; 137].

Definition CLASS1_POS : list nat :=
  [58; 85; 112; 54; 81; 108; 135; 50; 77; 104; 131; 45; 72; 99; 126; 55; 82; 109; 136; 5; 13; 34;
   8; 16; 17; 22; 23; 24; 25; 26; 6; 14; 7; 15; 60; 87; 114; 46; 73; 100; 127; 44; 71; 98; 125;
   33; 49; 76; 103; 130; 59; 86; 113; 57; 84; 111].

Definition CLASS2_POS : list nat :=
  [18; 19; 20; 21; 31; 32; 53; 80; 107; 134; 1; 2; 3; 4; 9; 10; 11; 12; 27; 28; 29; 30; 52; 79;
   106; 133; 51; 78; 105; 132].

(** One round of the loops: two bits, one per subframe.  The accumulator is the
    array under construction with [out_idx] (respectively [in_idx]). *)
Definition to_channel_step (codec_bits : list Z) (acc : list Z * nat) (p : nat)
  : option (list Z * nat) :=
  let '(channel, out_idx) := acc in
  let pos := p - 1 in
  x ← codec_bits !! (0 * NUM_ACELP_BITS + pos);
  channel ← array_set channel out_idx x;
  y ← codec_bits !! (1 * NUM_ACELP_BITS + pos);
  channel ← array_set channel (out_idx + 1) y;
  Some (channel, out_idx + 2).

Definition codec_to_channel (codec_bits : list Z) : option (list Z) :=
  acc ← foldM (to_channel_step codec_bits) CLASS0_POS (replicate 274 0%Z, 0);
  acc ← foldM (to_channel_step codec_bits) CLASS1_POS acc;
  acc ← foldM (to_channel_step codec_bits) CLASS2_POS acc;
  Some acc.1.

Definition to_codec_step (channel_bits : list Z) (acc : list Z * nat) (p : nat)
  : option (list Z * nat) :=
  let '(codec, in_idx) := acc in
  let pos := p - 1 in
  x ← channel_bits !! in_idx;
  codec ← array_set codec (0 * NUM_ACELP_BITS + pos) x;
  y ← channel_bits !! (in_idx + 1);
  codec ← array_set codec (1 * NUM_ACELP_BITS + pos) y;
  Some (codec, in_idx + 2).

Definition channel_to_codec (channel_bits : list Z) : option (list Z) :=
  acc ← foldM (to_codec_step channel_bits) CLASS0_POS (replicate 274 0%Z, 0);
  acc ← foldM (to_codec_step channel_bits) CLASS1_POS acc;
  acc ← foldM (to_codec_step channel_bits) CLASS2_POS acc;
  Some acc.1.

(** ** The tables as one permutation *)

Definition positions : list nat := CLASS0_POS ++ CLASS1_POS ++ CLASS2_POS.

(** The pairs (channel index, codec index) in the order the loops visit them. *)
Fixpoint wiring (ps : list nat) (idx : nat) : list (nat * nat) :=
  match ps with
  | [] => []
  | p :: ps' => (idx, p - 1) :: (idx + 1, NUM_ACELP_BITS + (p - 1)) :: wiring ps' (idx + 2)
  end.

Lemma to_channel_wiring codec ps : forall ch idx,
  foldM (to_channel_step codec) ps (ch, idx)
  = out ← for_copy (wiring ps idx) snd fst codec ch; Some (out, idx + 2 * length ps).
Proof.
  induction ps as [|p ps IH]; intros ch idx.
  { simpl. by rewrite Nat.add_0_r. }
  unfold for_copy in *. cbn [wiring foldM to_channel_step]. unfold to_channel_step at 1.
  cbn [fst snd]. rewrite Nat.mul_0_l, Nat.add_0_l, Nat.mul_1_l.
  destruct (codec !! (p - 1)); [|done]. cbn [mbind option_bind].
  destruct (array_set ch idx z) as [ch1|]; [|done]. cbn [mbind option_bind].
  destruct (codec !! _); [|done]. cbn [mbind option_bind].
  destruct (array_set ch1 (idx + 1) z0) as [ch2|]; [|done]. cbn [mbind option_bind].
  rewrite IH. destruct (foldM _ _ ch2); [|done]. simpl. do 2 f_equal. lia.
Qed.

Lemma to_codec_wiring channel ps : forall co idx,
  foldM (to_codec_step channel) ps (co, idx)
  = out ← for_copy (wiring ps idx) fst snd channel co; Some (out, idx + 2 * length ps).
Proof.
  induction ps as [|p ps IH]; intros co idx.
  { simpl. by rewrite Nat.add_0_r. }
  unfold for_copy in *. cbn [wiring foldM to_codec_step]. unfold to_codec_step at 1.
  cbn [fst snd]. rewrite Nat.mul_0_l, Nat.add_0_l, Nat.mul_1_l.
  destruct (channel !! idx); [|done]. cbn [mbind option_bind].
  destruct (array_set co (p - 1) z) as [co1|]; [|done]. cbn [mbind option_bind].
  destruct (channel !! (idx + 1)); [|done]. cbn [mbind option_bind].
  destruct (array_set co1 _ z0) as [co2|]; [|done]. cbn [mbind option_bind].
  rewrite IH. destruct (foldM _ _ co2); [|done]. simpl. do 2 f_equal. lia.
Qed.

(** The three loops in sequence are one loop over the whole table. *)
Lemma codec_to_channel_copy codec :
  codec_to_channel codec = for_copy (wiring positions 0) snd fst codec (replicate 274 0%Z).
Proof.
  transitivity (acc ← foldM (to_channel_step codec) positions (replicate 274 0%Z, 0); Some acc.1).
  - unfold positions, codec_to_channel. rewrite !foldM_app.
    destruct (foldM _ CLASS0_POS _); [|done]. cbn [mbind option_bind].
    rewrite foldM_app. by destruct (foldM _ CLASS1_POS _).
  - rewrite to_channel_wiring. by destruct (for_copy _ _ _ _ _).
Qed.

Lemma channel_to_codec_copy channel :
  channel_to_codec channel = for_copy (wiring positions 0) fst snd channel (replicate 274 0%Z).
Proof.
  transitivity (acc ← foldM (to_codec_step channel) positions (replicate 274 0%Z, 0); Some acc.1).
  - unfold positions, channel_to_codec. rewrite !foldM_app.
    destruct (foldM _ CLASS0_POS _); [|done]. cbn [mbind option_bind].
    rewrite foldM_app. by destruct (foldM _ CLASS1_POS _).
  - rewrite to_codec_wiring. by destruct (for_copy _ _ _ _ _).
Qed.

(** The inverse table: [rank !! (p - 1)] is the index of position [p]. *)
Definition rank : list nat :=
  Eval vm_compute in
    ((fun q => default 0 (list_find (fun p => p = S q) positions ≫= fun r => Some r.1))
       <$> seq 0 137).

(** Entry [k] of a two-per-round wiring. *)
Lemma elem_of_wiring ps : forall idx c k,
  (c, k) ∈ wiring ps idx <->
  exists i p s, ps !! i = Some p /\ s < 2 /\ c = idx + 2 * i + s /\ k = s * NUM_ACELP_BITS + (p - 1).
Proof.
  induction ps as [|p ps IH]; intros idx c k; cbn [wiring].
  { rewrite elem_of_nil. split; [done|]. intros (i & p & s & H & _). done. }
  rewrite !elem_of_cons, IH. split.
  - intros [E|[E|(i & q & s & H & Hs & -> & ->)]].
    + injection E as -> ->. exists 0, p, 0. simpl. split_and!; try done; lia.
    + injection E as -> ->. exists 0, p, 1. rewrite Nat.mul_1_l. simpl. split_and!; try done; lia.
    + exists (S i), q, s. split_and!; try done; lia.
  - intros ([|i] & q & s & H & Hs & -> & ->).
    + simpl in H. injection H as ->. destruct s as [|[|s]]; [left|right; left|lia].
      * f_equal; lia.
      * rewrite Nat.mul_1_l. f_equal; lia.
    + right. right. exists i, q, s. split_and!; try done; lia.
Qed.

Lemma length_wiring ps idx : length (wiring ps idx) = 2 * length ps.
Proof. revert idx; induction ps; intros idx; simpl; [done|]. rewrite IHps. lia. Qed.

Definition rank_ok : bool :=
  forallb (fun i => match positions !! i with
                    | Some p => (0 <? p) && (p <=? 137) && bool_decide (rank !! (p - 1) = Some i)
                    | None => false
                    end) (seq 0 137)
  && forallb (fun q => match rank !! q with
                       | Some i => bool_decide (positions !! i = Some (S q))
                       | None => false
                       end) (seq 0 137).

Lemma rank_checked : rank_ok = true.
Proof. vm_compute. reflexivity. Qed.

(** Every position is in the table, at one index only. *)
Lemma positions_range i p : positions !! i = Some p -> 1 <= p <= 137 /\ rank !! (p - 1) = Some i.
Proof.
  intros H. pose proof (lookup_lt_Some _ _ _ H) as Hi. change (length positions) with 137 in Hi.
  pose proof rank_checked as Hr. unfold rank_ok in Hr. apply andb_true_iff in Hr as [Hr _].
  rewrite forallb_forall in Hr. specialize (Hr i). rewrite in_seq, H in Hr.
  specialize (Hr ltac:(lia)). rewrite !andb_true_iff, Nat.ltb_lt, Nat.leb_le in Hr.
  destruct Hr as [[? ?] Hb]. apply bool_decide_eq_true in Hb. lia || (split; [lia|done]).
Qed.

Lemma positions_cover q : q < 137 -> exists i, positions !! i = Some (S q).
Proof.
  intros Hq. pose proof rank_checked as Hr. unfold rank_ok in Hr.
  apply andb_true_iff in Hr as [_ Hr]. rewrite forallb_forall in Hr. specialize (Hr q).
  rewrite in_seq in Hr. specialize (Hr ltac:(lia)). destruct (rank !! q) as [i|]; [|done].
  exists i. by apply bool_decide_eq_true in Hr.
Qed.

Lemma positions_inj i j p : positions !! i = Some p -> positions !! j = Some p -> i = j.
Proof.
  intros Hi Hj. apply positions_range in Hi as [_ Hi], Hj as [_ Hj]. congruence.
Qed.

Lemma wiring_fst ps : forall idx, (wiring ps idx).*1 = seq idx (2 * length ps).
Proof.
  induction ps as [|p ps IH]; intros idx; [done|].
  replace (2 * length (p :: ps)) with (S (S (2 * length ps))) by (simpl; lia).
  cbn [wiring fmap list_fmap seq fst]. rewrite IH. repeat f_equal; lia.
Qed.

Lemma NoDup_wiring_snd : NoDup (wiring positions 0).*2.
Proof.
  apply NoDup_fmap_2_strong.
  - intros [c k] [c' k'] Hc Hc' E. simpl in E. subst k'.
    apply elem_of_wiring in Hc as (i & p & s & Hp & Hs & -> & ->).
    apply elem_of_wiring in Hc' as (j & q & t & Hq & Ht & -> & E).
    pose proof (positions_range _ _ Hp) as [? _]. pose proof (positions_range _ _ Hq) as [? _].
    unfold NUM_ACELP_BITS in *.
    assert (s = t /\ p = q) as [-> ->] by nia. by rewrite (positions_inj i j q).
  - eapply (NoDup_fmap_1 fst). rewrite wiring_fst. apply NoDup_seq.
Qed.

Lemma wiring_range c k : (c, k) ∈ wiring positions 0 -> c < 274 /\ k < 274.
Proof.
  intros (i & p & s & Hp & Hs & -> & ->)%elem_of_wiring.
  pose proof (positions_range _ _ Hp) as [? _].
  pose proof (lookup_lt_Some _ _ _ Hp) as Hi. change (length positions) with 137 in Hi.
  unfold NUM_ACELP_BITS. nia.
Qed.

(** Every index of either side is wired. *)
Lemma wiring_codec k : k < 274 -> exists c, (c, k) ∈ wiring positions 0.
Proof.
  intros Hk. destruct (positions_cover (k mod 137)) as [i Hi].
  { by apply Nat.mod_upper_bound. }
  exists (0 + 2 * i + k / 137). apply elem_of_wiring. exists i, (S (k mod 137)), (k / 137).
  split_and!; [done|divlia|done|]. unfold NUM_ACELP_BITS. divlia.
Qed.

Lemma wiring_channel c : c < 274 -> exists k, (c, k) ∈ wiring positions 0.
Proof.
  intros Hc. destruct (lookup_lt_is_Some_2 positions (c / 2)) as [p Hp].
  { change (length positions) with 137. divlia. }
  exists ((c mod 2) * NUM_ACELP_BITS + (p - 1)). apply elem_of_wiring. exists (c / 2), p, (c mod 2).
  split_and!; [done|divlia|divlia|done].
Qed.

Lemma codec_to_channel_spec codec :
  length codec = 274 ->
  exists channel, codec_to_channel codec = Some channel /\ length channel = 274 /\
    (forall c k, (c, k) ∈ wiring positions 0 -> channel !! c = codec !! k).
Proof.
  intros Hl. rewrite codec_to_channel_copy.
  destruct (for_copy_spec (wiring positions 0) snd fst codec (replicate 274 0%Z))
    as (out & E & L & Hin & _).
  - rewrite wiring_fst. apply NoDup_seq.
  - apply Forall_forall. intros [c k] Hck. apply wiring_range in Hck. simpl. lia.
  - apply Forall_forall. intros [c k] Hck. apply wiring_range in Hck.
    rewrite length_replicate. simpl. lia.
  - exists out. rewrite length_replicate in L. split_and!; try done.
    intros c k Hck. by apply (Hin (c, k)).
Qed.

Lemma channel_to_codec_spec channel :
  length channel = 274 ->
  exists codec, channel_to_codec channel = Some codec /\ length codec = 274 /\
    (forall c k, (c, k) ∈ wiring positions 0 -> codec !! k = channel !! c).
Proof.
  intros Hl. rewrite channel_to_codec_copy.
  destruct (for_copy_spec (wiring positions 0) fst snd channel (replicate 274 0%Z))
    as (out & E & L & Hin & _).
  - apply NoDup_wiring_snd.
  - apply Forall_forall. intros [c k] Hck. apply wiring_range in Hck. simpl. lia.
  - apply Forall_forall. intros [c k] Hck. apply wiring_range in Hck.
    rewrite length_replicate. simpl. lia.
  - exists out. rewrite length_replicate in L. split_and!; try done.
    intros c k Hck. by apply (Hin (c, k)).
Qed.

Lemma codec_channel_codec codec :
  length codec = 274 ->
  exists channel, codec_to_channel codec = Some channel /\ length channel = 274 /\
    channel_to_codec channel = Some codec.
Proof.
  intros Hl. destruct (codec_to_channel_spec codec Hl) as (ch & E & L & H).
  destruct (channel_to_codec_spec ch L) as (co & E' & L' & H').
  exists ch. split_and!; try done. rewrite E'. f_equal. apply list_eq. intros k.
  destruct (decide (k < 274)) as [Hk|Hk].
  - destruct (wiring_codec k Hk) as [c Hc]. by rewrite (H' c k Hc), (H c k Hc).
  - by rewrite !lookup_ge_None_2 by lia.
Qed.

Lemma channel_codec_channel channel :
  length channel = 274 ->
  exists codec, channel_to_codec channel = Some codec /\ length codec = 274 /\
    codec_to_channel codec = Some channel.
Proof.
  intros Hl. destruct (channel_to_codec_spec channel Hl) as (co & E & L & H).
  destruct (codec_to_channel_spec co L) as (ch & E' & L' & H').
  exists co. split_and!; try done. rewrite E'. f_equal. apply list_eq. intros c.
  destruct (decide (c < 274)) as [Hc|Hc].
  - destruct (wiring_channel c Hc) as [k Hk]. by rewrite (H' c k Hk), (H c k Hk).
  - by rewrite !lookup_ge_None_2 by lia.
Qed.
