(* ===== verification/ErrorControl.v ===== *)
(** * Channel coding chains
      (crates/tetra-entities/src/lmac/components/errorcontrol.rs and
       errorcontrol_params.rs, crates/tetra-saps/src/tmv/enums/logical_chans.rs)

    [encode_cp]/[decode_cp] for the signalling channels, [encode_tp]/[decode_tp]
    for speech and [encode_aach]/[decode_aach], composed from the scrambler, the
    interleavers, the convolutional code, the CRCs and the Reed-Muller code.
    Each decoder inverts its encoder.  In the results [None] is a panic and
    [Some None] a dropped block. *)

From Stdlib Require Import ZArith Lia ZifyNat.
From S2P Require Import Prelude BitBuffer BitBufferFacts Scrambler Interleaver ConvCode.
From S2P Require Import Viterbi Crc Rm3014 TchReorder.

(** ** Logical channels *)

Inductive LogicalChannel :=
  | Aach | SchHd | SchF | Stch | SchHu | TchS | Tch24 | Tch48 | Tch72 | Bsch | Bnch | Blch | Clch.

#[export] Instance LogicalChannel_eq_dec : EqDecision LogicalChannel.
Proof. solve_decision. Defined.

Definition is_traffic (self : LogicalChannel) : bool :=
  match self with TchS | Tch24 | Tch48 | Tch72 => true | _ => false end.

Definition is_control_channel (self : LogicalChannel) : bool :=
  match self with
  | Aach | Bsch | Bnch | SchHd | SchF | Stch | SchHu => true
  | _ => false
  end.

Definition is_linearization_channel (self : LogicalChannel) : bool :=
  bool_decide (self = Clch) || bool_decide (self = Blch).

Definition is_dl_channel (self : LogicalChannel) : bool :=
  match self with
  | Aach | SchHd | SchF | Stch | Bsch | Bnch | Blch | TchS | Tch24 | Tch48 | Tch72 => true
  | SchHu | Clch => false
  end.

Definition is_ul_channel (self : LogicalChannel) : bool :=
  match self with
  | SchHu | SchF | Stch | Clch | TchS | Tch24 | Tch48 | Tch72 => true
  | Aach | SchHd | Bsch | Bnch | Blch => false
  end.

(** ** Parameters *)

Record ErrorControlParams := {
  type345_bits : nat;
  type2_bits : nat;
  type1_bits : nat;
  interleave_a : nat;
  have_crc16 : bool
}.

Definition BSCH_PARAMS : ErrorControlParams :=
  {| type345_bits := 120; type2_bits := 80; type1_bits := 60; interleave_a := 11;
     have_crc16 := true |}.
Definition SCH_HD_PARAMS : ErrorControlParams :=
  {| type345_bits := 216; type2_bits := 144; type1_bits := 124; interleave_a := 101;
     have_crc16 := true |}.
Definition AACH_PARAMS : ErrorControlParams :=
  {| type345_bits := 30; type2_bits := 30; type1_bits := 14; interleave_a := 0;
     have_crc16 := false |}.
Definition SCH_F_PARAMS : ErrorControlParams :=
  {| type345_bits := 432; type2_bits := 288; type1_bits := 268; interleave_a := 103;
     have_crc16 := true |}.
Definition SCH_HU_PARAMS : ErrorControlParams :=
  {| type345_bits := 168; type2_bits := 112; type1_bits := 92; interleave_a := 13;
     have_crc16 := true |}.
Definition TCH_S_PARAMS : ErrorControlParams :=
  {| type345_bits := 432; type2_bits := 288; type1_bits := 274; interleave_a := 103;
     have_crc16 := false |}.

Definition get_params (lchan : LogicalChannel) : option ErrorControlParams :=
  match lchan with
  | Bsch => Some BSCH_PARAMS
  | SchHd | Stch | Bnch => Some SCH_HD_PARAMS
  | Aach => Some AACH_PARAMS
  | SchF => Some SCH_F_PARAMS
  | SchHu => Some SCH_HU_PARAMS
  | TchS => Some TCH_S_PARAMS
  | Tch24 | Tch48 | Tch72 => None
  | Blch | Clch => None
  end.

(** ** Primitives *)

Inductive PhyBlockType := BBK | SB1 | SB2 | NDB | NUB | SSN1 | SSN2.

#[export] Instance PhyBlockType_eq_dec : EqDecision PhyBlockType.
Proof. solve_decision. Defined.

Record TmvUnitdataReq := {
  mac_block : BitBuffer;
  logical_channel : LogicalChannel;
  scrambling_code : Z
}.

(** The fields the decoders look at. *)
Record TpUnitdataInd := {
  block_type : PhyBlockType;
  block : BitBuffer
}.

(** ** Signalling channels *)

Definition MAX_TYPE1_BITS : nat := 274.
Definition MAX_TYPE2_BITS : nat := 288.
Definition MAX_TYPE345_BITS : nat := 432.
Definition MAX_TYPE345_HALFSLOT_BITS : nat := 216.

Definition u16_not (x : Z) : Z := u16 (Z.lnot x).

(** A [&mut BitBuffer] call whose result is used: a panic stays a panic. *)
Definition call {A} (m : M A) (b : BitBuffer) : option (A * BitBuffer) :=
  match m b with Ok a b' => Some (a, b') | Err _ _ | Panic => None end.

Definition encode_cp (prim : TmvUnitdataReq) : option (option BitBuffer) :=
  let lchan := logical_channel prim in
  if negb (is_control_channel lchan) || bool_decide (lchan = Aach) then Some None else
  match get_params lchan with
  | None => Some None
  | Some params =>
      if negb (get_len (mac_block prim) =? type1_bits params) then Some None else
      '(_, mac) ← call (seek 0) (mac_block prim);
      '(type1, _) ← call (to_bitarr (type1_bits params)) mac;
      type2_arr ← splice (replicate MAX_TYPE2_BITS 0%Z) 0 type1;
      if negb (have_crc16 params) then Some None else
      data ← slice type2_arr 0 (type1_bits params);
      let crc := u16_not (crc16_ccitt_bits data (type1_bits params)) in
      type2_arr ← foldM (fun arr i =>
                    array_set arr (type1_bits params + i)
                      (u8 (Z.land (Z.shiftr crc (Z.of_nat (15 - i))) 1))) (seq 0 16) type2_arr;
      type2 ← slice type2_arr 0 (type2_bits params);
      '(_, type3dp_arr) ← encode enc_new type2 (replicate (MAX_TYPE345_BITS * 4) 0%Z);
      type3_arr ← get_punctured_rate Rate2_3 type3dp_arr (replicate MAX_TYPE345_BITS 0%Z);
      type4_arr ← block_interleave (type345_bits params) (interleave_a params) type3_arr
                    (replicate MAX_TYPE345_BITS 0%Z);
      type4_bits ← slice type4_arr 0 (type345_bits params);
      type4 ← from_bitarr type4_bits;
      '(_, type5) ← call (tetra_scramb_bits (scrambling_code prim)) type4;
      Some (Some type5)
  end.

Definition decode_cp (lchan : LogicalChannel) (prim : TpUnitdataInd)
  (default_scramb_code : option Z) : option (option BitBuffer * bool) :=
  if negb (is_control_channel lchan) || bool_decide (lchan = Aach) then Some (None, false) else
  match get_params lchan with
  | None => Some (None, false)
  | Some params =>
      let type5 := block prim in
      match (if bool_decide (block_type prim = SB1) then Some SCRAMB_INIT
             else default_scramb_code) with
      | None => Some (None, false)
      | Some scrambling_code =>
          '(_, type4) ← call (tetra_scramb_bits scrambling_code) type5;
          '(type4_bits, _) ← call (to_bitarr (type345_bits params)) type4;
          type4_arr ← splice (replicate MAX_TYPE345_BITS 0%Z) 0 type4_bits;
          type3_arr ← block_deinterleave (type345_bits params) (interleave_a params) type4_arr
                        (replicate MAX_TYPE345_BITS 0%Z);
          type3dp_arr ← tetra_rcpc_depunct Rate2_3 type3_arr (type345_bits params)
                          (replicate (MAX_TYPE345_BITS * 4) 255%Z);
          type2_arr ← dec_sb1 type3dp_arr (replicate MAX_TYPE2_BITS 0%Z) (type2_bits params);
          if negb (have_crc16 params) then Some (None, false) else
          type1_arr ← slice type2_arr 0 (type1_bits params);
          let crc := crc16_ccitt_bits type2_arr (type1_bits params + 16) in
          let crc_ok := (crc =? TETRA_CRC_OK)%Z in
          type1bits ← from_bitarr type1_arr;
          Some (Some type1bits, crc_ok)
      end
  end.

(** ** Speech *)

(** One reduction round of [speech_crc] at degree [d]. *)
Definition crc7_step (w : list Z) (d : nat) : list Z :=
  if (w !!! d =? 1)%Z
  then
    let w := <[d := Z.lxor (w !!! d) 1]> w in
    let w := <[d - 4 := Z.lxor (w !!! (d - 4)) 1]> w in
    <[d - 7 := Z.lxor (w !!! (d - 7)) 1]> w
  else w.

(** [speech_crc] of 60 bits; a shorter slice panics when it is indexed. *)
Definition speech_crc (class2_bits : list Z) : option (list Z) :=
  data ← slice class2_bits 0 60;
  let w := replicate 7 0%Z ++ ((fun x => Z.land x 1) <$> data) in
  let w := foldl crc7_step w (rev (seq 7 60)) in
  let result := take 7 w in
  let parity := foldl (fun p bit => Z.lxor p (Z.land bit 1)) 0%Z class2_bits in
  let parity := foldl Z.lxor parity result in
  Some (result ++ [parity]).

Definition CLASS0_BITS : nat := 102.
Definition CLASS1_BITS : nat := 112.
Definition CLASS2_BITS : nat := 60.
Definition CLASS2_TYPE2 : nat := 72.
Definition CLASS1_TYPE3 : nat := 168.
Definition CLASS2_TYPE3 : nat := 162.

(** Class 1: 112 bits through the speech encoder, punctured to 168. *)
Definition encode_class1 (ces : ConvEncState) (type1_arr : list Z)
  : option (ConvEncState * list Z) :=
  class1_input ← slice type1_arr CLASS0_BITS (CLASS0_BITS + CLASS1_BITS);
  '(ces, mother_buf) ← speech_encode ces class1_input (replicate (CLASS1_BITS * 3) 0%Z);
  punct_buf ← get_punctured_rate Rate112_168 mother_buf (replicate 168 0%Z);
  Some (ces, punct_buf).

(** Class 2: 60 bits, 8 check bits and 4 tail bits, punctured to 162. *)
Definition encode_class2 (ces : ConvEncState) (type1_arr : list Z) : option (list Z) :=
  let class2_start := CLASS0_BITS + CLASS1_BITS in
  class2_data ← slice type1_arr class2_start (class2_start + CLASS2_BITS);
  class2_type2 ← splice (replicate CLASS2_TYPE2 0%Z) 0 class2_data;
  crc_bits ← speech_crc class2_data;
  class2_type2 ← splice class2_type2 CLASS2_BITS crc_bits;
  '(_, mother_buf) ← speech_encode ces class2_type2 (replicate (CLASS2_TYPE2 * 3) 0%Z);
  get_punctured_rate Rate72_162 mother_buf (replicate 162 0%Z).

Definition encode_tp (prim : TmvUnitdataReq) (blk_num : Z) : option (option BitBuffer) :=
  let lchan := logical_channel prim in
  if negb (bool_decide (lchan = TchS)) then Some None else
  match get_params lchan with
  | None => Some None
  | Some params =>
      '(_, mac) ← call (seek 0) (mac_block prim);
      let type1_len := Nat.min (get_len mac) (type1_bits params) in
      '(type1, _) ← call (to_bitarr type1_len) mac;
      type1_arr ← splice (replicate MAX_TYPE1_BITS 0%Z) 0 type1;
      type1_arr ← (if bool_decide (lchan = TchS) && (type1_len =? 274)
                   then codec_bits ← slice type1_arr 0 274;
                        channel_bits ← codec_to_channel codec_bits;
                        splice type1_arr 0 channel_bits
                   else Some type1_arr);
      class0 ← slice type1_arr 0 CLASS0_BITS;
      type3_arr ← splice (replicate MAX_TYPE345_BITS 0%Z) 0 class0;
      '(ces, punct1) ← encode_class1 enc_new type1_arr;
      type3_arr ← splice type3_arr CLASS0_BITS punct1;
      punct2 ← encode_class2 ces type1_arr;
      type3_arr ← splice type3_arr (CLASS0_BITS + 168) punct2;
      type4_arr ← matrix_interleave 24 18 type3_arr (replicate MAX_TYPE345_BITS 0%Z);
      type4_bits ← slice type4_arr 0 (type345_bits params);
      type4 ← from_bitarr type4_bits;
      '(_, type4) ← call (tetra_scramb_bits (scrambling_code prim)) type4;
      if (blk_num =? 1)%Z then Some (Some type4)
      else
        '(_, type4) ← call (seek 0) type4;
        '(full, _) ← call (to_bitarr (type345_bits params)) type4;
        full_arr ← splice (replicate MAX_TYPE345_BITS 0%Z) 0 full;
        half ← slice full_arr MAX_TYPE345_HALFSLOT_BITS (type345_bits params);
        half_buf ← from_bitarr half;
        Some (Some half_buf)
  end.

(** The soft values of [decode_tp]. *)
Definition speech_soft (b : Z) : Z :=
  if (b =? 0)%Z then (-1)%Z else if (b =? 1)%Z then 1%Z else 0%Z.

(** Depuncture both classes and decode them as one stream. *)
Definition decode_classes (type3_arr : list Z) : option (list Z) :=
  class1_type3 ← slice type3_arr CLASS0_BITS (CLASS0_BITS + CLASS1_TYPE3);
  mother_class1 ← tetra_rcpc_depunct Rate112_168 class1_type3 CLASS1_TYPE3
                    (replicate (CLASS1_BITS * 3) 255%Z);
  class2_type3 ← slice type3_arr (CLASS0_BITS + CLASS1_TYPE3)
                   (CLASS0_BITS + CLASS1_TYPE3 + CLASS2_TYPE3);
  mother_class2 ← tetra_rcpc_depunct Rate72_162 class2_type3 CLASS2_TYPE3
                    (replicate (CLASS2_TYPE2 * 3) 255%Z);
  combined ← splice (replicate ((CLASS1_BITS + CLASS2_TYPE2) * 3) 255%Z) 0 mother_class1;
  combined ← splice combined (CLASS1_BITS * 3) mother_class2;
  Some (decode TetraCodecViterbiDecoder_new (speech_soft <$> combined)).

(** From type-3 bits to the 274 channel-order bits and the class-2 CRC verdict. *)
Definition decode_type3 (type3_arr : list Z) : option (list Z * bool) :=
  class0 ← slice type3_arr 0 CLASS0_BITS;
  type1_arr ← splice (replicate MAX_TYPE1_BITS 0%Z) 0 class0;
  decoded ← decode_classes type3_arr;
  class1 ← slice decoded 0 CLASS1_BITS;
  type1_arr ← splice type1_arr CLASS0_BITS class1;
  class2_decoded ← slice decoded CLASS1_BITS (length decoded);
  data ← slice class2_decoded 0 CLASS2_BITS;
  received_crc ← slice class2_decoded CLASS2_BITS (CLASS2_BITS + 8);
  expected_crc ← speech_crc data;
  let crc_ok := bool_decide (expected_crc = received_crc) in
  type1_arr ← splice type1_arr (CLASS0_BITS + CLASS1_BITS) data;
  Some (type1_arr, crc_ok).

Definition decode_tp (lchan : LogicalChannel) (type5_block : BitBuffer) (scrambling_code : Z)
  : option (option BitBuffer * bool) :=
  if negb (bool_decide (lchan = TchS)) then Some (None, false) else
  match get_params lchan with
  | None => Some (None, false)
  | Some params =>
      '(_, type4) ← call (tetra_scramb_bits scrambling_code) type5_block;
      '(_, type4) ← call (seek 0) type4;
      '(type4_bits, _) ← call (to_bitarr (type345_bits params)) type4;
      type4_arr ← splice (replicate MAX_TYPE345_BITS 0%Z) 0 type4_bits;
      type3_arr ← matrix_deinterleave 24 18 type4_arr (replicate MAX_TYPE345_BITS 0%Z);
      '(type1_arr, crc_ok) ← decode_type3 type3_arr;
      channel_bits ← slice type1_arr 0 274;
      codec_bits ← channel_to_codec channel_bits;
      result ← from_bitarr codec_bits;
      Some (Some result, crc_ok)
  end.

(** ** Access assignment channel *)

Definition encode_aach (buf : BitBuffer) (scrambling_code : Z) : option BitBuffer :=
  if negb (get_len_remaining buf =? 14) then None else
  '(v, _) ← call (unwrap (read_bits 14)) buf;
  let type1_int := u16 v in
  let type2_int := tetra_rm3014_compute type1_int in
  '(_, type2) ← call (write_bits type2_int 30) (new 30);
  '(_, type2) ← call (seek 0) type2;
  '(_, type5) ← call (tetra_scramb_bits scrambling_code) type2;
  Some type5.

Definition decode_aach (buf : BitBuffer) (scrambling_code : Z) : option BitBuffer :=
  if negb (get_len_remaining buf =? 30) then None else
  '(_, type2) ← call (tetra_scramb_bits scrambling_code) buf;
  '(v, type2) ← call (unwrap (read_bits 30)) type2;
  let x := u32 v in
  let y := tetra_rm3014_decode_limited_ecc x in
  '(_, type1) ← call (set_raw_start 0) type2;
  '(_, type1) ← call (set_raw_pos 0) type1;
  '(_, type1) ← call (set_raw_end 14) type1;
  '(_, type1) ← call (write_bits y 14) type1;
  '(_, type1) ← call (seek 0) type1;
  Some type1.

(** ** Calls on a buffer that holds a bit string *)

Lemma call_seek0 b bs : holds b bs -> call (seek 0) b = Some (tt, b).
Proof.
  intros [[Wb Ws Wp We] Hp Hw]. unfold call, seek. rewrite Nat.add_0_r.
  btrue (start b <=? end_ b). rewrite <- Hp. by destruct b.
Qed.

(** Rewinding a well-formed buffer, wherever its cursor was. *)
Lemma call_rewind b :
  wf b -> call (seek 0) b = Some (tt, with_pos b (start b)) /\
          holds (with_pos b (start b)) (window b).
Proof.
  intros [Wb Ws Wp We]. split.
  - unfold call, seek. rewrite Nat.add_0_r. by btrue (start b <=? end_ b).
  - split; [constructor; simpl; try done; lia|done|done].
Qed.

Lemma call_to_bitarr b bs n :
  holds b bs -> n = length bs -> exists b', call (to_bitarr n) b = Some (b2z <$> bs, b').
Proof.
  intros H ->. unfold call. rewrite (to_bitarr_parses bs []).
  - eauto.
  - apply H.
  - rewrite app_nil_r. by apply holds_remaining.
Qed.

Lemma call_scramb code b bs :
  holds b bs ->
  exists b', call (tetra_scramb_bits code) b = Some (tt, b') /\
    call (tetra_scramb_bits code) b' = Some (tt, b) /\
    holds b' (zip_with xorb bs (keystream code (length bs))).
Proof.
  intros H. pose proof H as [W Hp Hw].
  destruct (tetra_scramb_bits_spec code b W) as (b' & E & W' & P & _).
  pose proof (scramb_remaining code b b' W E) as Hr.
  pose proof (scramb_scramb code b b' W E) as E'.
  exists b'. unfold call. rewrite E, E'. split_and!; try done.
  injection P as Hs Hp' He _ _. split; [done|congruence|].
  rewrite (holds_remaining b bs H) in Hr. rewrite <- Hr. unfold window, remaining. congruence.
Qed.

Lemma length_keystream_xor bs code :
  length (zip_with xorb bs (keystream code (length bs))) = length bs.
Proof. rewrite length_zip_with, length_keystream. lia. Qed.

(** ** Array bookkeeping *)

Lemma splice_front {A} (x : A) n (l : list A) :
  length l <= n -> splice (replicate n x) 0 l = Some (l ++ replicate (n - length l) x).
Proof.
  intros H. replace n with (length l + (n - length l)) at 1 by lia.
  rewrite replicate_add.
  pose proof (splice_app [] (replicate (length l) x) (replicate (n - length l) x) l) as E.
  cbn [app length] in E. apply E. apply length_replicate.
Qed.

Lemma slice_front {A} (l post : list A) n : length l = n -> slice (l ++ post) 0 n = Some l.
Proof.
  intros <-. unfold slice. rewrite length_app. btrue (0 <=? length l).
  btrue (length l <=? length l + length post). simpl.
  by rewrite Nat.sub_0_r, drop_0, take_app_length.
Qed.

(** Any middle piece. *)
Lemma slice_mid {A} (pre l post : list A) i j :
  length pre = i -> length pre + length l = j -> slice (pre ++ l ++ post) i j = Some l.
Proof.
  intros <- <-. unfold slice. rewrite !length_app. btrue (length pre <=? length pre + length l).
  btrue (length pre + length l <=? length pre + (length l + length post)). simpl.
  rewrite drop_app_length. replace (length pre + length l - length pre) with (length l) by lia.
  by rewrite take_app_length.
Qed.

Lemma slice_end {A} (pre l : list A) i j :
  length pre = i -> length pre + length l = j -> slice (pre ++ l) i j = Some l.
Proof. intros Hi Hj. pose proof (slice_mid pre l [] i j Hi Hj) as E. by rewrite app_nil_r in E. Qed.

Lemma splice_end {A} (pre old src : list A) i :
  length pre = i -> length old = length src -> splice (pre ++ old) i src = Some (pre ++ src).
Proof.
  intros <- H. pose proof (splice_app pre old [] src H) as E. by rewrite !app_nil_r in E.
Qed.

(** The loop that stores the 16 CRC bits. *)
Lemma store_crc (pre old post : list Z) v off :
  length pre = off -> length old = 16 ->
  foldM (fun arr i => array_set arr (off + i) (u8 (Z.land (Z.shiftr v (Z.of_nat (15 - i))) 1)))
    (seq 0 16) (pre ++ old ++ post)
  = Some (pre ++ (b2z <$> val_bits 16 v) ++ post).
Proof.
  intros <- Ho.
  assert (H : forall n k pre' old', length old' = n -> k + n = 16 ->
    length pre' = length pre + k ->
    foldM (fun arr i => array_set arr (length pre + i)
             (u8 (Z.land (Z.shiftr v (Z.of_nat (15 - i))) 1))) (seq k n) (pre' ++ old' ++ post)
    = Some (pre' ++ (b2z <$> val_bits n v) ++ post)).
  { induction n as [|n IH]; intros k pre' old' Hl Hk Hp.
    - destruct old'; [done|simpl in Hl; lia].
    - destruct old' as [|x old']; [simpl in Hl; lia|]. cbn [seq foldM].
      rewrite <- Hp. cbn [app]. rewrite array_set_app. cbn [mbind option_bind].
      rewrite land_shiftr_1, u8_b2z.
      rewrite (app_assoc pre' [_] (old' ++ post) : pre' ++ _ :: old' ++ post = _), (IH (S k) _ old').
      + rewrite val_bits_S. replace (15 - k) with n by lia. by rewrite <- app_assoc.
      + simpl in Hl. lia.
      + lia.
      + rewrite length_app. simpl. lia. }
  apply (H 16 0 pre old); lia.
Qed.

(** ** The signalling chain on bit strings *)

(** What depuncturing leaves of a mother code block, seen by the Viterbi decoder:
    [n] generators, the first one never punctured. *)
Lemma depunct_received pu n (code : list bool) (tail out : list Z) m len N :
  (forall q, out !! q = ((b2z <$> code) ++ tail) !! q \/ out !! q = replicate m 255%Z !! q) ->
  (forall j, 1 <= j <= len -> out !! kept pu j = ((b2z <$> code) ++ tail) !! kept pu j) ->
  length code <= m -> length code = N * n -> 0 < n ->
  (forall i, i < N -> exists j, 1 <= j <= len /\ kept pu j = i * n) ->
  received code n out.
Proof.
  intros Hq Hj Hm HN Hn Hfirst. split.
  - intros q b Hb. pose proof (lookup_lt_Some _ _ _ Hb) as Hlt.
    destruct (Hq q) as [E|E]; rewrite E.
    + left. rewrite lookup_app_l by (by rewrite length_fmap). by rewrite list_lookup_fmap, Hb.
    + right. apply lookup_replicate_2. lia.
  - intros i b Hb. pose proof (lookup_lt_Some _ _ _ Hb) as Hlt.
    destruct (Hfirst i) as (j & Hj1 & Ej); [nia|]. rewrite <- Ej, Hj, Ej by done.
    rewrite lookup_app_l by (by rewrite length_fmap). by rewrite list_lookup_fmap, Hb.
Qed.

Lemma array_bits_zeros n : Forall is_bit (replicate n 0%Z).
Proof. apply Forall_replicate. by left. Qed.

Lemma interleave_ok lchan params :
  get_params lchan = Some params -> have_crc16 params = true ->
  0 < type345_bits params <= 432 /\ 0 < interleave_a params /\
  (Z.of_nat (type345_bits params) * Z.of_nat (interleave_a params) < 2 ^ 32)%Z /\
  Z.gcd (Z.of_nat (interleave_a params)) (Z.of_nat (type345_bits params)) = 1%Z /\
  type2_bits params = type1_bits params + 20 /\
  2 * type345_bits params = 3 * type2_bits params /\ type2_bits params <= 288.
Proof.
  intros E Hc. destruct lchan; simpl in E; try discriminate E; injection E as <-;
    simpl in Hc; try discriminate Hc; simpl; split_and!; lia || reflexivity.
Qed.

Section cp_chain.
Context (K a : nat) (m2 : list bool).
Context (HK : 0 < K <= 432) (Ha : 0 < a).
Context (HKa : (Z.of_nat K * Z.of_nat a < 2 ^ 32)%Z).
Context (Hgcd : Z.gcd (Z.of_nat a) (Z.of_nat K) = 1%Z).
Context (H23 : 2 * K = 3 * length m2) (H288 : length m2 <= 288).
Context (Hz : reg_after zeros4 m2 = zeros4).

Let mother : list Z :=
  (b2z <$> concat (conv cch_polys zeros4 m2)) ++ replicate (1728 - length m2 * 4) 0%Z.

Lemma cp_encode :
  encode enc_new (b2z <$> m2) (replicate (MAX_TYPE345_BITS * 4) 0%Z)
  = Some (enc_of (reg_after zeros4 m2), mother).
Proof.
  change enc_new with (enc_of zeros4). change (MAX_TYPE345_BITS * 4) with 1728.
  rewrite encode_conv by (rewrite ?length_replicate; done || lia).
  by rewrite drop_replicate.
Qed.

Lemma length_mother : length mother = 1728.
Proof.
  unfold mother. rewrite length_app, length_fmap, length_concat_conv, length_replicate.
  simpl. lia.
Qed.

(** Puncturing, interleaving and their inverses up to the Viterbi decoder. *)
Lemma cp_chain :
  exists t3 t4 t4bits t3' dp,
    get_punctured_rate Rate2_3 mother (replicate MAX_TYPE345_BITS 0%Z) = Some t3 /\
    block_interleave K a t3 (replicate MAX_TYPE345_BITS 0%Z) = Some t4 /\
    slice t4 0 K = Some (b2z <$> t4bits) /\ length t4bits = K /\
    splice (replicate MAX_TYPE345_BITS 0%Z) 0 (b2z <$> t4bits) = Some t4 /\
    block_deinterleave K a t4 (replicate MAX_TYPE345_BITS 0%Z) = Some t3' /\
    tetra_rcpc_depunct Rate2_3 t3' K (replicate (MAX_TYPE345_BITS * 4) 255%Z) = Some dp /\
    dec_sb1 dp (replicate MAX_TYPE2_BITS 0%Z) (length m2)
    = Some ((b2z <$> m2) ++ replicate (288 - length m2) 0%Z).
Proof.
  pose proof length_mother as Lm.
  assert (Hlast : kept Rate2_3 432 = 1148) by (vm_compute; reflexivity).
  destruct (depunct_punct Rate2_3 mother (replicate MAX_TYPE345_BITS 0%Z) K
              (replicate (MAX_TYPE345_BITS * 4) 255%Z)) as (t3 & E3 & L3 & Hdp).
  { rewrite length_replicate. unfold MAX_TYPE345_BITS. lia. }
  { rewrite length_replicate. unfold MAX_TYPE345_BITS. intros j Hj.
    pose proof (kept_bound Rate2_3 j 432 Hj). lia. }
  { rewrite length_replicate, Lm. unfold MAX_TYPE345_BITS. lia. }
  rewrite length_replicate in L3.
  destruct (block_roundtrip K a ltac:(lia) HKa Ha Hgcd t3 (replicate MAX_TYPE345_BITS 0%Z)
              (replicate MAX_TYPE345_BITS 0%Z)) as (t4 & E4 & L4 & Hd4 & E3').
  1-3: rewrite ?L3, ?length_replicate; unfold MAX_TYPE345_BITS; lia.
  rewrite length_replicate in L4.
  assert (Hbits : Forall is_bit t4).
  { eapply block_interleave_Forall; [exact E4| |apply array_bits_zeros].
    eapply punct_Forall; [exact E3| |apply array_bits_zeros].
    unfold mother. apply Forall_app. split; [apply array_of_bits|apply array_bits_zeros]. }
  destruct (bits_of_array (take K t4)) as (t4bits & Eb); [by apply Forall_take|].
  assert (L : length t4bits = K).
  { rewrite <- (length_fmap b2z t4bits), <- Eb, length_take, L4. unfold MAX_TYPE345_BITS. lia. }
  destruct (Hdp (take K t3 ++ drop K (replicate MAX_TYPE345_BITS 0%Z))) as (dp & Ed & Ld & Hj & Hq).
  { rewrite take_app_le by (rewrite length_take, L3; unfold MAX_TYPE345_BITS; lia).
    by rewrite take_take, Nat.min_id. }
  rewrite length_replicate in Ld.
  exists t3, t4, t4bits, (take K t3 ++ drop K (replicate MAX_TYPE345_BITS 0%Z)), dp.
  split_and!; try done.
  - rewrite <- (take_drop K t4), Eb. apply slice_front. by rewrite length_fmap.
  - rewrite splice_front by (rewrite length_fmap, L; unfold MAX_TYPE345_BITS; lia).
    rewrite length_fmap, L, <- drop_replicate, <- Hd4, <- Eb. by rewrite take_drop.
  - rewrite (dec_sb1_clean m2).
    + rewrite drop_replicate. done.
    + done.
    + lia.
    + rewrite Ld. unfold MAX_TYPE345_BITS. lia.
    + rewrite length_replicate. unfold MAX_TYPE2_BITS. lia.
    + eapply (depunct_received Rate2_3 4 _ (replicate (1728 - length m2 * 4) 0%Z) dp
                (MAX_TYPE345_BITS * 4) K (length m2)); try done.
      * rewrite length_concat_conv. unfold MAX_TYPE345_BITS. simpl. lia.
      * by rewrite length_concat_conv.
      * lia.
      * intros i Hi. destruct (kept_first_2_3 i) as (j & ? & ? & ?). exists j.
        split; [lia|done].
Qed.
End cp_chain.

Definition type2_block (bits : list bool) : list bool :=
  bits ++ val_bits 16 (u16_not (crc16 0xffff bits)) ++ zeros4.

Lemma reg_after_tail l : reg_after zeros4 (l ++ zeros4) = zeros4.
Proof.
  unfold reg_after. rewrite foldl_app. fold (reg_after zeros4 l).
  pose proof (length_reg_after zeros4 l eq_refl) as H. apply reg_inv in H as (x & y & z & w & ->).
  done.
Qed.

Lemma type2_block_terminated bits : reg_after zeros4 (type2_block bits) = zeros4.
Proof. unfold type2_block. rewrite app_assoc. apply reg_after_tail. Qed.

Lemma length_type2_block bits : length (type2_block bits) = length bits + 20.
Proof. unfold type2_block. rewrite !length_app, length_val_bits. simpl. lia. Qed.

Lemma u16_not_xor x : (0 <= x < 65536)%Z -> u16_not x = Z.lxor x 0xffff.
Proof.
  intros Hx. unfold u16_not. rewrite u16_land. apply Z.bits_inj'. intros i Hi.
  rewrite Z.land_spec, Z.lxor_spec, Z.lnot_spec by done. change 0xffff%Z with (Z.ones 16).
  destruct (Z.lt_ge_cases i 16).
  - rewrite Z.ones_spec_low by lia. by destruct (Z.testbit x i).
  - rewrite Z.ones_spec_high, andb_false_r, xorb_false_r by lia.
    symmetry. rewrite <- (Z.mod_small x (2 ^ 16)) by done. apply Z.mod_pow2_bits_high. lia.
Qed.

(** The received type-2 block passes the CRC check. *)
Lemma type2_crc_ok bits tail :
  crc16_ccitt_bits ((b2z <$> type2_block bits) ++ tail) (length bits + 16) = TETRA_CRC_OK.
Proof.
  set (c := val_bits 16 (u16_not (crc16 0xffff bits))).
  assert (E : take (length bits + 16) ((b2z <$> type2_block bits) ++ tail) = b2z <$> (bits ++ c)).
  { rewrite take_app_le by (rewrite length_fmap, length_type2_block; lia).
    unfold type2_block. fold c. rewrite app_assoc, fmap_app. apply take_app_length'.
    rewrite length_fmap, length_app. unfold c. by rewrite length_val_bits. }
  unfold crc16_ccitt_bits.
  pose proof (crc16_itut_bits_generic 0xffff (bits ++ c) (length (bits ++ c))) as Hg.
  rewrite firstn_all in Hg. unfold crc16_itut_bits in *. rewrite E.
  rewrite firstn_all2 in Hg by (by rewrite length_fmap). rewrite Hg. unfold c.
  rewrite u16_not_xor by (apply (reg_crc 16 GEN_POLY); try apply crc16_poly_ok; done).
  by apply crc16_residue.
Qed.

(** The type-2 array [encode_cp] builds. *)
Lemma cp_type2 bits :
  length bits + 20 <= 288 ->
  exists arr,
    splice (replicate MAX_TYPE2_BITS 0%Z) 0 (b2z <$> bits) = Some arr /\
    slice arr 0 (length bits) = Some (b2z <$> bits) /\
    let crc := u16_not (crc16_ccitt_bits (b2z <$> bits) (length bits)) in
    exists arr',
      foldM (fun arr i => array_set arr (length bits + i)
                  (u8 (Z.land (Z.shiftr crc (Z.of_nat (15 - i))) 1))) (seq 0 16) arr = Some arr' /\
      slice arr' 0 (length bits + 20) = Some (b2z <$> type2_block bits).
Proof.
  intros H. unfold MAX_TYPE2_BITS. rewrite splice_front by (rewrite length_fmap; lia).
  eexists. split; [done|]. rewrite length_fmap. split; [apply slice_front, length_fmap|].
  cbv zeta. set (crc := u16_not _).
  replace (288 - length bits) with (16 + (272 - length bits)) by lia. rewrite replicate_add.
  rewrite store_crc by (by rewrite ?length_fmap, ?length_replicate).
  eexists. split; [done|].
  replace (272 - length bits) with (4 + (268 - length bits)) by lia. rewrite replicate_add.
  rewrite !app_assoc. replace (_ ++ replicate 4 0%Z) with (b2z <$> type2_block bits).
  - apply slice_front. by rewrite length_fmap, length_type2_block.
  - unfold type2_block. rewrite !fmap_app, app_assoc. f_equal. f_equal. f_equal.
    unfold crc, crc16_ccitt_bits. by rewrite crc16_itut_bits_generic, firstn_all.
Qed.

Lemma control_params lchan params :
  get_params lchan = Some params -> have_crc16 params = true ->
  negb (is_control_channel lchan) || bool_decide (lchan = Aach) = false.
Proof.
  intros E H. destruct lchan; simpl in E; try discriminate E; try reflexivity;
    injection E as <-; discriminate H.
Qed.

Lemma encode_decode_cp_sent lchan params bits b code :
  get_params lchan = Some params -> have_crc16 params = true ->
  length bits = type1_bits params -> wf b -> window b = bits ->
  exists type5 sent,
    encode_cp {| mac_block := b; logical_channel := lchan; scrambling_code := code |}
    = Some (Some type5) /\
    holds type5 sent /\ length sent = type345_bits params /\
    forall r bt default_code,
      holds r sent -> (if bool_decide (bt = SB1) then Some SCRAMB_INIT else default_code) = Some code ->
      exists type1,
        decode_cp lchan {| block_type := bt; block := r |} default_code
        = Some (Some type1, true) /\ holds type1 bits.
Proof.
  intros Hp Hc Hl Wb Hw. destruct (call_rewind b Wb) as [Eseek Hb]. rewrite Hw in Hb.
  pose proof (control_params _ _ Hp Hc) as Hctl.
  destruct (interleave_ok lchan params Hp Hc) as (HK & Ha & HKa & Hg & H12 & H23 & H288).
  pose proof (length_type2_block bits) as L2.
  destruct (cp_type2 bits) as (arr & Earr & Edata & arr' & Earr' & Etype2); [lia|].
  destruct (cp_chain (type345_bits params) (interleave_a params) (type2_block bits))
    as (t3 & t4 & t4bits & t3' & dp & E3 & E4 & Es & Lt4 & Esp & E3' & Edp & Edec);
    try done; try lia; [apply type2_block_terminated|].
  destruct (from_bitarr_holds t4bits) as (b4 & Eb4 & Hb4 & _ & _).
  destruct (call_scramb code b4 t4bits Hb4) as (b5 & E5 & E5' & Hb5).
  destruct (from_bitarr_holds bits) as (b1 & Eb1 & Hb1 & _ & _).
  eexists b5, _. split_and!; [|exact Hb5|by rewrite length_keystream_xor|].
  - unfold encode_cp. cbn [logical_channel mac_block scrambling_code]. rewrite Hctl, Hp.
    assert (get_len b = type1_bits params) as -> by exact (eq_trans (holds_len _ _ Hb) Hl).
    rewrite Nat.eqb_refl. cbn [negb]. rewrite Eseek. step.
    destruct (call_to_bitarr _ bits (type1_bits params) Hb) as (b' & Eb'); [done|].
    rewrite Eb'. step. rewrite Earr. step.
    rewrite Hc, <- Hl. cbn [negb]. rewrite Edata. step.
    rewrite Earr'. step. rewrite H12, <- Hl, Etype2. step.
    rewrite (cp_encode (type345_bits params) (interleave_a params)) by (done || lia).
    step. rewrite E3. step.
    rewrite E4. step. rewrite Es. step.
    rewrite Eb4. step. by rewrite E5.
  - intros r bt dflt Hr Hcode. exists b1. split; [|done].
    destruct (call_scramb code r _ Hr) as (r4 & Er & _ & Hr4).
    destruct (call_scramb code b5 _ Hb5) as (b4' & Eb4' & _ & Hb4'). rewrite E5' in Eb4'. injection Eb4' as <-.
    rewrite <- (ho_window _ _ Hb4'), (ho_window _ _ Hb4) in Hr4.
    unfold decode_cp. cbn [block block_type]. rewrite Hctl, Hp, Hcode, Er. step.
    destruct (call_to_bitarr r4 t4bits (type345_bits params) Hr4) as (b' & Eb'); [done|].
    rewrite Eb'. step. rewrite Esp. step.
    rewrite E3'. step. rewrite Edp. step.
    rewrite H12, <- Hl, <- L2, Edec. step. rewrite Hc. cbn [negb].
    rewrite type2_crc_ok. unfold type2_block at 1.
    rewrite fmap_app, <- app_assoc, slice_front by (by rewrite length_fmap).
    step. by rewrite Eb1.
Qed.

Lemma encode_decode_cp lchan params bits b code :
  get_params lchan = Some params -> have_crc16 params = true ->
  length bits = type1_bits params -> wf b -> window b = bits ->
  exists type5,
    encode_cp {| mac_block := b; logical_channel := lchan; scrambling_code := code |}
    = Some (Some type5) /\
    get_len type5 = type345_bits params /\
    forall bt default_code,
      (if bool_decide (bt = SB1) then Some SCRAMB_INIT else default_code) = Some code ->
      exists type1,
        decode_cp lchan {| block_type := bt; block := type5 |} default_code
        = Some (Some type1, true) /\ holds type1 bits.
Proof.
  intros Hp Hc Hl Wb Hw. destruct (encode_decode_cp_sent lchan params bits b code Hp Hc Hl Wb Hw) as (type5 & sent & E & H & L & D).
  exists type5. split; [done|]. split; [by rewrite (holds_len _ _ H)|]. intros bt dflt. by apply D.
Qed.

(** ** The speech chain on bit strings *)

Lemma is_bit_lxor x y : is_bit x -> is_bit y -> is_bit (Z.lxor x y).
Proof. intros [-> | ->] [-> | ->]; vm_compute; by (left + right). Qed.

Lemma is_bit_land1 x : is_bit (Z.land x 1).
Proof.
  change 1%Z with (Z.ones 1). rewrite Z.land_ones by lia. change (2 ^ 1)%Z with 2%Z.
  unfold is_bit. divlia.
Qed.

Lemma is_bit_lookup l i : Forall is_bit l -> is_bit (l !!! i).
Proof.
  intros H. rewrite list_lookup_total_alt. destruct (l !! i) as [x|] eqn:E; [|by right].
  rewrite Forall_lookup in H. simpl. eauto.
Qed.

Lemma crc7_step_bits w d : Forall is_bit w -> Forall is_bit (crc7_step w d).
Proof.
  intros H. unfold crc7_step. destruct (_ =? 1)%Z; [|done].
  repeat (apply Forall_insert || apply is_bit_lxor || apply is_bit_lookup || done || by right).
Qed.

Lemma speech_crc_bits bits :
  length bits = 60 ->
  exists cb, speech_crc (b2z <$> bits) = Some (b2z <$> cb) /\ length cb = 8.
Proof.
  intros Hl. unfold speech_crc. rewrite slice_full by (by rewrite length_fmap).
  step.
  set (w0 := replicate 7 0%Z ++ _). set (w := foldl crc7_step w0 _).
  assert (Hw : Forall is_bit w /\ length w = 67).
  { assert (H0 : Forall is_bit w0 /\ length w0 = 67).
    { unfold w0. rewrite length_app, !length_fmap, Hl. split; [|done].
      apply Forall_app. split; [apply array_bits_zeros|]. apply Forall_fmap, Forall_true.
      intros x. apply is_bit_land1. }
    unfold w. revert H0. generalize w0. generalize (rev (seq 7 60)). clear.
    intros ds. induction ds as [|d ds IH]; intros w [Hb L]; [done|]. apply IH. split.
    - by apply crc7_step_bits.
    - unfold crc7_step. destruct (_ =? 1)%Z; by rewrite ?length_insert. }
  destruct Hw as [Hw Lw].
  set (p0 := foldl _ 0%Z (b2z <$> bits)). set (p := foldl Z.lxor p0 (take 7 w)).
  assert (Hp0 : is_bit p0).
  { unfold p0. assert (is_bit 0) as H by by left. revert H. generalize 0%Z. generalize (b2z <$> bits).
    clear. intros l. induction l; intros z Hz; [done|]. apply IHl, is_bit_lxor; [done|].
    apply is_bit_land1. }
  assert (Hp : is_bit p).
  { unfold p. pose proof (Forall_take is_bit 7 w Hw) as H7. revert Hp0 H7. generalize (take 7 w) p0.
    clear. intros l. induction l; intros z Hz H; [done|]. inversion H; subst.
    apply IHl; [by apply is_bit_lxor|done]. }
  destruct (bits_of_array (take 7 w ++ [p])) as (cb & E).
  { apply Forall_app. split; [by apply Forall_take|]. by constructor. }
  exists cb. rewrite E. split; [done|].
  rewrite <- (length_fmap b2z), <- E, length_app, length_take, Lw. done.
Qed.

Lemma received_app code1 code2 n N (in1 in2 : list Z) :
  length code1 = N * n -> length in1 = N * n ->
  received code1 n in1 -> received code2 n in2 -> received (code1 ++ code2) n (in1 ++ in2).
Proof.
  intros Hc Hi [A1 F1] [A2 F2]. split.
  - intros q b Hq. destruct (decide (q < N * n)) as [Hlt|Hge].
    + rewrite lookup_app_l in Hq by lia. rewrite lookup_app_l by lia. by apply A1.
    + rewrite lookup_app_r, Hc in Hq by lia. rewrite lookup_app_r, Hi by lia. by apply A2.
  - intros i b Hq. destruct (decide (i * n < N * n)) as [Hlt|Hge].
    + rewrite lookup_app_l in Hq by lia. rewrite lookup_app_l by lia. by apply F1.
    + rewrite lookup_app_r, Hc in Hq by lia. rewrite lookup_app_r, Hi by lia.
      rewrite <- Nat.mul_sub_distr_r in *. by apply F2.
Qed.

(** One speech class: encoding, puncturing and depuncturing over erasures. *)
Lemma speech_class pu reg bits n3 :
  length reg = 4 -> 1 <= n3 -> kept pu n3 < length bits * 3 ->
  (forall i, i < length bits -> exists j, 1 <= j <= n3 /\ kept pu j = i * 3) ->
  exists p,
    get_punctured_rate pu (b2z <$> concat (conv speech_polys reg bits)) (replicate n3 0%Z)
    = Some (b2z <$> p) /\ length p = n3 /\
    exists dp, tetra_rcpc_depunct pu (b2z <$> p) n3 (replicate (length bits * 3) 255%Z) = Some dp /\
      length dp = length bits * 3 /\
      received (concat (conv speech_polys reg bits)) 3 dp.
Proof.
  intros Hr H1 Hk Hf. set (code := concat (conv speech_polys reg bits)).
  assert (Lc : length code = length bits * 3) by apply length_concat_conv.
  destruct (depunct_punct pu (b2z <$> code) (replicate n3 0%Z) n3
              (replicate (length bits * 3) 255%Z)) as (t3 & E3 & L3 & Hdp).
  { by rewrite length_replicate. }
  { rewrite length_replicate, length_fmap, Lc. intros j Hj. pose proof (kept_bound pu j n3 Hj). lia. }
  { by rewrite length_replicate, length_fmap, Lc. }
  rewrite length_replicate in L3.
  destruct (bits_of_array t3) as (p & ->).
  { eapply punct_Forall; [exact E3|apply array_of_bits|apply array_bits_zeros]. }
  destruct (Hdp (b2z <$> p) eq_refl) as (dp & Ed & Ld & Hj & Hq).
  rewrite length_replicate in Ld. rewrite length_fmap in L3.
  exists p. split_and!; try done. exists dp. split_and!; try done.
  eapply (depunct_received pu 3 code [] dp (length bits * 3) n3 (length bits)); try lia.
  - intros q. rewrite app_nil_r. apply Hq.
  - intros j Hjr. rewrite app_nil_r. by apply Hj.
  - done.
Qed.

Lemma split3 {A} (l : list A) i j k :
  length l = i + j + k ->
  exists a b c, l = a ++ b ++ c /\ length a = i /\ length b = j /\ length c = k.
Proof.
  intros H. destruct (split_length l i) as (a & r & -> & Ha); [lia|].
  rewrite length_app in H. destruct (split_length r j) as (b & c & -> & Hb); [lia|].
  rewrite length_app in H. exists a, b, c. split_and!; try done. lia.
Qed.

Section tp_chain.
Context (c0 c1 c2 cb : list bool).
Context (H0 : length c0 = 102) (H1 : length c1 = 112) (H2 : length c2 = 60) (Hcb : length cb = 8).
Context (Hcrc : speech_crc (b2z <$> c2) = Some (b2z <$> cb)).

Let channel : list Z := b2z <$> (c0 ++ c1 ++ c2).
Let type2 : list bool := c2 ++ cb ++ zeros4.
Let reg1 := reg_after zeros4 c1.

Lemma class1_input : slice channel CLASS0_BITS (CLASS0_BITS + CLASS1_BITS) = Some (b2z <$> c1).
Proof.
  unfold channel. rewrite !fmap_app.
  apply slice_mid; rewrite ?length_fmap; unfold CLASS0_BITS, CLASS1_BITS; lia.
Qed.

Lemma class2_input :
  slice channel (CLASS0_BITS + CLASS1_BITS) (CLASS0_BITS + CLASS1_BITS + CLASS2_BITS)
  = Some (b2z <$> c2).
Proof.
  unfold channel. rewrite !fmap_app, app_assoc.
  apply slice_end; rewrite ?length_app, ?length_fmap;
    unfold CLASS0_BITS, CLASS1_BITS, CLASS2_BITS; lia.
Qed.

Lemma class2_type2 :
  (arr ← splice (replicate CLASS2_TYPE2 0%Z) 0 (b2z <$> c2); splice arr CLASS2_BITS (b2z <$> cb))
  = Some (b2z <$> type2).
Proof.
  unfold CLASS2_TYPE2. rewrite splice_front by (rewrite length_fmap; lia).
  step. rewrite length_fmap, H2.
  change (replicate (72 - 60) 0%Z) with (replicate 8 0%Z ++ replicate 4 0%Z).
  replace CLASS2_BITS with (length (b2z <$> c2)) by (by rewrite length_fmap, H2).
  rewrite splice_app by (by rewrite length_fmap, Hcb, length_replicate).
  unfold type2. by rewrite !fmap_app.
Qed.

Lemma tp_encode_classes :
  exists p1 p2,
    encode_class1 enc_new channel = Some (enc_of reg1, b2z <$> p1) /\
    encode_class2 (enc_of reg1) channel = Some (b2z <$> p2) /\
    length p1 = 168 /\ length p2 = 162 /\
    decode_classes (b2z <$> (c0 ++ p1 ++ p2)) = Some (b2z <$> (c1 ++ type2)).
Proof.
  assert (L2 : length type2 = 72).
  { unfold type2. rewrite !length_app, H2, Hcb. done. }
  destruct (speech_class Rate112_168 zeros4 c1 168)
    as (p1 & E1 & L1 & dp1 & D1 & Ld1 & R1); [done|lia| | |].
  { rewrite H1. vm_compute. lia. }
  { intros i Hi. destruct (kept_first_112_168 i) as (j & ? & ? & ?). exists j. split; [lia|done]. }
  destruct (speech_class Rate72_162 reg1 type2 162)
    as (p2 & E2 & L2' & dp2 & D2 & Ld2 & R2); [by apply length_reg_after|lia| | |].
  { rewrite L2. vm_compute. lia. }
  { intros i Hi. destruct (kept_first_72_162 i) as (j & ? & ? & ?). exists j. split; [lia|done]. }
  rewrite H1 in D1, Ld1. rewrite L2 in D2, Ld2.
  exists p1, p2. split_and!; try done.
  - unfold encode_class1. rewrite class1_input. step.
    change enc_new with (enc_of zeros4).
    rewrite speech_encode_conv by (done || by rewrite length_replicate, H1).
    step. by rewrite E1.
  - unfold encode_class2. rewrite class2_input. step.
    pose proof class2_type2 as Ht. destruct (splice (replicate CLASS2_TYPE2 0%Z) 0 _); [|done].
    cbn [mbind option_bind] in *. rewrite Hcrc. step. rewrite Ht.
    step.
    rewrite speech_encode_conv by (by apply length_reg_after || by rewrite length_replicate, L2).
    done.
  - unfold decode_classes. rewrite !fmap_app.
    rewrite (slice_mid (b2z <$> c0) (b2z <$> p1) _ CLASS0_BITS (CLASS0_BITS + CLASS1_TYPE3))
      by (rewrite ?length_fmap; unfold CLASS0_BITS, CLASS1_TYPE3; lia).
    step. unfold CLASS1_TYPE3, CLASS1_BITS. rewrite D1. step.
    rewrite app_assoc.
    rewrite slice_end by (rewrite ?length_app, ?length_fmap; unfold CLASS0_BITS, CLASS2_TYPE3; lia).
    step. unfold CLASS2_TYPE3, CLASS2_TYPE2. rewrite D2. step.
    rewrite splice_front by (rewrite Ld1; lia). step.
    rewrite splice_end by (rewrite ?length_replicate, ?Ld1, ?Ld2; lia).
    step. f_equal.
    change TetraCodecViterbiDecoder_new with (new_with_polynomials speech_polys).
    change speech_soft with soft_of_byte.
    assert (R : received (concat (conv speech_polys zeros4 (c1 ++ type2))) 3 (dp1 ++ dp2)).
    { rewrite conv_app, concat_app. apply (received_app _ _ _ 112); try done.
      by rewrite length_concat_conv, H1. }
    destruct (received_clean speech_polys (c1 ++ type2) (dp1 ++ dp2)) as (chunks & E & Hc).
    { simpl. lia. }
    { rewrite !length_app, H1, L2, Ld1, Ld2. simpl. lia. }
    { done. }
    rewrite firstn_all2 in E by (rewrite !length_app, H1, L2, Ld1, Ld2; simpl; lia).
    rewrite E, (decode_clean speech_polys chunks (c1 ++ type2)); try done.
    + by rewrite fmap_app.
    + apply speech_polys_good.
    + simpl. lia.
    + unfold type2. rewrite !app_assoc. apply reg_after_tail.
    + rewrite length_app, H1, L2. simpl. lia.
Qed.
End tp_chain.

(** The reordered frame is an array of bits again. *)
Lemma codec_to_channel_bits bits :
  length bits = 274 ->
  exists ch, codec_to_channel (b2z <$> bits) = Some (b2z <$> ch) /\ length ch = 274 /\
    channel_to_codec (b2z <$> ch) = Some (b2z <$> bits).
Proof.
  intros Hl. destruct (codec_channel_codec (b2z <$> bits)) as (arr & E & L & E').
  { by rewrite length_fmap. }
  destruct (bits_of_array arr) as (ch & ->).
  { rewrite codec_to_channel_copy in E. eapply for_copy_Forall; [exact E|apply array_of_bits|].
    apply array_bits_zeros. }
  exists ch. by rewrite length_fmap in L.
Qed.

(** Interleaving a 432-bit block and back. *)
Lemma matrix_bits t3 :
  length t3 = 432 ->
  exists t4, matrix_interleave 24 18 (b2z <$> t3) (replicate MAX_TYPE345_BITS 0%Z) = Some (b2z <$> t4) /\
    length t4 = 432 /\
    matrix_deinterleave 24 18 (b2z <$> t4) (replicate MAX_TYPE345_BITS 0%Z) = Some (b2z <$> t3).
Proof.
  intros Hl. destruct (matrix_roundtrip 24 18 (b2z <$> t3) (replicate MAX_TYPE345_BITS 0%Z)
                        (replicate MAX_TYPE345_BITS 0%Z)) as (arr & E & L & E').
  1-3: rewrite ?length_fmap, ?length_replicate; unfold MAX_TYPE345_BITS; lia.
  destruct (bits_of_array arr) as (t4 & ->).
  { eapply matrix_interleave_Forall; [exact E|apply array_of_bits|apply array_bits_zeros]. }
  exists t4. rewrite length_fmap, length_replicate in L. split; [done|]. split; [done|].
  rewrite E'. rewrite firstn_all2 by (rewrite length_fmap; lia).
  rewrite drop_ge by (rewrite length_replicate; unfold MAX_TYPE345_BITS; lia). by rewrite app_nil_r.
Qed.

(** [encode_tp] up to the scrambled block, for both slot layouts. *)
Lemma encode_tp_block bits b code :
  length bits = 274 -> wf b -> window b = bits ->
  exists c0 c1 c2 cb p1 p2 t4 b4 b5,
    length c0 = 102 /\ length c1 = 112 /\ length c2 = 60 /\ length cb = 8 /\
    channel_to_codec (b2z <$> (c0 ++ c1 ++ c2)) = Some (b2z <$> bits) /\
    speech_crc (b2z <$> c2) = Some (b2z <$> cb) /\
    decode_classes (b2z <$> (c0 ++ p1 ++ p2)) = Some (b2z <$> (c1 ++ c2 ++ cb ++ zeros4)) /\
    matrix_deinterleave 24 18 (b2z <$> t4) (replicate MAX_TYPE345_BITS 0%Z)
      = Some (b2z <$> (c0 ++ p1 ++ p2)) /\
    length t4 = 432 /\ holds b4 t4 /\
    call (tetra_scramb_bits code) b5 = Some (tt, b4) /\
    holds b5 (zip_with xorb t4 (keystream code (length t4))) /\
    forall blk_num,
      encode_tp {| mac_block := b; logical_channel := TchS; scrambling_code := code |} blk_num
      = if (blk_num =? 1)%Z then Some (Some b5)
        else '(_, type4) ← call (seek 0) b5;
             '(full, _) ← call (to_bitarr 432) type4;
             full_arr ← splice (replicate MAX_TYPE345_BITS 0%Z) 0 full;
             half ← slice full_arr MAX_TYPE345_HALFSLOT_BITS 432;
             half_buf ← from_bitarr half;
             Some (Some half_buf).
Proof.
  intros Hl Wb Hw. destruct (call_rewind b Wb) as [Eseek Hb]. rewrite Hw in Hb.
  destruct (codec_to_channel_bits bits Hl) as (ch & Ech & Lch & Eco).
  destruct (split3 ch 102 112 60) as (c0 & c1 & c2 & -> & L0 & L1 & L2); [lia|].
  destruct (speech_crc_bits c2 L2) as (cb & Ecb & Lcb).
  destruct (tp_encode_classes c0 c1 c2 cb) as (p1 & p2 & E1 & E2 & Lp1 & Lp2 & Ed); try done.
  destruct (matrix_bits (c0 ++ p1 ++ p2)) as (t4 & E4 & Lt4 & E4').
  { rewrite !length_app. lia. }
  destruct (from_bitarr_holds t4) as (b4 & Eb4 & Hb4 & _ & _).
  destruct (call_scramb code b4 t4 Hb4) as (b5 & E5 & E5' & Hb5).
  exists c0, c1, c2, cb, p1, p2, t4, b4, b5. split_and!; try done.
  intros blk_num. unfold encode_tp.
  cbn [logical_channel mac_block scrambling_code get_params TCH_S_PARAMS type1_bits type345_bits].
  change (negb (bool_decide (TchS = TchS))) with false. cbn iota.
  rewrite Eseek. step.
  rewrite (holds_len _ bits Hb), Hl. change (Nat.min 274 274) with 274.
  destruct (call_to_bitarr _ bits 274 Hb (eq_sym Hl)) as (b' & Eb'). rewrite Eb'.
  step. unfold MAX_TYPE1_BITS.
  rewrite splice_full by (by rewrite length_replicate, length_fmap, Hl).
  step. change (bool_decide (TchS = TchS) && (274 =? 274)) with true. cbn iota.
  rewrite slice_full by (by rewrite length_fmap). step.
  rewrite Ech. step.
  rewrite splice_full by (by rewrite !length_fmap, Hl, Lch). step.
  rewrite !fmap_app at 1.
  rewrite slice_front by (by rewrite length_fmap). step.
  rewrite (splice_front 0%Z MAX_TYPE345_BITS (b2z <$> c0))
    by (rewrite length_fmap; unfold MAX_TYPE345_BITS; lia).
  step. rewrite E1. step. rewrite length_fmap, L0.
  change (replicate (MAX_TYPE345_BITS - 102) 0%Z) with (replicate 168 0%Z ++ replicate 162 0%Z).
  replace CLASS0_BITS with (length (b2z <$> c0)) at 1 by (by rewrite length_fmap, L0).
  rewrite splice_app by (by rewrite length_fmap, Lp1, length_replicate). step.
  rewrite E2. step. rewrite app_assoc.
  rewrite splice_end.
  2: { rewrite length_app, !length_fmap, L0, Lp1. done. }
  2: { by rewrite length_fmap, Lp2, length_replicate. }
  step. rewrite <- app_assoc, <- !fmap_app, E4. step.
  rewrite slice_full by (by rewrite length_fmap). step.
  rewrite Eb4. step. rewrite E5. step. done.
Qed.

Lemma decode_type3_spec c0 c1 c2 cb rb z p :
  length c0 = 102 -> length c1 = 112 -> length c2 = 60 -> length rb = 8 ->
  decode_classes (b2z <$> (c0 ++ p)) = Some (b2z <$> (c1 ++ c2 ++ rb ++ z)) ->
  speech_crc (b2z <$> c2) = Some (b2z <$> cb) ->
  decode_type3 (b2z <$> (c0 ++ p)) = Some (b2z <$> (c0 ++ c1 ++ c2), bool_decide (b2z <$> cb = b2z <$> rb)).
Proof.
  intros L0 L1 L2 Lcb Ed Ecb. unfold decode_type3. rewrite Ed.
  rewrite (fmap_app b2z c0 p), slice_front by (by rewrite length_fmap).
  step.
  rewrite splice_front by (rewrite length_fmap; unfold MAX_TYPE1_BITS; lia).
  step.
  rewrite (fmap_app b2z c1 _), slice_front by (by rewrite length_fmap).
  step. rewrite length_fmap, L0.
  replace (replicate (MAX_TYPE1_BITS - 102) 0%Z) with (replicate 112 0%Z ++ replicate 60 0%Z) by done.
  replace CLASS0_BITS with (length (b2z <$> c0)) at 1 by (by rewrite length_fmap, L0).
  rewrite splice_app by (by rewrite length_fmap, L1, length_replicate). step.
  rewrite slice_end by (rewrite ?length_app, ?length_fmap; unfold CLASS1_BITS; lia).
  step. rewrite (fmap_app b2z c2 (rb ++ z)).
  rewrite slice_front by (by rewrite length_fmap). step.
  rewrite (fmap_app b2z rb z).
  rewrite slice_mid by (rewrite ?length_fmap; unfold CLASS2_BITS; lia). step.
  rewrite Ecb. step.
  rewrite app_assoc, splice_end.
  - step. by rewrite <- app_assoc, <- !fmap_app.
  - rewrite length_app, !length_fmap, L0, L1. done.
  - by rewrite length_fmap, L2, length_replicate.
Qed.

Lemma decode_type3_ok c0 c1 c2 cb p :
  length c0 = 102 -> length c1 = 112 -> length c2 = 60 -> length cb = 8 ->
  decode_classes (b2z <$> (c0 ++ p)) = Some (b2z <$> (c1 ++ c2 ++ cb ++ zeros4)) ->
  speech_crc (b2z <$> c2) = Some (b2z <$> cb) ->
  decode_type3 (b2z <$> (c0 ++ p)) = Some (b2z <$> (c0 ++ c1 ++ c2), true).
Proof. intros. by rewrite (decode_type3_spec c0 c1 c2 cb cb zeros4), bool_decide_true. Qed.

(** Whatever was received: 184 bits come out of the speech decoder. *)
Lemma decode_classes_total c0 p :
  length c0 = 102 -> length p = 330 ->
  exists d, decode_classes (c0 ++ p) = Some (b2z <$> d) /\ length d = 184.
Proof.
  intros L0 Lp. destruct (split_length p 168) as (p1 & p2 & -> & L1); [lia|]. rewrite length_app in Lp.
  unfold decode_classes, CLASS0_BITS, CLASS1_TYPE3, CLASS2_TYPE3, CLASS1_BITS, CLASS2_TYPE2.
  rewrite (slice_mid c0 p1 p2 102 (102 + 168)) by lia. step.
  assert (H1 : kept Rate112_168 168 = 333) by (vm_compute; reflexivity).
  assert (H2 : kept Rate72_162 162 = 214) by (vm_compute; reflexivity).
  destruct (depunct_spec Rate112_168 p1 168 (replicate (112 * 3) 255%Z)) as (m1 & E1 & Lm1 & _); [lia| |].
  { intros j Hj. rewrite length_replicate. pose proof (kept_bound Rate112_168 j 168 Hj). lia. }
  rewrite E1. step. rewrite app_assoc, slice_end by (rewrite ?length_app; lia). step.
  destruct (depunct_spec Rate72_162 p2 162 (replicate (72 * 3) 255%Z)) as (m2 & E2 & Lm2 & _); [lia| |].
  { intros j Hj. rewrite length_replicate. pose proof (kept_bound Rate72_162 j 162 Hj). lia. }
  rewrite E2. step. rewrite length_replicate in Lm1, Lm2.
  rewrite splice_front by lia. step. rewrite Lm1. rewrite splice_end by (rewrite ?length_replicate; lia). step.
  destruct (chunk_list 3 184 (speech_soft <$> m1 ++ m2)) as (chunks & Es & Hl & Hc).
  { rewrite length_fmap, length_app. lia. }
  assert (Hb : Forall (fun r => Z.abs r <= 1)%Z (speech_soft <$> m1 ++ m2)).
  { apply Forall_fmap, Forall_true. intros b. unfold speech_soft, compose.
    destruct (b =? 0)%Z, (b =? 1)%Z; simpl; lia. }
  change TetraCodecViterbiDecoder_new with (new_with_polynomials speech_polys). rewrite Es in Hb |- *.
  destruct (decode_best speech_polys 1 chunks) as (d & E & Hd & _).
  - apply speech_polys_good.
  - simpl. lia.
  - lia.
  - by apply bounded_chunks.
  - simpl. lia.
  - exists d. rewrite E. split; [done|lia].
Qed.

Lemma decode_tp_block code b5 b4 t4 t3 channel bits :
  length t4 = 432 -> length channel = 274 ->
  call (tetra_scramb_bits code) b5 = Some (tt, b4) -> holds b4 t4 ->
  matrix_deinterleave 24 18 (b2z <$> t4) (replicate MAX_TYPE345_BITS 0%Z) = Some t3 ->
  decode_type3 t3 = Some (b2z <$> channel, true) ->
  channel_to_codec (b2z <$> channel) = Some (b2z <$> bits) ->
  exists type1, decode_tp TchS b5 code = Some (Some type1, true) /\ holds type1 bits.
Proof.
  intros Lt4 Lc E5 Hb4 Em Ed Eco.
  destruct (from_bitarr_holds bits) as (b1 & Eb1 & Hb1 & _ & _). exists b1. split; [|done].
  unfold decode_tp. rewrite bool_decide_true by done. cbn [negb get_params].
  rewrite E5. step. rewrite (call_seek0 b4 t4 Hb4). step.
  destruct (call_to_bitarr b4 t4 (type345_bits TCH_S_PARAMS) Hb4 (eq_sym Lt4)) as (b' & Eb').
  rewrite Eb'. step.
  rewrite splice_full by (by rewrite length_replicate, length_fmap, Lt4).
  step. rewrite Em. step. rewrite Ed. step.
  rewrite slice_full by (by rewrite length_fmap). step.
  rewrite Eco. step. by rewrite Eb1.
Qed.

(** ** The access assignment chain *)

Lemma call_read b bs n :
  holds b bs -> length bs = n -> n <= 64 ->
  call (unwrap (read_bits n)) b = Some (bits_val bs, with_pos b (pos b + n)).
Proof.
  intros H Hl Hn. unfold call. rewrite (unwrap_parses _ bs [] _ (read_bits_parses n bs [] Hl Hn)).
  - by rewrite Hl.
  - apply H.
  - rewrite app_nil_r. by apply holds_remaining.
Qed.

Lemma holds_advance b bs n : holds b bs -> n <= length bs -> wf (with_pos b (pos b + n)).
Proof.
  intros H Hn. pose proof (length_remaining b) as L. rewrite (holds_remaining _ _ H) in L.
  destruct H as [[Wb Ws Wp We] _ _]. constructor; simpl; try done; lia.
Qed.

Lemma holds_capacity b bs : holds b bs -> length bs <= length (buffer b) * 8.
Proof.
  intros H. pose proof (length_remaining b) as L. rewrite (holds_remaining _ _ H) in L.
  destruct H as [[Wb Ws Wp We] _ _]. lia.
Qed.

(** Inverting bit [i] (nothing happens past the end). *)
Definition flip (i : nat) (bs : list bool) : list bool := alter negb i bs.

Lemma length_flip i bs : length (flip i bs) = length bs.
Proof. apply length_alter. Qed.

Lemma flip_val n v i :
  i < n -> flip i (val_bits n v) = val_bits n (Z.lxor v (2 ^ Z.of_nat (n - 1 - i))).
Proof.
  intros Hi. apply list_eq. intros j. unfold flip. destruct (decide (j < n)) as [Hj|Hj].
  - rewrite lookup_val_bits by done. rewrite Z.lxor_spec. destruct (decide (i = j)) as [->|Hne].
    + rewrite list_lookup_alter_eq, lookup_val_bits by done. simpl.
      by rewrite Z.pow2_bits_true, xorb_true_r by lia.
    + rewrite list_lookup_alter_ne, lookup_val_bits by done.
      by rewrite Z.pow2_bits_false, xorb_false_r by lia.
  - rewrite !lookup_ge_None_2; [done|rewrite length_val_bits; lia|].
    rewrite length_alter, length_val_bits. lia.
Qed.

Lemma flip_zip i (bs ks : list bool) :
  length bs = length ks -> zip_with xorb (flip i bs) ks = flip i (zip_with xorb bs ks).
Proof.
  intros Hl. apply list_eq. intros j. unfold flip. rewrite lookup_zip_with.
  destruct (decide (i = j)) as [->|Hne].
  - rewrite !list_lookup_alter_eq, lookup_zip_with.
    destruct (bs !! j), (ks !! j); simpl; try done. by destruct b, b0.
  - rewrite !list_lookup_alter_ne, lookup_zip_with by done. done.
Qed.

Lemma zip_xorb_twice (bs ks : list bool) :
  length bs = length ks -> zip_with xorb (zip_with xorb bs ks) ks = bs.
Proof.
  revert ks. induction bs as [|b bs IH]; intros [|k ks] H; simpl in *; try done.
  rewrite IH by lia. by rewrite xorb_assoc, xorb_nilpotent, xorb_false_r.
Qed.

(** The tail of [decode_aach]: the first 14 bits of the buffer are overwritten. *)
Lemma aach_rewrite b y :
  wf b -> 14 <= length (buffer b) * 8 -> (0 <= y < 2 ^ 14)%Z ->
  exists type1,
    ('(_, type1) ← call (set_raw_start 0) b;
     '(_, type1) ← call (set_raw_pos 0) type1;
     '(_, type1) ← call (set_raw_end 14) type1;
     '(_, type1) ← call (write_bits y 14) type1;
     '(_, type1) ← call (seek 0) type1;
     Some type1) = Some type1 /\ holds type1 (val_bits 14 y).
Proof.
  intros [Wb Ws Wp We] Hl Hy.
  set (b1 := mkBitBuffer (buffer b) 0 (pos b) (end_ b) (flag_autoexpand b)).
  set (b3 := mkBitBuffer (buffer b) 0 0 14 (flag_autoexpand b)).
  assert (call (set_raw_start 0) b = Some (tt, b1)) as ->.
  { unfold call, set_raw_start. by btrue (0 <=? end_ b); btrue (0 <=? pos b). }
  assert (call (set_raw_pos 0) b1 = Some (tt, with_pos b1 0)) as E2.
  { unfold call, set_raw_pos. simpl. by btrue (0 <=? 0); btrue (0 <=? end_ b). }
  assert (call (set_raw_end 14) (with_pos b1 0) = Some (tt, b3)) as E3.
  { unfold call, set_raw_end. simpl. by btrue (14 <=? length (buffer b) * 8). }
  destruct (write_bits_emits y 14 Hy ltac:(lia) b3) as (b4 & E & [W4 S4 P4 F4 N4 B4 _]).
  { constructor; simpl; try done; lia. }
  { left. rewrite length_val_bits. simpl. lia. }
  rewrite length_val_bits in *. simpl in S4, P4, N4, B4.
  assert (call (write_bits y 14) b3 = Some (tt, b4)) as E4 by (unfold call; by rewrite E).
  assert (call (seek 0) b4 = Some (tt, with_pos b4 0)) as E5.
  { unfold call, seek. rewrite S4, N4. done. }
  step. rewrite E2. step. rewrite E3. step. rewrite E4. step. rewrite E5. step.
  eexists. split; [done|]. destruct W4 as [? ? ? ?]. split.
  - constructor; simpl; try done; lia.
  - done.
  - unfold window. simpl. rewrite S4, N4. done.
Qed.

Lemma encode_aach_ok b bits code :
  holds b bits -> length bits = 14 ->
  exists type5, encode_aach b code = Some type5 /\
    let code30 := val_bits 30 (tetra_rm3014_compute (bits_val bits)) in
    holds type5 (zip_with xorb code30 (keystream code 30)).
Proof.
  intros Hb Hl. pose proof (bits_val_bound bits) as Hbd. rewrite Hl in Hbd.
  assert (Hcode : (0 <= tetra_rm3014_compute (bits_val bits) < 2 ^ Z.of_nat 30)%Z).
  { apply code_bound. }
  destruct (emits_new_holds _ _ _ (write_bits_emits _ 30 Hcode ltac:(lia)))
    as (b1 & E1 & S1 & Hb1 & _). rewrite length_val_bits in E1.
  destruct (call_scramb code (with_pos b1 0) _ Hb1) as (b5 & E5 & _ & Hb5).
  rewrite length_val_bits in Hb5. exists b5. split; [|done].
  unfold encode_aach. unfold get_len_remaining. pose proof (length_remaining b) as Hr.
  rewrite (holds_remaining b bits Hb), Hl in Hr. rewrite <- Hr. cbn [Nat.eqb negb].
  rewrite (call_read b bits 14 Hb Hl ltac:(lia)). step.
  rewrite u16_small by lia.
  assert (call (write_bits (tetra_rm3014_compute (bits_val bits)) 30) (new 30) = Some (tt, b1))
    as -> by (unfold call; by rewrite E1).
  step.
  assert (call (seek 0) b1 = Some (tt, with_pos b1 0)) as ->.
  { unfold call, seek. rewrite S1. done. }
  step. rewrite E5. done.
Qed.

(** Decoding a code word with error pattern [e]. *)
Lemma decode_aach_error r bits code e :
  length bits = 14 -> e = 0%Z \/ (exists k, k < 30 /\ e = (2 ^ Z.of_nat k)%Z) ->
  holds r (zip_with xorb (val_bits 30 (Z.lxor (tetra_rm3014_compute (bits_val bits)) e))
             (keystream code 30)) ->
  exists type1, decode_aach r code = Some type1 /\ holds type1 bits.
Proof.
  intros Hl He Hr. set (x := bits_val bits) in *. set (v := Z.lxor _ e) in *.
  pose proof (bits_val_bound bits) as Hbd. rewrite Hl in Hbd. fold x in Hbd.
  assert (Hv : (0 <= v < 2 ^ Z.of_nat 30)%Z).
  { apply (reg_lxor 30); [lia|apply code_bound|]. unfold reg.
    destruct He as [->|(k & Hk & ->)]; [lia|]. split; [lia|]. apply Z.pow_lt_mono_r; lia. }
  assert (Lk : length (keystream code 30) = length (val_bits 30 v))
    by (by rewrite length_keystream, length_val_bits).
  set (got := zip_with xorb _ _) in Hr.
  assert (Lg : length got = 30).
  { unfold got. by rewrite length_zip_with, Lk, length_val_bits. }
  destruct (call_scramb code r got Hr) as (b2 & E2 & _ & Hb2).
  rewrite Lg in Hb2. unfold got in Hb2. rewrite zip_xorb_twice in Hb2 by done.
  unfold decode_aach. pose proof (length_remaining r) as Hrem.
  rewrite (holds_remaining r got Hr), Lg in Hrem. unfold get_len_remaining. rewrite <- Hrem.
  change (negb (30 =? 30)) with false. cbv iota.
  rewrite E2. step. rewrite (call_read b2 _ 30 Hb2 (length_val_bits _ _) ltac:(lia)). step.
  rewrite bits_val_val_bits_small by done.
  rewrite u32_small by (change (2 ^ 32)%Z with 4294967296%Z; change (2 ^ Z.of_nat 30)%Z with 1073741824%Z in Hv; lia).
  unfold v. rewrite decode_error by done.
  destruct (aach_rewrite (with_pos b2 (pos b2 + 30)) x) as (type1 & E & Ht).
  - eapply holds_advance; [exact Hb2|by rewrite length_val_bits].
  - eapply holds_capacity in Hb2. rewrite length_val_bits in Hb2. cbn [buffer with_pos]. lia.
  - exact Hbd.
  - rewrite E. exists type1. split; [done|].
    unfold x in Ht. rewrite <- Hl, val_bits_bits_val in Ht. done.
Qed.

(** Decoding a block that arrived with at most one inverted bit. *)
Lemma decode_aach_ok r bits code i :
  length bits = 14 ->
  let code30 := val_bits 30 (tetra_rm3014_compute (bits_val bits)) in
  let sent := zip_with xorb code30 (keystream code 30) in
  holds r sent \/ holds r (flip i sent) ->
  exists type1, decode_aach r code = Some type1 /\ holds type1 bits.
Proof.
  intros Hl code30 sent Hr. unfold sent in Hr.
  assert (Lk : length code30 = length (keystream code 30))
    by (unfold code30; by rewrite length_keystream, length_val_bits).
  destruct (decide (i < 30)) as [Hi|Hi].
  - rewrite <- flip_zip in Hr by done. unfold code30 in Hr. rewrite flip_val in Hr by done.
    destruct Hr as [Hr|Hr].
    + apply (decode_aach_error r bits code 0); [done|by left|]. by rewrite Z.lxor_0_r.
    + eapply decode_aach_error; [done| |exact Hr]. right. eexists. split; [|done]. lia.
  - assert (flip i sent = sent) as Ef.
    { apply list_eq. intros j. unfold flip. destruct (decide (i = j)) as [->|Hne].
      - rewrite list_lookup_alter_eq, (lookup_ge_None_2 sent); [done|].
        unfold sent. rewrite length_zip_with, <- Lk. unfold code30. rewrite length_val_bits. lia.
      - by rewrite list_lookup_alter_ne. }
    fold sent in Hr. rewrite Ef in Hr.
    apply (decode_aach_error r bits code 0); [done|by left|]. rewrite Z.lxor_0_r.
    by destruct Hr.
Qed.

(** ** Robustness of the receive path *)

Lemma call_scramb_wf code b :
  wf b ->
  exists b', call (tetra_scramb_bits code) b = Some (tt, b') /\ wf b' /\
    length (remaining b') = length (remaining b).
Proof.
  intros W. destruct (tetra_scramb_bits_spec code b W) as (b' & E & W' & P & _).
  exists b'. unfold call. rewrite E. split_and!; try done.
  injection P as _ Hp He _ _. rewrite !length_remaining. congruence.
Qed.

Lemma call_to_bitarr_wf b n :
  wf b -> n <= length (remaining b) ->
  exists l b', call (to_bitarr n) b = Some (b2z <$> l, b') /\ length l = n.
Proof.
  intros W Hn. destruct (split_length (remaining b) n Hn) as (bs & rest & E & Hl).
  exists bs. unfold call. rewrite <- Hl, (to_bitarr_parses bs rest b W E). eauto.
Qed.

(** What the decoder of the convolutional code is given for a received block. *)
Definition soft_bits (params : ErrorControlParams) (code : Z) (type5 : BitBuffer) : option (list Z) :=
  '(_, type4) ← call (tetra_scramb_bits code) type5;
  '(type4_bits, _) ← call (to_bitarr (type345_bits params)) type4;
  type4_arr ← splice (replicate MAX_TYPE345_BITS 0%Z) 0 type4_bits;
  type3_arr ← block_deinterleave (type345_bits params) (interleave_a params) type4_arr (replicate MAX_TYPE345_BITS 0%Z);
  type3dp_arr ← tetra_rcpc_depunct Rate2_3 type3_arr (type345_bits params) (replicate (MAX_TYPE345_BITS * 4) 255%Z);
  Some (soft_of_byte <$> take (type2_bits params * 4) type3dp_arr).

Lemma decode_cp_decodes lchan params prim default_code code :
  get_params lchan = Some params -> have_crc16 params = true ->
  wf (block prim) -> type345_bits params <= length (remaining (block prim)) ->
  (if bool_decide (block_type prim = SB1) then Some SCRAMB_INIT else default_code) = Some code ->
  exists soft word type1,
    soft_bits params code (block prim) = Some soft /\ decode TetraViterbiDecoder_new soft = b2z <$> word /\
    most_likely soft word /\ length word = type1_bits params + 20 /\
    decode_cp lchan prim default_code
      = Some (Some type1, (crc16 0xffff (take (type1_bits params + 16) word) =? TETRA_CRC_OK)%Z) /\
    holds type1 (take (type1_bits params) word).
Proof.
  intros Hp Hc W Hrem Hcode. pose proof (control_params _ _ Hp Hc) as Hctl.
  destruct (interleave_ok lchan params Hp Hc) as (HK & Ha & HKa & Hg & H12 & H23 & H288).
  set (n345 := type345_bits params) in *.
  destruct (call_scramb_wf code (block prim) W) as (b4 & E4 & W4 & L4).
  destruct (call_to_bitarr_wf b4 n345) as (l & b' & El & Ll); [done|lia|].
  assert (Hlen : length (b2z <$> l) <= MAX_TYPE345_BITS)
    by (rewrite length_fmap; unfold MAX_TYPE345_BITS; lia).
  destruct (block_deinterleave_total n345 (interleave_a params) ltac:(lia) HKa Ha
    ((b2z <$> l) ++ replicate (MAX_TYPE345_BITS - length (b2z <$> l)) 0%Z)
    (replicate MAX_TYPE345_BITS 0%Z)) as (t3 & E3 & L3).
  { rewrite length_app, length_fmap. lia. }
  { rewrite length_replicate. unfold MAX_TYPE345_BITS. lia. }
  rewrite length_replicate in L3.
  assert (Hlast : kept Rate2_3 432 = 1148) by (vm_compute; reflexivity).
  destruct (depunct_spec Rate2_3 t3 n345 (replicate (MAX_TYPE345_BITS * 4) 255%Z))
    as (dp & Edp & Ldp & _).
  { rewrite L3. unfold MAX_TYPE345_BITS. lia. }
  { intros j Hj. rewrite length_replicate. unfold MAX_TYPE345_BITS.
    pose proof (kept_bound Rate2_3 j 432). lia. }
  rewrite length_replicate in Ldp.
  destruct (dec_sb1_total dp (replicate MAX_TYPE2_BITS 0%Z) (type2_bits params))
    as (d & Ed & Ld & Edec & Hml).
  { lia. }
  { rewrite Ldp. unfold MAX_TYPE345_BITS. lia. }
  { rewrite length_replicate. unfold MAX_TYPE2_BITS. lia. }
  destruct (split_length d (type1_bits params)) as (bits & tail & -> & Lb); [lia|].
  rewrite length_app in Ld.
  destruct (from_bitarr_holds bits) as (b1 & Eb1 & Hb1 & _ & _).
  exists (soft_of_byte <$> take (type2_bits params * 4) dp), (bits ++ tail), b1.
  assert (take (type1_bits params) (bits ++ tail) = bits) as -> by (by rewrite take_app_le, take_ge by lia).
  assert (take (type1_bits params + 16) (bits ++ tail) = bits ++ take 16 tail) as ->.
  { rewrite take_app_ge, Lb by lia. by replace (type1_bits params + 16 - type1_bits params) with 16 by lia. }
  split_and!; try done; [|rewrite length_app; lia|].
  { unfold soft_bits. rewrite E4. step. fold n345. rewrite El. step. rewrite splice_front by done. step. rewrite E3. step.
    by rewrite Edp. }
  unfold decode_cp. rewrite Hctl, Hp, Hcode, E4. step. fold n345. rewrite El. step.
  rewrite splice_front by done. step. rewrite E3. step. rewrite Edp. step.
  rewrite Ed. step. rewrite Hc. cbn [negb].
  rewrite fmap_app, <- app_assoc, slice_front by (by rewrite length_fmap).
  step. rewrite Eb1. step. do 4 f_equal. unfold crc16_ccitt_bits, crc16_itut_bits.
  rewrite take_app_ge, length_fmap, Lb by (rewrite length_fmap; lia).
  replace (type1_bits params + 16 - type1_bits params) with 16 by lia.
  rewrite take_app_le by (rewrite length_fmap; lia).
  rewrite <- fmap_take, <- fmap_app.
  pose proof (crc16_itut_bits_generic 0xffff (bits ++ take 16 tail)
                (length (bits ++ take 16 tail))) as Hgen.
  unfold crc16_itut_bits in Hgen. rewrite firstn_all2 in Hgen by (by rewrite length_fmap).
  by rewrite Hgen, firstn_all.
Qed.

Lemma decode_cp_returns lchan params prim default_code code :
  get_params lchan = Some params -> have_crc16 params = true ->
  wf (block prim) -> type345_bits params <= length (remaining (block prim)) ->
  (if bool_decide (block_type prim = SB1) then Some SCRAMB_INIT else default_code) = Some code ->
  exists type1 bits ok,
    decode_cp lchan prim default_code = Some (Some type1, ok) /\ holds type1 bits /\ length bits = type1_bits params.
Proof.
  intros Hp Hc W Hr Hcode.
  destruct (decode_cp_decodes lchan params prim default_code code Hp Hc W Hr Hcode) as (soft & word & type1 & _ & _ & _ & Lw & E & H).
  eexists type1, _, _. split; [exact E|]. split; [exact H|]. rewrite length_take. lia.
Qed.

(** The speech decoder on any block of a slot's size. *)
Lemma decode_tp_returns b code :
  wf b -> 432 <= length (window b) ->
  exists type1 bits ok, decode_tp TchS b code = Some (Some type1, ok) /\ holds type1 bits /\ length bits = 274.
Proof.
  intros W Hl. destruct (tetra_scramb_bits_spec code b W) as (b4 & E4 & W4 & P4 & _). injection P4 as S4 _ N4 _ _.
  destruct (call_rewind b4 W4) as [Es Hh]. set (b5 := with_pos b4 (start b4)) in *.
  destruct (call_to_bitarr_wf b5 432) as (l & b' & El & Ll); [apply Hh| |].
  { rewrite (holds_remaining _ _ Hh). unfold window in *. rewrite length_getbits in *. lia. }
  destruct (matrix_deinterleave_total 24 18 (b2z <$> l) (replicate MAX_TYPE345_BITS 0%Z)) as (t3 & E3 & L3 & F3).
  { rewrite length_fmap. lia. } { rewrite length_replicate. unfold MAX_TYPE345_BITS. lia. }
  rewrite length_replicate in L3. unfold MAX_TYPE345_BITS in L3.
  destruct (bits_of_array t3) as (bs & ->); [apply F3; [apply array_of_bits|apply array_bits_zeros]|].
  rewrite length_fmap in L3. destruct (split_length bs 102) as (c0 & p & -> & L0); [lia|]. rewrite length_app in L3.
  destruct (decode_classes_total (b2z <$> c0) (b2z <$> p)) as (d & Ed & Ld); [rewrite length_fmap; lia..|].
  destruct (split3 d 112 60 12) as (c1 & c2 & r & -> & L1 & L2 & Lr); [lia|].
  destruct (split_length r 8) as (rb & z & -> & Lrb); [lia|].
  destruct (speech_crc_bits c2 L2) as (cb & Ecb & Lcb). rewrite <- fmap_app in Ed.
  pose proof (decode_type3_spec c0 c1 c2 cb rb z p L0 L1 L2 Lrb Ed Ecb) as Et.
  destruct (channel_to_codec_spec (b2z <$> c0 ++ c1 ++ c2)) as (codec & Ec & Lc & Hc); [rewrite length_fmap, !length_app; lia|].
  destruct (bits_of_array codec) as (out & ->).
  { apply Forall_lookup. intros k x Hx. pose proof (lookup_lt_Some _ _ _ Hx). destruct (wiring_codec k) as [c Hck]; [lia|].
    rewrite (Hc _ _ Hck) in Hx. eapply Forall_lookup_1; [apply array_of_bits|exact Hx]. }
  destruct (from_bitarr_holds out) as (b1 & Eb1 & Hb1 & _ & _). rewrite length_fmap in Lc.
  exists b1, out, (bool_decide (b2z <$> cb = b2z <$> rb)). split; [|by split].
  unfold decode_tp. rewrite bool_decide_true by done. cbn [negb get_params].
  assert (E4' : call (tetra_scramb_bits code) b = Some (tt, b4)) by (unfold call; by rewrite E4). rewrite E4'. step.
  rewrite Es. step. change (type345_bits TCH_S_PARAMS) with 432. rewrite El. step.
  rewrite splice_full by (by rewrite length_replicate, length_fmap, Ll). step. rewrite E3. step. rewrite Et. step.
  rewrite slice_full by (rewrite length_fmap, !length_app; lia). step. rewrite Ec. step. by rewrite Eb1.
Qed.

(** ** Theorems *)

(** C10 (signalling round trip).  On every channel with CRC-16 control coding
    (BSCH, SCH/HD, STCH, BNCH, SCH/F, SCH/HU), for every type-1 block of the right
    length, every buffer layout holding it and every scrambling code, [encode_cp]
    produces a block of the channel's type-5 length, and [decode_cp] with the same
    code recovers exactly the type-1 bits with the CRC check passing. *)
Theorem decode_cp_encode_cp lchan params bits b code :
  get_params lchan = Some params -> have_crc16 params = true ->
  length bits = type1_bits params -> wf b -> window b = bits ->
  exists type5,
    encode_cp {| mac_block := b; logical_channel := lchan; scrambling_code := code |}
    = Some (Some type5) /\
    get_len type5 = type345_bits params /\
    forall bt default_code,
      (if bool_decide (bt = SB1) then Some SCRAMB_INIT else default_code) = Some code ->
      exists type1,
        decode_cp lchan {| block_type := bt; block := type5 |} default_code
        = Some (Some type1, true) /\ holds type1 bits.
Proof. apply encode_decode_cp. Qed.

Lemma decode_cp_encode_cp_witness :
  exists b, from_bitarr (b2z <$> replicate 60 true) = Some b /\
  exists type5,
    encode_cp {| mac_block := b; logical_channel := Bsch; scrambling_code := SCRAMB_INIT |}
    = Some (Some type5) /\
    get_len type5 = 120 /\
    forall bt default_code,
      (if bool_decide (bt = SB1) then Some SCRAMB_INIT else default_code) = Some SCRAMB_INIT ->
      exists type1,
        decode_cp Bsch {| block_type := bt; block := type5 |} default_code
        = Some (Some type1, true) /\ holds type1 (replicate 60 true).
Proof.
  destruct (from_bitarr_holds (replicate 60 true)) as (b & E & [W _ Hw] & _).
  exists b. split; [exact E|].
  apply (decode_cp_encode_cp Bsch BSCH_PARAMS (replicate 60 true) b SCRAMB_INIT).
  - reflexivity.
  - reflexivity.
  - reflexivity.
  - exact W.
  - exact Hw.
Defined.

(** Any buffer that holds what was sent decodes to the frame. *)
Lemma encode_decode_tp_sent bits b code :
  length bits = 274 -> wf b -> window b = bits ->
  exists type5 sent,
    encode_tp {| mac_block := b; logical_channel := TchS; scrambling_code := code |} 1 = Some (Some type5) /\
    holds type5 sent /\ length sent = 432 /\
    forall r, holds r sent -> exists type1, decode_tp TchS r code = Some (Some type1, true) /\ holds type1 bits.
Proof.
  intros Hl Wb Hw. destruct (encode_tp_block bits b code Hl Wb Hw) as
    (c0 & c1 & c2 & cb & p1 & p2 & t4 & b4 & b5 & L0 & L1 & L2 & Lcb & Eco & Ecb & Ed & Em & Lt4
     & Hb4 & E5 & Hb5 & Henc).
  eexists b5, _. rewrite Henc. split_and!; [done|exact Hb5|by rewrite length_keystream_xor|].
  intros r Hr. destruct (call_scramb code r _ Hr) as (r4 & Er & _ & Hr4).
  destruct (call_scramb code b5 _ Hb5) as (b4' & Eb4' & _ & Hb4'). rewrite E5 in Eb4'. injection Eb4' as <-.
  rewrite <- (ho_window _ _ Hb4'), (ho_window _ _ Hb4) in Hr4.
  apply (decode_tp_block code r r4 t4 (b2z <$> (c0 ++ p1 ++ p2)) (c0 ++ c1 ++ c2) bits);
    try done; [rewrite !length_app; lia|by apply (decode_type3_ok c0 c1 c2 cb)].
Qed.

(** Speech round trip.  For every 274-bit ACELP frame and scrambling code, the
    full-slot TCH/S chain (reordering, unequal error protection with a continuous
    convolutional encoder, CRC, matrix interleaving, scrambling) yields 432 bits
    that [decode_tp] turns back into the frame, in codec order, with the class-2
    CRC check passing. *)
Theorem decode_tp_encode_tp bits b code :
  length bits = 274 -> wf b -> window b = bits ->
  exists type5,
    encode_tp {| mac_block := b; logical_channel := TchS; scrambling_code := code |} 1
    = Some (Some type5) /\ get_len type5 = 432 /\
    exists type1, decode_tp TchS type5 code = Some (Some type1, true) /\ holds type1 bits.
Proof.
  intros Hl Wb Hw. destruct (encode_tp_block bits b code Hl Wb Hw) as
    (c0 & c1 & c2 & cb & p1 & p2 & t4 & b4 & b5 & L0 & L1 & L2 & Lcb & Eco & Ecb & Ed & Em & Lt4
     & Hb4 & E5 & Hb5 & Henc).
  exists b5. rewrite Henc. split_and!; [done| |].
  - by rewrite (holds_len _ _ Hb5), length_keystream_xor.
  - apply (decode_tp_block code b5 b4 t4 (b2z <$> (c0 ++ p1 ++ p2)) (c0 ++ c1 ++ c2) bits);
      try done; [rewrite !length_app; lia|by apply (decode_type3_ok c0 c1 c2 cb)].
Qed.


(** Half slot.  When the first half slot was stolen, [encode_tp] returns
    exactly the last 216 of the 432 bits it would send in a full slot. *)
Theorem encode_tp_half_slot bits b code blk_num :
  length bits = 274 -> wf b -> window b = bits -> blk_num <> 1%Z ->
  exists full half full_bits,
    encode_tp {| mac_block := b; logical_channel := TchS; scrambling_code := code |} 1
    = Some (Some full) /\ holds full full_bits /\ length full_bits = 432 /\
    encode_tp {| mac_block := b; logical_channel := TchS; scrambling_code := code |} blk_num
    = Some (Some half) /\ holds half (drop 216 full_bits).
Proof.
  intros Hl Wb Hw Hblk. destruct (encode_tp_block bits b code Hl Wb Hw) as
    (c0 & c1 & c2 & cb & p1 & p2 & t4 & b4 & b5 & _ & _ & _ & _ & _ & _ & _ & _ & Lt4
     & _ & _ & Hb5 & Henc).
  set (full_bits := zip_with xorb t4 _) in Hb5.
  assert (Lf : length full_bits = 432) by (unfold full_bits; by rewrite length_keystream_xor).
  destruct (from_bitarr_holds (drop 216 full_bits)) as (half & Eh & Hh & _ & _).
  exists b5, half, full_bits. rewrite !Henc. split_and!; try done.
  rewrite (proj2 (Z.eqb_neq _ _) Hblk). rewrite (call_seek0 b5 _ Hb5). step.
  destruct (call_to_bitarr b5 full_bits 432 Hb5 (eq_sym Lf)) as (b' & Eb'). rewrite Eb'. step.
  rewrite splice_full by (by rewrite length_replicate, length_fmap, Lf). step.
  rewrite <- (take_drop 216 full_bits) at 1. rewrite fmap_app.
  rewrite slice_end; [|rewrite length_fmap, length_take, Lf; done|].
  2: { rewrite !length_fmap, length_take, length_drop, Lf. done. }
  step. rewrite Eh. done.
Qed.


(** Access assignment with one error.  For every 14-bit access assignment and
    scrambling code, the 30-bit block [encode_aach] sends is decoded to the same
    14 bits when it arrives unchanged and when any single bit of it is inverted
    on the way. *)
Theorem decode_aach_encode_aach b bits code :
  holds b bits -> length bits = 14 ->
  exists type5 sent,
    encode_aach b code = Some type5 /\ holds type5 sent /\ length sent = 30 /\
    forall r i, holds r sent \/ holds r (flip i sent) ->
      exists type1, decode_aach r code = Some type1 /\ holds type1 bits.
Proof.
  intros Hb Hl. destruct (encode_aach_ok b bits code Hb Hl) as (type5 & E & H5).
  eexists type5, _. split_and!; [done|exact H5| |].
  - by rewrite length_zip_with, length_val_bits, length_keystream.
  - intros r i Hr. by apply (decode_aach_ok r bits code i).
Qed.


(** C29 (decoding any block).  Whatever bits arrive in a block of the channel's
    size, [decode_cp] returns without panicking: the first bits of the word that the decoder
    of the convolutional code finds for the received block, which is the most likely among
    all terminated words, and as verdict exactly whether the 16 bits after them close the
    CRC-16. *)
Theorem decode_cp_total lchan params prim default_code code :
  get_params lchan = Some params -> have_crc16 params = true ->
  wf (block prim) -> type345_bits params <= length (remaining (block prim)) ->
  (if bool_decide (block_type prim = SB1) then Some SCRAMB_INIT else default_code) = Some code ->
  exists soft word type1,
    soft_bits params code (block prim) = Some soft /\ decode TetraViterbiDecoder_new soft = b2z <$> word /\
    most_likely soft word /\ length word = type1_bits params + 20 /\
    decode_cp lchan prim default_code
      = Some (Some type1, (crc16 0xffff (take (type1_bits params + 16) word) =? TETRA_CRC_OK)%Z) /\
    holds type1 (take (type1_bits params) word).
Proof. apply decode_cp_decodes. Qed.

Lemma decode_cp_total_witness :
  exists b, from_bitarr (b2z <$> replicate 168 true) = Some b /\
  exists soft word type1,
    soft_bits SCH_HU_PARAMS 99 b = Some soft /\ decode TetraViterbiDecoder_new soft = b2z <$> word /\
    most_likely soft word /\ length word = 112 /\
    decode_cp SchHu {| block_type := SSN1; block := b |} (Some 99%Z)
      = Some (Some type1, (crc16 0xffff (take 108 word) =? TETRA_CRC_OK)%Z) /\
    holds type1 (take 92 word).
Proof.
  destruct (from_bitarr_holds (replicate 168 true)) as (b & E & Hb & _).
  exists b. split; [exact E|].
  apply (decode_cp_total SchHu SCH_HU_PARAMS {| block_type := SSN1; block := b |} (Some 99%Z) 99%Z).
  - reflexivity.
  - reflexivity.
  - exact (ho_wf _ _ Hb).
  - cbn [block]. rewrite (holds_remaining _ _ Hb), length_replicate. cbn. lia.
  - reflexivity.
Defined.

(** Encoding never panics.  For every channel and every well-formed buffer
    [encode_cp] returns: a block exactly when the channel has CRC-16 control
    coding and the buffer has its type-1 length, and otherwise nothing. *)
Theorem encode_cp_total prim :
  wf (mac_block prim) ->
  exists r, encode_cp prim = Some r /\
    (is_Some r <-> exists params, get_params (logical_channel prim) = Some params /\
       have_crc16 params = true /\ get_len (mac_block prim) = type1_bits params).
Proof.
  destruct prim as [b lchan code]. cbn [mac_block logical_channel]. intros W.
  assert (Hdec : Decision (exists params, get_params lchan = Some params /\
              have_crc16 params = true /\ get_len b = type1_bits params)).
  { destruct (get_params lchan) as [params|]; [|right; by intros (? & ? & _)].
    destruct (decide (have_crc16 params = true /\ get_len b = type1_bits params)) as [Hy|Hn].
    - left. eauto.
    - right. intros (p & [= <-] & Hp). done. }
  destruct Hdec as [Hyes|Hno].
  - destruct Hyes as (params & Hp & Hc & Hl).
    destruct (encode_decode_cp lchan params (window b) b code) as (t5 & E & _); try done.
    { unfold window. rewrite length_getbits. exact Hl. }
    exists (Some t5). split; [exact E|]. split; [eauto|]. by intros _.
  - exists None. split; [|by split; [intros [? ?]|]].
    unfold encode_cp. cbn [mac_block logical_channel].
    destruct (negb (is_control_channel lchan) || bool_decide (lchan = Aach)) eqn:Ectl; [done|].
    destruct (get_params lchan) as [params|] eqn:Hp; [|done].
    destruct (get_len b =? type1_bits params) eqn:El; [|done]. exfalso. apply Hno.
    exists params. apply Nat.eqb_eq in El. split_and!; try done.
    destruct lchan; simpl in Ectl, Hp; try discriminate Ectl; by injection Hp as <-.
Qed.

