(* ===== verification/Fcs.v ===== *)
(** * LLC frame check sequence
      (crates/tetra-entities/src/llc/components/fcs.rs)

    The 32-bit instance of the generic CRC, computed over a range of a bit buffer
    and compared with the last 32 bits of the buffer. *)

From Stdlib Require Import ZArith Lia ZifyNat.
From S2P Require Import Prelude BitBuffer BitBufferFacts Crc.

Definition FCS_POLY : Z := 0x04C11DB7.

(** The loop body. *)
Definition fcs_step (crc bit : Z) : Z :=
  let feedback := Z.land (Z.lxor bit (u8 (Z.shiftr crc 31))) 1 in
  let crc := u32 (Z.shiftl crc 1) in
  if negb (feedback =? 0)%Z then Z.lxor crc FCS_POLY else crc.

(** The register before the first bit.  A [u32] shift by 32 (empty range) is
    taken modulo 32, as in a build without overflow checks. *)
Definition fcs_init (len : nat) : Z :=
  if len <? 32 then u32 (Z.shiftl 0xFFFFFFFF (Z.of_nat ((32 - len) mod 32))) else 0xFFFFFFFF%Z.

Definition u32_not (x : Z) : Z := u32 (Z.lnot x).

Definition compute_fcs (bitbuf : BitBuffer) (start end_ : nat) : option Z :=
  if negb (start <=? end_) then None
  else if negb (end_ <=? get_len bitbuf) then None
  else
    let len := end_ - start in
    crc ← foldM (fun crc i =>
      let bit_pos := start + i in
      match peek_bits_startoffset bitbuf bit_pos 1 with
      | Some (Some bit) => Some (fcs_step crc (u8 bit))
      | _ => None
      end) (seq 0 len) (fcs_init len);
    Some (u32_not crc).

Definition check_fcs (bitbuf : BitBuffer) : option bool :=
  if get_len_remaining bitbuf <? 32 then Some false
  else
    fcs_computed ← compute_fcs bitbuf (get_pos bitbuf) (get_len bitbuf - 32);
    match peek_bits_startoffset bitbuf (get_len bitbuf - 32) 32 with
    | Some (Some v) => Some (fcs_computed =? u32 v)%Z
    | _ => None
    end.

(** ** The loop is the generic CRC *)

Abbreviation crc32 := (crc 32 FCS_POLY).

Lemma fcs_poly_ok : (0 <= FCS_POLY < 2 ^ Z.of_nat 32)%Z /\ Z.testbit FCS_POLY 0 = true.
Proof. by vm_compute. Qed.

Lemma fcs_step_generic x b :
  (0 <= x < 2 ^ 32)%Z -> fcs_step x (b2z b) = crc_step 32 FCS_POLY x b.
Proof.
  intros Hx. unfold fcs_step, crc_step.
  assert (Et : Z.land (Z.lxor (b2z b) (u8 (Z.shiftr x 31))) 1
               = b2z (xorb (Z.testbit x (Z.of_nat 32 - 1)) b)).
  { change (Z.of_nat 32 - 1)%Z with 31%Z.
    assert (E31 : u8 (Z.shiftr x 31) = b2z (Z.testbit x 31)).
    { rewrite Z.shiftr_div_pow2 by lia.
      assert (Hq : (0 <= x / 2 ^ 31 <= 1)%Z) by (split; [apply Z.div_pos; lia|];
        apply Z.lt_succ_r, Z.div_lt_upper_bound; lia).
      pose proof (Z.testbit_spec' x 31 ltac:(lia)) as Hs.
      rewrite u8_small by lia. rewrite Z.mod_small in Hs by lia. rewrite <- Hs.
      by destruct (Z.testbit x 31). }
    rewrite E31. by destruct b, (Z.testbit x 31). }
  rewrite Et. assert (Es : u32 (Z.shiftl x 1) = shift_out 32 x).
  { unfold shift_out, u32. by rewrite Z.land_ones by lia. }
  rewrite Es. destruct (xorb _ _); simpl; [done|]. by rewrite Z.lxor_0_r.
Qed.

Lemma fcs_init_reg len : (0 <= fcs_init len < 2 ^ 32)%Z.
Proof. unfold fcs_init. destruct (len <? 32); [apply Z.mod_pos_bound; lia|lia]. Qed.

Lemma getbits_1 buf p : getbits buf p 1 = [getbit buf p].
Proof. done. Qed.

(** The value [compute_fcs] returns for a payload. *)
Definition fcs_of (payload : list bool) : Z :=
  Z.lxor (crc32 (fcs_init (length payload)) payload) (Z.ones 32).

Lemma fcs_of_bound payload : (0 <= fcs_of payload < 2 ^ 32)%Z.
Proof.
  apply (reg_lxor 32); [lia| |by vm_compute].
  apply reg_crc; [lia|apply fcs_poly_ok|apply fcs_init_reg].
Qed.

Lemma u32_not_xor x : (0 <= x < 2 ^ 32)%Z -> u32_not x = Z.lxor x (Z.ones 32).
Proof.
  intros Hx. unfold u32_not, u32. rewrite <- Z.land_ones by lia.
  apply Z.bits_inj'. intros i Hi. rewrite Z.land_spec, Z.lxor_spec, Z.lnot_spec by done.
  destruct (Z.lt_ge_cases i 32).
  - rewrite Z.ones_spec_low by lia. by destruct (Z.testbit x i).
  - rewrite Z.ones_spec_high, andb_false_r, xorb_false_r by lia.
    symmetry. rewrite <- (Z.mod_small x (2 ^ 32)) by done. apply Z.mod_pow2_bits_high. lia.
Qed.

Lemma compute_fcs_loop b start0 k : forall c,
  wf b -> start b + start0 + k <= end_ b -> (0 <= c < 2 ^ 32)%Z ->
  foldM (fun crc i =>
      let bit_pos := start0 + i in
      match peek_bits_startoffset b bit_pos 1 with
      | Some (Some bit) => Some (fcs_step crc (u8 bit))
      | _ => None
      end) (seq 0 k) c
  = Some (crc32 c (getbits (buffer b) (start b + start0) k)).
Proof.
  induction k as [|k IH]; intros c W He Hc; [done|].
  rewrite seq_S, foldM_app, IH by (done || lia). step. cbn [Nat.add foldM].
  rewrite peek_bits_startoffset_spec by (done || lia). rewrite Nat.add_assoc, getbits_1.
  replace (bits_val [getbit (buffer b) (start b + start0 + k)])
    with (b2z (getbit (buffer b) (start b + start0 + k))) by (by destruct (getbit _ _)).
  replace (u8 (b2z (getbit (buffer b) (start b + start0 + k))))
    with (b2z (getbit (buffer b) (start b + start0 + k))) by (by destruct (getbit _ _)).
  rewrite fcs_step_generic by (apply (reg_crc 32 FCS_POLY); try apply fcs_poly_ok; done || lia).
  step. replace (S k) with (k + 1) by lia. rewrite getbits_app, getbits_1, crc_app. done.
Qed.

Lemma compute_fcs_spec b s e :
  wf b -> s <= e -> e <= get_len b ->
  compute_fcs b s e = Some (fcs_of (getbits (buffer b) (start b + s) (e - s))).
Proof.
  intros W Hs He. pose proof W as [Wb Ws Wp We]. unfold get_len in He. unfold compute_fcs, get_len.
  btrue (s <=? e). btrue (e <=? end_ b - start b). cbn [negb].
  rewrite compute_fcs_loop by (done || lia || apply fcs_init_reg). step.
  f_equal. unfold fcs_of. rewrite length_getbits. apply u32_not_xor.
  apply (reg_crc 32 FCS_POLY); try apply fcs_poly_ok; try lia. apply fcs_init_reg.
Qed.

(** The check accepts exactly when the last 32 bits are the payload's FCS. *)
Lemma check_fcs_spec b payload fcs :
  wf b -> remaining b = payload ++ fcs -> length fcs = 32 ->
  check_fcs b = Some (bits_val fcs =? fcs_of payload)%Z.
Proof.
  intros W Hr Hf. pose proof W as [Wb Ws Wp We].
  pose proof (length_remaining b) as Hl. rewrite Hr, length_app, Hf in Hl.
  unfold check_fcs, get_len_remaining, get_pos. bfalse (end_ b - pos b <? 32).
  rewrite compute_fcs_spec by (done || unfold get_len; lia). step.
  unfold get_len. rewrite peek_bits_startoffset_spec by (done || lia).
  unfold remaining in Hr.
  replace (end_ b - pos b) with (length payload + 32) in Hr by lia. rewrite getbits_app in Hr.
  apply app_inj_1 in Hr as [Hp Hfcs]; [|apply length_getbits].
  replace (start b + (pos b - start b)) with (pos b) by lia.
  replace (end_ b - start b - 32 - (pos b - start b)) with (length payload) by lia.
  replace (start b + (end_ b - start b - 32)) with (pos b + length payload) by lia.
  rewrite Hp, Hfcs, u32_small.
  - by rewrite Z.eqb_sym.
  - pose proof (bits_val_bound fcs) as Hb. by rewrite Hf in Hb.
Qed.

(** ** Theorems *)

(** Frame check sequence.  With a payload and 32 check bits ahead of the cursor
    of any well-formed buffer, [check_fcs] accepts exactly the payload's own FCS;
    and once a frame is accepted, replacing at most 32 consecutive payload bits
    by different ones makes it rejected. *)
Theorem check_fcs_detects_burst b b' pre e1 e2 post fcs :
  wf b -> wf b' -> length fcs = 32 ->
  length e1 = length e2 -> length e1 <= 32 -> e1 <> e2 ->
  remaining b = (pre ++ e1 ++ post) ++ fcs -> remaining b' = (pre ++ e2 ++ post) ++ fcs ->
  check_fcs b = Some (bits_val fcs =? fcs_of (pre ++ e1 ++ post))%Z /\
  (check_fcs b = Some true -> check_fcs b' = Some false).
Proof.
  intros W W' Hf Hl H32 Hne Hr Hr'. split; [by apply check_fcs_spec|].
  rewrite (check_fcs_spec b _ fcs W Hr Hf), (check_fcs_spec b' _ fcs W' Hr' Hf).
  intros [= E%Z.eqb_eq]. f_equal. apply Z.eqb_neq. rewrite E. unfold fcs_of. intros Eq.
  apply (f_equal (fun z => Z.lxor z (Z.ones 32))) in Eq.
  rewrite !Z.lxor_assoc, Z.lxor_nilpotent, !Z.lxor_0_r, !length_app, Hl in Eq. revert Eq.
  apply (crc_detects_burst 32 FCS_POLY); try apply fcs_poly_ok; try done; try lia.
  apply fcs_init_reg.
Qed.

