(* ===== verification/Tdma.v ===== *)
(** * TDMA time (crates/tetra-core/src/tdma_time.rs)

    Timeslot, frame, multiframe and hyperframe counters, their conversion to and
    from a linear slot count, differences across the hyperframe wrap-around and
    the positions of the mandatory broadcast blocks. *)

From Stdlib Require Import ZArith Lia ZifyNat.
From S2P Require Import Prelude.
Local Open Scope Z_scope.

(** [u8] timeslot, frame and multiframe, [u16] hyperframe. *)
Record TdmaTime := mkTime { t : Z; f : Z; m : Z; h : Z }.

#[export] Instance TdmaTime_eq_dec : EqDecision TdmaTime.
Proof. solve_decision. Defined.

Definition TdmaTime_default : TdmaTime := mkTime 1 1 1 0.

Definition hyperframes (n : Z) : Z := i32 (n * 60 * 18 * 4).
Definition multiframes (n : Z) : Z := i32 (n * 18 * 4).
Definition frames (n : Z) : Z := i32 (n * 4).

Definition TIME_INT_WRAP : Z := 4 * 18 * 60 * 65536.

(** The two [while] loops; an [i32] difference is within eight wraps of the target. *)
Fixpoint raise_loop (fuel : nat) (diff : Z) : Z :=
  match fuel with
  | O => diff
  | S fuel' => if diff <? Z.quot (- TIME_INT_WRAP) 2
               then raise_loop fuel' (i32 (diff + TIME_INT_WRAP)) else diff
  end.
Fixpoint lower_loop (fuel : nat) (diff : Z) : Z :=
  match fuel with
  | O => diff
  | S fuel' => if Z.quot TIME_INT_WRAP 2 <=? diff
               then lower_loop fuel' (i32 (diff - TIME_INT_WRAP)) else diff
  end.
Definition time_int_diff (a b : Z) : Z := lower_loop 8 (raise_loop 8 (i32 (a - b))).

Definition is_valid (self : TdmaTime) : bool :=
  (1 <=? t self) && (t self <=? 4) && (1 <=? f self) && (f self <=? 18)
  && (1 <=? m self) && (m self <=? 60).

Definition to_int (self : TdmaTime) : Z :=
  i32 ((t self - 1) + ((f self - 1) * 4) + ((m self - 1) * 4 * 18) + (h self * 4 * 18 * 60)).

(** [rem_euclid] and [div_euclid] by positive constants are [mod] and [/]. *)
Definition from_int (time : Z) : TdmaTime :=
  mkTime (u8 (time mod 4 + 1)) (u8 ((time / 4) mod 18 + 1))
         (u8 ((time / (4 * 18)) mod 60 + 1)) (u16 (time / (4 * 18 * 60))).

Definition add_timeslots (self : TdmaTime) (num_slots : Z) : TdmaTime :=
  from_int (i32 (to_int self + num_slots)).

Definition diff (self b : TdmaTime) : Z := time_int_diff (to_int self) (to_int b).

Definition age (self now : TdmaTime) : Z := diff now self.

Definition forward_to_timeslot (self : TdmaTime) (ts : Z) : TdmaTime :=
  let slots_to_add := u8 (u8 (ts + 4) - t self) mod 4 in
  add_timeslots self slots_to_add.

Definition is_mandatory_bsch (self : TdmaTime) : bool :=
  (f self =? 18) && (t self =? u8 (4 - (u8 (m self + 1)) mod 4)).
Definition is_mandatory_bnch (self : TdmaTime) : bool :=
  (f self =? 18) && (t self =? u8 (4 - (u8 (m self + 3)) mod 4)).
Definition is_mandatory_clch (self : TdmaTime) : bool :=
  (f self =? 18) && (t self =? u8 (4 - (u8 (m self + 1)) mod 4)).

(** ** Facts *)

(** A valid time with a [u16] hyperframe. *)
Definition valid (x : TdmaTime) : Prop := is_valid x = true /\ 0 <= h x < 65536.

Lemma valid_bounds x :
  valid x <-> 1 <= t x <= 4 /\ 1 <= f x <= 18 /\ 1 <= m x <= 60 /\ 0 <= h x < 65536.
Proof.
  unfold valid, is_valid. rewrite !andb_true_iff, !Z.leb_le. lia.
Qed.

(** The linear slot count, without machine arithmetic. *)
Definition slot_count (x : TdmaTime) : Z :=
  (t x - 1) + 4 * (f x - 1) + 72 * (m x - 1) + 4320 * h x.

Lemma slot_count_range x : valid x -> 0 <= slot_count x < TIME_INT_WRAP.
Proof. rewrite valid_bounds. unfold slot_count, TIME_INT_WRAP. lia. Qed.

Lemma to_int_count x : valid x -> to_int x = slot_count x.
Proof.
  intros V. pose proof (slot_count_range x V) as H. unfold to_int.
  rewrite i32_small; unfold slot_count, TIME_INT_WRAP in *; lia.
Qed.

Lemma from_int_valid x : valid (from_int x).
Proof.
  apply valid_bounds. unfold from_int. cbn [t f m h].
  rewrite !u8_small by divlia. unfold u16. divlia.
Qed.

Lemma from_int_count x : slot_count (from_int x) = x mod TIME_INT_WRAP.
Proof.
  unfold slot_count, from_int, TIME_INT_WRAP. cbn [t f m h].
  rewrite !u8_small by divlia. unfold u16. divlia.
Qed.

Lemma slot_count_inj x y : valid x -> valid y -> slot_count x = slot_count y -> x = y.
Proof.
  rewrite !valid_bounds. destruct x as [t1 f1 m1 h1], y as [t2 f2 m2 h2].
  unfold slot_count. cbn [t f m h]. intros Hx Hy E.
  assert (h1 = h2) by lia. assert (m1 = m2) by lia. assert (f1 = f2) by lia.
  assert (t1 = t2) by lia. congruence.
Qed.

Lemma from_int_to_int x : valid x -> from_int (to_int x) = x.
Proof.
  intros V. apply slot_count_inj; [apply from_int_valid|done|].
  rewrite from_int_count, to_int_count by done. apply Z.mod_small, slot_count_range, V.
Qed.

Lemma to_int_from_int x : to_int (from_int x) = x mod TIME_INT_WRAP.
Proof. rewrite to_int_count by apply from_int_valid. apply from_int_count. Qed.

Lemma add_timeslots_count x n :
  valid x -> - 2 ^ 30 <= n <= 2 ^ 30 ->
  valid (add_timeslots x n) /\
  slot_count (add_timeslots x n) = (slot_count x + n) mod TIME_INT_WRAP.
Proof.
  intros V Hn. unfold add_timeslots. split; [apply from_int_valid|].
  rewrite from_int_count, to_int_count by done. pose proof (slot_count_range x V) as H.
  unfold TIME_INT_WRAP in *. by rewrite i32_small by lia.
Qed.

(** The loops normalise into the half-open interval around 0. *)
Lemma raise_loop_spec k : forall d,
  - 2 ^ 31 <= d < 2 ^ 31 -> - TIME_INT_WRAP / 2 - Z.of_nat k * TIME_INT_WRAP <= d ->
  exists q, 0 <= q /\ raise_loop k d = d + q * TIME_INT_WRAP /\
    - TIME_INT_WRAP / 2 <= d + q * TIME_INT_WRAP < Z.max (2 ^ 31) d /\
    (- TIME_INT_WRAP / 2 <= d -> q = 0) /\ d + q * TIME_INT_WRAP <= Z.max d (TIME_INT_WRAP / 2 - 1).
Proof.
  change (Z.quot (- TIME_INT_WRAP) 2) with (- TIME_INT_WRAP / 2).
  unfold TIME_INT_WRAP. induction k as [|k IH]; intros d Hd Hk; cbn [raise_loop].
  - exists 0. split_and!; lia.
  - change (Z.quot (- TIME_INT_WRAP) 2) with (-141557760).
    destruct (Z.ltb_spec d (-141557760)) as [Hlt|Hge].
    + destruct (IH (d + 4 * 18 * 60 * 65536)) as (q & Hq & E & H1 & H2 & H3); [lia|lia|].
      exists (q + 1). unfold TIME_INT_WRAP. rewrite i32_small by lia. rewrite E.
      split_and!; lia.
    + exists 0. split_and!; lia.
Qed.

Lemma lower_loop_spec k : forall d,
  - TIME_INT_WRAP / 2 <= d < 2 ^ 31 -> d < TIME_INT_WRAP / 2 + Z.of_nat k * TIME_INT_WRAP ->
  exists q, lower_loop k d = d + q * TIME_INT_WRAP /\
    - TIME_INT_WRAP / 2 <= d + q * TIME_INT_WRAP < TIME_INT_WRAP / 2.
Proof.
  unfold TIME_INT_WRAP. induction k as [|k IH]; intros d Hd Hk; cbn [lower_loop].
  - exists 0. lia.
  - change (Z.quot TIME_INT_WRAP 2) with 141557760.
    destruct (Z.leb_spec 141557760 d) as [Hle|Hgt].
    + destruct (IH (d - 4 * 18 * 60 * 65536)) as (q & E & H1); [lia|lia|].
      exists (q - 1). unfold TIME_INT_WRAP. rewrite i32_small by lia. rewrite E. lia.
    + exists 0. lia.
Qed.

Lemma time_int_diff_spec a b :
  0 <= a < TIME_INT_WRAP -> 0 <= b < TIME_INT_WRAP ->
  - TIME_INT_WRAP / 2 <= time_int_diff a b < TIME_INT_WRAP / 2 /\
  exists q, time_int_diff a b = a - b + q * TIME_INT_WRAP.
Proof.
  intros Ha Hb. unfold time_int_diff. unfold TIME_INT_WRAP in Ha, Hb. rewrite i32_small by lia.
  destruct (raise_loop_spec 8 (a - b)) as (q1 & _ & E1 & H1 & _ & H2).
  { lia. } { unfold TIME_INT_WRAP. lia. }
  rewrite E1. destruct (lower_loop_spec 8 (a - b + q1 * TIME_INT_WRAP)) as (q2 & E2 & H3).
  { unfold TIME_INT_WRAP in *. lia. } { unfold TIME_INT_WRAP in *. lia. }
  rewrite E2. split; [exact H3|]. exists (q1 + q2). lia.
Qed.

Lemma diff_count x y :
  valid x -> valid y ->
  - TIME_INT_WRAP / 2 <= diff x y < TIME_INT_WRAP / 2 /\
  exists q, diff x y = slot_count x - slot_count y + q * TIME_INT_WRAP.
Proof.
  intros Vx Vy. unfold diff. rewrite !to_int_count by done.
  apply time_int_diff_spec; by apply slot_count_range.
Qed.

(** A difference in range is determined by its residue. *)
Lemma diff_unique x y n :
  valid x -> valid y -> - TIME_INT_WRAP / 2 <= n < TIME_INT_WRAP / 2 ->
  (exists q, n = slot_count x - slot_count y + q * TIME_INT_WRAP) -> diff x y = n.
Proof.
  intros Vx Vy Hn (q & Eq). destruct (diff_count x y Vx Vy) as (Hr & q' & Eq').
  assert (q = q') by (unfold TIME_INT_WRAP in *; lia). subst. lia.
Qed.

Lemma add_diff x n :
  valid x -> - TIME_INT_WRAP / 2 <= n < TIME_INT_WRAP / 2 -> diff (add_timeslots x n) x = n.
Proof.
  intros V Hn. destruct (add_timeslots_count x n V) as [V' E].
  { unfold TIME_INT_WRAP in Hn. lia. }
  apply diff_unique; try done. rewrite E. exists ((slot_count x + n) / TIME_INT_WRAP).
  pose proof (Z.div_mod (slot_count x + n) TIME_INT_WRAP ltac:(done)). lia.
Qed.

(** ** Theorems *)

(** Linear time: [to_int] and [from_int] are inverse on valid times; every
    [i32] is a valid time, and reading it back reduces it modulo the hyperframe
    wrap, negative values included. *)
Lemma tdma_int_roundtrip x n :
  valid x ->
  0 <= to_int x < TIME_INT_WRAP /\ from_int (to_int x) = x /\
  valid (from_int n) /\ to_int (from_int n) = n mod TIME_INT_WRAP.
Proof.
  intros V. split_and!; [| |by apply from_int_to_int|apply from_int_valid|apply to_int_from_int];
    rewrite to_int_count by done; apply slot_count_range, V.
Qed.

(** Advancing and measuring.  For a valid time and a step of less than half a
    hyperframe cycle either way, [diff] of the advanced time and the original is
    the step, across every wrap-around; and two steps compose. *)
Theorem tdma_add_diff x n k :
  valid x -> - TIME_INT_WRAP / 2 <= n < TIME_INT_WRAP / 2 -> - 2 ^ 29 <= k <= 2 ^ 29 ->
  valid (add_timeslots x n) /\ diff (add_timeslots x n) x = n /\
  age x (add_timeslots x n) = n /\
  add_timeslots (add_timeslots x n) k = add_timeslots x (n + k).
Proof.
  intros V Hn Hk. assert (Hn' : - 2 ^ 28 <= n <= 2 ^ 28) by (unfold TIME_INT_WRAP in Hn; lia).
  destruct (add_timeslots_count x n V) as [V' E]; [lia|].
  split_and!; [done|by apply add_diff|by apply add_diff|].
  destruct (add_timeslots_count _ k V') as [V2 E2]; [lia|].
  destruct (add_timeslots_count x (n + k) V) as [V3 E3]; [lia|].
  apply slot_count_inj; try done. rewrite E2, E3, E.
  rewrite Zplus_mod_idemp_l. f_equal. lia.
Qed.


(** [forward_to_timeslot] reaches the requested timeslot, less than
    four slots ahead. *)
Lemma forward_to_timeslot_next x ts :
  valid x -> 1 <= ts <= 4 ->
  valid (forward_to_timeslot x ts) /\ t (forward_to_timeslot x ts) = ts /\
  0 <= diff (forward_to_timeslot x ts) x < 4.
Proof.
  intros V Hts. pose proof V as Hb. rewrite valid_bounds in Hb. unfold forward_to_timeslot.
  rewrite (u8_small (ts + 4)) by lia. rewrite u8_small by lia.
  set (n := (ts + 4 - t x) mod 4). assert (Hn : 0 <= n < 4) by (unfold n; divlia).
  destruct (add_timeslots_count x n V) as [V' E]; [lia|].
  split_and!; [done| |rewrite add_diff by (done || unfold TIME_INT_WRAP; lia); lia..].
  rewrite valid_bounds in V'. revert V' E. destruct (add_timeslots x n) as [t1 f1 m1 h1].
  unfold slot_count, TIME_INT_WRAP. cbn [t f m h]. intros V' E.
  assert (Em : (t1 - 1) mod 4 = (t x - 1 + n) mod 4) by divlia.
  unfold n in Em. divlia.
Qed.

(** In every multiframe there is exactly one
    mandatory BSCH slot and exactly one mandatory BNCH slot, both in frame 18 and
    never the same one, and the uplink linearization slot is the BSCH one. *)
Lemma mandatory_slots_unique mf hf :
  1 <= mf <= 60 ->
  exists tb tn, 1 <= tb <= 4 /\ 1 <= tn <= 4 /\ tb <> tn /\
    forall tt ff, 1 <= tt <= 4 -> 1 <= ff <= 18 ->
      (is_mandatory_bsch (mkTime tt ff mf hf) = true <-> ff = 18 /\ tt = tb) /\
      (is_mandatory_bnch (mkTime tt ff mf hf) = true <-> ff = 18 /\ tt = tn) /\
      (is_mandatory_clch (mkTime tt ff mf hf) = true <-> ff = 18 /\ tt = tb).
Proof.
  intros Hm. exists (4 - (mf + 1) mod 4), (4 - (mf + 3) mod 4).
  split_and!; [divlia..|]. intros tt ff Ht Hf.
  unfold is_mandatory_bsch, is_mandatory_bnch, is_mandatory_clch. cbn [t f m].
  rewrite !(u8_small (mf + _)) by lia. rewrite !u8_small by divlia.
  rewrite !andb_true_iff, !Z.eqb_eq. done.
Qed.
