(* ===== verification/TimeslotAlloc.v ===== *)
(** * Timeslot allocation (crates/tetra-core/src/timeslot_alloc.rs)

    Ownership of the three traffic timeslots 2, 3 and 4, with preemption.  A slot
    changes hands only when it is free, when its owner is the one declared
    preemptible, or when its owner releases it. *)

From Stdlib Require Import ZArith Lia ZifyNat.
From S2P Require Import Prelude.

Inductive TimeslotOwner := Brew | Cmce | PacketData.

#[export] Instance TimeslotOwner_eq_dec : EqDecision TimeslotOwner.
Proof. solve_decision. Defined.

Inductive TimeslotAllocErr :=
  | InvalidTimeslot (ts : Z)
  | InUse (ts : Z) (owner : TimeslotOwner)
  | NotAllocated (ts : Z)
  | OwnerMismatch (ts : Z) (owner actual : TimeslotOwner).

(** [owners: [Option<TimeslotOwner>; 3]], index 0 is timeslot 2. *)
Definition TimeslotAllocator := list (option TimeslotOwner).

Definition alloc_default : TimeslotAllocator := [None; None; None].

Definition idx (ts : Z) : nat + TimeslotAllocErr :=
  if ((2 <=? ts) && (ts <=? 4))%Z then inl (Z.to_nat (ts - 2)) else inr (InvalidTimeslot ts).

Definition ts_of (i : nat) : Z := (Z.of_nat i + 2)%Z.

(** The first loop of [allocate_any]. *)
Fixpoint allocate_any_loop (owner : TimeslotOwner) (slots : list (option TimeslotOwner)) (i : nat)
  : option Z * list (option TimeslotOwner) :=
  match slots with
  | [] => (None, [])
  | None :: rest => (Some (ts_of i), Some owner :: rest)
  | slot :: rest =>
      let '(r, rest') := allocate_any_loop owner rest (S i) in (r, slot :: rest')
  end.
Definition allocate_any (self : TimeslotAllocator) (owner : TimeslotOwner)
  : option Z * TimeslotAllocator := allocate_any_loop owner self 0.

Definition available (preemptible_owner : TimeslotOwner) (slot : option TimeslotOwner) : bool :=
  bool_decide (slot = None) || bool_decide (slot = Some preemptible_owner).

Definition can_allocate_preempting (self : TimeslotAllocator) (needed : nat)
  (preemptible_owner : TimeslotOwner) : bool :=
  (needed <=? length self)
  && (needed <=? length (List.filter (available preemptible_owner) self)).

(** A selection loop with its [break] once [needed] indices are selected. *)
Fixpoint select_loop (p : option TimeslotOwner -> bool) (needed : nat)
  (slots : list (option TimeslotOwner)) (i : nat) (selected : list nat) : list nat :=
  match slots with
  | [] => selected
  | slot :: rest =>
      if p slot then
        let selected := selected ++ [i] in
        if length selected =? needed then selected
        else select_loop p needed rest (S i) selected
      else select_loop p needed rest (S i) selected
  end.

Definition allocate_many_preempting (self : TimeslotAllocator) (owner : TimeslotOwner)
  (needed : nat) (preemptible_owner : TimeslotOwner) : option (list Z) * TimeslotAllocator :=
  if needed =? 0 then (Some [], self)
  else if negb (can_allocate_preempting self needed preemptible_owner) then (None, self)
  else
    let selected := select_loop (fun slot => bool_decide (slot = None)) needed self 0 [] in
    let selected :=
      if length selected <? needed
      then select_loop (fun slot => bool_decide (slot = Some preemptible_owner)) needed self 0 selected
      else selected in
    (Some (ts_of <$> selected), foldl (fun owners i => <[i := Some owner]> owners) self selected).

(** [Vec::pop] takes the last element. *)
Definition allocate_any_preempting (self : TimeslotAllocator) (owner preemptible_owner : TimeslotOwner)
  : option Z * TimeslotAllocator :=
  let '(r, self') := allocate_many_preempting self owner 1 preemptible_owner in
  (r ≫= last, self').

(** One pass of [allocate_any_preempting_excluding] for the slots satisfying [p]. *)
Fixpoint excluding_loop (p : option TimeslotOwner -> bool) (owner : TimeslotOwner)
  (excluded_timeslots : list Z) (slots : list (option TimeslotOwner)) (i : nat)
  : option (Z * list (option TimeslotOwner)) :=
  match slots with
  | [] => None
  | slot :: rest =>
      let ts := ts_of i in
      if negb (existsb (Z.eqb ts) excluded_timeslots) && p slot
      then Some (ts, Some owner :: rest)
      else '(r, rest') ← excluding_loop p owner excluded_timeslots rest (S i); Some (r, slot :: rest')
  end.

Definition allocate_any_preempting_excluding (self : TimeslotAllocator)
  (owner preemptible_owner : TimeslotOwner) (excluded_timeslots : list Z)
  : option Z * TimeslotAllocator :=
  match excluding_loop (fun slot => bool_decide (slot = None)) owner excluded_timeslots self 0 with
  | Some (ts, self') => (Some ts, self')
  | None =>
      match excluding_loop (fun slot => bool_decide (slot = Some preemptible_owner)) owner
              excluded_timeslots self 0 with
      | Some (ts, self') => (Some ts, self')
      | None => (None, self)
      end
  end.

Definition reserve (self : TimeslotAllocator) (owner : TimeslotOwner) (ts : Z)
  : (unit + TimeslotAllocErr) * TimeslotAllocator :=
  match idx ts with
  | inr e => (inr e, self)
  | inl i =>
      match self !!! i with
      | None => (inl tt, <[i := Some owner]> self)
      | Some existing => (inr (InUse ts existing), self)
      end
  end.

Definition release (self : TimeslotAllocator) (owner : TimeslotOwner) (ts : Z)
  : (unit + TimeslotAllocErr) * TimeslotAllocator :=
  match idx ts with
  | inr e => (inr e, self)
  | inl i =>
      match self !!! i with
      | None => (inr (NotAllocated ts), self)
      | Some existing =>
          if negb (bool_decide (existing = owner)) then (inr (OwnerMismatch ts owner existing), self)
          else (inl tt, <[i := None]> self)
      end
  end.

Definition owner (self : TimeslotAllocator) (ts : Z) : option TimeslotOwner :=
  match idx ts with inl i => self !!! i | inr _ => None end.

Definition is_free (self : TimeslotAllocator) (ts : Z) : bool := bool_decide (owner self ts = None).

Definition release_all (self : TimeslotAllocator) (owner : TimeslotOwner) : TimeslotAllocator :=
  (fun slot => if bool_decide (slot = Some owner) then None else slot) <$> self.

(** ** Facts *)

Definition wf_alloc (self : TimeslotAllocator) : Prop := length self = 3.

(** The indices satisfying [p], from [i] on. *)
Fixpoint indices (p : option TimeslotOwner -> bool) (slots : list (option TimeslotOwner)) (i : nat)
  : list nat :=
  match slots with
  | [] => []
  | slot :: rest => if p slot then i :: indices p rest (S i) else indices p rest (S i)
  end.

Lemma select_loop_take p needed slots : forall i selected,
  length selected < needed ->
  select_loop p needed slots i selected
  = selected ++ take (needed - length selected) (indices p slots i).
Proof.
  induction slots as [|slot rest IH]; intros i selected Hl; cbn [select_loop indices].
  { by rewrite take_nil, app_nil_r. }
  destruct (p slot); [|by apply IH].
  destruct (Nat.eqb_spec (length (selected ++ [i])) needed) as [E|E]; rewrite length_app in E;
    simpl in E.
  - replace (needed - length selected) with 1 by lia. done.
  - rewrite IH by (rewrite length_app; simpl; lia). rewrite length_app. simpl.
    replace (needed - length selected) with (S (needed - (length selected + 1))) by lia.
    by rewrite <- app_assoc.
Qed.

Lemma elem_of_indices p slots : forall i j,
  j ∈ indices p slots i <-> exists slot, i <= j /\ slots !! (j - i) = Some slot /\ p slot = true.
Proof.
  induction slots as [|slot rest IH]; intros i j; cbn [indices].
  { rewrite elem_of_nil. split; [done|]. intros (s & _ & H & _). done. }
  assert (Htail : (exists s, S i <= j /\ rest !! (j - S i) = Some s /\ p s = true) <->
                  (exists s, i < j /\ (slot :: rest) !! (j - i) = Some s /\ p s = true)).
  { split; intros (s & H1 & H2 & H3); exists s; (split; [lia|]); (split; [|done]);
      replace (j - i) with (S (j - S i)) in * by lia; done. }
  destruct (p slot) eqn:Ep.
  - rewrite elem_of_cons, IH, Htail. split.
    + intros [->|(s & H1 & H2 & H3)]; [exists slot; rewrite Nat.sub_diag; split_and!; done|].
      exists s. split_and!; try done. lia.
    + intros (s & H1 & H2 & H3). destruct (decide (j = i)) as [->|]; [by left|right].
      exists s. split_and!; try done. lia.
  - rewrite IH, Htail. split; intros (s & H1 & H2 & H3); exists s; split_and!; try done; [lia|].
    destruct (decide (j = i)) as [->|]; [|lia]. rewrite Nat.sub_diag in H2. simpl in H2. congruence.
Qed.

Lemma NoDup_indices p slots : forall i, NoDup (indices p slots i).
Proof.
  induction slots as [|slot rest IH]; intros i; cbn [indices]; [constructor|].
  destruct (p slot); [|apply IH]. constructor; [|apply IH].
  rewrite elem_of_indices. intros (s & H & _). lia.
Qed.

Lemma length_indices p slots : forall i, length (indices p slots i) = length (List.filter p slots).
Proof.
  induction slots as [|slot rest IH]; intros i; cbn; [done|].
  destruct (p slot); simpl; by rewrite IH.
Qed.

Lemma filter_available pre slots :
  length (List.filter (available pre) slots)
  = length (List.filter (fun slot => bool_decide (slot = None)) slots)
    + length (List.filter (fun slot => bool_decide (slot = Some pre)) slots).
Proof.
  induction slots as [|slot rest IH]; cbn; [done|]. unfold available at 1.
  destruct slot as [o|]; simpl.
  - destruct (bool_decide (Some o = Some pre)); simpl; lia.
  - lia.
Qed.

Lemma lookup_insert_all (v : option TimeslotOwner) ixs : forall slots i,
  (forall j, j ∈ ixs -> j < length slots) ->
  foldl (fun owners i => <[i := v]> owners) slots ixs !! i
  = if bool_decide (i ∈ ixs) then Some v else slots !! i.
Proof.
  induction ixs as [|k ixs IH]; intros slots i Hlt; cbn [foldl].
  { rewrite bool_decide_false; [done|]. apply not_elem_of_nil. }
  rewrite IH.
  2:{ intros j Hj. rewrite length_insert. apply Hlt. by right. }
  destruct (decide (i ∈ ixs)) as [Hin|Hni].
  - rewrite !bool_decide_true; [done|by right|done].
  - rewrite (bool_decide_false (i ∈ ixs)) by done. destruct (decide (i = k)) as [->|Hne].
    + rewrite bool_decide_true by left. apply list_lookup_insert_eq. apply Hlt. left.
    + rewrite bool_decide_false by (rewrite elem_of_cons; by intros [?|?]).
      by apply list_lookup_insert_ne.
Qed.

(** ** What an allocation selects *)

Section many.
Context (self : list (option TimeslotOwner)) (needed : nat) (pre : TimeslotOwner).

Let free := indices (fun slot => bool_decide (slot = None)) self 0.
Let preemptible := indices (fun slot => bool_decide (slot = Some pre)) self 0.

(** The two loops together: free slots first, preempted ones only if they run out. *)
Definition selection : list nat :=
  take needed free ++ take (needed - length free) preemptible.

Lemma selected_selection :
  0 < needed ->
  (let selected := select_loop (fun slot => bool_decide (slot = None)) needed self 0 [] in
   if length selected <? needed
   then select_loop (fun slot => bool_decide (slot = Some pre)) needed self 0 selected
   else selected) = selection.
Proof using self needed pre.
  intros Hn. cbv zeta. rewrite select_loop_take by (simpl; lia). cbn [app length]. rewrite Nat.sub_0_r.
  fold free. unfold selection. rewrite length_take. destruct (Nat.ltb_spec (Nat.min needed (length free)) needed).
  - rewrite select_loop_take by (rewrite length_take; lia). rewrite length_take.
    fold preemptible. repeat f_equal. lia.
  - replace (needed - length free) with 0 by lia. by rewrite take_0, app_nil_r.
Qed.

Lemma length_selection :
  can_allocate_preempting self needed pre = true -> length selection = needed.
Proof using self needed pre.
  intros Hcan. unfold can_allocate_preempting in Hcan. apply andb_true_iff in Hcan as [_ H].
  apply Nat.leb_le in H. rewrite filter_available in H.
  unfold selection, free, preemptible. rewrite length_app, !length_take, !length_indices. lia.
Qed.

Lemma elem_of_selection i :
  i ∈ selection ->
  (self !! i = Some None \/ self !! i = Some (Some pre)) /\
  (self !! i <> Some None -> forall j, self !! j = Some None -> j ∈ selection).
Proof using self needed pre.
  unfold selection. rewrite elem_of_app. intros H.
  assert (Hfree : forall j, self !! j = Some None <-> j ∈ free).
  { intros j. unfold free. rewrite elem_of_indices, Nat.sub_0_r. split.
    - intros E. exists None. split_and!; [lia|done|by apply bool_decide_eq_true].
    - intros (s & _ & E & Hs). apply bool_decide_eq_true in Hs as ->. done. }
  destruct H as [H|H].
  - apply subseteq_take in H. apply Hfree in H. split; [by left|done].
  - assert (Hpre : self !! i = Some (Some pre)).
    { apply subseteq_take in H. unfold preemptible in H. apply elem_of_indices in H as (s & _ & E & Hs).
      rewrite Nat.sub_0_r in E. apply bool_decide_eq_true in Hs as ->. done. }
    split; [by right|]. intros _ j Hj. apply elem_of_app. left.
    rewrite take_ge; [by apply Hfree|].
    destruct (needed - length free) as [|k] eqn:E; [by rewrite take_0, elem_of_nil in H|lia].
Qed.

Lemma NoDup_selection : NoDup selection.
Proof using self needed pre.
  unfold selection. apply NoDup_app. split_and!.
  - eapply sublist_NoDup; [apply NoDup_indices|apply sublist_take].
  - intros i H1 H2. apply subseteq_take in H1, H2. unfold free, preemptible in *.
    apply elem_of_indices in H1 as (s1 & _ & E1 & P1). apply elem_of_indices in H2 as (s2 & _ & E2 & P2).
    apply bool_decide_eq_true in P1 as ->. apply bool_decide_eq_true in P2 as ->. congruence.
  - eapply sublist_NoDup; [apply NoDup_indices|apply sublist_take].
Qed.
End many.

(** Owners by timeslot and by index. *)
Lemma owner_ts_of (self : list (option TimeslotOwner)) i :
  i < 3 -> owner self (ts_of i) = default None (self !! i).
Proof.
  intros Hi. unfold owner, idx, ts_of, TimeslotAllocator in *.
  rewrite (proj2 (Z.leb_le 2 _)), (proj2 (Z.leb_le _ 4)) by lia. cbn [andb].
  replace (Z.to_nat (Z.of_nat i + 2 - 2)) with i by lia. exact (list_lookup_total_alt self i).
Qed.

Lemma ts_of_inj i j : ts_of i = ts_of j -> i = j.
Proof. unfold ts_of. lia. Qed.

Lemma ts_cases ts : (exists i, i < 3 /\ ts = ts_of i) \/ (forall self, owner self ts = None) /\ ~ (2 <= ts <= 4)%Z.
Proof.
  destruct (decide (2 <= ts <= 4)%Z) as [H|H].
  - left. exists (Z.to_nat (ts - 2)). unfold ts_of. lia.
  - right. split; [|done]. intros self. unfold owner, idx.
    destruct (Z.leb_spec 2 ts), (Z.leb_spec ts 4); simpl; try done. lia.
Qed.

(** ** Ownership over sequences of operations *)

Inductive alloc_op :=
  | AllocateAny (o : TimeslotOwner)
  | AllocateMany (o : TimeslotOwner) (needed : nat) (pre : TimeslotOwner)
  | AllocatePreempting (o pre : TimeslotOwner)
  | AllocateExcluding (o pre : TimeslotOwner) (excluded : list Z)
  | Reserve (o : TimeslotOwner) (ts : Z)
  | Release (o : TimeslotOwner) (ts : Z)
  | ReleaseAll (o : TimeslotOwner).

Definition run_alloc (self : TimeslotAllocator) (op : alloc_op) : TimeslotAllocator :=
  match op with
  | AllocateAny o => (allocate_any self o).2
  | AllocateMany o n pre => (allocate_many_preempting self o n pre).2
  | AllocatePreempting o pre => (allocate_any_preempting self o pre).2
  | AllocateExcluding o pre ex => (allocate_any_preempting_excluding self o pre ex).2
  | Reserve o ts => (reserve self o ts).2
  | Release o ts => (release self o ts).2
  | ReleaseAll o => release_all self o
  end.

(** The owners an operation may take slots from, whichever slots. *)
Definition may_rob (o : TimeslotOwner) (op : alloc_op) : Prop :=
  match op with
  | AllocateAny _ | Reserve _ _ => False
  | AllocateMany _ _ pre | AllocatePreempting _ pre | AllocateExcluding _ pre _ => pre = o
  | Release o' _ | ReleaseAll o' => o' = o
  end.

#[export] Instance may_rob_dec o op : Decision (may_rob o op).
Proof. destruct op; cbn; apply _. Defined.

(** The operations entitled to end the ownership of [ts] by [o]: a release of that slot or of
    all slots by [o] itself, and an allocation that declares [o] preemptible and does not
    exclude the slot. *)
Definition may_take (o : TimeslotOwner) (ts : Z) (op : alloc_op) : Prop :=
  match op with
  | AllocateAny _ | Reserve _ _ => False
  | AllocateMany _ _ pre | AllocatePreempting _ pre => pre = o
  | AllocateExcluding _ pre excluded => pre = o /\ ts ∉ excluded
  | Release o' ts' => o' = o /\ ts' = ts
  | ReleaseAll o' => o' = o
  end.

(** [s'] has the length of [s] and differs from it only at slots satisfying [p]. *)
Definition changes_only (p : option TimeslotOwner -> Prop) (s s' : TimeslotAllocator) : Prop :=
  Forall2 (fun a b => a = b \/ p a) s s'.

Lemma changes_only_refl p s : changes_only p s s.
Proof. apply Forall_Forall2_diag. apply Forall_forall. by left. Qed.

Lemma changes_only_insert (p : option TimeslotOwner -> Prop) (s : TimeslotAllocator) i v :
  (i < length s -> p (s !!! i)) -> changes_only p s (<[i := v]> s).
Proof.
  unfold TimeslotAllocator in *. intros H. apply Forall2_same_length_lookup.
  rewrite length_insert. split; [done|].
  intros j a b Ha Hb. destruct (decide (i = j)) as [->|].
  - right. assert (j < length s) by (eapply lookup_lt_Some; eauto).
    rewrite (list_lookup_total_correct s j a Ha) in H. auto.
  - left. rewrite list_lookup_insert_ne in Hb by done. congruence.
Qed.

Lemma allocate_any_loop_changes p o slots : forall i,
  p None -> changes_only p slots (allocate_any_loop o slots i).2.
Proof.
  induction slots as [|[s|] rest IH]; intros i Hp; cbn [allocate_any_loop]; [constructor| |].
  - specialize (IH (S i) Hp). destruct (allocate_any_loop o rest (S i)). constructor; [by left|done].
  - constructor; [by right|]. apply changes_only_refl.
Qed.

Lemma excluding_loop_changes (p : option TimeslotOwner -> bool) (q : option TimeslotOwner -> Prop) o ex slots :
  (forall s, p s = true -> q s) ->
  forall i ts slots', excluding_loop p o ex slots i = Some (ts, slots') -> changes_only q slots slots'.
Proof.
  intros Hpq. induction slots as [|s rest IH]; intros i ts slots' H; cbn in H; [done|].
  destruct (negb _ && p s) eqn:E.
  - simplify_eq. apply andb_true_iff in E as [_ E].
    constructor; [right; auto|apply changes_only_refl].
  - destruct (excluding_loop p o ex rest (S i)) as [[r rest']|] eqn:E2; simpl in H; [|done].
    simplify_eq. constructor; [by left|]. eapply IH, E2.
Qed.

Lemma selection_lt self needed pre i : i ∈ selection self needed pre -> i < length self.
Proof. intros [[H|H] _]%elem_of_selection; eauto using lookup_lt_Some. Qed.

Lemma allocate_many_changes self o needed pre :
  changes_only (fun s => s = None \/ s = Some pre) self (allocate_many_preempting self o needed pre).2.
Proof.
  unfold allocate_many_preempting. destruct (Nat.eqb_spec needed 0); [apply changes_only_refl|].
  destruct (negb _); [apply changes_only_refl|].
  pose proof (selected_selection self needed pre ltac:(lia)) as E. cbv zeta in E |- *. rewrite E.
  apply Forall2_same_length_lookup. cbn [snd]. split.
  - clear E. generalize (selection self needed pre) as l. intros l. revert self.
    induction l as [|k l IH]; intros self; [done|]. cbn [foldl]. etransitivity; [|apply IH]. symmetry. apply length_insert.
  - intros i a b Ha Hb. rewrite lookup_insert_all in Hb by (intros j; apply selection_lt).
    case_bool_decide as Hin; [|left; congruence].
    unfold TimeslotAllocator in *. apply elem_of_selection in Hin as [[H|H] _]; rewrite H in Ha; simplify_eq; auto.
Qed.

Lemma allocate_any_preempting_snd self o pre :
  (allocate_any_preempting self o pre).2 = (allocate_many_preempting self o 1 pre).2.
Proof. unfold allocate_any_preempting. by destruct (allocate_many_preempting self o 1 pre). Qed.

(** Every operation changes only slots that are free or that it is entitled to take. *)
Lemma run_alloc_changes self op :
  changes_only (fun s => match s with None => True | Some o => may_rob o op end) self (run_alloc self op).
Proof.
  assert (Hw : forall p q s s', (forall a, p a -> q a) -> changes_only p s s' -> changes_only q s s').
  { intros p q s s' Hpq Hc. eapply Forall2_impl; [exact Hc|]. intros a b [->|]; [by left|right; auto]. }
  destruct op; cbn [run_alloc may_rob]; rewrite ?allocate_any_preempting_snd.
  - by apply allocate_any_loop_changes.
  - eapply Hw; [|apply allocate_many_changes]. by intros ? [-> | ->].
  - eapply Hw; [|apply allocate_many_changes]. by intros ? [-> | ->].
  - unfold allocate_any_preempting_excluding.
    destruct (excluding_loop _ o excluded self 0) as [[ts s']|] eqn:E1;
      [|destruct (excluding_loop _ o excluded self 0) as [[ts s']|] eqn:E2 in |- *];
      [..|apply changes_only_refl].
    + eapply excluding_loop_changes; [|apply E1]. intros s Hs. by apply bool_decide_eq_true in Hs as ->.
    + eapply excluding_loop_changes; [|apply E2]. intros s Hs. by apply bool_decide_eq_true in Hs as ->.
  - unfold reserve. destruct (idx ts) as [i|]; [|apply changes_only_refl].
    destruct (self !!! i) eqn:E; [apply changes_only_refl|].
    apply changes_only_insert. by rewrite E.
  - unfold release. destruct (idx ts) as [i|]; [|apply changes_only_refl].
    destruct (self !!! i) as [o'|] eqn:E; [|apply changes_only_refl].
    case_bool_decide as Ho; cbn [negb]; [|apply changes_only_refl].
    apply changes_only_insert. by rewrite E.
  - unfold release_all. apply Forall2_fmap_r. apply Forall_Forall2_diag. apply Forall_forall.
    intros s _. unfold compose. case_bool_decide as Hs; [right; by subst|by left].
Qed.

Lemma run_alloc_wf self op : wf_alloc self -> wf_alloc (run_alloc self op).
Proof. unfold wf_alloc. intros <-. symmetry. eapply Forall2_length, run_alloc_changes. Qed.

Lemma run_alloc_owner_rob self op ts o :
  wf_alloc self -> owner self ts = Some o -> ~ may_rob o op -> owner (run_alloc self op) ts = Some o.
Proof.
  intros Hwf Ho Hnt. destruct (ts_cases ts) as [(i & Hi & ->)|[Hnone _]]; [|by rewrite Hnone in Ho].
  rewrite owner_ts_of in Ho |- * by done.
  destruct (lookup_lt_is_Some_2 self i ltac:(unfold wf_alloc in Hwf; lia)) as [a Ha].
  destruct (Forall2_lookup_l _ _ _ _ _ (run_alloc_changes self op) Ha) as (b & Hb & Hab).
  unfold TimeslotAllocator in *. rewrite Ha in Ho. rewrite Hb. simpl in Ho |- *. subst a.
  by destruct Hab as [<-|].
Qed.

Lemma excluding_loop_excluded p o ex slots : forall i r slots' j,
  excluding_loop p o ex slots i = Some (r, slots') -> ts_of (i + j) ∈ ex -> slots' !! j = slots !! j.
Proof.
  induction slots as [|s rest IH]; intros i r slots' j E Hj; cbn in E; [done|].
  destruct (negb _ && p s) eqn:Ep.
  - injection E as _ <-. destruct j as [|j]; [|done]. exfalso. apply andb_true_iff in Ep as [Ep _].
    apply negb_true_iff in Ep. rewrite Nat.add_0_r in Hj.
    assert (existsb (Z.eqb (ts_of i)) ex = true); [|congruence].
    apply existsb_exists. exists (ts_of i). split; [by apply list_elem_of_In|apply Z.eqb_refl].
  - destruct (excluding_loop p o ex rest (S i)) as [[r' rest']|] eqn:E2; simpl in E; [|done]. injection E as _ <-.
    destruct j as [|j]; [done|]. cbn. eapply IH; [exact E2|]. by replace (S i + j) with (i + S j) by lia.
Qed.

Lemma excluded_owner self o pre ex ts :
  ts ∈ ex -> owner (allocate_any_preempting_excluding self o pre ex).2 ts = owner self ts.
Proof.
  intros Hx. destruct (ts_cases ts) as [(i & Hi & ->)|[Hnone _]]; [|by rewrite !Hnone].
  unfold allocate_any_preempting_excluding.
  destruct (excluding_loop _ o ex self 0) as [[r s']|] eqn:E1;
    [|destruct (excluding_loop _ o ex self 0) as [[r s']|] eqn:E2 in |- *; [|done]]; cbn [snd];
    rewrite !owner_ts_of by done; f_equal; by eapply excluding_loop_excluded.
Qed.

Lemma released_owner self o ts ts' : ts' <> ts -> owner (release self o ts').2 ts = owner self ts.
Proof.
  intros Hne. unfold release, owner. destruct (idx ts') as [i|] eqn:Ei; [|done].
  destruct (self !!! i) as [o'|]; [|done]. destruct (negb _); [done|]. cbn [snd].
  destruct (idx ts) as [j|] eqn:Ej; [|done]. unfold idx in *.
  assert (i <> j) by (repeat (case_match; try done); simplify_eq; lia).
  unfold TimeslotAllocator in *. by rewrite list_lookup_total_insert_ne.
Qed.

Lemma run_alloc_owner self op ts o :
  wf_alloc self -> owner self ts = Some o -> ~ may_take o ts op -> owner (run_alloc self op) ts = Some o.
Proof.
  intros Hwf Ho Hnt. destruct (decide (may_rob o op)) as [Hr|Hr]; [|by apply run_alloc_owner_rob].
  destruct op as [| | |o' pre ex| |o' ts'|]; cbn in *; try done.
  - rewrite excluded_owner; [done|]. destruct (decide (ts ∈ ex)); [done|by destruct Hnt].
  - rewrite released_owner; [done|]. intros ->. by destruct Hnt.
Qed.

Lemma run_allocs_owner ops ts o : forall self,
  wf_alloc self -> owner self ts = Some o -> Forall (fun op => ~ may_take o ts op) ops ->
  owner (foldl run_alloc self ops) ts = Some o.
Proof.
  induction ops as [|op ops IH]; intros self Hwf Ho Hops; [done|].
  apply Forall_cons in Hops as [Hop Hops]. cbn [foldl].
  apply IH; auto using run_alloc_wf, run_alloc_owner.
Qed.

Lemma allocate_many_owner self o needed pre ts :
  wf_alloc self -> 0 < needed -> can_allocate_preempting self needed pre = true ->
  owner (allocate_many_preempting self o needed pre).2 ts
  = if bool_decide (ts ∈ ts_of <$> selection self needed pre) then Some o else owner self ts.
Proof.
  intros Hwf Hn Hcan. unfold allocate_many_preempting.
  rewrite (proj2 (Nat.eqb_neq needed 0)) by lia. rewrite Hcan. cbn [negb].
  pose proof (selected_selection self needed pre Hn) as E. cbv zeta in E |- *. rewrite E. cbn [snd].
  destruct (ts_cases ts) as [(i & Hi & ->)|[Hnone Hout]].
  - unfold TimeslotAllocator in *. rewrite !owner_ts_of by done. rewrite lookup_insert_all by (intros j; apply selection_lt).
    replace (bool_decide (ts_of i ∈ ts_of <$> selection self needed pre))
      with (bool_decide (i ∈ selection self needed pre)).
    2:{ apply bool_decide_ext. rewrite list_elem_of_fmap. split; [by eauto|].
        by intros (j & ->%ts_of_inj & Hj). }
    by case_bool_decide.
  - rewrite !Hnone, bool_decide_false; [done|]. rewrite list_elem_of_fmap. intros (j & -> & Hj).
    apply selection_lt in Hj. unfold wf_alloc, ts_of in *. unfold TimeslotAllocator in *. lia.
Qed.

(** ** Claims *)

(** C34 (all-or-nothing allocation with preemption).  [allocate_many_preempting] either
    fails, exactly when fewer than [needed] slots are free or preemptible, and leaves
    every owner in place; or it returns [needed] different timeslots of 2..4, each of
    which was free or held by the preemptible owner, hands exactly these to the new
    owner, and has taken a preemptible slot only if every free slot was taken too. *)
Theorem allocate_many_preempting_spec self o needed pre :
  wf_alloc self ->
  let '(result, self') := allocate_many_preempting self o needed pre in
  wf_alloc self' /\
  match result with
  | None => self' = self /\ length (List.filter (available pre) self) < needed
  | Some slots =>
      length slots = needed /\ NoDup slots /\
      (forall ts, owner self' ts = if bool_decide (ts ∈ slots) then Some o else owner self ts) /\
      forall ts, ts ∈ slots ->
        (2 <= ts <= 4)%Z /\ (owner self ts = None \/ owner self ts = Some pre) /\
        (owner self ts <> None -> forall ts', (2 <= ts' <= 4)%Z -> owner self ts' = None -> ts' ∈ slots)
  end.
Proof.
  intros Hwf. destruct (allocate_many_preempting self o needed pre) as [result self'] eqn:E.
  split.
  { pose proof (run_alloc_wf self (AllocateMany o needed pre) Hwf) as H. cbn in H. by rewrite E in H. }
  pose proof (allocate_many_owner self o needed pre) as Hown. rewrite E in Hown. cbn [snd] in Hown.
  unfold allocate_many_preempting in E. destruct (Nat.eqb_spec needed 0) as [->|Hn].
  { simplify_eq. split_and!; [done|constructor| |]; intros ts; [|by intros ?%elem_of_nil].
    by rewrite bool_decide_false by apply not_elem_of_nil. }
  destruct (can_allocate_preempting self needed pre) eqn:Hcan; cbn [negb] in E; injection E as <- <-.
  2:{ split; [done|]. unfold can_allocate_preempting in Hcan.
      apply andb_false_iff in Hcan as [H|H]; apply Nat.leb_gt in H; [|done].
      pose proof (List.filter_length_le (available pre) self). unfold TimeslotAllocator in *. lia. }
  pose proof (selected_selection self needed pre ltac:(lia)) as Es. cbv zeta in Es.
  rewrite Es. rewrite length_fmap. split_and!.
  - by apply length_selection.
  - apply NoDup_fmap_2; [intros i j; apply ts_of_inj|apply NoDup_selection].
  - intros ts. cbv zeta in Hown. rewrite Es in Hown. apply Hown; auto with lia.
  - intros ts (i & -> & Hi)%list_elem_of_fmap. pose proof (selection_lt _ _ _ _ Hi) as Hlt.
    apply elem_of_selection in Hi as [Hi Hall]. unfold wf_alloc, TimeslotAllocator in *.
    rewrite owner_ts_of by lia. split; [unfold ts_of; lia|].
    split; [destruct Hi as [-> | ->]; auto|]. intros Hne ts' Hts' Hfree.
    destruct (ts_cases ts') as [(j & Hj & ->)|[_ ?]]; [|done].
    rewrite owner_ts_of in Hfree by done. apply list_elem_of_fmap. exists j. split; [done|].
    apply Hall; [by intros H; rewrite H in Hne|].
    destruct (lookup_lt_is_Some_2 self j ltac:(lia)) as [a Ha].
    rewrite Ha in Hfree |- *. simpl in Hfree. by subst.
Qed.

(** Two slots are needed, one is free and one is held by packet data: both are taken. *)
Lemma allocate_many_preempting_spec_witness :
  allocate_many_preempting [Some PacketData; Some Cmce; None] Brew 2 PacketData
  = (Some [4%Z; 2%Z], [Some Brew; Some Cmce; Some Brew]) /\
  NoDup [4%Z; 2%Z].
Proof.
  pose proof (allocate_many_preempting_spec [Some PacketData; Some Cmce; None] Brew 2 PacketData eq_refl) as H.
  split; [reflexivity|]. exact (proj1 (proj2 (proj2 H))).
Defined.

(** C35 (ownership is stable).  Whatever sequence of allocator operations runs, a slot
    stays with its owner unless one of them is a release of this slot, or of all its slots, by
    that owner, or an allocation that declares that owner preemptible and does not exclude
    the slot. *)
Theorem slot_ownership_stable self ops ts o :
  wf_alloc self -> owner self ts = Some o -> Forall (fun op => ~ may_take o ts op) ops ->
  owner (foldl run_alloc self ops) ts = Some o.
Proof. intros. by apply run_allocs_owner. Qed.

Lemma slot_ownership_stable_witness :
  owner (foldl run_alloc [None; Some Cmce; None]
           [AllocateMany Brew 2 PacketData; Release PacketData 3; Release Cmce 4; Reserve Brew 3; ReleaseAll Brew;
            AllocateExcluding Brew Cmce [3%Z]]) 3 = Some Cmce.
Proof.
  apply slot_ownership_stable; [reflexivity|reflexivity|].
  repeat (constructor; [cbn; first [done|discriminate|tauto|intros [H1 H2]; first [discriminate H1|discriminate H2|apply H2; constructor]]|]). constructor.
Defined.
