(* ===== verification/Codec.v ===== *)
(** * Field codecs

    The vocabulary the PDU codecs share: typed field reads ([read_field(..)? as u8]
    and the like), optional elements behind a presence flag, the [Codec] interface
    (what an information element promises to the PDU that contains it), and the
    automation that runs an encoder or a decoder field by field. *)

From Stdlib Require Import ZArith Lia ZifyNat.
From stdpp Require Import strings.
From S2P Require Import Prelude.
From S2P Require Import BitBuffer.
From S2P Require Import BitBufferFacts.

(** ** Typed reads *)

Definition read_u8 (n : nat) (name : string) : M Z := v ← read_field n name; mret (u8 v).
Definition read_u16 (n : nat) (name : string) : M Z := v ← read_field n name; mret (u16 v).
Definition read_u32 (n : nat) (name : string) : M Z := v ← read_field n name; mret (u32 v).
(** [read_field(n, name)? != 0] *)
Definition read_flag (name : string) : M bool :=
  v ← read_field 1 name; mret (negb (v =? 0)%Z).

(** A presence flag, then the element if the flag is 1. *)
Definition read_optional {A} (name : string) (element : M A) : M (option A) :=
  flag ← read_field 1 name;
  if (flag =? 1)%Z then v ← element; mret (Some v) else mret None.

(** [if let Some(v) = .. { write_bits(1, 1); .. } else { write_bits(0, 1) }] *)
Definition write_optional {A} (element : A -> M unit) (o : option A) : M unit :=
  match o with
  | Some v => write_bits 1 1;; element v
  | None => write_bits 0 1
  end.

(** A constant field: anything else is rejected with [InvalidValue]. *)
Definition expect_field (n : nat) (name : string) (value : Z) : M unit :=
  v ← read_field n name;
  if negb (v =? value)%Z then fail (InvalidValue name v) else mret tt.

(** ** Images *)

Definition img_bool (x : bool) : list bool := val_bits 1 (b2z x).
Definition img_opt {A} (img : A -> list bool) (o : option A) : list bool :=
  img_bool (bool_decide (is_Some o)) ++ from_option img [] o.

#[global] Arguments val_bits : simpl never.
#[global] Arguments img_bool : simpl never.
#[global] Arguments img_opt : simpl never.

(** ** The interface of an information element

    [put] and [get] are the code's [to_bitbuf] and [from_bitbuf].  An element that
    satisfies [valid] is written as its image without a panic, and reading the image
    back, whatever follows it, gives the element. *)
Class Codec (X : Type) := {
  put : X -> M unit;
  get : M X;
  img : X -> list bool;
  valid : X -> Prop;
  put_emits : forall x, valid x -> emits (put x) tt (img x);
  get_parses : forall x rest, valid x -> parses get (img x) rest x
}.
#[global] Hint Mode Codec ! : typeclass_instances.
#[global] Arguments put : simpl never.
#[global] Arguments get : simpl never.
#[global] Arguments img : simpl never.
#[global] Arguments valid : simpl never.

(** ** Rules *)

Lemma emits_bind_tt {B} (m : M unit) (k : M B) c bs1 bs2 :
  emits m tt bs1 -> emits k c bs2 -> emits (m;; k) c (bs1 ++ bs2).
Proof. intros H1 H2. by apply (emits_bind m (fun _ => k) tt). Qed.

Lemma emits_app_nil {A} (m : M A) a bs : emits m a bs -> emits m a (bs ++ []).
Proof. by rewrite app_nil_r. Qed.

Lemma parses_app_nil {A} (m : M A) bs rest a : parses m bs rest a -> parses m (bs ++ []) rest a.
Proof. by rewrite app_nil_r. Qed.

Lemma parses_fmap {A B} (m : M A) (f : A -> B) bs rest a :
  parses m bs rest a -> parses (x ← m; mret (f x)) bs rest (f a).
Proof. intros H. rewrite <- (app_nil_r bs). by eapply parses_bind; [|apply parses_ret]. Qed.

Lemma read_u8_parses n name v rest :
  (0 <= v < 2 ^ Z.of_nat n)%Z -> n <= 8 -> parses (read_u8 n name) (val_bits n v) rest v.
Proof.
  intros Hv Hn. assert (H : u8 v = v).
  { apply Z.mod_small. pose proof (Z.pow_le_mono_r 2 (Z.of_nat n) 8). lia. }
  rewrite <- H at 2. apply parses_fmap, read_field_val; [done|lia].
Qed.

Lemma read_u16_parses n name v rest :
  (0 <= v < 2 ^ Z.of_nat n)%Z -> n <= 16 -> parses (read_u16 n name) (val_bits n v) rest v.
Proof.
  intros Hv Hn. assert (H : u16 v = v).
  { apply Z.mod_small. pose proof (Z.pow_le_mono_r 2 (Z.of_nat n) 16). lia. }
  rewrite <- H at 2. apply parses_fmap, read_field_val; [done|lia].
Qed.

Lemma read_u32_parses n name v rest :
  (0 <= v < 2 ^ Z.of_nat n)%Z -> n <= 32 -> parses (read_u32 n name) (val_bits n v) rest v.
Proof.
  intros Hv Hn. assert (H : u32 v = v).
  { apply Z.mod_small. pose proof (Z.pow_le_mono_r 2 (Z.of_nat n) 32). lia. }
  rewrite <- H at 2. apply parses_fmap, read_field_val; [done|lia].
Qed.

Lemma read_flag_parses name (x : bool) rest : parses (read_flag name) (img_bool x) rest x.
Proof.
  unfold read_flag, img_bool. replace x with (negb (b2z x =? 0)%Z) at 2 by (by destruct x).
  apply (parses_fmap _ (fun v => negb (v =? 0)%Z)), read_field_val; [destruct x; simpl; lia|lia].
Qed.

Lemma write_flag_emits (x : bool) : emits (write_bits (b2z x) 1) tt (img_bool x).
Proof. apply write_bits_emits; [destruct x; simpl; lia|lia]. Qed.

Lemma expect_field_parses n name v rest :
  (0 <= v < 2 ^ Z.of_nat n)%Z -> n <= 64 -> parses (expect_field n name v) (val_bits n v) rest tt.
Proof.
  intros Hv Hn. unfold expect_field. rewrite <- (app_nil_r (val_bits n v)).
  eapply parses_bind; [by apply read_field_val|]. rewrite Z.eqb_refl. apply parses_ret.
Qed.

Lemma read_optional_parses {A} name (element : M A) (image : A -> list bool) o rest :
  (forall v, o = Some v -> parses element (image v) rest v) ->
  parses (read_optional name element) (img_opt image o) rest o.
Proof.
  intros H. unfold read_optional, img_opt, img_bool. eapply parses_bind.
  { apply read_field_val; [case_bool_decide; simpl; lia|lia]. }
  destruct o as [v|]; cbn.
  - apply (parses_fmap element Some). by apply H.
  - apply parses_ret.
Qed.

Lemma write_optional_emits {A} (element : A -> M unit) (image : A -> list bool) o :
  (forall v, o = Some v -> emits (element v) tt (image v)) ->
  emits (write_optional element o) tt (img_opt image o).
Proof.
  intros H. destruct o as [v|]; unfold write_optional, img_opt.
  - apply emits_bind_tt; [by apply (write_flag_emits true)|by apply H].
  - apply emits_app_nil. by apply (write_flag_emits false).
Qed.

Lemma length_img_bool x : length (img_bool x) = 1.
Proof. done. Qed.

(** ** Automation

    [emit] and [parse] run through the fields of an image written as
    [concat [field1; field2; ..]]; width side conditions are left to [lia]. *)

#[export] Hint Resolve write_flag_emits read_flag_parses emits_ret parses_ret : codec.
#[export] Hint Extern 1 (emits (write_bits _ _) tt (val_bits _ _)) =>
  apply write_bits_emits; [simpl in *; lia|lia] : codec.
#[export] Hint Extern 1 (parses (read_u8 _ _) (val_bits _ _) _ _) =>
  apply read_u8_parses; [simpl in *; lia|lia] : codec.
#[export] Hint Extern 1 (parses (read_u16 _ _) (val_bits _ _) _ _) =>
  apply read_u16_parses; [simpl in *; lia|lia] : codec.
#[export] Hint Extern 1 (parses (read_u32 _ _) (val_bits _ _) _ _) =>
  apply read_u32_parses; [simpl in *; lia|lia] : codec.
#[export] Hint Extern 1 (parses (read_field _ _) (val_bits _ _) _ _) =>
  apply read_field_val; [simpl in *; lia|lia] : codec.
#[export] Hint Extern 1 (parses (expect_field _ _ _) (val_bits _ _) _ _) =>
  apply expect_field_parses; [simpl in *; lia|lia] : codec.
#[export] Hint Extern 1 (emits put tt (img _)) => apply put_emits : codec.
#[export] Hint Extern 1 (parses get (img _) _ _) => apply get_parses : codec.

(** One field. *)
Ltac emit1 := first [eapply emits_bind_tt; [solve [eauto 3 with codec]|] | apply emits_app_nil; solve [eauto 3 with codec]].
Ltac parse1 :=
  first [eapply parses_bind; [solve [eauto 3 with codec]|]; cbv beta iota
        | apply parses_app_nil; solve [eauto 3 with codec]
        | solve [apply parses_ret]].
Ltac emit := repeat emit1.
Ltac parse := repeat parse1.
