(* ===== verification/MacFields.v ===== *)
(** * Addresses and MAC information elements

    crates/tetra-core/src/address.rs, the enumerations of
    crates/tetra-pdus/src/umac/enums and crates/tetra-saps/src/lcmc/enums that occur
    in downlink MAC headers, and the two optional header elements: basic slot granting
    (umac/fields/basic_slotgrant.rs) and channel allocation
    (umac/fields/channel_allocation.rs). *)

From Stdlib Require Import ZArith Lia ZifyNat.
From stdpp Require Import strings.
From S2P Require Import Prelude.
From S2P Require Import BitBuffer.
From S2P Require Import BitBufferFacts.
From S2P Require Import Codec.

(** ** Addresses *)

Inductive SsiType := Unknown | Ssi | Issi | Gssi | Ussi | Smi | Esi | EventLabelSsi.
#[export] Instance SsiType_eq_dec : EqDecision SsiType.
Proof. solve_decision. Defined.

Record TetraAddress := mkAddr { ssi : Z; ssi_type : SsiType }.
#[export] Instance TetraAddress_eq_dec : EqDecision TetraAddress.
Proof. solve_decision. Defined.

(** ** Enumerations with a wire value *)

(** [into_raw] / [as u64] and [TryFrom<u64>] of a field enumeration of [enum_width] bits. *)
Class WireEnum (T : Type) := {
  enum_width : nat;
  into_raw : T -> Z;
  try_from : Z -> option T;
  try_from_into_raw : forall x, try_from (into_raw x) = Some x;
  into_raw_bound : forall x, (0 <= into_raw x < 2 ^ Z.of_nat enum_width)%Z
}.
#[global] Hint Mode WireEnum ! : typeclass_instances.
#[global] Arguments enum_width T {_}.
#[global] Arguments into_raw : simpl never.
#[global] Arguments try_from : simpl never.

Inductive ChanAllocType := Replace | Additional | QuitAndGo | ReplaceWithCarrierSignalling.

Definition ChanAllocType_into_raw (x : ChanAllocType) : Z :=
  match x with Replace => 0 | Additional => 1 | QuitAndGo => 2 | ReplaceWithCarrierSignalling => 3 end.
Definition ChanAllocType_try_from (x : Z) : option ChanAllocType :=
  match x with
  | 0 => Some Replace | 1 => Some Additional | 2 => Some QuitAndGo
  | 3 => Some ReplaceWithCarrierSignalling | _ => None
  end%Z.

Inductive UlDlAssignment := Augmented | Dl | Ul | Both.
#[export] Instance UlDlAssignment_eq_dec : EqDecision UlDlAssignment.
Proof. solve_decision. Defined.

Definition UlDlAssignment_into_raw (x : UlDlAssignment) : Z :=
  match x with Augmented => 0 | Dl => 1 | Ul => 2 | Both => 3 end.
Definition UlDlAssignment_try_from (x : Z) : option UlDlAssignment :=
  match x with 0 => Some Augmented | 1 => Some Dl | 2 => Some Ul | 3 => Some Both | _ => None end%Z.

Inductive BasicSlotgrantCapAlloc :=
  | FirstSubslotGranted | Grant1Slot | Grant2Slots | Grant3Slots | Grant4Slots | Grant5Slots
  | Grant6Slots | Grant8Slots | Grant10Slots | Grant13Slots | Grant17Slots | Grant24Slots
  | Grant34Slots | Grant51Slots | Grant68Slots | SecondSubslotGranted.

Definition CapAlloc_into_raw (x : BasicSlotgrantCapAlloc) : Z :=
  match x with
  | FirstSubslotGranted => 0 | Grant1Slot => 1 | Grant2Slots => 2 | Grant3Slots => 3
  | Grant4Slots => 4 | Grant5Slots => 5 | Grant6Slots => 6 | Grant8Slots => 7
  | Grant10Slots => 8 | Grant13Slots => 9 | Grant17Slots => 10 | Grant24Slots => 11
  | Grant34Slots => 12 | Grant51Slots => 13 | Grant68Slots => 14 | SecondSubslotGranted => 15
  end.
Definition CapAlloc_try_from (x : Z) : option BasicSlotgrantCapAlloc :=
  match x with
  | 0 => Some FirstSubslotGranted | 1 => Some Grant1Slot | 2 => Some Grant2Slots
  | 3 => Some Grant3Slots | 4 => Some Grant4Slots | 5 => Some Grant5Slots
  | 6 => Some Grant6Slots | 7 => Some Grant8Slots | 8 => Some Grant10Slots
  | 9 => Some Grant13Slots | 10 => Some Grant17Slots | 11 => Some Grant24Slots
  | 12 => Some Grant34Slots | 13 => Some Grant51Slots | 14 => Some Grant68Slots
  | 15 => Some SecondSubslotGranted | _ => None
  end%Z.

(** Slot counts: 0 stands for the first subslot and 99 for the second one. *)
Definition try_from_req_slotcount (req : nat) : option BasicSlotgrantCapAlloc :=
  if req =? 0 then Some FirstSubslotGranted
  else if req =? 1 then Some Grant1Slot
  else if req =? 2 then Some Grant2Slots
  else if req =? 3 then Some Grant3Slots
  else if req =? 4 then Some Grant4Slots
  else if req =? 5 then Some Grant5Slots
  else if req =? 6 then Some Grant6Slots
  else if req <=? 8 then Some Grant8Slots
  else if req <=? 10 then Some Grant10Slots
  else if req <=? 13 then Some Grant13Slots
  else if req <=? 17 then Some Grant17Slots
  else if req <=? 24 then Some Grant24Slots
  else if req <=? 34 then Some Grant34Slots
  else if req <=? 51 then Some Grant51Slots
  else if req <=? 68 then Some Grant68Slots
  else if req =? 99 then Some SecondSubslotGranted
  else None.

Definition from_req_slotcount (req : nat) : BasicSlotgrantCapAlloc :=
  match try_from_req_slotcount req with Some cap_alloc => cap_alloc | None => Grant68Slots end.

Definition to_req_slotcount (self : BasicSlotgrantCapAlloc) : nat :=
  match self with
  | FirstSubslotGranted => 0 | Grant1Slot => 1 | Grant2Slots => 2 | Grant3Slots => 3
  | Grant4Slots => 4 | Grant5Slots => 5 | Grant6Slots => 6 | Grant8Slots => 8
  | Grant10Slots => 10 | Grant13Slots => 13 | Grant17Slots => 17 | Grant24Slots => 24
  | Grant34Slots => 34 | Grant51Slots => 51 | Grant68Slots => 68 | SecondSubslotGranted => 99
  end.

Inductive BasicSlotgrantGrantingDelay :=
  | CapAllocAtNextOpportunity
  | DelayNOpportunities (n : Z)
  | AllocStartsAtOpportunityInFr18
  | WaitForAnotherSlotgrantMessage.

Definition GrantingDelay_try_from (x : Z) : option BasicSlotgrantGrantingDelay :=
  if (x =? 0)%Z then Some CapAllocAtNextOpportunity
  else if ((1 <=? x) && (x <=? 13))%Z then Some (DelayNOpportunities (u8 x))
  else if (x =? 14)%Z then Some AllocStartsAtOpportunityInFr18
  else if (x =? 15)%Z then Some WaitForAnotherSlotgrantMessage
  else None.

Definition GrantingDelay_into_raw (self : BasicSlotgrantGrantingDelay) : Z :=
  match self with
  | CapAllocAtNextOpportunity => 0
  | DelayNOpportunities n => n
  | AllocStartsAtOpportunityInFr18 => 14
  | WaitForAnotherSlotgrantMessage => 15
  end.

Inductive MacResourceAddrType :=
  | NullPdu | AtSsi | AtEventLabel | AtUssi | AtSmi
  | SsiAndEventLabel | SsiAndUsageMarker | SmiAndEventLabel.
#[export] Instance MacResourceAddrType_eq_dec : EqDecision MacResourceAddrType.
Proof. solve_decision. Defined.

Definition AddrType_into_raw (x : MacResourceAddrType) : Z :=
  match x with
  | NullPdu => 0 | AtSsi => 1 | AtEventLabel => 2 | AtUssi => 3 | AtSmi => 4
  | SsiAndEventLabel => 5 | SsiAndUsageMarker => 6 | SmiAndEventLabel => 7
  end.
Definition AddrType_try_from (x : Z) : option MacResourceAddrType :=
  match x with
  | 0 => Some NullPdu | 1 => Some AtSsi | 2 => Some AtEventLabel | 3 => Some AtUssi
  | 4 => Some AtSmi | 5 => Some SsiAndEventLabel | 6 => Some SsiAndUsageMarker
  | 7 => Some SmiAndEventLabel | _ => None
  end%Z.

Inductive MacPduType := MacResourceMacData | MacFragMacEnd | Broadcast | SuppMacUSignal.

Definition MacPduType_into_raw (x : MacPduType) : Z :=
  match x with MacResourceMacData => 0 | MacFragMacEnd => 1 | Broadcast => 2 | SuppMacUSignal => 3 end.
Definition MacPduType_try_from (x : Z) : option MacPduType :=
  match x with
  | 0 => Some MacResourceMacData | 1 => Some MacFragMacEnd | 2 => Some Broadcast
  | 3 => Some SuppMacUSignal | _ => None
  end%Z.

Ltac wire_enum := intros []; cbn; first [reflexivity | lia].
#[export] Program Instance ChanAllocType_wire : WireEnum ChanAllocType :=
  {| enum_width := 2; into_raw := ChanAllocType_into_raw; try_from := ChanAllocType_try_from |}.
Solve Obligations with wire_enum.
#[export] Program Instance UlDlAssignment_wire : WireEnum UlDlAssignment :=
  {| enum_width := 2; into_raw := UlDlAssignment_into_raw; try_from := UlDlAssignment_try_from |}.
Solve Obligations with wire_enum.
#[export] Program Instance CapAlloc_wire : WireEnum BasicSlotgrantCapAlloc :=
  {| enum_width := 4; into_raw := CapAlloc_into_raw; try_from := CapAlloc_try_from |}.
Solve Obligations with wire_enum.
#[export] Program Instance AddrType_wire : WireEnum MacResourceAddrType :=
  {| enum_width := 3; into_raw := AddrType_into_raw; try_from := AddrType_try_from |}.
Solve Obligations with wire_enum.
#[export] Program Instance MacPduType_wire : WireEnum MacPduType :=
  {| enum_width := 2; into_raw := MacPduType_into_raw; try_from := MacPduType_try_from |}.
Solve Obligations with wire_enum.

(** [T::try_from(buf.read_field(n, name)?).map_err(|_| InvalidValue { .. })?] *)
Definition read_enum_with {T} (from : Z -> option T) (n : nat) (name : string) : M T :=
  v ← read_field n name;
  match from v with Some x => mret x | None => fail (InvalidValue name v) end.
Definition read_enum (T : Type) `{WireEnum T} (n : nat) (name : string) : M T :=
  read_enum_with try_from n name.

(** ** Basic slot granting *)

Record BasicSlotgrant := mkSlotgrant {
  capacity_allocation : BasicSlotgrantCapAlloc;
  granting_delay : BasicSlotgrantGrantingDelay
}.

Definition BasicSlotgrant_from_bitbuf : M BasicSlotgrant :=
  capacity_allocation ← read_enum BasicSlotgrantCapAlloc 4 "capacity_allocation";
  granting_delay ← read_enum_with GrantingDelay_try_from 4 "granting_delay";
  mret (mkSlotgrant capacity_allocation granting_delay).

Definition BasicSlotgrant_to_bitbuf (self : BasicSlotgrant) : M unit :=
  write_bits (into_raw (capacity_allocation self)) 4;;
  write_bits (GrantingDelay_into_raw (granting_delay self)) 4.

(** ** Channel allocation *)

Record ChanAllocElement := mkChanAlloc {
  alloc_type : ChanAllocType;
  ts_assigned : list bool;  (* [bool; 4] *)
  ul_dl_assigned : UlDlAssignment;
  clch_permission : bool;
  cell_change_flag : bool;
  carrier_num : Z;
  ext : option Z;
  mon_pattern : Z;
  frame18_mon_pattern : option Z
}.

Definition is_supported_by_this_stack (self : ChanAllocElement) : bool :=
  bool_decide (ext self = None) && negb (bool_decide (ul_dl_assigned self = Augmented)).

Definition unsupported (field : string) : PduParseErr := NotImplemented (Some field).

Definition bit_set (bitmap mask : Z) : bool := negb (Z.land bitmap mask =? 0)%Z.

Definition ChanAllocElement_from_bitbuf : M ChanAllocElement :=
  alloc_type ← read_enum ChanAllocType 2 "alloc_type";
  bitmap ← read_u8 4 "ts_assigned";
  let ts_assigned := [bit_set bitmap 8; bit_set bitmap 4; bit_set bitmap 2; bit_set bitmap 1] in
  ul_dl_assigned ← read_enum UlDlAssignment 2 "ul_dl_assigned";
  if bool_decide (ul_dl_assigned = Augmented) then fail (unsupported "augmented_channel_allocation") else
  clch_permission ← read_flag "clch_permission";
  cell_change_flag ← read_flag "cell_change_flag";
  carrier_num ← read_u16 12 "carrier_num";
  ext_carrier_num_flag ← read_field 1 "ext_carrier_num_flag";
  if (ext_carrier_num_flag =? 1)%Z then fail (unsupported "extended_carrier_numbering") else
  mon_pattern ← read_u8 2 "mon_pattern";
  frame18_mon_pattern ←
    (if (mon_pattern =? 0)%Z
     then v ← read_u8 2 "frame18_mon_pattern"; mret (Some v)
     else mret None);
  mret (mkChanAlloc alloc_type ts_assigned ul_dl_assigned clch_permission cell_change_flag
          carrier_num None mon_pattern frame18_mon_pattern).

(** [for &bit in &self.ts_assigned { buf.write_bits(bit as u8 as u64, 1) }] *)
Fixpoint write_flags (bits : list bool) : M unit :=
  match bits with
  | [] => mret tt
  | bit :: rest => write_bits (b2z bit) 1;; write_flags rest
  end.

Definition ChanAllocElement_to_bitbuf (self : ChanAllocElement) : M unit :=
  if negb (is_supported_by_this_stack self) then mret tt else
  write_bits (into_raw (alloc_type self)) 2;;
  write_flags (ts_assigned self);;
  write_bits (into_raw (ul_dl_assigned self)) 2;;
  write_bits (b2z (clch_permission self)) 1;;
  write_bits (b2z (cell_change_flag self)) 1;;
  write_bits (carrier_num self) 12;;
  match ext self with
  | Some _ => write_bits 1 1
  | None =>
      write_bits 0 1;;
      write_bits (mon_pattern self) 2;;
      if (mon_pattern self =? 0)%Z
      then v ← panicking (frame18_mon_pattern self); write_bits v 2
      else mret tt
  end.

Definition compute_len (self : ChanAllocElement) : nat :=
  if negb (is_supported_by_this_stack self) then 0 else
  let len := 2 + 4 + 2 + 1 + 1 + 12 + 1 in
  match ext self with
  | Some _ => 0
  | None =>
      let len := len + 2 in
      let len := if (mon_pattern self =? 0)%Z then len + 2 else len in
      if bool_decide (ul_dl_assigned self = Augmented) then 0 else len
  end.

(** ** What the elements promise *)

Lemma read_enum_with_parses {T} (from : Z -> option T) n name raw x rest :
  from raw = Some x -> (0 <= raw < 2 ^ Z.of_nat n)%Z -> n <= 64 ->
  parses (read_enum_with from n name) (val_bits n raw) rest x.
Proof.
  intros Hx Hb Hn. unfold read_enum_with. rewrite <- (app_nil_r (val_bits _ _)).
  eapply parses_bind; [by apply read_field_val|]. rewrite Hx. apply parses_ret.
Qed.

Lemma read_enum_parses {T} `{WireEnum T} n name x rest :
  n = enum_width T -> n <= 64 -> parses (read_enum T n name) (val_bits n (into_raw x)) rest x.
Proof.
  intros -> Hn. apply read_enum_with_parses; [apply try_from_into_raw|apply into_raw_bound|done].
Qed.

Lemma write_enum_emits {T} `{WireEnum T} n (x : T) :
  n = enum_width T -> n <= 64 -> emits (write_bits (into_raw x) n) tt (val_bits n (into_raw x)).
Proof. intros -> Hn. apply write_bits_emits; [apply into_raw_bound|done]. Qed.

#[export] Hint Extern 1 (parses (read_enum _ _ _) _ _ _) =>
  apply read_enum_parses; [reflexivity|lia] : codec.
#[export] Hint Extern 0 (emits (write_bits (into_raw _) _) _ _) =>
  apply write_enum_emits; [reflexivity|lia] : codec.

(** The delay 0 and the delays 1 to 13 are distinct cases of the type. *)
Definition valid_delay (d : BasicSlotgrantGrantingDelay) : Prop :=
  match d with DelayNOpportunities n => (1 <= n <= 13)%Z | _ => True end.

Lemma granting_delay_raw d :
  valid_delay d ->
  GrantingDelay_try_from (GrantingDelay_into_raw d) = Some d /\
  (0 <= GrantingDelay_into_raw d < 2 ^ Z.of_nat 4)%Z.
Proof.
  destruct d as [|n| |]; cbn; intros Hd; [split; [done|lia]| |split; [done|lia]..].
  split; [|simpl; lia]. unfold GrantingDelay_try_from.
  bfalse (n =? 0)%Z. btrue (1 <=? n)%Z. btrue (n <=? 13)%Z. simpl. do 2 f_equal. apply Z.mod_small. lia.
Qed.

#[export] Program Instance BasicSlotgrant_codec : Codec BasicSlotgrant := {|
  put := BasicSlotgrant_to_bitbuf;
  get := BasicSlotgrant_from_bitbuf;
  img self := concat [val_bits 4 (into_raw (capacity_allocation self));
                      val_bits 4 (GrantingDelay_into_raw (granting_delay self))];
  valid self := valid_delay (granting_delay self)
|}.
Next Obligation.
  intros self Hv. cbn beta. destruct (granting_delay_raw _ Hv). emit.
Qed.
Next Obligation.
  intros [cap del] rest Hv. cbn [granting_delay capacity_allocation concat] in Hv |- *.
  unfold BasicSlotgrant_from_bitbuf. destruct (granting_delay_raw _ Hv).
  parse. eapply parses_bind; [by apply read_enum_with_parses; [..|lia]|]. parse.
Qed.

Lemma val_bits_flag b : img_bool b = [b].
Proof. by destruct b. Qed.

Lemma write_flags_emits bs : emits (write_flags bs) tt bs.
Proof.
  induction bs as [|b bs IH]; cbn [write_flags]; [apply emits_ret|].
  apply (emits_bind_tt _ _ _ [b]); [|done]. rewrite <- val_bits_flag. apply write_flag_emits.
Qed.

Lemma ts_assigned_bits bs :
  length bs = 4 ->
  let bitmap := bits_val bs in
  [bit_set bitmap 8; bit_set bitmap 4; bit_set bitmap 2; bit_set bitmap 1] = bs.
Proof. destruct bs as [|[] [|[] [|[] [|[] [|??]]]]]; done. Qed.

Lemma read_bitmap_parses name bs rest :
  length bs = 4 -> parses (read_u8 4 name) bs rest (bits_val bs).
Proof.
  intros H. pose proof (val_bits_bits_val bs) as E. rewrite H in E. rewrite <- E at 1.
  apply read_u8_parses; [|lia]. rewrite <- H. apply bits_val_bound.
Qed.
#[export] Hint Resolve write_flags_emits : codec.
#[export] Hint Extern 1 (parses (read_u8 4 _) (ts_assigned _) _ _) => apply read_bitmap_parses; assumption : codec.

Definition valid_chan_alloc (self : ChanAllocElement) : Prop :=
  is_supported_by_this_stack self = true /\ length (ts_assigned self) = 4 /\
  (0 <= carrier_num self < 2 ^ 12)%Z /\ (0 <= mon_pattern self < 4)%Z /\
  (if (mon_pattern self =? 0)%Z
   then exists v, frame18_mon_pattern self = Some v /\ (0 <= v < 4)%Z
   else frame18_mon_pattern self = None).

Definition chan_alloc_img (self : ChanAllocElement) : list bool :=
  concat [val_bits 2 (into_raw (alloc_type self)); ts_assigned self;
          val_bits 2 (into_raw (ul_dl_assigned self)); img_bool (clch_permission self);
          img_bool (cell_change_flag self); val_bits 12 (carrier_num self); val_bits 1 0;
          val_bits 2 (mon_pattern self); from_option (val_bits 2) [] (frame18_mon_pattern self)].

Lemma chan_alloc_supported self :
  is_supported_by_this_stack self = true -> ext self = None /\ ul_dl_assigned self <> Augmented.
Proof.
  unfold is_supported_by_this_stack. intros [H1 H2]%andb_true_iff.
  apply bool_decide_eq_true in H1. apply negb_true_iff, bool_decide_eq_false in H2. done.
Qed.

Lemma length_chan_alloc_img self :
  valid_chan_alloc self -> length (chan_alloc_img self) = compute_len self.
Proof.
  intros (Hs & Ht & _ & _ & H18). destruct (chan_alloc_supported _ Hs) as [He Ha].
  unfold chan_alloc_img, compute_len. rewrite Hs, He. cbn [negb concat].
  rewrite bool_decide_false by done. rewrite !length_app, Ht, !length_val_bits, !length_img_bool.
  destruct (mon_pattern self =? 0)%Z; [destruct H18 as (v & -> & _)|rewrite H18];
    cbn [from_option]; rewrite ?length_val_bits; reflexivity.
Qed.

#[export] Program Instance ChanAllocElement_codec : Codec ChanAllocElement := {|
  put := ChanAllocElement_to_bitbuf;
  get := ChanAllocElement_from_bitbuf;
  img := chan_alloc_img;
  valid := valid_chan_alloc
|}.
Next Obligation.
  intros self (Hs & Ht & Hc & Hm & H18). destruct (chan_alloc_supported _ Hs) as [He Ha].
  unfold ChanAllocElement_to_bitbuf, chan_alloc_img. rewrite Hs, He. cbn [negb concat]. emit.
  destruct (mon_pattern self =? 0)%Z; [destruct H18 as (v & -> & Hv)|rewrite H18].
  - apply emits_app_nil. cbn. apply write_bits_emits; [done|lia].
  - apply emits_ret.
Qed.
Next Obligation.
  intros [at_ ts ud clch cc carrier e mon f18] rest (Hs & Ht & Hc & Hm & H18).
  destruct (chan_alloc_supported _ Hs) as [He Ha]. cbn in He, Ha, Ht, Hc, Hm, H18. subst e.
  unfold ChanAllocElement_from_bitbuf, chan_alloc_img. cbn [concat ts_assigned alloc_type ul_dl_assigned
    clch_permission cell_change_flag carrier_num mon_pattern frame18_mon_pattern]. parse.
  eapply parses_bind; [by apply read_bitmap_parses|]. cbv zeta. parse.
  rewrite bool_decide_false by done. parse.
  change (0 =? 1)%Z with false. cbv iota. parse. rewrite (ts_assigned_bits ts Ht).
  destruct (mon =? 0)%Z; [destruct H18 as (v & -> & Hv)|rewrite H18]; cbn [from_option].
  - eapply parses_bind; [apply parses_fmap; apply read_u8_parses; [done|lia]|]. apply parses_ret.
  - apply (parses_bind _ _ None _ []); apply parses_ret.
Qed.
