(* ===== verification/MacPdus.v ===== *)
(** * Downlink MAC PDUs (crates/tetra-pdus/src/umac/pdus)

    MAC-RESOURCE (mac_resource.rs), MAC-FRAG (mac_frag_dl.rs) and MAC-END
    (mac_end_dl.rs): header parsing, serialization and header lengths.  A header that
    passes the code's own validation is written without a panic with exactly the
    computed length, and parsing it gives the header back. *)

From Stdlib Require Import ZArith Lia ZifyNat.
From stdpp Require Import strings.
From S2P Require Import Prelude.
From S2P Require Import BitBuffer.
From S2P Require Import BitBufferFacts.
From S2P Require Import Codec.
From S2P Require Import MacFields.

(** ** MAC-RESOURCE *)

Record MacResource := mkResource {
  fill_bits : bool;
  pos_of_grant : Z;
  encryption_mode : Z;
  random_access_flag : bool;
  length_ind : Z;
  addr : option TetraAddress;
  event_label : option Z;
  usage_marker : option Z;
  power_control_element : option Z;
  slot_granting_element : option BasicSlotgrant;
  chan_alloc_element : option ChanAllocElement
}.

Definition null_pdu : MacResource :=
  mkResource false 0 0 false 2 None None None None None None.

Definition is_null_pdu (self : MacResource) : bool :=
  bool_decide (addr self = None) && bool_decide (event_label self = None)
  && bool_decide (usage_marker self = None).

(** The address part: [addr], [event_label] and [usage_marker] by address type. *)
Definition read_addr (ty : SsiType) (name : string) : M (option TetraAddress) :=
  v ← read_u32 24 name; mret (Some (mkAddr v ty)).

Definition read_address_fields (addr_type : MacResourceAddrType)
  : M (option TetraAddress * option Z * option Z) :=
  match addr_type with
  | NullPdu => mret (None, None, None)
  | AtSsi => a ← read_addr Ssi "ssi"; mret (a, None, None)
  | AtEventLabel => l ← read_u16 10 "event_label"; mret (None, Some l, None)
  | AtUssi => a ← read_addr Ussi "ussi"; mret (a, None, None)
  | AtSmi => a ← read_addr Smi "smi"; mret (a, None, None)
  | SsiAndEventLabel =>
      a ← read_addr Ssi "ssi"; l ← read_u16 10 "event_label"; mret (a, Some l, None)
  | SsiAndUsageMarker =>
      a ← read_addr Ssi "ssi"; u ← read_u8 6 "usage_marker"; mret (a, None, Some u)
  | SmiAndEventLabel =>
      a ← read_addr Smi "smi"; l ← read_u16 10 "event_label"; mret (a, Some l, None)
  end.

Definition MacResource_from_bitbuf : M MacResource :=
  expect_field 2 "mac_pdu_type" 0;;
  fill_bits ← read_flag "fill_bits";
  pos_of_grant ← read_u8 1 "pos_of_grant";
  encryption_mode ← read_u8 2 "encryption_mode";
  random_access_flag ← read_flag "random_access_flag";
  length_ind ← read_u8 6 "length_ind";
  addr_type ← read_enum MacResourceAddrType 3 "addr_type";
  '(addr, event_label, usage_marker) ← read_address_fields addr_type;
  if bool_decide (addr_type = NullPdu)
  then mret (mkResource false 0 0 false length_ind addr event_label usage_marker None None None)
  else
  power_control_element ← read_optional "power_control_flag" (read_u8 4 "power_control_element");
  slot_granting_element ← read_optional "slot_granting_flag" BasicSlotgrant_from_bitbuf;
  chan_alloc_element ← read_optional "chan_alloc_flag" ChanAllocElement_from_bitbuf;
  mret (mkResource fill_bits pos_of_grant encryption_mode random_access_flag length_ind addr
          event_label usage_marker power_control_element slot_granting_element chan_alloc_element).

(** [if let Some(v) = field { if v > bound { return Err(InvalidValue { .. }) } }] *)
Definition bounded (name : string) (bound : Z) (o : option Z) : unit + PduParseErr :=
  match o with
  | Some v => if (bound <? v)%Z then inr (InvalidValue name v) else inl tt
  | None => inl tt
  end.

Definition then_ {A} (r : unit + PduParseErr) (k : A + PduParseErr) : A + PduParseErr :=
  match r with inl _ => k | inr e => inr e end.

Definition address_type (self : MacResource) : MacResourceAddrType + PduParseErr :=
  if is_null_pdu self then inl NullPdu else
  match addr self with
  | Some a =>
      if bool_decide (ssi_type a = Ssi) || bool_decide (ssi_type a = Gssi)
         || bool_decide (ssi_type a = Issi) then
        match event_label self, usage_marker self with
        | None, None => inl AtSsi
        | Some _, None => inl SsiAndEventLabel
        | None, Some _ => inl SsiAndUsageMarker
        | Some _, Some _ => inr (Inconsistency "event_label/usage_marker"
            "MAC-RESOURCE SSI address may carry event label or usage marker, not both")
        end
      else if bool_decide (ssi_type a = Ussi) && bool_decide (event_label self = None)
              && bool_decide (usage_marker self = None) then inl AtUssi
      else if bool_decide (ssi_type a = Smi) then
        match usage_marker self with
        | Some _ => inr (Inconsistency "usage_marker"
            "MAC-RESOURCE SMI address may not carry a usage marker")
        | None => if bool_decide (is_Some (event_label self)) then inl SmiAndEventLabel else inl AtSmi
        end
      else inr (Inconsistency "addr.ssi_type"
        "MAC-RESOURCE address type must be SSI/GSSI/ISSI, USSI, or SMI")
  | None =>
      match usage_marker self with
      | Some _ => inr (Inconsistency "usage_marker"
          "MAC-RESOURCE usage marker requires an SSI address")
      | None => if bool_decide (is_Some (event_label self)) then inl AtEventLabel else inl NullPdu
      end
  end.

Definition validate_for_serialization (self : MacResource) : MacResourceAddrType + PduParseErr :=
  then_ (if (1 <? pos_of_grant self)%Z
         then inr (InvalidValue "pos_of_grant" (pos_of_grant self)) else inl tt) (
  then_ (if (3 <? encryption_mode self)%Z
         then inr (InvalidValue "encryption_mode" (encryption_mode self)) else inl tt) (
  then_ (if ((length_ind self =? 0) || (0x3f <? length_ind self))%Z
         then inr (InvalidValue "length_ind" (length_ind self)) else inl tt) (
  then_ (bounded "addr.ssi" 0xffffff (ssi <$> addr self)) (
  then_ (bounded "event_label" 0x3ff (event_label self)) (
  then_ (bounded "usage_marker" 0x3f (usage_marker self)) (
  then_ (bounded "power_control_element" 0xf (power_control_element self)) (
  address_type self))))))).

(** [let Some(x) = field else { return Err(FieldNotPresent { .. }) }] *)
Definition present {A} (name : string) (o : option A) : M A :=
  match o with Some x => mret x | None => fail (FieldNotPresent (Some name)) end.

Definition write_address_fields (self : MacResource) (addr_type : MacResourceAddrType) : M unit :=
  match addr_type with
  | NullPdu => mret tt
  | AtSsi | AtUssi | AtSmi =>
      a ← present "addr" (addr self); write_bits (ssi a) 24
  | AtEventLabel => l ← present "event_label" (event_label self); write_bits l 10
  | SsiAndEventLabel | SmiAndEventLabel =>
      a ← present "addr" (addr self);
      l ← present "event_label" (event_label self);
      write_bits (ssi a) 24;; write_bits l 10
  | SsiAndUsageMarker =>
      a ← present "addr" (addr self);
      u ← present "usage_marker" (usage_marker self);
      write_bits (ssi a) 24;; write_bits u 6
  end.

(** An unsupported channel allocation is left out. *)
Definition write_chan_alloc (o : option ChanAllocElement) : M unit :=
  match o with
  | Some v =>
      if is_supported_by_this_stack v then write_bits 1 1;; ChanAllocElement_to_bitbuf v
      else write_bits 0 1
  | None => write_bits 0 1
  end.

Definition try_to_bitbuf (self : MacResource) : M unit :=
  match validate_for_serialization self with
  | inr e => fail e
  | inl addr_type =>
      if negb (bool_decide (addr_type = NullPdu)) && negb (encryption_mode self =? 0)%Z
      then fail (NotImplemented (Some "encryption_mode"))
      else
      write_bits 0 2;;
      write_bits (b2z (fill_bits self)) 1;;
      write_bits (pos_of_grant self) 1;;
      write_bits (encryption_mode self) 2;;
      write_bits (b2z (random_access_flag self)) 1;;
      write_bits (length_ind self) 6;;
      write_bits (into_raw addr_type) 3;;
      write_address_fields self addr_type;;
      if bool_decide (addr_type = NullPdu) then mret tt else
      write_optional (fun v => write_bits v 4) (power_control_element self);;
      write_optional BasicSlotgrant_to_bitbuf (slot_granting_element self);;
      write_chan_alloc (chan_alloc_element self)
  end.

(** Errors are logged; nothing but what was written before the error stays behind. *)
Definition MacResource_to_bitbuf (self : MacResource) : M unit := fun buf =>
  match try_to_bitbuf self buf with Err _ buf' => Ok tt buf' | r => r end.

Definition compute_header_len (self : MacResource) : nat :=
  let ret := 16 in
  if is_null_pdu self then ret else
  let ret := if bool_decide (is_Some (event_label self)) then ret + 10 else ret in
  let ret := if bool_decide (is_Some (usage_marker self)) then ret + 6 else ret in
  let ret := if bool_decide (is_Some (addr self)) then ret + 24 else ret in
  let ret := ret + 1 in
  let ret := if bool_decide (is_Some (power_control_element self)) then ret + 4 else ret in
  let ret := ret + 1 in
  let ret := if bool_decide (is_Some (slot_granting_element self)) then ret + 8 else ret in
  let ret := ret + 1 in
  match chan_alloc_element self with
  | Some chan_alloc =>
      if is_supported_by_this_stack chan_alloc then ret + compute_len chan_alloc else ret
  | None => ret
  end.

(** Returns the number of fill bits and the updated header. *)
Definition update_len_and_fill_ind (self : MacResource) (sdu_len : nat) : nat * MacResource :=
  let total_len := compute_header_len self + sdu_len in
  let total_len_bytes := (total_len + 7) / 8 in
  let num_fill_bits := (8 - total_len mod 8) mod 8 in
  (num_fill_bits,
   mkResource (negb (num_fill_bits =? 0)) (pos_of_grant self) (encryption_mode self)
     (random_access_flag self) (u8 (Z.of_nat total_len_bytes)) (addr self) (event_label self)
     (usage_marker self) (power_control_element self) (slot_granting_element self)
     (chan_alloc_element self)).

(** ** MAC-FRAG and MAC-END *)

Record MacFragDl := mkFragDl { fr_fill_bits : bool }.

Definition MacFragDl_from_bitbuf : M MacFragDl :=
  expect_field 2 "mac_pdu_type" 1;;
  expect_field 1 "pdu_subtype" 0;;
  fill_bits ← read_flag "fill_bits";
  mret (mkFragDl fill_bits).

Definition MacFragDl_to_bitbuf (self : MacFragDl) : M unit :=
  write_bits 1 2;; write_bits 0 1;; write_bits (b2z (fr_fill_bits self)) 1.

Record MacEndDl := mkEndDl {
  en_fill_bits : bool;
  en_pos_of_grant : Z;
  en_length_ind : Z;
  en_slot_granting_element : option BasicSlotgrant;
  en_chan_alloc_element : option ChanAllocElement
}.

Definition MacEndDl_from_bitbuf : M MacEndDl :=
  expect_field 2 "mac_pdu_type" 1;;
  expect_field 1 "pdu_subtype" 1;;
  fill_bits ← read_flag "fill_bits";
  pos_of_grant ← read_u8 1 "pos_of_grant";
  length_ind ← read_u8 6 "length_ind";
  if (length_ind =? 0)%Z then fail (InvalidValue "length_ind" 0) else
  slot_granting_element ← read_optional "slot_granting_flag" BasicSlotgrant_from_bitbuf;
  chan_alloc_element ← read_optional "chan_alloc_flag" ChanAllocElement_from_bitbuf;
  mret (mkEndDl fill_bits pos_of_grant length_ind slot_granting_element chan_alloc_element).

Definition compute_hdr_len (has_slotgrant : bool) (chan_alloc_element : option ChanAllocElement) : nat :=
  let len := 2 + 1 + 1 + 1 + 6 + 1 + (if has_slotgrant then 8 else 0) + 1 in
  match chan_alloc_element with
  | Some chan_alloc =>
      if is_supported_by_this_stack chan_alloc then len + compute_len chan_alloc else len
  | None => len
  end.

Definition MacEndDl_to_bitbuf (self : MacEndDl) : M unit :=
  write_bits 1 2;;
  write_bits 1 1;;
  write_bits (b2z (en_fill_bits self)) 1;;
  write_bits (en_pos_of_grant self) 1;;
  write_bits (en_length_ind self) 6;;
  write_optional BasicSlotgrant_to_bitbuf (en_slot_granting_element self);;
  write_chan_alloc (en_chan_alloc_element self).

(** ** What is on the air *)

(** The fields have their Rust types and the elements can be encoded. *)
Definition encodable_chan_alloc (v : ChanAllocElement) : Prop :=
  is_supported_by_this_stack v = true -> valid v.

Record typed_resource (self : MacResource) : Prop := {
  ty_pos : (0 <= pos_of_grant self)%Z;
  ty_enc : (0 <= encryption_mode self)%Z;
  ty_len : (0 <= length_ind self)%Z;
  ty_addr : forall a, addr self = Some a -> (0 <= ssi a)%Z;
  ty_label : forall v, event_label self = Some v -> (0 <= v)%Z;
  ty_usage : forall v, usage_marker self = Some v -> (0 <= v)%Z;
  ty_power : forall v, power_control_element self = Some v -> (0 <= v)%Z;
  ty_grant : forall v, slot_granting_element self = Some v -> valid v;
  ty_chan : forall v, chan_alloc_element self = Some v -> encodable_chan_alloc v
}.

(** The header is accepted by [try_to_bitbuf]. *)
Definition accepted (self : MacResource) (ty : MacResourceAddrType) : Prop :=
  validate_for_serialization self = inl ty /\ (ty = NullPdu \/ encryption_mode self = 0%Z).

(** The individual, group and plain SSI share one address type on the air. *)
Definition air_ssi_type (t : SsiType) : SsiType :=
  match t with Gssi | Issi => Ssi | t => t end.
Definition air_addr (a : TetraAddress) : TetraAddress := mkAddr (ssi a) (air_ssi_type (ssi_type a)).
Definition air_chan_alloc (o : option ChanAllocElement) : option ChanAllocElement :=
  v ← o; if is_supported_by_this_stack v then Some v else None.

(** The header a receiver sees. *)
Definition on_air (self : MacResource) : MacResource :=
  if is_null_pdu self
  then mkResource false 0 0 false (length_ind self) None None None None None None
  else mkResource (fill_bits self) (pos_of_grant self) (encryption_mode self)
         (random_access_flag self) (length_ind self) (air_addr <$> addr self) (event_label self)
         (usage_marker self) (power_control_element self) (slot_granting_element self)
         (air_chan_alloc (chan_alloc_element self)).

Definition addr_img (self : MacResource) : list bool :=
  concat [from_option (fun a => val_bits 24 (ssi a)) [] (addr self);
          from_option (val_bits 10) [] (event_label self);
          from_option (val_bits 6) [] (usage_marker self)].

Definition resource_img (self : MacResource) (ty : MacResourceAddrType) : list bool :=
  concat [val_bits 2 0; img_bool (fill_bits self); val_bits 1 (pos_of_grant self);
          val_bits 2 (encryption_mode self); img_bool (random_access_flag self);
          val_bits 6 (length_ind self); val_bits 3 (into_raw ty); addr_img self;
          if bool_decide (ty = NullPdu) then []
          else concat [img_opt (val_bits 4) (power_control_element self);
                       img_opt img (slot_granting_element self);
                       img_opt img (air_chan_alloc (chan_alloc_element self))]].

(** ** Lemmas *)

Lemma then_inl {A} (r : unit + PduParseErr) (k : A + PduParseErr) x :
  then_ r k = inl x -> (exists u, r = inl u) /\ k = inl x.
Proof. destruct r; simpl; [by eauto|done]. Qed.

Lemma bounded_inl name bound o u :
  bounded name bound o = inl u -> forall v, o = Some v -> (v <= bound)%Z.
Proof. intros H v ->. unfold bounded in H. destruct (Z.ltb_spec bound v); [done|lia]. Qed.

(** What a successful validation establishes. *)
Lemma validate_inl self ty :
  validate_for_serialization self = inl ty ->
  address_type self = inl ty /\ (pos_of_grant self <= 1)%Z /\ (encryption_mode self <= 3)%Z /\
  (0 <> length_ind self)%Z /\ (length_ind self <= 0x3f)%Z /\
  (forall a, addr self = Some a -> (ssi a <= 0xffffff)%Z) /\
  (forall v, event_label self = Some v -> (v <= 0x3ff)%Z) /\
  (forall v, usage_marker self = Some v -> (v <= 0x3f)%Z) /\
  (forall v, power_control_element self = Some v -> (v <= 0xf)%Z).
Proof.
  intros H. unfold validate_for_serialization in H.
  apply then_inl in H as [[? H1] H]. apply then_inl in H as [[? H2] H].
  apply then_inl in H as [[? H3] H]. apply then_inl in H as [[? H4] H].
  apply then_inl in H as [[? H5] H]. apply then_inl in H as [[? H6] H].
  apply then_inl in H as [[? H7] H].
  destruct (Z.ltb_spec 1 (pos_of_grant self)); [done|].
  destruct (Z.ltb_spec 3 (encryption_mode self)); [done|].
  destruct (Z.eqb_spec (length_ind self) 0); [done|].
  destruct (Z.ltb_spec 0x3f (length_ind self)); [done|].
  split_and!; try done; try lia.
  - intros a Ha. eapply bounded_inl; [apply H4|]. by rewrite Ha.
  - by eapply bounded_inl.
  - by eapply bounded_inl.
  - by eapply bounded_inl.
Qed.

(** The address part, by the address type the code computes. *)
Section address.
Context (self : MacResource) (ty : MacResourceAddrType).
Context (Hty : address_type self = inl ty).
Context (Ha : forall a, addr self = Some a -> (0 <= ssi a <= 0xffffff)%Z).
Context (Hl : forall v, event_label self = Some v -> (0 <= v <= 0x3ff)%Z).
Context (Hu : forall v, usage_marker self = Some v -> (0 <= v <= 0x3f)%Z).

Ltac address_cases :=
  unfold address_type, is_null_pdu in Hty;
  destruct (addr self) as [[s t]|]; [specialize (Ha _ eq_refl); cbn in Ha; destruct t|];
  (destruct (event_label self) as [l|]; [specialize (Hl _ eq_refl)|]);
  (destruct (usage_marker self) as [u|]; [specialize (Hu _ eq_refl)|]);
  vm_compute in Hty; simplify_eq; cbn [from_option ssi app concat].

Lemma write_address_emits : emits (write_address_fields self ty) tt (addr_img self).
Proof using self ty Hty Ha Hl Hu.
  unfold write_address_fields, addr_img. address_cases; cbn [present];
    rewrite ?app_nil_r; repeat (apply (emits_bind (mret _) _ _ _ []); [apply emits_ret|]);
    first [apply emits_ret | apply write_bits_emits; simpl; lia
          | apply emits_bind_tt; apply write_bits_emits; simpl; lia].
Qed.

Lemma read_address_parses rest :
  parses (read_address_fields ty) (addr_img self) rest
    (air_addr <$> addr self, event_label self, usage_marker self).
Proof using self ty Hty Ha Hl Hu.
  unfold read_address_fields, addr_img, read_addr. address_cases; cbn;
    repeat (eapply parses_bind;
      [first [apply read_u16_parses|apply read_u8_parses|apply parses_fmap, read_u32_parses]; simpl; lia|]);
    apply parses_ret.
Qed.

Lemma null_address : ty = NullPdu <-> is_null_pdu self = true.
Proof using self ty Hty.
  clear Ha Hl Hu. unfold address_type in Hty. destruct (is_null_pdu self) eqn:E; [split; [done|congruence]|].
  split; [|done]. intros ->. exfalso. unfold is_null_pdu in E.
  destruct (addr self) as [[s []]|], (event_label self), (usage_marker self); vm_compute in Hty, E; done.
Qed.
End address.

Lemma write_chan_alloc_emits o :
  (forall v, o = Some v -> encodable_chan_alloc v) ->
  emits (write_chan_alloc o) tt (img_opt img (air_chan_alloc o)).
Proof.
  intros H. destruct o as [v|]; unfold write_chan_alloc, air_chan_alloc; cbn.
  - specialize (H v eq_refl). unfold encodable_chan_alloc in H.
    destruct (is_supported_by_this_stack v).
    + apply (write_optional_emits ChanAllocElement_to_bitbuf img (Some v)).
      intros ? [= <-]. exact (put_emits v (H eq_refl)).
    + by apply (write_optional_emits ChanAllocElement_to_bitbuf img None).
  - by apply (write_optional_emits ChanAllocElement_to_bitbuf img None).
Qed.

Lemma air_chan_alloc_valid o v :
  (forall v, o = Some v -> encodable_chan_alloc v) -> air_chan_alloc o = Some v -> valid v.
Proof.
  intros H E. destruct o as [w|]; cbn in E; [|done]. specialize (H w eq_refl).
  unfold encodable_chan_alloc in H. destruct (is_supported_by_this_stack w); simplify_eq. by apply H.
Qed.

Lemma length_air_chan_alloc o n :
  (forall v, o = Some v -> encodable_chan_alloc v) ->
  n + length (img_opt img (air_chan_alloc o))
  = match o with
    | Some v => if is_supported_by_this_stack v then n + 1 + compute_len v else n + 1
    | None => n + 1
    end.
Proof.
  intros H. unfold img_opt. rewrite length_app, length_img_bool. destruct o as [v|]; cbn; [|lia].
  specialize (H v eq_refl). unfold encodable_chan_alloc in H.
  destruct (is_supported_by_this_stack v); cbn; [|lia].
  rewrite length_chan_alloc_img by (by apply H). lia.
Qed.

Lemma length_from_option {A} (f : A -> list bool) k o :
  (forall v, length (f v) = k) ->
  length (from_option f [] o) = if bool_decide (is_Some o) then k else 0.
Proof. intros H. destruct o; cbn; [apply H|done]. Qed.

Lemma length_img_opt {A} (f : A -> list bool) k o :
  (forall v, length (f v) = k) ->
  length (img_opt f o) = 1 + if bool_decide (is_Some o) then k else 0.
Proof.
  intros H. unfold img_opt. by rewrite length_app, length_img_bool, (length_from_option f k).
Qed.

Section resource.
Context (self : MacResource) (ty : MacResourceAddrType).
Context (T : typed_resource self) (A : accepted self ty).

Lemma resource_emits : emits (try_to_bitbuf self) tt (resource_img self ty).
Proof using self ty T A.
  destruct T as [Tp Te Tl Ta Tv Tu Tw Tg Tc], A as [V E].
  destruct (validate_inl _ _ V) as (Hty & Hp & He & Hl0 & Hl & Ha & Hv & Hu & Hw).
  unfold try_to_bitbuf, resource_img. rewrite V.
  replace (negb (bool_decide (ty = NullPdu)) && negb (encryption_mode self =? 0)%Z) with false.
  2:{ symmetry. apply andb_false_iff. rewrite !negb_false_iff, bool_decide_eq_true, Z.eqb_eq. done. }
  cbn [concat]. emit.
  eapply emits_bind_tt.
  { apply write_address_emits; [done|intros; split; auto..]. }
  apply emits_app_nil. case_bool_decide; [apply emits_ret|].
  eapply emits_bind_tt.
  { apply write_optional_emits. intros v Hpv. specialize (Tw v Hpv). specialize (Hw v Hpv).
    apply write_bits_emits; [simpl; lia|lia]. }
  eapply emits_bind_tt.
  { apply write_optional_emits. intros v Hgv. exact (put_emits v (Tg v Hgv)). }
  by apply emits_app_nil, write_chan_alloc_emits.
Qed.

Lemma resource_parses rest : parses MacResource_from_bitbuf (resource_img self ty) rest (on_air self).
Proof using self ty T A.
  destruct T as [Tp Te Tl Ta Tv Tu Tw Tg Tc], A as [V E].
  destruct (validate_inl _ _ V) as (Hty & Hp & He & Hl0 & Hl & Ha & Hv & Hu & Hw).
  pose proof (null_address self ty Hty) as Hnull.
  unfold MacResource_from_bitbuf, resource_img, on_air. cbn [concat]. parse.
  eapply parses_bind.
  { apply read_address_parses; [done|intros; split; auto..]. }
  cbv beta iota. apply parses_app_nil.
  destruct (decide (ty = NullPdu)) as [Hn|Hn].
  - rewrite !bool_decide_true, (proj1 Hnull) by done. apply Hnull in Hn. unfold is_null_pdu in Hn.
    destruct (addr self), (event_label self), (usage_marker self); try done. apply parses_ret.
  - rewrite !bool_decide_false by done. replace (is_null_pdu self) with false.
    2:{ symmetry. apply not_true_iff_false. by rewrite <- Hnull. }
    eapply parses_bind.
    { apply read_optional_parses. intros v Hpv. specialize (Tw v Hpv). specialize (Hw v Hpv).
      apply read_u8_parses; [simpl; lia|lia]. }
    eapply parses_bind.
    { apply (read_optional_parses _ BasicSlotgrant_from_bitbuf img). intros v Hgv. exact (get_parses v _ (Tg v Hgv)). }
    eapply parses_bind.
    { apply (read_optional_parses _ ChanAllocElement_from_bitbuf img). intros v Hcv.
      exact (get_parses v _ (air_chan_alloc_valid _ v Tc Hcv)). }
    apply parses_ret.
Qed.

Lemma length_resource_img : length (resource_img self ty) = compute_header_len self.
Proof using self ty T A.
  destruct T as [Tp Te Tl Ta Tv Tu Tw Tg Tc], A as [V E].
  destruct (validate_inl _ _ V) as (Hty & _). pose proof (null_address self ty Hty) as Hnull.
  unfold resource_img, compute_header_len. cbn [concat].
  rewrite !length_app, !length_val_bits, !length_img_bool. unfold addr_img.
  destruct (is_null_pdu self) eqn:En.
  - rewrite bool_decide_true by (by apply Hnull). unfold is_null_pdu in En.
    by destruct (addr self), (event_label self), (usage_marker self).
  - rewrite bool_decide_false by (by rewrite Hnull). cbn [concat].
    rewrite !length_app, (length_from_option (fun a => val_bits 24 (ssi a)) 24), (length_from_option _ 10),
      (length_from_option _ 6), (length_img_opt _ 4), (length_img_opt _ 8) by (intros; apply length_val_bits || done).
    cbn [length]. rewrite Nat.add_0_r.
    pose proof (length_air_chan_alloc (chan_alloc_element self) 0 Tc) as Hc.
    destruct (bool_decide (is_Some (addr self))), (bool_decide (is_Some (event_label self))),
      (bool_decide (is_Some (usage_marker self))), (bool_decide (is_Some (power_control_element self))),
      (bool_decide (is_Some (slot_granting_element self)));
      destruct (chan_alloc_element self) as [c|]; try destruct (is_supported_by_this_stack c); lia.
Qed.
End resource.

Lemma frag_emits x : emits (MacFragDl_to_bitbuf (mkFragDl x)) tt (concat [val_bits 2 1; val_bits 1 0; img_bool x]).
Proof. unfold MacFragDl_to_bitbuf. cbn [concat fr_fill_bits]. emit. Qed.

Lemma frag_parses x rest :
  parses MacFragDl_from_bitbuf (concat [val_bits 2 1; val_bits 1 0; img_bool x]) rest (mkFragDl x).
Proof. unfold MacFragDl_from_bitbuf. cbn [concat]. parse. Qed.

Record valid_end (self : MacEndDl) : Prop := {
  ve_pos : (0 <= en_pos_of_grant self <= 1)%Z;
  ve_len : (1 <= en_length_ind self < 64)%Z;
  ve_grant : forall v, en_slot_granting_element self = Some v -> valid v;
  ve_chan : forall v, en_chan_alloc_element self = Some v -> encodable_chan_alloc v
}.

Definition end_img (self : MacEndDl) : list bool :=
  concat [val_bits 2 1; val_bits 1 1; img_bool (en_fill_bits self);
          val_bits 1 (en_pos_of_grant self); val_bits 6 (en_length_ind self);
          img_opt img (en_slot_granting_element self);
          img_opt img (air_chan_alloc (en_chan_alloc_element self))].

Definition end_on_air (self : MacEndDl) : MacEndDl :=
  mkEndDl (en_fill_bits self) (en_pos_of_grant self) (en_length_ind self)
    (en_slot_granting_element self) (air_chan_alloc (en_chan_alloc_element self)).

Lemma end_emits self : valid_end self -> emits (MacEndDl_to_bitbuf self) tt (end_img self).
Proof.
  intros [Vp Vl Vg Vc]. unfold MacEndDl_to_bitbuf, end_img. cbn [concat]. emit.
  eapply emits_bind_tt.
  { apply write_optional_emits. intros v Hgv. exact (put_emits v (Vg v Hgv)). }
  by apply emits_app_nil, write_chan_alloc_emits.
Qed.

Lemma end_parses self rest :
  valid_end self -> parses MacEndDl_from_bitbuf (end_img self) rest (end_on_air self).
Proof.
  intros [Vp Vl Vg Vc]. unfold MacEndDl_from_bitbuf, end_img, end_on_air. cbn [concat]. parse.
  bfalse (en_length_ind self =? 0)%Z.
  eapply parses_bind.
  { apply (read_optional_parses _ BasicSlotgrant_from_bitbuf img). intros v Hgv.
    exact (get_parses v _ (Vg v Hgv)). }
  eapply parses_bind.
  { apply (read_optional_parses _ ChanAllocElement_from_bitbuf img). intros v Hcv.
    exact (get_parses v _ (air_chan_alloc_valid _ v Vc Hcv)). }
  apply parses_ret.
Qed.

Lemma length_end_img self :
  valid_end self ->
  length (end_img self)
  = compute_hdr_len (bool_decide (is_Some (en_slot_granting_element self))) (en_chan_alloc_element self).
Proof.
  intros [Vp Vl Vg Vc]. unfold end_img, compute_hdr_len. cbn [concat].
  rewrite !length_app, !length_val_bits, length_img_bool, (length_img_opt _ 8) by done.
  pose proof (length_air_chan_alloc (en_chan_alloc_element self) 0 Vc) as Hc. cbn [length].
  destruct (bool_decide (is_Some (en_slot_granting_element self)));
    destruct (en_chan_alloc_element self) as [c|]; try destruct (is_supported_by_this_stack c); lia.
Qed.

Lemma resource_to_bitbuf_emits self ty :
  typed_resource self -> accepted self ty -> emits (MacResource_to_bitbuf self) tt (resource_img self ty).
Proof.
  intros T A b W R. destruct (resource_emits self ty T A b W R) as (b' & E & Wr).
  exists b'. unfold MacResource_to_bitbuf. by rewrite E.
Qed.

(** ** Claims *)

(** MAC-RESOURCE round trip.  A header with fields of their Rust types that passes
    the serializer's own validation (and is not encrypted) is written, into any buffer
    with room for [compute_header_len] bits, without a panic and as exactly that many
    bits; parsing these bits, whatever follows them, returns the header, with an
    individual or group SSI seen as an SSI and an unsupported channel allocation
    absent. *)
Lemma mac_resource_roundtrip self ty b :
  typed_resource self -> accepted self ty -> wf b -> room b (compute_header_len self) ->
  exists b' bs, MacResource_to_bitbuf self b = Ok tt b' /\ wrote b b' bs /\
    length bs = compute_header_len self /\
    forall rest, parses MacResource_from_bitbuf bs rest (on_air self).
Proof.
  intros T A W R. rewrite <- (length_resource_img self ty T A) in R.
  destruct (resource_to_bitbuf_emits self ty T A b W R) as (b' & E & Wr).
  exists b', (resource_img self ty). split_and!; [done..|by apply length_resource_img|].
  intros rest. by apply resource_parses.
Qed.

(** A group-addressed header with a usage marker, a slot grant and a channel allocation. *)
Definition example_chan_alloc : ChanAllocElement :=
  mkChanAlloc Replace [false; true; false; false] Both true false 1528 None 0 (Some 0%Z).
Definition example_resource : MacResource :=
  mkResource true 0 0 true 12 (Some (mkAddr 1234 Gssi)) None (Some 5%Z) (Some 3%Z)
    (Some (mkSlotgrant Grant2Slots (DelayNOpportunities 7))) (Some example_chan_alloc).

Lemma example_chan_alloc_valid : valid example_chan_alloc.
Proof.
  split; [reflexivity|]. split; [reflexivity|]. split; [cbn; lia|]. split; [cbn; lia|].
  cbn. exists 0%Z. split; [reflexivity|lia].
Qed.

Lemma example_resource_typed : typed_resource example_resource.
Proof.
  split; cbn; try lia; try (intros ? [= <-]; cbn; lia); try done.
  - intros ? [= <-]. change (valid_delay (DelayNOpportunities 7)). cbn. lia.
  - intros ? [= <-] _. apply example_chan_alloc_valid.
Qed.

(** MAC-END round trip: The same for the header that ends a fragmented message,
    with [compute_hdr_len] as its length. *)
Lemma mac_end_roundtrip self b :
  valid_end self -> wf b ->
  room b (compute_hdr_len (bool_decide (is_Some (en_slot_granting_element self))) (en_chan_alloc_element self)) ->
  exists b' bs, MacEndDl_to_bitbuf self b = Ok tt b' /\ wrote b b' bs /\
    length bs = compute_hdr_len (bool_decide (is_Some (en_slot_granting_element self)))
                  (en_chan_alloc_element self) /\
    forall rest, parses MacEndDl_from_bitbuf bs rest (end_on_air self).
Proof.
  intros V W R. rewrite <- length_end_img in R by done.
  destruct (end_emits self V b W R) as (b' & E & Wr).
  exists b', (end_img self). split_and!; [done..|by apply length_end_img|].
  intros rest. by apply end_parses.
Qed.
