(* ===== verification/Fillbits.v ===== *)
(** * Fill bits (crates/tetra-entities/src/umac/subcomp/fillbits.rs)

    How many bits pad a MAC PDU, how they are written (a one followed by zeroes) and
    how a receiver finds them again. *)

From Stdlib Require Import ZArith Lia ZifyNat.
From S2P Require Import Prelude.
From S2P Require Import BitBuffer.
From S2P Require Import BitBufferFacts.
From S2P Require Import Codec.

(** ** Removal *)

(** The [while] loop; [n] is [index + 1], so [index >= 0] at every read. *)
Fixpoint fill_bits_loop (bitbuf : BitBuffer) (pdu_len_bits n : nat) : option nat :=
  match n with
  | 0 => Some 0
  | S index =>
      if get_pos bitbuf <=? index then
        bit ← mjoin (peek_bits_startoffset bitbuf index 1);
        if (bit =? 0)%Z then fill_bits_loop bitbuf pdu_len_bits index
        else Some (pdu_len_bits - index)
      else Some 0
  end.

(** [None] is the panic of [unwrap] on a bit outside the window. *)
Definition get_num_fill_bits (bitbuf : BitBuffer) (pdu_len_bits : nat) : option nat :=
  fill_bits_loop bitbuf pdu_len_bits pdu_len_bits.

(** ** Addition *)

Definition compute_required_bytealigned (total_pdu_sdu_len_bits : nat) : nat :=
  (8 - total_pdu_sdu_len_bits mod 8) mod 8.

Definition compute_required (total_pdu_sdu_len_bits dest_cap_left : nat) : nat :=
  if dest_cap_left <=? total_pdu_sdu_len_bits then 0 else
  let bytealigned_fill_bits := compute_required_bytealigned total_pdu_sdu_len_bits in
  if total_pdu_sdu_len_bits + bytealigned_fill_bits <=? dest_cap_left then bytealigned_fill_bits
  else dest_cap_left - total_pdu_sdu_len_bits.

Definition write (num_fill_bits : option nat) : M unit :=
  match num_fill_bits with
  | Some num_fill_bits =>
      if 0 <? num_fill_bits then write_bit 1;; write_zeroes (num_fill_bits - 1) else mret tt
  | None =>
      remaining ← reading get_len_remaining;
      if 0 <? remaining then
        write_bit 1;; (remaining ← reading get_len_remaining; write_zeroes remaining)
      else mret tt
  end.

(** ** Facts *)

(** The [n] fill bits. *)
Definition fill (n : nat) : list bool :=
  match n with 0 => [] | S k => true :: replicate k false end.

Lemma length_fill n : length (fill n) = n.
Proof. destruct n; cbn; [done|]. by rewrite length_replicate. Qed.

Lemma write_emits n : emits (write (Some n)) tt (fill n).
Proof.
  destruct n as [|k]; cbn [write fill].
  - change (0 <? 0) with false. apply emits_ret.
  - btrue (0 <? S k). apply (emits_bind_tt _ _ _ [true]); [apply (write_bit_emits true)|].
    replace (S k - 1) with k by lia. apply write_zeroes_emits.
Qed.

(** The trailing zeroes of a bit string and the one before them; 0 if there is no one. *)
Fixpoint trailing (rev_bits : list bool) : nat :=
  match rev_bits with
  | [] => 0
  | true :: _ => 1
  | false :: rest => match trailing rest with 0 => 0 | S k => S (S k) end
  end.

Lemma fill_bits_loop_spec b n k :
  wf b -> start b + n <= end_ b ->
  fill_bits_loop b (n + k) n
  = Some (match trailing (rev (getbits (buffer b) (pos b) (start b + n - pos b))) with
          | 0 => 0 | S j => S j + k end).
Proof.
  intros W. pose proof W as [Wb Ws Wp We]. revert k.
  induction n as [|n IH]; intros k Hn; cbn [fill_bits_loop].
  { replace (start b + 0 - pos b) with 0 by lia. done. }
  unfold get_pos. destruct (Nat.leb_spec (pos b - start b) n) as [Hp|Hp].
  2:{ replace (start b + S n - pos b) with 0 by lia. done. }
  rewrite peek_bits_startoffset_spec by (done || lia). cbn [mjoin option_join]. rewrite bind_Some.
  replace (start b + S n - pos b) with (start b + n - pos b + 1) by lia.
  rewrite getbits_app, rev_app_distr. replace (pos b + (start b + n - pos b)) with (start b + n) by lia.
  cbn. destruct (getbit (buffer b) (start b + n)); cbn.
  - f_equal. lia.
  - replace (S (n + k)) with (n + S k) by lia. change (0 =? 0)%Z with true. cbv iota. rewrite IH by lia.
    destruct (trailing _); f_equal; lia.
Qed.

Lemma get_num_fill_bits_spec b n :
  wf b -> start b + n <= end_ b ->
  get_num_fill_bits b n = Some (trailing (rev (getbits (buffer b) (pos b) (start b + n - pos b)))).
Proof.
  intros W Hn. unfold get_num_fill_bits. pose proof (fill_bits_loop_spec b n 0 W Hn) as H.
  rewrite Nat.add_0_r in H. rewrite H. f_equal. destruct (trailing _); lia.
Qed.

Lemma trailing_fill l n : 0 < n -> trailing (rev (l ++ fill n)) = n.
Proof.
  intros Hn. destruct n as [|k]; [lia|]. clear Hn. cbn [fill]. rewrite rev_app_distr. cbn [rev].
  rewrite <- app_assoc. cbn [app]. induction k as [|k IH]; [done|].
  rewrite replicate_S_end, rev_app_distr. cbn. by rewrite IH.
Qed.

(** Fill bits behind the cursor are found exactly. *)
Lemma get_num_fill_bits_fill b n sdu k :
  wf b -> start b + n <= end_ b -> 0 < k ->
  getbits (buffer b) (pos b) (start b + n - pos b) = sdu ++ fill k ->
  get_num_fill_bits b n = Some k.
Proof. intros W Hn Hk E. rewrite get_num_fill_bits_spec, E by done. by rewrite trailing_fill. Qed.

Lemma compute_required_aligned total cap :
  total <= cap ->
  let n := compute_required total cap in
  total + n <= cap /\ ((total + n) mod 8 = 0 \/ total + n = cap) /\
  forall m, m < n -> (total + m) mod 8 <> 0 /\ total + m <> cap.
Proof.
  intros H. cbv zeta. unfold compute_required, compute_required_bytealigned.
  destruct (Nat.leb_spec cap total) as [Hc|Hc].
  - split_and!; [lia|right; lia|lia].
  - destruct (Nat.leb_spec (total + (8 - total mod 8) mod 8) cap) as [Hf|Hf].
    + split_and!; [lia|left; divlia|]. intros m Hm. split; [divlia|lia].
    + split_and!; [lia|right; lia|]. intros m Hm. split; [divlia|lia].
Qed.
