(* ===== verification/Defrag.v ===== *)
(** * Defragmentation (crates/tetra-entities/src/umac/subcomp)

    The reassembly buffer (defrag.rs), the base station's defragmenter (bs_defrag.rs),
    which keeps one buffer per timeslot and full TETRA address, and the mobile's
    (ms_defrag.rs), which keeps one per timeslot.  Both implement the same contract:
    a map from the sender to the bits received so far. *)

From Stdlib Require Import ZArith Lia ZifyNat.
From stdpp Require Import gmap strings.
From S2P Require Import Prelude.
From S2P Require Import BitBuffer.
From S2P Require Import BitBufferFacts.
From S2P Require Import Tdma.
From S2P Require Import MacFields.

(** ** Addresses as map keys *)

Definition SsiType_code (x : SsiType) : nat :=
  match x with
  | Unknown => 0 | Ssi => 1 | Issi => 2 | Gssi => 3 | Ussi => 4 | Smi => 5 | Esi => 6
  | EventLabelSsi => 7
  end.
Definition SsiType_decode (n : nat) : SsiType :=
  match n with
  | 0 => Unknown | 1 => Ssi | 2 => Issi | 3 => Gssi | 4 => Ussi | 5 => Smi | 6 => Esi
  | _ => EventLabelSsi
  end.
#[export] Instance SsiType_countable : Countable SsiType.
Proof. apply (inj_countable' SsiType_code SsiType_decode). by intros []. Defined.
#[export] Instance TetraAddress_countable : Countable TetraAddress.
Proof.
  apply (inj_countable' (fun a => (ssi a, ssi_type a)) (fun p => mkAddr p.1 p.2)). by intros [].
Defined.

(** ** The reassembly buffer *)

Definition DEFRAG_BUF_INITIAL_LEN : nat := 512.

Inductive DefragBufferState := Inactive | Active | Complete.
#[export] Instance DefragBufferState_eq_dec : EqDecision DefragBufferState.
Proof. solve_decision. Defined.

Record DefragBuffer := mkDefrag {
  state : DefragBufferState;
  d_addr : TetraAddress;
  t_first : TdmaTime;
  t_last : TdmaTime;
  num_frags : nat;
  aie_info : option Z;
  d_buffer : BitBuffer
}.

Definition DefragBuffer_new : DefragBuffer :=
  mkDefrag Inactive (mkAddr 0 Issi) TdmaTime_default TdmaTime_default 0 None
    (new_autoexpand DEFRAG_BUF_INITIAL_LEN).

Definition DefragBuffer_reset (self : DefragBuffer) : DefragBuffer :=
  mkDefrag Inactive (mkAddr 0 Issi) TdmaTime_default TdmaTime_default 0 None
    (new_autoexpand DEFRAG_BUF_INITIAL_LEN).

(** [dst.copy_bits(src, src.get_len_remaining())]; [None] is a panic. *)
Definition copy_remaining (dst src : BitBuffer) : option (BitBuffer * BitBuffer) :=
  match copy_bits (get_len_remaining src) dst src with Ok _ s => Some s | _ => None end.

(** [(t.t - 1) as usize] *)
Definition ts_index (time : TdmaTime) : nat := Z.to_nat (u8 (t time - 1)).

(** ** The base station's defragmenter *)

Definition DEFRAG_BUF_MAX_LEN : nat := 4096.
Definition DEFRAG_TS_BEFORE_TIMEOUT : Z := 9 * 4.

(** [buffers: [HashMap<TetraAddress, DefragBuffer>; 4]] *)
Record BsDefrag := mkBsDefrag { buffers : list (gmap TetraAddress DefragBuffer) }.

Definition BsDefrag_new : BsDefrag := mkBsDefrag [∅; ∅; ∅; ∅].

Definition BsDefrag_reset (self : BsDefrag) : BsDefrag :=
  mkBsDefrag ((fun _ => ∅) <$> buffers self).

(** [self.buffers[ts] = map] *)
Definition set_map (self : BsDefrag) (ts : nat) (map : gmap TetraAddress DefragBuffer) : BsDefrag :=
  mkBsDefrag (<[ts := map]> (buffers self)).

(** The condition under which [age_buffers] keeps a buffer. *)
Definition keep (timeout : Z) (time : TdmaTime) (buf : DefragBuffer) : bool :=
  negb (negb (bool_decide (state buf = Inactive)) && (timeout <=? diff time (t_last buf))%Z).

Definition age_buffers (self : BsDefrag) (time : TdmaTime) : BsDefrag :=
  mkBsDefrag ((fun map => filter (fun kv => keep DEFRAG_TS_BEFORE_TIMEOUT time kv.2 = true) map)
                <$> buffers self).

Definition discard_incomplete_for_addr (self : BsDefrag) (time : TdmaTime) (addr : TetraAddress)
  : option (bool * BsDefrag) :=
  let ts := ts_index time in
  map ← buffers self !! ts;
  match map !! addr with
  | None => Some (false, self)
  | Some buf =>
      if bool_decide (state buf = Inactive) then Some (false, self)
      else Some (true, set_map self ts (delete addr map))
  end.

Definition insert_first (self : BsDefrag) (bitbuffer : BitBuffer) (time : TdmaTime)
  (addr : TetraAddress) (aie : option Z) : option (BsDefrag * BitBuffer) :=
  let ts := ts_index time in
  map ← buffers self !! ts;
  let buf := match map !! addr with Some buf => DefragBuffer_reset buf | None => DefragBuffer_new end in
  let map := delete addr map in
  '(b, bitbuffer') ← copy_remaining (d_buffer buf) bitbuffer;
  let buf := mkDefrag Active addr time time 1 aie b in
  Some (set_map self ts (<[addr := buf]> map), bitbuffer').

Definition insert_next (self : BsDefrag) (bitbuffer : BitBuffer) (addr : TetraAddress)
  (time : TdmaTime) : option (BsDefrag * BitBuffer) :=
  let ts := ts_index time in
  map ← buffers self !! ts;
  match map !! addr with
  | None => Some (self, bitbuffer)
  | Some buf =>
      if negb (bool_decide (state buf = Active)) then Some (self, bitbuffer)
      else if DEFRAG_BUF_MAX_LEN <? get_len (d_buffer buf) + get_len_remaining bitbuffer
      then Some (set_map self ts (<[addr := DefragBuffer_reset buf]> map), bitbuffer)
      else
        '(b, bitbuffer') ← copy_remaining (d_buffer buf) bitbuffer;
        let buf := mkDefrag (state buf) (d_addr buf) (t_first buf) time (num_frags buf + 1)
                     (aie_info buf) b in
        Some (set_map self ts (<[addr := buf]> map), bitbuffer')
  end.

Definition insert_last (self : BsDefrag) (bitbuffer : BitBuffer) (addr : TetraAddress)
  (time : TdmaTime) : option (option DefragBuffer * BsDefrag * BitBuffer) :=
  '(self, bitbuffer) ← insert_next self bitbuffer addr time;
  let ts := ts_index time in
  map ← buffers self !! ts;
  match map !! addr with
  | None => Some (None, self, bitbuffer)
  | Some buf =>
      let self := set_map self ts (delete addr map) in
      if negb (bool_decide (state buf = Active)) then Some (None, self, bitbuffer)
      else
        match set_raw_pos 0 (d_buffer buf) with
        | Ok _ b =>
            Some (Some (mkDefrag Complete (d_addr buf) (t_first buf) (t_last buf) (num_frags buf)
                          (aie_info buf) b), self, bitbuffer)
        | _ => None
        end
  end.

Definition get_aie_info (self : BsDefrag) (addr : TetraAddress) (time : TdmaTime)
  : option (option Z) :=
  map ← buffers self !! ts_index time;
  match map !! addr with
  | None => Some None
  | Some buf => if bool_decide (state buf = Inactive) then Some None else Some (aie_info buf)
  end.

(** ** The mobile's defragmenter *)

Definition N203_CONTROL_CHANNEL_SLOTS_WITHOUT_FRAGMENT : Z := 4.
Definition MS_DEFRAG_TS_BEFORE_TIMEOUT : Z := N203_CONTROL_CHANNEL_SLOTS_WITHOUT_FRAGMENT * 4.

(** [buffers: [DefragBuffer; 4]] *)
Record MsDefrag := mkMsDefrag { ms_buffers : list DefragBuffer }.

Definition MsDefrag_new : MsDefrag :=
  mkMsDefrag [DefragBuffer_new; DefragBuffer_new; DefragBuffer_new; DefragBuffer_new].

Definition MsDefrag_reset (self : MsDefrag) : MsDefrag :=
  mkMsDefrag (DefragBuffer_reset <$> ms_buffers self).

(** [self.buffers[ts] = buf] *)
Definition set_buf (self : MsDefrag) (ts : nat) (buf : DefragBuffer) : MsDefrag :=
  mkMsDefrag (<[ts := buf]> (ms_buffers self)).

Definition ms_age_buffers (self : MsDefrag) (time : TdmaTime) : MsDefrag :=
  mkMsDefrag ((fun buf => if keep MS_DEFRAG_TS_BEFORE_TIMEOUT time buf then buf
                          else DefragBuffer_reset buf) <$> ms_buffers self).

Definition ms_insert_first (self : MsDefrag) (bitbuffer : BitBuffer) (time : TdmaTime)
  (addr : TetraAddress) (aie : option Z) : option (MsDefrag * BitBuffer) :=
  let ts := ts_index time in
  buf ← ms_buffers self !! ts;
  let buf := if negb (bool_decide (state buf = Inactive)) then DefragBuffer_reset buf else buf in
  '(b, bitbuffer') ← copy_remaining (d_buffer buf) bitbuffer;
  Some (set_buf self ts (mkDefrag Active addr time time 1 aie b), bitbuffer').

(** [insert_next] and [insert_last] differ in the state they leave behind. *)
Definition ms_append (final : DefragBufferState) (self : MsDefrag) (bitbuffer : BitBuffer)
  (time : TdmaTime) : option (MsDefrag * BitBuffer) :=
  let ts := ts_index time in
  buf ← ms_buffers self !! ts;
  if negb (bool_decide (state buf = Active)) then Some (self, bitbuffer)
  else if DEFRAG_BUF_MAX_LEN <? get_len (d_buffer buf) + get_len_remaining bitbuffer
  then Some (set_buf self ts DefragBuffer_new, bitbuffer)
  else
    '(b, bitbuffer') ← copy_remaining (d_buffer buf) bitbuffer;
    Some (set_buf self ts (mkDefrag final (d_addr buf) (t_first buf) time (num_frags buf + 1)
                            (aie_info buf) b), bitbuffer').
Definition ms_insert_next := ms_append Active.
Definition ms_insert_last := ms_append Complete.

Definition ms_get_aie_info (self : MsDefrag) (time : TdmaTime) : option (option Z) :=
  buf ← ms_buffers self !! ts_index time;
  if negb (bool_decide (state buf = Active)) then Some None else Some (aie_info buf).

Definition take_defragged_buf (self : MsDefrag) (time : TdmaTime)
  : option (option DefragBuffer * MsDefrag) :=
  let ts := ts_index time in
  buf ← ms_buffers self !! ts;
  if negb (bool_decide (state buf = Complete)) then Some (None, self)
  else
    match (set_raw_end (pos (d_buffer buf));; seek 0) (d_buffer buf) with
    | Ok _ b =>
        Some (Some (mkDefrag (state buf) (d_addr buf) (t_first buf) (t_last buf) (num_frags buf)
                      (aie_info buf) b), set_buf self ts DefragBuffer_new)
    | _ => None
    end.

(** ** The contract: a partial message per sender *)

(** The sender of a fragment, by timeslot index and full address. *)
Abbreviation sender := (nat * TetraAddress)%type.

(** The bits received so far and the time of the last fragment. *)
Definition asm : Type := sender -> option (list bool * TdmaTime).

Definition asm_set (a : asm) (k : sender) (o : option (list bool * TdmaTime)) : asm :=
  fun k' => if decide (k' = k) then o else a k'.

Definition asm_next (a : asm) (k : sender) (bs : list bool) (time : TdmaTime) : asm :=
  match a k with
  | Some (old, _) =>
      if DEFRAG_BUF_MAX_LEN <? length old + length bs then asm_set a k None
      else asm_set a k (Some (old ++ bs, time))
  | None => a
  end.

Inductive event :=
  | First (addr : TetraAddress) (frag : BitBuffer) (time : TdmaTime)
  | Next (addr : TetraAddress) (frag : BitBuffer) (time : TdmaTime)
  | Last (addr : TetraAddress) (frag : BitBuffer) (time : TdmaTime)
  | Discard (addr : TetraAddress) (time : TdmaTime)
  | Age (now : TdmaTime).

(** The messages handed over: sender and, if reassembly succeeded, the bits. *)
Abbreviation output := (list (sender * option (list bool))).

Definition asm_step (a : asm) (e : event) : output * asm :=
  match e with
  | First addr frag time => ([], asm_set a (ts_index time, addr) (Some (remaining frag, time)))
  | Next addr frag time => ([], asm_next a (ts_index time, addr) (remaining frag) time)
  | Last addr frag time =>
      let k := (ts_index time, addr) in
      let a := asm_next a k (remaining frag) time in
      ([(k, fst <$> a k)], asm_set a k None)
  | Discard addr time => ([], asm_set a (ts_index time, addr) None)
  | Age now =>
      ([], fun k => p ← a k; if (DEFRAG_TS_BEFORE_TIMEOUT <=? diff now p.2)%Z then None else Some p)
  end.

(** The same events on the concrete defragmenter. *)
Definition bs_step (d : BsDefrag) (e : event) : option (output * BsDefrag) :=
  match e with
  | First addr frag time => (fun r => ([], r.1)) <$> insert_first d frag time addr None
  | Next addr frag time => (fun r => ([], r.1)) <$> insert_next d frag addr time
  | Last addr frag time =>
      (fun r : option DefragBuffer * BsDefrag * BitBuffer =>
         ([((ts_index time, addr), (fun buf => window (d_buffer buf)) <$> r.1.1)], r.1.2))
        <$> insert_last d frag addr time
  | Discard addr time => (fun r => ([], r.2)) <$> discard_incomplete_for_addr d time addr
  | Age now => Some ([], age_buffers d now)
  end.

Fixpoint asm_run (a : asm) (es : list event) : output * asm :=
  match es with
  | [] => ([], a)
  | e :: es =>
      let '(o1, a) := asm_step a e in let '(o2, a) := asm_run a es in (o1 ++ o2, a)
  end.

Fixpoint bs_run (d : BsDefrag) (es : list event) : option (output * BsDefrag) :=
  match es with
  | [] => Some ([], d)
  | e :: es =>
      '(o1, d) ← bs_step d e; '(o2, d) ← bs_run d es; Some (o1 ++ o2, d)
  end.

(** Events a receiver can produce: a timeslot 1..4 and a well-formed fragment. *)
Definition event_ok (e : event) : Prop :=
  match e with
  | First _ frag time | Next _ frag time | Last _ frag time => wf frag /\ (1 <= t time <= 4)%Z
  | Discard _ time => (1 <= t time <= 4)%Z
  | Age _ => True
  end.

(** ** Collecting fragments *)

Record collects (b : BitBuffer) (bs : list bool) : Prop := {
  co_wf : wf b;
  co_start : start b = 0;
  co_pos : pos b = end_ b;
  co_flag : flag_autoexpand b = true;
  co_window : window b = bs
}.

Lemma collects_new n : collects (new_autoexpand n) [].
Proof. split; try done. apply wf_new_autoexpand. Qed.

Lemma length_collects b bs : collects b bs -> length bs = end_ b.
Proof. intros [W S P F <-]. unfold window. rewrite length_getbits. lia. Qed.

Lemma copy_remaining_collects dst src bs :
  collects dst bs -> wf src ->
  exists dst', copy_remaining dst src = Some (dst', with_pos src (pos src + length (remaining src))) /\
    collects dst' (bs ++ remaining src).
Proof.
  intros [W S P F <-] Ws. unfold copy_remaining.
  destruct (copy_bits_spec dst src (remaining src) []) as (dst' & E & [W' S' P' F' N' B' Fr]);
    [done..|by rewrite app_nil_r|by right|].
  replace (get_len_remaining src) with (length (remaining src)) by apply length_remaining.
  rewrite E. exists dst'. split; [done|]. split; try done; try lia; try congruence.
  unfold window. rewrite S', N', S, P.
  replace (Nat.max (end_ dst) (end_ dst + length (remaining src)) - 0)
    with (end_ dst + length (remaining src)) by lia.
  rewrite Nat.sub_0_r, getbits_app. rewrite P in B', Fr. f_equal; [|done].
  apply getbits_ext. intros i Hi. apply Fr. lia.
Qed.

Lemma ts_index_lt x : (1 <= t x <= 4)%Z -> ts_index x < 4.
Proof. intros H. unfold ts_index, u8. rewrite Z.mod_small by lia. lia. Qed.

(** ** The base station's defragmenter implements the contract *)

(** What a stored buffer stands for. *)
Definition held (buf : DefragBuffer) : option (list bool * TdmaTime) :=
  if decide (state buf = Active) then Some (window (d_buffer buf), t_last buf) else None.
Definition view (d : BsDefrag) (k : sender) : option (list bool * TdmaTime) :=
  map ← buffers d !! k.1; buf ← map !! k.2; held buf.

Definition ok_buf (buf : DefragBuffer) : Prop :=
  state buf = Inactive \/
  state buf = Active /\ collects (d_buffer buf) (window (d_buffer buf)).

Record sim (d : BsDefrag) (a : asm) : Prop := {
  sim_length : length (buffers d) = 4;
  sim_ok : forall ts map addr buf, buffers d !! ts = Some map -> map !! addr = Some buf -> ok_buf buf;
  sim_view : forall k, view d k = a k
}.

Lemma sim_new : sim BsDefrag_new (fun _ => None).
Proof.
  split; [done| |].
  - intros ts map addr buf Hts Hbuf. apply list_elem_of_lookup_2 in Hts. unfold BsDefrag_new in Hts. cbn [buffers] in Hts.
    rewrite !elem_of_cons, elem_of_nil in Hts.
    destruct Hts as [->|[->|[->|[->|[]]]]]; by rewrite lookup_empty in Hbuf.
  - intros [ts addr]. unfold view, BsDefrag_new. cbn [fst snd].
    do 4 (destruct ts as [|ts]; [done|]). done.
Qed.

(** Storing, replacing or dropping one buffer. *)
Lemma sim_update d a ts map addr (o : option DefragBuffer) :
  sim d a -> buffers d !! ts = Some map -> (forall buf, o = Some buf -> ok_buf buf) ->
  sim (set_map d ts (partial_alter (fun _ => o) addr map)) (asm_set a (ts, addr) (o ≫= held)).
Proof.
  intros [L O V] Hts Ho. pose proof (lookup_lt_Some _ _ _ Hts) as Hlt.
  split; unfold set_map; cbn [buffers].
  - by rewrite length_insert.
  - intros ts' map' addr' buf Hts' Hbuf. destruct (decide (ts' = ts)) as [->|Hne].
    + rewrite list_lookup_insert_eq in Hts' by done. injection Hts' as <-.
      destruct (decide (addr' = addr)) as [->|Hna].
      * rewrite lookup_partial_alter_eq in Hbuf. by apply Ho.
      * rewrite lookup_partial_alter_ne in Hbuf by done. by eapply O.
    + rewrite list_lookup_insert_ne in Hts' by done. by eapply O.
  - intros [ts' addr']. unfold asm_set. rewrite <- V. unfold view. cbn [buffers fst snd].
    destruct (decide ((ts', addr') = (ts, addr))) as [[= -> ->]|Hne].
    + rewrite list_lookup_insert_eq, bind_Some by done. by rewrite lookup_partial_alter_eq.
    + destruct (decide (ts' = ts)) as [->|Hnt].
      * rewrite list_lookup_insert_eq, Hts, !bind_Some by done.
        by rewrite lookup_partial_alter_ne by congruence.
      * by rewrite list_lookup_insert_ne by done.
Qed.

(** The contract's state is compared pointwise. *)
Lemma sim_ext d a a' : sim d a -> (forall k, a k = a' k) -> sim d a'.
Proof. intros [L O V] H. split; [done..|]. intros k. by rewrite V. Qed.

Lemma asm_set_None a k : a k = None -> forall k', a k' = asm_set a k None k'.
Proof. intros H k'. unfold asm_set. by destruct (decide (k' = k)) as [->|]. Qed.

Lemma sim_slot d a time : sim d a -> (1 <= t time <= 4)%Z -> exists map, buffers d !! ts_index time = Some map.
Proof.
  intros [L _ _] Ht. apply lookup_lt_is_Some_2. rewrite L. by apply ts_index_lt.
Qed.

(** The buffer of a sender agrees with the contract's state. *)
Lemma sim_lookup d a ts map addr :
  sim d a -> buffers d !! ts = Some map ->
  match map !! addr with
  | None => a (ts, addr) = None
  | Some buf => a (ts, addr) = held buf /\ ok_buf buf
  end.
Proof.
  intros [L O V] Hts. rewrite <- V. unfold view. cbn [buffers fst snd]. rewrite Hts. cbn.
  destruct (map !! addr) as [buf|] eqn:E; cbn; [|done]. split; [done|]. by eapply O.
Qed.

Lemma insert_first_sim d a frag addr time aie :
  sim d a -> wf frag -> (1 <= t time <= 4)%Z ->
  exists d' frag', insert_first d frag time addr aie = Some (d', frag') /\
    sim d' (asm_set a (ts_index time, addr) (Some (remaining frag, time))).
Proof.
  intros S W Ht. destruct (sim_slot d a time S Ht) as [map Hts]. unfold insert_first. rewrite Hts.
  rewrite bind_Some. cbv beta zeta.
  replace (d_buffer (match map !! addr with Some buf => DefragBuffer_reset buf | None => DefragBuffer_new end))
    with (new_autoexpand DEFRAG_BUF_INITIAL_LEN) by (by destruct (map !! addr)).
  destruct (copy_remaining_collects _ frag [] (collects_new DEFRAG_BUF_INITIAL_LEN) W) as (b & -> & C).
  cbn [app] in C. rewrite bind_Some. do 2 eexists. split; [done|]. rewrite insert_delete_eq.
  assert (Ew : window b = remaining frag) by apply C.
  pose proof (sim_update d a _ map addr (Some (mkDefrag Active addr time time 1 aie b)) S Hts) as H.
  cbn in H. unfold held in H. cbn in H. rewrite Ew in H. apply H.
  intros buf [= <-]. right. cbn. by rewrite Ew.
Qed.

Lemma insert_next_sim d a frag addr time :
  sim d a -> wf frag -> (1 <= t time <= 4)%Z ->
  exists d' frag', insert_next d frag addr time = Some (d', frag') /\
    sim d' (asm_next a (ts_index time, addr) (remaining frag) time).
Proof.
  intros S W Ht. destruct (sim_slot d a time S Ht) as [map Hts]. unfold insert_next, asm_next.
  rewrite Hts, bind_Some. cbv beta zeta. pose proof (sim_lookup d a _ map addr S Hts) as Hl.
  destruct (map !! addr) as [buf|] eqn:Eb; [|rewrite Hl; by eauto].
  destruct Hl as [-> Hok]. unfold held. destruct Hok as [Hi|[Ha C]].
  { rewrite Hi. cbn. by eauto. }
  rewrite Ha. rewrite bool_decide_true by done. cbn [negb]. destruct (decide _) as [_|]; [|done].
  replace (get_len_remaining frag) with (length (remaining frag)) by apply length_remaining.
  replace (get_len (d_buffer buf)) with (length (window (d_buffer buf))) by apply length_getbits.
  destruct (DEFRAG_BUF_MAX_LEN <? _).
  - do 2 eexists. split; [done|]. eapply (sim_update d a _ map addr (Some (DefragBuffer_reset buf)) S Hts).
    intros ? [= <-]. by left.
  - destruct (copy_remaining_collects _ frag _ C W) as (b & -> & C').
    rewrite bind_Some. do 2 eexists. split; [done|].
    assert (Ew : window b = window (d_buffer buf) ++ remaining frag) by apply C'.
    pose proof (sim_update d a _ map addr
      (Some (mkDefrag Active (d_addr buf) (t_first buf) time (num_frags buf + 1) (aie_info buf) b)) S Hts) as H.
    cbn in H. unfold held in H. cbn in H. rewrite Ew in H. apply H.
    intros ? [= <-]. right. cbn. by rewrite Ew.
Qed.

Lemma insert_last_sim d a frag addr time :
  sim d a -> wf frag -> (1 <= t time <= 4)%Z ->
  let a' := asm_next a (ts_index time, addr) (remaining frag) time in
  exists r d' frag', insert_last d frag addr time = Some (r, d', frag') /\
    (fun buf => window (d_buffer buf)) <$> r = fst <$> a' (ts_index time, addr) /\
    sim d' (asm_set a' (ts_index time, addr) None).
Proof.
  intros S W Ht a'. destruct (insert_next_sim d a frag addr time S W Ht) as (d1 & frag1 & E & S1).
  fold a' in S1. unfold insert_last. rewrite E, bind_Some. cbv beta iota zeta.
  destruct (sim_slot d1 a' time S1 Ht) as [map Hts]. rewrite Hts, bind_Some. cbv beta.
  pose proof (sim_lookup d1 a' _ map addr S1 Hts) as Hl.
  destruct (map !! addr) as [buf|] eqn:Eb.
  2:{ exists None, d1, frag1. rewrite Hl. split_and!; [done..|].
      eapply sim_ext; [done|]. by apply asm_set_None. }
  destruct Hl as [-> Hok]. pose proof (sim_update d1 a' _ map addr None S1 Hts) as Hd.
  unfold held. destruct Hok as [Hi|[Ha C]].
  { rewrite Hi. cbn. do 3 eexists. split_and!; [done..|]. by apply Hd. }
  rewrite Ha. cbn [negb]. rewrite bool_decide_true by done. cbn [negb].
  unfold set_raw_pos. destruct C as [[Wb Ws Wp We] S0 P0 F0 _]. rewrite S0.
  btrue (0 <=? 0). btrue (0 <=? end_ (d_buffer buf)). cbn [andb].
  do 3 eexists. split_and!; [done..|]. by apply Hd.
Qed.

Lemma discard_sim d a addr time :
  sim d a -> (1 <= t time <= 4)%Z ->
  exists r d', discard_incomplete_for_addr d time addr = Some (r, d') /\
    sim d' (asm_set a (ts_index time, addr) None).
Proof.
  intros S Ht. destruct (sim_slot d a time S Ht) as [map Hts]. unfold discard_incomplete_for_addr.
  rewrite Hts, bind_Some. cbv beta. pose proof (sim_lookup d a _ map addr S Hts) as Hl.
  destruct (map !! addr) as [buf|] eqn:Eb.
  2:{ do 2 eexists. split; [done|]. eapply sim_ext; [done|]. by apply asm_set_None. }
  destruct Hl as [Hh Hok]. unfold held in Hh. case_bool_decide as Hi.
  - do 2 eexists. split; [done|]. eapply sim_ext; [done|]. apply asm_set_None. rewrite Hh.
    by rewrite decide_False by congruence.
  - do 2 eexists. split; [done|]. by apply (sim_update d a _ map addr None S Hts).
Qed.

(** Keeping a buffer and keeping what it stands for. *)
Lemma held_keep timeout now buf :
  (p ← held buf; if (timeout <=? diff now p.2)%Z then None else Some p)
  = if keep timeout now buf then held buf else None.
Proof.
  unfold held, keep. destruct (decide (state buf = Active)) as [Ha|Hna].
  - rewrite bind_Some. cbn [snd]. rewrite Ha, bool_decide_false by done. cbn [negb andb].
    by destruct (timeout <=? diff now (t_last buf))%Z.
  - by destruct (negb _).
Qed.

Lemma age_sim d a now : sim d a -> sim (age_buffers d now) (asm_step a (Age now)).2.
Proof.
  intros [L O V]. split; unfold age_buffers; cbn [buffers].
  - by rewrite length_fmap.
  - intros ts map addr buf Hts Hbuf. rewrite list_lookup_fmap in Hts.
    destruct (buffers d !! ts) as [m0|] eqn:E; cbn in Hts; [|done]. injection Hts as <-.
    apply map_lookup_filter_Some in Hbuf as [Hbuf _]. by eapply O.
  - intros [ts addr]. cbn [asm_step snd]. rewrite <- V. unfold view. cbn [buffers fst snd].
    rewrite list_lookup_fmap. destruct (buffers d !! ts) as [m0|]; [|done].
    cbn [fmap option_fmap option_map]. rewrite !bind_Some.
    destruct (m0 !! addr) as [buf|] eqn:Eb.
    + rewrite bind_Some, held_keep. destruct (keep DEFRAG_TS_BEFORE_TIMEOUT now buf) eqn:K.
      * by rewrite (proj2 (map_lookup_filter_Some _ _ _ _) (conj Eb K)), bind_Some.
      * rewrite (proj2 (map_lookup_filter_None _ _ _)); [done|].
        right. intros x Hx. assert (x = buf) as -> by congruence. cbn [snd]. by rewrite K.
    + rewrite (proj2 (map_lookup_filter_None _ _ _)) by (left; done). done.
Qed.

(** One event. *)
Lemma bs_step_sim d a e :
  sim d a -> event_ok e ->
  exists d', bs_step d e = Some ((asm_step a e).1, d') /\ sim d' (asm_step a e).2.
Proof.
  intros S Hok. destruct e as [addr frag time|addr frag time|addr frag time|addr time|now]; cbn in Hok.
  - destruct Hok as [W Ht]. destruct (insert_first_sim d a frag addr time None S W Ht) as (d' & f & E & S').
    exists d'. cbn. by rewrite E.
  - destruct Hok as [W Ht]. destruct (insert_next_sim d a frag addr time S W Ht) as (d' & f & E & S').
    exists d'. cbn. by rewrite E.
  - destruct Hok as [W Ht]. destruct (insert_last_sim d a frag addr time S W Ht) as (r & d' & f & E & Hr & S').
    exists d'. cbn. rewrite E. cbn. by rewrite Hr.
  - destruct (discard_sim d a addr time S Hok) as (r & d' & E & S').
    exists d'. cbn. by rewrite E.
  - eexists. split; [done|]. by apply age_sim.
Qed.

Lemma bs_run_sim es : forall d a,
  sim d a -> Forall event_ok es ->
  exists d', bs_run d es = Some ((asm_run a es).1, d') /\ sim d' (asm_run a es).2.
Proof.
  induction es as [|e es IH]; intros d a S Hok; cbn [bs_run asm_run]; [by eauto|].
  apply Forall_cons in Hok as [He Hes].
  destruct (bs_step_sim d a e S He) as (d1 & -> & S1). rewrite bind_Some. cbv beta iota.
  destruct (asm_step a e) as [o1 a1]. cbn [fst snd] in *.
  destruct (IH d1 a1 S1 Hes) as (d2 & -> & S2). rewrite bind_Some.
  destruct (asm_run a1 es) as [o2 a2]. by eauto.
Qed.

(** ** Senders do not interfere *)

(** The events that can affect the partial message of [k]. *)
Definition concerns (k : sender) (e : event) : Prop :=
  match e with
  | First addr _ time | Next addr _ time | Last addr _ time | Discard addr time =>
      (ts_index time, addr) = k
  | Age _ => True
  end.
#[export] Instance concerns_dec k e : Decision (concerns k e).
Proof. destruct e; cbn; apply _. Defined.

(** The messages handed over for [k]. *)
Definition outputs_of (k : sender) (o : output) : list (option (list bool)) :=
  snd <$> filter (fun p => p.1 = k) o.

Lemma asm_set_eq a k o : asm_set a k o k = o.
Proof. unfold asm_set. by rewrite decide_True. Qed.
Lemma asm_set_ne a k k' o : k' <> k -> asm_set a k o k' = a k'.
Proof. intros H. unfold asm_set. by rewrite decide_False. Qed.

Lemma asm_next_ne a k k' bs time : k' <> k -> asm_next a k bs time k' = a k'.
Proof.
  intros H. unfold asm_next. destruct (a k) as [[old ?]|]; [|done].
  destruct (_ <? _); by rewrite asm_set_ne.
Qed.

Lemma asm_next_local a b k bs time : a k = b k -> asm_next a k bs time k = asm_next b k bs time k.
Proof.
  intros H. unfold asm_next. rewrite H. destruct (b k) as [[old ?]|] eqn:E; [|congruence].
  destruct (_ <? _); by rewrite !asm_set_eq.
Qed.

Lemma asm_step_other a k e :
  ~ concerns k e -> outputs_of k (asm_step a e).1 = [] /\ (asm_step a e).2 k = a k.
Proof.
  intros H. destruct e; cbn [concerns asm_step fst snd] in H |- *;
    rewrite ?asm_set_ne, ?asm_next_ne by congruence; try done.
  split; [|by apply asm_next_ne; congruence].
  unfold outputs_of. by rewrite filter_cons_False by (cbn; congruence).
Qed.

Lemma asm_step_local a b k e :
  concerns k e -> a k = b k ->
  outputs_of k (asm_step a e).1 = outputs_of k (asm_step b e).1 /\
  (asm_step a e).2 k = (asm_step b e).2 k.
Proof.
  intros Hc H. destruct e; cbn [concerns asm_step fst snd] in Hc |- *; try subst k; rewrite ?asm_set_eq;
    try (split; [done|]; first [done|by apply asm_next_local|by rewrite H]).
  by rewrite (asm_next_local a b) by done.
Qed.

Lemma asm_run_cons a e es :
  asm_run a (e :: es)
  = ((asm_step a e).1 ++ (asm_run (asm_step a e).2 es).1, (asm_run (asm_step a e).2 es).2).
Proof. cbn. destruct (asm_step a e) as [o1 a1]. cbn. by destruct (asm_run a1 es). Qed.

Lemma asm_run_local k es : forall a b,
  a k = b k ->
  outputs_of k (asm_run a es).1 = outputs_of k (asm_run b (filter (concerns k) es)).1.
Proof.
  induction es as [|e es IH]; intros a b H; [done|].
  rewrite asm_run_cons. unfold outputs_of. cbn [fst]. rewrite filter_app, fmap_app.
  fold (outputs_of k (asm_step a e).1). fold (outputs_of k (asm_run (asm_step a e).2 es).1).
  destruct (decide (concerns k e)) as [Hc|Hc].
  - rewrite filter_cons_True, asm_run_cons by done. cbn [fst]. rewrite filter_app, fmap_app.
    destruct (asm_step_local a b k e Hc H) as [-> H2].
    by rewrite (IH _ (asm_step b e).2 H2).
  - rewrite filter_cons_False by done. destruct (asm_step_other a k e Hc) as [-> H2].
    cbn [app]. apply IH. by rewrite H2.
Qed.

(** A complete message of one sender, without anything in between. *)
Lemma asm_run_message addr time0 f0 mids fl timel k a :
  (ts_index time0, addr) = k -> (ts_index timel, addr) = k ->
  Forall (fun p => ts_index p.2 = k.1) mids ->
  length (remaining f0) + length (concat (remaining ∘ fst <$> mids)) + length (remaining fl)
    <= DEFRAG_BUF_MAX_LEN ->
  outputs_of k (asm_run a (First addr f0 time0 :: ((fun p => Next addr p.1 p.2) <$> mids)
                           ++ [Last addr fl timel])).1
  = [Some (remaining f0 ++ concat (remaining ∘ fst <$> mids) ++ remaining fl)].
Proof.
  intros Hk Hkl Hm Hlen. rewrite asm_run_cons. cbn [asm_step fst snd app].
  assert (Ha : exists time, asm_set a (ts_index time0, addr) (Some (remaining f0, time0)) k
               = Some (remaining f0, time)) by (exists time0; rewrite Hk; apply asm_set_eq).
  revert Ha Hlen. generalize (asm_set a (ts_index time0, addr) (Some (remaining f0, time0))) as b.
  generalize (remaining f0) as acc. intros acc b [time Ha].
  revert acc b time Ha. induction Hm as [|[f tm] mids Htm Hm IH]; intros acc b time Ha Hlen.
  - cbn [fmap list_fmap app]. rewrite asm_run_cons. cbn [asm_step asm_run fst snd app].
    rewrite Hkl. unfold outputs_of. rewrite filter_cons_True by done.
    cbn [fmap list_fmap snd filter list_filter]. unfold asm_next. rewrite Ha.
    cbn [fmap list_fmap concat length app] in Hlen |- *.
    bfalse (DEFRAG_BUF_MAX_LEN <? length acc + length (remaining fl)). by rewrite asm_set_eq.
  - cbn [fmap list_fmap app]. rewrite asm_run_cons. cbn [asm_step fst snd app].
    cbn [concat fmap list_fmap] in Hlen |- *. rewrite length_app in Hlen. cbn [compose fst] in Hlen.
    replace (ts_index tm, addr) with k by (rewrite <- Hk in Htm |- *; cbn in Htm; by rewrite Htm).
    assert (Hn : asm_next b k (remaining f) tm k = Some (acc ++ remaining f, tm)).
    { unfold asm_next. rewrite Ha. bfalse (DEFRAG_BUF_MAX_LEN <? length acc + length (remaining f)).
      by rewrite asm_set_eq. }
    rewrite (IH (acc ++ remaining f) _ tm Hn) by (rewrite length_app; lia).
    cbn [compose fst]. by rewrite <- !app_assoc.
Qed.

(** ** Claims *)

(** C8 (the defragmenter refines its contract).  For every sequence of events a receiver
    can produce (first, middle and last fragments of any senders in any order,
    interruptions and timeouts), [BsDefrag] never panics and hands over exactly the
    messages of the abstract machine that keeps one bit string per sender. *)
Theorem bs_defrag_refines es :
  Forall event_ok es ->
  exists d', bs_run BsDefrag_new es = Some ((asm_run (fun _ => None) es).1, d').
Proof.
  intros H. destruct (bs_run_sim es _ _ sim_new H) as (d' & E & _). by eauto.
Qed.

Lemma bs_defrag_refines_witness :
  exists d', bs_run BsDefrag_new
    [First (mkAddr 1 Issi) (new 3) (mkTime 2 1 1 0); Age (mkTime 3 1 1 0);
     Last (mkAddr 1 Gssi) (new 4) (mkTime 2 2 1 0); Last (mkAddr 1 Issi) (new 2) (mkTime 2 3 1 0)]
  = Some ([((1, mkAddr 1 Gssi), None); ((1, mkAddr 1 Issi), Some (replicate 5 false))], d').
Proof.
  apply (bs_defrag_refines
    [First (mkAddr 1 Issi) (new 3) (mkTime 2 1 1 0); Age (mkTime 3 1 1 0);
     Last (mkAddr 1 Gssi) (new 4) (mkTime 2 2 1 0); Last (mkAddr 1 Issi) (new 2) (mkTime 2 3 1 0)]).
  repeat constructor; cbn; try lia; apply wf_new.
Defined.

(** Reassembly under interleaving.  If the events that concern one sender are a
    first fragment, any number of middle fragments and a last one, of at most 4096 bits
    together, then, whatever fragments of other addresses or timeslots are interleaved
    with them, the base station hands over for this sender exactly one message: the
    fragments' bits, in order. *)
Theorem bs_defrag_interleaved es addr time0 f0 mids fl timel :
  let k := (ts_index time0, addr) in
  Forall event_ok es ->
  filter (concerns k) es
    = First addr f0 time0 :: ((fun p => Next addr p.1 p.2) <$> mids) ++ [Last addr fl timel] ->
  length (remaining f0) + length (concat (remaining ∘ fst <$> mids)) + length (remaining fl)
    <= DEFRAG_BUF_MAX_LEN ->
  exists out d', bs_run BsDefrag_new es = Some (out, d') /\
    outputs_of k out = [Some (remaining f0 ++ concat (remaining ∘ fst <$> mids) ++ remaining fl)].
Proof.
  intros k Hok Hf Hlen. destruct (bs_run_sim es _ _ sim_new Hok) as (d' & E & _).
  do 2 eexists. split; [exact E|]. rewrite (asm_run_local k es _ (fun _ => None)) by done. rewrite Hf.
  assert (Hc : Forall (concerns k) (filter (concerns k) es)).
  { apply Forall_forall. intros x Hx. by apply list_elem_of_filter in Hx as [? _]. }
  rewrite Hf in Hc. apply Forall_cons in Hc as [_ Hc]. apply Forall_app in Hc as [Hm Hl].
  apply Forall_cons in Hl as [Hl _]. cbn in Hl.
  apply asm_run_message; [done|done| |done].
  rewrite Forall_fmap in Hm. eapply Forall_impl; [exact Hm|]. intros [f tm] H. cbn in H. by rewrite <- H.
Qed.

