(* ===== verification/TxReceipt.v ===== *)
(** * Transmit receipts (crates/tetra-core/src/tx_receipt.rs)

    A [TxReporter] is a handle on a shared [AtomicU8]; clones of it travel down the
    stack with a PDU and report its fate.  The model keeps the shared cells in a store,
    so that clones alias.  Every operation is one atomic access, so any concurrent
    execution is an interleaving, i.e. a list of operations. *)

From Stdlib Require Import ZArith Lia.
From stdpp Require Import gmap.
From S2P Require Import Prelude.

Inductive TxState := Pending | Discarded | Transmitted | Lost | Acknowledged.
#[export] Instance TxState_eq_dec : EqDecision TxState.
Proof. solve_decision. Defined.

(** [state as u8] *)
Definition tx_raw (s : TxState) : Z :=
  match s with Pending => 0 | Discarded => 1 | Transmitted => 2 | Lost => 3 | Acknowledged => 4 end.

Definition from_raw (v : Z) : TxState :=
  if (v =? 0)%Z then Pending
  else if (v =? 1)%Z then Discarded
  else if (v =? 2)%Z then Transmitted
  else if (v =? 3)%Z then Lost
  else Acknowledged.

(** The shared cells: [Arc<AtomicU8>] is a key of the store. *)
Abbreviation store := (gmap nat Z).

Record TxReporter := mkReporter { expects_ack : bool; tx_cell : nat }.

(** [Arc::new] takes an unused cell. *)
Definition TxReporter_new (heap : store) : TxReporter * store :=
  let l := fresh (dom heap) in (mkReporter true l, <[l := tx_raw Pending]> heap).

Definition new_unacked (heap : store) : TxReporter * store :=
  let '(ret, heap) := TxReporter_new heap in (mkReporter false (tx_cell ret), heap).

Definition load (heap : store) (self : TxReporter) : Z := heap !!! tx_cell self.

Definition get_state (heap : store) (self : TxReporter) : TxState := from_raw (load heap self).
Definition shares_state_with (self other : TxReporter) : bool := tx_cell self =? tx_cell other.
Definition is_discarded (heap : store) (self : TxReporter) : bool := (load heap self =? tx_raw Discarded)%Z.
Definition is_transmitted (heap : store) (self : TxReporter) : bool := (tx_raw Transmitted <=? load heap self)%Z.
Definition is_acknowledged (heap : store) (self : TxReporter) : bool := (tx_raw Acknowledged <=? load heap self)%Z.

Definition is_in_final_state (heap : store) (self : TxReporter) : bool :=
  match get_state heap self with
  | Pending => false
  | Discarded => true
  | Transmitted => negb (expects_ack self)
  | Lost => true
  | Acknowledged => true
  end.

(** [compare_exchange] *)
Definition try_mark (self : TxReporter) (curr_state new_state : TxState) (heap : store) : bool * store :=
  if (load heap self =? tx_raw curr_state)%Z
  then (true, <[tx_cell self := tx_raw new_state]> heap) else (false, heap).

(** [None] is the panic on an invalid transition. *)
Definition mark (self : TxReporter) (curr_state new_state : TxState) (heap : store) : option store :=
  let '(ok, heap) := try_mark self curr_state new_state heap in
  if ok then Some heap else None.

Definition mark_unchecked (self : TxReporter) (new_state : TxState) (heap : store) : store :=
  <[tx_cell self := tx_raw new_state]> heap.

Definition mark_transmitted (self : TxReporter) : store -> option store := mark self Pending Transmitted.
Definition try_mark_transmitted (self : TxReporter) : store -> bool * store := try_mark self Pending Transmitted.
Definition mark_discarded (self : TxReporter) : store -> option store := mark self Pending Discarded.
Definition try_mark_discarded (self : TxReporter) : store -> bool * store := try_mark self Pending Discarded.

Definition mark_acknowledged (self : TxReporter) (heap : store) : option store :=
  _ ← assert_ (expects_ack self); mark self Transmitted Acknowledged heap.
Definition mark_lost (self : TxReporter) (heap : store) : option store :=
  _ ← assert_ (expects_ack self); mark self Transmitted Lost heap.
Definition try_mark_lost (self : TxReporter) (heap : store) : option (bool * store) :=
  _ ← assert_ (expects_ack self); Some (try_mark self Transmitted Lost heap).

Definition reset (self : TxReporter) : store -> store := mark_unchecked self Pending.

(** ** Interleavings of reports *)

Inductive report :=
  | MarkTransmitted | TryMarkTransmitted | MarkDiscarded | TryMarkDiscarded
  | MarkAcknowledged | MarkLost | TryMarkLost.

Definition run_report (heap : store) (op : TxReporter * report) : option store :=
  let self := op.1 in
  match op.2 with
  | MarkTransmitted => mark_transmitted self heap
  | TryMarkTransmitted => Some (try_mark_transmitted self heap).2
  | MarkDiscarded => mark_discarded self heap
  | TryMarkDiscarded => Some (try_mark_discarded self heap).2
  | MarkAcknowledged => mark_acknowledged self heap
  | MarkLost => mark_lost self heap
  | TryMarkLost => snd <$> try_mark_lost self heap
  end.

(** The documented life of a receipt. *)
Inductive tx_step (ack : bool) : TxState -> TxState -> Prop :=
  | tx_sent : tx_step ack Pending Transmitted
  | tx_dropped : tx_step ack Pending Discarded
  | tx_acked : ack = true -> tx_step ack Transmitted Acknowledged
  | tx_lost : ack = true -> tx_step ack Transmitted Lost.

Lemma from_raw_tx_raw s : from_raw (tx_raw s) = s.
Proof. by destruct s. Qed.

(** Cells only ever hold encodings of states. *)
Definition tx_ok (heap : store) : Prop := map_Forall (fun _ v => v = tx_raw (from_raw v)) heap.

Lemma load_insert heap r l v :
  load (<[l := v]> heap) r = if decide (tx_cell r = l) then v else load heap r.
Proof.
  unfold load. destruct (decide (tx_cell r = l)) as [<-|Hne].
  - by rewrite lookup_total_insert_eq.
  - by rewrite lookup_total_insert_ne.
Qed.

(** What a compare-and-exchange does to the cell of any reporter. *)
Lemma try_mark_step self cur nxt heap r :
  tx_ok heap ->
  tx_ok (try_mark self cur nxt heap).2 /\
  (get_state (try_mark self cur nxt heap).2 r = get_state heap r \/
   tx_cell r = tx_cell self /\ get_state heap r = cur /\ get_state (try_mark self cur nxt heap).2 r = nxt).
Proof.
  intros Hok. unfold try_mark. destruct (Z.eqb_spec (load heap self) (tx_raw cur)) as [E|E]; cbn [snd].
  2:{ split; [done|by left]. }
  split.
  - apply map_Forall_insert_2; [by rewrite from_raw_tx_raw|done].
  - unfold get_state. rewrite load_insert. destruct (decide (tx_cell r = tx_cell self)) as [Hc|]; [right|by left].
    split_and!; [done| |by rewrite from_raw_tx_raw].
    unfold load in *. rewrite Hc, E. by rewrite from_raw_tx_raw.
Qed.

(** One report by a reporter whose clones agree on [expects_ack]. *)
Lemma run_report_step heap heap' op r :
  tx_ok heap -> run_report heap op = Some heap' ->
  (tx_cell op.1 = tx_cell r -> expects_ack op.1 = expects_ack r) ->
  tx_ok heap' /\
  (get_state heap' r = get_state heap r \/
   tx_step (expects_ack r) (get_state heap r) (get_state heap' r)).
Proof.
  intros Hok Hrun Hack. destruct op as [self k]. cbn [fst snd] in *.
  assert (H : exists cur nxt, heap' = (try_mark self cur nxt heap).2 /\ tx_step (expects_ack self) cur nxt).
  { destruct k; unfold run_report, mark_transmitted, mark_discarded, mark_acknowledged, mark_lost,
      try_mark_lost, mark in Hrun; cbn [fst snd] in Hrun;
      try (destruct (expects_ack self) eqn:Ea; cbn in Hrun; [|done]);
      try (destruct (try_mark self _ _ heap) as [[] h] eqn:Et; [|done]);
      simplify_eq; do 2 eexists; (split; [by rewrite ?Et|by constructor]). }
  destruct H as (cur & nxt & -> & Hs). destruct (try_mark_step self cur nxt heap r Hok) as [H1 H2].
  split; [done|]. destruct H2 as [->|(Hc & <- & ->)]; [by left|right].
  rewrite <- Hack by done. done.
Qed.

(** A run: every report returns. *)
Fixpoint run_reports (heap : store) (ops : list (TxReporter * report)) : option store :=
  match ops with
  | [] => Some heap
  | op :: ops => heap' ← run_report heap op; run_reports heap' ops
  end.

Lemma run_reports_path ops r : forall heap heap',
  tx_ok heap -> run_reports heap ops = Some heap' ->
  Forall (fun op => tx_cell op.1 = tx_cell r -> expects_ack op.1 = expects_ack r) ops ->
  rtc (tx_step (expects_ack r)) (get_state heap r) (get_state heap' r).
Proof.
  induction ops as [|op ops IH]; intros heap heap' Hok Hrun Hops; cbn in Hrun; [by simplify_eq|].
  destruct (run_report heap op) as [h1|] eqn:E; cbn in Hrun; [|done].
  apply Forall_cons in Hops as [Hop Hops].
  destruct (run_report_step heap h1 op r Hok E Hop) as [Hok1 [<-|Hs]]; [by eapply IH|].
  eapply rtc_l; [exact Hs|]. by eapply IH.
Qed.

Lemma final_stuck ack s s' :
  match s with Pending => false | Transmitted => negb ack | _ => true end = true -> rtc (tx_step ack) s s' -> s' = s.
Proof.
  intros Hf H. destruct H as [s|s s1 s' H _]; [done|]. exfalso.
  destruct H; cbn in Hf; subst; done.
Qed.

(** ** Claims *)

(** Receipts follow their life cycle.  However the reports of the clones of a
    receipt, and of other receipts, are interleaved, the state an originator observes
    moves only along the documented transitions (acknowledged and lost only where an
    acknowledgement is expected), and a final state never changes. *)
Theorem tx_receipt_life_cycle heap heap' ops r :
  tx_ok heap -> run_reports heap ops = Some heap' ->
  Forall (fun op => tx_cell op.1 = tx_cell r -> expects_ack op.1 = expects_ack r) ops ->
  rtc (tx_step (expects_ack r)) (get_state heap r) (get_state heap' r) /\
  (is_in_final_state heap r = true -> get_state heap' r = get_state heap r).
Proof.
  intros Hok Hrun Hops. pose proof (run_reports_path ops r heap heap' Hok Hrun Hops) as Hp.
  split; [done|]. intros Hf. eapply final_stuck; [|exact Hp].
  unfold is_in_final_state in Hf. by destruct (get_state heap r).
Qed.

