(* ===== verification/Sysinfo.v ===== *)
(** * The SYSINFO broadcast PDU

    crates/tetra-pdus/src/umac/pdus/mac_sysinfo.rs with its option fields:
    ts_common_frames.rs, sysinfo_default_def_for_access_code_a.rs and
    sysinfo_ext_services.rs. *)

From Stdlib Require Import ZArith Lia ZifyNat.
From stdpp Require Import strings.
From S2P Require Import Prelude.
From S2P Require Import BitBuffer.
From S2P Require Import BitBufferFacts.
From S2P Require Import Codec.
From S2P Require Import MacFields.

Inductive SysinfoOptFieldFlag :=
  | EvenMfDefForTsMode | OddMfDefForTsMode | DefaultDefForAccCodeA | ExtServicesBroadcast.

Definition OptFieldFlag_into_raw (x : SysinfoOptFieldFlag) : Z :=
  match x with
  | EvenMfDefForTsMode => 0 | OddMfDefForTsMode => 1 | DefaultDefForAccCodeA => 2
  | ExtServicesBroadcast => 3
  end.
Definition OptFieldFlag_try_from (x : Z) : option SysinfoOptFieldFlag :=
  match x with
  | 0 => Some EvenMfDefForTsMode | 1 => Some OddMfDefForTsMode
  | 2 => Some DefaultDefForAccCodeA | 3 => Some ExtServicesBroadcast | _ => None
  end%Z.
#[export] Program Instance OptFieldFlag_wire : WireEnum SysinfoOptFieldFlag :=
  {| enum_width := 2; into_raw := OptFieldFlag_into_raw; try_from := OptFieldFlag_try_from |}.
Solve Obligations with wire_enum.

(** ** Common frames in time sharing mode: [f1] to [f18], then two reserved bits *)

Record TsCommonFrames := mkTsCommonFrames { common_frames : list bool }.

Definition frame_names : list string :=
  ["f1"; "f2"; "f3"; "f4"; "f5"; "f6"; "f7"; "f8"; "f9"; "f10"; "f11"; "f12"; "f13"; "f14"; "f15";
   "f16"; "f17"; "f18"].

Fixpoint read_flags (names : list string) : M (list bool) :=
  match names with
  | [] => mret []
  | name :: names => x ← read_flag name; rest ← read_flags names; mret (x :: rest)
  end.

Definition TsCommonFrames_from_bitbuf : M TsCommonFrames :=
  l ← read_flags frame_names; _ ← read_field 2 "reserved"; mret (mkTsCommonFrames l).

Definition TsCommonFrames_to_bitbuf (self : TsCommonFrames) : M unit :=
  write_flags (common_frames self);; write_bits 0 2.

(** ** Default definition for access code A *)

Record SysinfoDefaultDefForAccessCodeA := mkAccessCodeA {
  imm : Z; wt : Z; nu : Z; fl_factor : bool; ts_ptr : Z; min_pdu_prio : Z
}.

Definition AccessCodeA_from_bitbuf : M SysinfoDefaultDefForAccessCodeA :=
  imm ← read_u8 4 "imm";
  wt ← read_u8 4 "wt";
  nu ← read_u8 4 "nu";
  fl_factor ← read_flag "fl_factor";
  ts_ptr ← read_u8 4 "ts_ptr";
  min_pdu_prio ← read_u8 3 "min_pdu_prio";
  mret (mkAccessCodeA imm wt nu fl_factor ts_ptr min_pdu_prio).

Definition AccessCodeA_to_bitbuf (self : SysinfoDefaultDefForAccessCodeA) : M unit :=
  write_bits (imm self) 4;;
  write_bits (wt self) 4;;
  write_bits (nu self) 4;;
  write_bits (b2z (fl_factor self)) 1;;
  write_bits (ts_ptr self) 4;;
  write_bits (min_pdu_prio self) 3.

(** ** Extended services *)

Record SysinfoExtendedServices := mkExtServices {
  auth_required : bool;
  class1_supported : bool;
  class2_supported : bool;
  class3_supported : bool;
  sck_n : option Z;
  dck_retrieval_during_cell_select : option bool;
  dck_retrieval_during_cell_reselect : option bool;
  linked_gck_crypto_periods : option bool;
  short_gck_vn : option Z;
  sdstl_addressing_method : Z;
  gck_supported : bool;
  section : Z;
  section_data : Z
}.

Definition read_classes (aie_enabled : bool) : M (bool * bool * bool) :=
  if aie_enabled then
    class1 ← read_field 1 "class1_supported";
    class2 ← read_field 1 "class2_supported";
    let class2 := (class2 =? 0)%Z in
    mret ((class1 =? 1)%Z, class2, negb class2)
  else
    _ ← read_field 2 "security_classes_reserved";
    mret (false, false, false).

Definition read_security (class2 class3 : bool)
  : M (option Z * option bool * option bool * option bool * option Z) :=
  if class2 then
    sck ← read_u8 5 "sck_n"; mret (Some sck, None, None, None, None)
  else if class3 then
    dck_select ← read_flag "dck_retrieval_during_cell_select";
    dck_reselect ← read_flag "dck_retrieval_during_cell_reselect";
    linked_gck ← read_flag "linked_gck_crypto_periods";
    short_gck ← read_u8 2 "short_gck_vn";
    mret (None, Some dck_select, Some dck_reselect, Some linked_gck, Some short_gck)
  else
    _ ← read_field 5 "security_info_reserved";
    mret (None, None, None, None, None).

Definition ExtServices_from_bitbuf (aie_enabled : bool) : M SysinfoExtendedServices :=
  auth_required ← read_flag "auth_required";
  '(class1, class2, class3) ← read_classes aie_enabled;
  '(sck, dck_select, dck_reselect, linked_gck, short_gck) ← read_security class2 class3;
  sdstl_addressing_method ← read_u8 2 "sdstl_addressing_method";
  gck_supported ← read_flag "gck_supported";
  section ← read_u8 2 "section";
  section_data ← read_u8 7 "section_data";
  mret (mkExtServices auth_required class1 class2 class3 sck dck_select dck_reselect linked_gck
          short_gck sdstl_addressing_method gck_supported section section_data).

Definition write_security (self : SysinfoExtendedServices) : M unit :=
  if class2_supported self then v ← panicking (sck_n self); write_bits v 5
  else if class3_supported self then
    a ← panicking (dck_retrieval_during_cell_select self); write_bits (b2z a) 1;;
    (b ← panicking (dck_retrieval_during_cell_reselect self); write_bits (b2z b) 1;;
    (c ← panicking (linked_gck_crypto_periods self); write_bits (b2z c) 1;;
    (v ← panicking (short_gck_vn self); write_bits v 2)))
  else write_bits 0 5.

Definition ExtServices_to_bitbuf (self : SysinfoExtendedServices) : M unit :=
  _ ← panicking (assert_ (negb (class2_supported self && class3_supported self)));
  write_bits (b2z (auth_required self)) 1;;
  write_bits (b2z (class1_supported self)) 1;;
  write_bits (b2z (class3_supported self)) 1;;
  write_security self;;
  write_bits (sdstl_addressing_method self) 2;;
  write_bits (b2z (gck_supported self)) 1;;
  write_bits (section self) 2;;
  write_bits (section_data self) 7.

(** ** SYSINFO *)

Record MacSysinfo := mkSysinfo {
  main_carrier : Z;
  freq_band : Z;
  freq_offset_index : Z;
  duplex_spacing : Z;
  reverse_operation : bool;
  num_of_csch : Z;
  ms_txpwr_max_cell : Z;
  rxlev_access_min : Z;
  access_parameter : Z;
  radio_dl_timeout : Z;
  cck_id : option Z;
  hyperframe_number : option Z;
  option_field : SysinfoOptFieldFlag;
  ts_common_frames : option TsCommonFrames;
  default_access_code : option SysinfoDefaultDefForAccessCodeA;
  ext_services : option SysinfoExtendedServices
}.

Definition read_cck_or_hyperframe : M (option Z * option Z) :=
  has_cck_field ← read_field 1 "has_cck_field";
  if (has_cck_field =? 1)%Z
  then v ← read_u16 16 "cck_id"; mret (Some v, None)
  else v ← read_u16 16 "hyperframe_number"; mret (None, Some v).

(** The 20-bit option field; the time sharing definitions are skipped. *)
Definition read_option_field (flag : SysinfoOptFieldFlag)
  : M (option SysinfoDefaultDefForAccessCodeA * option SysinfoExtendedServices) :=
  match flag with
  | EvenMfDefForTsMode | OddMfDefForTsMode => seek_rel 20;; mret (None, None)
  | DefaultDefForAccCodeA => v ← AccessCodeA_from_bitbuf; mret (Some v, None)
  | ExtServicesBroadcast => v ← ExtServices_from_bitbuf true; mret (None, Some v)
  end.

Definition MacSysinfo_from_bitbuf : M MacSysinfo :=
  _ ← read_field 2 "pdu_type";
  _ ← read_field 2 "pdu_subtype";
  main_carrier ← read_u16 12 "main_carrier";
  freq_band ← read_u8 4 "freq_band";
  freq_offset_index ← read_u8 2 "freq_offset";
  duplex_spacing ← read_u8 3 "duplex_spacing";
  reverse_operation ← read_flag "reverse_operation";
  num_of_csch ← read_u8 2 "num_of_csch";
  ms_txpwr_max_cell ← read_u8 3 "ms_txpwr_max_cell";
  rxlev_access_min ← read_u8 4 "rxlev_access_min";
  access_parameter ← read_u8 4 "access_parameter";
  radio_dl_timeout ← read_u8 4 "radio_dl_timeout";
  '(cck_id, hyperframe_number) ← read_cck_or_hyperframe;
  option_field ← read_enum SysinfoOptFieldFlag 2 "option_field";
  '(default_access_code, ext_services) ← read_option_field option_field;
  mret (mkSysinfo main_carrier freq_band freq_offset_index duplex_spacing reverse_operation
          num_of_csch ms_txpwr_max_cell rxlev_access_min access_parameter radio_dl_timeout
          cck_id hyperframe_number option_field None default_access_code ext_services).

Definition is_some {A} (o : option A) : bool := match o with Some _ => true | None => false end.
Definition is_none {A} (o : option A) : bool := negb (is_some o).

Definition write_option_field (self : MacSysinfo) : M unit :=
  match option_field self with
  | EvenMfDefForTsMode =>
      _ ← panicking (assert_ (is_none (default_access_code self)));
      panicking (assert_ (is_none (ext_services self)))
  | OddMfDefForTsMode =>
      _ ← panicking (assert_ (is_none (default_access_code self)));
      _ ← panicking (assert_ (is_none (ext_services self)));
      v ← panicking (ts_common_frames self); TsCommonFrames_to_bitbuf v
  | DefaultDefForAccCodeA =>
      _ ← panicking (assert_ (is_none (ts_common_frames self)));
      _ ← panicking (assert_ (is_none (ext_services self)));
      v ← panicking (default_access_code self); AccessCodeA_to_bitbuf v
  | ExtServicesBroadcast =>
      _ ← panicking (assert_ (is_none (ts_common_frames self)));
      _ ← panicking (assert_ (is_none (default_access_code self)));
      v ← panicking (ext_services self); ExtServices_to_bitbuf v
  end.

Definition write_cck_or_hyperframe (self : MacSysinfo) : M unit :=
  _ ← panicking (assert_ (xorb (is_some (cck_id self)) (is_some (hyperframe_number self))));
  match cck_id self with
  | Some cck_id => write_bits 1 1;; write_bits cck_id 16
  | None => write_bits 0 1;; (v ← panicking (hyperframe_number self); write_bits v 16)
  end.

Definition MacSysinfo_to_bitbuf (self : MacSysinfo) : M unit :=
  write_bits 2 2;;
  write_bits 0 2;;
  write_bits (main_carrier self) 12;;
  write_bits (freq_band self) 4;;
  write_bits (freq_offset_index self) 2;;
  write_bits (duplex_spacing self) 3;;
  write_bits (b2z (reverse_operation self)) 1;;
  write_bits (num_of_csch self) 2;;
  write_bits (ms_txpwr_max_cell self) 3;;
  write_bits (rxlev_access_min self) 4;;
  write_bits (access_parameter self) 4;;
  write_bits (radio_dl_timeout self) 4;;
  write_cck_or_hyperframe self;;
  write_bits (into_raw (option_field self)) 2;;
  write_option_field self.

(** ** What is on the air *)

Record valid_access_code (x : SysinfoDefaultDefForAccessCodeA) : Prop := {
  va_imm : (0 <= imm x < 16)%Z;
  va_wt : (0 <= wt x < 16)%Z;
  va_nu : (0 <= nu x < 16)%Z;
  va_ts : (0 <= ts_ptr x < 16)%Z;
  va_prio : (0 <= min_pdu_prio x < 8)%Z
}.

(** A network with air interface encryption: class 2 or class 3, not both, and exactly
    the key fields of its class. *)
Record valid_ext (x : SysinfoExtendedServices) : Prop := {
  vx_class : class3_supported x = negb (class2_supported x);
  vx_keys : if class2_supported x
            then (exists v, sck_n x = Some v /\ (0 <= v < 32)%Z) /\
                 dck_retrieval_during_cell_select x = None /\
                 dck_retrieval_during_cell_reselect x = None /\
                 linked_gck_crypto_periods x = None /\ short_gck_vn x = None
            else sck_n x = None /\
                 is_Some (dck_retrieval_during_cell_select x) /\
                 is_Some (dck_retrieval_during_cell_reselect x) /\
                 is_Some (linked_gck_crypto_periods x) /\
                 exists v, short_gck_vn x = Some v /\ (0 <= v < 4)%Z;
  vx_sds : (0 <= sdstl_addressing_method x < 4)%Z;
  vx_section : (0 <= section x < 4)%Z;
  vx_data : (0 <= section_data x < 128)%Z
}.

Definition security_img (x : SysinfoExtendedServices) : list bool :=
  if class2_supported x then from_option (val_bits 5) [] (sck_n x)
  else concat [from_option img_bool [] (dck_retrieval_during_cell_select x);
               from_option img_bool [] (dck_retrieval_during_cell_reselect x);
               from_option img_bool [] (linked_gck_crypto_periods x);
               from_option (val_bits 2) [] (short_gck_vn x)].

Lemma emits_known {A B} (o : option A) (k : A -> M B) a c bs :
  o = Some a -> emits (k a) c bs -> emits (x ← panicking o; k x) c bs.
Proof. intros -> H. done. Qed.

Lemma emits_assert {B} (c : bool) (k : unit -> M B) r bs :
  c = true -> emits (k tt) r bs -> emits (x ← panicking (assert_ c); k x) r bs.
Proof. intros -> H. done. Qed.

Lemma write_security_emits x : valid_ext x -> emits (write_security x) tt (security_img x).
Proof.
  intros [Hc Hk _ _ _]. unfold write_security, security_img. rewrite Hc.
  destruct (class2_supported x); cbn [negb].
  - destruct Hk as ((v & -> & Hv) & _). eapply emits_known; [done|].
    apply write_bits_emits; [simpl; lia|lia].
  - destruct Hk as (_ & [a ->] & [b ->] & [c ->] & v & -> & Hv). cbn [from_option concat].
    repeat (eapply emits_known; [done|]; first [apply emits_bind_tt; [apply write_flag_emits|]|idtac]).
    apply emits_app_nil, write_bits_emits; [simpl; lia|lia].
Qed.

Lemma read_security_parses x rest :
  valid_ext x ->
  parses (read_security (class2_supported x) (class3_supported x)) (security_img x) rest
    (sck_n x, dck_retrieval_during_cell_select x, dck_retrieval_during_cell_reselect x,
     linked_gck_crypto_periods x, short_gck_vn x).
Proof.
  intros [Hc Hk _ _ _]. unfold read_security, security_img. rewrite Hc.
  destruct (class2_supported x); cbn [negb].
  - destruct Hk as ((v & -> & Hv) & -> & -> & -> & ->). cbn [from_option].
    apply (parses_fmap (read_u8 5 "sck_n") (fun v => (Some v, None, None, None, None))).
    apply read_u8_parses; [simpl; lia|lia].
  - destruct Hk as (-> & [a ->] & [b ->] & [c ->] & v & -> & Hv). cbn [from_option concat]. parse.
Qed.

#[export] Program Instance ExtServices_codec : Codec SysinfoExtendedServices := {|
  put := ExtServices_to_bitbuf;
  get := ExtServices_from_bitbuf true;
  img x := concat [img_bool (auth_required x); img_bool (class1_supported x);
                   img_bool (class3_supported x); security_img x;
                   val_bits 2 (sdstl_addressing_method x); img_bool (gck_supported x);
                   val_bits 2 (section x); val_bits 7 (section_data x)];
  valid := valid_ext
|}.
Next Obligation.
  intros x V. pose proof V as [Hc Hk Hs Ht Hd]. unfold ExtServices_to_bitbuf. cbn [concat].
  apply emits_assert; [rewrite Hc; by destruct (class2_supported x)|]. emit.
  apply emits_bind_tt; [by apply write_security_emits|]. emit.
Qed.
Next Obligation.
  intros x rest V. pose proof V as [Hc Hk Hs Ht Hd]. unfold ExtServices_from_bitbuf. cbn [concat]. parse.
  unfold read_classes. rewrite (app_assoc (img_bool _) (img_bool _)).
  eapply parses_bind.
  { eapply parses_bind; [apply read_field_val; [destruct (class1_supported x); simpl; lia|lia]|].
    apply (parses_fmap (read_field 1 "class2_supported")
      (fun v => ((b2z (class1_supported x) =? 1)%Z, (v =? 0)%Z, negb (v =? 0)%Z))).
    apply read_field_val; [destruct (class3_supported x); simpl; lia|lia]. }
  replace (b2z (class3_supported x) =? 0)%Z with (class2_supported x)
    by (rewrite Hc; by destruct (class2_supported x)).
  rewrite <- Hc. replace (b2z (class1_supported x) =? 1)%Z with (class1_supported x)
    by (by destruct (class1_supported x)).
  cbv beta iota. eapply parses_bind; [by apply read_security_parses|]. cbv beta iota. parse.
  destruct x. apply parses_ret.
Qed.

#[export] Program Instance AccessCodeA_codec : Codec SysinfoDefaultDefForAccessCodeA := {|
  put := AccessCodeA_to_bitbuf;
  get := AccessCodeA_from_bitbuf;
  img x := concat [val_bits 4 (imm x); val_bits 4 (wt x); val_bits 4 (nu x);
                   img_bool (fl_factor x); val_bits 4 (ts_ptr x); val_bits 3 (min_pdu_prio x)];
  valid := valid_access_code
|}.
Next Obligation. intros x [? ? ? ? ?]. unfold AccessCodeA_to_bitbuf. cbn [concat]. emit. Qed.
Next Obligation.
  intros x rest [? ? ? ? ?]. unfold AccessCodeA_from_bitbuf. cbn [concat]. parse.
  destruct x. apply parses_ret.
Qed.

Record valid_sysinfo (x : MacSysinfo) : Prop := {
  vs_carrier : (0 <= main_carrier x < 2 ^ 12)%Z;
  vs_band : (0 <= freq_band x < 16)%Z;
  vs_offset : (0 <= freq_offset_index x < 4)%Z;
  vs_duplex : (0 <= duplex_spacing x < 8)%Z;
  vs_csch : (0 <= num_of_csch x < 4)%Z;
  vs_txpwr : (0 <= ms_txpwr_max_cell x < 8)%Z;
  vs_rxlev : (0 <= rxlev_access_min x < 16)%Z;
  vs_access : (0 <= access_parameter x < 16)%Z;
  vs_timeout : (0 <= radio_dl_timeout x < 16)%Z;
  vs_cck : (exists v, cck_id x = Some v /\ hyperframe_number x = None /\ (0 <= v < 2 ^ 16)%Z) \/
           (exists v, cck_id x = None /\ hyperframe_number x = Some v /\ (0 <= v < 2 ^ 16)%Z);
  vs_frames : ts_common_frames x = None;
  vs_option : match option_field x with
              | DefaultDefForAccCodeA =>
                  ext_services x = None /\ exists v, default_access_code x = Some v /\ valid v
              | ExtServicesBroadcast =>
                  default_access_code x = None /\ exists v, ext_services x = Some v /\ valid v
              | _ => False
              end
}.

Definition cck_img (x : MacSysinfo) : list bool :=
  concat [img_bool (is_some (cck_id x)); from_option (val_bits 16) [] (cck_id x);
          from_option (val_bits 16) [] (hyperframe_number x)].

Definition option_img (x : MacSysinfo) : list bool :=
  concat [from_option img [] (default_access_code x); from_option img [] (ext_services x)].

Definition sysinfo_img (x : MacSysinfo) : list bool :=
  concat [val_bits 2 2; val_bits 2 0; val_bits 12 (main_carrier x); val_bits 4 (freq_band x);
          val_bits 2 (freq_offset_index x); val_bits 3 (duplex_spacing x);
          img_bool (reverse_operation x); val_bits 2 (num_of_csch x);
          val_bits 3 (ms_txpwr_max_cell x); val_bits 4 (rxlev_access_min x);
          val_bits 4 (access_parameter x); val_bits 4 (radio_dl_timeout x);
          cck_img x; val_bits 2 (into_raw (option_field x)); option_img x].

Lemma write_cck_emits x : valid_sysinfo x -> emits (write_cck_or_hyperframe x) tt (cck_img x).
Proof.
  intros V. unfold write_cck_or_hyperframe, cck_img.
  destruct (vs_cck x V) as [(v & -> & -> & Hv)|(v & -> & -> & Hv)]; cbn [is_some from_option concat];
    apply emits_assert; try done.
  - apply emits_bind_tt; [apply (write_flag_emits true)|].
    apply emits_app_nil, write_bits_emits; [simpl; lia|lia].
  - apply emits_bind_tt; [apply (write_flag_emits false)|]. eapply emits_known; [done|]. cbn [app].
    apply emits_app_nil, write_bits_emits; [simpl; lia|lia].
Qed.

Lemma read_cck_parses x rest :
  valid_sysinfo x -> parses read_cck_or_hyperframe (cck_img x) rest (cck_id x, hyperframe_number x).
Proof.
  intros V. unfold read_cck_or_hyperframe, cck_img.
  destruct (vs_cck x V) as [(v & -> & -> & Hv)|(v & -> & -> & Hv)]; cbn [is_some from_option concat];
    (eapply parses_bind; [apply read_field_val; [simpl; lia|lia]|]); cbn; parse.
Qed.

Lemma write_option_emits x : valid_sysinfo x -> emits (write_option_field x) tt (option_img x).
Proof.
  intros V. unfold write_option_field, option_img. rewrite (vs_frames x V).
  pose proof (vs_option x V) as Ho. destruct (option_field x); try done;
    destruct Ho as (-> & v & -> & Hv); cbn [from_option concat];
    (apply emits_assert; [done|]); (apply emits_assert; [done|]); (eapply emits_known; [done|]);
    rewrite app_nil_r; exact (put_emits v Hv).
Qed.

Lemma read_option_parses x rest :
  valid_sysinfo x ->
  parses (read_option_field (option_field x)) (option_img x) rest (default_access_code x, ext_services x).
Proof.
  intros V. unfold read_option_field, option_img. pose proof (vs_option x V) as Ho.
  destruct (option_field x); try done; destruct Ho as (-> & v & -> & Hv); cbn [from_option concat];
    rewrite app_nil_r.
  - apply (parses_fmap AccessCodeA_from_bitbuf (fun v => (Some v, None))). exact (get_parses v _ Hv).
  - apply (parses_fmap (ExtServices_from_bitbuf true) (fun v => (None, Some v))). exact (get_parses v _ Hv).
Qed.

Lemma sysinfo_emits x : valid_sysinfo x -> emits (MacSysinfo_to_bitbuf x) tt (sysinfo_img x).
Proof.
  intros V. pose proof V as [? ? ? ? ? ? ? ? ? _ _ _]. unfold MacSysinfo_to_bitbuf, sysinfo_img.
  cbn [concat]. emit. apply emits_bind_tt; [by apply write_cck_emits|]. emit.
  by apply emits_app_nil, write_option_emits.
Qed.

Lemma sysinfo_parses x rest : valid_sysinfo x -> parses MacSysinfo_from_bitbuf (sysinfo_img x) rest x.
Proof.
  intros V. pose proof V as [? ? ? ? ? ? ? ? ? _ Hf _]. unfold MacSysinfo_from_bitbuf, sysinfo_img.
  cbn [concat]. parse. eapply parses_bind; [by apply read_cck_parses|]. cbv beta iota. parse.
  eapply parses_bind; [by apply read_option_parses|]. cbv beta iota.
  destruct x. cbn in Hf. subst. apply parses_ret.
Qed.

Lemma length_sysinfo_img x : valid_sysinfo x -> length (sysinfo_img x) = 82.
Proof.
  intros V. unfold sysinfo_img. cbn [concat]. rewrite !length_app, !length_val_bits, !length_img_bool.
  assert (length (cck_img x) = 17) as ->.
  { unfold cck_img. destruct (vs_cck x V) as [(v & -> & -> & _)|(v & -> & -> & _)]; reflexivity. }
  assert (length (option_img x) = 20) as ->; [|reflexivity].
  unfold option_img. pose proof (vs_option x V) as Ho. destruct (option_field x); try done;
    destruct Ho as (-> & v & -> & Hv); [reflexivity|]. cbn [from_option concat].
  assert (length (security_img v) = 5) as Hl.
  { destruct Hv as [_ Hk _ _ _]. unfold security_img. destruct (class2_supported v).
    - destruct Hk as ((n & -> & _) & _). reflexivity.
    - destruct Hk as (_ & [? ->] & [? ->] & [? ->] & n & -> & _). reflexivity. }
  rewrite app_nil_r. unfold img. cbn [ExtServices_codec concat app].
  rewrite !length_app, !length_val_bits, !length_img_bool, Hl. reflexivity.
Qed.

(** ** Claims *)

(** SYSINFO round trip.  A SYSINFO with fields of their widths, exactly one of the
    cipher key identifier and the hyperframe number, and an access code definition or
    the extended services of an encrypting network, is written as 82 bits without a
    panic, and parsing them gives it back. *)
Theorem sysinfo_roundtrip x b :
  valid_sysinfo x -> wf b -> room b 82 ->
  exists b' bs, MacSysinfo_to_bitbuf x b = Ok tt b' /\ wrote b b' bs /\ length bs = 82 /\
    forall rest, parses MacSysinfo_from_bitbuf bs rest x.
Proof.
  intros V W R. rewrite <- (length_sysinfo_img x V) in R.
  destruct (sysinfo_emits x V b W R) as (b' & E & Wr). exists b', (sysinfo_img x).
  split_and!; [done..|by apply length_sysinfo_img|]. intros rest. by apply sysinfo_parses.
Qed.

Definition example_sysinfo : MacSysinfo :=
  mkSysinfo 1528 4 0 0 false 0 3 5 7 10 None (Some 4711%Z) ExtServicesBroadcast None None
    (Some (mkExtServices true true false true None (Some true) (Some false) (Some true) (Some 2%Z) 1 true 0 96)).

Lemma example_sysinfo_valid : valid_sysinfo example_sysinfo.
Proof.
  split; cbn; try lia; try done.
  - right. exists 4711%Z. split_and!; done || lia.
  - split; [done|]. eexists. split; [done|]. split; cbn; try done; try lia.
    split_and!; try done; eauto. exists 2%Z. split; [done|lia].
Qed.


(** A clear network is read back as class 2.  The extended services of a network
    without air interface encryption are written with a zero class bit; [from_bitbuf],
    which [MacSysinfo] always calls with [aie_enabled], reads this as security class 2
    with key number 0. *)
Theorem ext_services_clear_misread auth class1 sds gck sec data :
  (0 <= sds < 4)%Z -> (0 <= sec < 4)%Z -> (0 <= data < 128)%Z ->
  let clear := mkExtServices auth class1 false false None None None None None sds gck sec data in
  let class2 := mkExtServices auth class1 true false (Some 0%Z) None None None None sds gck sec data in
  exists bs, emits (ExtServices_to_bitbuf clear) tt bs /\
    forall rest, parses (ExtServices_from_bitbuf true) bs rest class2.
Proof.
  intros Hs Ht Hd clear class2. exists (img class2). split.
  - unfold ExtServices_to_bitbuf, img. cbn [ExtServices_codec concat].
    apply emits_assert; [done|]. emit. apply emits_bind_tt; [apply write_bits_emits; lia|]. emit.
  - intros rest. refine (get_parses class2 rest _). split; cbn; try done.
    split_and!; try done. exists 0%Z. split; [done|lia].
Qed.

