(* ===== verification/Frag.v ===== *)
(** * Downlink fragmentation (crates/tetra-entities/src/umac/subcomp/bs_frag.rs)

    [BsFragger] places one MAC-RESOURCE and its SDU into the MAC blocks it is offered:
    unfragmented if it fits, otherwise as a first fragment in a MAC-RESOURCE, middle
    fragments in MAC-FRAGs and the rest in a MAC-END.  [None] is a panic: a failed
    assertion, a write past the block, or a [usize] subtraction below zero. *)

From Stdlib Require Import ZArith Lia ZifyNat.
From stdpp Require Import gmap strings.
From S2P Require Import Prelude.
From S2P Require Import BitBuffer.
From S2P Require Import BitBufferFacts.
From S2P Require Import Codec.
From S2P Require Import MacFields.
From S2P Require Import MacPdus.
From S2P Require Import Fillbits.
From S2P Require Import TxReceipt.

(** Calls of the buffer methods from code that handles no [Err]. *)
Definition run {A} (m : M A) (b : BitBuffer) : option (A * BitBuffer) :=
  match m b with Ok a b' => Some (a, b') | _ => None end.

(** [dst.copy_bits(src, n)] *)
Definition copy (n : nat) (dst src : BitBuffer) : option (BitBuffer * BitBuffer) :=
  match copy_bits n dst src with Ok _ s => Some s | _ => None end.

(** A header, the next [sdu_bits] bits of the SDU and the fill bits, into [mac_block].
    The explicit [if num_fill_bits > 0 { write_bit(1); write_zeroes(n - 1) }] of the later
    chunks is what [fillbits::addition::write] does. *)
Definition write_pdu (header : M unit) (sdu_bits num_fill_bits : nat) (mac_block sdu : BitBuffer)
  : option (BitBuffer * BitBuffer) :=
  '(_, mac_block) ← run header mac_block;
  '(mac_block, sdu) ← copy sdu_bits mac_block sdu;
  '(_, mac_block) ← run (write (Some num_fill_bits)) mac_block;
  Some (mac_block, sdu).

(** [usize] subtraction *)
Definition usub (a b : nat) : option nat := if b <=? a then Some (a - b) else None.

Record BsFragger := mkFragger {
  resource : MacResource;
  mac_hdr_is_written : bool;
  is_fully_transmitted : bool;
  sdu : BitBuffer;
  fragmented_chan_alloc : option ChanAllocElement;
  tx_reporter : option TxReporter;
  requires_packet_data_owner : bool
}.

Definition MIN_SLOT_CAP_FOR_RES_FRAG_START : nat := 32.
Definition MIN_SLOT_CAP_FOR_FRAG : nat := 16.

Definition BsFragger_new (resource : MacResource) (sdu : BitBuffer) (tx_reporter : option TxReporter)
  : option BsFragger :=
  _ ← assert_ (get_pos sdu =? 0);
  Some (mkFragger resource false false sdu None tx_reporter false).

Definition with_requires_packet_data_owner (self : BsFragger) (b : bool) : BsFragger :=
  mkFragger (resource self) (mac_hdr_is_written self) (is_fully_transmitted self) (sdu self)
    (fragmented_chan_alloc self) (tx_reporter self) b.

Definition carries_channel_allocation (self : BsFragger) : bool :=
  bool_decide (is_Some (chan_alloc_element (resource self)))
  || bool_decide (is_Some (fragmented_chan_alloc self)).

Definition tx_reporter_shares_state_with (self : BsFragger) (reporter : TxReporter) : bool :=
  match tx_reporter self with Some r => shares_state_with r reporter | None => false end.

(** Field updates of the header. *)
Definition with_len_fill (r : MacResource) (len : Z) (fill : bool) : MacResource :=
  mkResource fill (pos_of_grant r) (encryption_mode r) (random_access_flag r) len (addr r)
    (event_label r) (usage_marker r) (power_control_element r) (slot_granting_element r)
    (chan_alloc_element r).
(** [resource.chan_alloc_element.take()] *)
Definition without_chan_alloc (r : MacResource) : MacResource :=
  mkResource (fill_bits r) (pos_of_grant r) (encryption_mode r) (random_access_flag r)
    (length_ind r) (addr r) (event_label r) (usage_marker r) (power_control_element r)
    (slot_granting_element r) None.

Definition update (self : BsFragger) (resource : MacResource) (written : bool) (sdu : BitBuffer)
  (chan_alloc : option ChanAllocElement) : BsFragger :=
  mkFragger resource written (is_fully_transmitted self) sdu chan_alloc (tx_reporter self)
    (requires_packet_data_owner self).

Definition get_resource_chunk (self : BsFragger) (mac_block : BitBuffer)
  : option (bool * BsFragger * BitBuffer) :=
  _ ← assert_ (get_pos (sdu self) =? 0);
  _ ← assert_ (negb (mac_hdr_is_written self));
  _ ← assert_ (negb (is_null_pdu (resource self) && (0 <? get_len_remaining (sdu self))));
  let full_hdr_len_bits := compute_header_len (resource self) in
  let sdu_len_bits := get_len_remaining (sdu self) in
  let slot_cap_bits := get_len_remaining mac_block in
  let num_fill_bits := compute_required (full_hdr_len_bits + sdu_len_bits) slot_cap_bits in
  let total_len_bits := full_hdr_len_bits + sdu_len_bits + num_fill_bits in
  let total_len_bytes := total_len_bits / 8 in
  if total_len_bits <=? slot_cap_bits then
    _ ← assert_ ((total_len_bits mod 8 =? 0) || (total_len_bits =? get_len_remaining mac_block));
    let resource := with_len_fill (resource self) (u8 (Z.of_nat total_len_bytes)) (0 <? num_fill_bits) in
    '(mac_block, sdu) ← write_pdu (MacResource_to_bitbuf resource) sdu_len_bits num_fill_bits
                          mac_block (sdu self);
    Some (true, update self resource true sdu (fragmented_chan_alloc self), mac_block)
  else
    let fragmented_chan_alloc_len :=
      match chan_alloc_element (resource self) with Some c => compute_len c | None => 0 end in
    frag_start_hdr_len_bits ← usub full_hdr_len_bits fragmented_chan_alloc_len;
    if (slot_cap_bits <? MIN_SLOT_CAP_FOR_RES_FRAG_START) || (slot_cap_bits <? frag_start_hdr_len_bits)
    then Some (false, self, mac_block)
    else
      let chan_alloc := chan_alloc_element (resource self) in
      let resource := without_chan_alloc (resource self) in
      let hdr_len_bits := compute_header_len resource in
      room ← usub slot_cap_bits hdr_len_bits;
      let sdu_bits := Nat.min room (get_len_remaining (sdu self)) in
      let num_fill_bits := slot_cap_bits - hdr_len_bits - sdu_bits in
      let resource := with_len_fill resource 0x3f (0 <? num_fill_bits) in
      '(mac_block, sdu) ← write_pdu (MacResource_to_bitbuf resource) sdu_bits num_fill_bits
                            mac_block (sdu self);
      Some (false, update self resource true sdu chan_alloc, mac_block).

Definition get_frag_or_end_chunk (self : BsFragger) (mac_block : BitBuffer)
  : option (bool * BsFragger * BitBuffer) :=
  _ ← assert_ (mac_hdr_is_written self);
  let sdu_bits := get_len_remaining (sdu self) in
  let macend_len_bits := compute_hdr_len false (fragmented_chan_alloc self) + sdu_bits in
  let macend_len_bytes := (macend_len_bits + 7) / 8 in
  let slot_cap_bits := get_len_remaining mac_block in
  if macend_len_bytes * 8 <=? slot_cap_bits then
    let num_fill_bits := compute_required macend_len_bits slot_cap_bits in
    let pdu := mkEndDl (0 <? num_fill_bits) 0 (u8 (Z.of_nat macend_len_bytes)) None
                 (fragmented_chan_alloc self) in
    '(mac_block, sdu) ← write_pdu (MacEndDl_to_bitbuf pdu) sdu_bits num_fill_bits
                          mac_block (sdu self);
    Some (true, update self (resource self) (mac_hdr_is_written self) sdu None, mac_block)
  else if (slot_cap_bits <? MIN_SLOT_CAP_FOR_FRAG) || (sdu_bits =? 0) then
    Some (false, self, mac_block)
  else
    let macfrag_hdr_len := 4 in
    let sdu_bits_in_frag := Nat.min (slot_cap_bits - macfrag_hdr_len) sdu_bits in
    let num_fill_bits := slot_cap_bits - macfrag_hdr_len - sdu_bits_in_frag in
    let pdu := mkFragDl (0 <? num_fill_bits) in
    '(mac_block, sdu) ← write_pdu (MacFragDl_to_bitbuf pdu) sdu_bits_in_frag num_fill_bits
                          mac_block (sdu self);
    Some (false, update self (resource self) (mac_hdr_is_written self) sdu
                   (fragmented_chan_alloc self), mac_block).

Definition set_transmitted (self : BsFragger) (b : bool) : BsFragger :=
  mkFragger (resource self) (mac_hdr_is_written self) b (sdu self) (fragmented_chan_alloc self)
    (tx_reporter self) (requires_packet_data_owner self).

Definition get_next_chunk (self : BsFragger) (mac_block : BitBuffer) (heap : store)
  : option (bool * BsFragger * BitBuffer * store) :=
  _ ← assert_ (negb (is_fully_transmitted self));
  _ ← assert_ ((get_len_written mac_block mod 8 =? 0) || (get_len_remaining mac_block =? 0));
  '(fully, self, mac_block) ←
    (if negb (mac_hdr_is_written self) then get_resource_chunk self mac_block
     else get_frag_or_end_chunk self mac_block);
  let self := set_transmitted self fully in
  let heap :=
    match tx_reporter self with
    | Some r => if fully then (try_mark_transmitted r heap).2 else heap
    | None => heap
    end in
  Some (fully, self, mac_block, heap).

(** [impl Drop for BsFragger] *)
Definition drop_fragger (self : BsFragger) (heap : store) : store :=
  match tx_reporter self with
  | Some r => if negb (is_fully_transmitted self) then (try_mark_discarded r heap).2 else heap
  | None => heap
  end.

(** ** Facts *)

Lemma write_pdu_spec header himg n bs rest block sdu :
  emits header tt himg -> wf block -> wf sdu -> remaining sdu = bs ++ rest ->
  length himg + length bs + n <= get_len_remaining block ->
  exists block', write_pdu header (length bs) n block sdu
    = Some (block', with_pos sdu (pos sdu + length bs)) /\ wrote block block' (himg ++ bs ++ fill n).
Proof.
  intros Hh W Ws E Hn. unfold get_len_remaining in Hn. pose proof (wf_pos _ W) as Wp.
  unfold write_pdu, run, copy.
  destruct (Hh block W) as (b1 & -> & W1); [left; lia|]. rewrite bind_Some.
  pose proof W1 as [V1 S1 P1 F1 N1 _ _].
  destruct (copy_bits_spec b1 sdu bs rest) as (b2 & -> & W2); [done..|left; lia|]. rewrite bind_Some.
  pose proof W2 as [V2 S2 P2 F2 N2 _ _].
  destruct (write_emits n b2 V2) as (b3 & -> & W3); [rewrite length_fill; left; lia|].
  rewrite bind_Some. exists b3. split; [done|].
  eapply wrote_trans; [done|]. by eapply wrote_trans.
Qed.

(** *** Headers that can be sent *)

(** The header is accepted by the serializer, whatever its length indication. *)
Record sendable (r : MacResource) (ty : MacResourceAddrType) : Prop := {
  se_typed : typed_resource r;
  se_accepted : accepted (with_len_fill r 1 false) ty;
  se_addr : ty <> NullPdu
}.

Lemma sendable_accepted r ty len fill :
  sendable r ty -> (1 <= len <= 63)%Z ->
  typed_resource (with_len_fill r len fill) /\ accepted (with_len_fill r len fill) ty.
Proof.
  intros [T [V E] _] Hlen. split.
  - destruct T. split; cbn; try done; lia.
  - split; [|done]. unfold validate_for_serialization in *. cbn [length_ind with_len_fill] in *.
    bfalse (len =? 0)%Z. bfalse (0x3f <? len)%Z. exact V.
Qed.

Lemma sendable_without r ty : sendable r ty -> sendable (without_chan_alloc r) ty.
Proof. intros [T A N]. split; [|exact A|done]. destruct T. split; cbn; done. Qed.

Lemma compute_header_len_len_fill r len fill :
  compute_header_len (with_len_fill r len fill) = compute_header_len r.
Proof. done. Qed.

(** Without the channel allocation the header is shorter by its length. *)
Lemma compute_header_len_without r ty :
  sendable r ty ->
  compute_header_len (without_chan_alloc r)
  + match chan_alloc_element r with Some c => compute_len c | None => 0 end = compute_header_len r.
Proof.
  intros [_ [V _] N]. destruct (validate_inl _ _ V) as (Hty & _). pose proof (null_address _ _ Hty) as Hnull.
  unfold compute_header_len. change (is_null_pdu (without_chan_alloc r)) with (is_null_pdu r).
  change (is_null_pdu (with_len_fill r 1 false)) with (is_null_pdu r) in Hnull.
  destruct (is_null_pdu r); [by destruct N; apply Hnull|]. cbn.
  destruct (chan_alloc_element r) as [c|]; [|lia]. unfold compute_len.
  destruct (is_supported_by_this_stack c); cbn; lia.
Qed.

Lemma compute_header_len_bounds r : 16 <= compute_header_len r <= 98.
Proof.
  unfold compute_header_len. destruct (is_null_pdu r); [lia|].
  assert (Hc : forall c, compute_len c <= 27).
  { intros c. unfold compute_len. destruct (negb _); [lia|]. destruct (ext c); [lia|].
    destruct (bool_decide _); [lia|]. destruct (mon_pattern c =? 0)%Z; lia. }
  repeat case_bool_decide; destruct (chan_alloc_element r) as [c|]; try specialize (Hc c);
    try destruct (is_supported_by_this_stack c); lia.
Qed.

Lemma assert_true {A} (c : bool) (k : unit -> option A) : c = true -> (x ← assert_ c; k x) = k tt.
Proof. by intros ->. Qed.

Lemma usub_le a b : b <= a -> usub a b = Some (a - b).
Proof. intros H. unfold usub. by rewrite (proj2 (Nat.leb_le b a)). Qed.

Section chunks.
Context (self : BsFragger) (block : BitBuffer) (ty : MacResourceAddrType) (bs : list bool).
Context (Hs : sendable (resource self) ty) (Wb : wf block) (Ws : wf (sdu self)).
Context (Hbs : remaining (sdu self) = bs) (Hcap : get_len_remaining block <= 268).

(** The SDU after [k] more bits were taken from it. *)
Definition sdu_after (k : nat) : BitBuffer := with_pos (sdu self) (pos (sdu self) + k).

Lemma sdu_remaining_len : get_len_remaining (sdu self) = length bs.
Proof using Hbs. rewrite <- Hbs. symmetry. apply length_remaining. Qed.

Lemma resource_not_null : is_null_pdu (resource self) = false.
Proof using Hs.
  destruct Hs as [_ [V _] N]. destruct (validate_inl _ _ V) as (Hty & _).
  pose proof (null_address _ _ Hty) as Hnull. apply not_true_iff_false. intros H. apply N, Hnull, H.
Qed.

(** The header and all of the SDU fit: one complete MAC-RESOURCE. *)
Lemma whole_chunk :
  let total := compute_header_len (resource self) + length bs in
  let n := compute_required total (get_len_remaining block) in
  let r := with_len_fill (resource self) (Z.of_nat ((total + n) / 8)) (0 <? n) in
  mac_hdr_is_written self = false -> get_pos (sdu self) = 0 -> total <= get_len_remaining block ->
  exists block', get_resource_chunk self block
    = Some (true, update self r true (sdu_after (length bs)) (fragmented_chan_alloc self), block') /\
    wrote block block' (resource_img r ty ++ bs ++ fill n).
Proof using Hs Wb Ws Hbs Hcap.
  intros total n r Hw Hp Ht. unfold get_resource_chunk.
  rewrite !assert_true by (rewrite ?Hw, ?Hp, ?resource_not_null; done).
  rewrite sdu_remaining_len. fold total. fold n.
  destruct (compute_required_aligned total (get_len_remaining block) Ht) as (Hn & Ha & _). fold n in Hn, Ha.
  rewrite (proj2 (Nat.leb_le (total + n) _) Hn).
  rewrite assert_true by (destruct Ha as [->| ->]; rewrite ?Nat.eqb_refl, ?orb_true_r; done).
  pose proof (compute_header_len_bounds (resource self)) as Hh.
  assert (Hl : (2 <= Z.of_nat ((total + n) / 8) <= 33)%Z) by (unfold total in *; divlia).
  replace (u8 (Z.of_nat ((total + n) / 8))) with (Z.of_nat ((total + n) / 8))
    by (unfold u8; rewrite Z.mod_small; [done|lia]).
  fold r. destruct (sendable_accepted (resource self) ty (Z.of_nat ((total + n) / 8)) (0 <? n) Hs) as [T A]; [lia|].
  destruct (write_pdu_spec _ _ n bs [] block (sdu self) (resource_to_bitbuf_emits r ty T A) Wb Ws)
    as (block' & -> & W); [by rewrite app_nil_r| |].
  { rewrite (length_resource_img r ty T A). unfold r. rewrite compute_header_len_len_fill. unfold total in Hn. lia. }
  rewrite bind_Some. by exists block'.
Qed.

(** The first fragment: it fills the block; the channel allocation is kept for the end. *)
Lemma first_chunk :
  let cap := get_len_remaining block in
  let hdr := compute_header_len (without_chan_alloc (resource self)) in
  let k := Nat.min (cap - hdr) (length bs) in
  let n := cap - hdr - k in
  let r := with_len_fill (without_chan_alloc (resource self)) 0x3f (0 <? n) in
  mac_hdr_is_written self = false -> get_pos (sdu self) = 0 ->
  cap < compute_header_len (resource self) + length bs -> 32 <= cap -> hdr <= cap ->
  exists block', get_resource_chunk self block
    = Some (false, update self r true (sdu_after k) (chan_alloc_element (resource self)), block') /\
    wrote block block' (resource_img r ty ++ take k bs ++ fill n) /\ hdr + k + n = cap.
Proof using Hs Wb Ws Hbs Hcap.
  intros cap hdr k n r Hw Hp Ht Hmin Hhdr. unfold get_resource_chunk.
  rewrite !assert_true by (rewrite ?Hw, ?Hp, ?resource_not_null; done).
  rewrite sdu_remaining_len. fold cap.
  set (total := compute_header_len (resource self) + length bs) in *.
  bfalse (total + compute_required total cap <=? cap).
  pose proof (compute_header_len_without _ _ Hs) as Hc. fold hdr in Hc.
  rewrite (usub_le (compute_header_len (resource self))), bind_Some by lia. rewrite (proj2 (Nat.ltb_ge cap MIN_SLOT_CAP_FOR_RES_FRAG_START)) by done.
  rewrite (proj2 (Nat.ltb_ge cap _)) by lia. cbn [orb]. cbv zeta. fold hdr.
  rewrite usub_le, bind_Some by done. fold k. fold n.
  destruct (sendable_accepted _ ty 0x3f (0 <? n) (sendable_without _ _ Hs)) as [T A]; [lia|].
  fold r in T, A |- *. assert (Hk : length (take k bs) = k) by (rewrite length_take; lia).
  destruct (write_pdu_spec _ _ n (take k bs) (drop k bs) block (sdu self)
    (resource_to_bitbuf_emits r ty T A) Wb Ws) as (block' & E & W).
  { by rewrite take_drop. }
  { rewrite (length_resource_img r ty T A), Hk. change (compute_header_len r) with hdr. fold cap. lia. }
  rewrite Hk in E. rewrite E, bind_Some. exists block'. split_and!; [done..|lia].
Qed.

(** No room to start: nothing is written and the fragger is unchanged. *)
Lemma deferred_chunk :
  let cap := get_len_remaining block in
  mac_hdr_is_written self = false -> get_pos (sdu self) = 0 ->
  cap < compute_header_len (resource self) + length bs ->
  cap < 32 \/ cap < compute_header_len (without_chan_alloc (resource self)) ->
  get_resource_chunk self block = Some (false, self, block).
Proof using Hs Wb Ws Hbs Hcap.
  intros cap Hw Hp Ht Hmin. unfold get_resource_chunk.
  rewrite !assert_true by (rewrite ?Hw, ?Hp, ?resource_not_null; done).
  rewrite sdu_remaining_len. fold cap.
  set (total := compute_header_len (resource self) + length bs) in *.
  bfalse (total + compute_required total cap <=? cap).
  pose proof (compute_header_len_without _ _ Hs) as Hc.
  rewrite (usub_le (compute_header_len (resource self))), bind_Some by lia.
  rewrite (proj2 (orb_true_iff _ _)); [done|]. rewrite !Nat.ltb_lt. unfold MIN_SLOT_CAP_FOR_RES_FRAG_START. lia.
Qed.
End chunks.

Section continuation.
Context (self : BsFragger) (block : BitBuffer) (bs : list bool).
Context (Hw : mac_hdr_is_written self = true).
Context (Hc : forall c, fragmented_chan_alloc self = Some c -> encodable_chan_alloc c).
Context (Wb : wf block) (Ws : wf (sdu self)).
Context (Hbs : remaining (sdu self) = bs) (Hcap : get_len_remaining block <= 268).

Definition end_len : nat := compute_hdr_len false (fragmented_chan_alloc self) + length bs.

(** The rest fits, rounded up to octets: a MAC-END. *)
Lemma end_chunk :
  let cap := get_len_remaining block in
  let n := compute_required end_len cap in
  let e := mkEndDl (0 <? n) 0 (Z.of_nat ((end_len + 7) / 8)) None (fragmented_chan_alloc self) in
  (end_len + 7) / 8 * 8 <= cap ->
  exists block', get_frag_or_end_chunk self block
    = Some (true, update self (resource self) true (sdu_after self (length bs)) None, block') /\
    wrote block block' (end_img e ++ bs ++ fill n) /\ valid_end e /\ end_len + n = (end_len + 7) / 8 * 8.
Proof using Hw Hc Wb Ws Hbs Hcap.
  intros cap n e Ht. unfold get_frag_or_end_chunk. rewrite assert_true, Hw by done.
  rewrite (sdu_remaining_len self bs Hbs). fold end_len. fold cap.
  rewrite (proj2 (Nat.leb_le _ cap)) by done. fold n.
  assert (Hn : end_len + n = (end_len + 7) / 8 * 8).
  { unfold n, compute_required, compute_required_bytealigned.
    destruct (Nat.leb_spec cap end_len); [divlia|]. destruct (Nat.leb_spec (end_len + (8 - end_len mod 8) mod 8) cap); divlia. }
  assert (Hh : 13 <= compute_hdr_len false (fragmented_chan_alloc self)).
  { unfold compute_hdr_len. destruct (fragmented_chan_alloc self) as [c|]; [|lia]. destruct (is_supported_by_this_stack c); lia. }
  assert (Hl : (1 <= Z.of_nat ((end_len + 7) / 8) <= 33)%Z) by (unfold end_len in *; divlia).
  replace (u8 (Z.of_nat ((end_len + 7) / 8))) with (Z.of_nat ((end_len + 7) / 8))
    by (unfold u8; rewrite Z.mod_small; [done|lia]).
  fold e. assert (V : valid_end e) by (split; cbn; try done; lia).
  destruct (write_pdu_spec _ _ n bs [] block (sdu self) (end_emits e V) Wb Ws) as (block' & -> & W).
  { by rewrite app_nil_r. }
  { rewrite (length_end_img e V). cbn. unfold end_len in Hn. fold cap. unfold end_len in Ht. lia. }
  rewrite bind_Some. by exists block'.
Qed.

(** Otherwise a MAC-FRAG that fills the block. *)
Lemma frag_chunk :
  let cap := get_len_remaining block in
  let k := Nat.min (cap - 4) (length bs) in
  let n := cap - 4 - k in
  cap < (end_len + 7) / 8 * 8 -> 16 <= cap -> bs <> [] ->
  exists block', get_frag_or_end_chunk self block
    = Some (false, update self (resource self) true (sdu_after self k) (fragmented_chan_alloc self), block') /\
    wrote block block' (concat [val_bits 2 1; val_bits 1 0; img_bool (0 <? n)] ++ take k bs ++ fill n) /\
    4 + k + n = cap.
Proof using Hw Hc Wb Ws Hbs Hcap.
  intros cap k n Ht Hmin Hne. unfold get_frag_or_end_chunk. rewrite assert_true, Hw by done.
  rewrite (sdu_remaining_len self bs Hbs). fold end_len. fold cap.
  rewrite (proj2 (Nat.leb_gt _ cap)) by done. rewrite (proj2 (Nat.ltb_ge cap MIN_SLOT_CAP_FOR_FRAG)) by done.
  rewrite (proj2 (Nat.eqb_neq (length bs) 0)) by (by destruct bs). cbn [orb]. cbv zeta. fold k. fold n.
  assert (Hk : length (take k bs) = k) by (rewrite length_take; lia).
  destruct (write_pdu_spec _ _ n (take k bs) (drop k bs) block (sdu self) (frag_emits (0 <? n)) Wb Ws)
    as (block' & E & W).
  { by rewrite take_drop. }
  { rewrite Hk. change (length (concat _)) with 4. fold cap. lia. }
  rewrite Hk in E. rewrite E, bind_Some. exists block'. split_and!; [done..|lia].
Qed.

Lemma waiting_chunk :
  get_len_remaining block < (end_len + 7) / 8 * 8 -> get_len_remaining block < 16 \/ bs = [] ->
  get_frag_or_end_chunk self block = Some (false, self, block).
Proof using Hw Hbs Hcap.
  intros Ht Hmin. unfold get_frag_or_end_chunk. rewrite assert_true by done.
  rewrite (sdu_remaining_len self bs Hbs). fold end_len.
  rewrite (proj2 (Nat.leb_gt _ _)) by done. rewrite (proj2 (orb_true_iff _ _)); [done|].
  rewrite Nat.ltb_lt, Nat.eqb_eq. unfold MIN_SLOT_CAP_FOR_FRAG. destruct Hmin as [?| ->]; [left; lia|by right].
Qed.
End continuation.
