(* ===== verification/UplinkPdus.v ===== *)
(** * Uplink MAC PDUs (crates/tetra-pdus/src/umac/pdus)

    MAC-ACCESS (mac_access.rs), MAC-DATA (mac_data.rs), MAC-FRAG (mac_frag_ul.rs), MAC-END
    (mac_end_ul.rs), MAC-END-HU (mac_end_hu.rs) and MAC-U-BLCK (mac_u_blck.rs), with the
    reservation requirement (enums/reservation_requirement.rs): parsing, validation and
    serialization of the headers a base station receives. *)

From Stdlib Require Import ZArith Lia ZifyNat.
From stdpp Require Import strings.
From S2P Require Import Prelude.
From S2P Require Import BitBuffer.
From S2P Require Import BitBufferFacts.
From S2P Require Import Codec.
From S2P Require Import MacFields.
From S2P Require Import MacPdus.

(** ** Reservation requirement *)

Inductive ReservationRequirement :=
  | Req1Subslot | Req1Slot | Req2Slots | Req3Slots | Req4Slots | Req5Slots | Req6Slots
  | Req8Slots | Req10Slots | Req13Slots | Req17Slots | Req24Slots | Req34Slots | Req51Slots
  | Req68Slots | ReqOver68.
#[export] Instance ReservationRequirement_eq_dec : EqDecision ReservationRequirement.
Proof. solve_decision. Defined.

Definition ResReq_into_raw (x : ReservationRequirement) : Z :=
  match x with
  | Req1Subslot => 0 | Req1Slot => 1 | Req2Slots => 2 | Req3Slots => 3 | Req4Slots => 4
  | Req5Slots => 5 | Req6Slots => 6 | Req8Slots => 7 | Req10Slots => 8 | Req13Slots => 9
  | Req17Slots => 10 | Req24Slots => 11 | Req34Slots => 12 | Req51Slots => 13
  | Req68Slots => 14 | ReqOver68 => 15
  end.
Definition ResReq_try_from (x : Z) : option ReservationRequirement :=
  match x with
  | 0 => Some Req1Subslot | 1 => Some Req1Slot | 2 => Some Req2Slots | 3 => Some Req3Slots
  | 4 => Some Req4Slots | 5 => Some Req5Slots | 6 => Some Req6Slots | 7 => Some Req8Slots
  | 8 => Some Req10Slots | 9 => Some Req13Slots | 10 => Some Req17Slots | 11 => Some Req24Slots
  | 12 => Some Req34Slots | 13 => Some Req51Slots | 14 => Some Req68Slots | 15 => Some ReqOver68
  | _ => None
  end%Z.
#[export] Program Instance ResReq_wire : WireEnum ReservationRequirement :=
  {| enum_width := 4; into_raw := ResReq_into_raw; try_from := ResReq_try_from |}.
Solve Obligations with wire_enum.

Definition ResReq_from_req_slotcount (req : nat) : ReservationRequirement :=
  if req =? 0 then Req1Subslot
  else if req =? 1 then Req1Slot
  else if req =? 2 then Req2Slots
  else if req =? 3 then Req3Slots
  else if req =? 4 then Req4Slots
  else if req =? 5 then Req5Slots
  else if req =? 6 then Req6Slots
  else if req <=? 8 then Req8Slots
  else if req <=? 10 then Req10Slots
  else if req <=? 13 then Req13Slots
  else if req <=? 17 then Req17Slots
  else if req <=? 24 then Req24Slots
  else if req <=? 34 then Req34Slots
  else if req <=? 51 then Req51Slots
  else if req <=? 68 then Req68Slots
  else ReqOver68.

Definition ResReq_to_req_slotcount (self : ReservationRequirement) : nat :=
  match self with
  | Req1Subslot => 0 | Req1Slot => 1 | Req2Slots => 2 | Req3Slots => 3 | Req4Slots => 4
  | Req5Slots => 5 | Req6Slots => 6 | Req8Slots => 8 | Req10Slots => 10 | Req13Slots => 13
  | Req17Slots => 17 | Req24Slots => 24 | Req34Slots => 34 | Req51Slots => 51
  | Req68Slots => 68 | ReqOver68 => 68
  end.

(** ** What MAC-ACCESS and MAC-DATA share *)

Definition EVENT_LABEL_ALL_ONES : Z := 0x3ff.
Definition SSI_MAX : Z := 0xffffff.

(** The address part, by the two-bit address type. *)
Definition read_ul_address (names : string * string * string)
  : M (option TetraAddress * option Z) :=
  addr_type ← read_u8 2 "addr_type";
  if (addr_type =? 0)%Z then a ← read_addr Issi names.1.1; mret (a, None)
  else if (addr_type =? 1)%Z then
    event_label ← read_u16 10 "event_label";
    if ((event_label =? 0) || (event_label =? EVENT_LABEL_ALL_ONES))%Z
    then fail (InvalidValue "event_label" event_label) else mret (None, Some event_label)
  else if (addr_type =? 2)%Z then a ← read_addr Ussi names.1.2; mret (a, None)
  else if (addr_type =? 3)%Z then a ← read_addr Smi names.2; mret (a, None)
  else fail (InvalidValue "addr_type" addr_type).

(** Address and event label checks; [name] is the field reported for an encrypted address. *)
Definition validate_address (reason name : string) (encrypted : bool)
  (addr : option TetraAddress) (event_label : option Z) : unit + PduParseErr :=
  then_ (match addr, event_label with
         | Some _, Some _ => inr (Inconsistency "addr/event_label" reason)
         | None, None => inr (FieldNotPresent (Some "addr_or_event_label"))
         | _, _ => inl tt
         end) (
  then_ (match addr with
         | Some a =>
             if (SSI_MAX <? ssi a)%Z then inr (InvalidValue "ssi" (ssi a)) else
             match ssi_type a with
             | Ssi | Issi | Gssi | Ussi | Smi =>
                 if encrypted then inr (NotImplemented (Some name)) else inl tt
             | Esi => inr (NotImplemented (Some name))
             | Unknown => inr (InvalidValue "ssi_type" 0)
             | EventLabelSsi => inr (InvalidValue "ssi_type" 7)
             end
         | None => inl tt
         end)
  (match event_label with
   | Some l =>
       if ((l =? 0) || (l =? EVENT_LABEL_ALL_ONES) || (EVENT_LABEL_ALL_ONES <? l))%Z
       then inr (InvalidValue "event_label" l) else inl tt
   | None => inl tt
   end)).

Definition write_ul_address (name : string) (addr : option TetraAddress) (event_label : option Z)
  : M unit :=
  match addr, event_label with
  | Some a, _ =>
      match ssi_type a with
      | Ssi | Issi | Gssi => write_bits 0 2;; write_bits (ssi a) 24
      | Ussi => write_bits 2 2;; write_bits (ssi a) 24
      | Smi => write_bits 3 2;; write_bits (ssi a) 24
      | Esi => fail (NotImplemented (Some name))
      | Unknown => fail (InvalidValue "ssi_type" 0)
      | EventLabelSsi => fail (InvalidValue "ssi_type" 7)
      end
  | None, Some l => write_bits 1 2;; write_bits l 10
  | None, None => mret tt
  end.

(** ** MAC-ACCESS *)

Record MacAccess := mkAccess {
  ac_fill_bits : bool;
  ac_encrypted : bool;
  ac_addr : option TetraAddress;
  ac_event_label : option Z;
  ac_length_ind : option Z;
  ac_frag_flag : option bool;
  ac_reservation_req : option ReservationRequirement
}.

Definition MacAccess_from_bitbuf : M MacAccess :=
  expect_field 1 "mac_pdu_type" 0;;
  fill_bits ← read_flag "fill_bits";
  encrypted ← read_flag "encrypted";
  '(addr, event_label) ← read_ul_address ("ssi", "ussi", "smi");
  optional_field_flag ← read_flag "optional_field_flag";
  if negb optional_field_flag
  then mret (mkAccess fill_bits encrypted addr event_label None None None) else
  length_ind_or_cap_req ← read_field 1 "length_ind_or_cap_req";
  if (length_ind_or_cap_req =? 0)%Z then
    len ← read_u8 5 "length_ind";
    mret (mkAccess fill_bits encrypted addr event_label (Some len) None None)
  else
    frag ← read_flag "frag_flag";
    res_req ← read_enum ReservationRequirement 4 "reservation_req";
    mret (mkAccess fill_bits encrypted addr event_label None (Some frag) (Some res_req)).

(** Length indication and capacity request exclude each other. *)
Definition validate_capacity (reason1 reason2 : string) (length_ind_max : Z)
  (length_ind : option Z) (frag_flag : option bool) (res_req : option ReservationRequirement)
  (incomplete : bool) : unit + PduParseErr :=
  let has_length_ind := bool_decide (is_Some length_ind) in
  let has_frag_flag := bool_decide (is_Some frag_flag) in
  let has_reservation_req := bool_decide (is_Some res_req) in
  then_ (bounded "length_ind" length_ind_max length_ind) (
  then_ (if has_length_ind && (has_frag_flag || has_reservation_req)
         then inr (Inconsistency "length_ind_or_capacity_request" reason1) else inl tt) (
  if incomplete then inr (Inconsistency "capacity_request" reason2) else inl tt)).

Definition MacAccess_validate (self : MacAccess) : unit + PduParseErr :=
  then_ (validate_address "MAC-ACCESS shall contain one address field selected by address type"
           "encrypted_mac_access_address" (ac_encrypted self) (ac_addr self) (ac_event_label self))
    (validate_capacity "MAC-ACCESS may contain length indication or capacity request, not both"
       "capacity request requires fragmentation flag and reservation requirement" 0x1f
       (ac_length_ind self) (ac_frag_flag self) (ac_reservation_req self)
       (negb (Bool.eqb (bool_decide (is_Some (ac_frag_flag self)))
                       (bool_decide (is_Some (ac_reservation_req self)))))).

Definition MacAccess_try_to_bitbuf (self : MacAccess) : M unit :=
  match MacAccess_validate self with
  | inr e => fail e
  | inl _ =>
      write_bits 0 1;;
      write_bits (b2z (ac_fill_bits self)) 1;;
      write_bits (b2z (ac_encrypted self)) 1;;
      write_ul_address "encrypted_mac_access_address" (ac_addr self) (ac_event_label self);;
      if bool_decide (is_Some (ac_length_ind self)) || bool_decide (is_Some (ac_frag_flag self))
         || bool_decide (is_Some (ac_reservation_req self))
      then
        write_bits 1 1;;
        match ac_length_ind self, ac_frag_flag self, ac_reservation_req self with
        | Some length_ind, _, _ => write_bits 0 1;; write_bits length_ind 5
        | None, Some frag_flag, Some res_req =>
            write_bits 1 1;; write_bits (b2z frag_flag) 1;; write_bits (into_raw res_req) 4
        | _, _, _ => fail (Inconsistency "capacity_request"
            "capacity request requires fragmentation flag and reservation requirement")
        end
      else write_bits 0 1
  end.

(** Errors are logged. *)
Definition logged (m : M unit) : M unit := fun buf =>
  match m buf with Err _ buf' => Ok tt buf' | r => r end.

Definition MacAccess_to_bitbuf (self : MacAccess) : M unit := logged (MacAccess_try_to_bitbuf self).

Definition MacAccess_is_null_pdu (self : MacAccess) : bool :=
  (default 1%Z (ac_length_ind self) =? 0)%Z.
Definition MacAccess_is_frag_start (self : MacAccess) : bool := default false (ac_frag_flag self).

(** ** MAC-DATA *)

Record MacData := mkData {
  md_fill_bits : bool;
  md_encrypted : bool;
  md_addr : option TetraAddress;
  md_event_label : option Z;
  md_length_ind : option Z;
  md_frag_flag : option bool;
  md_reservation_req : option ReservationRequirement
}.

Definition MacData_from_bitbuf : M MacData :=
  expect_field 2 "mac_pdu_type" 0;;
  fill_bits ← read_flag "fill_bits";
  encrypted ← read_flag "encrypted";
  '(addr, event_label) ← read_ul_address ("ssi", "ssi", "ssi");
  length_ind_or_cap_req ← read_field 1 "length_ind_or_cap_req";
  if (length_ind_or_cap_req =? 0)%Z then
    len ← read_u8 6 "length_ind";
    mret (mkData fill_bits encrypted addr event_label (Some len) None None)
  else if (length_ind_or_cap_req =? 1)%Z then
    frag_flag ← read_flag "frag_flag";
    res_req ← read_enum ReservationRequirement 4 "reservation_requirement";
    _ ← read_bits 1;
    mret (mkData fill_bits encrypted addr event_label None (Some frag_flag) (Some res_req))
  else fail (InvalidValue "length_ind_or_cap_req" length_ind_or_cap_req).

Definition MacData_validate (self : MacData) : unit + PduParseErr :=
  then_ (validate_address "MAC-DATA shall contain one address field selected by address type"
           "encrypted_mac_data_address" (md_encrypted self) (md_addr self) (md_event_label self))
    (validate_capacity "MAC-DATA may contain length indication or capacity request, not both"
       "MAC-DATA requires either length indication or a complete capacity request" 0x3f
       (md_length_ind self) (md_frag_flag self) (md_reservation_req self)
       (negb (bool_decide (is_Some (md_length_ind self)))
        && negb (bool_decide (is_Some (md_frag_flag self))
                 && bool_decide (is_Some (md_reservation_req self))))).

Definition MacData_try_to_bitbuf (self : MacData) : M unit :=
  match MacData_validate self with
  | inr e => fail e
  | inl _ =>
      write_bits 0 2;;
      write_bits (b2z (md_fill_bits self)) 1;;
      write_bits (b2z (md_encrypted self)) 1;;
      write_ul_address "encrypted_mac_data_address" (md_addr self) (md_event_label self);;
      match md_length_ind self, md_frag_flag self, md_reservation_req self with
      | Some length_ind, _, _ => write_bits 0 1;; write_bits length_ind 6
      | None, Some frag_flag, Some res_req =>
          write_bits 1 1;; write_bits (b2z frag_flag) 1;; write_bits (into_raw res_req) 4;;
          write_bits 0 1
      | _, _, _ => fail (Inconsistency "capacity_request"
          "MAC-DATA requires either length indication or a complete capacity request")
      end
  end.

Definition MacData_to_bitbuf (self : MacData) : M unit := logged (MacData_try_to_bitbuf self).

(** ** MAC-FRAG, MAC-END, MAC-END-HU *)

Record MacFragUl := mkFragUl { fu_fill_bits : bool }.

Definition MacFragUl_from_bitbuf : M MacFragUl :=
  expect_field 2 "mac_pdu_type" 1;;
  expect_field 1 "pdu_subtype" 0;;
  fill_bits ← read_flag "fill_bits";
  mret (mkFragUl fill_bits).

Definition MacFragUl_to_bitbuf (self : MacFragUl) : M unit :=
  write_bits 1 2;; write_bits 0 1;; write_bits (b2z (fu_fill_bits self)) 1.

Record MacEndUl := mkEndUl {
  eu_fill_bits : bool;
  eu_length_ind : option Z;
  eu_reservation_req : option ReservationRequirement
}.

Definition MacEndUl_from_bitbuf : M MacEndUl :=
  expect_field 2 "mac_pdu_type" 1;;
  expect_field 1 "pdu_subtype" 1;;
  fill_bits ← read_flag "fill_bits";
  length_ind_cap_req ← read_field 6 "length_ind_cap_req";
  if (length_ind_cap_req =? 0)%Z then fail (InvalidValue "length_ind_cap_req" length_ind_cap_req)
  else if (length_ind_cap_req <=? 0x2e)%Z then mret (mkEndUl fill_bits (Some (u8 length_ind_cap_req)) None)
  else if (length_ind_cap_req <? 0x30)%Z
  then fail (InvalidValue "length_ind_cap_req" length_ind_cap_req)
  else
    let val := Z.land length_ind_cap_req 0xf in
    match try_from val with
    | Some res_req => mret (mkEndUl fill_bits None (Some res_req))
    | None => fail (InvalidValue "reservation_req" val)
    end.

(** Exactly one of the length indication and the reservation requirement. *)
Definition one_of (reason : string) (length_ind : option Z) (res_req : option ReservationRequirement)
  : unit + PduParseErr :=
  match length_ind, res_req with
  | Some _, Some _ => inr (Inconsistency "length_ind/reservation_req" reason)
  | None, None => inr (FieldNotPresent (Some "length_ind_or_reservation_req"))
  | _, _ => inl tt
  end.

Definition MacEndUl_to_bitbuf (self : MacEndUl) : M unit :=
  match one_of "MAC-END uplink shall contain one length indication or reservation requirement"
          (eu_length_ind self) (eu_reservation_req self) with
  | inr e => fail e
  | inl _ =>
      match eu_length_ind self with
      | Some v => if ((v =? 0) || (0x2e <? v))%Z then fail (InvalidValue "length_ind" v) else mret tt
      | None => mret tt
      end;;
      write_bits 1 2;;
      write_bits 1 1;;
      write_bits (b2z (eu_fill_bits self)) 1;;
      match eu_length_ind self, eu_reservation_req self with
      | Some length_ind, _ => write_bits length_ind 6
      | None, Some res_req => write_bits 3 2;; write_bits (into_raw res_req) 4
      | None, None => mret tt
      end
  end.

Record MacEndHu := mkEndHu {
  eh_fill_bits : bool;
  eh_length_ind : option Z;
  eh_reservation_req : option ReservationRequirement
}.

Definition MacEndHu_from_bitbuf : M MacEndHu :=
  expect_field 1 "mac_pdu_type" 1;;
  fill_bits ← read_flag "fill_bits";
  length_ind_or_cap_req ← read_field 1 "length_ind_or_cap_req";
  if (length_ind_or_cap_req =? 0)%Z then
    len ← read_u8 4 "length_ind";
    if (len =? 0)%Z then fail (InvalidValue "length_ind" len)
    else mret (mkEndHu fill_bits (Some len) None)
  else
    res_req ← read_enum ReservationRequirement 4 "reservation_req";
    mret (mkEndHu fill_bits None (Some res_req)).

Definition MacEndHu_try_to_bitbuf (self : MacEndHu) : M unit :=
  match one_of "MAC-END-HU shall contain only one of length indication or reservation requirement"
          (eh_length_ind self) (eh_reservation_req self) with
  | inr e => fail e
  | inl _ =>
      match eh_length_ind self with
      | Some v => if ((v =? 0) || (0xf <? v))%Z then fail (InvalidValue "length_ind" v) else mret tt
      | None => mret tt
      end;;
      write_bits 1 1;;
      write_bits (b2z (eh_fill_bits self)) 1;;
      match eh_length_ind self, eh_reservation_req self with
      | Some v, _ => write_bits 0 1;; write_bits v 4
      | None, Some res_req => write_bits 1 1;; write_bits (into_raw res_req) 4
      | None, None => mret tt
      end
  end.

Definition MacEndHu_to_bitbuf (self : MacEndHu) : M unit := logged (MacEndHu_try_to_bitbuf self).

(** ** MAC-U-BLCK *)

Record MacUBlck := mkUBlck {
  ub_fill_bits : bool;
  ub_encrypted : bool;
  ub_event_label : Z;
  ub_reservation_req : Z
}.

Definition MacUBlck_from_bitbuf : M MacUBlck :=
  expect_field 2 "mac_pdu_type" 3;;
  expect_field 1 "supp_pdu_subtype" 0;;
  fill_bits ← read_flag "fill_bits";
  encrypted ← read_flag "encrypted";
  event_label ← read_u16 10 "event_label";
  reservation_req ← read_u8 4 "reservation_req";
  mret (mkUBlck fill_bits encrypted event_label reservation_req).

Definition MacUBlck_try_to_bitbuf (self : MacUBlck) : M unit :=
  if (0x3ff <? ub_event_label self)%Z then fail (InvalidValue "event_label" (ub_event_label self)) else
  if (0xf <? ub_reservation_req self)%Z
  then fail (InvalidValue "reservation_req" (ub_reservation_req self)) else
  write_bits 3 2;;
  write_bits 0 1;;
  write_bits (b2z (ub_fill_bits self)) 1;;
  write_bits (b2z (ub_encrypted self)) 1;;
  write_bits (ub_event_label self) 10;;
  write_bits (ub_reservation_req self) 4.

Definition MacUBlck_to_bitbuf (self : MacUBlck) : M unit := logged (MacUBlck_try_to_bitbuf self).

Definition MacUBlck_reservation_requirement (self : MacUBlck) : option ReservationRequirement :=
  if (ub_reservation_req self <=? 13)%Z then try_from (ub_reservation_req self)
  else if (ub_reservation_req self =? 14)%Z then Some ReqOver68
  else None.

(** ** Images *)

(** On the uplink every plain SSI is individual. *)
Definition ul_ssi_type (t : SsiType) : SsiType :=
  match t with Ssi | Gssi => Issi | t => t end.
Definition ul_addr (a : TetraAddress) : TetraAddress := mkAddr (ssi a) (ul_ssi_type (ssi_type a)).

Definition ul_addr_img (addr : option TetraAddress) (event_label : option Z) : list bool :=
  match addr, event_label with
  | Some a, _ =>
      val_bits 2 (match ssi_type a with Ussi => 2 | Smi => 3 | _ => 0 end) ++ val_bits 24 (ssi a)
  | None, Some l => val_bits 2 1 ++ val_bits 10 l
  | None, None => []
  end.

Definition typed_ul (addr : option TetraAddress) (event_label length_ind : option Z) : Prop :=
  (forall a, addr = Some a -> (0 <= ssi a)%Z) /\
  (forall l, event_label = Some l -> (0 <= l)%Z) /\
  (forall v, length_ind = Some v -> (0 <= v)%Z).

Definition access_img (self : MacAccess) : list bool :=
  concat [val_bits 1 0; img_bool (ac_fill_bits self); img_bool (ac_encrypted self);
          ul_addr_img (ac_addr self) (ac_event_label self);
          match ac_length_ind self, ac_frag_flag self, ac_reservation_req self with
          | Some v, _, _ => concat [img_bool true; val_bits 1 0; val_bits 5 v]
          | None, Some f, Some r =>
              concat [img_bool true; val_bits 1 1; img_bool f; val_bits 4 (into_raw r)]
          | _, _, _ => img_bool false
          end].

Definition data_img (self : MacData) : list bool :=
  concat [val_bits 2 0; img_bool (md_fill_bits self); img_bool (md_encrypted self);
          ul_addr_img (md_addr self) (md_event_label self);
          match md_length_ind self, md_frag_flag self, md_reservation_req self with
          | Some v, _, _ => concat [val_bits 1 0; val_bits 6 v]
          | None, Some f, Some r =>
              concat [val_bits 1 1; img_bool f; val_bits 4 (into_raw r); val_bits 1 0]
          | _, _, _ => []
          end].

Definition access_on_air (self : MacAccess) : MacAccess :=
  mkAccess (ac_fill_bits self) (ac_encrypted self) (ul_addr <$> ac_addr self) (ac_event_label self)
    (ac_length_ind self) (ac_frag_flag self) (ac_reservation_req self).

Definition data_on_air (self : MacData) : MacData :=
  mkData (md_fill_bits self) (md_encrypted self) (ul_addr <$> md_addr self) (md_event_label self)
    (md_length_ind self) (md_frag_flag self) (md_reservation_req self).

(** ** Lemmas *)

(** The address types MAC-ACCESS and MAC-DATA can carry. *)
Definition on_uplink (t : SsiType) : Prop :=
  match t with Ssi | Issi | Gssi | Ussi | Smi => True | _ => False end.

(** What a successful address validation establishes. *)
Lemma validate_address_inl reason name enc a l u :
  validate_address reason name enc a l = inl u ->
  (exists x, a = Some x /\ l = None /\ (ssi x <= SSI_MAX)%Z /\ on_uplink (ssi_type x) /\ enc = false)
  \/ (exists y, a = None /\ l = Some y /\ (y <> 0 /\ y <> 0x3ff /\ y <= 0x3ff)%Z).
Proof.
  unfold validate_address. intros H. apply then_inl in H as [[u1 H1] H]. apply then_inl in H as [[u2 H2] H3].
  destruct a as [x|], l as [y|]; try done.
  - left. exists x. destruct (Z.ltb_spec SSI_MAX (ssi x)); [done|].
    destruct (ssi_type x) eqn:E, enc; simplify_eq; split_and!; try done; by rewrite E.
  - right. exists y. unfold EVENT_LABEL_ALL_ONES in *.
    destruct (Z.eqb_spec y 0); [done|]. destruct (Z.eqb_spec y 0x3ff); [done|].
    destruct (Z.ltb_spec 0x3ff y); [done|]. done.
Qed.

Lemma write_ul_address_emits reason name name' enc a l li u :
  validate_address reason name enc a l = inl u -> typed_ul a l li ->
  emits (write_ul_address name' a l) tt (ul_addr_img a l).
Proof.
  intros V (Ta & Tl & _). unfold write_ul_address, ul_addr_img.
  destruct (validate_address_inl _ _ _ _ _ _ V) as [(x & -> & -> & Hx & Hin & _)|(y & -> & -> & Hy)].
  - specialize (Ta x eq_refl). unfold SSI_MAX in Hx.
    destruct (ssi_type x); cbn in Hin; try done;
      (apply emits_bind_tt; apply write_bits_emits; simpl; lia).
  - specialize (Tl y eq_refl). apply emits_bind_tt; apply write_bits_emits; simpl; lia.
Qed.

Lemma read_ul_address_parses reason name enc a l li u names rest :
  validate_address reason name enc a l = inl u -> typed_ul a l li ->
  parses (read_ul_address names) (ul_addr_img a l) rest (ul_addr <$> a, l).
Proof.
  intros V (Ta & Tl & _). unfold read_ul_address, ul_addr_img, read_addr.
  destruct (validate_address_inl _ _ _ _ _ _ V) as [(x & -> & -> & Hx & Hin & _)|(y & -> & -> & Hy)].
  - specialize (Ta x eq_refl). unfold SSI_MAX in Hx. unfold ul_addr.
    destruct x as [s t]. cbn in *. destruct t; cbn in Hin; try done;
      (eapply parses_bind; [apply read_u8_parses; simpl; lia|]); cbn [Z.eqb Pos.eqb];
      rewrite <- (app_nil_r (val_bits 24 s));
      (eapply parses_bind; [apply parses_fmap, read_u32_parses; simpl; lia|]); apply parses_ret.
  - specialize (Tl y eq_refl). eapply parses_bind; [apply read_u8_parses; simpl; lia|]. cbn [Z.eqb Pos.eqb].
    rewrite <- (app_nil_r (val_bits 10 y)). eapply parses_bind; [apply read_u16_parses; simpl; lia|].
    bfalse (y =? 0)%Z. unfold EVENT_LABEL_ALL_ONES. bfalse (y =? 0x3ff)%Z. apply parses_ret.
Qed.

Lemma emits_logged m bs : emits m tt bs -> emits (logged m) tt bs.
Proof.
  intros H b W R. destruct (H b W R) as (b' & E & Wr). exists b'. unfold logged. by rewrite E.
Qed.

Lemma validate_capacity_inl r1 r2 m len frag req inc u :
  validate_capacity r1 r2 m len frag req inc = inl u ->
  (forall v, len = Some v -> (v <= m)%Z) /\ inc = false /\ (len <> None -> frag = None /\ req = None).
Proof.
  unfold validate_capacity. intros H. apply then_inl in H as [[u1 H1] H]. apply then_inl in H as [[u2 H2] H3].
  split_and!; [by eapply bounded_inl|by destruct inc|]. intros Hl.
  destruct len; [|done]. by destruct frag, req.
Qed.

Section access.
Context (self : MacAccess) (u : unit).
Context (V : MacAccess_validate self = inl u).
Context (T : typed_ul (ac_addr self) (ac_event_label self) (ac_length_ind self)).

Lemma access_shape :
  (exists v, ac_length_ind self = Some v /\ ac_frag_flag self = None /\ ac_reservation_req self = None /\ (0 <= v <= 31)%Z)
  \/ (exists f r, ac_length_ind self = None /\ ac_frag_flag self = Some f /\ ac_reservation_req self = Some r)
  \/ (ac_length_ind self = None /\ ac_frag_flag self = None /\ ac_reservation_req self = None).
Proof using V T.
  unfold MacAccess_validate in V. apply then_inl in V as [_ V2].
  apply validate_capacity_inl in V2 as (Hl & Hi & Hx). destruct T as (_ & _ & Tl).
  destruct (ac_length_ind self) as [v|].
  - destruct Hx as [-> ->]; [done|]. left. exists v. split_and!; auto.
  - right. destruct (ac_frag_flag self) as [f|], (ac_reservation_req self) as [r|]; try done;
      [left; by eauto|by right].
Qed.

Lemma access_emits : emits (MacAccess_to_bitbuf self) tt (access_img self).
Proof using V T.
  apply emits_logged. unfold MacAccess_try_to_bitbuf, access_img. rewrite V. cbn [concat]. emit.
  pose proof V as V'. unfold MacAccess_validate in V'. apply then_inl in V' as [[u1 V1] _].
  eapply emits_bind_tt; [by eapply write_ul_address_emits|]. apply emits_app_nil.
  destruct access_shape as [(v & -> & -> & -> & Hv)|[(f & r & -> & -> & ->)|(-> & -> & ->)]]; cbn [concat].
  - change (bool_decide (is_Some (Some v))) with true. cbn [orb]. change (img_bool true) with (val_bits 1 1). emit.
  - cbn. change (img_bool true) with (val_bits 1 1). emit.
  - cbn. change (img_bool false) with (val_bits 1 0). apply write_bits_emits; lia.
Qed.

Lemma access_parses rest : parses MacAccess_from_bitbuf (access_img self) rest (access_on_air self).
Proof using V T.
  unfold MacAccess_from_bitbuf, access_img, access_on_air. cbn [concat]. parse.
  pose proof V as V'. unfold MacAccess_validate in V'. apply then_inl in V' as [[u1 V1] _].
  eapply parses_bind; [by eapply read_ul_address_parses|]. cbv beta iota. apply parses_app_nil.
  destruct access_shape as [(v & -> & -> & -> & Hv)|[(f & r & -> & -> & ->)|(-> & -> & ->)]]; cbn [concat].
  - parse1. cbn [negb]. parse1. cbn [Z.eqb]. parse.
  - parse1. cbn [negb]. parse1. cbn [Z.eqb]. parse1.
    eapply parses_bind; [apply read_enum_parses; [done|lia]|]. apply parses_ret.
  - rewrite <- (app_nil_r (img_bool false)). parse1. apply parses_ret.
Qed.
End access.

Section data.
Context (self : MacData) (u : unit).
Context (V : MacData_validate self = inl u).
Context (T : typed_ul (md_addr self) (md_event_label self) (md_length_ind self)).

Lemma data_shape :
  (exists v, md_length_ind self = Some v /\ md_frag_flag self = None /\ md_reservation_req self = None /\ (0 <= v <= 63)%Z)
  \/ (exists f r, md_length_ind self = None /\ md_frag_flag self = Some f /\ md_reservation_req self = Some r).
Proof using V T.
  unfold MacData_validate in V. apply then_inl in V as [_ V2].
  apply validate_capacity_inl in V2 as (Hl & Hi & Hx). destruct T as (_ & _ & Tl).
  destruct (md_length_ind self) as [v|].
  - destruct Hx as [-> ->]; [done|]. left. exists v. split_and!; auto.
  - right. destruct (md_frag_flag self) as [f|], (md_reservation_req self) as [r|]; try done; eauto.
Qed.

Lemma data_emits : emits (MacData_to_bitbuf self) tt (data_img self).
Proof using V T.
  apply emits_logged. unfold MacData_try_to_bitbuf, data_img. rewrite V. cbn [concat]. emit.
  pose proof V as V'. unfold MacData_validate in V'. apply then_inl in V' as [[u1 V1] _].
  eapply emits_bind_tt; [by eapply write_ul_address_emits|]. apply emits_app_nil.
  destruct data_shape as [(v & E1 & E2 & E3 & Hv)|(f & r & E1 & E2 & E3)];
    rewrite ?E1, ?E2, ?E3; cbn [concat].
  - emit.
  - emit.
Qed.

Lemma data_parses rest : parses MacData_from_bitbuf (data_img self) rest (data_on_air self).
Proof using V T.
  unfold MacData_from_bitbuf, data_img, data_on_air. cbn [concat]. parse.
  pose proof V as V'. unfold MacData_validate in V'. apply then_inl in V' as [[u1 V1] _].
  eapply parses_bind; [by eapply read_ul_address_parses|]. cbv beta iota. apply parses_app_nil.
  destruct data_shape as [(v & E1 & E2 & E3 & Hv)|(f & r & E1 & E2 & E3)];
    rewrite ?E1, ?E2, ?E3; cbn [concat].
  - parse1. cbn [Z.eqb]. parse.
  - parse1. cbn [Z.eqb Pos.eqb]. parse1. eapply parses_bind; [apply read_enum_parses; [done|lia]|].
    eapply parses_bind; [apply read_bits_parses; [done|lia]|apply parses_ret].
Qed.
End data.

Lemma emits_skip {B} (k : unit -> M B) c bs : emits (k tt) c bs -> emits (mret tt ≫= k) c bs.
Proof. intros H. by apply (emits_bind (mret tt) k tt c [] bs); [apply emits_ret|]. Qed.

Definition frag_ul_img (self : MacFragUl) : list bool :=
  concat [val_bits 2 1; val_bits 1 0; img_bool (fu_fill_bits self)].

Definition end_ul_img (self : MacEndUl) : list bool :=
  concat [val_bits 2 1; val_bits 1 1; img_bool (eu_fill_bits self);
          match eu_length_ind self, eu_reservation_req self with
          | Some v, _ => val_bits 6 v
          | None, Some r => val_bits 6 (0x30 + into_raw r)
          | None, None => []
          end].

Definition end_hu_img (self : MacEndHu) : list bool :=
  concat [val_bits 1 1; img_bool (eh_fill_bits self);
          match eh_length_ind self, eh_reservation_req self with
          | Some v, _ => concat [val_bits 1 0; val_bits 4 v]
          | None, Some r => concat [val_bits 1 1; val_bits 4 (into_raw r)]
          | None, None => []
          end].

Definition u_blck_img (self : MacUBlck) : list bool :=
  concat [val_bits 2 3; val_bits 1 0; img_bool (ub_fill_bits self); img_bool (ub_encrypted self);
          val_bits 10 (ub_event_label self); val_bits 4 (ub_reservation_req self)].

(** Exactly one of the two, the length indication within its bound. *)
Definition valid_tail (bound : Z) (length_ind : option Z) (res_req : option ReservationRequirement) : Prop :=
  (exists v, length_ind = Some v /\ res_req = None /\ (1 <= v <= bound)%Z) \/
  (exists r, length_ind = None /\ res_req = Some r).

Lemma end_ul_codec self rest :
  valid_tail 0x2e (eu_length_ind self) (eu_reservation_req self) ->
  emits (MacEndUl_to_bitbuf self) tt (end_ul_img self) /\
  parses MacEndUl_from_bitbuf (end_ul_img self) rest self.
Proof.
  destruct self as [f l r]. unfold MacEndUl_to_bitbuf, MacEndUl_from_bitbuf, end_ul_img.
  intros [(v & El & Er & Hv)|(x & El & Er)]; cbn in El, Er; subst; cbn [concat eu_length_ind eu_reservation_req eu_fill_bits one_of].
  - bfalse (v =? 0)%Z. bfalse (0x2e <? v)%Z. cbn [orb]. split.
    + apply emits_skip. emit.
    + parse. bfalse (v =? 0)%Z. btrue (v <=? 0x2e)%Z.
      replace (u8 v) with v by (unfold u8; rewrite Z.mod_small; [done|lia]). apply parses_ret.
  - split.
    + apply emits_skip. do 3 emit1. apply emits_app_nil.
      assert (val_bits 6 (0x30 + into_raw x) = val_bits 2 3 ++ val_bits 4 (into_raw x)) as ->
        by (by destruct x). apply emits_bind_tt; apply write_bits_emits; try lia; exact (into_raw_bound x).
    + assert (Hb : (0x30 <= 0x30 + into_raw x < 64)%Z) by (destruct x; vm_compute; split; done).
      parse. bfalse (0x30 + into_raw x =? 0)%Z. bfalse (0x30 + into_raw x <=? 0x2e)%Z.
      bfalse (0x30 + into_raw x <? 0x30)%Z.
      replace (try_from (Z.land (0x30 + into_raw x) 0xf)) with (Some x) by (by destruct x).
      apply parses_ret.
Qed.

Lemma end_hu_codec self rest :
  valid_tail 0xf (eh_length_ind self) (eh_reservation_req self) ->
  emits (MacEndHu_to_bitbuf self) tt (end_hu_img self) /\
  parses MacEndHu_from_bitbuf (end_hu_img self) rest self.
Proof.
  destruct self as [f l r]. unfold MacEndHu_to_bitbuf, MacEndHu_try_to_bitbuf, MacEndHu_from_bitbuf, end_hu_img.
  intros [(v & El & Er & Hv)|(x & El & Er)]; cbn in El, Er; subst; cbn [concat eh_length_ind eh_reservation_req eh_fill_bits one_of].
  - bfalse (v =? 0)%Z. bfalse (0xf <? v)%Z. cbn [orb]. split.
    + apply emits_logged, emits_skip. emit.
      apply emits_app_nil. emit.
    + parse. apply parses_app_nil. parse1. cbn [Z.eqb]. parse1. bfalse (v =? 0)%Z. apply parses_ret.
  - split.
    + apply emits_logged, emits_skip. emit.
      apply emits_app_nil. emit.
    + parse. apply parses_app_nil. parse1. cbn [Z.eqb].
      eapply parses_bind; [apply read_enum_parses; [done|lia]|]. apply parses_ret.
Qed.

Lemma u_blck_codec self rest :
  (0 <= ub_event_label self <= 0x3ff)%Z -> (0 <= ub_reservation_req self <= 0xf)%Z ->
  emits (MacUBlck_to_bitbuf self) tt (u_blck_img self) /\
  parses MacUBlck_from_bitbuf (u_blck_img self) rest self.
Proof.
  intros Hl Hr. destruct self as [f e l r]. cbn in Hl, Hr.
  unfold MacUBlck_to_bitbuf, MacUBlck_try_to_bitbuf, MacUBlck_from_bitbuf, u_blck_img.
  cbn [concat ub_fill_bits ub_encrypted ub_event_label ub_reservation_req].
  bfalse (0x3ff <? l)%Z. bfalse (0xf <? r)%Z. split; [apply emits_logged; emit|parse].
Qed.

(** ** Claims *)

(** A header is written as some bits without a panic, and reading them gives it back. *)
Definition roundtrip {X} (put : M unit) (get : M X) (x : X) : Prop :=
  exists bs, emits put tt bs /\ forall rest, parses get bs rest x.

(** Uplink headers round trip.  Every MAC-ACCESS and MAC-DATA header that passes the
    serializer's validation, every MAC-FRAG, and every MAC-END, MAC-END-HU and MAC-U-BLCK
    with one length indication or reservation requirement in range, is written without a
    panic and parsed back; a plain SSI comes back as an individual one. *)
Theorem uplink_headers_roundtrip :
  (forall x u, MacAccess_validate x = inl u -> typed_ul (ac_addr x) (ac_event_label x) (ac_length_ind x) ->
     roundtrip (MacAccess_to_bitbuf x) MacAccess_from_bitbuf (access_on_air x)) /\
  (forall x u, MacData_validate x = inl u -> typed_ul (md_addr x) (md_event_label x) (md_length_ind x) ->
     roundtrip (MacData_to_bitbuf x) MacData_from_bitbuf (data_on_air x)) /\
  (forall x, roundtrip (MacFragUl_to_bitbuf x) MacFragUl_from_bitbuf x) /\
  (forall x, valid_tail 46 (eu_length_ind x) (eu_reservation_req x) ->
     roundtrip (MacEndUl_to_bitbuf x) MacEndUl_from_bitbuf x) /\
  (forall x, valid_tail 15 (eh_length_ind x) (eh_reservation_req x) ->
     roundtrip (MacEndHu_to_bitbuf x) MacEndHu_from_bitbuf x) /\
  (forall x, (0 <= ub_event_label x <= 0x3ff)%Z -> (0 <= ub_reservation_req x <= 15)%Z ->
     roundtrip (MacUBlck_to_bitbuf x) MacUBlck_from_bitbuf x).
Proof.
  split_and!.
  - intros x u V T. exists (access_img x). split; [by eapply access_emits|intros; by eapply access_parses].
  - intros x u V T. exists (data_img x). split; [by eapply data_emits|intros; by eapply data_parses].
  - intros [x]. exists (frag_ul_img (mkFragUl x)). unfold MacFragUl_to_bitbuf, MacFragUl_from_bitbuf, frag_ul_img.
    cbn [concat fu_fill_bits]. split; [emit|intros; parse].
  - intros x V. exists (end_ul_img x). split; [by apply (end_ul_codec x [])|intros; by apply end_ul_codec].
  - intros x V. exists (end_hu_img x). split; [by apply (end_hu_codec x [])|intros; by apply end_hu_codec].
  - intros x V1 V2. exists (u_blck_img x). split; [by apply (u_blck_codec x [])|intros; by apply u_blck_codec].
Qed.
