(* ===== verification/AccessAssign.v ===== *)
(** * ACCESS-ASSIGN and SYNC (crates/tetra-pdus/src/umac)

    The access assignment broadcast in every downlink slot (pdus/access_assign.rs, in
    frame 18 pdus/access_assign_fr18.rs) with its usage markers
    (enums/access_assign_dl_usage.rs, enums/access_assign_ul_usage.rs), and the SYNC PDU
    (pdus/mac_sync.rs) that tells a mobile the time of the cell. *)

From Stdlib Require Import ZArith Lia ZifyNat.
From stdpp Require Import strings.
From S2P Require Import Prelude.
From S2P Require Import BitBuffer.
From S2P Require Import BitBufferFacts.
From S2P Require Import Tdma.
From S2P Require Import Codec.
From S2P Require Import MacFields.
From S2P Require Import MacPdus.
From S2P Require Import UplinkPdus.

(** ** Usage markers *)

Inductive AccessAssignDlUsage :=
  | DlUnallocated | DlAssignedControl | DlCommonControl | DlCommonAndAssigned | DlTraffic (chan : Z).
#[export] Instance DlUsage_eq_dec : EqDecision AccessAssignDlUsage.
Proof. solve_decision. Defined.

Definition dl_from_usage_marker (field : Z) : AccessAssignDlUsage :=
  match field with
  | 0 => DlUnallocated | 1 => DlAssignedControl | 2 => DlCommonControl | 3 => DlCommonAndAssigned
  | _ => DlTraffic field
  end%Z.
Definition dl_to_usage_marker (self : AccessAssignDlUsage) : Z :=
  match self with
  | DlUnallocated => 0 | DlAssignedControl => 1 | DlCommonControl => 2 | DlCommonAndAssigned => 3
  | DlTraffic chan => chan
  end.
Definition dl_is_traffic (self : AccessAssignDlUsage) : bool :=
  match self with DlTraffic _ => true | _ => false end.

Inductive AccessAssignUlUsage :=
  | CommonOnly | CommonAndAssigned | AssignedOnly | Unallocated | Traffic (chan : Z).
#[export] Instance UlUsage_eq_dec : EqDecision AccessAssignUlUsage.
Proof. solve_decision. Defined.

Definition ul_from_usage_marker (field : Z) : option AccessAssignUlUsage :=
  if (field =? 0)%Z then Some Unallocated
  else if (field <? 4)%Z then None else Some (Traffic field).
Definition ul_to_usage_marker (self : AccessAssignUlUsage) : option Z :=
  match self with Unallocated => Some 0%Z | Traffic chan => Some chan | _ => None end.
Definition ul_is_traffic (self : AccessAssignUlUsage) : bool :=
  match self with Traffic _ => true | _ => false end.

Record AccessField := mkAccessField { access_code : Z; base_frame_len : Z }.

(** [AccessField { access_code: (field >> 4) & 0x3, base_frame_len: field & 0xF }] *)
Definition access_field_of (field : Z) : AccessField :=
  mkAccessField (Z.land (Z.shiftr field 4) 0x3) (Z.land field 0xf).

Definition validate_access_field (name : string) (af : AccessField) : unit + PduParseErr :=
  if (0x3 <? access_code af)%Z then inr (InvalidValue name (access_code af))
  else if (0xf <? base_frame_len af)%Z then inr (InvalidValue name (base_frame_len af))
  else inl tt.

Definition write_access_field (af : AccessField) : M unit :=
  write_bits (access_code af) 2;; write_bits (base_frame_len af) 4.

(** [?] on a validation, then the rest. *)
Definition guard (r : unit + PduParseErr) (k : M unit) : M unit :=
  match r with inl _ => k | inr e => fail e end.
(** [let Some(x) = field else { return Err(FieldNotPresent { .. }) }] *)
Definition need {A} (name : string) (o : option A) (k : A -> M unit) : M unit :=
  match o with Some x => k x | None => fail (FieldNotPresent (Some name)) end.

(** ** ACCESS-ASSIGN *)

Record AccessAssign := mkAssign {
  aa_header : Z;
  dl_usage : AccessAssignDlUsage;
  ul_usage : AccessAssignUlUsage;
  f1_af1 : option AccessField;
  f2_af2 : option AccessField;
  f2_af : option AccessField
}.

Definition AccessAssign_from_bitbuf : M AccessAssign :=
  header ← read_u8 2 "_header";
  field1 ← read_u8 6 "field1";
  field2 ← read_u8 6 "field2";
  match header with
  | 0 => mret (mkAssign header DlCommonControl CommonOnly (Some (access_field_of field1))
                 (Some (access_field_of field2)) None)
  | 1 => mret (mkAssign header (dl_from_usage_marker field1) CommonAndAssigned None None
                 (Some (access_field_of field2)))
  | 2 => mret (mkAssign header (dl_from_usage_marker field1) AssignedOnly None None
                 (Some (access_field_of field2)))
  | 3 =>
      match ul_from_usage_marker field2 with
      | Some ul => mret (mkAssign header (dl_from_usage_marker field1) ul None None None)
      | None => fail (InvalidValue "ul_usage" field2)
      end
  | _ => fail (InvalidValue "header" header)
  end%Z.

Definition validate_usage_marker (name : string) (marker : Z) : unit + PduParseErr :=
  if (0x3f <? marker)%Z then inr (InvalidValue name marker) else inl tt.

Definition AccessAssign_try_to_bitbuf (self : AccessAssign) : M unit :=
  let dl := dl_to_usage_marker (dl_usage self) in
  guard (validate_usage_marker "dl_usage" dl) (
  if bool_decide (dl_usage self = DlCommonControl) && bool_decide (ul_usage self = CommonOnly) then
    need "f1_af1" (f1_af1 self) (fun af1 =>
    need "f2_af2" (f2_af2 self) (fun af2 =>
    match f2_af self with
    | Some _ => fail (Inconsistency "f2_af"
        "header 00 uses access field 1 and access field 2, not shared access field")
    | None =>
        guard (validate_access_field "f1_af1" af1) (
        guard (validate_access_field "f2_af2" af2) (
        write_bits 0 2;; write_access_field af1;; write_access_field af2))
    end))
  else if bool_decide (ul_usage self = CommonAndAssigned) then
    need "f2_af" (f2_af self) (fun af =>
    guard (validate_access_field "f2_af" af) (
    write_bits 1 2;; write_bits dl 6;; write_access_field af))
  else if bool_decide (ul_usage self = AssignedOnly) then
    need "f2_af" (f2_af self) (fun af =>
    guard (validate_access_field "f2_af" af) (
    write_bits 2 2;; write_bits dl 6;; write_access_field af))
  else
    match ul_to_usage_marker (ul_usage self) with
    | None => fail (Inconsistency "ul_usage" "header 11 requires an uplink usage marker")
    | Some ul =>
        guard (validate_usage_marker "ul_usage" ul) (
        write_bits 3 2;; write_bits dl 6;; write_bits ul 6)
    end).

Definition AccessAssign_to_bitbuf (self : AccessAssign) : M unit :=
  logged (AccessAssign_try_to_bitbuf self).

(** ** ACCESS-ASSIGN in frame 18 *)

Record AccessAssignFr18 := mkAssign18 {
  h_header : Z;
  h_ul_usage : AccessAssignUlUsage;
  h_f1_af1 : option AccessField;
  h_f1_traf_um : option AccessAssignUlUsage;
  h_f2_af2 : option AccessField;
  h_f2_af : option AccessField
}.

Definition AccessAssignFr18_from_bitbuf : M AccessAssignFr18 :=
  header ← read_u8 2 "_header";
  field1 ← read_u8 6 "field1";
  field2 ← read_u8 6 "field2";
  let pair ul := mkAssign18 header ul (Some (access_field_of field1)) None
                   (Some (access_field_of field2)) None in
  match header with
  | 0 => mret (pair CommonOnly)
  | 1 => mret (pair CommonAndAssigned)
  | 2 => mret (pair AssignedOnly)
  | 3 =>
      match ul_from_usage_marker field1 with
      | None => fail (InvalidValue "ul_usage" field1)
      | Some ul =>
          if negb (ul_is_traffic ul) then fail (InvalidValue "ul_usage" field1)
          else mret (mkAssign18 header ul None None None (Some (access_field_of field2)))
      end
  | _ => fail (InvalidValue "header" header)
  end%Z.

Definition validate_access_field_pair (self : AccessAssignFr18)
  : (AccessField * AccessField) + PduParseErr :=
  match h_f1_af1 self, h_f2_af2 self, h_f2_af self with
  | None, _, _ => inr (FieldNotPresent (Some "f1_af1"))
  | Some _, None, _ => inr (FieldNotPresent (Some "f2_af2"))
  | Some _, Some _, Some _ => inr (Inconsistency "f2_af"
      "frame-18 headers 00/01/10 use access field 1 and access field 2, not shared access field")
  | Some af1, Some af2, None =>
      then_ (validate_access_field "f1_af1" af1) (
      then_ (validate_access_field "f2_af2" af2) (inl (af1, af2)))
  end.

(** Headers 00, 01 and 10. *)
Definition write_pair (self : AccessAssignFr18) (header : Z) : M unit :=
  match validate_access_field_pair self with
  | inr e => fail e
  | inl (af1, af2) => write_bits header 2;; write_access_field af1;; write_access_field af2
  end.

Definition AccessAssignFr18_try_to_bitbuf (self : AccessAssignFr18) : M unit :=
  if bool_decide (h_ul_usage self = CommonOnly) then write_pair self 0
  else if bool_decide (h_ul_usage self = CommonAndAssigned) then write_pair self 1
  else if bool_decide (h_ul_usage self = AssignedOnly) then write_pair self 2
  else if ul_is_traffic (h_ul_usage self) then
    need "f2_af" (h_f2_af self) (fun af =>
    if bool_decide (is_Some (h_f1_af1 self)) || bool_decide (is_Some (h_f2_af2 self))
    then fail (Inconsistency "f1_af1/f2_af2"
           "frame-18 header 11 uses traffic marker plus shared access field")
    else
      guard (validate_access_field "f2_af" af) (
      write_bits 3 2;;
      match ul_to_usage_marker (h_ul_usage self) with
      | None => fail (Inconsistency "ul_usage" "frame-18 header 11 requires a traffic usage marker")
      | Some ul =>
          if (0x3f <? ul)%Z then fail (InvalidValue "ul_usage" ul)
          else write_bits ul 6;; write_access_field af
      end))
  else fail (Inconsistency "ul_usage"
    "frame-18 ACCESS-ASSIGN supports common-only, common-and-assigned, assigned-only, or traffic").

Definition AccessAssignFr18_to_bitbuf (self : AccessAssignFr18) : M unit :=
  logged (AccessAssignFr18_try_to_bitbuf self).

(** ** SYNC *)

Record MacSync := mkSync {
  system_code : Z;
  colour_code : Z;
  sync_time : TdmaTime;
  sharing_mode : Z;
  ts_reserved_frames : Z;
  u_plane_dtx : bool;
  frame_18_ext : bool
}.

(** [assert_warn!] only logs. *)
Definition MacSync_from_bitbuf : M MacSync :=
  system_code ← read_u8 4 "system_code";
  colour_code ← read_u8 6 "colour_code";
  t0 ← read_u8 2 "timeslot_number";
  f ← read_u8 5 "frame_number";
  m ← read_u8 6 "multiframe_number";
  sharing_mode ← read_u8 2 "sharing_mode";
  ts_reserved_frames ← read_u8 3 "ts_reserved_frames";
  u_plane_dtx ← read_flag "u_plane_dtx";
  frame_18_ext ← read_flag "frame_18_ext";
  _ ← read_field 1 "reserved";
  mret (mkSync system_code colour_code (mkTime (t0 + 1) f m 0) sharing_mode ts_reserved_frames
          u_plane_dtx frame_18_ext).

(** [time.t as u64 - 1] panics for timeslot 0. *)
Definition MacSync_to_bitbuf (self : MacSync) : M unit :=
  write_bits (system_code self) 4;;
  write_bits (colour_code self) 6;;
  (if (t (sync_time self) =? 0)%Z then (fun _ => Panic) else write_bits (t (sync_time self) - 1) 2);;
  write_bits (f (sync_time self)) 5;;
  write_bits (m (sync_time self)) 6;;
  write_bits (sharing_mode self) 2;;
  write_bits (ts_reserved_frames self) 3;;
  write_bits (b2z (u_plane_dtx self)) 1;;
  write_bits (b2z (frame_18_ext self)) 1;;
  write_bits 0 1.

(** ** What is on the air *)

Definition af_ok (af : AccessField) : Prop :=
  (0 <= access_code af <= 3)%Z /\ (0 <= base_frame_len af <= 15)%Z.

(** The usage markers that stand for what they say: 0 to 3 are not traffic. *)
Definition dl_ok (u : AccessAssignDlUsage) : Prop :=
  match u with DlTraffic c => (4 <= c <= 63)%Z | _ => True end.

Definition af_val (af : AccessField) : Z := access_code af * 16 + base_frame_len af.

(** The four forms of an access assignment, with their headers and contents. *)
Inductive assign_form : AccessAssign -> Z -> Z -> Z -> Prop :=
  | af_common h af1 af2 : af_ok af1 -> af_ok af2 ->
      assign_form (mkAssign h DlCommonControl CommonOnly (Some af1) (Some af2) None) 0 (af_val af1) (af_val af2)
  | af_both h dl af : dl_ok dl -> af_ok af ->
      assign_form (mkAssign h dl CommonAndAssigned None None (Some af)) 1 (dl_to_usage_marker dl) (af_val af)
  | af_assigned h dl af : dl_ok dl -> af_ok af ->
      assign_form (mkAssign h dl AssignedOnly None None (Some af)) 2 (dl_to_usage_marker dl) (af_val af)
  | af_unallocated h dl : dl_ok dl ->
      assign_form (mkAssign h dl Unallocated None None None) 3 (dl_to_usage_marker dl) 0
  | af_traffic h dl c : dl_ok dl -> (4 <= c <= 63)%Z ->
      assign_form (mkAssign h dl (Traffic c) None None None) 3 (dl_to_usage_marker dl) c.

Inductive assign18_form : AccessAssignFr18 -> Z -> Z -> Z -> Prop :=
  | a18_pair h ul n af1 af2 : (ul, n) ∈ [(CommonOnly, 0%Z); (CommonAndAssigned, 1%Z); (AssignedOnly, 2%Z)] ->
      af_ok af1 -> af_ok af2 ->
      assign18_form (mkAssign18 h ul (Some af1) None (Some af2) None) n (af_val af1) (af_val af2)
  | a18_traffic h c af : (4 <= c <= 63)%Z -> af_ok af ->
      assign18_form (mkAssign18 h (Traffic c) None None None (Some af)) 3 c (af_val af).

Definition with_header (x : AccessAssign) (h : Z) : AccessAssign :=
  mkAssign h (dl_usage x) (ul_usage x) (f1_af1 x) (f2_af2 x) (f2_af x).
Definition with_header18 (x : AccessAssignFr18) (h : Z) : AccessAssignFr18 :=
  mkAssign18 h (h_ul_usage x) (h_f1_af1 x) (h_f1_traf_um x) (h_f2_af2 x) (h_f2_af x).

Definition assign_img (h f1 f2 : Z) : list bool := concat [val_bits 2 h; val_bits 6 f1; val_bits 6 f2].

Lemma af_val_bound af : af_ok af -> (0 <= af_val af < 64)%Z.
Proof. unfold af_ok, af_val. lia. Qed.

Lemma access_field_of_val af : af_ok af -> access_field_of (af_val af) = af.
Proof.
  intros [H1 H2]. destruct af as [a b]. unfold af_val, access_field_of. cbn in *. f_equal.
  - rewrite Z.shiftr_div_pow2 by lia. change (2 ^ 4)%Z with 16%Z.
    rewrite Z.div_add_l, Z.div_small, Z.add_0_r by lia.
    change 3%Z with (Z.ones 2). rewrite Z.land_ones, Z.mod_small by lia. done.
  - change 15%Z with (Z.ones 4). rewrite Z.land_ones by lia. change (2 ^ 4)%Z with 16%Z.
    rewrite Z.add_comm, Z.mod_add, Z.mod_small by lia. done.
Qed.

Lemma val_bits_af af : af_ok af ->
  val_bits 6 (af_val af) = val_bits 2 (access_code af) ++ val_bits 4 (base_frame_len af).
Proof.
  intros [H1 H2]. destruct af as [a b]. unfold af_val. cbn [access_code base_frame_len] in *.
  assert (Ha : (a = 0 \/ a = 1 \/ a = 2 \/ a = 3)%Z) by lia.
  assert (Hb : exists k, k < 16 /\ b = Z.of_nat k) by (exists (Z.to_nat b); lia).
  destruct Hb as (k & Hk & ->).
  do 16 (destruct k as [|k]; [destruct Ha as [-> |[-> |[-> | ->]]]; reflexivity|]). lia.
Qed.

Lemma write_access_field_emits af : af_ok af -> emits (write_access_field af) tt (val_bits 6 (af_val af)).
Proof.
  intros H. rewrite (val_bits_af af H). destruct H as [H1 H2].
  apply emits_bind_tt; apply write_bits_emits; simpl; lia.
Qed.

Lemma validate_access_field_ok name af : af_ok af -> validate_access_field name af = inl tt.
Proof.
  intros [H1 H2]. unfold validate_access_field. bfalse (3 <? access_code af)%Z.
  by bfalse (15 <? base_frame_len af)%Z.
Qed.

Lemma dl_marker_ok dl :
  dl_ok dl -> (0 <= dl_to_usage_marker dl < 64)%Z /\ dl_from_usage_marker (dl_to_usage_marker dl) = dl.
Proof.
  destruct dl as [| | | |c]; cbn; intros H; (split; [lia|]); try done.
  destruct c as [|p|p]; try lia. do 2 (destruct p as [p|p|]; try lia; try done).
Qed.

#[local] Hint Resolve write_access_field_emits : codec.

Lemma validate_marker_ok name v : (0 <= v < 64)%Z -> validate_usage_marker name v = inl tt.
Proof. intros H. unfold validate_usage_marker. by bfalse (0x3f <? v)%Z. Qed.

Lemma assign_emits x h f1 f2 :
  assign_form x h f1 f2 -> emits (AccessAssign_to_bitbuf x) tt (assign_img h f1 f2).
Proof.
  intros F. apply emits_logged. unfold AccessAssign_try_to_bitbuf, assign_img.
  destruct F as [h af1 af2 H1 H2|h dl af Hd H|h dl af Hd H|h dl Hd|h dl c Hd Hc];
    try (destruct (dl_marker_ok dl Hd) as [Hb _]);
    cbn [dl_usage ul_usage f1_af1 f2_af2 f2_af ul_to_usage_marker concat];
    rewrite ?(bool_decide_false (_ = CommonOnly)), ?(bool_decide_true (_ = CommonOnly)), ?andb_false_r by done;
    rewrite ?(bool_decide_true (DlCommonControl = _)), ?(bool_decide_false (_ = CommonAndAssigned)),
      ?(bool_decide_false (_ = AssignedOnly)), ?(bool_decide_true (CommonAndAssigned = _)),
      ?(bool_decide_true (AssignedOnly = _)) by done;
    cbn [andb]; unfold guard, need;
    rewrite ?validate_marker_ok by (simpl; lia); rewrite ?validate_access_field_ok by done; emit.
Qed.

Lemma assign_parses x h f1 f2 rest :
  assign_form x h f1 f2 -> parses AccessAssign_from_bitbuf (assign_img h f1 f2) rest (with_header x h).
Proof.
  intros F. unfold AccessAssign_from_bitbuf, assign_img, with_header.
  destruct F as [h af1 af2 H1 H2|h dl af Hd H|h dl af Hd H|h dl Hd|h dl c Hd Hc];
    try (destruct (dl_marker_ok dl Hd) as [Hb Ed]);
    try (pose proof (af_val_bound _ H)); try (pose proof (af_val_bound _ H1)); try (pose proof (af_val_bound _ H2));
    cbn [concat dl_usage ul_usage f1_af1 f2_af2 f2_af]; parse;
    rewrite ?Ed, ?access_field_of_val by done; try apply parses_ret.
  unfold ul_from_usage_marker. bfalse (c =? 0)%Z. bfalse (c <? 4)%Z. apply parses_ret.
Qed.

Lemma assign18_emits x h f1 f2 :
  assign18_form x h f1 f2 -> emits (AccessAssignFr18_to_bitbuf x) tt (assign_img h f1 f2).
Proof.
  intros F. apply emits_logged. unfold AccessAssignFr18_try_to_bitbuf, assign_img.
  destruct F as [h ul n af1 af2 Hu H1 H2|h c af Hc H]; cbn [h_ul_usage].
  - assert (Hp : (0 <= n < 4)%Z -> emits (write_pair (mkAssign18 h ul (Some af1) None (Some af2) None) n) tt
      (concat [val_bits 2 n; val_bits 6 (af_val af1); val_bits 6 (af_val af2)])).
    { intros Hn. unfold write_pair, validate_access_field_pair. cbn [h_f1_af1 h_f2_af2 h_f2_af].
      rewrite !validate_access_field_ok by done. cbn [then_ concat]. emit. }
    rewrite !elem_of_cons in Hu. destruct Hu as [[= -> ->]|[[= -> ->]|[[= -> ->]|Hu%elem_of_nil]]]; [..|done];
      cbn; apply Hp; lia.
  - cbn. unfold guard, need. rewrite validate_access_field_ok by done. emit1.
    bfalse (0x3f <? c)%Z. emit.
Qed.

Lemma assign18_parses x h f1 f2 rest :
  assign18_form x h f1 f2 -> parses AccessAssignFr18_from_bitbuf (assign_img h f1 f2) rest (with_header18 x h).
Proof.
  intros F. unfold AccessAssignFr18_from_bitbuf, assign_img, with_header18.
  destruct F as [h ul n af1 af2 Hu H1 H2|h c af Hc H]; cbn [concat h_ul_usage h_f1_af1 h_f1_traf_um h_f2_af2 h_f2_af].
  - pose proof (af_val_bound _ H1). pose proof (af_val_bound _ H2). rewrite !elem_of_cons in Hu.
    destruct Hu as [[= -> ->]|[[= -> ->]|[[= -> ->]|Hu%elem_of_nil]]]; [..|done];
      parse; rewrite !access_field_of_val by done; apply parses_ret.
  - pose proof (af_val_bound _ H). parse. unfold ul_from_usage_marker. bfalse (c =? 0)%Z. bfalse (c <? 4)%Z.
    cbn [ul_is_traffic negb]. rewrite access_field_of_val by done. apply parses_ret.
Qed.

Record valid_sync (x : MacSync) : Prop := {
  vy_system : (0 <= system_code x < 16)%Z;
  vy_colour : (0 <= colour_code x < 64)%Z;
  vy_time : is_valid (sync_time x) = true;
  vy_sharing : (0 <= sharing_mode x < 4)%Z;
  vy_reserved : (0 <= ts_reserved_frames x < 8)%Z
}.

Definition sync_img (x : MacSync) : list bool :=
  concat [val_bits 4 (system_code x); val_bits 6 (colour_code x); val_bits 2 (t (sync_time x) - 1);
          val_bits 5 (f (sync_time x)); val_bits 6 (m (sync_time x)); val_bits 2 (sharing_mode x);
          val_bits 3 (ts_reserved_frames x); img_bool (u_plane_dtx x); img_bool (frame_18_ext x);
          val_bits 1 0].

(** The hyperframe is not part of SYNC. *)
Definition sync_on_air (x : MacSync) : MacSync :=
  mkSync (system_code x) (colour_code x) (mkTime (t (sync_time x)) (f (sync_time x)) (m (sync_time x)) 0)
    (sharing_mode x) (ts_reserved_frames x) (u_plane_dtx x) (frame_18_ext x).

Lemma sync_emits x : valid_sync x -> emits (MacSync_to_bitbuf x) tt (sync_img x).
Proof.
  intros [Hs Hc Ht Hm Hr]. unfold is_valid in Ht. rewrite !andb_true_iff, !Z.leb_le in Ht.
  unfold MacSync_to_bitbuf, sync_img. cbn [concat]. emit. bfalse (t (sync_time x) =? 0)%Z. emit.
Qed.

Lemma sync_parses x rest : valid_sync x -> parses MacSync_from_bitbuf (sync_img x) rest (sync_on_air x).
Proof.
  intros [Hs Hc Ht Hm Hr]. unfold is_valid in Ht. rewrite !andb_true_iff, !Z.leb_le in Ht.
  unfold MacSync_from_bitbuf, sync_img, sync_on_air. cbn [concat]. parse.
  replace (t (sync_time x) - 1 + 1)%Z with (t (sync_time x)) by lia. apply parses_ret.
Qed.

(** ** Claims *)

(** ACCESS-ASSIGN round trip: Every access assignment of the four forms of the
    standard (and in frame 18 of the two forms there), with markers in range, is written
    as 14 bits without a panic, and parsing them gives it back with its header number. *)
Lemma access_assign_roundtrip x x18 h f1 f2 h18 g1 g2 :
  assign_form x h f1 f2 -> assign18_form x18 h18 g1 g2 ->
  (exists bs, length bs = 14 /\ emits (AccessAssign_to_bitbuf x) tt bs /\
     forall rest, parses AccessAssign_from_bitbuf bs rest (with_header x h)) /\
  (exists bs, length bs = 14 /\ emits (AccessAssignFr18_to_bitbuf x18) tt bs /\
     forall rest, parses AccessAssignFr18_from_bitbuf bs rest (with_header18 x18 h18)).
Proof.
  intros F G. split.
  - exists (assign_img h f1 f2). split_and!; [done|by apply assign_emits|intros; by eapply assign_parses].
  - exists (assign_img h18 g1 g2). split_and!; [done|by apply assign18_emits|intros; by eapply assign18_parses].
Qed.

