(* ===== verification/Robust.v ===== *)
(** * Parsers never panic

    What the air delivers is arbitrary: these lemmas show that, whatever bits a
    well-formed buffer holds, the MAC header parsers return a header or an error,
    leave the window alone and move the cursor only forward. *)

From Stdlib Require Import ZArith Lia ZifyNat.
From stdpp Require Import strings.
From S2P Require Import Prelude.
From S2P Require Import BitBuffer.
From S2P Require Import BitBufferFacts.
From S2P Require Import Tdma.
From S2P Require Import Codec.
From S2P Require Import MacFields.
From S2P Require Import MacPdus.
From S2P Require Import UplinkPdus.
From S2P Require Import AccessAssign.
From S2P Require Import Sysinfo.

(** Only the cursor moved, forward and within the window. *)
Definition advanced (b b' : BitBuffer) : Prop :=
  exists p, b' = with_pos b p /\ pos b <= p <= end_ b.

Definition robust {A} (m : M A) : Prop :=
  forall b, wf b -> match m b with Ok _ b' | Err _ b' => advanced b b' | Panic => False end.

Lemma advanced_refl b : wf b -> advanced b b.
Proof. intros W. exists (pos b). split; [by destruct b|]. pose proof (wf_pos _ W). lia. Qed.

Lemma advanced_wf b b' : wf b -> advanced b b' -> wf b'.
Proof. intros W (p & -> & Hp). apply wf_with_pos; [done|]. pose proof (wf_start _ W). lia. Qed.

Lemma advanced_trans b b1 b2 : advanced b b1 -> advanced b1 b2 -> advanced b b2.
Proof. intros (p & -> & Hp) (q & -> & Hq). exists q. cbn in *. split; [done|lia]. Qed.

Lemma robust_ret {A} (a : A) : robust (mret a).
Proof. intros b W. by apply advanced_refl. Qed.

Lemma robust_fail {A} e : robust (A := A) (fail e).
Proof. intros b W. by apply advanced_refl. Qed.

Lemma robust_bind {A B} (m : M A) (k : A -> M B) :
  robust m -> (forall a, robust (k a)) -> robust (m ≫= k).
Proof.
  intros Hm Hk b W. specialize (Hm b W). unfold mbind, method_bind.
  destruct (m b) as [a b1|e b1|]; [|done|done].
  specialize (Hk a b1 (advanced_wf _ _ W Hm)).
  destruct (k a b1); [by eapply advanced_trans..|done].
Qed.

Lemma robust_read_bits n : n <= 64 -> robust (read_bits n).
Proof.
  intros Hn b W. destruct (decide (length (remaining b) < n)) as [Hs|Hs].
  - rewrite read_bits_short by done. by apply advanced_refl.
  - rewrite (read_bits_parses n (take n (remaining b)) (drop n (remaining b)));
      [|rewrite length_take; lia|done|done|by rewrite take_drop].
    rewrite length_remaining in Hs. eexists. split; [done|].
    rewrite length_take, length_remaining. pose proof (wf_pos _ W). lia.
Qed.

Lemma robust_read_field n name : n <= 64 -> robust (read_field n name).
Proof.
  intros Hn. apply robust_bind; [by apply robust_read_bits|].
  intros [v|]; [apply robust_ret|apply robust_fail].
Qed.

Lemma robust_read_enum_with {T} (from : Z -> option T) n name : n <= 64 -> robust (read_enum_with from n name).
Proof.
  intros Hn. apply robust_bind; [by apply robust_read_field|]. intros v.
  destruct (from v); [apply robust_ret|apply robust_fail].
Qed.

(** One step of a parser. *)
Ltac robust1 :=
  lazymatch goal with
  | |- robust (mret _) => apply robust_ret
  | |- robust (fail _) => apply robust_fail
  | |- robust (read_bits _) => apply robust_read_bits; lia
  | |- robust (read_field _ _) => apply robust_read_field; lia
  | |- robust (read_enum_with _ _ _) => apply robust_read_enum_with; lia
  | |- robust (read_enum _ _ _) => unfold read_enum
  | |- robust (read_u8 _ _) => unfold read_u8
  | |- robust (read_u16 _ _) => unfold read_u16
  | |- robust (read_u32 _ _) => unfold read_u32
  | |- robust (read_flag _) => unfold read_flag
  | |- robust (expect_field _ _ _) => unfold expect_field
  | |- robust (read_optional _ _) => unfold read_optional
  | |- robust (read_addr _ _) => unfold read_addr
  | |- robust (_ ≫= _) => apply robust_bind; [|intros ?]
  | |- robust (match ?x with _ => _ end) => destruct x
  end.
Ltac robust := repeat (cbv beta zeta; robust1).

Lemma robust_slotgrant : robust BasicSlotgrant_from_bitbuf.
Proof. unfold BasicSlotgrant_from_bitbuf. robust. Qed.

Lemma robust_chan_alloc : robust ChanAllocElement_from_bitbuf.
Proof. unfold ChanAllocElement_from_bitbuf. robust. Qed.

Lemma robust_resource : robust MacResource_from_bitbuf.
Proof.
  unfold MacResource_from_bitbuf, read_address_fields. robust;
    first [apply robust_slotgrant | apply robust_chan_alloc].
Qed.

Lemma robust_frag_dl : robust MacFragDl_from_bitbuf.
Proof. unfold MacFragDl_from_bitbuf. robust. Qed.

Lemma robust_end_dl : robust MacEndDl_from_bitbuf.
Proof. unfold MacEndDl_from_bitbuf. robust; first [apply robust_slotgrant | apply robust_chan_alloc]. Qed.

Lemma robust_access : robust MacAccess_from_bitbuf.
Proof. unfold MacAccess_from_bitbuf, read_ul_address. robust. Qed.

Lemma robust_data : robust MacData_from_bitbuf.
Proof. unfold MacData_from_bitbuf, read_ul_address. robust. Qed.

Lemma robust_frag_ul : robust MacFragUl_from_bitbuf.
Proof. unfold MacFragUl_from_bitbuf. robust. Qed.

Lemma robust_end_ul : robust MacEndUl_from_bitbuf.
Proof. unfold MacEndUl_from_bitbuf. robust. Qed.

Lemma robust_end_hu : robust MacEndHu_from_bitbuf.
Proof. unfold MacEndHu_from_bitbuf. robust. Qed.

Lemma robust_u_blck : robust MacUBlck_from_bitbuf.
Proof. unfold MacUBlck_from_bitbuf. robust. Qed.

Lemma robust_assign : robust AccessAssign_from_bitbuf.
Proof. unfold AccessAssign_from_bitbuf. robust. Qed.

Lemma robust_assign18 : robust AccessAssignFr18_from_bitbuf.
Proof. unfold AccessAssignFr18_from_bitbuf. robust. Qed.

Lemma robust_sync : robust MacSync_from_bitbuf.
Proof. unfold MacSync_from_bitbuf. robust. Qed.

(** ** SYSINFO

    The time sharing options are skipped with [seek_rel(20)], which panics past the end of
    the window: the parser is safe when 82 bits are left. *)

(** Exactly [n] bits are read, or there is an error. *)
Definition consumes {A} (m : M A) (n : nat) : Prop :=
  forall b, wf b ->
    match m b with
    | Ok _ b' => b' = with_pos b (pos b + n) /\ pos b + n <= end_ b
    | Err _ b' => advanced b b'
    | Panic => False
    end.

(** No panic when [n] bits are left. *)
Definition safe_with {A} (n : nat) (m : M A) : Prop :=
  forall b, wf b -> n <= get_len_remaining b -> m b <> Panic.

Lemma consumes_read_field n name : n <= 64 -> consumes (read_field n name) n.
Proof.
  intros Hn b W. pose proof (wf_pos _ W). unfold read_field, mbind, method_bind.
  destruct (decide (length (remaining b) < n)) as [Hs|Hs].
  - rewrite read_bits_short by done. by apply advanced_refl.
  - rewrite (read_bits_parses n (take n (remaining b)) (drop n (remaining b)));
      [|rewrite length_take; lia|done|done|by rewrite take_drop].
    rewrite length_remaining in Hs. cbn.
    replace (length (take n (remaining b))) with n by (rewrite length_take, length_remaining; lia).
    split; [done|lia].
Qed.

Lemma consumes_ret {A} (a : A) : consumes (mret a) 0.
Proof.
  intros b W. cbn. pose proof (wf_pos _ W). rewrite Nat.add_0_r. split; [by destruct b|done].
Qed.

Lemma consumes_bind {A B} (m : M A) (k : A -> M B) n l :
  consumes m n -> (forall a, consumes (k a) l) -> consumes (m ≫= k) (n + l).
Proof.
  intros Hm Hk b W. specialize (Hm b W). unfold mbind, method_bind.
  destruct (m b) as [a b1|e b1|]; [|done|done]. destruct Hm as [-> Hn].
  assert (W1 : wf (with_pos b (pos b + n))) by (apply wf_with_pos; [done|]; pose proof (wf_start _ W); lia).
  assert (A1 : advanced b (with_pos b (pos b + n))) by (eexists; split; [done|lia]).
  specialize (Hk a _ W1). destruct (k a _) as [c b2|e b2|]; [|by eapply advanced_trans|done].
  destruct Hk as [-> Hl]. cbn in *. split; [by rewrite Nat.add_assoc|lia].
Qed.

Lemma consumes_fmap {A B} (m : M A) (g : A -> B) n : consumes m n -> consumes (x ← m; mret (g x)) n.
Proof.
  intros H. rewrite <- (Nat.add_0_r n). apply consumes_bind; [done|intros; apply consumes_ret].
Qed.

Lemma consumes_cck : consumes read_cck_or_hyperframe 17.
Proof.
  apply (consumes_bind _ _ 1 16); [apply consumes_read_field; lia|]. intros v.
  destruct (v =? 1)%Z; apply consumes_fmap, consumes_fmap, consumes_read_field; lia.
Qed.

Lemma safe_robust {A} (m : M A) n : robust m -> safe_with n m.
Proof. intros H b W _ E. specialize (H b W). by rewrite E in H. Qed.

Lemma safe_bind {A B} (m : M A) (k : A -> M B) n l :
  consumes m n -> (forall a, safe_with (l - n) (k a)) -> safe_with l (m ≫= k).
Proof.
  intros Hm Hk b W Hl. specialize (Hm b W). unfold mbind, method_bind.
  destruct (m b) as [a b1|e b1|]; [|done|done]. destruct Hm as [-> Hn].
  pose proof (wf_start _ W). apply Hk; [apply wf_with_pos; [done|lia]|].
  unfold get_len_remaining in *. cbn. lia.
Qed.

Lemma consumes_read_enum_with {T} (from : Z -> option T) n name :
  n <= 64 -> consumes (read_enum_with from n name) n.
Proof.
  intros Hn b W. pose proof (consumes_read_field n name Hn b W) as H.
  unfold read_enum_with, mbind, method_bind. destruct (read_field n name b) as [v b1|e b1|]; [|done|done].
  destruct (from v); [done|]. cbn. destruct H as [-> H]. eexists. split; [done|]. lia.
Qed.

Lemma seek_rel_safe n : safe_with n (seek_rel (Z.of_nat n)).
Proof.
  intros b W Hn. unfold seek_rel, get_len_remaining in *. pose proof (wf_pos _ W). pose proof (wf_start _ W).
  btrue (Z.of_nat (start b) <=? Z.of_nat (pos b) + Z.of_nat n)%Z.
  by btrue (Z.of_nat (pos b) + Z.of_nat n <=? Z.of_nat (end_ b))%Z.
Qed.

Lemma robust_access_code : robust AccessCodeA_from_bitbuf.
Proof. unfold AccessCodeA_from_bitbuf. robust. Qed.

Lemma robust_ext_services aie : robust (ExtServices_from_bitbuf aie).
Proof. unfold ExtServices_from_bitbuf, read_classes, read_security. robust. Qed.

(** A panic of a bind whose tail cannot panic is a panic of its head. *)
Lemma safe_head {A B} (m : M A) (k : A -> M B) n :
  safe_with n m -> (forall a b, k a b <> Panic) -> safe_with n (m ≫= k).
Proof.
  intros Hm Hk b W Hn. specialize (Hm b W Hn). unfold mbind, method_bind.
  destruct (m b); [apply Hk|done|done].
Qed.

Lemma safe_option_field flag : safe_with 20 (read_option_field flag).
Proof.
  destruct flag; unfold read_option_field.
  1,2: apply safe_head; [apply (seek_rel_safe 20)|done].
  - apply safe_robust. robust. apply robust_access_code.
  - apply safe_robust. robust. apply robust_ext_services.
Qed.

Lemma safe_sysinfo : safe_with 82 MacSysinfo_from_bitbuf.
Proof.
  unfold MacSysinfo_from_bitbuf, read_flag, read_u8, read_u16.
  do 12 (eapply safe_bind; [first [apply consumes_read_field; lia|apply consumes_fmap, consumes_read_field; lia]|intros ?]).
  eapply safe_bind; [apply consumes_cck|intros [cck hf]].
  eapply safe_bind; [apply consumes_read_enum_with; lia|intros flag].
  apply safe_head; [apply safe_option_field|by intros [] b].
Qed.

(** Like [robust], but the parser may panic. *)
Definition tame {A} (m : M A) : Prop :=
  forall b, wf b -> match m b with Ok _ b' | Err _ b' => advanced b b' | Panic => True end.

Lemma tame_robust {A} (m : M A) : robust m -> tame m.
Proof. intros H b W. specialize (H b W). by destruct (m b). Qed.

Lemma tame_bind {A B} (m : M A) (k : A -> M B) : tame m -> (forall a, tame (k a)) -> tame (m ≫= k).
Proof.
  intros Hm Hk b W. specialize (Hm b W). unfold mbind, method_bind.
  destruct (m b) as [a b1|e b1|]; [|done|done].
  specialize (Hk a b1 (advanced_wf _ _ W Hm)).
  destruct (k a b1); [by eapply advanced_trans..|done].
Qed.

Lemma tame_seek_rel n : tame (seek_rel (Z.of_nat n)).
Proof.
  intros b W. unfold seek_rel. destruct (Z.leb_spec (Z.of_nat (start b)) (Z.of_nat (pos b) + Z.of_nat n)); [|done].
  destruct (Z.leb_spec (Z.of_nat (pos b) + Z.of_nat n) (Z.of_nat (end_ b))); [|done]. cbn.
  eexists. split; [done|]. lia.
Qed.

Lemma tame_option_field flag : tame (read_option_field flag).
Proof.
  destruct flag; unfold read_option_field.
  1,2: apply tame_bind; [apply (tame_seek_rel 20)|intros; apply tame_robust, robust_ret].
  - apply tame_robust. robust. apply robust_access_code.
  - apply tame_robust. robust. apply robust_ext_services.
Qed.

Lemma tame_sysinfo : tame MacSysinfo_from_bitbuf.
Proof.
  unfold MacSysinfo_from_bitbuf. do 12 (apply tame_bind; [apply tame_robust; robust|intros ?]).
  apply tame_bind; [apply tame_robust; unfold read_cck_or_hyperframe; robust|intros [cck hf]].
  apply tame_bind; [apply tame_robust; robust|intros flag].
  apply tame_bind; [apply tame_option_field|intros []; apply tame_robust, robust_ret].
Qed.

(** ** Claims *)

(** C38 (header parsers never panic).  Whatever bits were received, the parsers of the
    downlink and uplink MAC headers, of the access assignment and of SYNC return a header
    or an error, and only move the cursor forward inside the window; the SYSINFO parser
    does not panic when its 82 bits are there. *)
Theorem header_parsers_robust :
  (robust MacResource_from_bitbuf /\ robust MacFragDl_from_bitbuf /\ robust MacEndDl_from_bitbuf) /\
  (robust MacAccess_from_bitbuf /\ robust MacData_from_bitbuf /\ robust MacFragUl_from_bitbuf /\
   robust MacEndUl_from_bitbuf /\ robust MacEndHu_from_bitbuf /\ robust MacUBlck_from_bitbuf) /\
  (robust AccessAssign_from_bitbuf /\ robust AccessAssignFr18_from_bitbuf /\ robust MacSync_from_bitbuf) /\
  safe_with 82 MacSysinfo_from_bitbuf.
Proof.
  repeat split; first [apply robust_resource | apply robust_frag_dl | apply robust_end_dl
    | apply robust_access | apply robust_data | apply robust_frag_ul | apply robust_end_ul
    | apply robust_end_hu | apply robust_u_blck | apply robust_assign | apply robust_assign18
    | apply robust_sync | apply safe_sysinfo].
Qed.
