(* ===== verification/UmacMs.v ===== *)
(** * The mobile's upper MAC (crates/tetra-entities/src/umac/umac_ms.rs)

    The receive path: a MAC block from the lower MAC is taken apart PDU by PDU, SDUs go to
    the LLC, fragments into the defragmenter, broadcast information to the MLE.  Handlers
    return [None] for a panic; the [BitBuffer] of the received primitive is threaded
    through, since the loop decides on its window whether another PDU follows.  Log output
    and the fields of primitives that are constants in the source are left out. *)

From Stdlib Require Import ZArith Lia ZifyNat.
From stdpp Require Import gmap strings.
From S2P Require Import Prelude.
From S2P Require Import BitBuffer.
From S2P Require Import BitBufferFacts.
From S2P Require Import ErrorControl.
From S2P Require Import Tdma.
From S2P Require Import Codec.
From S2P Require Import MacFields.
From S2P Require Import MacPdus.
From S2P Require Import Fillbits.
From S2P Require Import Defrag.
From S2P Require Import UplinkPdus.
From S2P Require Import AccessAssign.
From S2P Require Import Sysinfo.
From S2P Require Import TxReceipt.
From S2P Require Import Frag.
From S2P Require Import Robust.

(** ** State and primitives *)

Record UmacMs := mkUmacMs {
  dltime : TdmaTime;
  defrag : MsDefrag;
  mcc : option Z;
  mnc : option Z;
  cc : option Z;
  u_scrambling_code : option Z
}.

Definition UmacMs_new : UmacMs := mkUmacMs TdmaTime_default MsDefrag_new None None None None.

Definition with_defrag (self : UmacMs) (d : MsDefrag) : UmacMs :=
  mkUmacMs (dltime self) d (mcc self) (mnc self) (cc self) (u_scrambling_code self).

Inductive PhyBlockNum := BlkBoth | Block1 | Block2 | Undefined.
#[export] Instance PhyBlockNum_eq_dec : EqDecision PhyBlockNum.
Proof. solve_decision. Defined.

(** TMV-UNITDATA indication *)
Record TmvUnitdataInd := mkTmvInd {
  i_pdu : BitBuffer;
  i_block_num : PhyBlockNum;
  i_logical_channel : LogicalChannel;
  i_scrambling_code : Z
}.

(** Messages to the LLC, the MLE and the lower MAC. *)
Inductive SapMsg :=
  | TmaUnitdataInd (pdu : BitBuffer) (main_address : TetraAddress) (scrambling_code : Z)
      (air_interface_encryption : Z)
  | TlmbSysinfoInd (tl_sdu : BitBuffer)
  | TlmbSyncInd (tl_sdu : BitBuffer)
  | TmvConfigureTime (time : TdmaTime)
  | TmvConfigureScrambling (scrambling_code : option Z)
  | TmvConfigureTraffic (is_traffic : bool)
  | TmvUnitdataReqMsg (ts : TdmaTime) (mac_block : BitBuffer) (logical_channel : LogicalChannel)
      (scrambling_code : Z)
  | TmaReportSuccessRandomAccess (req_handle : Z).

(** State, pushed messages and what is left of the block. *)
Abbreviation handled := (option (UmacMs * list SapMsg * BitBuffer)).

(** A parser's result: [Ok] continues, [Err] leaves the handler with the cursor moved. *)
Definition parsed {A} (m : M A) (b : BitBuffer) (self : UmacMs) (k : A -> BitBuffer -> handled) : handled :=
  match m b with
  | Ok x b' => k x b'
  | Err _ b' => Some (self, [], b')
  | Panic => None
  end.

(** ** SYSINFO *)

Inductive BroadcastType := BcSysinfo | BcAccessDefine | BcSysinfoDa.

Definition BroadcastType_try_from (x : Z) : option BroadcastType :=
  match x with 0 => Some BcSysinfo | 1 => Some BcAccessDefine | 2 => Some BcSysinfoDa | _ => None end%Z.

Definition rx_broadcast_sysinfo (self : UmacMs) (pdu : BitBuffer) : handled :=
  parsed MacSysinfo_from_bitbuf pdu self (fun si pdu =>
  let time_update :=
    match hyperframe_number si with
    | Some hf =>
        if negb (hf =? h (dltime self))%Z
        then [TmvConfigureTime (mkTime (t (dltime self)) (f (dltime self)) (m (dltime self)) hf)]
        else []
    | None => []
    end in
  tlsdu ← from_bitbuffer_pos pdu;
  Some (self, time_update ++ [TlmbSysinfoInd tlsdu], pdu)).

Definition rx_broadcast (self : UmacMs) (pdu : BitBuffer) : handled :=
  ty ← mjoin (peek_bits pdu 2);
  _ ← assert_ (ty =? into_raw Broadcast)%Z;
  bits ← mjoin (peek_bits_posoffset pdu 2 2);
  bcast_type ← BroadcastType_try_from bits;
  match bcast_type with
  | BcSysinfo => rx_broadcast_sysinfo self pdu
  | _ => Some (self, [], pdu)
  end.

(** ** MAC-RESOURCE, MAC-FRAG and MAC-END *)

(** [set_raw_end(start + len)] on the received block; [None] is its assertion. *)
Definition cut (pdu : BitBuffer) (len : nat) : option BitBuffer :=
  '(_, pdu) ← run (set_raw_end (start pdu + len)) pdu; Some pdu.

(** [set_raw_end(orig_end); set_raw_pos(start + len); set_raw_start(pos)]: the window moves
    on to the next PDU. *)
Definition next_pdu (pdu : BitBuffer) (orig_end len : nat) : option BitBuffer :=
  '(_, pdu) ← run (set_raw_end orig_end) pdu;
  '(_, pdu) ← run (set_raw_pos (start pdu + len)) pdu;
  '(_, pdu) ← run (set_raw_start (pos pdu)) pdu;
  Some pdu.

(** [if pdu.fill_bits { get_num_fill_bits(..) } else { 0 }] *)
Definition num_fill (fill_bits : bool) (pdu : BitBuffer) (len : nat) : option nat :=
  if fill_bits then get_num_fill_bits pdu len else Some 0.

Definition resource_len (length_ind : Z) (block_len : nat) : option nat :=
  if ((1 <=? length_ind) && (length_ind <? 0x3a))%Z then Some (Z.to_nat length_ind * 8)
  else if (length_ind =? 0x3e)%Z then Some block_len
  else if (length_ind =? 0x3f)%Z then Some block_len
  else None.

Definition rx_mac_resource (self : UmacMs) (scrambling_code : Z) (pdu : BitBuffer) : handled :=
  _ ← assert_ (get_pos pdu =? 0);
  parsed MacResource_from_bitbuf pdu self (fun r pdu =>
  match resource_len (length_ind r) (get_len pdu) with
  | None => Some (self, [], pdu)
  | Some pdu_len_bits =>
      if get_len pdu <? pdu_len_bits then Some (self, [], pdu) else
      num_fill_bits ← num_fill (fill_bits r) pdu pdu_len_bits;
      pdu_len_bits ← usub pdu_len_bits num_fill_bits;
      let orig_end := end_ pdu in
      pdu ← cut pdu pdu_len_bits;
      match addr r with
      | None => Some (self, [], pdu)
      | Some address =>
          if (0 <? encryption_mode r)%Z then Some (self, [], pdu) else
          '(self, msgs, pdu) ←
            (if (length_ind r =? 0x3f)%Z then
               '(d, pdu) ← ms_insert_first (defrag self) pdu (dltime self) address None;
               Some (with_defrag self d, [], pdu)
             else if (length_ind r =? 0x3e)%Z then Some (self, [], pdu)
             else if (length_ind r =? 0)%Z || (get_len_remaining pdu =? 0) then Some (self, [], pdu)
             else
               sdu ← from_bitbuffer_pos pdu;
               Some (self, [TmaUnitdataInd sdu address scrambling_code (encryption_mode r)], pdu));
          pdu ← next_pdu pdu orig_end (pdu_len_bits + num_fill_bits);
          Some (self, msgs, pdu)
      end
  end).

Definition rx_mac_frag (self : UmacMs) (pdu : BitBuffer) : handled :=
  _ ← assert_ (get_pos pdu =? 0);
  parsed MacFragDl_from_bitbuf pdu self (fun fr pdu =>
  let pdu_len_bits := get_len pdu in
  num_fill_bits ← num_fill (fr_fill_bits fr) pdu pdu_len_bits;
  pdu_len_bits ← usub pdu_len_bits num_fill_bits;
  pdu ← cut pdu pdu_len_bits;
  buf ← ms_buffers (defrag self) !! ts_index (dltime self);
  match aie_info buf with
  | Some _ => Some (self, [], pdu)
  | None =>
      '(d, pdu) ← ms_insert_next (defrag self) pdu (dltime self);
      Some (with_defrag self d, [], pdu)
  end).

Definition rx_mac_end (self : UmacMs) (scrambling_code : Z) (pdu : BitBuffer) : handled :=
  _ ← assert_ (get_pos pdu =? 0);
  parsed MacEndDl_from_bitbuf pdu self (fun e pdu =>
  let pdu_len_bits := Z.to_nat (en_length_ind e) * 8 in
  if get_len pdu <? pdu_len_bits then Some (self, [], pdu) else
  num_fill_bits ← num_fill (en_fill_bits e) pdu pdu_len_bits;
  pdu_len_bits ← usub pdu_len_bits num_fill_bits;
  let orig_end := end_ pdu in
  pdu ← cut pdu pdu_len_bits;
  buf ← ms_buffers (defrag self) !! ts_index (dltime self);
  match aie_info buf with
  | Some _ => Some (self, [], pdu)
  | None =>
      '(d, pdu) ← ms_insert_last (defrag self) pdu (dltime self);
      '(defragbuf, d) ← take_defragged_buf d (dltime self);
      let self := with_defrag self d in
      match defragbuf with
      | None => Some (self, [], pdu)
      | Some defragbuf =>
          pdu ← next_pdu pdu orig_end (pdu_len_bits + num_fill_bits);
          Some (self, [TmaUnitdataInd (d_buffer defragbuf) (d_addr defragbuf) scrambling_code 0], pdu)
      end
  end).

(** [rx_usignal] and [rx_supp] drop the PDU. *)
Definition rx_usignal (self : UmacMs) (pdu : BitBuffer) : handled := Some (self, [], pdu).
Definition rx_supp (self : UmacMs) (pdu : BitBuffer) : handled := Some (self, [], pdu).

(** ** The loop over a block *)

(** One iteration; [None] inside the result ends the loop without a PDU being handled. *)
Definition rx_tmv_pdu (self : UmacMs) (prim : TmvUnitdataInd) (pdu : BitBuffer)
  : option (option (UmacMs * list SapMsg * BitBuffer)) :=
  peeked ← peek_bits pdu 3;
  match peeked with
  | None => Some None
  | Some bits =>
      match MacPduType_try_from (Z.shiftr bits 1) with
      | None => Some None
      | Some MacResourceMacData => Some <$> rx_mac_resource self (i_scrambling_code prim) pdu
      | Some MacFragMacEnd =>
          if (Z.land bits 1 =? 0)%Z then Some <$> rx_mac_frag self pdu
          else Some <$> rx_mac_end self (i_scrambling_code prim) pdu
      | Some Broadcast => Some <$> rx_broadcast self pdu
      | Some SuppMacUSignal =>
          if bool_decide (i_logical_channel prim = Stch) then Some <$> rx_usignal self pdu
          else Some <$> rx_supp self pdu
      end
  end.

Definition prepend (msgs : list SapMsg) (r : option (UmacMs * list SapMsg)) : option (UmacMs * list SapMsg) :=
  match r with Some (self, more) => Some (self, msgs ++ more) | None => None end.

(** The outer [option] is a panic, the inner one the fuel running out. *)
Fixpoint rx_tmv_sch_loop (fuel : nat) (self : UmacMs) (prim : TmvUnitdataInd) (pdu : BitBuffer)
  : option (option (UmacMs * list SapMsg)) :=
  match fuel with
  | 0 => Some None
  | S fuel =>
      step ← rx_tmv_pdu self prim pdu;
      match step with
      | None => Some (Some (self, []))
      | Some (self, msgs, pdu') =>
          if negb (start pdu' =? start pdu) && (16 <=? get_len pdu') then
            rest ← rx_tmv_sch_loop fuel self prim pdu';
            Some (prepend msgs rest)
          else Some (Some (self, msgs))
      end
  end.

(** Each further iteration works on a shorter window, see [rx_tmv_sch_loop_enough]. *)
Definition rx_tmv_sch (self : UmacMs) (prim : TmvUnitdataInd) : option (option (UmacMs * list SapMsg)) :=
  rx_tmv_sch_loop (S (get_len (i_pdu prim))) self prim (i_pdu prim).

Definition rx_tmv_aach (self : UmacMs) (pdu : BitBuffer) : option (list SapMsg) :=
  if negb (f (dltime self) =? 18)%Z then
    match AccessAssign_from_bitbuf pdu with
    | Ok aa _ => Some [TmvConfigureTraffic (dl_is_traffic (dl_usage aa))]
    | Err _ _ => Some []
    | Panic => None
    end
  else
    match AccessAssignFr18_from_bitbuf pdu with
    | Ok _ _ => Some [TmvConfigureTraffic false]
    | Err _ _ => Some []
    | Panic => None
    end.

(** The scrambling code of the cell, once MCC, MNC and colour code are known. *)
Definition update_scrambing_and_submit_to_lmac (self : UmacMs) : UmacMs * list SapMsg :=
  match mcc self, mnc self, cc self with
  | Some mcc', Some mnc', Some cc' =>
      let code := Some (Z.lor (u32 (Z.shiftl (Z.lor (Z.lor cc' (u32 (Z.shiftl mnc' 6)))
                                                (u32 (Z.shiftl mcc' 20))) 2)) 3) in
      (mkUmacMs (dltime self) (defrag self) (mcc self) (mnc self) (cc self) code,
       [TmvConfigureScrambling code])
  | _, _, _ => (self, [])
  end.

Definition rx_tmv_bsch (self : UmacMs) (pdu : BitBuffer) : option (UmacMs * list SapMsg) :=
  match MacSync_from_bitbuf pdu with
  | Panic => None
  | Err _ _ => Some (self, [])
  | Ok sync pdu =>
      let self := mkUmacMs (sync_time sync) (defrag self) (mcc self) (mnc self)
                    (Some (colour_code sync)) (u_scrambling_code self) in
      let '(self, msgs) := update_scrambing_and_submit_to_lmac self in
      tlsdu ← from_bitbuffer_pos pdu;
      Some (self, [TmvConfigureTime (sync_time sync)] ++ msgs ++ [TlmbSyncInd tlsdu])
  end.

(** [None] also for the [unreachable!] on other channels and for a wrong block number. *)
Definition rx_tmv_unitdata_ind (self : UmacMs) (prim : TmvUnitdataInd)
  : option (option (UmacMs * list SapMsg)) :=
  match i_logical_channel prim with
  | Aach => msgs ← rx_tmv_aach self (i_pdu prim); Some (Some (self, msgs))
  | Bsch => r ← rx_tmv_bsch self (i_pdu prim); Some (Some r)
  | SchF =>
      _ ← assert_ (bool_decide (i_block_num prim = BlkBoth));
      rx_tmv_sch self prim
  | Bnch | Stch | SchHd =>
      _ ← assert_ (bool_decide (i_block_num prim = Block1) || bool_decide (i_block_num prim = Block2));
      rx_tmv_sch self prim
  | _ => None
  end.

(** TLMC-CONFIGURE: the addresses of the network. *)
Definition rx_tlmc_configure_req (self : UmacMs) (valid_addresses : option (Z * Z)) : UmacMs * list SapMsg :=
  match valid_addresses with
  | Some (mcc', mnc') =>
      update_scrambing_and_submit_to_lmac
        (mkUmacMs (dltime self) (defrag self) (Some mcc') (Some mnc') (cc self) (u_scrambling_code self))
  | None => (self, [])
  end.

(** ** Random access *)

Definition SCH_HU_TYPE1_CAP_BITS : nat := 92.

(** TMA-UNITDATA request *)
Record TmaUnitdataReq := mkTmaReq {
  q_req_handle : Z;
  q_pdu : BitBuffer;
  q_main_address : TetraAddress;
  q_air_interface_encryption : option Z;
  q_tx_reporter : option TxReporter
}.

(** [if let Some(r) = prim.tx_reporter { r.mark_..() }]; [mark] panics in a wrong state. *)
Definition report (mark_it : TxReporter -> store -> option store) (r : option TxReporter) (heap : store)
  : option store :=
  match r with Some r => mark_it r heap | None => Some heap end.

Definition rx_tma_unitdata_req (self : UmacMs) (prim : TmaUnitdataReq) (heap : store)
  : option (list SapMsg * store) :=
  let drop := heap ← report mark_discarded (q_tx_reporter prim) heap; Some ([], heap) in
  if negb (default 0%Z (q_air_interface_encryption prim) =? 0)%Z then drop else
  if negb (bool_decide (ssi_type (q_main_address prim) = Issi)
           || bool_decide (ssi_type (q_main_address prim) = Ssi)) then drop else
  let sdu_len := get_len (q_pdu prim) in
  let mac_access := mkAccess false false (Some (q_main_address prim)) None None None None in
  '(_, header_probe) ← run (MacAccess_to_bitbuf mac_access) (new_autoexpand 32);
  let header_len := get_len_written header_probe in
  if SCH_HU_TYPE1_CAP_BITS <? header_len + sdu_len then drop else
  let fill_bits := SCH_HU_TYPE1_CAP_BITS - header_len - sdu_len in
  let mac_access := mkAccess (0 <? fill_bits) false (Some (q_main_address prim)) None None None None in
  '(_, sdu) ← run (seek 0) (q_pdu prim);
  '(mac_block, _) ← write_pdu (MacAccess_to_bitbuf mac_access) sdu_len fill_bits
                      (new SCH_HU_TYPE1_CAP_BITS) sdu;
  '(_, mac_block) ← run (seek 0) mac_block;
  heap ← report mark_transmitted (q_tx_reporter prim) heap;
  Some ([TmvUnitdataReqMsg (dltime self) mac_block SchHu (default 0%Z (u_scrambling_code self));
         TmaReportSuccessRandomAccess (q_req_handle prim)], heap).

(** ** The window of a PDU *)

(** After the header: [hl] header bits are read, then come the SDU, the fill bits and the
    rest of the block. *)
Record framed (pdu : BitBuffer) (hl : nat) (bs : list bool) (n : nat) (rest : list bool) : Prop := {
  fm_wf : wf pdu;
  fm_pos : pos pdu = start pdu + hl;
  fm_bits : remaining pdu = bs ++ fill n ++ rest
}.

Lemma framed_end pdu hl bs n rest :
  framed pdu hl bs n rest -> end_ pdu = start pdu + hl + length bs + n + length rest.
Proof.
  intros [W P E]. pose proof (length_remaining pdu) as H. rewrite E, !length_app, length_fill in H.
  pose proof (wf_pos _ W). lia.
Qed.

Lemma framed_fill pdu hl bs n rest :
  framed pdu hl bs n rest -> num_fill (0 <? n) pdu (hl + length bs + n) = Some n.
Proof.
  intros F. pose proof (framed_end _ _ _ _ _ F) as He. destruct F as [W P E]. unfold num_fill.
  destruct (Nat.ltb_spec 0 n) as [Hn|Hn]; [|by replace n with 0 by lia].
  apply (get_num_fill_bits_fill pdu _ bs n W); [lia|done|].
  replace (start pdu + (hl + length bs + n) - pos pdu) with (length (bs ++ fill n))
    by (rewrite length_app, length_fill; lia).
  unfold remaining in E. rewrite app_assoc in E.
  rewrite <- (take_getbits _ _ (end_ pdu - pos pdu)), E, take_app_length; [done|].
  rewrite length_app, length_fill. lia.
Qed.

(** The window cut down to header and SDU. *)
Definition sdu_window (pdu : BitBuffer) (len : nat) : BitBuffer :=
  mkBitBuffer (buffer pdu) (start pdu) (pos pdu) (start pdu + len) (flag_autoexpand pdu).

Lemma framed_cut pdu hl bs n rest :
  framed pdu hl bs n rest ->
  cut pdu (hl + length bs) = Some (sdu_window pdu (hl + length bs)) /\
  wf (sdu_window pdu (hl + length bs)) /\ remaining (sdu_window pdu (hl + length bs)) = bs.
Proof.
  intros F. pose proof (framed_end _ _ _ _ _ F) as He. destruct F as [W P E]. pose proof W as [Wb Ws Wp We].
  split; [|split].
  - unfold cut, run, set_raw_end. btrue (start pdu + (hl + length bs) <=? length (buffer pdu) * 8).
    btrue (start pdu <=? start pdu + (hl + length bs)). by btrue (pos pdu <=? start pdu + (hl + length bs)).
  - split; cbn; try done; lia.
  - unfold remaining in *. cbn. replace (start pdu + (hl + length bs) - pos pdu) with (length bs) by lia.
    rewrite <- (take_getbits _ _ (end_ pdu - pos pdu)), E, take_app_length by lia. done.
Qed.

Lemma next_pdu_spec pdu orig len :
  wf pdu -> end_ pdu <= orig -> start pdu + len <= orig -> orig <= 8 * length (buffer pdu) ->
  next_pdu pdu orig len
  = Some (mkBitBuffer (buffer pdu) (start pdu + len) (start pdu + len) orig (flag_autoexpand pdu)).
Proof.
  intros [Wb Ws Wp We] H1 H2 H3. unfold next_pdu, run, set_raw_end.
  btrue (orig <=? length (buffer pdu) * 8). btrue (start pdu <=? orig). btrue (pos pdu <=? orig).
  cbn [andb]. rewrite bind_Some. unfold set_raw_pos. cbn [start end_].
  btrue (start pdu <=? start pdu + len). btrue (start pdu + len <=? orig). cbn [andb].
  rewrite bind_Some. unfold set_raw_start. cbn [start end_ pos with_pos].
  btrue (start pdu + len <=? orig). by btrue (start pdu + len <=? start pdu + len).
Qed.

(** The block after a PDU of [len] bits. *)
Definition after_pdu (pdu : BitBuffer) (len : nat) : BitBuffer :=
  mkBitBuffer (buffer pdu) (start pdu + len) (start pdu + len) (end_ pdu) (flag_autoexpand pdu).

Lemma after_pdu_remaining pdu bs rest :
  wf pdu -> pos pdu = start pdu -> remaining pdu = bs ++ rest ->
  wf (after_pdu pdu (length bs)) /\ remaining (after_pdu pdu (length bs)) = rest.
Proof.
  intros W P E. destruct (parses_advance pdu bs rest W E) as ([Wb Ws Wp We] & R & Hl).
  split; [split; cbn in *; try done; lia|]. rewrite <- R. unfold remaining. cbn. by rewrite P.
Qed.

(** Reading a header of [himg] from the start of a block. *)
Lemma framed_header pdu himg bs n rest :
  wf pdu -> pos pdu = start pdu -> remaining pdu = himg ++ bs ++ fill n ++ rest ->
  framed (with_pos pdu (pos pdu + length himg)) (length himg) bs n rest.
Proof.
  intros W P E. destruct (parses_advance pdu himg _ W E) as (W1 & R1 & _).
  split; [done|cbn; lia|done].
Qed.

Lemma at_start pdu : wf pdu -> pos pdu = start pdu -> get_pos pdu = 0.
Proof. intros W P. unfold get_pos. lia. Qed.

(** ** Receiving each kind of PDU *)

Lemma parsed_ok {A} (p : M A) b self k x b' : p b = Ok x b' -> parsed p b self k = k x b'.
Proof. unfold parsed. by intros ->. Qed.

Lemma on_air_addr r a :
  addr r = Some a ->
  on_air r = mkResource (fill_bits r) (pos_of_grant r) (encryption_mode r) (random_access_flag r)
    (length_ind r) (Some (air_addr a)) (event_label r) (usage_marker r) (power_control_element r)
    (slot_granting_element r) (air_chan_alloc (chan_alloc_element r)).
Proof. intros E. unfold on_air, is_null_pdu. by rewrite E. Qed.

Section resource.
Context (self : UmacMs) (sc : Z) (pdu : BitBuffer) (r : MacResource) (ty : MacResourceAddrType).
Context (a : TetraAddress) (bs : list bool) (n : nat) (rest : list bool).
Context (T : typed_resource r) (A : accepted r ty).
Context (Ha : addr r = Some a) (He : encryption_mode r = 0%Z) (Hf : fill_bits r = (0 <? n)).
Context (W : wf pdu) (P : pos pdu = start pdu).
Context (E : remaining pdu = resource_img r ty ++ bs ++ fill n ++ rest).

Let hl := compute_header_len r.
Let pdu1 := with_pos pdu (pos pdu + hl).

Lemma resource_framed : framed pdu1 hl bs n rest.
Proof using T A W P E.
  unfold pdu1, hl. rewrite <- (length_resource_img r ty T A). by apply framed_header.
Qed.

Lemma resource_header (k : MacResource -> BitBuffer -> handled) :
  parsed MacResource_from_bitbuf pdu self k = k (on_air r) pdu1.
Proof using T A W P E.
  apply parsed_ok. rewrite (resource_parses r ty T A (bs ++ fill n ++ rest) pdu W E).
  by rewrite (length_resource_img r ty T A).
Qed.

(** The complete PDU: its SDU is delivered and the window moves on. *)
Lemma rx_resource_whole len :
  bs <> [] -> length_ind r = Z.of_nat len -> len * 8 = hl + length bs + n -> 0 < len < 58 ->
  exists sdu, rx_mac_resource self sc pdu
    = Some (self, [TmaUnitdataInd sdu (air_addr a) sc 0], after_pdu pdu (len * 8)) /\ holds sdu bs.
Proof using T A Ha He Hf W P E.
  intros Hbs Hl Hlen H58. unfold rx_mac_resource. rewrite assert_true by (by rewrite at_start).
  rewrite resource_header, (on_air_addr r a Ha). cbn [length_ind fill_bits encryption_mode addr].
  pose proof resource_framed as F. pose proof (framed_end _ _ _ _ _ F) as Hend.
  unfold resource_len. rewrite Hl. btrue (1 <=? Z.of_nat len)%Z. btrue (Z.of_nat len <? 0x3a)%Z. cbn [andb].
  rewrite Nat2Z.id, Hlen. unfold get_len at 1. bfalse (end_ pdu1 - start pdu1 <? hl + length bs + n).
  rewrite Hf, (framed_fill _ _ _ _ _ F), bind_Some, usub_le, bind_Some by lia.
  replace (hl + length bs + n - n) with (hl + length bs) by lia.
  destruct (framed_cut _ _ _ _ _ F) as (-> & W2 & R2). rewrite bind_Some, He.
  change (0 <? 0)%Z with false. cbv iota.
  bfalse (Z.of_nat len =? 0x3f)%Z. bfalse (Z.of_nat len =? 0x3e)%Z. bfalse (Z.of_nat len =? 0)%Z.
  replace (get_len_remaining (sdu_window pdu1 (hl + length bs))) with (length bs)
    by (rewrite <- R2 at 1; apply length_remaining).
  rewrite (proj2 (Nat.eqb_neq (length bs) 0)) by (by destruct bs). cbn [orb].
  destruct (from_bitbuffer_pos_holds _ W2) as (sdu & -> & Hs). rewrite !bind_Some.
  pose proof (wf_end _ W). cbn in Hend.
  rewrite next_pdu_spec; [|done|cbn; lia..]. rewrite bind_Some.
  exists sdu. split; [done|by rewrite R2 in Hs].
Qed.

(** The first fragment: its SDU part goes into the defragmenter of the current timeslot. *)
Lemma rx_resource_first d b ts :
  length_ind r = 0x3f%Z -> rest = [] -> ts_index (dltime self) = ts ->
  ms_insert_first (defrag self) (sdu_window pdu1 (hl + length bs)) (dltime self) (air_addr a) None
    = Some (d, b) ->
  advanced (sdu_window pdu1 (hl + length bs)) b ->
  rx_mac_resource self sc pdu = Some (with_defrag self d, [], after_pdu pdu (hl + length bs + n)).
Proof using T A Ha He Hf W P E.
  intros Hl Hr Hts Hd (p & -> & Hp). unfold rx_mac_resource. rewrite assert_true by (by rewrite at_start).
  rewrite resource_header, (on_air_addr r a Ha). cbn [length_ind fill_bits encryption_mode addr].
  pose proof resource_framed as F. pose proof (framed_end _ _ _ _ _ F) as Hend.
  rewrite Hr in Hend. cbn [length] in Hend. rewrite Hl.
  change (resource_len 0x3f (get_len pdu1)) with (Some (get_len pdu1)). cbv iota.
  replace (get_len pdu1) with (hl + length bs + n) by (unfold get_len; lia).
  rewrite Nat.ltb_irrefl, Hf, (framed_fill _ _ _ _ _ F), bind_Some, usub_le, bind_Some by lia.
  replace (hl + length bs + n - n) with (hl + length bs) by lia.
  destruct (framed_cut _ _ _ _ _ F) as (-> & W2 & R2). rewrite bind_Some, He.
  change (0 <? 0)%Z with false. change (0x3f =? 0x3f)%Z with true. cbv iota. rewrite Hd, !bind_Some.
  pose proof (wf_end _ W). cbn in Hend, Hp.
  rewrite next_pdu_spec; [done| |cbn; lia..].
  apply wf_with_pos; [done|]. cbn. lia.
Qed.
End resource.

(** ** The defragmenter of the mobile *)

(** A buffer collects bits; while inactive it is empty.  Nothing is encrypted. *)
Definition buf_ok (buf : DefragBuffer) : Prop :=
  aie_info buf = None /\ (exists bs, collects (d_buffer buf) bs) /\
  (state buf = Inactive -> collects (d_buffer buf) []).

Record ms_ok (d : MsDefrag) : Prop := {
  ok_len : length (ms_buffers d) = 4;
  ok_bufs : Forall buf_ok (ms_buffers d)
}.

(** The message part [bs] for address [a] is being collected in timeslot index [ts]. *)
Definition ms_holding (d : MsDefrag) (ts : nat) (a : TetraAddress) (bs : list bool) : Prop :=
  exists buf, ms_buffers d !! ts = Some buf /\ state buf = Active /\ d_addr buf = a /\
    collects (d_buffer buf) bs.

Lemma buf_ok_new : buf_ok DefragBuffer_new.
Proof. split_and!; [done|exists []; apply collects_new|intros _; apply collects_new]. Qed.

Lemma ms_ok_new : ms_ok MsDefrag_new.
Proof. split; [done|]. by apply (Forall_replicate buf_ok 4), buf_ok_new. Qed.

Lemma ms_ok_set d ts buf : ms_ok d -> buf_ok buf -> ms_ok (set_buf d ts buf).
Proof.
  intros [L B] H. split; cbn; [by rewrite length_insert|]. apply Forall_insert; done.
Qed.

Lemma ms_buf d time : ms_ok d -> (1 <= t time <= 4)%Z ->
  exists buf, ms_buffers d !! ts_index time = Some buf /\ buf_ok buf.
Proof.
  intros [L B] Ht. pose proof (ts_index_lt time Ht).
  destruct (lookup_lt_is_Some_2 (ms_buffers d) (ts_index time)) as [buf Hb]; [lia|].
  exists buf. split; [done|]. by eapply Forall_lookup_1.
Qed.

Lemma lookup_set_buf d time buf : ms_ok d -> (1 <= t time <= 4)%Z ->
  ms_buffers (set_buf d (ts_index time) buf) !! ts_index time = Some buf.
Proof. intros [L B] Ht. cbn. apply list_lookup_insert_eq. rewrite L. by apply ts_index_lt. Qed.

(** Everything that is left of a PDU was taken from it. *)
Definition taken (pdu : BitBuffer) : BitBuffer := with_pos pdu (pos pdu + length (remaining pdu)).

Lemma advanced_taken pdu : wf pdu -> advanced pdu (taken pdu).
Proof.
  intros W. exists (pos pdu + length (remaining pdu)). split; [done|].
  rewrite length_remaining. pose proof (wf_pos _ W). lia.
Qed.

Lemma ms_insert_first_spec d pdu time a :
  ms_ok d -> (1 <= t time <= 4)%Z -> wf pdu ->
  exists d', ms_insert_first d pdu time a None = Some (d', taken pdu) /\ ms_ok d' /\
    ms_holding d' (ts_index time) a (remaining pdu).
Proof.
  intros O Ht W. destruct (ms_buf d time O Ht) as (buf & Hb & Hi & _ & Hn). unfold ms_insert_first.
  rewrite Hb, bind_Some.
  assert (C : collects (d_buffer (if negb (bool_decide (state buf = Inactive)) then DefragBuffer_reset buf else buf)) []).
  { destruct (decide (state buf = Inactive)) as [Es|Es].
    - rewrite bool_decide_true by done. by apply Hn.
    - rewrite bool_decide_false by done. apply collects_new. }
  destruct (copy_remaining_collects _ pdu [] C W) as (b & -> & C'). rewrite bind_Some.
  eexists. split; [done|]. split.
  - apply ms_ok_set; [done|]. split_and!; [done|by eexists|done].
  - eexists. split_and!; [by apply lookup_set_buf|done..].
Qed.

Lemma ms_append_spec final d pdu time a old :
  ms_ok d -> (1 <= t time <= 4)%Z -> wf pdu -> final <> Inactive ->
  ms_holding d (ts_index time) a old -> length old + length (remaining pdu) <= DEFRAG_BUF_MAX_LEN ->
  exists d' buf, ms_append final d pdu time = Some (d', taken pdu) /\ ms_ok d' /\
    ms_buffers d' !! ts_index time = Some buf /\ state buf = final /\ d_addr buf = a /\
    collects (d_buffer buf) (old ++ remaining pdu).
Proof.
  intros O Ht W Hf (buf & Hb & Es & Ea & C) Hl. unfold ms_append. rewrite Hb, bind_Some.
  rewrite bool_decide_true by done. cbn [negb].
  replace (get_len (d_buffer buf)) with (length old)
    by (rewrite (length_collects _ _ C); unfold get_len; destruct C; lia).
  replace (get_len_remaining pdu) with (length (remaining pdu)) by apply length_remaining.
  rewrite (proj2 (Nat.ltb_ge _ _)) by done.
  destruct (copy_remaining_collects _ pdu old C W) as (b & -> & C'). rewrite bind_Some.
  assert (Hi : aie_info buf = None).
  { destruct O as [_ B]. by apply (Forall_lookup_1 _ _ _ _ B Hb). }
  eexists _, _. split; [done|]. split.
  - apply ms_ok_set; [done|]. split_and!; [done|by eexists|done].
  - split_and!; [by apply lookup_set_buf|done..].
Qed.

Lemma take_defragged_buf_spec d time buf bs :
  ms_ok d -> (1 <= t time <= 4)%Z -> ms_buffers d !! ts_index time = Some buf -> state buf = Complete ->
  collects (d_buffer buf) bs ->
  exists out d', take_defragged_buf d time = Some (Some out, d') /\ ms_ok d' /\
    d_addr out = d_addr buf /\ holds (d_buffer out) bs.
Proof.
  intros O Ht Hb Es [W S P F Wi]. unfold take_defragged_buf. rewrite Hb, bind_Some, bool_decide_true by done.
  cbn [negb]. pose proof W as [Wb Ws Wp We].
  unfold mbind, method_bind, set_raw_end. btrue (pos (d_buffer buf) <=? length (buffer (d_buffer buf)) * 8).
  btrue (start (d_buffer buf) <=? pos (d_buffer buf)). btrue (pos (d_buffer buf) <=? pos (d_buffer buf)).
  cbn [andb]. unfold seek. cbn [start end_]. btrue (start (d_buffer buf) + 0 <=? pos (d_buffer buf)).
  eexists _, _. split; [done|]. split; [apply ms_ok_set; [done|apply buf_ok_new]|]. split; [done|].
  cbn. split; cbn; [split; cbn; try done; lia|lia|]. unfold window in *. cbn. by rewrite P.
Qed.

(** ** Receiving the later fragments *)

Lemma not_encrypted d time buf :
  ms_ok d -> ms_buffers d !! ts_index time = Some buf -> aie_info buf = None.
Proof. intros [_ B] Hb. by apply (Forall_lookup_1 _ _ _ _ B Hb). Qed.

Section fragments.
Context (self : UmacMs) (sc : Z) (pdu : BitBuffer) (bs : list bool) (n : nat).
Context (a : TetraAddress) (old : list bool).
Context (O : ms_ok (defrag self)) (Ht : (1 <= t (dltime self) <= 4)%Z).
Context (W : wf pdu) (P : pos pdu = start pdu).
Context (H : ms_holding (defrag self) (ts_index (dltime self)) a old).
Context (Hmax : length old + length bs <= DEFRAG_BUF_MAX_LEN).

Lemma rx_frag_spec :
  remaining pdu = concat [val_bits 2 1; val_bits 1 0; img_bool (0 <? n)] ++ bs ++ fill n ->
  exists d b, rx_mac_frag self pdu = Some (with_defrag self d, [], b) /\ start b = start pdu /\
    ms_ok d /\ ms_holding d (ts_index (dltime self)) a (old ++ bs).
Proof using O Ht W P H Hmax.
  intros E. unfold rx_mac_frag. rewrite assert_true by (by rewrite at_start).
  rewrite (parsed_ok _ _ _ _ _ _ (frag_parses (0 <? n) _ pdu W E)).
  rewrite <- (app_nil_r (fill n)) in E. pose proof (framed_header _ _ _ _ _ W P E) as F.
  change (length (concat _)) with 4 in F |- *. set (pdu1 := with_pos pdu (pos pdu + 4)) in *.
  pose proof (framed_end _ _ _ _ _ F) as Hend. cbn [length] in Hend. cbn [fr_fill_bits].
  replace (get_len pdu1) with (4 + length bs + n) by (unfold get_len; lia).
  rewrite (framed_fill _ _ _ _ _ F), bind_Some, usub_le, bind_Some by lia.
  replace (4 + length bs + n - n) with (4 + length bs) by lia.
  destruct (framed_cut _ _ _ _ _ F) as (-> & W2 & R2). rewrite bind_Some.
  pose proof H as (buf & Hb & _). rewrite Hb, bind_Some, (not_encrypted _ _ _ O Hb).
  rewrite <- R2 in Hmax.
  destruct (ms_append_spec Active _ _ _ _ _ O Ht W2 ltac:(done) H Hmax) as (d & buf' & E' & O' & Hb' & Hs & Ha & C).
  unfold ms_insert_next. rewrite E', bind_Some. eexists _, _. split; [done|]. split; [done|]. split; [done|].
  rewrite R2 in C. by exists buf'.
Qed.

Lemma rx_end_spec e len rest :
  valid_end e -> en_fill_bits e = (0 <? n) -> en_length_ind e = Z.of_nat len ->
  len * 8 = length (end_img e) + length bs + n ->
  remaining pdu = end_img e ++ bs ++ fill n ++ rest ->
  exists d sdu, rx_mac_end self sc pdu
    = Some (with_defrag self d, [TmaUnitdataInd sdu a sc 0], after_pdu pdu (len * 8)) /\
    ms_ok d /\ holds sdu (old ++ bs).
Proof using O Ht W P H Hmax.
  intros V Hf Hl Hlen E. unfold rx_mac_end. rewrite assert_true by (by rewrite at_start).
  rewrite (parsed_ok _ _ _ _ _ _ (end_parses e _ V pdu W E)). cbn [en_length_ind en_fill_bits end_on_air].
  pose proof (framed_header _ _ _ _ _ W P E) as F. set (hl := length (end_img e)) in *.
  set (pdu1 := with_pos pdu (pos pdu + hl)) in *. pose proof (framed_end _ _ _ _ _ F) as Hend.
  rewrite Hl, Nat2Z.id, Hlen. unfold get_len at 1. bfalse (end_ pdu1 - start pdu1 <? hl + length bs + n).
  rewrite Hf, (framed_fill _ _ _ _ _ F), bind_Some, usub_le, bind_Some by lia.
  replace (hl + length bs + n - n) with (hl + length bs) by lia.
  destruct (framed_cut _ _ _ _ _ F) as (-> & W2 & R2). rewrite bind_Some.
  pose proof H as (buf & Hb & _). rewrite Hb, bind_Some, (not_encrypted _ _ _ O Hb).
  rewrite <- R2 in Hmax.
  destruct (ms_append_spec Complete _ _ _ _ _ O Ht W2 ltac:(done) H Hmax) as (d & buf' & E' & O' & Hb' & Hs & Ha & C).
  unfold ms_insert_last. rewrite E', bind_Some.
  destruct (take_defragged_buf_spec _ _ _ _ O' Ht Hb' Hs C) as (out & d' & -> & O'' & Ha' & Hh).
  rewrite bind_Some. pose proof (wf_end _ W). cbn in Hend.
  assert (Hw : wf (taken (sdu_window pdu1 (hl + length bs)))) by (eapply advanced_wf; [exact W2|by apply advanced_taken]).
  rewrite next_pdu_spec; [|done|cbn; lia..]. rewrite bind_Some.
  eexists _, _. split; [by rewrite Ha', Ha|]. split; [done|]. by rewrite R2 in Hh.
Qed.
End fragments.

(** ** Dispatch *)

Lemma peek_type pdu x y z rest :
  wf pdu -> pos pdu = start pdu -> remaining pdu = x :: y :: z :: rest ->
  peek_bits pdu 3 = Some (Some (bits_val [x; y; z])).
Proof.
  intros W P E. by rewrite peek_here, E by (done || lia).
Qed.

Section dispatch.
Context (self : UmacMs) (prim : TmvUnitdataInd) (pdu : BitBuffer).
Context (W : wf pdu) (P : pos pdu = start pdu).

Lemma dispatch_resource x rest :
  remaining pdu = false :: false :: x :: rest ->
  rx_tmv_pdu self prim pdu = Some <$> rx_mac_resource self (i_scrambling_code prim) pdu.
Proof using W P.
  intros E. unfold rx_tmv_pdu. rewrite (peek_type pdu _ _ _ _ W P E), bind_Some. by destruct x.
Qed.

Lemma dispatch_frag rest :
  remaining pdu = false :: true :: false :: rest -> rx_tmv_pdu self prim pdu = Some <$> rx_mac_frag self pdu.
Proof using W P. intros E. unfold rx_tmv_pdu. by rewrite (peek_type pdu _ _ _ _ W P E), bind_Some. Qed.

Lemma dispatch_end rest :
  remaining pdu = false :: true :: true :: rest ->
  rx_tmv_pdu self prim pdu = Some <$> rx_mac_end self (i_scrambling_code prim) pdu.
Proof using W P. intros E. unfold rx_tmv_pdu. by rewrite (peek_type pdu _ _ _ _ W P E), bind_Some. Qed.
End dispatch.

Lemma resource_img_type r ty rest : exists x l, resource_img r ty ++ rest = false :: false :: x :: l.
Proof. eexists _, _. reflexivity. Qed.
Lemma end_img_type e rest : exists l, end_img e ++ rest = false :: true :: true :: l.
Proof. eexists. reflexivity. Qed.

(** ** The end of a block *)

(** What may follow the last PDU: too little for another one, or a null PDU. *)
Definition closed (rest : list bool) : Prop :=
  length rest < 16 \/ exists z, rest = resource_img null_pdu NullPdu ++ z.

Lemma null_typed : typed_resource null_pdu.
Proof. split; cbn; done. Qed.
Lemma null_accepted : accepted null_pdu NullPdu.
Proof. split; [done|by left]. Qed.

Lemma rx_null self sc pdu z :
  wf pdu -> pos pdu = start pdu -> remaining pdu = resource_img null_pdu NullPdu ++ z ->
  exists b, rx_mac_resource self sc pdu = Some (self, [], b) /\ start b = start pdu.
Proof.
  intros W P E. unfold rx_mac_resource. rewrite assert_true by (by rewrite at_start).
  rewrite (parsed_ok _ _ _ _ _ _ (resource_parses _ _ null_typed null_accepted z pdu W E)).
  change (length (resource_img null_pdu NullPdu)) with 16.
  pose proof (framed_header pdu _ [] 0 z W P E) as F. change (length (resource_img _ _)) with 16 in F.
  set (pdu1 := with_pos pdu (pos pdu + 16)) in *. pose proof (framed_end _ _ _ _ _ F) as Hend.
  cbn [length_ind fill_bits on_air is_null_pdu]. change (resource_len _ _) with (Some 16). cbv iota.
  unfold get_len. cbn [length] in Hend. bfalse (end_ pdu1 - start pdu1 <? 16).
  change (num_fill _ _ _) with (Some 0). rewrite bind_Some, usub_le, bind_Some by lia.
  change (16 - 0) with (16 + @length bool []).
  destruct (framed_cut _ _ _ _ _ F) as (-> & _ & _). rewrite bind_Some. by eexists.
Qed.

Lemma loop_stop fuel self prim pdu self' msgs b :
  rx_tmv_pdu self prim pdu = Some (Some (self', msgs, b)) -> start b = start pdu ->
  rx_tmv_sch_loop (S fuel) self prim pdu = Some (Some (self', msgs)).
Proof.
  intros E S. cbn [rx_tmv_sch_loop]. rewrite E, bind_Some, S, Nat.eqb_refl. done.
Qed.

(** A handled PDU followed by a closed rest ends the block. *)
Lemma loop_last fuel self prim pdu self' msgs bs rest :
  wf pdu -> pos pdu = start pdu -> remaining pdu = bs ++ rest -> bs <> [] -> closed rest ->
  rx_tmv_pdu self prim pdu = Some (Some (self', msgs, after_pdu pdu (length bs))) ->
  rx_tmv_sch_loop (S (S fuel)) self prim pdu = Some (Some (self', msgs)).
Proof.
  intros W P E Hne Hc Hp. destruct (after_pdu_remaining pdu bs rest W P E) as [W' R'].
  remember (S fuel) as fuel' eqn:Ef. cbn [rx_tmv_sch_loop]. rewrite Hp, bind_Some.
  replace (get_len (after_pdu pdu (length bs))) with (length rest)
    by (rewrite <- R', length_remaining; unfold get_len; reflexivity).
  assert ((start (after_pdu pdu (length bs)) =? start pdu) = false) as ->.
  { apply Nat.eqb_neq. cbn. destruct bs; [done|cbn; lia]. }
  cbn [negb andb]. destruct (Nat.leb_spec 16 (length rest)) as [Hl|Hl]; [|done].
  destruct Hc as [Hc|[z ->]]; [lia|]. destruct (resource_img_type null_pdu NullPdu z) as (x & l & Et).
  rewrite Et in R'. pose proof (dispatch_resource self' prim _ W' eq_refl x l R') as Hd.
  rewrite <- Et in R'. destruct (rx_null self' (i_scrambling_code prim) _ z W' eq_refl R') as (b & Eb & Sb).
  rewrite Eb in Hd. rewrite Ef, (loop_stop fuel self' prim _ self' [] b Hd Sb), bind_Some. cbn [prepend].
  by rewrite app_nil_r.
Qed.

(** ** Termination *)

Lemma cut_inv pdu len b : wf pdu -> cut pdu len = Some b -> b = sdu_window pdu len /\ wf b.
Proof.
  intros [Wb Ws Wp We]. unfold cut, run, set_raw_end.
  destruct (Nat.leb_spec (start pdu + len) (length (buffer pdu) * 8)) as [H1|]; [|done].
  destruct (Nat.leb_spec (start pdu) (start pdu + len)); [|done].
  destruct (Nat.leb_spec (pos pdu) (start pdu + len)); [|done].
  cbn. intros [= <-]. split; [done|]. split; cbn; try done; lia.
Qed.

Lemma next_pdu_inv pdu orig len b :
  wf pdu -> next_pdu pdu orig len = Some b ->
  wf b /\ pos b = start b /\ start b = start pdu + len /\ end_ b = orig.
Proof.
  intros [Wb Ws Wp We]. unfold next_pdu, run, set_raw_end.
  destruct (Nat.leb_spec orig (length (buffer pdu) * 8)) as [H1|]; [|done].
  destruct (Nat.leb_spec (start pdu) orig); [|done]. destruct (Nat.leb_spec (pos pdu) orig); [|done].
  cbn [andb]. rewrite bind_Some. unfold set_raw_pos. cbn [start end_].
  destruct (Nat.leb_spec (start pdu) (start pdu + len)); [|done].
  destruct (Nat.leb_spec (start pdu + len) orig); [|done].
  cbn [andb]. rewrite bind_Some. unfold set_raw_start. cbn [start end_ pos with_pos].
  destruct (Nat.leb_spec (start pdu + len) orig); [|done].
  rewrite Nat.leb_refl. cbn. intros [= <-]. split; [split; cbn; try done; lia|done].
Qed.

Lemma ms_append_total final d pdu time :
  ms_ok d -> (1 <= t time <= 4)%Z -> wf pdu -> final <> Inactive ->
  exists d' b, ms_append final d pdu time = Some (d', b) /\ ms_ok d' /\ advanced pdu b.
Proof.
  intros O Ht W Hf. destruct (ms_buf d time O Ht) as (buf & Hb & Hi & (old & C) & _).
  unfold ms_append. rewrite Hb, bind_Some.
  destruct (bool_decide (state buf = Active)); cbn [negb];
    [|eexists _, _; split; [done|]; split; [done|by apply advanced_refl]].
  destruct (DEFRAG_BUF_MAX_LEN <? _).
  { eexists _, _. split; [done|]. split; [apply ms_ok_set; [done|apply buf_ok_new]|by apply advanced_refl]. }
  destruct (copy_remaining_collects _ pdu old C W) as (b & -> & C'). rewrite bind_Some.
  eexists _, _. split; [done|]. split; [|by apply advanced_taken].
  apply ms_ok_set; [done|]. split_and!; [done|by eexists|done].
Qed.

Lemma take_total d time :
  ms_ok d -> (1 <= t time <= 4)%Z ->
  exists o d', take_defragged_buf d time = Some (o, d') /\ ms_ok d'.
Proof.
  intros O Ht. destruct (ms_buf d time O Ht) as (buf & Hb & Hi & (bs & C) & _).
  destruct (decide (state buf = Complete)) as [Es|Es].
  - destruct (take_defragged_buf_spec d time buf bs O Ht Hb Es C) as (out & d' & E & O' & _). by eauto.
  - unfold take_defragged_buf. rewrite Hb, bind_Some, bool_decide_false by done. by eauto.
Qed.

(** What a handler leaves behind: a consistent state, and either the same start of the
    window (no further PDU is looked for) or the window moved forward to the next PDU. *)
Definition settled (self : UmacMs) (pdu : BitBuffer) (r : UmacMs * list SapMsg * BitBuffer) : Prop :=
  let '(self', _, b) := r in
  ms_ok (defrag self') /\ dltime self' = dltime self /\
  (start b = start pdu \/
   (wf b /\ pos b = start b /\ end_ b = end_ pdu /\ start pdu <= start b)).

Lemma parsed_inv {A} (p : M A) b self k r :
  robust p -> wf b -> ms_ok (defrag self) -> parsed p b self k = Some r ->
  settled self b r \/ exists x b', advanced b b' /\ wf b' /\ k x b' = Some r.
Proof.
  intros R W O. specialize (R b W). unfold parsed. destruct (p b) as [x b'|e b'|]; [| |done].
  - intros E. right. exists x, b'. split; [done|]. split; [by eapply advanced_wf|done].
  - intros [= <-]. left. split; [done|]. split; [done|]. left. by destruct R as (q & -> & _).
Qed.

(** The first bind of an [option] computation that returned. *)
Ltac bind_inv H x E :=
  match type of H with
  | (?m ≫= _) = Some _ => destruct m as [x|] eqn:E; [rewrite bind_Some in H|done]
  end.

Section settled.
Context (self : UmacMs) (sc : Z) (pdu : BitBuffer).
Context (O : ms_ok (defrag self)) (Ht : (1 <= t (dltime self) <= 4)%Z) (W : wf pdu).

(** Returning early: the start of the window is where it was. *)
Lemma settled_return b : start b = start pdu -> settled self pdu (self, [], b).
Proof using O. intros E. split; [done|]. split; [done|by left]. Qed.

Lemma settled_next self' msgs pdu1 len b :
  ms_ok (defrag self') -> dltime self' = dltime self -> start pdu1 = start pdu -> wf pdu1 ->
  next_pdu pdu1 (end_ pdu) len = Some b -> settled self pdu (self', msgs, b).
Proof using.
  intros O' Hd S1 W1 E. destruct (next_pdu_inv _ _ _ _ W1 E) as (Wb & Pb & Sb & Eb).
  split; [done|]. split; [done|]. right. split_and!; [done..|lia].
Qed.

Lemma resource_settled r : rx_mac_resource self sc pdu = Some r -> settled self pdu r.
Proof using O Ht W.
  unfold rx_mac_resource. intros H. bind_inv H u E0.
  destruct (parsed_inv _ _ _ _ _ robust_resource W O H) as [|(x & b1 & (p & -> & Hp) & W1 & H1)]; [done|].
  clear H. destruct (resource_len _ _) as [len|]; [|simplify_eq; by apply settled_return].
  destruct (_ <? len); [simplify_eq; by apply settled_return|].
  bind_inv H1 n E1. bind_inv H1 len' E2. bind_inv H1 b2 E3.
  destruct (cut_inv _ _ _ W1 E3) as [-> W2].
  destruct (addr x) as [a|]; [|simplify_eq; by apply settled_return].
  destruct (0 <? encryption_mode x)%Z; [simplify_eq; by apply settled_return|].
  destruct (length_ind x =? 0x3f)%Z.
  { destruct (ms_insert_first_spec _ _ (dltime self) a O Ht W2) as (d & Ed & Od & _).
    rewrite Ed, !bind_Some in H1. bind_inv H1 b3 E4. simplify_eq.
    eapply settled_next; [..|exact E4]; try done.
    eapply advanced_wf; [exact W2|by apply advanced_taken]. }
  destruct (length_ind x =? 0x3e)%Z; [|destruct (_ || _); [|destruct (from_bitbuffer_pos _) as [s0|]; [rewrite bind_Some in H1|done]]];
    rewrite bind_Some in H1; bind_inv H1 b3 E4; simplify_eq; by eapply settled_next; [..|exact E4].
Qed.

Lemma frag_settled r : rx_mac_frag self pdu = Some r -> settled self pdu r.
Proof using O Ht W.
  unfold rx_mac_frag. intros H. bind_inv H u E0.
  destruct (parsed_inv _ _ _ _ _ robust_frag_dl W O H) as [|(x & b1 & (p & -> & Hp) & W1 & H1)]; [done|].
  clear H. bind_inv H1 n E1. bind_inv H1 len' E2. bind_inv H1 b2 E3.
  destruct (cut_inv _ _ _ W1 E3) as [-> W2]. bind_inv H1 buf E4.
  destruct (aie_info buf); [simplify_eq; by apply settled_return|].
  destruct (ms_append_total Active _ _ _ O Ht W2) as (d & b & Ed & Od & (q & -> & _)); [done|].
  unfold ms_insert_next in H1. rewrite Ed, bind_Some in H1. simplify_eq. split; [done|]. split; [done|by left].
Qed.

Lemma end_settled r : rx_mac_end self sc pdu = Some r -> settled self pdu r.
Proof using O Ht W.
  unfold rx_mac_end. intros H. bind_inv H u E0.
  destruct (parsed_inv _ _ _ _ _ robust_end_dl W O H) as [|(x & b1 & (p & -> & Hp) & W1 & H1)]; [done|].
  clear H. destruct (_ <? _) in H1; [simplify_eq; by apply settled_return|].
  bind_inv H1 n E1. bind_inv H1 len' E2. bind_inv H1 b2 E3.
  destruct (cut_inv _ _ _ W1 E3) as [-> W2]. bind_inv H1 buf E4.
  destruct (aie_info buf); [simplify_eq; by apply settled_return|].
  destruct (ms_append_total Complete _ _ _ O Ht W2) as (d & b & Ed & Od & Ab); [done|].
  unfold ms_insert_last in H1. rewrite Ed, bind_Some in H1.
  destruct (take_total d (dltime self) Od Ht) as (o & d' & Et & Od'). rewrite Et, bind_Some in H1.
  pose proof (advanced_wf _ _ W2 Ab) as Wb. destruct Ab as (q & -> & _).
  destruct o as [out|]; [|simplify_eq; split; [done|]; split; [done|by left]].
  bind_inv H1 b3 E5. simplify_eq. by eapply settled_next; [..|exact E5].
Qed.

Lemma broadcast_settled r : rx_broadcast self pdu = Some r -> settled self pdu r.
Proof using O Ht W.
  unfold rx_broadcast. intros H. bind_inv H ty E0. bind_inv H u E1. bind_inv H bits E2. bind_inv H bt E3.
  destruct bt; [|simplify_eq; by apply settled_return..].
  unfold rx_broadcast_sysinfo, parsed in H. pose proof (tame_sysinfo pdu W) as Hs.
  destruct (MacSysinfo_from_bitbuf pdu) as [x b|e b|]; [| |done]; destruct Hs as (p & -> & _).
  - bind_inv H s0 E4. simplify_eq. split; [done|]. split; [done|by left].
  - simplify_eq. by apply settled_return.
Qed.

End settled.

Lemma pdu_settled self pdu prim r :
  ms_ok (defrag self) -> (1 <= t (dltime self) <= 4)%Z -> wf pdu ->
  rx_tmv_pdu self prim pdu = Some (Some r) -> settled self pdu r.
Proof.
  intros O Ht W. unfold rx_tmv_pdu. intros H. bind_inv H pk E0. destruct pk as [bits|]; [|done].
  destruct (MacPduType_try_from _) as [[]|]; [| | | |done].
  - destruct (rx_mac_resource _ _ _) as [r'|] eqn:E; cbn in H; simplify_eq. by eapply resource_settled.
  - destruct (Z.land bits 1 =? 0)%Z.
    + destruct (rx_mac_frag _ _) as [r'|] eqn:E; cbn in H; simplify_eq. by apply frag_settled.
    + destruct (rx_mac_end _ _ _) as [r'|] eqn:E; cbn in H; simplify_eq. by eapply end_settled.
  - destruct (rx_broadcast _ _) as [r'|] eqn:E; cbn in H; simplify_eq. by apply broadcast_settled.
  - destruct (bool_decide _); cbn in H; simplify_eq; by apply settled_return.
Qed.

(** The length of the window bounds the number of iterations. *)
Lemma rx_tmv_sch_loop_enough prim fuel : forall self pdu,
  ms_ok (defrag self) -> (1 <= t (dltime self) <= 4)%Z -> wf pdu -> get_len pdu < fuel ->
  match rx_tmv_sch_loop fuel self prim pdu with
  | None => True
  | Some None => False
  | Some (Some (self', _)) => ms_ok (defrag self') /\ dltime self' = dltime self
  end.
Proof.
  induction fuel as [|fuel IH]; intros self pdu O Ht W Hl; [lia|]. cbn [rx_tmv_sch_loop].
  destruct (rx_tmv_pdu self prim pdu) as [[[[self' msgs] b]|]|] eqn:E; [|by rewrite bind_Some..|done].
  rewrite bind_Some. pose proof (pdu_settled self pdu prim _ O Ht W E) as (O' & Hd & Hs).
  destruct (Nat.eqb_spec (start b) (start pdu)) as [Es|Es]; [done|]. cbn [negb andb].
  destruct (16 <=? get_len b) eqn:H16; [|done]. destruct Hs as [Hs|(Wb & Pb & Eb & Sb)]; [done|].
  apply Nat.leb_le in H16. unfold get_len in *.
  specialize (IH self' b O' ltac:(by rewrite Hd) Wb ltac:(lia)).
  destruct (rx_tmv_sch_loop fuel self' prim b) as [[[self2 more]|]|]; [|done|done].
  rewrite bind_Some. cbn [prepend]. destruct IH as [? ->]. done.
Qed.

(** ** Malformed blocks *)

Lemma short_length_panics self sc pdu r ty len rest :
  typed_resource r -> accepted r ty -> fill_bits r = false -> is_Some (addr r) ->
  length_ind r = Z.of_nat len -> 0 < len < 58 -> len * 8 < compute_header_len r ->
  wf pdu -> pos pdu = start pdu -> remaining pdu = resource_img r ty ++ rest ->
  rx_mac_resource self sc pdu = None.
Proof.
  intros T A Hf [a Ha] Hl H58 Hshort W P E. unfold rx_mac_resource. rewrite assert_true by (by rewrite at_start).
  rewrite (parsed_ok _ _ _ _ _ _ (resource_parses r ty T A rest pdu W E)), (on_air_addr r a Ha).
  cbn [length_ind fill_bits]. rewrite (length_resource_img r ty T A), Hl.
  destruct (parses_advance pdu _ rest W E) as (_ & _ & Hlen). rewrite (length_resource_img r ty T A) in Hlen.
  unfold resource_len. btrue (1 <=? Z.of_nat len)%Z. btrue (Z.of_nat len <? 0x3a)%Z. cbn [andb].
  rewrite Nat2Z.id. pose proof (wf_start _ W). unfold get_len. cbn [end_ start with_pos].
  bfalse (end_ pdu - start pdu <? len * 8). rewrite Hf. cbn [num_fill]. rewrite bind_Some, usub_le, bind_Some by lia.
  unfold cut, run, set_raw_end. cbn [start pos with_pos]. bfalse (pos pdu + compute_header_len r <=? start pdu + (len * 8 - 0)).
  by rewrite !andb_false_r.
Qed.

Lemma broadcast_type_panics self pdu rest :
  wf pdu -> pos pdu = start pdu -> remaining pdu = [true; false; true; true] ++ rest ->
  rx_broadcast self pdu = None.
Proof.
  intros W P E. unfold rx_broadcast. change 2%Z with (Z.of_nat 2).
  by rewrite peek_here, (peek_ahead pdu 2 2), E by (done || lia).
Qed.

(** ** Claims *)

(** A block is processed in finitely many steps.  For every received block and every
    consistent state, the loop over the MAC PDUs of the block ends after at most as many
    iterations as the block has bits, and unless a handler panics it leaves the
    defragmenter consistent. *)
Theorem rx_tmv_sch_terminates self prim :
  ms_ok (defrag self) -> (1 <= t (dltime self) <= 4)%Z -> wf (i_pdu prim) ->
  match rx_tmv_sch self prim with
  | None => True
  | Some None => False
  | Some (Some (self', _)) => ms_ok (defrag self') /\ dltime self' = dltime self
  end.
Proof. intros O Ht W. apply rx_tmv_sch_loop_enough; [done..|lia]. Qed.


(** C37 (malformed downlink PDUs panic).  A block that starts with a MAC-RESOURCE whose
    length indication is shorter than its own header, or with a broadcast PDU of the
    reserved type 3, makes the receiver panic: the length is not compared with the
    header, and the broadcast type is unwrapped. *)
Theorem malformed_block_panics self prim r ty len rest :
  typed_resource r -> accepted r ty -> fill_bits r = false -> is_Some (addr r) ->
  length_ind r = Z.of_nat len -> 0 < len < 58 -> len * 8 < compute_header_len r ->
  wf (i_pdu prim) -> pos (i_pdu prim) = start (i_pdu prim) ->
  remaining (i_pdu prim) = resource_img r ty ++ rest \/
  remaining (i_pdu prim) = [true; false; true; true] ++ rest ->
  rx_tmv_sch self prim = None.
Proof.
  intros T A Hf Ha Hl H58 Hshort W P E. unfold rx_tmv_sch. cbn [rx_tmv_sch_loop].
  destruct E as [E|E].
  - destruct (resource_img_type r ty rest) as (x & l & Et). rewrite Et in E.
    rewrite (dispatch_resource self prim _ W P x l E). rewrite <- Et in E.
    by rewrite (short_length_panics self _ _ r ty len rest).
  - unfold rx_tmv_pdu. rewrite (peek_type _ _ _ _ _ W P E), bind_Some.
    change (MacPduType_try_from _) with (Some Broadcast). cbv iota.
    by rewrite (broadcast_type_panics _ _ _ W P E).
Qed.

(** A MAC-RESOURCE for one subscriber that announces two octets. *)
Definition short_resource : MacResource :=
  mkResource false 0 0 false 2 (Some (mkAddr 1234 Ssi)) None None None None None.

Lemma short_resource_typed : typed_resource short_resource.
Proof. split; cbn; try lia; try done. intros x [= <-]. cbn. lia. Qed.

Lemma malformed_block_panics_witness :
  exists b, from_bitarr (b2z <$> resource_img short_resource AtSsi) = Some b /\
    rx_tmv_sch UmacMs_new (mkTmvInd b BlkBoth SchF 3) = None.
Proof.
  destruct (from_bitarr_holds (resource_img short_resource AtSsi)) as (b & E & Hh & _).
  exists b. split; [exact E|].
  apply (malformed_block_panics UmacMs_new (mkTmvInd b BlkBoth SchF 3) short_resource AtSsi 2 []).
  - apply short_resource_typed.
  - split; [reflexivity|right; reflexivity].
  - reflexivity.
  - eexists. reflexivity.
  - reflexivity.
  - lia.
  - change (2 * 8 < 43). lia.
  - apply Hh.
  - apply Hh.
  - left. rewrite app_nil_r. apply holds_remaining, Hh.
Defined.
