(* ===== verification/Downlink.v ===== *)
(** * From the base station's upper MAC to the mobile's LLC

    The downlink signalling path as one system: the scheduler offers the fragmenter a full
    slot block per frame and closes it with a null PDU ([try_add_null_pdus] and the block
    size of crates/tetra-entities/src/umac/subcomp/bs_sched.rs), the lower MAC encodes it,
    the mobile's lower MAC decodes it and its upper MAC reassembles the message. *)

From Stdlib Require Import ZArith Lia ZifyNat.
From stdpp Require Import gmap strings.
From S2P Require Import Prelude.
From S2P Require Import BitBuffer.
From S2P Require Import BitBufferFacts.
From S2P Require Import ErrorControl.
From S2P Require Import Tdma.
From S2P Require Import Codec.
From S2P Require Import MacFields.
From S2P Require Import MacPdus.
From S2P Require Import Fillbits.
From S2P Require Import Defrag.
From S2P Require Import TxReceipt.
From S2P Require Import Frag.
From S2P Require Import Robust.
From S2P Require Import UmacMs.

Definition NULL_PDU_LEN_BITS : nat := 16.
Definition SCH_F_CAP : nat := 268.

(** Only SCH/HD and SCH/F blocks with room are closed with a null PDU; [None] is a panic. *)
Definition try_add_null_pdus (blk : option TmvUnitdataReq) : option (option TmvUnitdataReq) :=
  match blk with
  | Some b =>
      if bool_decide (logical_channel b = SchHd) || bool_decide (logical_channel b = SchF) then
        if NULL_PDU_LEN_BITS <=? get_len_remaining (mac_block b) then
          let pdu := with_len_fill null_pdu 2 (fill_bits null_pdu) in
          let '(_, pdu) := update_len_and_fill_ind pdu 0 in
          '(_, buf) ← run (MacResource_to_bitbuf pdu) (mac_block b);
          Some (Some {| mac_block := buf; logical_channel := logical_channel b;
                        scrambling_code := scrambling_code b |})
        else Some (Some b)
      else Some (Some b)
  | None => Some None
  end.

(** One slot of the sender: the next chunk in a fresh SCH/F block, closed and encoded. *)
Definition send_slot (code : Z) (fr : BsFragger) (heap : store)
  : option (bool * BsFragger * store * BitBuffer) :=
  '(fully, fr, buf, heap) ← get_next_chunk fr (new SCH_F_CAP) heap;
  blk ← mjoin (try_add_null_pdus
                 (Some {| mac_block := buf; logical_channel := SchF; scrambling_code := code |}));
  type5 ← mjoin (encode_cp blk);
  Some (fully, fr, heap, type5).

(** One slot of the receiver; a block whose CRC fails is not passed on. *)
Definition receive_slot (code : Z) (ms : UmacMs) (type5 : BitBuffer) : option (UmacMs * list SapMsg) :=
  decoded ← decode_cp SchF {| block_type := NDB; block := type5 |} (Some code);
  pdu ← decoded.1;
  if decoded.2 : bool then mjoin (rx_tmv_unitdata_ind ms (mkTmvInd pdu BlkBoth SchF code)) else Some (ms, []).

(** The link over at most [slots] slots, until the fragmenter reports completion. *)
Fixpoint link (code : Z) (slots : nat) (fr : BsFragger) (ms : UmacMs) (heap : store)
  : option (bool * list SapMsg * UmacMs * store) :=
  match slots with
  | 0 => Some (false, [], ms, heap)
  | S slots =>
      '(fully, fr, heap, type5) ← send_slot code fr heap;
      '(ms, msgs) ← receive_slot code ms type5;
      if fully : bool then Some (true, msgs, ms, heap)
      else '(fully, more, ms, heap) ← link code slots fr ms heap; Some (fully, msgs ++ more, ms, heap)
  end.

(** ** A block on the air *)

Lemma window_wrote b b' bs :
  wrote b b' bs -> pos b = start b -> exists rest, window b' = bs ++ rest.
Proof.
  intros [W S P F E B _] Hp. pose proof (wf_pos _ W). exists (getbits (buffer b') (start b' + length bs) (end_ b' - start b' - length bs)).
  unfold window. replace (end_ b' - start b') with (length bs + (end_ b' - start b' - length bs)) at 1 by lia.
  rewrite getbits_app. f_equal. rewrite <- B at 2. f_equal. lia.
Qed.

(** A block that holds [bs] at its front, closed. *)
Lemma close_block b bs code :
  wrote (new SCH_F_CAP) b bs -> length bs <= SCH_F_CAP ->
  exists b' rest, mjoin (try_add_null_pdus
      (Some {| mac_block := b; logical_channel := SchF; scrambling_code := code |}))
    = Some {| mac_block := b'; logical_channel := SchF; scrambling_code := code |} /\
    wf b' /\ window b' = bs ++ rest /\ get_len b' = SCH_F_CAP /\ closed rest.
Proof.
  intros Wr Hl. pose proof Wr as [W S P F E B _]. cbn in S, P, E. unfold try_add_null_pdus.
  cbn [logical_channel mac_block scrambling_code]. rewrite (bool_decide_true (SchF = SchF)), orb_true_r by done.
  unfold SCH_F_CAP in *. unfold get_len_remaining.
  assert (Hrest : forall b1 bs1, wrote (new 268) b1 bs1 -> length bs1 <= 268 -> get_len b1 = 268).
  { intros b1 bs1 [W1 S1 P1 F1 E1 _ _] H1. cbn in S1, P1, E1. unfold get_len. lia. }
  destruct (Nat.leb_spec NULL_PDU_LEN_BITS (end_ b - pos b)) as [Hn|Hn]; unfold NULL_PDU_LEN_BITS in Hn.
  - change (update_len_and_fill_ind _ 0) with (0, null_pdu). cbv iota.
    destruct (resource_to_bitbuf_emits _ _ null_typed null_accepted b W) as (b1 & Er & W1).
    { left. change (length (resource_img null_pdu NullPdu)) with 16. lia. }
    unfold run. rewrite Er, bind_Some. cbn [mjoin option_join].
    pose proof (wrote_trans _ _ _ _ _ Wr W1) as W2. destruct (window_wrote _ _ _ W2 eq_refl) as [z Ez].
    exists b1, (resource_img null_pdu NullPdu ++ z). rewrite app_assoc. split; [done|]. split; [apply W1|].
    split; [done|]. split; [|right; by eexists]. eapply Hrest; [exact W2|].
    rewrite length_app. change (length (resource_img null_pdu NullPdu)) with 16. lia.
  - cbn [mjoin option_join]. destruct (window_wrote _ _ _ Wr eq_refl) as [z Ez]. exists b, z.
    split; [done|]. split; [done|]. split; [done|]. split; [by eapply Hrest|left].
    assert (Hw : length (window b) = 268) by (rewrite <- (Hrest _ _ Wr Hl); apply length_getbits).
    rewrite Ez, length_app in Hw. lia.
Qed.

(** Through the lower MACs the mobile sees the same bits. *)
Lemma air b code (ms : UmacMs) :
  wf b -> get_len b = SCH_F_CAP ->
  exists type5 pdu, mjoin (encode_cp {| mac_block := b; logical_channel := SchF; scrambling_code := code |}) = Some type5 /\
    holds pdu (window b) /\
    receive_slot code ms type5 = mjoin (rx_tmv_sch ms (mkTmvInd pdu BlkBoth SchF code)).
Proof.
  intros W Hl. destruct (encode_decode_cp SchF SCH_F_PARAMS (window b) b code) as (type5 & E & _ & D); try done.
  { unfold window. rewrite length_getbits. exact Hl. }
  destruct (D NDB (Some code)) as (pdu & Ed & Hh); [done|]. exists type5, pdu. rewrite E.
  split; [done|]. split; [done|]. unfold receive_slot. rewrite Ed, !bind_Some. done.
Qed.

(** ** One slot *)

(** The receipt is marked transmitted with the last chunk only. *)
Definition completed (fr : BsFragger) (heap : store) : store :=
  match tx_reporter fr with Some r => (try_mark_transmitted r heap).2 | None => heap end.

Lemma get_next_chunk_new fr heap fully fr' b :
  is_fully_transmitted fr = false ->
  (if mac_hdr_is_written fr then get_frag_or_end_chunk fr (new SCH_F_CAP)
   else get_resource_chunk fr (new SCH_F_CAP)) = Some (fully, fr', b) ->
  tx_reporter fr' = tx_reporter fr ->
  get_next_chunk fr (new SCH_F_CAP) heap
  = Some (fully, set_transmitted fr' fully, b, if fully then completed fr heap else heap).
Proof.
  intros Hf E Ht. unfold get_next_chunk. rewrite !assert_true by (by rewrite ?Hf).
  destruct (mac_hdr_is_written fr); cbn [negb]; rewrite E, bind_Some;
    unfold completed; cbn [tx_reporter set_transmitted]; rewrite Ht; by destruct (tx_reporter fr), fully.
Qed.

Lemma slot_on_air code fr heap fully fr' b heap' bs ms :
  get_next_chunk fr (new SCH_F_CAP) heap = Some (fully, fr', b, heap') ->
  wrote (new SCH_F_CAP) b bs -> length bs <= SCH_F_CAP ->
  exists type5 pdu rest, send_slot code fr heap = Some (fully, fr', heap', type5) /\
    receive_slot code ms type5 = mjoin (rx_tmv_sch ms (mkTmvInd pdu BlkBoth SchF code)) /\
    wf pdu /\ pos pdu = start pdu /\ remaining pdu = bs ++ rest /\ closed rest /\
    length (bs ++ rest) = SCH_F_CAP.
Proof.
  intros E Wr Hl. destruct (close_block b bs code Wr Hl) as (b' & rest & Ec & W' & Hw & Hlen & Hc).
  destruct (air b' code ms W' Hlen) as (type5 & pdu & Ea & Hh & Er).
  exists type5, pdu, rest. unfold send_slot. rewrite E, bind_Some, Ec, bind_Some, Ea, bind_Some.
  rewrite Hw in Hh. split; [done|]. split; [done|]. split; [apply Hh|]. split; [apply Hh|].
  split; [by apply holds_remaining|]. split; [done|].
  rewrite <- Hw, <- Hlen. apply length_getbits.
Qed.

(** The loop of the receiver on a block that starts with [bs], which one handler consumes. *)
Lemma rx_block_last ms code pdu bs rest ms' msgs :
  wf pdu -> pos pdu = start pdu -> remaining pdu = bs ++ rest -> bs <> [] -> closed rest ->
  rx_tmv_pdu ms (mkTmvInd pdu BlkBoth SchF code) pdu = Some (Some (ms', msgs, after_pdu pdu (length bs))) ->
  length (bs ++ rest) = SCH_F_CAP ->
  mjoin (rx_tmv_sch ms (mkTmvInd pdu BlkBoth SchF code)) = Some (ms', msgs).
Proof.
  intros W P E Hne Hc Hp Hl. unfold rx_tmv_sch. cbn [i_pdu].
  assert (Hg : get_len pdu = 268) by (unfold SCH_F_CAP in Hl; rewrite <- Hl, <- E, length_remaining, P; done).
  rewrite Hg. by rewrite (loop_last 267 ms _ pdu ms' msgs bs rest).
Qed.

Lemma rx_block_stop ms code pdu ms' msgs b :
  rx_tmv_pdu ms (mkTmvInd pdu BlkBoth SchF code) pdu = Some (Some (ms', msgs, b)) -> start b = start pdu ->
  mjoin (rx_tmv_sch ms (mkTmvInd pdu BlkBoth SchF code)) = Some (ms', msgs).
Proof. intros Hp Hs. unfold rx_tmv_sch. cbn [i_pdu]. by rewrite (loop_stop _ _ _ _ _ _ _ Hp Hs). Qed.

(** ** A message in progress *)

Record in_progress (fr : BsFragger) (ms : UmacMs) (a : TetraAddress) (old bs : list bool) : Prop := {
  ip_written : mac_hdr_is_written fr = true;
  ip_open : is_fully_transmitted fr = false;
  ip_chan : forall c, fragmented_chan_alloc fr = Some c -> encodable_chan_alloc c;
  ip_wf : wf (sdu fr);
  ip_bits : remaining (sdu fr) = bs;
  ip_ok : ms_ok (defrag ms);
  ip_time : (1 <= t (dltime ms) <= 4)%Z;
  ip_held : ms_holding (defrag ms) (ts_index (dltime ms)) a old;
  ip_max : length old + length bs <= DEFRAG_BUF_MAX_LEN
}.

Section progress.
Context (code : Z) (fr : BsFragger) (ms : UmacMs) (heap : store) (a : TetraAddress) (old bs : list bool).
Context (I : in_progress fr ms a old bs).

Lemma end_len_bound : length bs + 13 <= end_len fr bs <= length bs + 40.
Proof using.
  clear I. unfold end_len, compute_hdr_len. destruct (fragmented_chan_alloc fr) as [c|]; [|lia].
  destruct (is_supported_by_this_stack c) eqn:Es; [|lia]. unfold compute_len. rewrite Es. cbn.
  destruct (ext c); [lia|]. destruct (bool_decide _); [lia|]. destruct (mon_pattern c =? 0)%Z; lia.
Qed.

(** The last slot. *)
Lemma slot_end :
  (end_len fr bs + 7) / 8 * 8 <= SCH_F_CAP ->
  exists type5 fr' ms' sdu, send_slot code fr heap = Some (true, fr', completed fr heap, type5) /\
    receive_slot code ms type5 = Some (ms', [TmaUnitdataInd sdu a code 0]) /\ holds sdu (old ++ bs).
Proof using I.
  intros Hfit. destruct I as [Hw Ho Hc Wf Hb O Ht H Hmax].
  destruct (end_chunk fr (new SCH_F_CAP) bs Hw Hc (wf_new _) Wf Hb) as (b & E & Wr & V & Hn); [done..|].
  set (n := compute_required _ _) in *. set (e := mkEndDl _ _ _ _ _) in *.
  pose proof (length_end_img e V) as Hh. cbn [en_slot_granting_element en_chan_alloc_element] in Hh.
  change (bool_decide _) with false in Hh.
  assert (Hl : length (end_img e) + length bs + n = (end_len fr bs + 7) / 8 * 8)
    by (rewrite Hh, <- Hn; reflexivity).
  assert (Hl' : length (end_img e ++ bs ++ fill n) = (end_len fr bs + 7) / 8 * 8)
    by (rewrite !length_app, length_fill; lia).
  assert (E' : (if mac_hdr_is_written fr then get_frag_or_end_chunk fr (new SCH_F_CAP)
    else get_resource_chunk fr (new SCH_F_CAP)) = Some (true, _, b)) by (rewrite Hw; exact E).
  pose proof (get_next_chunk_new fr heap _ _ _ Ho E' eq_refl) as Eg.
  destruct (slot_on_air code _ _ _ _ _ _ _ ms Eg Wr) as (type5 & pdu & rest & Es & Er & Wp & Pp & Rp & Hc' & Hlen); [lia|].
  assert (Rp' : remaining pdu = end_img e ++ bs ++ fill n ++ rest) by (by rewrite Rp, <- !app_assoc).
  destruct (rx_end_spec ms code pdu bs n a old O Ht Wp Pp H Hmax e ((end_len fr bs + 7) / 8) rest V)
    as (d & sdu & Ex & Od & Hs); [done..|lia|done|].
  exists type5, (set_transmitted (update fr (resource fr) true (sdu_after fr (length bs)) None) true),
    (with_defrag ms d), sdu. split; [exact Es|]. split; [|done]. rewrite Er.
  apply (rx_block_last ms code pdu (end_img e ++ bs ++ fill n) rest); try done.
  rewrite Hl'. destruct (end_img_type e (bs ++ fill n ++ rest)) as (l & Et). rewrite Et in Rp'.
  rewrite (dispatch_end ms _ pdu Wp Pp l Rp'). cbn [i_scrambling_code]. by rewrite Ex.
Qed.

(** A slot with a middle fragment. *)
Lemma slot_frag :
  SCH_F_CAP < (end_len fr bs + 7) / 8 * 8 ->
  exists type5 fr' ms', send_slot code fr heap = Some (false, fr', heap, type5) /\
    receive_slot code ms type5 = Some (ms', []) /\
    in_progress fr' ms' a (old ++ take 264 bs) (drop 264 bs) /\ tx_reporter fr' = tx_reporter fr.
Proof using I.
  intros Hfit. destruct I as [Hw Ho Hc Wf Hb O Ht H Hmax]. pose proof end_len_bound as Hel.
  assert (Hne : bs <> []) by (intros ->; unfold SCH_F_CAP in Hfit; cbn in Hel; divlia).
  destruct (frag_chunk fr (new SCH_F_CAP) bs Hw Hc (wf_new _) Wf Hb) as (b & E & Wr & Hcap); [done..|vm_compute; lia|done|].
  change (get_len_remaining (new SCH_F_CAP) - 4) with 264 in *.
  change (get_len_remaining (new SCH_F_CAP)) with 268 in *.
  set (k := Nat.min 264 (length bs)) in *. set (n := 264 - k) in *.
  assert (Hk : take k bs = take 264 bs /\ drop k bs = drop 264 bs).
  { unfold k. destruct (Nat.le_ge_cases 264 (length bs)) as [Hle|Hle].
    - by rewrite Nat.min_l.
    - rewrite Nat.min_r by done. by rewrite !take_ge, !drop_ge by lia. }
  destruct Hk as [Hk1 Hk2].
  assert (Hl' : length (concat [val_bits 2 1; val_bits 1 0; img_bool (0 <? n)] ++ take k bs ++ fill n) = 268).
  { rewrite !length_app, length_fill. change (length (concat _)) with 4. rewrite length_take. lia. }
  assert (E' : (if mac_hdr_is_written fr then get_frag_or_end_chunk fr (new SCH_F_CAP)
    else get_resource_chunk fr (new SCH_F_CAP)) = Some (false, _, b)) by (rewrite Hw; exact E).
  pose proof (get_next_chunk_new fr heap _ _ _ Ho E' eq_refl) as Eg.
  destruct (slot_on_air code _ _ _ _ _ _ _ ms Eg Wr) as (type5 & pdu & rest & Es & Er & Wp & Pp & Rp & _ & Hlen);
    [unfold SCH_F_CAP; lia|].
  assert (rest = []) as ->.
  { rewrite length_app, Hl' in Hlen. unfold SCH_F_CAP in Hlen. apply length_zero_iff_nil. lia. }
  rewrite app_nil_r in Rp.
  destruct (rx_frag_spec ms pdu (take k bs) n a old O Ht Wp Pp H) as (d & b' & Ex & Sb & Od & Hd);
    [rewrite length_take; lia|done|].
  eexists type5, _, (with_defrag ms d). split; [exact Es|]. split; [|split; [|done]].
  - rewrite Er. eapply rx_block_stop; [|exact Sb].
    rewrite (dispatch_frag ms _ pdu Wp Pp _ Rp), Ex. done.
  - rewrite Hk1 in Hd. split; try done.
    + apply wf_with_pos; [done|]. pose proof (wf_start _ Wf). pose proof (wf_pos _ Wf).
      assert (k <= length (remaining (sdu fr))) by (rewrite Hb; lia). rewrite length_remaining in *. lia.
    + cbn. unfold sdu_after. rewrite remaining_with_pos, Hb, Hk2; [done|].
      rewrite <- length_remaining, Hb. lia.
    + rewrite length_app, length_take, length_drop. lia.
Qed.
End progress.

(** Enough slots complete a message in progress. *)
Lemma link_progress code slots : forall fr ms heap a old bs,
  in_progress fr ms a old bs -> length bs / 197 + 1 <= slots ->
  exists ms' sdu, link code slots fr ms heap = Some (true, [TmaUnitdataInd sdu a code 0], ms', completed fr heap) /\
    holds sdu (old ++ bs).
Proof.
  induction slots as [|slots IH]; intros fr ms heap a old bs I Hs; [lia|]. cbn [link].
  pose proof (end_len_bound fr bs) as Hel.
  destruct (Nat.le_gt_cases ((end_len fr bs + 7) / 8 * 8) SCH_F_CAP) as [Hf|Hf].
  - destruct (slot_end code fr ms heap a old bs I Hf) as (type5 & fr' & ms' & sdu & -> & Er & Hh).
    rewrite bind_Some, Er, bind_Some. by exists ms', sdu.
  - destruct (slot_frag code fr ms heap a old bs I Hf) as (type5 & fr' & ms' & -> & Er & I' & Ht).
    rewrite bind_Some, Er, bind_Some.
    destruct (IH fr' ms' heap a (old ++ take 264 bs) (drop 264 bs) I') as (ms2 & sdu & -> & Hh).
    { rewrite length_drop. unfold SCH_F_CAP in Hf. divlia. }
    rewrite bind_Some. exists ms2, sdu. split; [by rewrite (eq_sym Ht : tx_reporter fr = _) || (unfold completed; by rewrite Ht)|].
    by rewrite <- app_assoc, take_drop in Hh.
Qed.

(** ** The first slot *)

Section first.
Context (code : Z) (fr : BsFragger) (ms : UmacMs) (heap : store) (ty : MacResourceAddrType).
Context (a : TetraAddress) (bs : list bool).
Context (Hs : sendable (resource fr) ty) (Ha : addr (resource fr) = Some a).
Context (Hw : mac_hdr_is_written fr = false) (Ho : is_fully_transmitted fr = false).
Context (Wf : wf (sdu fr)) (Hp : get_pos (sdu fr) = 0) (Hb : remaining (sdu fr) = bs) (Hne : bs <> []).
Context (O : ms_ok (defrag ms)) (Ht : (1 <= t (dltime ms) <= 4)%Z).

Let hdr := compute_header_len (resource fr).

Lemma sendable_clear : encryption_mode (resource fr) = 0%Z.
Proof using Hs. destruct Hs as [_ [_ [->|E]] N]; [done|exact E]. Qed.

(** A message that fits is delivered with the one slot, if its PDU ends on an octet. *)
Lemma slot_whole :
  hdr + length bs <= SCH_F_CAP - 4 ->
  exists type5 fr' sdu, send_slot code fr heap = Some (true, fr', completed fr heap, type5) /\
    receive_slot code ms type5 = Some (ms, [TmaUnitdataInd sdu (air_addr a) code 0]) /\ holds sdu bs.
Proof using Hs Ha Hw Ho Wf Hp Hb Hne O Ht.
  intros Hfit. unfold SCH_F_CAP in Hfit.
  destruct (whole_chunk fr (new SCH_F_CAP) ty bs Hs (wf_new _) Wf Hb ltac:(done) Hw Hp) as (b & E & Wr);
    [change (get_len_remaining (new SCH_F_CAP)) with 268; fold hdr; lia|].
  change (get_len_remaining (new SCH_F_CAP)) with 268 in *. fold hdr in E, Wr.
  set (n := compute_required (hdr + length bs) 268) in *. set (r := with_len_fill _ _ _) in *.
  assert (Hn : (hdr + length bs + n) mod 8 = 0 /\ hdr + length bs + n <= 268).
  { destruct (compute_required_aligned (hdr + length bs) 268) as (H1 & [H2|H2] & H3); [lia|done|].
    fold n in H1, H2. exfalso. unfold n, compute_required, compute_required_bytealigned in H2.
    destruct (Nat.leb_spec 268 (hdr + length bs)); [lia|].
    destruct (Nat.leb_spec (hdr + length bs + (8 - (hdr + length bs) mod 8) mod 8) 268); divlia. }
  destruct Hn as [Hn1 Hn2]. set (len := (hdr + length bs + n) / 8) in *.
  assert (Hlen : len * 8 = hdr + length bs + n) by (unfold len; divlia).
  pose proof (compute_header_len_bounds (resource fr)) as Hh. fold hdr in Hh.
  destruct (sendable_accepted (resource fr) ty (Z.of_nat len) (0 <? n) Hs) as [T A]; [lia|]. fold r in T, A.
  assert (Hl' : length (resource_img r ty ++ bs ++ fill n) = len * 8).
  { rewrite !length_app, length_fill, (length_resource_img r ty T A). change (compute_header_len r) with hdr. lia. }
  assert (E' : (if mac_hdr_is_written fr then get_frag_or_end_chunk fr (new SCH_F_CAP)
    else get_resource_chunk fr (new SCH_F_CAP)) = Some (true, _, b)) by (rewrite Hw; exact E).
  pose proof (get_next_chunk_new fr heap _ _ _ Ho E' eq_refl) as Eg.
  destruct (slot_on_air code _ _ _ _ _ _ _ ms Eg Wr) as (type5 & pdu & rest & Es & Er & Wp & Pp & Rp & Hc & Hl2);
    [unfold SCH_F_CAP; lia|].
  assert (Rp' : remaining pdu = resource_img r ty ++ bs ++ fill n ++ rest) by (by rewrite Rp, <- !app_assoc).
  destruct (rx_resource_whole ms code pdu r ty a bs n rest T A Ha sendable_clear eq_refl Wp Pp Rp' len Hne eq_refl)
    as (sdu & Ex & Hd); [exact Hlen|lia|].
  eexists type5, _, sdu. split; [exact Es|]. split; [|done]. rewrite Er.
  eapply (rx_block_last ms code pdu (resource_img r ty ++ bs ++ fill n) rest); try done.
  rewrite Hl'. destruct (resource_img_type r ty (bs ++ fill n ++ rest)) as (x & l & Et). rewrite Et in Rp'.
  rewrite (dispatch_resource ms _ pdu Wp Pp x l Rp'). cbn [i_scrambling_code]. by rewrite Ex.
Qed.

(** A PDU that fills the block to its last bit announces 33 octets, so the receiver takes
    the last four bits of the message for the rest of the block. *)
Lemma slot_exact :
  hdr + length bs = SCH_F_CAP -> 4 < length bs ->
  exists type5 fr' sdu, send_slot code fr heap = Some (true, fr', completed fr heap, type5) /\
    receive_slot code ms type5 = Some (ms, [TmaUnitdataInd sdu (air_addr a) code 0]) /\
    holds sdu (take (length bs - 4) bs).
Proof using Hs Ha Hw Ho Wf Hp Hb Hne O Ht.
  intros Hfit H4. unfold SCH_F_CAP in Hfit.
  destruct (whole_chunk fr (new SCH_F_CAP) ty bs Hs (wf_new _) Wf Hb ltac:(done) Hw Hp) as (b & E & Wr);
    [change (get_len_remaining (new SCH_F_CAP)) with 268; fold hdr; lia|].
  change (get_len_remaining (new SCH_F_CAP)) with 268 in *. fold hdr in E, Wr. rewrite Hfit in E, Wr.
  change (compute_required 268 268) with 0 in E, Wr. change ((268 + 0) / 8) with 33 in E, Wr.
  change (fill 0) with (@nil bool) in Wr. set (r := with_len_fill _ _ _) in *.
  destruct (sendable_accepted (resource fr) ty (Z.of_nat 33) (0 <? 0) Hs) as [T A]; [lia|]. fold r in T, A.
  assert (Hl' : length (resource_img r ty ++ bs ++ []) = 268).
  { rewrite !length_app, (length_resource_img r ty T A). change (compute_header_len r) with hdr. cbn. lia. }
  assert (E' : (if mac_hdr_is_written fr then get_frag_or_end_chunk fr (new SCH_F_CAP)
    else get_resource_chunk fr (new SCH_F_CAP)) = Some (true, _, b)) by (rewrite Hw; exact E).
  pose proof (get_next_chunk_new fr heap _ _ _ Ho E' eq_refl) as Eg.
  destruct (slot_on_air code _ _ _ _ _ _ _ ms Eg Wr) as (type5 & pdu & rest & Es & Er & Wp & Pp & Rp & Hc & Hl2);
    [unfold SCH_F_CAP; lia|].
  set (k := length bs - 4) in *.
  assert (Rp' : remaining pdu = resource_img r ty ++ take k bs ++ fill 0 ++ (drop k bs ++ rest)).
  { rewrite Rp, app_nil_r, <- app_assoc. cbn [fill app]. by rewrite (app_assoc (take k bs)), take_drop. }
  assert (Hk : length (take k bs) = k) by (rewrite length_take; lia).
  destruct (rx_resource_whole ms code pdu r ty a (take k bs) 0 (drop k bs ++ rest) T A Ha sendable_clear eq_refl
    Wp Pp Rp' 33) as (sdu & Ex & Hd).
  { intros H0. rewrite H0 in Hk. cbn in Hk. lia. }
  { done. }
  { rewrite Hk. change (compute_header_len r) with hdr. lia. }
  { lia. }
  eexists type5, _, sdu. split; [exact Es|]. split; [|done]. rewrite Er.
  eapply (rx_block_last ms code pdu (resource_img r ty ++ take k bs) (drop k bs ++ rest)); try done.
  - by rewrite Rp', <- app_assoc.
  - left. rewrite !length_app in Hl2. rewrite !length_app in Hl'. rewrite length_app, length_drop.
    unfold SCH_F_CAP in Hl2. cbn [length] in *. lia.
  - replace (length (resource_img r ty ++ take k bs)) with (33 * 8)
      by (rewrite length_app, (length_resource_img r ty T A), Hk; change (compute_header_len r) with hdr; lia).
    destruct (resource_img_type r ty (take k bs ++ fill 0 ++ drop k bs ++ rest)) as (x & l & Et). rewrite Et in Rp'.
    rewrite (dispatch_resource ms _ pdu Wp Pp x l Rp'). cbn [i_scrambling_code]. by rewrite Ex.
  - rewrite <- Hl2, !length_app, !length_drop, length_take. cbn [length]. lia.
Qed.

(** A message that does not fit starts being collected. *)
Lemma slot_first :
  SCH_F_CAP < hdr + length bs -> length bs <= DEFRAG_BUF_MAX_LEN ->
  exists k type5 fr' ms', send_slot code fr heap = Some (false, fr', heap, type5) /\
    receive_slot code ms type5 = Some (ms', []) /\ tx_reporter fr' = tx_reporter fr /\
    in_progress fr' ms' (air_addr a) (take k bs) (drop k bs) /\ Nat.min 197 (length bs) <= k.
Proof using Hs Ha Hw Ho Wf Hp Hb Hne O Ht.
  intros Hfit Hmax. unfold SCH_F_CAP in Hfit. set (hd := compute_header_len (without_chan_alloc (resource fr))).
  assert (Hhd : 16 <= hd <= 71).
  { unfold hd, compute_header_len. destruct (is_null_pdu _); [lia|]. cbn. repeat case_bool_decide; lia. }
  destruct (first_chunk fr (new SCH_F_CAP) ty bs Hs (wf_new _) Wf Hb ltac:(done) Hw Hp) as (b & E & Wr & Hcap);
    [change (get_len_remaining (new SCH_F_CAP)) with 268; fold hdr hd; lia..|].
  change (get_len_remaining (new SCH_F_CAP)) with 268 in *. fold hd in E, Wr, Hcap.
  set (k := Nat.min (268 - hd) (length bs)) in *. set (n := 268 - hd - k) in *. set (r := with_len_fill _ _ _) in *.
  destruct (sendable_accepted _ ty 0x3f (0 <? n) (sendable_without _ _ Hs)) as [T A]; [lia|]. fold r in T, A.
  assert (Hk : length (take k bs) = k) by (rewrite length_take; lia).
  assert (Hl' : length (resource_img r ty ++ take k bs ++ fill n) = 268).
  { rewrite !length_app, length_fill, (length_resource_img r ty T A), Hk. change (compute_header_len r) with hd. lia. }
  assert (E' : (if mac_hdr_is_written fr then get_frag_or_end_chunk fr (new SCH_F_CAP)
    else get_resource_chunk fr (new SCH_F_CAP)) = Some (false, _, b)) by (rewrite Hw; exact E).
  pose proof (get_next_chunk_new fr heap _ _ _ Ho E' eq_refl) as Eg.
  destruct (slot_on_air code _ _ _ _ _ _ _ ms Eg Wr) as (type5 & pdu & rest & Es & Er & Wp & Pp & Rp & Hc & Hl2);
    [unfold SCH_F_CAP; lia|].
  assert (rest = []) as ->.
  { rewrite length_app, Hl' in Hl2. unfold SCH_F_CAP in Hl2. apply length_zero_iff_nil. lia. }
  assert (Rp' : remaining pdu = resource_img r ty ++ take k bs ++ fill n ++ []) by (by rewrite Rp, <- !app_assoc).
  pose proof (resource_framed pdu r ty (take k bs) n [] T A Wp Pp Rp') as F.
  destruct (framed_cut _ _ _ _ _ F) as (_ & W2 & R2). change (compute_header_len r) with hd in F, W2, R2.
  destruct (ms_insert_first_spec _ _ (dltime ms) (air_addr a) O Ht W2) as (d & Ed & Od & Hd).
  pose proof (rx_resource_first ms code pdu r ty a (take k bs) n [] T A Ha sendable_clear eq_refl Wp Pp Rp'
    d _ _ eq_refl eq_refl eq_refl Ed (advanced_taken _ W2)) as Ex.
  exists k, type5. eexists _, (with_defrag ms d). split; [exact Es|]. split; [|split; [done|split]].
  - rewrite Er. eapply (rx_block_last ms code pdu (resource_img r ty ++ take k bs ++ fill n) []); try done.
    destruct (resource_img_type r ty (take k bs ++ fill n ++ [])) as (x & l & Et). rewrite Et in Rp'.
    rewrite (dispatch_resource ms _ pdu Wp Pp x l Rp'). cbn [i_scrambling_code]. rewrite Ex, Hl'.
    change (compute_header_len r) with hd. by rewrite Hk, Hcap.
  - rewrite R2 in Hd. split; try done.
    + apply Hs.
    + apply wf_with_pos; [done|]. pose proof (wf_start _ Wf). pose proof (wf_pos _ Wf).
      assert (k <= length (remaining (sdu fr))) by (rewrite Hb; lia). rewrite length_remaining in *. lia.
    + cbn. unfold sdu_after. rewrite remaining_with_pos, Hb; [done|]. rewrite <- length_remaining, Hb. lia.
    + rewrite Hk, length_drop. lia.
  - unfold k. lia.
Qed.
End first.

(** A new message. *)
Lemma BsFragger_new_inv r s rep fr :
  wf s -> BsFragger_new r s rep = Some fr ->
  get_pos s = 0 /\ resource fr = r /\ sdu fr = s /\ tx_reporter fr = rep /\
  mac_hdr_is_written fr = false /\ is_fully_transmitted fr = false.
Proof.
  intros W. unfold BsFragger_new. destruct (Nat.eqb_spec (get_pos s) 0) as [E|E]; [|done].
  cbn. intros [= <-]. done.
Qed.

(** ** Claims *)

(** C1 (a downlink message arrives).  For every message of 1 to 4096 bits with an address that
    with its header does not take 265 to 268 bits (the last four bits of the block, see
    [exact_fit_truncated]), every header the serializer accepts (with or without slot grant and channel
    allocation), every scrambling code and every consistent state of the mobile, the base
    station's fragmenter, both lower MACs and the mobile's upper MAC together need at most
    [length / 197 + 2] slots, no component panics, and exactly one TMA-UNITDATA indication
    with exactly the message's bits and address reaches the mobile's LLC; the receipt is
    then marked transmitted. *)
Theorem downlink_delivery code r ty a s rep fr ms heap slots :
  sendable r ty -> addr r = Some a -> wf s -> remaining s <> [] ->
  length (remaining s) <= DEFRAG_BUF_MAX_LEN -> BsFragger_new r s rep = Some fr ->
  ms_ok (defrag ms) -> (1 <= t (dltime ms) <= 4)%Z ->
  compute_header_len r + length (remaining s) <= SCH_F_CAP - 4 \/
  SCH_F_CAP < compute_header_len r + length (remaining s) ->
  length (remaining s) / 197 + 2 <= slots ->
  exists ms' sdu', link code slots fr ms heap
    = Some (true, [TmaUnitdataInd sdu' (air_addr a) code 0], ms', completed fr heap) /\
    holds sdu' (remaining s).
Proof.
  intros Hs Ha W Hne Hmax Ef O Ht Hfit Hslots.
  destruct (BsFragger_new_inv r s rep fr W Ef) as (Hp & <- & <- & Hr & Hw & Ho).
  destruct slots as [|slots]; [lia|]. cbn [link]. destruct Hfit as [Hfit|Hfit].
  - destruct (slot_whole code fr ms heap ty a _ Hs Ha Hw Ho W Hp eq_refl Hne O Ht Hfit)
      as (type5 & fr' & sdu' & -> & Er & Hh).
    rewrite bind_Some, Er, bind_Some. by exists ms, sdu'.
  - destruct (slot_first code fr ms heap ty a _ Hs Ha Hw Ho W Hp eq_refl Hne O Ht Hfit Hmax)
      as (k & type5 & fr' & ms' & -> & Er & Htx & I & Hk).
    rewrite bind_Some, Er, bind_Some.
    destruct (link_progress code slots fr' ms' heap _ _ _ I) as (ms2 & sdu' & -> & Hh).
    { rewrite length_drop. divlia. }
    rewrite bind_Some. exists ms2, sdu'. split; [unfold completed; by rewrite Htx|by rewrite take_drop in Hh].
Qed.

(** A header for one subscriber. *)
Definition plain_resource : MacResource :=
  mkResource false 0 0 false 0 (Some (mkAddr 1234 Issi)) None None None None None.

Lemma plain_resource_sendable : sendable plain_resource AtSsi.
Proof.
  split; [|split; [reflexivity|right; reflexivity]|done].
  split; cbn; try lia; try done. intros x [= <-]. cbn. lia.
Qed.

Lemma downlink_delivery_witness :
  exists fr, BsFragger_new plain_resource (new 400) (Some (mkReporter false 0)) = Some fr /\
  exists ms' sdu', link 3 4 fr UmacMs_new {[ 0 := tx_raw Pending ]}
    = Some (true, [TmaUnitdataInd sdu' (mkAddr 1234 Ssi) 3 0], ms', completed fr {[ 0 := tx_raw Pending ]}) /\
    holds sdu' (remaining (new 400)).
Proof.
  eexists. split; [reflexivity|].
  apply (downlink_delivery 3 plain_resource AtSsi (mkAddr 1234 Issi) (new 400) (Some (mkReporter false 0))).
  - apply plain_resource_sendable.
  - reflexivity.
  - apply wf_new.
  - intros H. apply (f_equal length) in H. rewrite length_remaining in H. cbn in H. lia.
  - rewrite length_remaining. apply Nat.leb_le. vm_compute. reflexivity.
  - reflexivity.
  - apply ms_ok_new.
  - cbn. lia.
  - right. rewrite length_remaining. apply Nat.ltb_lt. vm_compute. reflexivity.
  - rewrite length_remaining. apply Nat.leb_le. vm_compute. reflexivity.
Defined.

(** C36 (an exact fit loses four bits).  A MAC-RESOURCE that, with its message, fills the 268
    bits of the block announces 33 octets, since [get_resource_chunk] divides the length by
    8 without rounding up; the mobile delivers the message without its last four bits. *)
Theorem exact_fit_truncated code r ty a s rep fr ms heap :
  sendable r ty -> addr r = Some a -> wf s -> BsFragger_new r s rep = Some fr ->
  ms_ok (defrag ms) -> (1 <= t (dltime ms) <= 4)%Z ->
  compute_header_len r + length (remaining s) = SCH_F_CAP ->
  exists ms' sdu', link code 1 fr ms heap
    = Some (true, [TmaUnitdataInd sdu' (air_addr a) code 0], ms', completed fr heap) /\
    holds sdu' (take (length (remaining s) - 4) (remaining s)).
Proof.
  intros Hs Ha W Ef O Ht Hfit. pose proof (compute_header_len_bounds r) as Hb. unfold SCH_F_CAP in Hfit.
  assert (Hne : remaining s <> []) by (intros E; rewrite E in Hfit; cbn in Hfit; lia).
  destruct (BsFragger_new_inv r s rep fr W Ef) as (Hp & <- & <- & Hr & Hw & Ho). cbn [link].
  destruct (slot_exact code fr ms heap ty a _ Hs Ha Hw Ho W Hp eq_refl Hne O Ht Hfit)
    as (type5 & fr' & sdu' & -> & Er & Hh); [lia|].
  rewrite bind_Some, Er, bind_Some. by exists ms, sdu'.
Qed.

Lemma exact_fit_truncated_witness :
  exists fr, BsFragger_new plain_resource (new 225) None = Some fr /\
  exists ms' sdu', link 3 1 fr UmacMs_new ∅
    = Some (true, [TmaUnitdataInd sdu' (mkAddr 1234 Ssi) 3 0], ms', completed fr ∅) /\
    holds sdu' (take (length (remaining (new 225)) - 4) (remaining (new 225))).
Proof.
  eexists. split; [reflexivity|].
  apply (exact_fit_truncated 3 plain_resource AtSsi (mkAddr 1234 Issi) (new 225) None).
  - apply plain_resource_sendable.
  - reflexivity.
  - apply wf_new.
  - reflexivity.
  - apply ms_ok_new.
  - cbn. lia.
  - rewrite length_remaining. reflexivity.
Defined.
