(* ===== verification/Circuits.v ===== *)
(** * Traffic circuits of the upper MAC (umac/subcomp/circuit_mgr.rs)

    The circuits open in each direction of the four timeslots
    (crates/tetra-saps/src/control/call_control.rs) and, per timeslot, the queue of
    speech blocks waiting for the downlink.  The queue is bounded: when it is full the
    oldest block makes room for the newest one. *)

From Stdlib Require Import ZArith Lia ZifyNat.
From S2P Require Import Prelude.
From S2P Require Import MacFields.
From S2P Require Import UmacMs.

Inductive Direction := DirNone | DirUl | DirDl | DirBoth.
#[export] Instance Direction_eq_dec : EqDecision Direction.
Proof. solve_decision. Defined.

Inductive CircuitModeType := TchS | Tch72 | Tch48n1 | Tch48n4 | Tch48n8 | Tch24n1 | Tch24n4 | Tch24n8.
Inductive CircuitDlMediaSource := LocalLoopback | LocalParrot | SwMI.

Record Circuit := mkCircuit {
  c_direction : Direction;
  c_ts : Z;
  c_peer_ts : option Z;
  c_usage : Z;
  c_circuit_mode : CircuitModeType;
  c_speech_service : option Z;
  c_etee_encrypted : bool;
  c_dl_media_source : CircuitDlMediaSource;
  c_active_addr : option TetraAddress;
  c_active_secondary_addrs : list TetraAddress
}.

Definition active_addresses (self : Circuit) : list TetraAddress :=
  option_list (c_active_addr self) ++ c_active_secondary_addrs self.
Definition is_active_for_addr (self : Circuit) (addr : TetraAddress) : bool :=
  existsb (fun active_addr => bool_decide (active_addr = addr)) (active_addresses self).
Definition is_primary_issi_scoped (self : Circuit) : bool :=
  match c_active_addr self with Some a => bool_decide (ssi_type a = Issi) | None => false end.

(** ** Blocks waiting for transmission *)

Definition MAX_TX_DATA_BLOCKS_PER_TIMESLOT : nat := 18.

Inductive CircuitTxBlock :=
  | AcElp (source_ul_ts : option Z) (speaker_addr : option TetraAddress) (block : list Z)
  | RawTchSHalfSlot (source_ul_ts : option Z) (speaker_addr : option TetraAddress)
      (block_num : PhyBlockNum) (type5_bits : list Z).

Definition matches_source (self : CircuitTxBlock) (source_ul_ts : Z) (source_addr : TetraAddress) : bool :=
  let '(block_source_ul_ts, speaker_addr) :=
    match self with AcElp s a _ => (s, a) | RawTchSHalfSlot s a _ _ => (s, a) end in
  bool_decide (block_source_ul_ts = Some source_ul_ts)
  && match speaker_addr with None => true | Some addr => bool_decide (addr = source_addr) end.

(** ** The circuit manager

    Arrays of four; every access follows the test that the timeslot is 1 to 4. *)

Record CircuitMgr := mkCircuitMgr {
  dl : list (option Circuit);
  ul : list (option Circuit);
  tx_data : list (list CircuitTxBlock)
}.

Definition CircuitMgr_new : CircuitMgr :=
  mkCircuitMgr (replicate 4 None) (replicate 4 None) (replicate 4 []).

Definition ts_ok (ts : Z) : bool := ((1 <=? ts) && (ts <=? 4))%Z.
(** [ts as usize - 1] *)
Definition at_ts (ts : Z) : nat := Z.to_nat (ts - 1).

Definition set_dl (self : CircuitMgr) (ts : Z) (c : option Circuit) : CircuitMgr :=
  mkCircuitMgr (<[at_ts ts := c]> (dl self)) (ul self) (tx_data self).
Definition set_ul (self : CircuitMgr) (ts : Z) (c : option Circuit) : CircuitMgr :=
  mkCircuitMgr (dl self) (<[at_ts ts := c]> (ul self)) (tx_data self).
Definition set_tx (self : CircuitMgr) (ts : Z) (q : list CircuitTxBlock) : CircuitMgr :=
  mkCircuitMgr (dl self) (ul self) (<[at_ts ts := q]> (tx_data self)).

Definition is_active (self : CircuitMgr) (dir : Direction) (ts : Z) : bool :=
  if negb (ts_ok ts) then false
  else match dir with
       | DirDl => bool_decide (is_Some (dl self !!! at_ts ts))
       | DirUl => bool_decide (is_Some (ul self !!! at_ts ts))
       | _ => false
       end.

Definition get_usage (self : CircuitMgr) (dir : Direction) (ts : Z) : option Z :=
  if negb (ts_ok ts) then None
  else match dir with
       | DirDl => c_usage <$> dl self !!! at_ts ts
       | DirUl => c_usage <$> ul self !!! at_ts ts
       | _ => None
       end.

Definition close_circuit (self : CircuitMgr) (dir : Direction) (ts : Z) : option Circuit * CircuitMgr :=
  if negb (ts_ok ts) then (None, self)
  else match dir with
       | DirDl => (dl self !!! at_ts ts, set_dl (set_tx self ts []) ts None)
       | DirUl => (ul self !!! at_ts ts, set_ul self ts None)
       | _ => (None, self)
       end.

Definition create_circuit (self : CircuitMgr) (dir : Direction) (circuit : Circuit) : CircuitMgr :=
  let ts := c_ts circuit in
  if negb (ts_ok ts) then self
  else
    let self := if is_active self dir ts then (close_circuit self dir ts).2 else self in
    match dir with
    | DirDl =>
        let self := match tx_data self !!! at_ts ts with [] => self | _ => set_tx self ts [] end in
        set_dl self ts (Some circuit)
    | DirUl => set_ul self ts (Some circuit)
    | _ => self
    end.

Definition with_media_source (c : Circuit) (src : CircuitDlMediaSource) : Circuit :=
  mkCircuit (c_direction c) (c_ts c) (c_peer_ts c) (c_usage c) (c_circuit_mode c)
    (c_speech_service c) (c_etee_encrypted c) src (c_active_addr c) (c_active_secondary_addrs c).

Definition set_dl_media_source (self : CircuitMgr) (ts : Z) (src : CircuitDlMediaSource)
  : bool * CircuitMgr :=
  if negb (ts_ok ts) then (false, self)
  else
    let '(updated, self) :=
      match dl self !!! at_ts ts with
      | Some c => (true, set_dl self ts (Some (with_media_source c src)))
      | None => (false, self)
      end in
    match ul self !!! at_ts ts with
    | Some c => (true, set_ul self ts (Some (with_media_source c src)))
    | None => (updated, self)
    end.

Definition push_tx_data_bounded (self : CircuitMgr) (ts : Z) (block : CircuitTxBlock) : CircuitMgr :=
  let queue := tx_data self !!! at_ts ts in
  let queue := if MAX_TX_DATA_BLOCKS_PER_TIMESLOT <=? length queue then drop 1 queue else queue in
  set_tx self ts (queue ++ [block]).

Definition put_block_with_source (self : CircuitMgr) (ts : Z) (source_ul_ts : option Z)
  (speaker_addr : option TetraAddress) (block : list Z) : CircuitMgr :=
  if negb (ts_ok ts) then self
  else if negb (is_active self DirDl ts) then self
  else push_tx_data_bounded self ts (AcElp source_ul_ts speaker_addr block).
Definition put_block (self : CircuitMgr) (ts : Z) (block : list Z) : CircuitMgr :=
  put_block_with_source self ts None None block.
Definition put_block_from_ul (self : CircuitMgr) (ts source_ul_ts : Z)
  (speaker_addr : option TetraAddress) (block : list Z) : CircuitMgr :=
  put_block_with_source self ts (Some source_ul_ts) speaker_addr block.

Definition put_raw_tch_s_half_slot_with_source (self : CircuitMgr) (ts : Z) (source_ul_ts : option Z)
  (speaker_addr : option TetraAddress) (block_num : PhyBlockNum) (type5_bits : list Z) : CircuitMgr :=
  if negb (ts_ok ts) then self
  else if negb (is_active self DirDl ts) then self
  else push_tx_data_bounded self ts (RawTchSHalfSlot source_ul_ts speaker_addr block_num type5_bits).
Definition put_raw_tch_s_half_slot (self : CircuitMgr) (ts : Z) (block_num : PhyBlockNum)
  (type5_bits : list Z) : CircuitMgr :=
  put_raw_tch_s_half_slot_with_source self ts None None block_num type5_bits.
Definition put_raw_tch_s_half_slot_from_ul (self : CircuitMgr) (ts source_ul_ts : Z)
  (speaker_addr : option TetraAddress) (block_num : PhyBlockNum) (type5_bits : list Z) : CircuitMgr :=
  put_raw_tch_s_half_slot_with_source self ts (Some source_ul_ts) speaker_addr block_num type5_bits.

Definition clear_tx_data (self : CircuitMgr) (ts : Z) : nat * CircuitMgr :=
  if negb (ts_ok ts) then (0, self)
  else (length (tx_data self !!! at_ts ts), set_tx self ts []).

Definition clear_tx_data_except_source (self : CircuitMgr) (ts source_ul_ts : Z)
  (source_addr : TetraAddress) : nat * CircuitMgr :=
  if negb (ts_ok ts) then (0, self)
  else
    let queue := tx_data self !!! at_ts ts in
    let kept := List.filter (fun block => matches_source block source_ul_ts source_addr) queue in
    (length queue - length kept, set_tx self ts kept).

Definition take_block (self : CircuitMgr) (ts : Z) : option CircuitTxBlock * CircuitMgr :=
  if negb (is_active self DirDl ts) then (None, self)
  else
    let queue := tx_data self !!! at_ts ts in
    (head queue, set_tx self ts (tail queue)).

(** ** The abstract channel

    What a timeslot's downlink promises: closed, or open with a queue of blocks.  A
    block offered to an open channel is appended and only the newest
    [MAX_TX_DATA_BLOCKS_PER_TIMESLOT] survive. *)

Definition Channel := option (list CircuitTxBlock).

Definition newest {A} (n : nat) (l : list A) : list A := drop (length l - n) l.

Definition channel (self : CircuitMgr) (ts : Z) : Channel :=
  if is_active self DirDl ts then Some (tx_data self !!! at_ts ts) else None.

(** The calls the scheduler makes. *)
Inductive circuit_op :=
  | OpCreate (dir : Direction) (circuit : Circuit)
  | OpClose (dir : Direction) (ts : Z)
  | OpMedia (ts : Z) (src : CircuitDlMediaSource)
  | OpPut (ts : Z) (src : option Z) (addr : option TetraAddress) (block : list Z)
  | OpPutRaw (ts : Z) (src : option Z) (addr : option TetraAddress) (bn : PhyBlockNum) (bits : list Z)
  | OpClear (ts : Z)
  | OpClearExcept (ts source_ul_ts : Z) (source_addr : TetraAddress)
  | OpTake (ts : Z).

Definition run_op (self : CircuitMgr) (op : circuit_op) : option CircuitTxBlock * CircuitMgr :=
  match op with
  | OpCreate dir c => (None, create_circuit self dir c)
  | OpClose dir ts => (None, (close_circuit self dir ts).2)
  | OpMedia ts src => (None, (set_dl_media_source self ts src).2)
  | OpPut ts s a b => (None, put_block_with_source self ts s a b)
  | OpPutRaw ts s a n b => (None, put_raw_tch_s_half_slot_with_source self ts s a n b)
  | OpClear ts => (None, (clear_tx_data self ts).2)
  | OpClearExcept ts s a => (None, (clear_tx_data_except_source self ts s a).2)
  | OpTake ts => take_block self ts
  end.

(** The same calls on the abstract channels; [OpMedia] and uplink circuits do not
    concern them. *)
Definition upd (chans : Z -> Channel) (ts : Z) (f : Channel -> Channel) : Z -> Channel :=
  fun ts' => if bool_decide (ts' = ts) && ts_ok ts then f (chans ts') else chans ts'.

Definition spec_op (chans : Z -> Channel) (op : circuit_op)
  : option CircuitTxBlock * (Z -> Channel) :=
  let put ts b := upd chans ts (fmap (fun q => newest MAX_TX_DATA_BLOCKS_PER_TIMESLOT (q ++ [b]))) in
  match op with
  | OpCreate DirDl c => (None, upd chans (c_ts c) (fun _ => Some []))
  | OpClose DirDl ts => (None, upd chans ts (fun _ => None))
  | OpCreate _ _ | OpClose _ _ | OpMedia _ _ => (None, chans)
  | OpPut ts s a b => (None, put ts (AcElp s a b))
  | OpPutRaw ts s a n b => (None, put ts (RawTchSHalfSlot s a n b))
  | OpClear ts => (None, upd chans ts (fmap (fun _ => [])))
  | OpClearExcept ts s a => (None, upd chans ts (fmap (List.filter (fun b => matches_source b s a))))
  | OpTake ts => (chans ts ≫= head, upd chans ts (fmap tail))
  end.

(** The blocks taken by a sequence of calls. *)
Fixpoint run_ops {S} (step : S -> circuit_op -> option CircuitTxBlock * S) (s : S)
  (ops : list circuit_op) : list (option CircuitTxBlock) * S :=
  match ops with
  | [] => ([], s)
  | op :: ops' =>
      let '(b, s') := step s op in let '(bs, s'') := run_ops step s' ops' in (b :: bs, s'')
  end.

(** ** Facts *)

(** Four entries per array, and no queue beyond its bound. *)
Record mgr_ok (m : CircuitMgr) : Prop := {
  ok_dl : length (dl m) = 4;
  ok_ul : length (ul m) = 4;
  ok_tx : length (tx_data m) = 4;
  ok_queue : Forall (fun q => length q <= MAX_TX_DATA_BLOCKS_PER_TIMESLOT) (tx_data m)
}.

Lemma ts_ok_bounds ts : ts_ok ts = true <-> (1 <= ts <= 4)%Z.
Proof. unfold ts_ok. rewrite andb_true_iff, !Z.leb_le. done. Qed.

Lemma insert_at {A} `{Inhabited A} (l : list A) ts ts' (x : A) :
  length l = 4 -> ts_ok ts = true -> ts_ok ts' = true ->
  <[at_ts ts := x]> l !!! at_ts ts' = if bool_decide (ts' = ts) then x else l !!! at_ts ts'.
Proof.
  intros Hl H1 H2. rewrite ts_ok_bounds in H1, H2. case_bool_decide as E.
  - subst ts'. rewrite list_lookup_total_insert_eq; [done|unfold at_ts; lia].
  - rewrite list_lookup_total_insert_ne; [done|unfold at_ts; lia].
Qed.

Lemma set_tx_ok m ts q :
  mgr_ok m -> length q <= MAX_TX_DATA_BLOCKS_PER_TIMESLOT -> mgr_ok (set_tx m ts q).
Proof.
  intros [] Hq. split; cbn; rewrite ?length_insert; try done. by apply Forall_insert.
Qed.
Lemma set_dl_ok m ts c : mgr_ok m -> mgr_ok (set_dl m ts c).
Proof. intros []. split; cbn; by rewrite ?length_insert. Qed.
Lemma set_ul_ok m ts c : mgr_ok m -> mgr_ok (set_ul m ts c).
Proof. intros []. split; cbn; by rewrite ?length_insert. Qed.
#[local] Hint Resolve set_tx_ok set_dl_ok set_ul_ok : core.

Lemma queue_ok m ts :
  mgr_ok m -> length (tx_data m !!! at_ts ts) <= MAX_TX_DATA_BLOCKS_PER_TIMESLOT.
Proof.
  intros [_ _ _ H]. rewrite list_lookup_total_alt.
  destruct (tx_data m !! at_ts ts) as [q|] eqn:E; cbn; [|lia].
  rewrite Forall_lookup in H. exact (H _ _ E).
Qed.

Lemma channel_not_ok m ts : ts_ok ts = false -> channel m ts = None.
Proof. intros H. unfold channel, is_active. by rewrite H. Qed.

Lemma channel_at m ts :
  ts_ok ts = true ->
  channel m ts = if bool_decide (is_Some (dl m !!! at_ts ts)) then Some (tx_data m !!! at_ts ts) else None.
Proof. intros H. unfold channel, is_active. by rewrite H. Qed.

(** A timeslot outside 1 to 4 has no channel; the others are compared one by one. *)
Ltac channels M E ts' :=
  unfold upd; rewrite E, andb_true_r; destruct (ts_ok ts') eqn:E';
  [rewrite !channel_at by done; cbn [set_tx set_dl set_ul dl ul tx_data];
   rewrite ?insert_at by (done || apply M); repeat case_bool_decide; try done
  |rewrite !channel_not_ok by done; case_bool_decide; congruence].

Lemma channel_set_tx m ts q ts' :
  mgr_ok m -> ts_ok ts = true ->
  channel (set_tx m ts q) ts' = upd (channel m) ts (fmap (fun _ => q)) ts'.
Proof. intros M E. channels M E ts'. Qed.

Lemma channel_set_dl m ts c ts' :
  mgr_ok m -> ts_ok ts = true ->
  channel (set_dl m ts (Some c)) ts' = upd (channel m) ts (fun _ => Some (tx_data m !!! at_ts ts)) ts'.
Proof.
  intros M E. channels M E ts'; subst; try done.
  all: exfalso; match goal with H : ~ is_Some (Some _) |- _ => by apply H end.
Qed.

Lemma channel_close m ts ts' :
  mgr_ok m -> ts_ok ts = true -> channel (set_dl m ts None) ts' = upd (channel m) ts (fun _ => None) ts'.
Proof.
  intros M E. channels M E ts'.
  all: exfalso; match goal with H : is_Some None |- _ => by destruct H end.
Qed.

(** Abstract states are compared timeslot by timeslot. *)
Definition same : relation (Z -> Channel) := pointwise_relation Z eq.

#[export] Instance spec_op_proper :
  Proper (same ==> (=) ==> prod_relation (=) same) spec_op.
Proof.
  intros c1 c2 H op ? <-. unfold same, pointwise_relation in *.
  destruct op as [[]|[]| | | | | |]; split; cbn; rewrite ?H; try done;
    intros ts'; unfold upd; by rewrite H.
Qed.

Lemma upd_ext chans ts f g ts' :
  f (chans ts) = g (chans ts) -> upd chans ts f ts' = upd chans ts g ts'.
Proof. intros H. unfold upd. case_bool_decide; [subst|done]. by rewrite H. Qed.

Lemma upd_inactive m ts f ts' :
  is_active m DirDl ts = false -> f None = None -> upd (channel m) ts f ts' = channel m ts'.
Proof.
  intros H Hf. unfold upd. case_bool_decide; [subst|done]. unfold channel. rewrite H, Hf. by destruct (ts_ok ts).
Qed.

Lemma upd_not_ok chans ts f ts' : ts_ok ts = false -> upd chans ts f ts' = chans ts'.
Proof. intros H. unfold upd. by rewrite H, andb_false_r. Qed.

Lemma active_ok m dir ts : is_active m dir ts = true -> ts_ok ts = true.
Proof. unfold is_active. by destruct (ts_ok ts). Qed.

Lemma channel_active m ts : is_active m DirDl ts = true -> channel m ts = Some (tx_data m !!! at_ts ts).
Proof. unfold channel. by intros ->. Qed.

(** Dropping the oldest block of a full queue keeps the newest ones. *)
Lemma push_newest (q : list CircuitTxBlock) b :
  length q <= MAX_TX_DATA_BLOCKS_PER_TIMESLOT ->
  (if MAX_TX_DATA_BLOCKS_PER_TIMESLOT <=? length q then drop 1 q else q) ++ [b]
  = newest MAX_TX_DATA_BLOCKS_PER_TIMESLOT (q ++ [b]).
Proof.
  intros H. unfold newest. rewrite length_app. cbn [length].
  destruct (Nat.leb_spec MAX_TX_DATA_BLOCKS_PER_TIMESLOT (length q)) as [Hf|Hf].
  - replace (length q + 1 - MAX_TX_DATA_BLOCKS_PER_TIMESLOT) with 1 by lia.
    destruct q; [unfold MAX_TX_DATA_BLOCKS_PER_TIMESLOT in Hf; cbn in Hf; lia|done].
  - by replace (length q + 1 - MAX_TX_DATA_BLOCKS_PER_TIMESLOT) with 0 by lia.
Qed.

Lemma newest_length {A} n (l : list A) : length (newest n l) <= n.
Proof. unfold newest. rewrite length_drop. lia. Qed.

(** Both kinds of speech block go through this. *)
Lemma push_channel m ts b :
  mgr_ok m ->
  let m' := if negb (ts_ok ts) then m
            else if negb (is_active m DirDl ts) then m else push_tx_data_bounded m ts b in
  mgr_ok m' /\ same (channel m')
    (upd (channel m) ts (fmap (fun q => newest MAX_TX_DATA_BLOCKS_PER_TIMESLOT (q ++ [b])))).
Proof.
  intros M. destruct (ts_ok ts) eqn:E; cbn [negb].
  2:{ split; [done|]. intros ts'. by rewrite upd_not_ok. }
  destruct (is_active m DirDl ts) eqn:A; cbn [negb].
  2:{ split; [done|]. intros ts'. by rewrite upd_inactive. }
  unfold push_tx_data_bounded. rewrite push_newest by by apply queue_ok.
  split; [apply set_tx_ok; [done|apply newest_length]|]. intros ts'.
  rewrite channel_set_tx by done. apply upd_ext. by rewrite channel_active.
Qed.

Lemma close_channel m dir ts :
  mgr_ok m -> mgr_ok (close_circuit m dir ts).2 /\
  same (channel (close_circuit m dir ts).2)
    (if bool_decide (dir = DirDl) then upd (channel m) ts (fun _ => None) else channel m).
Proof.
  intros M. unfold close_circuit. destruct (ts_ok ts) eqn:E; cbn [negb].
  2:{ split; [done|]. intros ts'. cbn. case_bool_decide; [|done]. by rewrite upd_not_ok. }
  destruct dir; cbn [snd]; (case_bool_decide; [try done|try done]); (split; [|intros ts']); try done.
  - apply set_ul_ok, M.
  - apply set_dl_ok, set_tx_ok; [done|cbn; lia].
  - rewrite channel_close by (done || (apply set_tx_ok; [done|cbn; lia])).
    unfold upd. case_bool_decide; [by rewrite E|cbn]. rewrite channel_set_tx by done.
    unfold upd. by case_bool_decide.
Qed.

Lemma create_channel m dir c :
  mgr_ok m -> mgr_ok (create_circuit m dir c) /\
  same (channel (create_circuit m dir c))
    (if bool_decide (dir = DirDl) then upd (channel m) (c_ts c) (fun _ => Some []) else channel m).
Proof.
  intros M. unfold create_circuit. destruct (ts_ok (c_ts c)) eqn:E; cbn [negb].
  2:{ split; [done|]. intros ts'. case_bool_decide; [|done]. by rewrite upd_not_ok. }
  set (m1 := if is_active m dir (c_ts c) then _ else _).
  assert (M1 : mgr_ok m1 /\ forall ts', ts' <> c_ts c \/ dir <> DirDl -> channel m1 ts' = channel m ts').
  { unfold m1. destruct (is_active m dir (c_ts c)); [|done].
    destruct (close_channel m dir (c_ts c) M) as [Mc Hc]. split; [done|]. intros ts' Hts. rewrite Hc.
    case_bool_decide; [|done]. unfold upd. case_bool_decide; [|done]. by destruct Hts. }
  clearbody m1. destruct M1 as [M1 Hm1].
  destruct dir; (case_bool_decide; [try done|try done]); try (split; [auto|intros ts'; apply Hm1; by right]).
  set (m2 := match tx_data m1 !!! at_ts (c_ts c) with [] => _ | _ => _ end).
  assert (M2 : mgr_ok m2 /\ tx_data m2 !!! at_ts (c_ts c) = [] /\
    forall ts', ts' <> c_ts c -> channel m2 ts' = channel m1 ts').
  { unfold m2. destruct (tx_data m1 !!! at_ts (c_ts c)) eqn:Eq; [done|]. split_and!.
    - apply set_tx_ok; [done|cbn; lia].
    - cbn. rewrite insert_at by (done || apply M1). by rewrite bool_decide_true.
    - intros ts' Hts. rewrite channel_set_tx by done. unfold upd. by rewrite bool_decide_false. }
  clearbody m2. destruct M2 as (M2 & Hq & Hm2). split; [auto|]. intros ts'.
  rewrite channel_set_dl by done. rewrite Hq. unfold upd. case_bool_decide; [by rewrite E|].
  cbn. rewrite Hm2 by done. apply Hm1. by left.
Qed.

Lemma media_channel m ts src :
  mgr_ok m -> mgr_ok (set_dl_media_source m ts src).2 /\
  same (channel (set_dl_media_source m ts src).2) (channel m).
Proof.
  intros M. unfold set_dl_media_source. destruct (ts_ok ts) eqn:E; cbn [negb]; [|done].
  assert (H : forall c, dl m !!! at_ts ts = Some c ->
    same (channel (set_dl m ts (Some (with_media_source c src)))) (channel m)).
  { intros c Hc ts'. rewrite channel_set_dl by done. unfold upd. case_bool_decide; [subst|done].
    rewrite E, channel_at by done. cbn. by rewrite Hc. }
  destruct (dl m !!! at_ts ts) as [c|] eqn:Ed; cbn.
  - destruct (ul m !!! at_ts ts) as [c'|]; cbn; (split; [auto|intros ts'; apply (H c eq_refl)]).
  - destruct (ul m !!! at_ts ts) as [c'|]; cbn; (split; [auto|done]).
Qed.

(** One call of the manager is one step of the abstract channels. *)
Lemma run_op_refines m op :
  mgr_ok m -> mgr_ok (run_op m op).2 /\
  (run_op m op).1 = (spec_op (channel m) op).1 /\ same (channel (run_op m op).2) (spec_op (channel m) op).2.
Proof.
  intros M. destruct op as [dir c|dir ts|ts src|ts s a b|ts s a n b|ts|ts s a|ts]; cbn [run_op].
  - destruct (create_channel m dir c M). by destruct dir.
  - destruct (close_channel m dir ts M). by destruct dir.
  - by destruct (media_channel m ts src M).
  - by destruct (push_channel m ts (AcElp s a b) M).
  - by destruct (push_channel m ts (RawTchSHalfSlot s a n b) M).
  - unfold clear_tx_data. destruct (ts_ok ts) eqn:E; cbn.
    + split_and!; [apply set_tx_ok; [done|cbn; lia]|done|]. intros ts'. by apply channel_set_tx.
    + split_and!; [done..|]. intros ts'. by rewrite upd_not_ok.
  - unfold clear_tx_data_except_source. destruct (ts_ok ts) eqn:E; cbn.
    + split_and!; [|done|].
      * apply set_tx_ok; [done|]. etrans; [apply List.filter_length_le|by apply queue_ok].
      * intros ts'. rewrite channel_set_tx by done. apply upd_ext. unfold channel.
        by destruct (is_active m DirDl ts).
    + split_and!; [done..|]. intros ts'. by rewrite upd_not_ok.
  - unfold take_block. destruct (is_active m DirDl ts) eqn:A; cbn.
    + rewrite channel_active by done. pose proof (active_ok _ _ _ A) as E. cbn. split_and!; [|done|].
      * apply set_tx_ok; [done|]. pose proof (queue_ok m ts M).
        destruct (tx_data m !!! at_ts ts); cbn in *; lia.
      * intros ts'. rewrite channel_set_tx by done. apply upd_ext. by rewrite channel_active.
    + split_and!; [done| |]; [unfold channel; by rewrite A|]. intros ts'. by rewrite upd_inactive.
Qed.

Lemma run_ops_refines ops : forall m chans,
  mgr_ok m -> same (channel m) chans ->
  (run_ops run_op m ops).1 = (run_ops spec_op chans ops).1 /\
  same (channel (run_ops run_op m ops).2) (run_ops spec_op chans ops).2 /\
  mgr_ok (run_ops run_op m ops).2.
Proof.
  induction ops as [|op ops IH]; intros m chans M H; [done|]. cbn.
  destruct (run_op_refines m op M) as (M' & E1 & E2).
  destruct (spec_op_proper _ _ H op op eq_refl) as [P1 P2].
  destruct (run_op m op) as [b m'], (spec_op chans op) as [b' chans']. cbn in *.
  destruct (IH m' chans' M') as (I1 & I2 & I3); [intros ts; by rewrite E2|].
  destruct (run_ops run_op m' ops), (run_ops spec_op chans' ops). cbn in *. split_and!; congruence || done.
Qed.

(** C28 (traffic circuits).  Whatever circuits are opened, closed and redirected and
    whatever speech blocks are queued, cleared and taken, in any order and on any
    timeslot number, the circuit manager hands out exactly the blocks an abstract set of
    four channels hands out: a closed channel accepts and delivers nothing, an open one
    delivers first in first out the blocks queued since it was opened, of which only the
    newest 18 are kept, and opening or closing a channel drops what was queued.  The
    queues never exceed 18 blocks. *)
Theorem circuit_mgr_refines ops :
  (run_ops run_op CircuitMgr_new ops).1 = (run_ops spec_op (fun _ => None) ops).1 /\
  same (channel (run_ops run_op CircuitMgr_new ops).2) (run_ops spec_op (fun _ => None) ops).2 /\
  mgr_ok (run_ops run_op CircuitMgr_new ops).2.
Proof.
  apply run_ops_refines.
  - split; [done..|]. repeat constructor; cbn; lia.
  - intros ts. unfold channel. destruct (is_active CircuitMgr_new DirDl ts) eqn:A; [|done].
    exfalso. revert A. unfold is_active. destruct (ts_ok ts); [|done]. cbn [negb].
    unfold CircuitMgr_new. cbn [dl]. intros H%bool_decide_eq_true.
    rewrite list_lookup_total_alt in H.
    destruct (replicate 4 None !! at_ts ts) as [o|] eqn:E; cbn in H; [|by destruct H].
    apply lookup_replicate in E as [-> _]. by destruct H.
Qed.
