(* ===== verification/UlSched.v ===== *)
(** * Uplink scheduling (the uplink half of umac/subcomp/bs_sched.rs)

    A mobile that asks for uplink capacity gets slots reserved in a schedule of 90 frames
    per timeslot.  Modelled are the search for a grant opportunity, the reservation, the
    splitting of a request into grants ([PendingGrantDebt]), the usage markers, the
    clearing of the schedule as time passes and the access assignment that announces the
    reservations on the air.  Of the scheduler's state the record keeps what these
    operations use; the downlink queues are not among it. *)

From Stdlib Require Import ZArith Lia ZifyNat.
From stdpp Require Import strings.
From S2P Require Import Prelude.
From S2P Require Import BitBuffer.
From S2P Require Import BitBufferFacts.
From S2P Require Import ErrorControl.
From S2P Require Import Tdma.
From S2P Require Import TimeslotAlloc.
From S2P Require Import Codec.
From S2P Require Import MacFields.
From S2P Require Import MacPdus.
From S2P Require Import Frag.
From S2P Require Import UplinkPdus.
From S2P Require Import AccessAssign.
From S2P Require Import UmacMs.
From S2P Require Import Circuits.

Definition MACSCHED_NUM_FRAMES : nat := 90.
Definition NUM_TIMESLOTS : nat := 4.
Definition MAX_RESERVED_ACCESS_GRANT_CHUNK_SLOTS : nat := 4.
Definition BASIC_GRANT_FULL_SLOT_COUNTS_DESC : list nat :=
  [68; 51; 34; 24; 17; 13; 10; 8; 6; 5; 4; 3; 2; 1].
Definition PACKET_DATA_ASSIGNED_SCCH_TS : Z := 2.
Definition MAX_PACKET_DATA_PENDING_GRANT_WAIT_GRANTS : Z := 24.

(** ** State *)

Record TimeslotSchedule := mkSlot {
  ul1 : option Z;
  ul2 : option Z;
  usage_marker : option Z
}.

Definition EMPTY_SCHED_ELEM : TimeslotSchedule := mkSlot None None None.
Definition EMPTY_SCHED_CHANNEL : list TimeslotSchedule := replicate MACSCHED_NUM_FRAMES EMPTY_SCHED_ELEM.
Definition EMPTY_SCHED : list (list TimeslotSchedule) := replicate 4 EMPTY_SCHED_CHANNEL.

Record PacketDataAssignment := mkPacketData {
  pd_addr : TetraAddress;
  pd_ul_dl_assigned : UlDlAssignment;
  pd_carrier_num : Z;
  pd_expires_at : TdmaTime
}.

Record BsChannelScheduler := mkSched {
  cur_dltime : TdmaTime;
  s_scrambling_code : Z;
  ulsched : list (list TimeslotSchedule);
  circuits : CircuitMgr;
  hangtime : list bool;
  next_usage_marker : list Z;
  packet_data_assignments : list (option PacketDataAssignment)
}.

(** The time is set by the first tick. *)
Definition sched_new (scrambling_code : Z) : BsChannelScheduler :=
  mkSched (mkTime 0 0 0 0) scrambling_code EMPTY_SCHED CircuitMgr_new [false; false; false; false]
    [4; 4; 4; 4]%Z [None; None; None; None].

Definition with_ulsched (self : BsChannelScheduler) (u : list (list TimeslotSchedule)) : BsChannelScheduler :=
  mkSched (cur_dltime self) (s_scrambling_code self) u (circuits self) (hangtime self)
    (next_usage_marker self) (packet_data_assignments self).
Definition with_markers (self : BsChannelScheduler) (l : list Z) : BsChannelScheduler :=
  mkSched (cur_dltime self) (s_scrambling_code self) (ulsched self) (circuits self) (hangtime self)
    l (packet_data_assignments self).

(** The uplink part of [purge_schedule], and [set_dl_time]. *)
Definition purge_schedule (self : BsChannelScheduler) : BsChannelScheduler :=
  mkSched (cur_dltime self) (s_scrambling_code self) EMPTY_SCHED (circuits self) (hangtime self)
    (next_usage_marker self) [None; None; None; None].
Definition set_dl_time (self : BsChannelScheduler) (new_ts : TdmaTime) : BsChannelScheduler :=
  purge_schedule (mkSched new_ts (s_scrambling_code self) (ulsched self) (circuits self) (hangtime self)
    (next_usage_marker self) (packet_data_assignments self)).

(** ** Requests *)

Record PendingGrantDebt := mkDebt {
  res_req : ReservationRequirement;
  remaining_slots : nat;
  wait_grants : Z
}.

Definition debt_new (res_req : ReservationRequirement) : PendingGrantDebt :=
  let remaining_slots :=
    match res_req with Req1Subslot => 1 | _ => ResReq_to_req_slotcount res_req end in
  mkDebt res_req remaining_slots 0.

Definition is_halfslot (self : PendingGrantDebt) : bool := bool_decide (res_req self = Req1Subslot).

Definition next_chunk_slots (self : PendingGrantDebt) : nat :=
  if is_halfslot self then 1 else remaining_slots self `min` MAX_RESERVED_ACCESS_GRANT_CHUNK_SLOTS.

Definition remaining_after_grant (self : PendingGrantDebt) (granted_slots : nat) : option PendingGrantDebt :=
  if is_halfslot self || (remaining_slots self <=? granted_slots) then None
  else
    let remaining_slots := remaining_slots self - granted_slots in
    Some (mkDebt (ResReq_from_req_slotcount remaining_slots) remaining_slots 0).

Definition wait_capacity_allocation (self : PendingGrantDebt) : BasicSlotgrantCapAlloc :=
  if is_halfslot self then FirstSubslotGranted else from_req_slotcount (remaining_slots self).

Definition coalesce_max (self other : PendingGrantDebt) : PendingGrantDebt :=
  let w := Z.max (wait_grants self) (wait_grants other) in
  if remaining_slots self <? remaining_slots other
  then mkDebt (res_req other) (remaining_slots other) w
  else mkDebt (res_req self) (remaining_slots self) w.

(** [saturating_add] on a [u8] *)
Definition after_wait_grant (self : PendingGrantDebt) : PendingGrantDebt :=
  mkDebt (res_req self) (remaining_slots self) (Z.min 255 (wait_grants self + 1)).

Definition packet_data_wait_budget_exhausted (self : PendingGrantDebt) : bool :=
  (MAX_PACKET_DATA_PENDING_GRANT_WAIT_GRANTS <=? wait_grants self)%Z.

(** ** The schedule

    [x as usize - 1] panics for 0. *)

Definition pred_usize (x : Z) : option nat := usub (Z.to_nat x) 1.

Definition ul_ts_to_sched_index (ts : TdmaTime) : option nat :=
  f0 ← pred_usize (f ts);
  m0 ← pred_usize (m ts);
  Some ((f0 + m0 * 18 + Z.to_nat (h ts) * 18 * 60) mod MACSCHED_NUM_FRAMES).

(** [&self.ulsched[ts.t as usize - 1][index]] *)
Definition sched_at (self : BsChannelScheduler) (ts : TdmaTime) : option TimeslotSchedule :=
  index ← ul_ts_to_sched_index ts;
  slot ← pred_usize (t ts);
  chan ← ulsched self !! slot;
  chan !! index.
Definition sched_put (self : BsChannelScheduler) (ts : TdmaTime) (elem : TimeslotSchedule)
  : option BsChannelScheduler :=
  index ← ul_ts_to_sched_index ts;
  slot ← pred_usize (t ts);
  chan ← ulsched self !! slot;
  chan' ← array_set chan index elem;
  Some (with_ulsched self (<[slot := chan']> (ulsched self))).

(** ** Packet data *)

Definition packet_data_slot_has_voice_circuit (self : BsChannelScheduler) (ts : Z) : bool :=
  if negb ((2 <=? ts) && (ts <=? Z.of_nat NUM_TIMESLOTS))%Z then false
  else is_active (circuits self) DirDl ts || is_active (circuits self) DirUl ts.

Definition packet_data_allocator_confirms_assignment (timeslot_alloc : option TimeslotAllocator) (ts : Z)
  : bool :=
  match timeslot_alloc with
  | Some allocator => bool_decide (owner allocator ts = Some PacketData)
  | None => true
  end.

Definition packet_data_assignment_supports_uplink (a : PacketDataAssignment) : bool :=
  bool_decide (pd_ul_dl_assigned a = Ul) || bool_decide (pd_ul_dl_assigned a = Both).

Definition packet_data_active_uplink_slots_for_addr_with_allocator (self : BsChannelScheduler)
  (addr : TetraAddress) (timeslot_alloc : option TimeslotAllocator) : option (list Z) :=
  let ts := PACKET_DATA_ASSIGNED_SCCH_TS in
  assignment ← packet_data_assignments self !! Z.to_nat (ts - 1);
  Some (match assignment with
        | Some a =>
            if bool_decide (pd_addr a = addr) && packet_data_assignment_supports_uplink a
               && negb (packet_data_slot_has_voice_circuit self ts)
               && packet_data_allocator_confirms_assignment timeslot_alloc ts
            then [ts] else []
        | None => []
        end).

Definition packet_data_assignment_for_timeslot_with_allocator (self : BsChannelScheduler) (ts : TdmaTime)
  (timeslot_alloc : option TimeslotAllocator) : option (option PacketDataAssignment) :=
  if negb (t ts =? PACKET_DATA_ASSIGNED_SCCH_TS)%Z || (f ts =? 18)%Z then Some None
  else if negb (packet_data_allocator_confirms_assignment timeslot_alloc (t ts)) then Some None
  else if packet_data_slot_has_voice_circuit self (t ts) then Some None
  else (i ← pred_usize (t ts); packet_data_assignments self !! i).

(** [dl_slot_index]: timeslots outside 1 to 4 are refused. *)
Definition clear_future_uplink_reservations_for_timeslot (self : BsChannelScheduler) (ts : Z)
  : BsChannelScheduler :=
  if negb ((1 <=? ts) && (ts <=? Z.of_nat NUM_TIMESLOTS))%Z then self
  else with_ulsched self (alter (fmap (fun elem =>
         if bool_decide (is_Some (ul1 elem)) || bool_decide (is_Some (ul2 elem))
            || bool_decide (is_Some (usage_marker elem))
         then EMPTY_SCHED_ELEM else elem)) (Z.to_nat (ts - 1)) (ulsched self)).

(** ** Finding a grant opportunity *)

Definition contains (l : list Z) (x : Z) : bool := existsb (Z.eqb x) l.

(** The test on one schedule entry. *)
Definition slot_usable (elem : TimeslotSchedule) (is_halfslot : bool) (reusable_owner : option Z) : bool :=
  let same_owner_full_slot :=
    match reusable_owner with
    | Some owner => negb is_halfslot && bool_decide (ul1 elem = Some owner) && bool_decide (ul2 elem = Some owner)
    | None => false
    end in
  (bool_decide (ul1 elem = None) && bool_decide (ul2 elem = None))
  || same_owner_full_slot
  || (is_halfslot && (bool_decide (ul1 elem = None) || bool_decide (ul2 elem = None))).

(** The search loop over the distances left; the outer [option] is a panic. *)
Fixpoint find_loop (self : BsChannelScheduler) (first_opportunity : TdmaTime) (channel_timeslots : list Z)
  (num_slots : nat) (is_halfslot : bool) (reusable_owner : option Z) (dists : list nat)
  (opportunities_skipped : nat) (grant_timeslots : list TdmaTime) : option (option (nat * list TdmaTime)) :=
  match dists with
  | [] => Some None
  | dist :: dists =>
      let loop := find_loop self first_opportunity channel_timeslots num_slots is_halfslot reusable_owner dists in
      let candidate_t := add_timeslots first_opportunity (Z.of_nat dist) in
      if negb (contains channel_timeslots (t candidate_t)) then loop opportunities_skipped grant_timeslots
      else if is_mandatory_clch candidate_t then
        loop (if length grant_timeslots =? 0 then opportunities_skipped + 1 else opportunities_skipped)
             grant_timeslots
      else
        elem ← sched_at self candidate_t;
        let '(opportunities_skipped, grant_timeslots) :=
          if slot_usable elem is_halfslot reusable_owner
          then (opportunities_skipped, grant_timeslots ++ [candidate_t])
          else (opportunities_skipped + (length grant_timeslots + 1), []) in
        if length grant_timeslots =? num_slots
        then Some (Some (opportunities_skipped, grant_timeslots))
        else loop opportunities_skipped grant_timeslots
  end.

Definition ul_find_grant_opportunity_on_channel_from (self : BsChannelScheduler) (base_dltime : TdmaTime)
  (grant_timeslot : Z) (channel_timeslots : list Z) (num_slots : nat) (is_halfslot : bool)
  (reusable_owner : option Z) : option (option (nat * list TdmaTime)) :=
  if (length channel_timeslots =? 0) || negb (contains channel_timeslots grant_timeslot) then Some None
  else
    let first_opportunity := forward_to_timeslot base_dltime grant_timeslot in
    if negb (negb is_halfslot || (num_slots =? 1)) then None
    else find_loop self first_opportunity channel_timeslots num_slots is_halfslot reusable_owner
           (seq 0 ((MACSCHED_NUM_FRAMES - 1) * NUM_TIMESLOTS)) 0 [].

Definition ul_find_grant_opportunity_from (self : BsChannelScheduler) (base_dltime : TdmaTime) (ts : Z)
  (num_slots : nat) (is_halfslot : bool) : option (option (nat * list TdmaTime)) :=
  ul_find_grant_opportunity_on_channel_from self base_dltime ts [ts] num_slots is_halfslot None.

Definition ul_find_grant_opportunity (self : BsChannelScheduler) (ts : Z) (num_slots : nat)
  (is_halfslot : bool) : option (option (nat * list TdmaTime)) :=
  ul_find_grant_opportunity_from self (cur_dltime self) ts num_slots is_halfslot.

Definition ul_find_grant_opportunity_for_addr_from (self : BsChannelScheduler) (base_dltime : TdmaTime)
  (timeslot : Z) (addr : TetraAddress) (num_slots : nat) (is_halfslot : bool)
  (timeslot_alloc : option TimeslotAllocator) : option (option (nat * list TdmaTime)) :=
  packet_data_uplink_slots ←
    packet_data_active_uplink_slots_for_addr_with_allocator self addr timeslot_alloc;
  if contains packet_data_uplink_slots timeslot then
    ul_find_grant_opportunity_on_channel_from self base_dltime timeslot packet_data_uplink_slots num_slots
      is_halfslot (Some (ssi addr))
  else if negb (length packet_data_uplink_slots =? 0) then Some None
  else ul_find_grant_opportunity_from self base_dltime timeslot num_slots is_halfslot.

(** ** Reserving and granting *)

(** One iteration of [ul_reserve_grant]: [inl] is its early return. *)
Definition reserve_one (self : BsChannelScheduler) (ssi : Z) (ts : TdmaTime) (is_halfslot : bool)
  (marker : option Z) : option ((Z * BsChannelScheduler) + BsChannelScheduler) :=
  elem ← sched_at self ts;
  let marker := match marker with Some mk => Some mk | None => usage_marker elem end in
  if is_halfslot then
    match ul1 elem with
    | None => self' ← sched_put self ts (mkSlot (Some ssi) (ul2 elem) marker); Some (inl (1%Z, self'))
    | Some _ =>
        _ ← assert_ (bool_decide (ul2 elem = None));
        self' ← sched_put self ts (mkSlot (ul1 elem) (Some ssi) marker); Some (inl (2%Z, self'))
    end
  else if bool_decide (ul1 elem = Some ssi) && bool_decide (ul2 elem = Some ssi) then
    self' ← sched_put self ts (mkSlot (ul1 elem) (ul2 elem) marker); Some (inr self')
  else
    _ ← assert_ (bool_decide (ul1 elem = None));
    _ ← assert_ (bool_decide (ul2 elem = None));
    self' ← sched_put self ts (mkSlot (Some ssi) (Some ssi) marker); Some (inr self').

Fixpoint reserve_loop (self : BsChannelScheduler) (ssi : Z) (grant_timestamps : list TdmaTime)
  (is_halfslot : bool) (marker : option Z) : option (Z * BsChannelScheduler) :=
  match grant_timestamps with
  | [] => Some (0%Z, self)
  | ts :: rest =>
      r ← reserve_one self ssi ts is_halfslot marker;
      match r with
      | inl ret => Some ret
      | inr self => reserve_loop self ssi rest is_halfslot marker
      end
  end.

Definition ul_reserve_grant (self : BsChannelScheduler) (ssi : Z) (grant_timestamps : list TdmaTime)
  (is_halfslot : bool) (marker : option Z) : option (Z * BsChannelScheduler) :=
  _ ← assert_ (negb (length grant_timestamps =? 0));
  _ ← assert_ (negb is_halfslot || (length grant_timestamps =? 1));
  reserve_loop self ssi grant_timestamps is_halfslot marker.

Definition alloc_usage_marker (self : BsChannelScheduler) (timeslot : Z) : option (Z * BsChannelScheduler) :=
  i ← pred_usize timeslot;
  let idx := i `min` 3 in
  marker ← next_usage_marker self !! idx;
  let next := if (62 <=? marker)%Z then 4%Z else (marker + 1)%Z in
  l ← array_set (next_usage_marker self) idx next;
  Some (marker, with_markers self l).

(** The loop over the candidate capacities: the first whose delay can be announced. *)
Fixpoint cap_loop (find : nat -> option (option (nat * list TdmaTime))) (caps : list nat)
  : option (option (nat * nat * list TdmaTime)) :=
  match caps with
  | [] => Some None
  | candidate_cap :: caps =>
      op ← find candidate_cap;
      match op with
      | Some (skips, grant_timestamps) =>
          if skips <=? 13 then Some (Some (candidate_cap, skips, grant_timestamps)) else cap_loop find caps
      | None => cap_loop find caps
      end
  end.

Definition ul_process_pending_grant_from_with_allocator (self : BsChannelScheduler) (base_dltime : TdmaTime)
  (timeslot : Z) (addr : TetraAddress) (debt : PendingGrantDebt) (timeslot_alloc : option TimeslotAllocator)
  : option (option (BasicSlotgrant * option Z * nat) * BsChannelScheduler) :=
  let half := is_halfslot debt in
  let requested_cap := next_chunk_slots debt in
  let candidate_caps := if half then [1] else BASIC_GRANT_FULL_SLOT_COUNTS_DESC in
  grant_op ← cap_loop (fun cap => ul_find_grant_opportunity_for_addr_from self base_dltime timeslot addr cap
                                    half timeslot_alloc)
               (List.filter (fun cap => cap <=? requested_cap) candidate_caps);
  match grant_op with
  | None => Some (None, self)
  | Some (granted_cap, skips, grant_timestamps) =>
      '(marker, self) ←
        (if negb half && (2 <=? granted_cap)
         then '(mk, self) ← alloc_usage_marker self timeslot; Some (Some mk, self)
         else Some (None, self));
      '(subslot, self) ← ul_reserve_grant self (ssi addr) grant_timestamps half marker;
      cap_alloc ←
        (if half then
           if (subslot =? 1)%Z then Some FirstSubslotGranted
           else if (subslot =? 2)%Z then Some SecondSubslotGranted else None
         else Some (from_req_slotcount granted_cap));
      let grant_delay :=
        if skips =? 0 then CapAllocAtNextOpportunity else DelayNOpportunities (u8 (Z.of_nat skips)) in
      Some (Some (mkSlotgrant cap_alloc grant_delay, marker, granted_cap), self)
  end.

Definition ul_process_cap_req_from (self : BsChannelScheduler) (base_dltime : TdmaTime) (timeslot : Z)
  (addr : TetraAddress) (req : ReservationRequirement)
  : option (option (BasicSlotgrant * option Z) * BsChannelScheduler) :=
  '(r, self) ← ul_process_pending_grant_from_with_allocator self base_dltime timeslot addr (debt_new req) None;
  Some (match r with Some (grant, marker, _) => Some (grant, marker) | None => None end, self).
Definition ul_process_cap_req (self : BsChannelScheduler) (timeslot : Z) (addr : TetraAddress)
  (req : ReservationRequirement) : option (option (BasicSlotgrant * option Z) * BsChannelScheduler) :=
  ul_process_cap_req_from self (cur_dltime self) timeslot addr req.

(** ** Reading the schedule *)

Definition ul_get_slot_owner (self : BsChannelScheduler) (ts : TdmaTime) (slot : PhyBlockNum)
  : option (option Z) :=
  sched ← sched_at self ts;
  match slot with
  | Block1 => Some (ul1 sched)
  | Block2 => Some (ul2 sched)
  | BlkBoth => if negb (bool_decide (ul1 sched = ul2 sched)) then Some None else Some (ul1 sched)
  | Undefined => None
  end.

Definition ul_get_usage (self : BsChannelScheduler) (ts : TdmaTime) : option AccessAssignUlUsage :=
  sched ← sched_at self ts;
  match ul1 sched, ul2 sched with
  | Some _, Some _ =>
      Some (match usage_marker sched with Some marker => Traffic marker | None => AssignedOnly end)
  | Some _, None =>
      Some (match usage_marker sched with Some marker => Traffic marker | None => CommonAndAssigned end)
  | None, None => Some CommonOnly
  | None, Some _ => None
  end.

(** The end of [finalize_ts_for_tick]: the entry of the previous frame is freed. *)
Definition finalize_ul (self : BsChannelScheduler) (ts : TdmaTime) : option BsChannelScheduler :=
  index ← ul_ts_to_sched_index (add_timeslots ts (-4));
  slot ← pred_usize (t ts);
  chan ← ulsched self !! slot;
  chan' ← array_set chan index EMPTY_SCHED_ELEM;
  Some (with_ulsched self (<[slot := chan']> (ulsched self))).

(** ** The access assignment of a slot *)

Definition reserved_field (reserved : bool) : AccessField :=
  mkAccessField 0 (if reserved then 0 else 4)%Z.

Definition is_reserved (o : option Z) : bool := match o with Some _ => true | None => false end.

Definition assign_ts1 (self : BsChannelScheduler) (ts : TdmaTime) : option AccessAssign :=
  ul_sched ← sched_at self ts;
  usage ← ul_get_usage self ts;
  Some (if ul_is_traffic usage then mkAssign 0 DlCommonControl usage None None None
        else mkAssign 0 DlCommonControl CommonOnly (Some (reserved_field (is_reserved (ul1 ul_sched))))
               (Some (reserved_field (is_reserved (ul2 ul_sched)))) None).

Definition assign_traffic_ts (self : BsChannelScheduler) (ts : TdmaTime)
  (group_positive_floor_grant_pending : bool) (timeslot_alloc : option TimeslotAllocator)
  (ul_traffic_usage dl_traffic_usage : option Z) : option AccessAssign :=
  i ← pred_usize (t ts);
  hang ← hangtime self !! i;
  let in_hangtime := hang && negb group_positive_floor_grant_pending in
  let open_field := Some (mkAccessField 0 4) in
  if in_hangtime && (is_reserved dl_traffic_usage || is_reserved ul_traffic_usage) then
    Some (mkAssign 0 DlAssignedControl AssignedOnly None None open_field)
  else
    packet_data ←
      (if negb (is_reserved dl_traffic_usage) && negb (is_reserved ul_traffic_usage)
       then packet_data_assignment_for_timeslot_with_allocator self ts timeslot_alloc else Some None);
    Some (match packet_data with
          | Some a => mkAssign 0 DlAssignedControl
              (if packet_data_assignment_supports_uplink a then AssignedOnly else CommonAndAssigned)
              None None open_field
          | None => mkAssign 0
              (match dl_traffic_usage with Some usage => DlTraffic usage | None => DlUnallocated end)
              (match ul_traffic_usage with Some usage => Traffic usage | None => Unallocated end)
              None None None
          end).

Definition assign_fr18 (self : BsChannelScheduler) (ts : TdmaTime) : option AccessAssignFr18 :=
  usage ← (if is_mandatory_clch ts then Some CommonOnly else ul_get_usage self ts);
  ul_sched ← sched_at self ts;
  Some (match usage with
        | Traffic _ => mkAssign18 0 usage None None None (Some (mkAccessField 0 0))
        | CommonAndAssigned | AssignedOnly =>
            mkAssign18 0 usage (Some (reserved_field (is_reserved (ul1 ul_sched)))) None
              (Some (reserved_field (is_reserved (ul2 ul_sched)))) None
        | _ => mkAssign18 0 CommonOnly (Some (mkAccessField 0 1)) None (Some (mkAccessField 0 0)) None
        end).

Definition to_block (m : M unit) : option BitBuffer := snd <$> run m (new 14).

Definition generate_bbk_block_with_group_floor_grant (self : BsChannelScheduler) (ts : TdmaTime)
  (group_positive_floor_grant_pending : bool) (timeslot_alloc : option TimeslotAllocator)
  : option TmvUnitdataReq :=
  let usage dir := if (f ts =? 18)%Z then None else get_usage (circuits self) dir (t ts) in
  let ul_traffic_usage := usage DirUl in
  let dl_traffic_usage := usage DirDl in
  mac_block ←
    (if negb (f ts =? 18)%Z then
       if (t ts =? 1)%Z then
         _ ← assert_ (negb (is_reserved dl_traffic_usage));
         _ ← assert_ (negb (is_reserved ul_traffic_usage));
         aach ← assign_ts1 self ts; to_block (AccessAssign_to_bitbuf aach)
       else if ((2 <=? t ts) && (t ts <=? 4))%Z then
         aach ← assign_traffic_ts self ts group_positive_floor_grant_pending timeslot_alloc
                  ul_traffic_usage dl_traffic_usage;
         to_block (AccessAssign_to_bitbuf aach)
       else Some (new 14)
     else aach ← assign_fr18 self ts; to_block (AccessAssignFr18_to_bitbuf aach));
  Some {| mac_block := mac_block; logical_channel := Aach; scrambling_code := s_scrambling_code self |}.

(** ** Facts: cells of the schedule *)

(** A cell is a timeslot and an index into its schedule. *)
Definition cell := (nat * nat)%type.
Definition key (ts : TdmaTime) : cell :=
  (Z.to_nat (t ts - 1), Z.to_nat ((slot_count ts / 4) mod 90)).
Definition entry (s : BsChannelScheduler) (k : cell) : option TimeslotSchedule :=
  chan ← ulsched s !! k.1; chan !! k.2.

(** An entry reserves the first subslot before the second, and carries a usage marker in
    range exactly when it may: both subslots are reserved. *)
Record entry_ok (e : TimeslotSchedule) : Prop := {
  second_after_first : ul1 e = None -> ul2 e = None;
  marker_full : is_Some (usage_marker e) -> is_Some (ul2 e);
  marker_range : forall mk, usage_marker e = Some mk -> (4 <= mk <= 62)%Z
}.

Record sched_ok (s : BsChannelScheduler) : Prop := {
  ok_slots : length (ulsched s) = 4;
  ok_frames : Forall (fun chan => length chan = 90) (ulsched s);
  ok_entries : Forall (Forall entry_ok) (ulsched s);
  ok_markers : Forall (fun mk => 4 <= mk <= 62)%Z (next_usage_marker s);
  ok_cursors : length (next_usage_marker s) = 4;
  ok_hangtime : length (hangtime s) = 4;
  ok_assignments : length (packet_data_assignments s) = 4
}.

Lemma pred_usize_pos x : (1 <= x)%Z -> pred_usize x = Some (Z.to_nat (x - 1)).
Proof. intros H. unfold pred_usize. rewrite usub_le by lia. f_equal. lia. Qed.

Lemma index_spec ts :
  Tdma.valid ts -> ul_ts_to_sched_index ts = Some (key ts).2.
Proof.
  rewrite Tdma.valid_bounds. intros V. unfold ul_ts_to_sched_index, key, slot_count.
  rewrite !pred_usize_pos by lia. rewrite !bind_Some. cbn [snd]. f_equal.
  unfold MACSCHED_NUM_FRAMES. divlia.
Qed.

Lemma key_bounds ts : Tdma.valid ts -> (key ts).1 < 4 /\ (key ts).2 < 90.
Proof. rewrite Tdma.valid_bounds. intros V. unfold key. cbn. split; divlia. Qed.

Lemma sched_at_entry s ts : Tdma.valid ts -> sched_at s ts = entry s (key ts).
Proof.
  intros V. unfold sched_at, entry. rewrite index_spec, bind_Some by done.
  rewrite Tdma.valid_bounds in V. rewrite pred_usize_pos, bind_Some by lia. done.
Qed.

Lemma entry_some s k : sched_ok s -> k.1 < 4 -> k.2 < 90 -> exists e, entry s k = Some e /\ entry_ok e.
Proof.
  intros S H1 H2. unfold entry. destruct (lookup_lt_is_Some_2 (ulsched s) k.1) as [chan Hc].
  { rewrite (ok_slots _ S). done. }
  pose proof (ok_frames _ S) as Hf. pose proof (ok_entries _ S) as He. rewrite Forall_lookup in Hf, He.
  destruct (lookup_lt_is_Some_2 chan k.2) as [e E]; [by rewrite (Hf _ _ Hc)|].
  exists e. rewrite Hc, bind_Some. split; [done|]. specialize (He _ _ Hc). rewrite Forall_lookup in He. eauto.
Qed.

Lemma entry_bounds s k e : sched_ok s -> entry s k = Some e -> entry_ok e /\ k.1 < 4 /\ k.2 < 90.
Proof.
  intros S E. unfold entry in E. destruct (ulsched s !! k.1) as [chan|] eqn:Hc; [|done]. rewrite bind_Some in E.
  pose proof (ok_frames _ S) as Hf. pose proof (ok_entries _ S) as He. rewrite Forall_lookup in Hf, He.
  specialize (Hf _ _ Hc). specialize (He _ _ Hc). rewrite Forall_lookup in He. split; [eauto|].
  apply lookup_lt_Some in Hc, E. rewrite (ok_slots _ S) in Hc. lia.
Qed.

(** Writing one cell. *)
Definition put_cell (s : BsChannelScheduler) (k : cell) (e : TimeslotSchedule) : BsChannelScheduler :=
  with_ulsched s (alter (<[k.2 := e]>) k.1 (ulsched s)).

Lemma put_cell_ok s k e : sched_ok s -> entry_ok e -> sched_ok (put_cell s k e).
Proof.
  intros [H1 H2 H3 H4 H5 H6 H7] He. split; cbn; try done.
  - by rewrite length_alter.
  - apply Forall_alter; [done|]. intros chan _ H. by rewrite length_insert.
  - apply Forall_alter; [done|]. intros chan _ H. by apply Forall_insert.
Qed.

Lemma put_cell_entry s k e k' :
  sched_ok s -> k.1 < 4 -> k.2 < 90 ->
  entry (put_cell s k e) k' = if bool_decide (k' = k) then Some e else entry s k'.
Proof.
  intros S H1 H2. unfold entry, put_cell. cbn [with_ulsched ulsched].
  destruct (lookup_lt_is_Some_2 (ulsched s) k.1) as [chan Hc]; [by rewrite (ok_slots _ S)|].
  pose proof (ok_frames _ S) as Hf. rewrite Forall_lookup in Hf. specialize (Hf _ _ Hc).
  destruct (decide (k'.1 = k.1)) as [E1|E1].
  - rewrite E1, list_lookup_alter_eq, Hc. cbn. destruct (decide (k'.2 = k.2)) as [E2|E2].
    + rewrite bool_decide_true by (destruct k, k'; cbn in *; congruence).
      rewrite E2. apply list_lookup_insert_eq. lia.
    + rewrite bool_decide_false by congruence. by rewrite list_lookup_insert_ne.
  - rewrite bool_decide_false by congruence. by rewrite list_lookup_alter_ne.
Qed.

Lemma array_set_alter {A} (l : list (list A)) i chan j x :
  l !! i = Some chan -> <[i := <[j := x]> chan]> l = alter (<[j := x]>) i l.
Proof.
  intros H. apply list_eq. intros i'. destruct (decide (i = i')) as [<-|Hne].
  - rewrite list_lookup_alter_eq, H, list_lookup_insert_eq by by eapply lookup_lt_Some. done.
  - by rewrite list_lookup_insert_ne, list_lookup_alter_ne.
Qed.

Lemma put_chan s k e :
  sched_ok s -> k.1 < 4 -> k.2 < 90 ->
  (chan ← ulsched s !! k.1; chan' ← array_set chan k.2 e;
   Some (with_ulsched s (<[k.1 := chan']> (ulsched s)))) = Some (put_cell s k e).
Proof.
  intros S H1 H2. destruct (lookup_lt_is_Some_2 (ulsched s) k.1) as [chan Hc]; [by rewrite (ok_slots _ S)|].
  pose proof (ok_frames _ S) as Hf. rewrite Forall_lookup in Hf. specialize (Hf _ _ Hc).
  rewrite Hc, bind_Some, array_set_Some, bind_Some by lia. by rewrite (array_set_alter _ _ _ _ _ Hc).
Qed.

Lemma sched_put_cell s ts e : sched_ok s -> Tdma.valid ts -> sched_put s ts e = Some (put_cell s (key ts) e).
Proof.
  intros S V. unfold sched_put. rewrite index_spec, bind_Some by done.
  destruct (key_bounds ts V). pose proof V as V'. rewrite Tdma.valid_bounds in V'.
  rewrite pred_usize_pos, bind_Some by lia. change (Z.to_nat (t ts - 1)) with (key ts).1. by apply put_chan.
Qed.

(** ** Facts: the search *)

(** Opportunity number [j] of a one-timeslot channel: one slot per frame. *)
Definition opportunity (first : TdmaTime) (j : nat) : TdmaTime := add_timeslots first (4 * Z.of_nat j).
Definition opportunities (first : TdmaTime) (j len : nat) : list TdmaTime := opportunity first <$> seq j len.
(** Reserved access jumps over the mandatory linearization slots. *)
Definition usable_opportunities (first : TdmaTime) (j len : nat) : list TdmaTime :=
  List.filter (fun c => negb (is_mandatory_clch c)) (opportunities first j len).

(** Frames ahead keep the timeslot and move the index. *)
Lemma frames_ahead (c t0 t1 r r1 n : Z) :
  (c = t0 + 4 * r -> 0 <= t0 < 4 -> 0 <= t1 < 4 -> t1 + 4 * r1 = (c + 4 * n) mod (4 * 18 * 60 * 65536) ->
  t1 = t0 /\ ((t1 + 4 * r1) / 4) mod 90 = (c / 4 + n) mod 90)%Z.
Proof. intros -> H0 H1 E. split; divlia. Qed.

Lemma opportunity_spec first j :
  Tdma.valid first -> j < 90 ->
  Tdma.valid (opportunity first j) /\ t (opportunity first j) = t first /\
  key (opportunity first j) =
    ((key first).1, Z.to_nat ((slot_count first / 4 + Z.of_nat j) mod 90)).
Proof.
  intros V Hj. destruct (add_timeslots_count first (4 * Z.of_nat j) V) as [V' E]; [lia|].
  fold (opportunity first j) in V', E. split; [done|]. rewrite Tdma.valid_bounds in V, V'.
  destruct (frames_ahead (slot_count first) (t first - 1) (t (opportunity first j) - 1)
    ((f first - 1) + 18 * (m first - 1) + 1080 * h first)
    ((f (opportunity first j) - 1) + 18 * (m (opportunity first j) - 1) + 1080 * h (opportunity first j))
    (Z.of_nat j)) as [Et Ek]; [unfold slot_count; lia|lia|lia| |].
  { rewrite <- (E : _ = _ mod (4 * 18 * 60 * 65536))%Z. unfold slot_count. lia. }
  split; [lia|]. unfold key. cbn [fst]. f_equal; [f_equal; lia|].
  rewrite <- Ek. do 2 f_equal. unfold slot_count. f_equal. lia.
Qed.

Lemma slots_ahead (c t0 t1 r r1 n : Z) :
  (c = t0 + 4 * r -> 0 <= t0 < 4 -> 0 <= t1 < 4 -> t1 + 4 * r1 = (c + n) mod (4 * 18 * 60 * 65536) ->
  n mod 4 <> 0 -> t1 <> t0)%Z.
Proof. intros -> H0 H1 E Hn ->. divlia. Qed.

Lemma off_channel first j r :
  Tdma.valid first -> j < 90 -> 1 <= r <= 3 ->
  t (add_timeslots first (Z.of_nat (4 * j + r))) <> t first.
Proof.
  intros V Hj Hr. set (n := Z.of_nat (4 * j + r)).
  assert (Hn : (0 <= n < 400)%Z /\ (n mod 4 <> 0)%Z) by (unfold n; divlia). clearbody n.
  destruct (add_timeslots_count first n V) as [V' E]; [lia|].
  rewrite Tdma.valid_bounds in V, V'. generalize dependent (add_timeslots first n). intros x Vx E Et.
  eapply (slots_ahead (slot_count first) (t first - 1) (t x - 1)
    ((f first - 1) + 18 * (m first - 1) + 1080 * h first) ((f x - 1) + 18 * (m x - 1) + 1080 * h x) n);
    [unfold slot_count; lia|lia|lia| |lia|lia].
  rewrite <- (E : _ = _ mod (4 * 18 * 60 * 65536))%Z. unfold slot_count. lia.
Qed.

(** The search seen frame by frame. *)
Fixpoint scan (s : BsChannelScheduler) (first : TdmaTime) (n : nat) (half : bool) (own : option Z)
  (frames : list nat) (skipped : nat) (grant : list TdmaTime) : option (option (nat * list TdmaTime)) :=
  match frames with
  | [] => Some None
  | j :: frames =>
      let c := opportunity first j in
      if is_mandatory_clch c then
        scan s first n half own frames (if length grant =? 0 then skipped + 1 else skipped) grant
      else
        e ← entry s (key c);
        let '(skipped, grant) := if slot_usable e half own then (skipped, grant ++ [c])
                                 else (skipped + (length grant + 1), []) in
        if length grant =? n then Some (Some (skipped, grant)) else scan s first n half own frames skipped grant
  end.

Lemma contains_singleton x y : contains [x] y = bool_decide (y = x).
Proof. unfold contains. cbn. rewrite orb_false_r. destruct (Z.eqb_spec y x); by case_bool_decide. Qed.

(** A slot off the channel is passed over; on the channel the two loops do the same. *)
Lemma find_loop_off s first n half own d ds skipped grant :
  t (add_timeslots first (Z.of_nat d)) <> t first ->
  find_loop s first [t first] n half own (d :: ds) skipped grant
  = find_loop s first [t first] n half own ds skipped grant.
Proof. intros H. cbn [find_loop]. by rewrite contains_singleton, bool_decide_false. Qed.

Lemma find_loop_on s first n half own j d ds js skipped grant :
  add_timeslots first (Z.of_nat d) = opportunity first j ->
  Tdma.valid (opportunity first j) -> t (opportunity first j) = t first ->
  (forall sk g, find_loop s first [t first] n half own ds sk g = scan s first n half own js sk g) ->
  find_loop s first [t first] n half own (d :: ds) skipped grant
  = scan s first n half own (j :: js) skipped grant.
Proof.
  intros E V Et H. cbn [find_loop scan]. rewrite E, contains_singleton, bool_decide_true by done. cbn [negb].
  rewrite sched_at_entry by done. destruct (is_mandatory_clch (opportunity first j)); [apply H|].
  destruct (entry s (key (opportunity first j))) as [e|]; [|done]. rewrite !bind_Some.
  destruct (slot_usable e half own); cbv iota beta zeta; (destruct (_ =? n); [done|apply H]).
Qed.

Lemma seq_frame j k : seq (4 * j) (4 * S k) = 4 * j :: 4 * j + 1 :: 4 * j + 2 :: 4 * j + 3 :: seq (4 * S j) (4 * k).
Proof.
  replace (4 * S k) with (4 + 4 * k) by lia. rewrite seq_app. cbn [seq app].
  replace (4 * j + 4) with (4 * S j) by lia. repeat f_equal; lia.
Qed.

Lemma find_loop_scan s first n half own k : forall j skipped grant,
  Tdma.valid first -> j + k < 90 ->
  find_loop s first [t first] n half own (seq (4 * j) (4 * k)) skipped grant
  = scan s first n half own (seq j k) skipped grant.
Proof.
  induction k as [|k IH]; intros j skipped grant V Hj; [done|].
  destruct (opportunity_spec first j V) as (Vo & Et & _); [lia|].
  rewrite seq_frame. apply find_loop_on; [unfold opportunity; f_equal; lia|done|done|]. intros sk g.
  rewrite !find_loop_off by (apply off_channel; lia || done). apply IH; [done|lia].
Qed.

(** What a successful search has found: from opportunity [j] on, over [len] frames, [n]
    usable slots.  The announced number of skipped opportunities is at most [j], and is
    [j] for single slots and when no linearization slot was passed on the way. *)
Record found (s : BsChannelScheduler) (first : TdmaTime) (n : nat) (half : bool) (own : option Z)
  (skipped : nat) (grant : list TdmaTime) (j len : nat) : Prop := {
  found_slots : grant = usable_opportunities first j len;
  found_usable : Forall (fun c => exists e, entry s (key c) = Some e /\ slot_usable e half own = true) grant;
  found_start : grant <> [] -> is_mandatory_clch (opportunity first j) = false;
  found_delay : skipped <= j;
  found_exact : n = 1 \/ Forall (fun c => is_mandatory_clch c = false) (opportunities first 0 j) -> skipped = j
}.

Lemma usable_opportunities_snoc first j len :
  usable_opportunities first j (S len) =
  usable_opportunities first j len ++
    (if is_mandatory_clch (opportunity first (j + len)) then [] else [opportunity first (j + len)]).
Proof.
  unfold usable_opportunities, opportunities. rewrite seq_S, fmap_app, List.filter_app. cbn.
  by destruct (is_mandatory_clch _).
Qed.

Lemma usable_opportunities_all first j len :
  Forall (fun c => is_mandatory_clch c = false) (opportunities first j len) ->
  length (usable_opportunities first j len) = len.
Proof.
  intros H. unfold usable_opportunities.
  assert (E : forall l, Forall (fun c => is_mandatory_clch c = false) l ->
    List.filter (fun c => negb (is_mandatory_clch c)) l = l).
  { induction 1 as [|c l Hc _ IH]; [done|]. cbn. by rewrite Hc, IH. }
  rewrite E by done. unfold opportunities. by rewrite length_fmap, length_seq.
Qed.

Lemma opportunities_split first a b c : opportunities first a (b + c) =
  opportunities first a b ++ opportunities first (a + b) c.
Proof. unfold opportunities. by rewrite seq_app, fmap_app. Qed.

(** The three ways a frame changes the search: a linearization slot, a usable slot and a
    slot in use, which starts the search afresh behind it. *)
Lemma found_clch s first n half own skipped grant j0 j :
  j0 <= j -> (grant = [] -> j0 = j) -> is_mandatory_clch (opportunity first j) = true ->
  found s first n half own skipped grant j0 (j - j0) ->
  exists j1, j1 <= S j /\ (grant = [] -> j1 = S j) /\
    found s first n half own (if length grant =? 0 then skipped + 1 else skipped) grant j1 (S j - j1).
Proof.
  intros Hj Hg Hc [F1 F2 F3 F4 F5]. destruct grant as [|g gs].
  - exists (S j). rewrite (Hg eq_refl) in *. split_and!; [done..|]. cbn [length]. change (0 =? 0) with true. cbv iota.
    split; [by rewrite Nat.sub_diag|done|done|lia|].
    intros H. rewrite F5; [lia|]. destruct H as [H|H]; [by left|right].
    replace (S j) with (j + 1) in H by lia. rewrite opportunities_split in H. by apply Forall_app in H as [H _].
  - exists j0. split_and!; [lia|done|]. change (length (g :: gs) =? 0) with false. cbv iota.
    replace (S j - j0) with (S (j - j0)) by lia. split; [|done..].
    rewrite usable_opportunities_snoc. replace (j0 + (j - j0)) with j by lia. by rewrite Hc, app_nil_r, <- F1.
Qed.

Lemma found_push s first n half own skipped grant j0 j e :
  j0 <= j -> (grant = [] -> j0 = j) -> is_mandatory_clch (opportunity first j) = false ->
  entry s (key (opportunity first j)) = Some e -> slot_usable e half own = true ->
  found s first n half own skipped grant j0 (j - j0) ->
  found s first n half own skipped (grant ++ [opportunity first j]) j0 (S j - j0).
Proof.
  intros Hj Hg Hc He Hu [F1 F2 F3 F4 F5]. replace (S j - j0) with (S (j - j0)) by lia. split; [| | |done..].
  - rewrite usable_opportunities_snoc. replace (j0 + (j - j0)) with j by lia. by rewrite Hc, <- F1.
  - apply Forall_app. split; [done|]. apply Forall_singleton. eauto.
  - intros _. destruct grant; [by rewrite (Hg eq_refl)|by apply F3].
Qed.

Lemma found_busy s first n half own skipped grant j0 j :
  j0 <= j -> (grant = [] -> j0 = j) -> length grant < n ->
  found s first n half own skipped grant j0 (j - j0) ->
  found s first n half own (skipped + (length grant + 1)) [] (S j) 0.
Proof.
  intros Hj Hg Hn [F1 F2 F3 F4 F5]. split; [done|done|done| |].
  - assert (length grant <= j - j0); [|lia]. rewrite F1. unfold usable_opportunities.
    etrans; [apply List.filter_length_le|]. unfold opportunities. by rewrite length_fmap, length_seq.
  - intros [->|H].
    + destruct grant; [|cbn in Hn; lia]. rewrite F5 by (by left). rewrite (Hg eq_refl). cbn. lia.
    + replace (S j) with (j0 + (j - j0) + 1) in H by lia. rewrite !opportunities_split in H.
      apply Forall_app in H as [H _]. apply Forall_app in H as [H1 H2].
      rewrite F5 by (by right). rewrite F1, usable_opportunities_all by done. lia.
Qed.

Lemma scan_spec s first n half own k : forall j j0 skipped grant,
  sched_ok s -> Tdma.valid first -> j + k < 90 -> length grant < n ->
  j0 <= j -> (grant = [] -> j0 = j) -> found s first n half own skipped grant j0 (j - j0) ->
  exists r, scan s first n half own (seq j k) skipped grant = Some r /\
    match r with
    | None => True
    | Some (sk, g) => length g = n /\ exists j1 len, j1 + len <= j + k /\ found s first n half own sk g j1 len
    end.
Proof.
  induction k as [|k IH]; intros j j0 skipped grant SO V Hk Hn Hj Hg F; [by exists None|].
  cbn [seq scan]. destruct (opportunity_spec first j V) as (Vo & Et & _); [lia|].
  replace (j + S k) with (S j + k) by lia.
  destruct (is_mandatory_clch (opportunity first j)) eqn:Hc.
  { destruct (found_clch _ _ _ _ _ _ _ _ _ Hj Hg Hc F) as (j1 & H1 & H2 & F'). eapply IH; try done. lia. }
  destruct (key_bounds _ Vo) as [K1 K2]. destruct (entry_some s _ SO K1 K2) as (e & He & _).
  rewrite He, bind_Some. destruct (slot_usable e half own) eqn:Hu.
  - pose proof (found_push _ _ _ _ _ _ _ _ _ _ Hj Hg Hc He Hu F) as F'. rewrite length_app. cbn [length].
    destruct (Nat.eqb_spec (length grant + 1) n) as [E|E].
    + eexists. split; [done|]. cbv iota beta. rewrite length_app. split; [done|]. exists j0, (S j - j0). split; [lia|done].
    + apply (IH (S j) j0); [done|done|lia|rewrite length_app; cbn; lia|lia|by destruct grant|exact F'].
  - pose proof (found_busy _ _ _ _ _ _ _ _ _ Hj Hg Hn F) as F'. rewrite (proj2 (Nat.eqb_neq (length []) n)) by (cbn; lia).
    eapply (IH (S j) (S j)); [done|done|lia|cbn; lia|done|done|by rewrite Nat.sub_diag].
Qed.

(** The search as a whole, on a channel of one timeslot. *)
Lemma find_spec s base ts n half own :
  sched_ok s -> Tdma.valid base -> (1 <= ts <= 4)%Z -> 1 <= n -> (half = true -> n = 1) ->
  exists r, ul_find_grant_opportunity_on_channel_from s base ts [ts] n half own = Some r /\
    match r with
    | None => True
    | Some (sk, g) => length g = n /\
        exists j len, j + len < 90 /\ found s (forward_to_timeslot base ts) n half own sk g j len
    end.
Proof.
  intros SO V Hts Hn Hh. unfold ul_find_grant_opportunity_on_channel_from.
  rewrite contains_singleton, bool_decide_true by done. change (length [ts] =? 0) with false. cbn [orb negb].
  destruct (forward_to_timeslot_next base ts V Hts) as (Vf & Et & _).
  replace (negb half || (n =? 1)) with true.
  2:{ destruct half; [|done]. symmetry. apply Nat.eqb_eq. by apply Hh. }
  cbn [negb]. replace [ts] with [t (forward_to_timeslot base ts)] by (by rewrite Et). change ((MACSCHED_NUM_FRAMES - 1) * NUM_TIMESLOTS) with (4 * 89).
  change (seq 0 (4 * 89)) with (seq (4 * 0) (4 * 89)).
  rewrite find_loop_scan by (done || lia).
  destruct (scan_spec s (forward_to_timeslot base ts) n half own 89 0 0 0 []) as (r & Er & Hr);
    [done|done|lia|cbn; lia|lia|done|split; [done..|lia|done]|].
  exists r. split; [done|]. destruct r as [[sk g]|]; [|done]. destruct Hr as (Hl & j & len & Hb & F).
  split; [done|]. exists j, len. split; [lia|done].
Qed.

(** ** Facts: reserving *)

Lemma usable_valid first j len :
  Tdma.valid first -> j + len < 90 -> Forall Tdma.valid (usable_opportunities first j len).
Proof.
  intros V Hb. apply List.Forall_forall. intros c [Hc _]%List.filter_In.
  unfold opportunities in Hc. apply list_elem_of_In, list_elem_of_fmap in Hc as (i & -> & Hi).
  apply elem_of_seq in Hi. apply opportunity_spec; [done|lia].
Qed.

Lemma key_inj first i j :
  Tdma.valid first -> i < 90 -> j < 90 -> key (opportunity first i) = key (opportunity first j) -> i = j.
Proof.
  intros V Hi Hj. destruct (opportunity_spec first i V Hi) as (_ & _ & ->).
  destruct (opportunity_spec first j V Hj) as (_ & _ & ->). intros [= E].
  generalize dependent (slot_count first / 4)%Z. intros q E.
  assert (Eq : ((q + Z.of_nat i) mod 90 = (q + Z.of_nat j) mod 90)%Z) by divlia. divlia.
Qed.

Lemma NoDup_filter_fmap {A B} (g : A -> B) (p : A -> bool) l :
  NoDup (g <$> l) -> NoDup (g <$> List.filter p l).
Proof.
  induction l as [|x l IH]; [done|]. cbn. intros [Hx Hl]%NoDup_cons. destruct (p x); [|auto]. cbn.
  apply NoDup_cons. split; [|auto]. intros (y & Ey & Hy)%list_elem_of_fmap. apply Hx.
  apply list_elem_of_fmap. exists y. split; [done|]. by apply list_elem_of_In, List.filter_In, proj1 in Hy as ?%list_elem_of_In.
Qed.

(** Within the search window no two opportunities share a cell. *)
Lemma usable_distinct first j len :
  Tdma.valid first -> j + len < 90 -> NoDup (key <$> usable_opportunities first j len).
Proof.
  intros V Hb. apply NoDup_filter_fmap. unfold opportunities. rewrite <- list_fmap_compose.
  apply NoDup_fmap_2_strong; [|apply NoDup_seq]. intros i i' Hi Hi'. rewrite elem_of_seq in Hi, Hi'.
  apply key_inj; [done|lia|lia].
Qed.

(** How a grant changes an entry: a free subslot or a free slot is taken, or a slot the
    same mobile holds is confirmed. *)
Inductive takes (who : Z) (marker : option Z)
  : BasicSlotgrantCapAlloc -> TimeslotSchedule -> TimeslotSchedule -> Prop :=
  | takes_first : takes who marker FirstSubslotGranted (mkSlot None None None) (mkSlot (Some who) None None)
  | takes_second o :
      takes who marker SecondSubslotGranted (mkSlot (Some o) None None) (mkSlot (Some o) (Some who) None)
  | takes_slot n : 1 <= n ->
      takes who marker (from_req_slotcount n) (mkSlot None None None) (mkSlot (Some who) (Some who) marker)
  | takes_again n mk : 1 <= n ->
      takes who marker (from_req_slotcount n) (mkSlot (Some who) (Some who) mk)
        (mkSlot (Some who) (Some who) (match marker with Some mk' => Some mk' | None => mk end)).

Lemma takes_ok who marker cap e e' :
  takes who marker cap e e' -> entry_ok e -> (forall mk, marker = Some mk -> (4 <= mk <= 62)%Z) -> entry_ok e'.
Proof.
  intros T [H1 H2 H3] Hm. destruct T; split; cbn in *; try done.
  all: intros ? E; try by destruct E. all: destruct marker; eauto.
Qed.

(** An entry with no reservation is the empty one. *)
Lemma free_entry e : entry_ok e -> ul1 e = None -> e = mkSlot None None None.
Proof.
  intros [H1 H2 H3] E. specialize (H1 E). destruct e as [a b [mk|]]; cbn in *; subst; [|done].
  destruct H2 as [? ?]; [by eexists|done].
Qed.

Lemma reserve_one_full s who c marker own n e :
  sched_ok s -> Tdma.valid c -> entry s (key c) = Some e -> entry_ok e -> 1 <= n ->
  slot_usable e false own = true -> own = None \/ own = Some who ->
  exists e', takes who marker (from_req_slotcount n) e e' /\
    reserve_one s who c false marker = Some (inr (put_cell s (key c) e')).
Proof.
  intros SO V He Hok Hn Hu Hown. unfold reserve_one. rewrite sched_at_entry, He, bind_Some by done.
  unfold slot_usable in Hu. cbn [andb negb] in Hu. rewrite orb_false_r in Hu. apply orb_true_iff in Hu as [Hu|Hu].
  - apply andb_true_iff, proj1, bool_decide_eq_true in Hu. rewrite (free_entry e Hok Hu). cbn [ul1 ul2 usage_marker].
    rewrite (bool_decide_false (None = Some who)) by done. cbn [andb].
    rewrite !bool_decide_true by done. cbn [assert_]. rewrite !bind_Some, sched_put_cell, bind_Some by done.
    eexists. split; [by apply takes_slot|]. by destruct marker.
  - destruct Hown as [->| ->]; [done|]. apply andb_true_iff in Hu as [E1%bool_decide_eq_true E2%bool_decide_eq_true].
    rewrite !bool_decide_true by done. cbn [andb]. rewrite sched_put_cell, bind_Some by done.
    destruct e as [a b mk]; cbn in *; subst. eexists. split; [by apply takes_again|done].
Qed.

Lemma reserve_loop_full who marker own n : forall g s,
  sched_ok s -> Forall Tdma.valid g -> NoDup (key <$> g) -> 1 <= n -> own = None \/ own = Some who ->
  (forall mk, marker = Some mk -> (4 <= mk <= 62)%Z) ->
  Forall (fun c => exists e, entry s (key c) = Some e /\ slot_usable e false own = true) g ->
  exists s', reserve_loop s who g false marker = Some (0%Z, s') /\ sched_ok s' /\
    (forall c, c ∈ g -> exists e e', entry s (key c) = Some e /\ entry s' (key c) = Some e' /\
       takes who marker (from_req_slotcount n) e e') /\
    (forall k, k ∉ key <$> g -> entry s' k = entry s k).
Proof.
  induction g as [|c g IH]; intros s SO HV HN Hn Hown Hm HU; cbn [reserve_loop].
  { exists s. split_and!; try done. intros c Hc. by apply not_elem_of_nil in Hc. }
  apply Forall_cons in HV as [Vc HV]. apply Forall_cons in HU as [(e & He & Hu) HU].
  cbn in HN. apply NoDup_cons in HN as [Hk HN]. destruct (entry_bounds _ _ _ SO He) as (Hok & K1 & K2).
  destruct (reserve_one_full s who c marker own n e) as (e' & T & ->); try done. rewrite bind_Some.
  pose proof (takes_ok _ _ _ _ _ T Hok Hm) as Hok'. pose proof (put_cell_ok s (key c) e' SO Hok') as SO'.
  assert (Hother : forall k, k <> key c -> entry (put_cell s (key c) e') k = entry s k).
  { intros k Hne. rewrite put_cell_entry by done. by rewrite bool_decide_false. }
  destruct (IH (put_cell s (key c) e') SO') as (s' & E & SO2 & Hin & Hout); try done.
  { apply Forall_forall. intros c' Hc'. rewrite Forall_forall in HU. destruct (HU c' Hc') as (e1 & H1 & H2).
    exists e1. split; [|done]. rewrite Hother; [done|]. intros Ek. apply Hk. rewrite <- Ek. by apply list_elem_of_fmap_2. }
  exists s'. split_and!; [done|done| |].
  - intros c' [->|Hc']%elem_of_cons.
    + exists e, e'. split_and!; [done| |done]. rewrite Hout by done.
      rewrite put_cell_entry by done. by rewrite bool_decide_true.
    + destruct (Hin c' Hc') as (e1 & e2 & H1 & H2 & H3). exists e1, e2. split_and!; try done. rewrite <- H1. symmetry.
      apply Hother. intros Ek. apply Hk. rewrite <- Ek. by apply list_elem_of_fmap_2.
  - intros k Hkn. cbn in Hkn. apply not_elem_of_cons in Hkn as [Hne Hkn]. rewrite Hout by done. by apply Hother.
Qed.

Lemma reserve_half s who c own e :
  sched_ok s -> Tdma.valid c -> entry s (key c) = Some e -> entry_ok e -> slot_usable e true own = true ->
  exists sub cap e', takes who None cap e e' /\
    ((sub = 1%Z /\ cap = FirstSubslotGranted) \/ (sub = 2%Z /\ cap = SecondSubslotGranted)) /\
    reserve_loop s who [c] true None = Some (sub, put_cell s (key c) e').
Proof.
  intros SO V He Hok Hu. cbn [reserve_loop]. unfold reserve_one. rewrite sched_at_entry, He, bind_Some by done.
  destruct (ul1 e) as [o|] eqn:E1.
  - assert (E2 : ul2 e = None).
    { unfold slot_usable in Hu. cbn [andb negb] in Hu. rewrite E1 in Hu.
      rewrite (bool_decide_false (Some o = None)) in Hu by done. cbn [andb orb] in Hu.
      destruct own; cbn [orb] in Hu; by apply bool_decide_eq_true in Hu. }
    rewrite E2, bool_decide_true by done. cbn [assert_]. rewrite bind_Some, sched_put_cell, !bind_Some by done.
    exists 2%Z, SecondSubslotGranted. eexists. split_and!; [|by right|done]. cbv iota.
    destruct Hok as [_ H2 _]. destruct e as [a b [mk|]]; cbn in *; subst; [|constructor].
    destruct H2 as [? ?]; [by eexists|done].
  - rewrite sched_put_cell, !bind_Some by done. rewrite (free_entry e Hok E1). cbn [ul2 usage_marker].
    exists 1%Z, FirstSubslotGranted. eexists. split_and!; [constructor|by left|done].
Qed.

(** ** Facts: granting *)

Lemma find_addr_spec s base ts addr n half alloc :
  sched_ok s -> Tdma.valid base -> (1 <= ts <= 4)%Z -> 1 <= n -> (half = true -> n = 1) ->
  exists r own, (own = None \/ own = Some (ssi addr)) /\
    ul_find_grant_opportunity_for_addr_from s base ts addr n half alloc = Some r /\
    match r with
    | None => True
    | Some (sk, g) => length g = n /\
        exists j len, j + len < 90 /\ found s (forward_to_timeslot base ts) n half own sk g j len
    end.
Proof.
  intros SO V Hts Hn Hh. unfold ul_find_grant_opportunity_for_addr_from.
  unfold packet_data_active_uplink_slots_for_addr_with_allocator.
  destruct (lookup_lt_is_Some_2 (packet_data_assignments s) (Z.to_nat (PACKET_DATA_ASSIGNED_SCCH_TS - 1))) as [o Ho].
  { rewrite (ok_assignments _ SO). unfold PACKET_DATA_ASSIGNED_SCCH_TS. lia. }
  rewrite Ho, bind_Some. set (slots := match o with Some a => _ | None => [] end).
  assert (Hs : slots = [] \/ slots = [PACKET_DATA_ASSIGNED_SCCH_TS]).
  { unfold slots. destruct o; [|by left]. destruct (_ && _); [by right|by left]. }
  clearbody slots. rewrite bind_Some. destruct Hs as [-> | ->].
  - change (contains [] ts) with false. cbn [length]. change (negb (0 =? 0)) with false. cbv iota.
    destruct (find_spec s base ts n half None) as (r & Er & Hr); try done. exists r, None. by split; [left|].
  - rewrite contains_singleton. case_bool_decide as E.
    + rewrite <- E. destruct (find_spec s base ts n half (Some (ssi addr))) as (r & Er & Hr); try done.
      exists r, (Some (ssi addr)). by split; [right|].
    + exists None, None. by split; [left|].
Qed.

Lemma cap_loop_spec find caps :
  Forall (fun cap => exists r, find cap = Some r) caps ->
  exists r, cap_loop find caps = Some r /\
    match r with
    | None => True
    | Some (cap, sk, g) => cap ∈ caps /\ sk <= 13 /\ find cap = Some (Some (sk, g))
    end.
Proof.
  induction 1 as [|cap caps [r E] _ IH]; [by exists None|]. cbn [cap_loop]. rewrite E, bind_Some.
  assert (H : exists r0, cap_loop find caps = Some r0 /\
    match r0 with
    | None => True
    | Some (cap', sk, g) => cap' ∈ cap :: caps /\ sk <= 13 /\ find cap' = Some (Some (sk, g))
    end).
  { destruct IH as (r0 & E0 & H0). exists r0. split; [done|]. destruct r0 as [[[c sk] g]|]; [|done].
    split_and!; [by right; apply H0|apply H0..]. }
  destruct r as [[sk g]|]; [|done]. destruct (Nat.leb_spec sk 13) as [Hs|Hs]; [|done].
  eexists. split; [done|]. cbv iota beta. split_and!; [by left|done|done].
Qed.

Lemma alloc_usage_marker_spec s ts :
  sched_ok s -> (1 <= ts <= 4)%Z ->
  exists mk l, alloc_usage_marker s ts = Some (mk, with_markers s l) /\ (4 <= mk <= 62)%Z /\
    sched_ok (with_markers s l).
Proof.
  intros SO Hts. unfold alloc_usage_marker. rewrite pred_usize_pos, bind_Some by lia.
  destruct (lookup_lt_is_Some_2 (next_usage_marker s) (Z.to_nat (ts - 1) `min` 3)) as [mk Hmk].
  { rewrite (ok_cursors _ SO). lia. }
  rewrite Hmk, bind_Some. rewrite array_set_Some by by eapply lookup_lt_Some. rewrite bind_Some.
  pose proof (ok_markers _ SO) as Hr. assert (Hb : (4 <= mk <= 62)%Z) by (rewrite Forall_lookup in Hr; eauto).
  eexists _, _. split; [done|]. split; [done|].
  destruct SO. split; cbn; try done; [|by rewrite length_insert].
  apply Forall_insert; [done|]. destruct (Z.leb_spec 62 mk); lia.
Qed.

(** What a grant announces and reserves. *)
Record granted (s s' : BsChannelScheduler) (first : TdmaTime) (addr : TetraAddress) (debt : PendingGrantDebt)
  (grant : BasicSlotgrant) (marker : option Z) (cap j len : nat) : Prop := {
  g_window : j + len < 90;
  g_cap : length (usable_opportunities first j len) = cap /\ 1 <= cap <= next_chunk_slots debt;
  g_start : is_mandatory_clch (opportunity first j) = false;
  g_delay : (0 <= GrantingDelay_into_raw (granting_delay grant) <= Z.min 13 (Z.of_nat j))%Z;
  g_exact : cap = 1 \/ Forall (fun c => is_mandatory_clch c = false) (opportunities first 0 j) ->
    GrantingDelay_into_raw (granting_delay grant) = Z.of_nat j;
  g_distinct : NoDup (key <$> usable_opportunities first j len);
  g_taken : forall c, c ∈ usable_opportunities first j len -> exists e e',
    entry s (key c) = Some e /\ entry s' (key c) = Some e' /\
    takes (ssi addr) marker (capacity_allocation grant) e e';
  g_others : forall k, k ∉ key <$> usable_opportunities first j len -> entry s' k = entry s k
}.

Lemma delay_raw sk :
  sk <= 13 ->
  GrantingDelay_into_raw (if sk =? 0 then CapAllocAtNextOpportunity else DelayNOpportunities (u8 (Z.of_nat sk)))
  = Z.of_nat sk.
Proof.
  intros H. destruct (Nat.eqb_spec sk 0) as [->|Hne]; [done|]. cbn. apply u8_small. lia.
Qed.

(** Reserving what the search found; [half] tells the two kinds of grant apart. *)
Lemma grant_found s first addr debt cap sk half own marker j len :
  sched_ok s -> Tdma.valid first -> j + len < 90 -> sk <= 13 -> 1 <= cap <= next_chunk_slots debt ->
  (own = None \/ own = Some (ssi addr)) -> (half = true -> cap = 1 /\ marker = None) ->
  (forall mk, marker = Some mk -> (4 <= mk <= 62)%Z) ->
  length (usable_opportunities first j len) = cap ->
  found s first cap half own sk (usable_opportunities first j len) j len ->
  exists sub s' alloc, ul_reserve_grant s (ssi addr) (usable_opportunities first j len) half marker = Some (sub, s') /\
    (if half then if (sub =? 1)%Z then Some FirstSubslotGranted
       else if (sub =? 2)%Z then Some SecondSubslotGranted else None
     else Some (from_req_slotcount cap)) = Some alloc /\
    sched_ok s' /\
    granted s s' first addr debt (mkSlotgrant alloc
      (if sk =? 0 then CapAllocAtNextOpportunity else DelayNOpportunities (u8 (Z.of_nat sk)))) marker cap j len.
Proof.
  intros SO V Hb Hsk Hcap Hown Hhalf Hm Hlen [F1 F2 F3 F4 F5].
  set (g := usable_opportunities first j len) in *. unfold ul_reserve_grant.
  assert (Hne : g <> []) by (intros E; rewrite E in Hlen; cbn in Hlen; lia).
  assert (Hnn : length g <> 0) by lia.
  pose proof (usable_valid first j len V Hb) as HV. pose proof (usable_distinct first j len V Hb) as HD. fold g in HV, HD.
  assert (G : forall s' alloc,
    (forall c, c ∈ g -> exists e e', entry s (key c) = Some e /\ entry s' (key c) = Some e' /\ takes (ssi addr) marker alloc e e') ->
    (forall k, k ∉ key <$> g -> entry s' k = entry s k) ->
    granted s s' first addr debt (mkSlotgrant alloc
      (if sk =? 0 then CapAllocAtNextOpportunity else DelayNOpportunities (u8 (Z.of_nat sk)))) marker cap j len).
  { intros s' alloc H1 H2. split; cbn [granting_delay capacity_allocation]; try done; rewrite ?delay_raw by done;
      [by apply F3|lia|]. intros H. by rewrite F5. }
  rewrite (proj2 (Nat.eqb_neq _ _) Hnn). cbn [negb assert_]. rewrite bind_Some.
  destruct half.
  - destruct (Hhalf eq_refl) as [-> ->]. rewrite Hlen. cbn [negb orb]. change (1 =? 1) with true. cbn [assert_]. rewrite bind_Some.
    destruct g as [|c [|]]; [done| |cbn in Hlen; lia]. apply Forall_cons in HV as [Vc _].
    apply Forall_cons in F2 as [(e & He & Hu) _]. destruct (entry_bounds _ _ _ SO He) as (Hok & K1 & K2).
    destruct (reserve_half s (ssi addr) c own e) as (sub & alloc & e' & T & Hsub & E); try done.
    exists sub, (put_cell s (key c) e'), alloc. split; [done|]. split; [by destruct Hsub as [[-> ->]|[-> ->]]|].
    split; [by apply put_cell_ok, (takes_ok _ _ _ _ _ T)|]. apply G.
    + intros c' ->%list_elem_of_singleton. exists e, e'. split_and!; [done| |done].
      rewrite put_cell_entry by done. by rewrite bool_decide_true.
    + intros k Hk. cbn in Hk. rewrite list_elem_of_singleton in Hk. rewrite put_cell_entry by done. by rewrite bool_decide_false.
  - cbn [negb orb assert_]. rewrite bind_Some.
    destruct (reserve_loop_full (ssi addr) marker own cap g s) as (s' & E & SO' & Hin & Hout); try done; [lia|].
    exists 0%Z, s', (from_req_slotcount cap). split_and!; try done. by apply G.
Qed.

Lemma found_with_markers s l first n half own sk g j len :
  found s first n half own sk g j len -> found (with_markers s l) first n half own sk g j len.
Proof. intros [F1 F2 F3 F4 F5]. by split. Qed.

Lemma granted_with_markers s l s' first addr debt grant marker cap j len :
  granted (with_markers s l) s' first addr debt grant marker cap j len ->
  granted s s' first addr debt grant marker cap j len.
Proof. intros [G1 G2 G3 G4 G5 G6 G7 G8]. by split. Qed.

(** The capacities that are tried. *)
Lemma candidate_caps debt cap :
  cap ∈ List.filter (fun c => c <=? next_chunk_slots debt)
          (if is_halfslot debt then [1] else BASIC_GRANT_FULL_SLOT_COUNTS_DESC) ->
  1 <= cap <= next_chunk_slots debt /\ (is_halfslot debt = true -> cap = 1).
Proof.
  intros [Hin Hle%Nat.leb_le]%list_elem_of_In%List.filter_In. split.
  - split; [|done]. destruct (is_halfslot debt); [cbn in Hin; lia|].
    assert (H : Forall (fun c => 1 <= c) BASIC_GRANT_FULL_SLOT_COUNTS_DESC) by (repeat constructor).
    rewrite List.Forall_forall in H. by apply H.
  - intros E. rewrite E in Hin. cbn in Hin. lia.
Qed.

(** A request is processed without a panic and either changes nothing or is granted. *)
Lemma process_spec s base ts addr debt alloc :
  sched_ok s -> Tdma.valid base -> (1 <= ts <= 4)%Z ->
  exists r s', ul_process_pending_grant_from_with_allocator s base ts addr debt alloc = Some (r, s') /\
    sched_ok s' /\
    match r with
    | None => s' = s
    | Some (grant, marker, cap) =>
        (forall mk, marker = Some mk -> (4 <= mk <= 62)%Z) /\
        exists j len, granted s s' (forward_to_timeslot base ts) addr debt grant marker cap j len
    end.
Proof.
  intros SO V Hts. unfold ul_process_pending_grant_from_with_allocator.
  set (caps := List.filter _ _).
  assert (Hc : forall cap, cap ∈ caps -> _) by exact (candidate_caps debt). clearbody caps.
  destruct (cap_loop_spec (fun cap => ul_find_grant_opportunity_for_addr_from s base ts addr cap (is_halfslot debt) alloc)
    caps) as (r & Er & Hr).
  { apply Forall_forall. intros cap H. destruct (Hc cap H) as [H1 H2].
    destruct (find_addr_spec s base ts addr cap (is_halfslot debt) alloc) as (r & own & _ & E & _); [done..|lia|done|by exists r]. }
  rewrite Er, bind_Some. destruct r as [[[cap sk] g]|]; [|by exists None, s].
  destruct Hr as (Hin & Hsk & Hf). destruct (Hc cap Hin) as [Hcap Hh].
  destruct (find_addr_spec s base ts addr cap (is_halfslot debt) alloc) as (r & own & Hown & E & H); [done..|lia|done|].
  rewrite Hf in E. injection E as <-. destruct H as (Hl & j & len & Hb & F).
  pose proof (found_slots _ _ _ _ _ _ _ _ _ F) as ->.
  destruct (forward_to_timeslot_next base ts V Hts) as (Vf & _ & _).
  set (half := is_halfslot debt) in *.
  assert (Hmk : exists marker s1 l, (if negb half && (2 <=? cap)
      then '(mk, self) ← alloc_usage_marker s ts; Some (Some mk, self) else Some (None, s)) = Some (marker, s1) /\
    (s1 = s \/ s1 = with_markers s l) /\ sched_ok s1 /\ (forall mk, marker = Some mk -> (4 <= mk <= 62)%Z) /\
    (half = true -> cap = 1 /\ marker = None)).
  { destruct (alloc_usage_marker_spec s ts SO Hts) as (mk & l & Ea & Hmk & SOl).
    destruct half; cbn [negb andb]; [exists None, s, l; split_and!; auto; done|].
    destruct (2 <=? cap); [|exists None, s, l; split_and!; auto; done].
    rewrite Ea, bind_Some. exists (Some mk), (with_markers s l), l. split_and!; auto; [|done].
    intros ? [= <-]. done. }
  destruct Hmk as (marker & s1 & l & -> & Hs1 & SO1 & Hmr & Hhm). rewrite bind_Some.
  assert (F1 : found s1 (forward_to_timeslot base ts) cap half own sk
    (usable_opportunities (forward_to_timeslot base ts) j len) j len)
    by (destruct Hs1 as [->| ->]; [done|by apply found_with_markers]).
  destruct (grant_found s1 (forward_to_timeslot base ts) addr debt cap sk half own marker j len)
    as (sub & s' & cap_alloc & Eg & Ea & SO' & G); try done.
  rewrite Eg, bind_Some. cbv beta iota. rewrite Ea, bind_Some. eexists _, s'. split; [done|]. split; [done|].
  split; [done|]. exists j, len. destruct Hs1 as [->| ->]; [done|by eapply granted_with_markers].
Qed.

(** ** Facts: the schedule over time *)

(** What happens to the uplink schedule: requests, the end of a slot, voice calls taking a
    timeslot, a change of time, and changes of circuits and packet data assignments. *)
Inductive ul_op :=
  | OpRequest (base : TdmaTime) (ts : Z) (addr : TetraAddress) (debt : PendingGrantDebt)
      (alloc : option TimeslotAllocator)
  | OpFinalize (ts : TdmaTime)
  | OpVoicePriority (ts : Z)
  | OpPurge
  | OpSetTime (ts : TdmaTime)
  | OpCircuit (op : circuit_op)
  | OpPacketData (slot : nat) (assignment : option PacketDataAssignment)
  | OpHangtime (slot : nat) (on : bool).

Definition run_ul_op (s : BsChannelScheduler) (op : ul_op) : option BsChannelScheduler :=
  match op with
  | OpRequest base ts addr debt alloc =>
      snd <$> ul_process_pending_grant_from_with_allocator s base ts addr debt alloc
  | OpFinalize ts => finalize_ul s ts
  | OpVoicePriority ts => Some (clear_future_uplink_reservations_for_timeslot s ts)
  | OpPurge => Some (purge_schedule s)
  | OpSetTime ts => Some (set_dl_time s ts)
  | OpCircuit op => Some (mkSched (cur_dltime s) (s_scrambling_code s) (ulsched s)
      (run_op (circuits s) op).2 (hangtime s) (next_usage_marker s) (packet_data_assignments s))
  | OpPacketData i a => Some (mkSched (cur_dltime s) (s_scrambling_code s) (ulsched s) (circuits s)
      (hangtime s) (next_usage_marker s) (<[i := a]> (packet_data_assignments s)))
  | OpHangtime i b => Some (mkSched (cur_dltime s) (s_scrambling_code s) (ulsched s) (circuits s)
      (<[i := b]> (hangtime s)) (next_usage_marker s) (packet_data_assignments s))
  end.

(** The times and timeslots the caller passes are real ones. *)
Definition ul_op_ok (op : ul_op) : Prop :=
  match op with
  | OpRequest base ts _ _ _ => Tdma.valid base /\ (1 <= ts <= 4)%Z
  | OpFinalize ts => Tdma.valid ts
  | _ => True
  end.

(** The cell the end of a slot frees, and all the cells an operation may free. *)
Definition finished (ts : TdmaTime) : cell := (Z.to_nat (t ts - 1), (key (add_timeslots ts (-4))).2).
Definition frees (op : ul_op) (k : cell) : Prop :=
  match op with
  | OpFinalize ts => k = finished ts
  | OpVoicePriority ts => k.1 = Z.to_nat (ts - 1)
  | OpPurge | OpSetTime _ => True
  | _ => False
  end.

Lemma empty_ok : entry_ok EMPTY_SCHED_ELEM.
Proof. split; cbn; [done|by intros [? ?]|done]. Qed.

Lemma empty_sched_ok s : sched_ok s -> sched_ok (purge_schedule s).
Proof.
  intros []. split; cbn -[EMPTY_SCHED]; try done.
  - unfold EMPTY_SCHED. apply Forall_replicate. by unfold EMPTY_SCHED_CHANNEL; rewrite length_replicate.
  - unfold EMPTY_SCHED. apply Forall_replicate, Forall_replicate, empty_ok.
Qed.

Lemma clear_future_ok s ts :
  sched_ok s -> sched_ok (clear_future_uplink_reservations_for_timeslot s ts).
Proof.
  intros SO. unfold clear_future_uplink_reservations_for_timeslot. destruct (negb _); [done|].
  destruct SO as [H1 H2 H3 H4 H5 H6 H7]. split; cbn; try done.
  - by rewrite length_alter.
  - apply Forall_alter; [done|]. intros chan _ H. by rewrite length_fmap.
  - apply Forall_alter; [done|]. intros chan _ H. apply Forall_fmap. eapply Forall_impl; [exact H|].
    intros e He. cbn. destruct (_ || _); [apply empty_ok|done].
Qed.

Lemma clear_future_entry s ts k :
  k.1 <> Z.to_nat (ts - 1) -> entry (clear_future_uplink_reservations_for_timeslot s ts) k = entry s k.
Proof.
  intros Hk. unfold clear_future_uplink_reservations_for_timeslot. destruct (negb _); [done|].
  unfold entry. cbn [with_ulsched ulsched]. by rewrite list_lookup_alter_ne.
Qed.

Lemma finalize_spec s ts :
  sched_ok s -> Tdma.valid ts ->
  (finished ts).1 < 4 /\ (finished ts).2 < 90 /\
  finalize_ul s ts = Some (put_cell s (finished ts) EMPTY_SCHED_ELEM).
Proof.
  intros SO V. destruct (add_timeslots_count ts (-4) V) as [V' _]; [lia|].
  destruct (key_bounds _ V') as [_ K2]. apply Tdma.valid_bounds in V.
  unfold finalize_ul, finished. rewrite index_spec, bind_Some by done. rewrite pred_usize_pos, bind_Some by lia.
  generalize dependent (key (add_timeslots ts (-4))).2. intros i K2. cbn [fst snd].
  split_and!; [lia|lia|]. apply (put_chan s (Z.to_nat (t ts - 1), i)); cbn [fst snd]; [done|lia|lia].
Qed.

(** A reservation outlives a step that does not free its cell. *)
Definition keeps (e e' : TimeslotSchedule) : Prop :=
  (forall o, ul1 e = Some o -> ul1 e' = Some o) /\ (forall o, ul2 e = Some o -> ul2 e' = Some o).

Lemma takes_keeps who marker cap e e' : takes who marker cap e e' -> keeps e e'.
Proof. by destruct 1. Qed.

Lemma ul_op_spec s op :
  sched_ok s -> ul_op_ok op ->
  exists s', run_ul_op s op = Some s' /\ sched_ok s' /\
    forall k e, entry s k = Some e -> ~ frees op k -> exists e', entry s' k = Some e' /\ keeps e e'.
Proof.
  intros SO Hop.
  assert (Same : forall s' k e, entry s' k = entry s k -> entry s k = Some e ->
    exists e', entry s' k = Some e' /\ keeps e e') by (intros ?? e -> ->; by exists e).
  destruct op as [base ts addr debt alloc|ts|ts| |ts|op|i a|i b]; cbn [run_ul_op ul_op_ok frees] in *.
  - destruct Hop as [V Hts]. destruct (process_spec s base ts addr debt alloc SO V Hts) as (r & s' & E & SO' & H).
    exists s'. rewrite E. split_and!; [done|done|]. intros k e He _.
    destruct r as [[[grant marker] cap]|]; [|subst; eauto]. destruct H as (_ & j & len & [_ _ _ _ _ _ Ht Ho]).
    destruct (decide (k ∈ key <$> usable_opportunities (forward_to_timeslot base ts) j len)) as [Hk|Hk]; [|eauto].
    apply list_elem_of_fmap in Hk as (c & -> & Hc). destruct (Ht c Hc) as (e1 & e2 & H1 & H2 & T).
    exists e2. split; [done|]. rewrite He in H1. injection H1 as <-. by eapply takes_keeps.
  - destruct (finalize_spec s ts SO Hop) as (K1 & K2 & E). rewrite E. eexists. split_and!; [done|apply put_cell_ok, empty_ok; done|].
    intros k e He Hk. apply Same; [|done]. rewrite put_cell_entry by done. by rewrite bool_decide_false.
  - eexists. split_and!; [done|by apply clear_future_ok|]. intros k e He Hk. apply Same; [|done]. by apply clear_future_entry.
  - eexists. split_and!; [done|by apply empty_sched_ok|]. by intros ???[].
  - eexists. split_and!; [done| |by intros ???[]]. apply empty_sched_ok. by destruct SO; split.
  - eexists. split_and!; [done|by destruct SO; split|]. intros k e He _. by apply Same.
  - eexists. split_and!; [done|destruct SO; split; cbn; rewrite ?length_insert; done|]. intros k e He _. by apply Same.
  - eexists. split_and!; [done|destruct SO; split; cbn; rewrite ?length_insert; done|]. intros k e He _. by apply Same.
Qed.

Lemma ul_ops_spec ops : forall s,
  sched_ok s -> Forall ul_op_ok ops ->
  exists s', foldM run_ul_op ops s = Some s' /\ sched_ok s' /\
    forall k e, entry s k = Some e -> Forall (fun op => ~ frees op k) ops ->
      exists e', entry s' k = Some e' /\ keeps e e'.
Proof.
  induction ops as [|op ops IH]; intros s SO H; cbn [foldM].
  { exists s. split_and!; [done|done|]. intros k e He _. by exists e. }
  apply Forall_cons in H as [Hop H]. destruct (ul_op_spec s op SO Hop) as (s1 & E1 & SO1 & K1). rewrite E1, bind_Some.
  destruct (IH s1 SO1 H) as (s' & E & SO' & K). exists s'. split_and!; [done|done|].
  intros k e He Hf. apply Forall_cons in Hf as [Hf1 Hf]. destruct (K1 k e He Hf1) as (e1 & H1 & [A B]).
  destruct (K k e1 H1 Hf) as (e2 & H2 & [C D]). exists e2. split; [done|]. split; auto.
Qed.

Lemma sched_new_ok code : sched_ok (sched_new code).
Proof.
  split; cbn -[EMPTY_SCHED]; try done.
  - unfold EMPTY_SCHED. apply Forall_replicate. by unfold EMPTY_SCHED_CHANNEL; rewrite length_replicate.
  - unfold EMPTY_SCHED. apply Forall_replicate, Forall_replicate, empty_ok.
  - repeat constructor; lia.
Qed.

(** ** Facts: the access assignment on the air *)

(** What a mobile may conclude about the uplink slot from the usage and the two access
    fields: a marked slot is traffic of that marker, a reserved subslot is not offered. *)
Definition announces (free_is_open : bool) (e : TimeslotSchedule) (usage : AccessAssignUlUsage)
  (af1 af2 : option AccessField) : Prop :=
  match usage_marker e with
  | Some mk => usage = Traffic mk /\ af1 = None /\ af2 = None
  | None => exists x y, af1 = Some x /\ af2 = Some y /\ ul_is_traffic usage = false /\
      (is_reserved (ul1 e) = true -> base_frame_len x = 0%Z) /\
      (is_reserved (ul2 e) = true -> base_frame_len y = 0%Z) /\
      (free_is_open = true -> is_reserved (ul1 e) = false -> base_frame_len x = 4%Z) /\
      (free_is_open = true -> is_reserved (ul2 e) = false -> base_frame_len y = 4%Z)
  end.

Lemma reserved_field_ok r : af_ok (reserved_field r).
Proof. destruct r; unfold af_ok; cbn; lia. Qed.
Lemma open_field_ok n : (0 <= n <= 15)%Z -> af_ok (mkAccessField 0 n).
Proof. unfold af_ok. cbn. lia. Qed.

(** The usage of a well-formed entry. *)
Lemma usage_spec s ts e :
  Tdma.valid ts -> entry s (key ts) = Some e -> entry_ok e ->
  exists u, ul_get_usage s ts = Some u /\
    match usage_marker e with
    | Some mk => u = Traffic mk /\ (4 <= mk <= 62)%Z
    | None => (u = CommonOnly \/ u = CommonAndAssigned \/ u = AssignedOnly) /\ (u = CommonOnly -> ul1 e = None /\ ul2 e = None)
    end.
Proof.
  intros V He [H1 H2 H3]. unfold ul_get_usage. rewrite sched_at_entry, He, bind_Some by done.
  destruct (ul1 e) as [a|]; [destruct (ul2 e) as [b|]|rewrite (H1 eq_refl)].
  - destruct (usage_marker e) as [mk|] eqn:Em; eexists; (split; [done|]); [auto|]. split; [tauto|done].
  - destruct (usage_marker e) as [mk|] eqn:Em; [destruct H2 as [? ?]; [by eexists|done]|].
    eexists. split; [done|]. split; [tauto|done].
  - destruct (usage_marker e) as [mk|] eqn:Em.
    + destruct H2 as [? Hx]; [by eexists|]. by rewrite (H1 eq_refl) in Hx.
    + eexists. split; [done|]. split; [tauto|done].
Qed.

Lemma assign_ts1_spec s ts e :
  Tdma.valid ts -> entry s (key ts) = Some e -> entry_ok e ->
  exists a n f1 f2, assign_ts1 s ts = Some a /\ assign_form a n f1 f2 /\ announces true e (ul_usage a) (f1_af1 a) (f2_af2 a).
Proof.
  intros V He Hok. unfold assign_ts1. rewrite sched_at_entry, He, bind_Some by done.
  destruct (usage_spec s ts e V He Hok) as (u & -> & Hu). rewrite bind_Some. unfold announces.
  destruct (usage_marker e) as [mk|].
  - destruct Hu as [-> Hmk]. cbn [ul_is_traffic]. eexists _, _, _, _. split; [done|]. split; [|done].
    apply af_traffic; [done|lia].
  - assert (Hn : ul_is_traffic u = false) by (by destruct Hu as [[->|[->| ->]] _]).
    rewrite Hn. eexists _, _, _, _. split; [done|]. split; [apply af_common; apply reserved_field_ok|].
    cbn. eexists _, _. split_and!; try done; by intros; destruct (is_reserved _).
Qed.

Lemma pair_headers :
  let headers := [(CommonOnly, 0); (CommonAndAssigned, 1); (AssignedOnly, 2)]%Z in
  (CommonOnly, 0%Z) ∈ headers /\ (CommonAndAssigned, 1%Z) ∈ headers /\ (AssignedOnly, 2%Z) ∈ headers.
Proof. cbv zeta. rewrite !elem_of_cons. tauto. Qed.

Lemma assign_fr18_spec s ts e :
  Tdma.valid ts -> is_mandatory_clch ts = false -> entry s (key ts) = Some e -> entry_ok e ->
  exists a n f1 f2, assign_fr18 s ts = Some a /\ assign18_form a n f1 f2 /\
    announces false e (h_ul_usage a) (h_f1_af1 a) (h_f2_af2 a).
Proof.
  intros V Hc He Hok. unfold assign_fr18. rewrite Hc.
  destruct (usage_spec s ts e V He Hok) as (u & -> & Hu). rewrite bind_Some, sched_at_entry, He, bind_Some by done.
  unfold announces. destruct (usage_marker e) as [mk|].
  - destruct Hu as [-> Hmk]. eexists _, _, _, _. split; [done|]. split; [|done].
    apply a18_traffic; [lia|by apply open_field_ok].
  - destruct Hu as [Hu Hfree]. destruct pair_headers as (P0 & P1 & P2). destruct Hu as [->|[->| ->]].
    + destruct (Hfree eq_refl) as [-> ->]. eexists _, _, _, _. split; [done|].
      split; [eapply a18_pair; [exact P0|by apply open_field_ok..]|]. cbn. eexists _, _. by split_and!.
    + eexists _, _, _, _. split; [done|]. split; [eapply a18_pair; [exact P1|apply reserved_field_ok..]|].
      cbn. eexists _, _. split_and!; try done; by intros; destruct (is_reserved _).
    + eexists _, _, _, _. split; [done|]. split; [eapply a18_pair; [exact P2|apply reserved_field_ok..]|].
      cbn. eexists _, _. split_and!; try done; by intros; destruct (is_reserved _).
Qed.

(** The base station sends the access assignment of a slot... *)
Definition send_aach (s : BsChannelScheduler) (ts : TdmaTime) (pending : bool)
  (alloc : option TimeslotAllocator) : option BitBuffer :=
  bbk ← generate_bbk_block_with_group_floor_grant s ts pending alloc;
  '(_, block) ← call (seek 0) (mac_block bbk);
  encode_aach block (scrambling_code bbk).

(** ... and a mobile, told the frame by SYNC, reads usage and access fields from it. *)
Definition receive_aach (code : Z) (frame : Z) (block : BitBuffer)
  : option (AccessAssignUlUsage * option AccessField * option AccessField) :=
  type1 ← decode_aach block code;
  if (frame =? 18)%Z
  then '(a, _) ← call AccessAssignFr18_from_bitbuf type1; Some (h_ul_usage a, h_f1_af1 a, h_f2_af2 a)
  else '(a, _) ← call AccessAssign_from_bitbuf type1; Some (ul_usage a, f1_af1 a, f2_af2 a).

(** A 14-bit image on its way through the lower MACs. *)
Lemma aach_air m bits code :
  emits m tt bits -> length bits = 14 ->
  exists b type5 sent, to_block m = Some b /\
    ('(_, block) ← call (seek 0) b; encode_aach block code) = Some type5 /\ holds type5 sent /\
    forall r i, holds r sent \/ holds r (flip i sent) ->
      exists type1, decode_aach r code = Some type1 /\ holds type1 bits.
Proof.
  intros He Hl. destruct (emits_new_holds m tt bits He) as (b & Em & Hs & Hb & _). rewrite Hl in Em.
  destruct (encode_aach_ok _ _ code Hb Hl) as (type5 & E5 & H5).
  exists b, type5. eexists. unfold to_block, run. rewrite Em. split; [done|].
  assert (Es : call (seek 0) b = Some (tt, with_pos b 0)).
  { unfold call, seek. rewrite Hs. by rewrite (proj2 (Nat.leb_le (0 + 0) (end_ b)) (Nat.le_0_l _)). }
  rewrite Es, bind_Some. cbv iota beta. rewrite E5. split; [done|]. split; [exact H5|].
  intros r i Hr. by apply (decode_aach_ok r bits code i).
Qed.

Lemma send_receive_18 s ts pending alloc e :
  sched_ok s -> Tdma.valid ts -> f ts = 18%Z -> is_mandatory_clch ts = false -> entry s (key ts) = Some e ->
  exists type5 sent, send_aach s ts pending alloc = Some type5 /\ holds type5 sent /\
    forall r i, holds r sent \/ holds r (flip i sent) ->
      exists usage af1 af2, receive_aach (s_scrambling_code s) (f ts) r = Some (usage, af1, af2) /\
        announces false e usage af1 af2.
Proof.
  intros SO V Hf Hc He. destruct (entry_bounds _ _ _ SO He) as (Hok & _ & _).
  destruct (assign_fr18_spec s ts e V Hc He Hok) as (a & n & f1 & f2 & Ea & F & A).
  destruct (aach_air _ _ (s_scrambling_code s) (assign18_emits a n f1 f2 F) eq_refl) as (b & type5 & sent & Eb & E5 & H5 & R).
  exists type5, sent. unfold send_aach, generate_bbk_block_with_group_floor_grant, receive_aach.
  rewrite Hf. change (18 =? 18)%Z with true. cbn [negb]. rewrite Ea, bind_Some, Eb, !bind_Some.
  cbn [mac_block scrambling_code]. split; [exact E5|]. split; [done|]. intros r i Hr.
  destruct (R r i Hr) as (type1 & -> & H1). rewrite bind_Some.
  pose proof (assign18_parses a n f1 f2 [] F type1 (ho_wf _ _ H1)) as P. unfold call. rewrite P, bind_Some.
  2:{ by rewrite app_nil_r, (holds_remaining _ _ H1). }
  by eexists _, _, _.
Qed.

Lemma send_receive_ts1 s ts pending alloc e :
  sched_ok s -> Tdma.valid ts -> f ts <> 18%Z -> t ts = 1%Z ->
  get_usage (circuits s) DirDl 1 = None -> get_usage (circuits s) DirUl 1 = None ->
  entry s (key ts) = Some e ->
  exists type5 sent, send_aach s ts pending alloc = Some type5 /\ holds type5 sent /\
    forall r i, holds r sent \/ holds r (flip i sent) ->
      exists usage af1 af2, receive_aach (s_scrambling_code s) (f ts) r = Some (usage, af1, af2) /\
        announces true e usage af1 af2.
Proof.
  intros SO V Hf Ht Hd Hu He. destruct (entry_bounds _ _ _ SO He) as (Hok & _ & _).
  destruct (assign_ts1_spec s ts e V He Hok) as (a & n & f1 & f2 & Ea & F & A).
  destruct (aach_air _ _ (s_scrambling_code s) (assign_emits a n f1 f2 F) eq_refl) as (b & type5 & sent & Eb & E5 & H5 & R).
  exists type5, sent. unfold send_aach, generate_bbk_block_with_group_floor_grant, receive_aach.
  rewrite (proj2 (Z.eqb_neq _ _) Hf), Ht, Hd, Hu. change (1 =? 1)%Z with true. cbn [negb is_reserved assert_].
  rewrite !bind_Some, Ea, bind_Some, Eb, !bind_Some.
  cbn [mac_block scrambling_code]. split; [exact E5|]. split; [done|]. intros r i Hr.
  destruct (R r i Hr) as (type1 & -> & H1). rewrite bind_Some.
  pose proof (assign_parses a n f1 f2 [] F type1 (ho_wf _ _ H1)) as P. unfold call. rewrite P, bind_Some.
  2:{ by rewrite app_nil_r, (holds_remaining _ _ H1). }
  by eexists _, _, _.
Qed.

(** ** Claims *)

(** The states the scheduler reaches from its start. *)
Definition reachable (code : Z) (ops : list ul_op) (s : BsChannelScheduler) : Prop :=
  Forall ul_op_ok ops /\ foldM run_ul_op ops (sched_new code) = Some s.

Lemma reachable_ok code ops s : reachable code ops s -> sched_ok s.
Proof.
  intros [H E]. destruct (ul_ops_spec ops (sched_new code) (sched_new_ok code) H) as (s' & E' & SO & _). congruence.
Qed.

(** C11 (uplink grants).  In every state the scheduler reaches, a request for uplink
    capacity is processed without a panic.  It either changes nothing, or it is granted:
    at most four slots, the capacity announced, are found within 89 frames of the grant,
    none of them a mandatory linearization slot and no two of them the same cell of the
    schedule; each was free (for a subslot: had that subslot free) or already full with
    the same mobile, and is now reserved for it; every other cell is unchanged.  The
    announced delay is at most 13 and never points behind the first reserved slot, and
    points exactly at it for single slots and when no linearization slot is passed on the
    way.  Usage markers are between 4 and 62. *)
Theorem uplink_grant_safe code ops s base ts addr debt alloc :
  reachable code ops s -> Tdma.valid base -> (1 <= ts <= 4)%Z ->
  exists r s', ul_process_pending_grant_from_with_allocator s base ts addr debt alloc = Some (r, s') /\
    match r with
    | None => s' = s
    | Some (grant, marker, cap) =>
        (forall mk, marker = Some mk -> (4 <= mk <= 62)%Z) /\
        exists j len, granted s s' (forward_to_timeslot base ts) addr debt grant marker cap j len
    end.
Proof.
  intros R V Hts. destruct (process_spec s base ts addr debt alloc (reachable_ok _ _ _ R) V Hts) as (r & s' & E & _ & H).
  by exists r, s'.
Qed.

(** The schedule after one request for three slots. *)
Definition example_time : TdmaTime := mkTime 1 17 1 0.
Definition example_ops : list ul_op :=
  [OpSetTime example_time; OpRequest example_time 1 (mkAddr 2001 Issi) (debt_new Req3Slots) None].

Lemma example_valid : Tdma.valid example_time.
Proof. by apply Tdma.valid_bounds; cbn. Qed.

Definition example_sched : BsChannelScheduler :=
  default (sched_new 3) (foldM run_ul_op example_ops (sched_new 3)).

Lemma example_reachable : reachable 3 example_ops example_sched.
Proof.
  assert (H : Forall ul_op_ok example_ops).
  { repeat constructor; cbn; try lia. }
  split; [exact H|]. unfold example_sched.
  destruct (ul_ops_spec example_ops (sched_new 3) (sched_new_ok 3) H) as (s & E & _). rewrite E. reflexivity.
Qed.

Lemma uplink_grant_safe_witness :
  exists r s', ul_process_pending_grant_from_with_allocator example_sched example_time 1 (mkAddr 2002 Issi)
      (debt_new Req2Slots) None = Some (r, s') /\
    match r with
    | None => s' = example_sched
    | Some (grant, marker, cap) =>
        (forall mk, marker = Some mk -> (4 <= mk <= 62)%Z) /\
        exists j len, granted example_sched s' (forward_to_timeslot example_time 1) (mkAddr 2002 Issi) (debt_new Req2Slots)
          grant marker cap j len
    end.
Proof.
  apply (uplink_grant_safe 3 example_ops example_sched example_time 1 (mkAddr 2002 Issi) (debt_new Req2Slots) None).
  - exact example_reachable.
  - exact example_valid.
  - lia.
Defined.

(** C12 (reservations are kept).  No sequence of requests, slot ends, voice calls, time
    changes, circuit and packet data changes makes the uplink scheduler panic, and it
    never leaves an entry whose second subslot is reserved without the first or a usage
    marker outside 4 to 62.  A subslot once reserved for a mobile stays reserved for it
    whatever else is requested, until its slot has passed, its timeslot is taken for
    voice or the schedule is purged. *)
Theorem uplink_reservations_kept code before after :
  Forall ul_op_ok (before ++ after) ->
  exists s s', foldM run_ul_op before (sched_new code) = Some s /\ foldM run_ul_op after s = Some s' /\
    sched_ok s /\ sched_ok s' /\
    forall k e, entry s k = Some e -> Forall (fun op => ~ frees op k) after ->
      exists e', entry s' k = Some e' /\ keeps e e'.
Proof.
  intros [H1 H2]%Forall_app.
  destruct (ul_ops_spec before (sched_new code) (sched_new_ok code) H1) as (s & E & SO & _).
  destruct (ul_ops_spec after s SO H2) as (s' & E' & SO' & K). by exists s, s'.
Qed.

Lemma uplink_reservations_kept_witness :
  exists s s', foldM run_ul_op example_ops (sched_new 3) = Some s /\
    foldM run_ul_op [OpFinalize example_time; OpVoicePriority 2] s = Some s' /\
    sched_ok s /\ sched_ok s' /\
    forall k e, entry s k = Some e -> Forall (fun op => ~ frees op k) [OpFinalize example_time; OpVoicePriority 2] ->
      exists e', entry s' k = Some e' /\ keeps e e'.
Proof.
  apply (uplink_reservations_kept 3 example_ops [OpFinalize example_time; OpVoicePriority 2]).
  repeat constructor; cbn; try lia.
Defined.

(** C27 (reserved slots are not offered).  In every state the scheduler reaches, the access
    assignment it sends for a slot of the control channel or of frame 18 (a mandatory
    linearization slot apart) arrives, even with one bit of the 30 inverted on the air,
    and tells the mobiles what the schedule holds: a slot with a usage marker is traffic
    of that marker, a reserved subslot is not open for random access, and outside frame
    18 a free subslot is. *)
Theorem reserved_never_offered code ops s ts pending alloc e :
  reachable code ops s -> Tdma.valid ts -> is_mandatory_clch ts = false -> entry s (key ts) = Some e ->
  f ts = 18%Z \/ t ts = 1%Z /\ get_usage (circuits s) DirDl 1 = None /\ get_usage (circuits s) DirUl 1 = None ->
  exists type5 sent, send_aach s ts pending alloc = Some type5 /\ holds type5 sent /\
    forall r i, holds r sent \/ holds r (flip i sent) ->
      exists usage af1 af2, receive_aach (s_scrambling_code s) (f ts) r = Some (usage, af1, af2) /\
        announces (negb (f ts =? 18)%Z) e usage af1 af2.
Proof.
  intros R V Hc He Ht. pose proof (reachable_ok _ _ _ R) as SO.
  destruct (Z.eqb_spec (f ts) 18) as [E|E]; cbn [negb]; [by apply send_receive_18|].
  destruct Ht as [Ht|(H1 & H2 & H3)]; [done|by apply send_receive_ts1].
Qed.

(** Frame 18 of the first multiframe, the second of the three reserved slots. *)
Lemma reserved_never_offered_witness :
  exists type5 sent, send_aach example_sched (mkTime 1 18 1 0) false None = Some type5 /\ holds type5 sent /\
    forall r i, holds r sent \/ holds r (flip i sent) ->
      exists usage af1 af2, receive_aach (s_scrambling_code example_sched) 18 r = Some (usage, af1, af2) /\
        announces false (mkSlot (Some 2001%Z) (Some 2001%Z) (Some 4%Z)) usage af1 af2.
Proof.
  apply (reserved_never_offered 3 example_ops example_sched (mkTime 1 18 1 0) false None
    (mkSlot (Some 2001%Z) (Some 2001%Z) (Some 4%Z))).
  - exact example_reachable.
  - apply Tdma.valid_bounds. cbn. lia.
  - reflexivity.
  - vm_compute. reflexivity.
  - left. reflexivity.
Defined.

(** The search counts the linearization slots it passes in the granting delay, but not
    those inside a run of usable slots that is given up later. *)
Definition clch_ops : list ul_op :=
  let now := mkTime 2 17 1 0 in
  let assigned addr := OpPacketData 1 (Some (mkPacketData addr Both 1000 (mkTime 2 17 60 0))) in
  let a := mkAddr 2001 Issi in let b := mkAddr 2002 Issi in
  [OpSetTime now; assigned a; OpRequest now 2 a (debt_new Req1Slot) None;
   assigned b; OpRequest now 2 b (debt_new Req1Slot) None; assigned a].

(** A delay that is one short.  On the packet data timeslot mobile 2001 holds the
    slot of frame 17 and mobile 2002 that of the following frame 1, frame 18 between them
    being the linearization slot.  A request of mobile 2001 for two slots is answered
    with a delay of two opportunities although the slots reserved for it begin at
    opportunity three; opportunity two is the slot of mobile 2002, so both would
    transmit in it. *)
Theorem granting_delay_short :
  (s ← foldM run_ul_op clch_ops (sched_new 3);
   '(r, s') ← ul_process_pending_grant_from_with_allocator s (mkTime 2 17 1 0) 2 (mkAddr 2001 Issi)
               (debt_new Req2Slots) None;
   '(grant, _, cap) ← r;
   let holder j := ul_get_slot_owner s' (opportunity (mkTime 2 17 1 0) j) BlkBoth in
   Some (granting_delay grant, cap, holder 2, holder 3, holder 4, is_mandatory_clch (opportunity (mkTime 2 17 1 0) 1)))
  = Some (DelayNOpportunities 2, 2, Some (Some 2002%Z), Some (Some 2001%Z), Some (Some 2001%Z), true).
Proof. vm_compute. reflexivity. Qed.
