(* ===== verification/LlcPdus.v ===== *)
(** * Basic link PDUs of the LLC (crates/tetra-pdus/src/llc)

    The LLC PDU types and the headers of BL-ACK, BL-ADATA, BL-DATA and BL-UDATA, which the
    upper MAC of the base station looks into. *)

From Stdlib Require Import ZArith Lia ZifyNat.
From stdpp Require Import strings.
From S2P Require Import Prelude.
From S2P Require Import BitBuffer.
From S2P Require Import BitBufferFacts.
From S2P Require Import Codec.
From S2P Require Import MacFields.
From S2P Require Import Robust.

Inductive LlcPduType :=
  | BlAdataType | BlDataType | BlUdataType | BlAckType | BlAdataFcs | BlDataFcs | BlUdataFcs | BlAckFcs
  | AlSetup | AlDataAlFinal | AlAlUdataAlUfinal | AlAckAlRnr | AlReconnect | SuppLlcPdu | L2SigPdu | AlDisc.

Definition LlcPduType_into_raw (x : LlcPduType) : Z :=
  match x with
  | BlAdataType => 0 | BlDataType => 1 | BlUdataType => 2 | BlAckType => 3 | BlAdataFcs => 4
  | BlDataFcs => 5 | BlUdataFcs => 6 | BlAckFcs => 7 | AlSetup => 8 | AlDataAlFinal => 9
  | AlAlUdataAlUfinal => 10 | AlAckAlRnr => 11 | AlReconnect => 12 | SuppLlcPdu => 13
  | L2SigPdu => 14 | AlDisc => 15
  end.
Definition LlcPduType_try_from (x : Z) : option LlcPduType :=
  match x with
  | 0 => Some BlAdataType | 1 => Some BlDataType | 2 => Some BlUdataType | 3 => Some BlAckType
  | 4 => Some BlAdataFcs | 5 => Some BlDataFcs | 6 => Some BlUdataFcs | 7 => Some BlAckFcs
  | 8 => Some AlSetup | 9 => Some AlDataAlFinal | 10 => Some AlAlUdataAlUfinal
  | 11 => Some AlAckAlRnr | 12 => Some AlReconnect | 13 => Some SuppLlcPdu | 14 => Some L2SigPdu
  | 15 => Some AlDisc | _ => None
  end%Z.
#[export] Program Instance LlcPduType_wire : WireEnum LlcPduType :=
  {| enum_width := 4; into_raw := LlcPduType_into_raw; try_from := LlcPduType_try_from |}.
Solve Obligations with wire_enum.

Record BlAck := mkBlAck { ba_has_fcs : bool; ba_nr : Z }.
Record BlAdata := mkBlAdata { bd_has_fcs : bool; bd_nr : Z; bd_ns : Z }.
Record BlData := mkBlData { bt_has_fcs : bool; bt_ns : Z }.
Record BlUdata := mkBlUdata { bu_has_fcs : bool }.

(** The four header bits the basic link PDUs share. *)
Definition read_bl_type (bl_pdu_type : Z) : M bool :=
  expect_field 1 "llc_link_type" 0;;
  has_fcs ← read_flag "has_fcs";
  expect_field 2 "bl_pdu_type" bl_pdu_type;;
  mret has_fcs.
Definition write_bl_type (has_fcs : bool) (bl_pdu_type : Z) : M unit :=
  write_bits 0 1;; write_bits (b2z has_fcs) 1;; write_bits bl_pdu_type 2.

Definition BlAck_from_bitbuf : M BlAck :=
  has_fcs ← read_bl_type 3; nr ← read_u8 1 "nr"; mret (mkBlAck has_fcs nr).
Definition BlAck_to_bitbuf (self : BlAck) : M unit :=
  write_bl_type (ba_has_fcs self) 3;; write_bits (ba_nr self) 1.

Definition BlAdata_from_bitbuf : M BlAdata :=
  has_fcs ← read_bl_type 0; nr ← read_u8 1 "nr"; ns ← read_u8 1 "ns"; mret (mkBlAdata has_fcs nr ns).
Definition BlAdata_to_bitbuf (self : BlAdata) : M unit :=
  write_bl_type (bd_has_fcs self) 0;; write_bits (bd_nr self) 1;; write_bits (bd_ns self) 1.

Definition BlData_from_bitbuf : M BlData :=
  has_fcs ← read_bl_type 1; ns ← read_u8 1 "ns"; mret (mkBlData has_fcs ns).
Definition BlData_to_bitbuf (self : BlData) : M unit :=
  write_bl_type (bt_has_fcs self) 1;; write_bits (bt_ns self) 1.

Definition BlUdata_from_bitbuf : M BlUdata := has_fcs ← read_bl_type 2; mret (mkBlUdata has_fcs).
Definition BlUdata_to_bitbuf (self : BlUdata) : M unit := write_bl_type (bu_has_fcs self) 2.

(** ** Facts *)

Definition bl_img (has_fcs : bool) (ty : Z) (fields : list (list bool)) : list bool :=
  concat (val_bits 1 0 :: img_bool has_fcs :: val_bits 2 ty :: fields).

Lemma write_bl_type_emits has_fcs ty :
  (0 <= ty < 4)%Z -> emits (write_bl_type has_fcs ty) tt (bl_img has_fcs ty []).
Proof. intros H. unfold write_bl_type, bl_img. emit. Qed.

Lemma read_bl_type_parses has_fcs ty rest :
  (0 <= ty < 4)%Z -> parses (read_bl_type ty) (bl_img has_fcs ty []) rest has_fcs.
Proof. intros H. unfold read_bl_type, bl_img. parse. Qed.

Lemma bl_ack_emits a : (0 <= ba_nr a < 2)%Z -> emits (BlAck_to_bitbuf a) tt (bl_img (ba_has_fcs a) 3 [] ++ val_bits 1 (ba_nr a)).
Proof.
  intros H. unfold BlAck_to_bitbuf. eapply emits_bind_tt; [by apply write_bl_type_emits|].
  apply write_bits_emits; [cbn; lia|lia].
Qed.

Lemma robust_bl_type ty : robust (read_bl_type ty).
Proof. unfold read_bl_type. robust. Qed.

Lemma robust_bl_ack : robust BlAck_from_bitbuf.
Proof. unfold BlAck_from_bitbuf. apply robust_bind; [apply robust_bl_type|intros ?]. robust. Qed.

Lemma robust_bl_adata : robust BlAdata_from_bitbuf.
Proof. unfold BlAdata_from_bitbuf. apply robust_bind; [apply robust_bl_type|intros ?]. robust. Qed.
