(* ===== verification/UmacBs.v ===== *)
(** * The uplink receive path of the base station (crates/tetra-entities/src/umac/umac_bs.rs)

    A MAC block received on the uplink is taken apart PDU by PDU: MAC-ACCESS and MAC-END-HU
    on half slots, MAC-DATA, MAC-FRAG, MAC-END, MAC-U-BLCK and MAC-U-SIGNAL on full and
    stolen slots.  SDUs go to the LLC, fragments into the defragmenter, requests for
    capacity to the scheduler.  Handlers return [None] for a panic.  What they do to parts
    outside this file (queues of the scheduler, energy saving records, message queues) is
    recorded as a list of effects, in order.  Log output is left out. *)

From Stdlib Require Import ZArith Lia ZifyNat.
From stdpp Require Import gmap strings.
From S2P Require Import Prelude.
From S2P Require Import BitBuffer.
From S2P Require Import BitBufferFacts.
From S2P Require Import ErrorControl.
From S2P Require Import Tdma.
From S2P Require Import TimeslotAlloc.
From S2P Require Import Codec.
From S2P Require Import MacFields.
From S2P Require Import MacPdus.
From S2P Require Import Fillbits.
From S2P Require Import Defrag.
From S2P Require Import Frag.
From S2P Require Import UplinkPdus.
From S2P Require Import Robust.
From S2P Require Import UmacMs.
From S2P Require Import Circuits.
From S2P Require Import UlSched.
From S2P Require Import LlcPdus.

(** ** MAC-U-SIGNAL *)

Record MacUSignal := mkUSignal { second_half_stolen : bool }.

Definition MacUSignal_from_bitbuf : M MacUSignal :=
  expect_field 2 "mac_pdu_type" 3;;
  second_half_stolen ← read_flag "second_half_stolen";
  mret (mkUSignal second_half_stolen).
Definition MacUSignal_to_bitbuf (self : MacUSignal) : M unit :=
  write_bits 3 2;; write_bits (b2z (second_half_stolen self)) 1.

(** ** State and effects *)

(** Of the fields of [UmacBs] those the receive path uses; an SNDCP link context is its
    endpoint. *)
Record UmacBs := mkUmacBs {
  b_dltime : TdmaTime;
  b_defrag : BsDefrag;
  channel_scheduler : BsChannelScheduler;
  current_ul_speaker : list (option TetraAddress);
  packet_data_link_contexts : gmap TetraAddress Z
}.

Definition with_b_defrag (self : UmacBs) (d : BsDefrag) : UmacBs :=
  mkUmacBs (b_dltime self) d (channel_scheduler self) (current_ul_speaker self)
    (packet_data_link_contexts self).

Inductive PendingGrantOrigin := CommonControl | PacketDataOrigin (assigned_ts : Z).

Inductive BsEffect :=
  (** TMA-UNITDATA indication to the LLC *)
  | LlcInd (pdu : BitBuffer) (main_address : TetraAddress) (scrambling_code endpoint_id : Z)
      (air_interface_encryption : bool)
  (** TMV-CONFIGURE: the second half slot is stolen *)
  | Blk2Stolen (time : TdmaTime)
  | MsRssiUpdate (issi rssi : Z)
  (** [mark_awake_from_signalling_activity] *)
  | MarkAwake (issi : Z) (time : TdmaTime)
  (** [dl_enqueue_random_access_ack] and the two reservation grants of the scheduler *)
  | EnqueueRandomAccessAck (ts : Z) (addr : TetraAddress)
  | EnqueueReservationGrant (ts : Z) (addr : TetraAddress) (res_req : ReservationRequirement)
      (origin : PendingGrantOrigin).

(** TMV-UNITDATA indication; [None] for an RSSI that is not finite. *)
Record TmvInd := mkInd { n_prim : TmvUnitdataInd; n_rssi : option Z }.

Abbreviation received := (option (UmacBs * list BsEffect * BitBuffer)).

(** A parser's result; on an error the handler returns. *)
Definition parsing {A} (m : M A) (b : BitBuffer) (self : UmacBs) (k : A -> BitBuffer -> received) : received :=
  match m b with
  | Ok x b' => k x b'
  | Err _ b' => Some (self, [], b')
  | Panic => None
  end.

(** ** Who is sending *)

Record UplinkContext := mkContext {
  x_addr : TetraAddress;
  x_endpoint_id : Z;
  x_packet_data_assigned_ts : option Z
}.

Definition issi (ssi : Z) : TetraAddress := mkAddr ssi Issi.

(** Uplink messages were sent two timeslots ago. *)
Definition msg_dltime (self : UmacBs) : TdmaTime := add_timeslots (b_dltime self) (-2).

Definition mark_ms_signalling_activity (addr : TetraAddress) (time : TdmaTime) : list BsEffect :=
  if bool_decide (ssi_type addr = Issi) then [MarkAwake (ssi addr) time] else [].

Definition packet_data_uplink_owner (self : BsChannelScheduler) (ts : TdmaTime) (slot : PhyBlockNum)
  : option (option TetraAddress) :=
  if negb (bool_decide (slot = BlkBoth)) then Some None
  else
    assignment ← packet_data_assignment_for_timeslot_with_allocator self ts None;
    Some (a ← assignment; if packet_data_assignment_supports_uplink a then Some (pd_addr a) else None).

Definition packet_data_active_uplink_slot_for_addr (self : BsChannelScheduler) (addr : TetraAddress)
  : option (option Z) :=
  slots ← packet_data_active_uplink_slots_for_addr_with_allocator self addr None; Some (head slots).

Definition packet_data_context_endpoint_id (self : UmacBs) (addr : TetraAddress) : Z :=
  default 0%Z (packet_data_link_contexts self !! addr).

Definition scheduled_or_packet_data_uplink_context (self : UmacBs) (time : TdmaTime)
  (block_num : PhyBlockNum) : option (option UplinkContext) :=
  scheduled ← ul_get_slot_owner (channel_scheduler self) time block_num;
  match scheduled with
  | Some ssi => Some (Some (mkContext (issi ssi) 0 None))
  | None =>
      owner ← packet_data_uplink_owner (channel_scheduler self) time block_num;
      Some (addr ← owner;
            Some (mkContext addr (packet_data_context_endpoint_id self addr) (Some (t time))))
  end.

Definition packet_data_uplink_assigned_ts_for_addr (self : UmacBs) (addr : TetraAddress)
  (time : TdmaTime) (block_num : PhyBlockNum) : option (option Z) :=
  owner ← packet_data_uplink_owner (channel_scheduler self) time block_num;
  Some (match owner with
        | Some o => if bool_decide (o = addr) then Some (t time) else None
        | None => None
        end).

Definition enqueue_reservation_grant_for_uplink_context (context : UplinkContext) (fallback_ts : Z)
  (res_req : ReservationRequirement) : BsEffect :=
  match x_packet_data_assigned_ts context with
  | Some assigned_ts => EnqueueReservationGrant assigned_ts (x_addr context) res_req (PacketDataOrigin assigned_ts)
  | None => EnqueueReservationGrant fallback_ts (x_addr context) res_req CommonControl
  end.

Definition enqueue_reservation_grant_for_addr (self : UmacBs) (addr : TetraAddress) (time : TdmaTime)
  (block_num : PhyBlockNum) (res_req : ReservationRequirement) (allow_active_pdch_redirect : bool)
  : option BsEffect :=
  assigned ← packet_data_uplink_assigned_ts_for_addr self addr time block_num;
  assigned ← (match assigned with
              | Some ts => Some (Some ts)
              | None => if allow_active_pdch_redirect
                        then packet_data_active_uplink_slot_for_addr (channel_scheduler self) addr
                        else Some None
              end);
  Some (match assigned with
        | Some assigned_ts => EnqueueReservationGrant assigned_ts addr res_req (PacketDataOrigin assigned_ts)
        | None => EnqueueReservationGrant (t time) addr res_req CommonControl
        end).

(** ** Looking into the SDU *)

(** [sdu.peek_bits(4).and_then(|bits| LlcPduType::try_from(bits).ok())] *)
Definition llc_type (sdu : BitBuffer) : option (option LlcPduType) :=
  bits ← peek_bits sdu 4; Some (bits ≫= LlcPduType_try_from).

Definition llc_sdu_is_original_advanced_link (sdu : BitBuffer) : option bool :=
  ty ← llc_type sdu;
  Some (match ty with
        | Some AlSetup | Some AlDataAlFinal | Some AlAckAlRnr | Some AlReconnect | Some AlDisc => true
        | _ => false
        end).

Definition packet_data_advanced_link_endpoint_id (self : UmacBs) (addr : TetraAddress)
  (sdu : BitBuffer) : option Z :=
  if negb (bool_decide (ssi_type addr = Issi)) then Some 0%Z
  else
    advanced_link ← llc_sdu_is_original_advanced_link sdu;
    Some (if advanced_link : bool then packet_data_context_endpoint_id self addr else 0%Z).

Definition packet_data_mac_data_endpoint_id (self : UmacBs) (addr : TetraAddress) (time : TdmaTime)
  (block_num : PhyBlockNum) (sdu : BitBuffer) : option Z :=
  owner ← packet_data_uplink_owner (channel_scheduler self) time block_num;
  if bool_decide (owner = Some addr) then Some (packet_data_context_endpoint_id self addr)
  else packet_data_advanced_link_endpoint_id self addr sdu.

(** ** MAC-ACCESS and MAC-DATA *)

(** The SDU part: empty ones are not passed on. *)
Definition sdu_of (pdu : BitBuffer) : option (option BitBuffer) :=
  if get_len_remaining pdu =? 0 then Some None else sdu ← from_bitbuffer_pos pdu; Some (Some sdu).

Definition access_len (p : MacAccess) (block_len : nat) : nat :=
  let pdu_len_bits :=
    match ac_length_ind p with
    | Some length_ind =>
        if (length_ind =? 0)%Z then (match ac_event_label p with Some _ => 22 | None => 36 end)
        else Z.to_nat length_ind * 8
    | None => block_len
    end in
  if block_len <? pdu_len_bits then block_len else pdu_len_bits.

Definition rx_mac_access (self : UmacBs) (ind : TmvInd) (pdu : BitBuffer) : received :=
  let prim := n_prim ind in
  _ ← assert_ (get_pos pdu =? 0);
  parsing MacAccess_from_bitbuf pdu self (fun p pdu =>
  match ac_event_label p, ac_addr p with
  | Some _, _ | None, None => Some (self, [], pdu)
  | None, Some addr =>
      let pdu_len_bits := access_len p (get_len pdu) in
      num_fill_bits ← num_fill (ac_fill_bits p) pdu pdu_len_bits;
      pdu_len_bits ← usub pdu_len_bits num_fill_bits;
      let orig_end := end_ pdu in
      pdu ← cut pdu pdu_len_bits;
      if MacAccess_is_null_pdu p then Some (self, [], pdu) else
      let time := msg_dltime self in
      let fx := mark_ms_signalling_activity addr time ++ [EnqueueRandomAccessAck (t time) addr]
                ++ (match n_rssi ind with Some rssi => [MsRssiUpdate (ssi addr) rssi] | None => [] end) in
      if ac_encrypted p then Some (self, fx, pdu) else
      grant ← (match ac_reservation_req p with
               | Some res_req =>
                   g ← enqueue_reservation_grant_for_addr self addr time (i_block_num prim) res_req
                         (negb (MacAccess_is_frag_start p));
                   Some [g]
               | None => Some []
               end);
      let fx := fx ++ grant in
      if MacAccess_is_frag_start p then
        '(d, pdu) ← insert_first (b_defrag self) pdu time addr None;
        pdu ← next_pdu pdu orig_end (pdu_len_bits + num_fill_bits);
        Some (with_b_defrag self d, fx, pdu)
      else
        '(_, d) ← discard_incomplete_for_addr (b_defrag self) time addr;
        let self := with_b_defrag self d in
        sdu ← sdu_of pdu;
        match sdu with
        | None => Some (self, fx, pdu)
        | Some sdu =>
            endpoint_id ← packet_data_advanced_link_endpoint_id self addr sdu;
            pdu ← next_pdu pdu orig_end (pdu_len_bits + num_fill_bits);
            Some (self, fx ++ [LlcInd sdu addr (i_scrambling_code prim) endpoint_id (ac_encrypted p)], pdu)
        end
  end).

(** Length, start of fragmentation, second half stolen, null PDU. *)
Definition data_len (p : MacData) (block_len : nat) : option (nat * bool * bool * bool) :=
  match md_length_ind p with
  | Some len_ind =>
      if (len_ind =? 0)%Z then Some (match md_event_label p with Some _ => 23 | None => 37 end, false, false, true)
      else if ((2 <=? len_ind) && (len_ind <? 0x38))%Z then Some (Z.to_nat len_ind * 8, false, false, false)
      else if (len_ind =? 0x3e)%Z then Some (block_len, false, true, false)
      else if (len_ind =? 0x3f)%Z then Some (block_len, true, false, false)
      else None
  | None => Some (block_len, default false (md_frag_flag p), false, false)
  end.

Definition rx_mac_data (self : UmacBs) (ind : TmvInd) (pdu : BitBuffer) : received :=
  let prim := n_prim ind in
  _ ← assert_ (get_pos pdu =? 0);
  parsing MacData_from_bitbuf pdu self (fun p pdu =>
  match md_event_label p, md_addr p with
  | Some _, _ | None, None => Some (self, [], pdu)
  | None, Some addr =>
      match data_len p (get_len pdu) with
      | None => Some (self, [], pdu)
      | Some (pdu_len_bits, is_frag_start, stolen, is_null_pdu) =>
          let time := msg_dltime self in
          let fx := if stolen : bool then [Blk2Stolen time] else [] in
          let pdu_len_bits := if get_len pdu <? pdu_len_bits then get_len pdu else pdu_len_bits in
          num_fill_bits ← num_fill (md_fill_bits p) pdu pdu_len_bits;
          pdu_len_bits ← usub pdu_len_bits num_fill_bits;
          let orig_end := end_ pdu in
          pdu ← cut pdu pdu_len_bits;
          if is_null_pdu : bool then Some (self, fx, pdu) else
          if md_encrypted p then Some (self, fx, pdu) else
          let fx := fx ++ mark_ms_signalling_activity addr time in
          grant ← (match md_reservation_req p with
                   | Some res_req =>
                       g ← enqueue_reservation_grant_for_addr self addr time (i_block_num prim) res_req true;
                       Some [g]
                   | None => Some []
                   end);
          let fx := fx ++ grant in
          '(self, fx, pdu) ←
            (if is_frag_start : bool then
               '(d, pdu) ← insert_first (b_defrag self) pdu time addr None;
               Some (with_b_defrag self d, fx, pdu)
             else
               '(_, d) ← discard_incomplete_for_addr (b_defrag self) time addr;
               let self := with_b_defrag self d in
               sdu ← sdu_of pdu;
               match sdu with
               | None => Some (self, fx, pdu)
               | Some sdu =>
                   endpoint_id ← packet_data_mac_data_endpoint_id self addr time (i_block_num prim) sdu;
                   Some (self, fx ++ [LlcInd sdu addr (i_scrambling_code prim) endpoint_id (md_encrypted p)], pdu)
               end);
          pdu ← next_pdu pdu orig_end (pdu_len_bits + num_fill_bits);
          Some (self, fx, pdu)
      end
  end).

(** ** MAC-FRAG and MAC-END *)

Definition rx_mac_frag_ul (self : UmacBs) (ind : TmvInd) (pdu : BitBuffer) : received :=
  let prim := n_prim ind in
  _ ← assert_ (get_pos pdu =? 0);
  parsing MacFragUl_from_bitbuf pdu self (fun p pdu =>
  let pdu_len_bits := get_len pdu in
  num_fill_bits ← num_fill (fu_fill_bits p) pdu pdu_len_bits;
  pdu_len_bits ← usub pdu_len_bits num_fill_bits;
  pdu ← cut pdu pdu_len_bits;
  let time := msg_dltime self in
  context ← scheduled_or_packet_data_uplink_context self time (i_block_num prim);
  match context with
  | None => Some (self, [], pdu)
  | Some context =>
      let addr := x_addr context in
      let fx := mark_ms_signalling_activity addr time in
      aie ← get_aie_info (b_defrag self) addr time;
      match aie with
      | Some _ => Some (self, fx, pdu)
      | None =>
          '(d, pdu) ← insert_next (b_defrag self) pdu addr time;
          Some (with_b_defrag self d, fx, pdu)
      end
  end).

(** What MAC-END and MAC-END-HU share once the header is read and the length known: the
    last fragment completes the message of the owner of the slot. *)
Definition rx_last (self : UmacBs) (prim : TmvUnitdataInd) (pdu : BitBuffer) (pdu_len_bits : nat)
  (fill_bits : bool) (context_of : option (option UplinkContext))
  (grant : UplinkContext -> TetraAddress -> list BsEffect) : received :=
  num_fill_bits ← num_fill fill_bits pdu pdu_len_bits;
  pdu_len_bits ← usub pdu_len_bits num_fill_bits;
  let orig_end := end_ pdu in
  pdu ← cut pdu pdu_len_bits;
  let time := msg_dltime self in
  context ← context_of;
  match context with
  | None => Some (self, [], pdu)
  | Some context =>
      let addr := x_addr context in
      let fx := mark_ms_signalling_activity addr time in
      aie ← get_aie_info (b_defrag self) addr time;
      match aie with
      | Some _ => Some (self, fx, pdu)
      | None =>
          '(defragbuf, d, pdu) ← insert_last (b_defrag self) pdu addr time;
          let self := with_b_defrag self d in
          match defragbuf with
          | None => Some (self, fx, pdu)
          | Some defragbuf =>
              let fx := fx ++ mark_ms_signalling_activity (d_addr defragbuf) time
                        ++ grant context (d_addr defragbuf)
                        ++ [LlcInd (d_buffer defragbuf) (d_addr defragbuf) (i_scrambling_code prim)
                              (x_endpoint_id context) false] in
              pdu ← next_pdu pdu orig_end (pdu_len_bits + num_fill_bits);
              Some (self, fx, pdu)
          end
      end
  end.

Definition rx_mac_end_ul (self : UmacBs) (ind : TmvInd) (pdu : BitBuffer) : received :=
  let prim := n_prim ind in
  _ ← assert_ (get_pos pdu =? 0);
  parsing MacEndUl_from_bitbuf pdu self (fun p pdu =>
  let pdu_len_bits := match eu_length_ind p with Some len => Z.to_nat len * 8 | None => get_len pdu end in
  let pdu_len_bits := if get_len pdu <? pdu_len_bits then get_len pdu else pdu_len_bits in
  let time := msg_dltime self in
  rx_last self prim pdu pdu_len_bits (eu_fill_bits p)
    (scheduled_or_packet_data_uplink_context self time (i_block_num prim))
    (fun context addr =>
       match eu_reservation_req p with
       | Some res_req =>
           [enqueue_reservation_grant_for_uplink_context
              (mkContext addr (x_endpoint_id context)
                 (if bool_decide (addr = x_addr context) then x_packet_data_assigned_ts context else None))
              (t time) res_req]
       | None => []
       end)).

Definition rx_mac_end_hu (self : UmacBs) (ind : TmvInd) (pdu : BitBuffer) : received :=
  let prim := n_prim ind in
  _ ← assert_ (get_pos pdu =? 0);
  parsing MacEndHu_from_bitbuf pdu self (fun p pdu =>
  if bool_decide (eh_length_ind p = Some 0%Z) then Some (self, [], pdu) else
  let pdu_len_bits := match eh_length_ind p with Some len => Z.to_nat len * 8 | None => get_len pdu end in
  let pdu_len_bits := if get_len pdu <? pdu_len_bits then get_len pdu else pdu_len_bits in
  let time := msg_dltime self in
  rx_last self prim pdu pdu_len_bits (eh_fill_bits p)
    (slot_owner ← ul_get_slot_owner (channel_scheduler self) time (i_block_num prim);
     Some (o ← slot_owner; Some (mkContext (issi o) 0 None)))
    (fun _ addr =>
       match eh_reservation_req p with
       | Some res_req => [EnqueueReservationGrant (t time) addr res_req CommonControl]
       | None => []
       end)).

(** ** MAC-U-BLCK *)

Definition enqueue_mac_u_blck_reservation (self : UmacBs) (time : TdmaTime) (block_num : PhyBlockNum)
  (res_req : ReservationRequirement) : option (list BsEffect) :=
  context ← scheduled_or_packet_data_uplink_context self time block_num;
  Some (match context with
        | None => []
        | Some context => mark_ms_signalling_activity (x_addr context) time
            ++ [enqueue_reservation_grant_for_uplink_context context (t time) res_req]
        end).

Definition rx_ul_mac_u_blck (self : UmacBs) (ind : TmvInd) (pdu : BitBuffer) : received :=
  let prim := n_prim ind in
  parsing MacUBlck_from_bitbuf pdu self (fun p pdu =>
  if (ub_event_label p =? 0)%Z || (ub_event_label p =? 0x3ff)%Z then Some (self, [], pdu) else
  let time := msg_dltime self in
  context ← scheduled_or_packet_data_uplink_context self time (i_block_num prim);
  '(self, fx) ←
    (match context with
     | Some context =>
         '(_, d) ← discard_incomplete_for_addr (b_defrag self) time (x_addr context);
         Some (with_b_defrag self d, mark_ms_signalling_activity (x_addr context) time)
     | None => Some (self, [])
     end);
  reservation ← (match MacUBlck_reservation_requirement p with
                 | Some res_req => enqueue_mac_u_blck_reservation self time (i_block_num prim) res_req
                 | None => Some []
                 end);
  let fx := fx ++ reservation in
  if ub_encrypted p then Some (self, fx, pdu) else
  match context with
  | None => Some (self, fx, pdu)
  | Some context =>
      let pdu_len_bits := get_len pdu in
      num_fill_bits ← num_fill (ub_fill_bits p) pdu pdu_len_bits;
      pdu_len_bits ← usub pdu_len_bits num_fill_bits;
      let orig_end := end_ pdu in
      pdu ← cut pdu pdu_len_bits;
      fx ← (if get_len_remaining pdu =? 0 then Some fx
            else
              sdu ← from_bitbuffer_pos pdu;
              Some (fx ++ [LlcInd sdu (x_addr context) (i_scrambling_code prim) (x_endpoint_id context)
                             (ub_encrypted p)]));
      '(_, pdu) ← run (set_raw_end orig_end) pdu;
      Some (self, fx, pdu)
  end).

(** ** MAC-U-SIGNAL *)

Definition current_ul_signal_addr (self : UmacBs) (ts : Z) : option (option TetraAddress) :=
  if negb (ts_ok ts) then Some None else current_ul_speaker self !! at_ts ts.

(** The uplink circuit of a timeslot, as [ul_circuit_is_private_participant_scoped],
    [ul_circuit_peer_ts] and [ul_circuit_issi_participants] look at it. *)
Definition ul_circuit (self : BsChannelScheduler) (ts : Z) : option Circuit :=
  if negb (ts_ok ts) then None else ul (circuits self) !!! at_ts ts.
Definition ul_circuit_is_private_participant_scoped (self : BsChannelScheduler) (ts : Z) : bool :=
  match ul_circuit self ts with Some c => is_primary_issi_scoped c | None => false end.
Definition ul_circuit_peer_ts (self : BsChannelScheduler) (ts : Z) : option Z :=
  ul_circuit self ts ≫= c_peer_ts.
Definition ul_circuit_issi_participants (self : BsChannelScheduler) (ts : Z) : list TetraAddress :=
  match ul_circuit self ts with
  | Some c => List.filter (fun a => bool_decide (ssi_type a = Issi)) (active_addresses c)
  | None => []
  end.

Definition private_simplex_waiting_for_floor_grant (self : UmacBs) (ts : Z) : option bool :=
  speaker ← current_ul_signal_addr self ts;
  Some (ul_circuit_is_private_participant_scoped (channel_scheduler self) ts
        && bool_decide (ul_circuit_peer_ts (channel_scheduler self) ts = None)
        && bool_decide (speaker = None)).

Definition llc_sdu_is_ack_response (sdu : BitBuffer) : option bool :=
  probe ← from_bitbuffer sdu;
  ty ← llc_type probe;
  Some (match ty with Some BlAckType | Some BlAckFcs | Some BlAdataType | Some BlAdataFcs => true | _ => false end).

(** A parser used with [.ok()?]. *)
Definition ok_of {A} (m : M A) (b : BitBuffer) : option (option A) :=
  match m b with Ok x _ => Some (Some x) | Err _ _ => Some None | Panic => None end.

Definition ack_only (nr : Z) : option BitBuffer :=
  '(_, ack_sdu) ← run (BlAck_to_bitbuf (mkBlAck false nr)) (new_autoexpand 8);
  '(_, ack_sdu) ← run (seek 0) ack_sdu;
  Some ack_sdu.

Definition pre_floor_private_ack_only_sdu (sdu : BitBuffer) : option (option BitBuffer) :=
  probe ← from_bitbuffer sdu;
  ty ← llc_type probe;
  match ty with
  | Some BlAckType | Some BlAckFcs =>
      ack ← ok_of BlAck_from_bitbuf probe;
      match ack with Some ack => b ← ack_only (ba_nr ack); Some (Some b) | None => Some None end
  | Some BlAdataType | Some BlAdataFcs =>
      ack ← ok_of BlAdata_from_bitbuf probe;
      match ack with Some ack => b ← ack_only (bd_nr ack); Some (Some b) | None => Some None end
  | _ => Some None
  end.

Definition pre_floor_private_ack_routing (self : UmacBs) (ts : Z) (sdu : BitBuffer)
  : option (option (list TetraAddress * BitBuffer)) :=
  waiting ← private_simplex_waiting_for_floor_grant self ts;
  if negb waiting then Some None else
  is_ack ← llc_sdu_is_ack_response sdu;
  if negb is_ack then Some None else
  let participants := ul_circuit_issi_participants (channel_scheduler self) ts in
  if length participants =? 0 then Some None else
  ack_sdu ← pre_floor_private_ack_only_sdu sdu;
  Some (b ← ack_sdu; Some (participants, b)).

Definition rx_ul_mac_u_signal (self : UmacBs) (ind : TmvInd) (pdu : BitBuffer) : received :=
  let prim := n_prim ind in
  parsing MacUSignal_from_bitbuf pdu self (fun p pdu =>
  let time := msg_dltime self in
  let fx := if second_half_stolen p then [Blk2Stolen time] else [] in
  if get_len_remaining pdu =? 0 then Some (self, fx, pdu) else
  sdu ← from_bitbuffer_pos pdu;
  speaker ← current_ul_signal_addr self (t time);
  '(main_addresses, routed_sdu) ←
    (match speaker with
     | Some addr => Some ([addr], sdu)
     | None =>
         routing ← pre_floor_private_ack_routing self (t time) sdu;
         Some (match routing with Some r => r | None => ([], sdu) end)
     end);
  Some (self, fx ++ ((fun addr => LlcInd routed_sdu addr (i_scrambling_code prim) 0 false) <$> main_addresses), pdu)).

(** ** The loop over a block *)

(** One iteration; [None] inside the result ends the loop without a PDU being handled. *)
Definition rx_ul_pdu (self : UmacBs) (ind : TmvInd) (pdu : BitBuffer)
  : option (option (UmacBs * list BsEffect * BitBuffer)) :=
  let lchan := i_logical_channel (n_prim ind) in
  peeked ← peek_bits pdu 3;
  match peeked with
  | None => Some None
  | Some bits =>
      if bool_decide (lchan = SchF) || bool_decide (lchan = Stch) then
        match MacPduType_try_from (Z.shiftr bits 1) with
        | None => Some None
        | Some MacResourceMacData => Some <$> rx_mac_data self ind pdu
        | Some MacFragMacEnd =>
            if (Z.land bits 1 =? 0)%Z then Some <$> rx_mac_frag_ul self ind pdu
            else Some <$> rx_mac_end_ul self ind pdu
        | Some SuppMacUSignal =>
            if bool_decide (lchan = Stch) then Some <$> rx_ul_mac_u_signal self ind pdu
            else if (Z.land bits 1 =? 0)%Z then Some <$> rx_ul_mac_u_blck self ind pdu
            else Some (Some (self, [], pdu))
        | Some Broadcast => Some (Some (self, [], pdu))
        end
      else if bool_decide (lchan = SchHu) then
        if (Z.land (Z.shiftr bits 2) 1 =? 0)%Z then Some <$> rx_mac_access self ind pdu
        else Some <$> rx_mac_end_hu self ind pdu
      else Some (Some (self, [], pdu))
  end.

(** The outer [option] is a panic, the inner one the fuel running out. *)
Fixpoint rx_ul_loop (fuel : nat) (self : UmacBs) (ind : TmvInd) (pdu : BitBuffer)
  : option (option (UmacBs * list BsEffect)) :=
  match fuel with
  | 0 => Some None
  | S fuel =>
      step ← rx_ul_pdu self ind pdu;
      match step with
      | None => Some (Some (self, []))
      | Some (self, fx, pdu') =>
          if negb (start pdu' =? start pdu) && (16 <=? get_len pdu') then
            rest ← rx_ul_loop fuel self ind pdu';
            Some (match rest with Some (self, more) => Some (self, fx ++ more) | None => None end)
          else Some (Some (self, fx))
      end
  end.

Definition rx_ul_sch (self : UmacBs) (ind : TmvInd) : option (option (UmacBs * list BsEffect)) :=
  let pdu := i_pdu (n_prim ind) in rx_ul_loop (S (get_len pdu)) self ind pdu.

Definition rx_ul_unitdata_ind (self : UmacBs) (ind : TmvInd) : option (option (UmacBs * list BsEffect)) :=
  let prim := n_prim ind in
  match i_logical_channel prim with
  | SchF =>
      if negb (bool_decide (i_block_num prim = BlkBoth)) then Some (Some (self, [])) else rx_ul_sch self ind
  | Stch | SchHu =>
      if negb (bool_decide (i_block_num prim = Block1) || bool_decide (i_block_num prim = Block2))
      then Some (Some (self, [])) else rx_ul_sch self ind
  | _ => Some (Some (self, []))
  end.

(** ** Facts: the defragmenter and the window *)

(** The defragmenter is in a state the contract of Defrag.v describes. *)
Definition bs_ok (self : UmacBs) : Prop := exists a, sim (b_defrag self) a.

Lemma msg_dltime_valid self : Tdma.valid (msg_dltime self) /\ (1 <= t (msg_dltime self) <= 4)%Z.
Proof.
  assert (V : Tdma.valid (msg_dltime self)) by apply from_int_valid.
  split; [done|]. apply Tdma.valid_bounds in V. lia.
Qed.

(** What is inserted is taken from the received block, which is otherwise left alone. *)
Lemma insert_first_total self pdu addr aie :
  bs_ok self -> wf pdu ->
  exists d b, insert_first (b_defrag self) pdu (msg_dltime self) addr aie = Some (d, b) /\
    (exists a, sim d a) /\ advanced pdu b.
Proof.
  intros [a S] W. destruct (msg_dltime_valid self) as [_ Ht].
  destruct (insert_first_sim _ _ pdu addr _ aie S W Ht) as (d & b & E & S').
  exists d, b. split; [done|]. split; [by eexists|].
  unfold insert_first in E. destruct (sim_slot _ _ _ S Ht) as [map Hm]. rewrite Hm, bind_Some in E. cbv beta zeta in E.
  replace (d_buffer (match map !! addr with Some buf => DefragBuffer_reset buf | None => DefragBuffer_new end))
    with (new_autoexpand DEFRAG_BUF_INITIAL_LEN) in E by (by destruct (map !! addr)).
  destruct (copy_remaining_collects _ pdu [] (collects_new DEFRAG_BUF_INITIAL_LEN) W) as (b0 & Ec & _).
  rewrite Ec, bind_Some in E. injection E as _ <-. by apply advanced_taken.
Qed.

Lemma insert_next_advanced d a pdu addr time d' b :
  sim d a -> wf pdu -> (1 <= t time <= 4)%Z -> insert_next d pdu addr time = Some (d', b) -> advanced pdu b.
Proof.
  intros S W Ht. unfold insert_next. destruct (sim_slot _ _ _ S Ht) as [map Hm]. rewrite Hm, bind_Some. cbv beta zeta.
  pose proof (sim_lookup _ _ _ _ addr S Hm) as Hl. pose proof (advanced_refl pdu W) as R.
  destruct (map !! addr) as [buf|]; [|intros E; by injection E as _ <-]. destruct Hl as [_ Hok].
  case_bool_decide as Ha; cbn [negb]; [|intros E; by injection E as _ <-].
  destruct (_ <? _); [intros E; by injection E as _ <-|].
  destruct Hok as [Hi|[_ C]]; [congruence|].
  destruct (copy_remaining_collects _ pdu _ C W) as (b0 & -> & _). rewrite bind_Some.
  intros E; injection E as _ <-. by apply advanced_taken.
Qed.

Lemma insert_next_total self pdu addr :
  bs_ok self -> wf pdu ->
  exists d b, insert_next (b_defrag self) pdu addr (msg_dltime self) = Some (d, b) /\
    (exists a, sim d a) /\ advanced pdu b.
Proof.
  intros [a S] W. destruct (msg_dltime_valid self) as [_ Ht].
  destruct (insert_next_sim _ _ pdu addr _ S W Ht) as (d & b & E & S').
  exists d, b. split; [done|]. split; [by eexists|]. exact (insert_next_advanced _ _ _ _ _ _ _ S W Ht E).
Qed.

Lemma insert_last_total self pdu addr :
  bs_ok self -> wf pdu ->
  exists r d b, insert_last (b_defrag self) pdu addr (msg_dltime self) = Some (r, d, b) /\
    (exists a, sim d a) /\ advanced pdu b.
Proof.
  intros O W. pose proof O as [a S]. destruct (msg_dltime_valid self) as [_ Ht].
  destruct (insert_last_sim _ _ pdu addr _ S W Ht) as (r & d & b & E & _ & S').
  exists r, d, b. split; [done|]. split; [by eexists|].
  destruct (insert_next_total self pdu addr O W) as (d1 & b1 & E1 & _ & A). unfold insert_last in E.
  rewrite E1, bind_Some in E. cbv beta iota zeta in E.
  destruct (buffers d1 !! ts_index (msg_dltime self)) as [map|]; [|done]. rewrite bind_Some in E. cbv beta in E.
  destruct (map !! addr) as [buf|]; [|by injection E as _ _ <-]. cbv zeta in E.
  destruct (negb _); [by injection E as _ _ <-|]. destruct (set_raw_pos _ _); try done. by injection E as _ _ <-.
Qed.

Lemma discard_total self addr :
  bs_ok self -> exists r d, discard_incomplete_for_addr (b_defrag self) (msg_dltime self) addr = Some (r, d) /\
    exists a, sim d a.
Proof.
  intros [a S]. destruct (msg_dltime_valid self) as [_ Ht].
  destruct (discard_sim _ _ addr _ S Ht) as (r & d & E & S'). exists r, d. split; [done|]. by eexists.
Qed.

Lemma aie_total self addr : bs_ok self -> exists o, get_aie_info (b_defrag self) addr (msg_dltime self) = Some o.
Proof.
  intros [a S]. destruct (msg_dltime_valid self) as [_ Ht]. unfold get_aie_info.
  destruct (sim_slot _ _ _ S Ht) as [map Hm]. rewrite Hm, bind_Some. destruct (map !! addr); [|by eexists].
  destruct (bool_decide _); by eexists.
Qed.

(** What a handler leaves behind: a consistent defragmenter, the rest of the state as it
    was, and the window either at the same start or moved forward to the next PDU. *)
Definition same_rest (self self' : UmacBs) : Prop := exists d, self' = with_b_defrag self d.

Definition settled (self : UmacBs) (pdu : BitBuffer) (r : UmacBs * list BsEffect * BitBuffer) : Prop :=
  let '(self', _, b) := r in
  bs_ok self' /\ same_rest self self' /\
  (start b = start pdu \/
   (wf b /\ pos b = start b /\ end_ b = end_ pdu /\ start pdu <= start b)).

Lemma same_rest_refl self : same_rest self self.
Proof. exists (b_defrag self). by destruct self. Qed.

Lemma parsing_inv {A} (p : M A) b self k r :
  robust p -> wf b -> bs_ok self -> parsing p b self k = Some r ->
  settled self b r \/ exists x b', advanced b b' /\ wf b' /\ k x b' = Some r.
Proof.
  intros R W O. specialize (R b W). unfold parsing. destruct (p b) as [x b'|e b'|]; [| |done].
  - intros E. right. exists x, b'. split; [done|]. split; [by eapply advanced_wf|done].
  - intros [= <-]. left. split; [done|]. split; [apply same_rest_refl|]. left. by destruct R as (q & -> & _).
Qed.

(** Returning early and moving on to the next PDU. *)
Lemma settled_here self pdu fx b : bs_ok self -> start b = start pdu -> settled self pdu (self, fx, b).
Proof. intros O E. split; [done|]. split; [apply same_rest_refl|by left]. Qed.

Lemma settled_with self pdu d fx b :
  (exists a, sim d a) -> start b = start pdu -> settled self pdu (with_b_defrag self d, fx, b).
Proof. intros O E. split; [done|]. split; [by eexists|by left]. Qed.

Lemma settled_move self pdu self' fx pdu1 len b :
  bs_ok self' -> same_rest self self' -> start pdu1 = start pdu -> wf pdu1 ->
  next_pdu pdu1 (end_ pdu) len = Some b -> settled self pdu (self', fx, b).
Proof.
  intros O' Hd S1 W1 E. destruct (next_pdu_inv _ _ _ _ W1 E) as (Wb & Pb & Sb & Eb).
  split; [done|]. split; [done|]. right. split_and!; [done..|lia].
Qed.

(** ** Facts: the handlers and the loop *)

Section settling.
Context (self : UmacBs) (ind : TmvInd) (pdu : BitBuffer) (O : bs_ok self) (W : wf pdu).

Lemma access_settled r : rx_mac_access self ind pdu = Some r -> settled self pdu r.
Proof using O W.
  unfold rx_mac_access. intros H. bind_inv H u E0.
  destruct (parsing_inv _ _ _ _ _ robust_access W O H) as [|(x & b1 & (p & -> & Hp) & W1 & H1)]; [done|]. clear H.
  destruct (ac_event_label x); [simplify_eq; by apply settled_here|].
  destruct (ac_addr x) as [addr|]; [|simplify_eq; by apply settled_here].
  cbv zeta in H1. bind_inv H1 n E1. bind_inv H1 len E2. bind_inv H1 b2 E3. destruct (cut_inv _ _ _ W1 E3) as [-> W2].
  destruct (MacAccess_is_null_pdu x); [simplify_eq; by apply settled_here|].
  destruct (ac_encrypted x); [simplify_eq; by apply settled_here|].
  bind_inv H1 g E4. destruct (MacAccess_is_frag_start x).
  - destruct (insert_first_total self _ addr None O W2) as (d & b & Ed & Od & A). rewrite Ed, bind_Some in H1.
    bind_inv H1 b3 E5. simplify_eq. pose proof (advanced_wf _ _ W2 A) as Wb. destruct A as (q & -> & _).
    eapply settled_move; [..|exact E5]; [exact Od|by eexists|done|exact Wb].
  - destruct (discard_total self addr O) as (r0 & d & Ed & Od). rewrite Ed, bind_Some in H1. cbv zeta in H1.
    bind_inv H1 osdu E5. destruct osdu as [sdu0|]; [|simplify_eq; by apply settled_with].
    bind_inv H1 ep E6. bind_inv H1 b3 E7. simplify_eq.
    eapply settled_move; [..|exact E7]; [exact Od|by eexists|done|exact W2].
Qed.

Lemma data_settled r : rx_mac_data self ind pdu = Some r -> settled self pdu r.
Proof using O W.
  unfold rx_mac_data. intros H. bind_inv H u E0.
  destruct (parsing_inv _ _ _ _ _ robust_data W O H) as [|(x & b1 & (p & -> & Hp) & W1 & H1)]; [done|]. clear H.
  destruct (md_event_label x); [simplify_eq; by apply settled_here|].
  destruct (md_addr x) as [addr|]; [|simplify_eq; by apply settled_here].
  destruct (data_len x _) as [[[[len0 frag] stolen] null]|]; [|simplify_eq; by apply settled_here].
  cbv zeta in H1. bind_inv H1 n E1. bind_inv H1 len E2. bind_inv H1 b2 E3. destruct (cut_inv _ _ _ W1 E3) as [-> W2].
  destruct null; [simplify_eq; by apply settled_here|].
  destruct (md_encrypted x); [simplify_eq; by apply settled_here|].
  bind_inv H1 g E4. destruct frag.
  - destruct (insert_first_total self _ addr None O W2) as (d & b & Ed & Od & A). rewrite Ed, !bind_Some in H1.
    bind_inv H1 b3 E5. simplify_eq. pose proof (advanced_wf _ _ W2 A) as Wb. destruct A as (q & -> & _).
    eapply settled_move; [..|exact E5]; [exact Od|by eexists|done|exact Wb].
  - destruct (discard_total self addr O) as (r0 & d & Ed & Od). rewrite Ed, bind_Some in H1. cbv zeta in H1.
    destruct (sdu_of _) as [sdu|]; [rewrite bind_Some in H1|done].
    destruct sdu as [sdu|].
    + destruct (packet_data_mac_data_endpoint_id _ _ _ _ _); [rewrite !bind_Some in H1|done].
      bind_inv H1 b3 E7. simplify_eq. eapply settled_move; [..|exact E7]; [exact Od|by eexists|done|exact W2].
    + rewrite bind_Some in H1. bind_inv H1 b3 E7. simplify_eq.
      eapply settled_move; [..|exact E7]; [exact Od|by eexists|done|exact W2].
Qed.

Lemma frag_ul_settled r : rx_mac_frag_ul self ind pdu = Some r -> settled self pdu r.
Proof using O W.
  unfold rx_mac_frag_ul. intros H. bind_inv H u E0.
  destruct (parsing_inv _ _ _ _ _ robust_frag_ul W O H) as [|(x & b1 & (p & -> & Hp) & W1 & H1)]; [done|]. clear H.
  cbv zeta in H1. bind_inv H1 n E1. bind_inv H1 len E2. bind_inv H1 b2 E3. destruct (cut_inv _ _ _ W1 E3) as [-> W2].
  bind_inv H1 c E4. destruct c as [c|]; [|simplify_eq; by apply settled_here].
  bind_inv H1 aie E5. destruct aie; [simplify_eq; by apply settled_here|].
  destruct (insert_next_total self _ (x_addr c) O W2) as (d & b & Ed & Od & (q & -> & _)).
  rewrite Ed, bind_Some in H1. simplify_eq. by apply settled_with.
Qed.

Lemma last_settled prim pdu1 len fill context grant r :
  advanced pdu pdu1 -> wf pdu1 ->
  rx_last self prim pdu1 len fill context grant = Some r -> settled self pdu r.
Proof using O W.
  intros (p & -> & Hp) W1 H1. unfold rx_last in H1. bind_inv H1 n E1. bind_inv H1 len' E2. cbv zeta in H1.
  bind_inv H1 b2 E3. destruct (cut_inv _ _ _ W1 E3) as [-> W2].
  bind_inv H1 c E4. destruct c as [c|]; [|simplify_eq; by apply settled_here].
  bind_inv H1 aie E5. destruct aie; [simplify_eq; by apply settled_here|].
  destruct (insert_last_total self _ (x_addr c) O W2) as (o & d & b & Ed & Od & A).
  rewrite Ed, bind_Some in H1. cbv zeta in H1. pose proof (advanced_wf _ _ W2 A) as Wb. destruct A as (q & -> & _).
  destruct o as [buf|]; [|simplify_eq; by apply settled_with].
  bind_inv H1 b3 E6. simplify_eq. eapply settled_move; [..|exact E6]; [exact Od|by eexists|done|exact Wb].
Qed.

Lemma end_ul_settled r : rx_mac_end_ul self ind pdu = Some r -> settled self pdu r.
Proof using O W.
  unfold rx_mac_end_ul. intros H. bind_inv H u E0.
  destruct (parsing_inv _ _ _ _ _ robust_end_ul W O H) as [|(x & b1 & A & W1 & H1)]; [done|].
  by eapply last_settled.
Qed.

Lemma end_hu_settled r : rx_mac_end_hu self ind pdu = Some r -> settled self pdu r.
Proof using O W.
  unfold rx_mac_end_hu. intros H. bind_inv H u E0.
  destruct (parsing_inv _ _ _ _ _ robust_end_hu W O H) as [|(x & b1 & A & W1 & H1)]; [done|].
  destruct (bool_decide _); [|by eapply last_settled].
  destruct A as (q & -> & _). simplify_eq. by apply settled_here.
Qed.

Lemma u_blck_settled r : rx_ul_mac_u_blck self ind pdu = Some r -> settled self pdu r.
Proof using O W.
  unfold rx_ul_mac_u_blck. intros H.
  destruct (parsing_inv _ _ _ _ _ robust_u_blck W O H) as [|(x & b1 & (p & -> & Hp) & W1 & H1)]; [done|]. clear H.
  destruct (_ || _); [simplify_eq; by apply settled_here|]. cbv zeta in H1. bind_inv H1 c E1.
  assert (Hs : exists self' fx, same_rest self self' /\ bs_ok self' /\
    match c with
    | Some context => '(_, d) ← discard_incomplete_for_addr (b_defrag self) (msg_dltime self) (x_addr context);
        Some (with_b_defrag self d, mark_ms_signalling_activity (x_addr context) (msg_dltime self))
    | None => Some (self, [])
    end = Some (self', fx)).
  { destruct c as [c|]; [|exists self, []; split; [apply same_rest_refl|done]].
    destruct (discard_total self (x_addr c) O) as (r0 & d & Ed & Od). rewrite Ed, bind_Some.
    eexists _, _. split; [by eexists|]. split; [exact Od|done]. }
  destruct Hs as (self' & fx & Hr & O' & Es). rewrite Es, bind_Some in H1. bind_inv H1 res E2.
  assert (Here : forall fx b, start b = start pdu -> settled self pdu (self', fx, b)).
  { intros fx' b Eb. split; [done|]. split; [done|by left]. }
  destruct (ub_encrypted x); [simplify_eq; by apply Here|]. destruct c as [c|]; [|simplify_eq; by apply Here].
  bind_inv H1 n E3. bind_inv H1 len E4. bind_inv H1 b2 E5. destruct (cut_inv _ _ _ W1 E5) as [-> W2].
  bind_inv H1 fx' E6. unfold run, set_raw_end in H1. destruct (_ && _); [|done].
  rewrite bind_Some in H1. simplify_eq. by apply Here.
Qed.

Lemma robust_u_signal : robust MacUSignal_from_bitbuf.
Proof using. unfold MacUSignal_from_bitbuf. robust. Qed.

Lemma u_signal_settled r : rx_ul_mac_u_signal self ind pdu = Some r -> settled self pdu r.
Proof using O W.
  unfold rx_ul_mac_u_signal. intros H.
  destruct (parsing_inv _ _ _ _ _ robust_u_signal W O H) as [|(x & b1 & (p & -> & Hp) & W1 & H1)]; [done|]. clear H.
  cbv zeta in H1. destruct (_ =? 0); [simplify_eq; by apply settled_here|].
  bind_inv H1 sdu0 E1. bind_inv H1 sp E2. bind_inv H1 routed E3. destruct routed as [addrs routed].
  simplify_eq. by apply settled_here.
Qed.

Lemma ul_pdu_settled r : rx_ul_pdu self ind pdu = Some (Some r) -> settled self pdu r.
Proof using O W.
  unfold rx_ul_pdu. intros H. bind_inv H pk E0. destruct pk as [bits|]; [|done].
  assert (Lift : forall (m : received), (forall r', m = Some r' -> settled self pdu r') ->
    Some <$> m = Some (Some r) -> settled self pdu r).
  { intros [r'|] Hm E; cbn in E; [|done]. injection E as ->. by apply Hm. }
  pose proof (settled_here self pdu [] pdu O eq_refl) as Here.
  destruct (_ || _).
  - destruct (MacPduType_try_from _) as [[]|]; [| | | |done].
    + exact (Lift _ data_settled H).
    + destruct (Z.land bits 1 =? 0)%Z; [exact (Lift _ frag_ul_settled H)|exact (Lift _ end_ul_settled H)].
    + by simplify_eq.
    + destruct (bool_decide _); [exact (Lift _ u_signal_settled H)|].
      destruct (Z.land bits 1 =? 0)%Z; [exact (Lift _ u_blck_settled H)|by simplify_eq].
  - destruct (bool_decide _); [|by simplify_eq].
    destruct (_ =? 0)%Z; [exact (Lift _ access_settled H)|exact (Lift _ end_hu_settled H)].
Qed.
End settling.

Lemma same_rest_trans self s1 s2 : same_rest self s1 -> same_rest s1 s2 -> same_rest self s2.
Proof. intros [d ->] [d' ->]. by exists d'. Qed.

(** The length of the window bounds the number of iterations. *)
Lemma rx_ul_loop_enough ind fuel : forall self pdu,
  bs_ok self -> wf pdu -> get_len pdu < fuel ->
  match rx_ul_loop fuel self ind pdu with
  | None => True
  | Some None => False
  | Some (Some (self', _)) => bs_ok self' /\ same_rest self self'
  end.
Proof.
  induction fuel as [|fuel IH]; intros self pdu O W Hl; [lia|]. cbn [rx_ul_loop].
  destruct (rx_ul_pdu self ind pdu) as [[[[self' fx] b]|]|] eqn:E; [| |done].
  2:{ rewrite bind_Some. split; [done|apply same_rest_refl]. }
  rewrite bind_Some. destruct (ul_pdu_settled self ind pdu O W _ E) as (O' & Hr & Hs).
  destruct (Nat.eqb_spec (start b) (start pdu)) as [Es|Es]; [done|]. cbn [negb andb].
  destruct (16 <=? get_len b) eqn:H16; [|done]. destruct Hs as [Hs|(Wb & Pb & Eb & Sb)]; [done|].
  apply Nat.leb_le in H16. unfold get_len in *. specialize (IH self' b O' Wb ltac:(lia)).
  destruct (rx_ul_loop fuel self' ind b) as [[[self2 more]|]|]; [|done|done].
  rewrite bind_Some. split; [apply IH|]. by eapply same_rest_trans; [|apply IH].
Qed.

(** ** Facts: when a MAC-ACCESS panics *)

Lemma bind_ok {A B} (m : M A) (k : A -> M B) b y b' :
  (m ≫= k) b = Ok y b' -> exists x b1, m b = Ok x b1 /\ k x b1 = Ok y b'.
Proof. unfold mbind, method_bind. destruct (m b) as [x b1| |]; [|done|done]. by eauto. Qed.

Lemma read_field_ok n name b v b' :
  n <= 64 -> wf b -> read_field n name b = Ok v b' ->
  b' = with_pos b (pos b + n) /\ wf b' /\ (0 <= v < 2 ^ Z.of_nat n)%Z.
Proof.
  intros Hn W E. destruct (bind_ok _ _ _ _ _ E) as (o & b1 & E1 & E2).
  destruct (decide (length (remaining b) < n)) as [Hs|Hs].
  { rewrite read_bits_short in E1 by done. injection E1 as <- <-. done. }
  assert (Ht : length (take n (remaining b)) = n) by (rewrite length_take; lia).
  rewrite (read_bits_parses n (take n (remaining b)) (drop n (remaining b)) Ht Hn b W) in E1 by (by rewrite take_drop).
  injection E1 as <- <-. cbn in E2. injection E2 as <- <-. rewrite Ht. split; [done|]. split.
  - apply wf_with_pos; [done|]. rewrite length_remaining in Hs. pose proof (wf_pos _ W). pose proof (wf_start _ W). lia.
  - rewrite <- Ht at 3. apply bits_val_bound.
Qed.

Lemma read_map_ok {B} n name (g : Z -> B) b v b' :
  n <= 64 -> wf b -> (x ← read_field n name; mret (g x)) b = Ok v b' ->
  exists x, v = g x /\ b' = with_pos b (pos b + n) /\ wf b' /\ (0 <= x < 2 ^ Z.of_nat n)%Z.
Proof.
  intros Hn W E. destruct (bind_ok _ _ _ _ _ E) as (x & b1 & E1 & E2).
  destruct (read_field_ok _ _ _ _ _ Hn W E1) as (-> & W1 & Hx). injection E2 as <- <-. by eauto.
Qed.

Lemma expect_field_ok n name v b x b' :
  n <= 64 -> wf b -> expect_field n name v b = Ok x b' -> b' = with_pos b (pos b + n) /\ wf b'.
Proof.
  intros Hn W E. unfold expect_field in E. destruct (bind_ok _ _ _ _ _ E) as (y & b1 & E1 & E2).
  destruct (read_field_ok _ _ _ _ _ Hn W E1) as (-> & W1 & _).
  destruct (negb _); [done|]. injection E2 as _ <-. done.
Qed.

(** An address is 2 and 24 bits. *)
Lemma read_addr_ok ty name b x b' :
  wf b -> read_addr ty name b = Ok x b' -> b' = with_pos b (pos b + 24) /\ wf b' /\ is_Some x.
Proof.
  intros W E. unfold read_addr in E. destruct (bind_ok _ _ _ _ _ E) as (y & b1 & E1 & E2).
  destruct (read_map_ok 24 name u32 b y b1 ltac:(lia) W E1) as (z & _ & -> & W1 & _). injection E2 as <- <-. by eauto.
Qed.

Lemma read_ul_address_ok names b x b' :
  wf b -> read_ul_address names b = Ok x b' -> x.2 = None ->
  b' = with_pos b (pos b + 26) /\ wf b' /\ is_Some x.1.
Proof.
  intros W E Hx. unfold read_ul_address in E. destruct (bind_ok _ _ _ _ _ E) as (ty & b1 & E1 & E2).
  destruct (read_map_ok 2 _ u8 b ty b1 ltac:(lia) W E1) as (z & _ & -> & W1 & _). clear E E1.
  assert (Addr : forall t n, (a ← read_addr t n; mret (a, None)) (with_pos b (pos b + 2)) = Ok x b' ->
    b' = with_pos b (pos b + 26) /\ wf b' /\ is_Some x.1).
  { intros t n E. destruct (bind_ok _ _ _ _ _ E) as (a & b2 & E3 & E4).
    destruct (read_addr_ok _ _ _ _ _ W1 E3) as (-> & W2 & Ha). injection E4 as <- <-. cbn in *.
    split; [f_equal; lia|]. by split. }
  destruct (ty =? 0)%Z; [by eapply Addr|]. destruct (ty =? 1)%Z.
  { destruct (bind_ok _ _ _ _ _ E2) as (l & b2 & _ & E4). destruct (_ || _); [done|]. by injection E4 as <- <-. }
  destruct (ty =? 2)%Z; [by eapply Addr|]. destruct (ty =? 3)%Z; [by eapply Addr|done].
Qed.

(** A MAC-ACCESS header with an address and a length indication has 36 bits. *)
Lemma access_header_ok b p b' :
  wf b -> MacAccess_from_bitbuf b = Ok p b' -> ac_event_label p = None ->
  is_Some (ac_addr p) /\
  forall L, ac_length_ind p = Some L -> b' = with_pos b (pos b + 36) /\ (0 <= L < 32)%Z.
Proof.
  intros W E Hp. unfold MacAccess_from_bitbuf in E.
  apply bind_ok in E as (u & b1 & E1 & E). apply expect_field_ok in E1 as [-> W1]; [|lia|done].
  apply bind_ok in E as (fl & b2 & E2 & E). apply read_map_ok in E2 as (z2 & _ & -> & W2 & _); [|lia|done].
  apply bind_ok in E as (en & b3 & E3 & E). apply read_map_ok in E3 as (z3 & _ & -> & W3 & _); [|lia|done].
  apply bind_ok in E as ([ad el] & b4 & E4 & E).
  apply bind_ok in E as (opt & b5 & E5 & E).
  assert (He : el = None).
  { destruct (negb opt); [by injection E as <- <-|]. apply bind_ok in E as (lc & b6 & E6 & E).
    destruct (lc =? 0)%Z; [apply bind_ok in E as (len & b7 & E7 & E); by injection E as <- <-|].
    apply bind_ok in E as (fr & b7 & E7 & E). apply bind_ok in E as (rr & b8 & E8 & E). by injection E as <- <-. }
  subst el. apply read_ul_address_ok in E4 as (-> & W4 & Ha); [|done|done]. cbn in Ha.
  apply read_map_ok in E5 as (z5 & _ & -> & W5 & _); [|lia|done].
  destruct (negb opt); [injection E as <- <-; by split|].
  apply bind_ok in E as (lc & b6 & E6 & E). apply read_field_ok in E6 as (-> & W6 & _); [|lia|done].
  destruct (lc =? 0)%Z.
  - apply bind_ok in E as (len & b7 & E7 & E). apply read_map_ok in E7 as (z7 & -> & -> & W7 & Hz); [|lia|done].
    injection E as <- <-. split; [done|]. intros L [= <-]. cbn in *. split; [f_equal; lia|].
    rewrite u8_small; lia.
  - apply bind_ok in E as (fr & b7 & E7 & E). apply bind_ok in E as (rr & b8 & E8 & E). injection E as <- <-. by split.
Qed.

Lemma trailing_le l : trailing l <= length l.
Proof. induction l as [|[] l IH]; cbn; [lia|lia|]. destruct (trailing l); lia. Qed.

Lemma num_fill_total flag pdu len :
  wf pdu -> start pdu + len <= end_ pdu ->
  exists n, num_fill flag pdu len = Some n /\ n <= start pdu + len - pos pdu.
Proof.
  intros W Hl. unfold num_fill. destruct flag; [|exists 0; split; [done|lia]].
  rewrite get_num_fill_bits_spec by done. eexists. split; [done|].
  etrans; [apply trailing_le|]. by rewrite length_rev, length_getbits.
Qed.

Lemma owner_total s ts slot :
  sched_ok s -> Tdma.valid ts -> exists o, packet_data_uplink_owner s ts slot = Some o.
Proof.
  intros SO V. unfold packet_data_uplink_owner. destruct (negb (bool_decide _)); [by eexists|].
  unfold packet_data_assignment_for_timeslot_with_allocator. apply Tdma.valid_bounds in V.
  destruct (_ || _); [by eexists|]. destruct (negb _); [by eexists|]. destruct (packet_data_slot_has_voice_circuit _ _); [by eexists|].
  rewrite pred_usize_pos, bind_Some by lia.
  destruct (lookup_lt_is_Some_2 (packet_data_assignments s) (Z.to_nat (t ts - 1))) as [a Ha].
  { rewrite (ok_assignments _ SO). lia. }
  rewrite Ha, bind_Some. by eexists.
Qed.

Lemma grant_total self addr time bn req redirect :
  sched_ok (channel_scheduler self) -> Tdma.valid time ->
  exists g, enqueue_reservation_grant_for_addr self addr time bn req redirect = Some g.
Proof.
  intros SO V. unfold enqueue_reservation_grant_for_addr, packet_data_uplink_assigned_ts_for_addr.
  destruct (owner_total _ _ bn SO V) as [o ->]. rewrite !bind_Some.
  set (x := match o with Some _ => _ | None => None end). destruct x; [rewrite bind_Some; by eexists|].
  destruct redirect; [|rewrite bind_Some; by eexists].
  unfold packet_data_active_uplink_slot_for_addr, packet_data_active_uplink_slots_for_addr_with_allocator.
  destruct (lookup_lt_is_Some_2 (packet_data_assignments (channel_scheduler self)) (Z.to_nat (PACKET_DATA_ASSIGNED_SCCH_TS - 1))) as [a Ha].
  { rewrite (ok_assignments _ SO). unfold PACKET_DATA_ASSIGNED_SCCH_TS. lia. }
  rewrite Ha, !bind_Some. by eexists.
Qed.

Lemma llc_type_total sdu : wf sdu -> pos sdu = start sdu -> exists ty, llc_type sdu = Some ty.
Proof.
  intros W P. unfold llc_type. rewrite peek_here by (done || lia). rewrite bind_Some. by eexists.
Qed.

Lemma endpoint_total self addr sdu :
  wf sdu -> pos sdu = start sdu -> exists e, packet_data_advanced_link_endpoint_id self addr sdu = Some e.
Proof.
  intros W P. unfold packet_data_advanced_link_endpoint_id, llc_sdu_is_original_advanced_link.
  destruct (negb _); [by eexists|]. destruct (llc_type_total sdu W P) as [ty ->]. rewrite !bind_Some. by eexists.
Qed.

Lemma sdu_of_total pdu : wf pdu ->
  sdu_of pdu = Some None \/ exists sdu, sdu_of pdu = Some (Some sdu) /\ holds sdu (remaining pdu).
Proof.
  intros W. unfold sdu_of. destruct (_ =? 0); [by left|]. right.
  destruct (from_bitbuffer_pos_holds _ W) as (sdu & -> & Hs). rewrite bind_Some. by eexists.
Qed.

(** The window is cut unless it would end before the cursor. *)
Lemma cut_spec pdu len :
  wf pdu -> start pdu + len <= end_ pdu ->
  cut pdu len = if pos pdu <=? start pdu + len then Some (sdu_window pdu len) else None.
Proof.
  intros [Wb Ws Wp We] H. unfold cut, run, set_raw_end.
  btrue (start pdu + len <=? length (buffer pdu) * 8). btrue (start pdu <=? start pdu + len). cbn [andb].
  by destruct (pos pdu <=? start pdu + len).
Qed.

Lemma sdu_window_wf pdu len : wf pdu -> start pdu + len <= end_ pdu -> pos pdu <= start pdu + len -> wf (sdu_window pdu len).
Proof. intros [Wb Ws Wp We] H1 H2. split; cbn; try done; lia. Qed.

Lemma access_len_le p n : access_len p n <= n.
Proof. unfold access_len. set (x := match ac_length_ind p with Some _ => _ | None => n end). destruct (Nat.ltb_spec n x); lia. Qed.

(** Behind the cut nothing panics. *)
Lemma access_after_cut self ind p pdu len n addr (orig : nat) :
  bs_ok self -> sched_ok (channel_scheduler self) -> wf pdu -> start pdu + len <= end_ pdu -> end_ pdu <= orig ->
  start pdu + (len + n) <= orig -> orig <= 8 * length (buffer pdu) -> pos pdu <= start pdu + len ->
  let w := sdu_window pdu len in
  let time := msg_dltime self in
  exists r,
    (let fx := mark_ms_signalling_activity addr time ++ [EnqueueRandomAccessAck (t time) addr]
                ++ (match n_rssi ind with Some rssi => [MsRssiUpdate (ssi addr) rssi] | None => [] end) in
      if ac_encrypted p then Some (self, fx, w) else
      grant ← (match ac_reservation_req p with
               | Some res_req =>
                   g ← enqueue_reservation_grant_for_addr self addr time (i_block_num (n_prim ind)) res_req
                         (negb (MacAccess_is_frag_start p));
                   Some [g]
               | None => Some []
               end);
      let fx := fx ++ grant in
      if MacAccess_is_frag_start p then
        '(d, pdu) ← insert_first (b_defrag self) w time addr None;
        pdu ← next_pdu pdu orig (len + n);
        Some (with_b_defrag self d, fx, pdu)
      else
        '(_, d) ← discard_incomplete_for_addr (b_defrag self) time addr;
        let self := with_b_defrag self d in
        sdu ← sdu_of w;
        match sdu with
        | None => Some (self, fx, w)
        | Some sdu =>
            endpoint_id ← packet_data_advanced_link_endpoint_id self addr sdu;
            pdu ← next_pdu w orig (len + n);
            Some (self, fx ++ [LlcInd sdu addr (i_scrambling_code (n_prim ind)) endpoint_id (ac_encrypted p)], pdu)
        end) = Some r.
Proof.
  intros O SO W H1 H2 H3 H4 H5 w time. pose proof (sdu_window_wf pdu len W H1 H5) as Ww. fold w in Ww.
  destruct (msg_dltime_valid self) as [V _]. subst time. cbv zeta.
  destruct (ac_encrypted p); [by eexists|].
  assert (Hg : exists g, match ac_reservation_req p with
     | Some res_req => g ← enqueue_reservation_grant_for_addr self addr (msg_dltime self) (i_block_num (n_prim ind)) res_req
         (negb (MacAccess_is_frag_start p)); Some [g]
     | None => Some [] end = Some g).
  { destruct (ac_reservation_req p) as [req|]; [|by eexists].
    destruct (grant_total self addr (msg_dltime self) (i_block_num (n_prim ind)) req (negb (MacAccess_is_frag_start p)) SO V) as [g ->].
    by eexists. }
  destruct Hg as [g ->]. rewrite bind_Some.
  assert (Hn : forall q, wf (with_pos w q) -> exists b, next_pdu (with_pos w q) orig (len + n) = Some b).
  { intros q Wq. rewrite next_pdu_spec; [by eexists|done|cbn; lia..]. }
  destruct (MacAccess_is_frag_start p).
  - destruct (insert_first_total self w addr None O Ww) as (d & b & -> & _ & A). rewrite bind_Some.
    pose proof (advanced_wf _ _ Ww A) as Wb. destruct A as (q & -> & _). destruct (Hn q Wb) as [b ->]. rewrite bind_Some. by eexists.
  - destruct (discard_total self addr O) as (r0 & d & -> & _). rewrite bind_Some.
    destruct (sdu_of_total w Ww) as [->|(sdu0 & -> & Hs)]; rewrite bind_Some; [by eexists|].
    destruct (endpoint_total (with_b_defrag self d) addr sdu0 (ho_wf _ _ Hs) (ho_pos _ _ Hs)) as [e ->]. rewrite bind_Some.
    destruct (Hn (pos w) ltac:(by destruct w)) as [b Eb]. replace (with_pos w (pos w)) with w in Eb by (by destruct w).
    rewrite Eb, bind_Some. by eexists.
Qed.

Lemma access_end_window p pdu b' :
  wf pdu -> pos pdu = start pdu -> MacAccess_from_bitbuf pdu = Ok p b' -> ac_event_label p = None ->
  (exists L, ac_length_ind p = Some L /\ (1 <= L <= 4)%Z) <-> start b' + access_len p (get_len b') < pos b'.
Proof.
  intros W P E He. destruct (access_header_ok _ _ _ W E He) as [_ H].
  pose proof (robust_access _ W) as Ro. rewrite E in Ro. pose proof (advanced_wf _ _ W Ro) as Wb.
  pose proof (wf_start _ Wb). pose proof (wf_pos _ Wb). unfold access_len, get_len. rewrite He.
  destruct (ac_length_ind p) as [L|].
  - destruct (H L eq_refl) as [-> HL]. cbn in *. split.
    + intros (? & [= <-] & HL'). bfalse ((L =? 0)%Z). destruct (Nat.ltb_spec (end_ pdu - start pdu) (Z.to_nat L * 8)); lia.
    + intros Hlt. exists L. split; [done|]. destruct (Z.eqb_spec L 0).
      * destruct (Nat.ltb_spec (end_ pdu - start pdu) 36); lia.
      * destruct (Nat.ltb_spec (end_ pdu - start pdu) (Z.to_nat L * 8)); lia.
  - split; [by intros (? & ? & _)|]. bfalse (end_ b' - start b' <? end_ b' - start b'). lia.
Qed.

(** C17 (a length indication below the header stops the station). For a station whose
    defragmenter and scheduler are in order, [rx_mac_access] on any received block panics
    exactly when the block parses as a MAC-ACCESS with an address and a length indication
    of 1, 2, 3 or 4 octets: the header itself has 36 bits, and the window is cut in front of
    the cursor. Every other block, malformed ones included, is handled. *)
Theorem mac_access_panics_iff self ind pdu :
  bs_ok self -> sched_ok (channel_scheduler self) -> wf pdu -> pos pdu = start pdu ->
  rx_mac_access self ind pdu = None <->
  exists p b' L, MacAccess_from_bitbuf pdu = Ok p b' /\ ac_event_label p = None /\
    ac_length_ind p = Some L /\ (1 <= L <= 4)%Z.
Proof.
  intros O SO W P. unfold rx_mac_access, get_pos, parsing. rewrite P, Nat.sub_diag. change (assert_ (0 =? 0)) with (Some tt). rewrite bind_Some.
  pose proof (robust_access _ W) as Ro. destruct (MacAccess_from_bitbuf pdu) as [p b'|e b'|] eqn:E; [| |done].
  2: { split; [done|by intros (? & ? & ? & ? & _)]. }
  destruct (ac_event_label p) as [el|] eqn:He.
  { split; [done|]. intros (p' & ? & ? & [= <- <-] & ? & _). congruence. }
  destruct (access_header_ok _ _ _ W E He) as [[addr Ha] _]. rewrite Ha.
  pose proof (access_end_window _ _ _ W P E He) as Hw. pose proof (advanced_wf _ _ W Ro) as Wb.
  assert (Hiff : (exists p0 b0 L, Ok (E := PduParseErr) p b' = Ok p0 b0 /\ ac_event_label p0 = None /\ ac_length_ind p0 = Some L /\ (1 <= L <= 4)%Z)
                 <-> start b' + access_len p (get_len b') < pos b').
  { rewrite <- Hw. split; [intros (? & ? & L & [= <- <-] & _ & HL); by exists L|intros (L & HL); by exists p, b', L]. }
  rewrite Hiff. clear Hiff Hw. pose proof (access_len_le p (get_len b')) as Hl. set (len := access_len p (get_len b')) in *.
  assert (He' : start b' + len <= end_ b') by (unfold get_len in Hl; pose proof (wf_start _ Wb); pose proof (wf_pos _ Wb); lia).
  destruct (num_fill_total (ac_fill_bits p) b' len Wb He') as (n & -> & Hn). cbv zeta. rewrite bind_Some.
  pose proof (wf_start _ Wb) as Hs. unfold usub. btrue (n <=? len). rewrite bind_Some, cut_spec by (done || lia).
  destruct (Nat.leb_spec (pos b') (start b' + (len - n))) as [Hc|Hc].
  2: { split; [intros _; lia|done]. }
  rewrite bind_Some. split; [|lia]. intros Hnone. exfalso. revert Hnone.
  destruct (MacAccess_is_null_pdu p); [done|].
  destruct (access_after_cut self ind p b' (len - n) n addr (end_ b') O SO Wb) as [r Hr];
    [lia|lia|lia|apply (wf_end _ Wb)|done|].
  cbv zeta in Hr. by rewrite Hr.
Qed.

(** An idle station. *)
Definition idle_station : UmacBs :=
  mkUmacBs TdmaTime_default BsDefrag_new (sched_new 3) (replicate 4 None) ∅.

Lemma idle_station_ok : bs_ok idle_station /\ sched_ok (channel_scheduler idle_station).
Proof. split; [eexists; apply sim_new|apply sched_new_ok]. Qed.

(** A MAC-ACCESS of ISSI 5 that announces two octets, in a block of 92 bits. *)
Definition short_access : BitBuffer :=
  mkBitBuffer [0; 0; 0; 0x2c; 0x20; 0; 0; 0; 0; 0; 0; 0]%Z 0 0 92 false.

Lemma short_access_wf : wf short_access.
Proof. split; cbn; [|lia..]. repeat constructor; unfold is_byte; lia. Qed.

Lemma mac_access_panics_iff_witness :
  rx_mac_access idle_station (mkInd (mkTmvInd short_access Block1 SchHu 3) None) short_access = None.
Proof.
  apply (mac_access_panics_iff idle_station (mkInd (mkTmvInd short_access Block1 SchHu 3) None) short_access
    (proj1 idle_station_ok) (proj2 idle_station_ok) short_access_wf eq_refl).
  do 3 eexists. split; [vm_compute; reflexivity|]. split; [reflexivity|]. split; [reflexivity|lia].
Defined.

(** A received block is worked off. For every received block, on every logical
    channel, the loop of [rx_tmv_sch] ends within as many iterations as the block has bits:
    each iteration that continues has moved the start of the window on. The defragmenter
    stays in order, and scheduler, speakers and link contexts are changed through the
    recorded effects only. *)
Theorem rx_ul_sch_terminates self ind :
  bs_ok self -> wf (i_pdu (n_prim ind)) ->
  match rx_ul_sch self ind with
  | None => True
  | Some None => False
  | Some (Some (self', _)) => bs_ok self' /\ exists d, self' = with_b_defrag self d
  end.
Proof. intros O W. unfold rx_ul_sch. apply rx_ul_loop_enough; [done..|lia]. Qed.

