(* ===== verification/Lmac.v ===== *)
(** * The lower MACs (crates/tetra-entities/src/lmac/lmac_bs.rs and lmac_ms.rs)

    Between the physical layer and the upper MAC: which logical channel a received block
    belongs to, decoding it, and encoding the blocks of a slot for transmission.  The base
    station keeps per timeslot what kind of uplink it expects and whether the second half of
    the current slot is stolen for signalling; the mobile keeps the scrambling code and the
    kind of the current burst.  [None] is a panic; log output is left out, the records that
    limit the log output are kept. *)

From Stdlib Require Import ZArith Lia ZifyNat.
From stdpp Require Import gmap strings.
From S2P Require Import Prelude.
From S2P Require Import BitBuffer.
From S2P Require Import BitBufferFacts.
From S2P Require Import Scrambler.
From S2P Require Import ErrorControl.
From S2P Require Import Tdma.
From S2P Require Import Codec.
From S2P Require Import MacFields.
From S2P Require Import MacPdus.
From S2P Require Import Robust.
From S2P Require Import UmacMs.

(** ** Blocks at the physical layer *)

Inductive BurstType := CUB | BurstNUB | BurstNDB | SDB.
#[export] Instance BurstType_eq_dec : EqDecision BurstType.
Proof. solve_decision. Defined.

Inductive TrainingSequence :=
  | NormalTrainSeq1 | NormalTrainSeq2 | NormalTrainSeq3 | ExtendedTrainSeq | SyncTrainSeq | NotFound.
#[export] Instance TrainingSequence_eq_dec : EqDecision TrainingSequence.
Proof. solve_decision. Defined.

Inductive PhysicalChannel := Tp | Cp | Unallocated.
#[export] Instance PhysicalChannel_eq_dec : EqDecision PhysicalChannel.
Proof. solve_decision. Defined.

(** TP-UNITDATA indication: the part the decoders use, and the rest.  [None] stands for an
    RSSI that is not finite. *)
Record TpInd := mkTp {
  p_train_type : TrainingSequence;
  p_burst_type : BurstType;
  p_block_num : PhyBlockNum;
  p_blk : TpUnitdataInd;
  p_rssi : option Z
}.

(** TP-UNITDATA request: a slot worth of coded blocks. *)
Record TpUnitdataReqSlot := mkTpReq {
  o_train_type : TrainingSequence;
  o_burst_type : BurstType;
  o_bbk : option BitBuffer;
  o_blk1 : option BitBuffer;
  o_blk2 : option BitBuffer
}.

(** TMV-UNITDATA request for a slot. *)
Record TmvUnitdataReqSlot := mkSlot {
  s_ts : TdmaTime;
  s_ul_phy_chan : PhysicalChannel;
  s_blk1 : option TmvUnitdataReq;
  s_blk2 : option TmvUnitdataReq;
  s_bbk : option TmvUnitdataReq
}.

(** TMV-CONFIGURE request: the fields the lower MACs use. *)
Record TmvConfigureReq := mkConf {
  f_scrambling_code : option Z;
  f_is_traffic : option bool;
  f_blk2_stolen : option bool;
  f_time : option TdmaTime
}.

(** What the lower MAC sends: up to the upper MAC (with priority for signalling), and down. *)
Inductive LmacMsg :=
  | TmvIndMsg (prim : TmvUnitdataInd) (rssi : option Z)
  | TmdCircuitDataInd (ts : Z) (data : list Z) (raw_tch_s_block : option PhyBlockNum)
  | TpReqMsg (slot : TpUnitdataReqSlot).

(** ** Base station *)

Definition POST_GRANT_RX_DIAG_TIMESLOTS : Z := 72.
Definition POST_GRANT_RX_DIAG_MAX_EVENTS : Z := 24.
Definition CONTROL_RX_DIAG_MIN_AGE_TIMESLOTS : Z := 72.

Record PostGrantRxDiag := mkDiag { grant_time : TdmaTime; remaining_events : Z }.

Record LmacBs := mkLmacBs {
  l_dltime : TdmaTime;
  l_scrambling_code : Z;
  uplink_phy_chan : list PhysicalChannel;
  blk2_stolen_at : list (option TdmaTime);
  post_grant_rx_diag : list (option PostGrantRxDiag);
  control_rx_diag_last : list (option TdmaTime)
}.

Definition LmacBs_new (mcc mnc colour_code : Z) : LmacBs :=
  mkLmacBs TdmaTime_default (tetra_scramb_get_init mcc mnc colour_code) (replicate 4 Unallocated)
    (replicate 4 None) (replicate 4 None) (replicate 4 None).

Definition set_stolen (self : LmacBs) (i : nat) (x : option TdmaTime) : LmacBs :=
  mkLmacBs (l_dltime self) (l_scrambling_code self) (uplink_phy_chan self) (<[i := x]> (blk2_stolen_at self))
    (post_grant_rx_diag self) (control_rx_diag_last self).
Definition set_phy_chan (self : LmacBs) (i : nat) (x : PhysicalChannel) : LmacBs :=
  mkLmacBs (l_dltime self) (l_scrambling_code self) (<[i := x]> (uplink_phy_chan self)) (blk2_stolen_at self)
    (post_grant_rx_diag self) (control_rx_diag_last self).
Definition set_diag (self : LmacBs) (i : nat) (x : option PostGrantRxDiag) : LmacBs :=
  mkLmacBs (l_dltime self) (l_scrambling_code self) (uplink_phy_chan self) (blk2_stolen_at self)
    (<[i := x]> (post_grant_rx_diag self)) (control_rx_diag_last self).
Definition set_control_diag (self : LmacBs) (i : nat) (x : option TdmaTime) : LmacBs :=
  mkLmacBs (l_dltime self) (l_scrambling_code self) (uplink_phy_chan self) (blk2_stolen_at self)
    (post_grant_rx_diag self) (<[i := x]> (control_rx_diag_last self)).

Definition determine_logical_channel_ul (blk : TpInd) (burst_is_traffic block2_stolen : bool) : LogicalChannel :=
  match p_burst_type blk with
  | CUB => SchHu
  | BurstNUB =>
      match p_train_type blk with
      | NormalTrainSeq1 => if burst_is_traffic then TchS else SchF
      | NormalTrainSeq2 =>
          match p_block_num blk with
          | Block1 => Stch
          | Block2 => if block2_stolen then Stch else TchS
          | _ => Stch
          end
      | _ => SchHu
      end
  | _ => SchHu
  end.

Definition ul_ts_index (ts : Z) : option nat :=
  if ((1 <=? ts) && (ts <=? 4))%Z then Some (Z.to_nat (ts - 1)) else None.

Definition diag_age (diag : PostGrantRxDiag) (ul_time : TdmaTime) : Z := age (grant_time diag) ul_time.

Definition maybe_arm_post_grant_rx_diag_from_dl_stch (self : LmacBs) (tx_time : TdmaTime) (blk1 : TmvUnitdataReq)
  : option LmacBs :=
  if negb (bool_decide (logical_channel blk1 = Stch)) then Some self else
  mac_probe ← from_bitbuffer (mac_block blk1);
  match MacResource_from_bitbuf mac_probe with
  | Panic => None
  | Err _ _ => Some self
  | Ok resource _ =>
      match addr resource with
      | None => Some self
      | Some addr =>
          if negb (bool_decide (ssi_type addr = Issi)) then Some self else
          let uplink_allocated :=
            match chan_alloc_element resource with
            | Some c => bool_decide (ul_dl_assigned c = Ul) || bool_decide (ul_dl_assigned c = Both)
            | None => false
            end in
          if negb uplink_allocated then Some self else
          Some (match ul_ts_index (t tx_time) with
                | Some ts_idx => set_diag self ts_idx (Some (mkDiag tx_time POST_GRANT_RX_DIAG_MAX_EVENTS))
                | None => self
                end)
      end
  end.

Definition take_post_grant_rx_diag_event (self : LmacBs) (ul_time : TdmaTime)
  : option (option PostGrantRxDiag * LmacBs) :=
  match ul_ts_index (t ul_time) with
  | None => Some (None, self)
  | Some ts_idx =>
      slot ← post_grant_rx_diag self !! ts_idx;
      Some (match slot with
            | None => (None, self)
            | Some diag =>
                let age := diag_age diag ul_time in
                if negb ((0 <=? age) && (age <=? POST_GRANT_RX_DIAG_TIMESLOTS))%Z then
                  (None, if (POST_GRANT_RX_DIAG_TIMESLOTS <? age)%Z then set_diag self ts_idx None else self)
                else if (remaining_events diag =? 0)%Z then (None, set_diag self ts_idx None)
                else
                  let diag := mkDiag (grant_time diag) (remaining_events diag - 1) in
                  (Some diag, set_diag self ts_idx (if (remaining_events diag =? 0)%Z then None else Some diag))
            end)
  end.

Definition take_control_rx_diag_event (self : LmacBs) (ul_time : TdmaTime) (ts_idx : nat) : option (bool * LmacBs) :=
  last ← control_rx_diag_last self !! ts_idx;
  Some (match last with
        | Some last =>
            if (age last ul_time <? CONTROL_RX_DIAG_MIN_AGE_TIMESLOTS)%Z then (false, self)
            else (true, set_control_diag self ts_idx (Some ul_time))
        | None => (true, set_control_diag self ts_idx (Some ul_time))
        end).

(** Speech: a whole slot is decoded, a second half passed on as it is. *)
Definition bs_rx_blk_traffic (self : LmacBs) (blk : TpInd) (lchan : LogicalChannel) (ul_time : TdmaTime)
  : option (list LmacMsg) :=
  if negb (bool_decide (lchan = TchS)) then Some [] else
  match p_block_num blk with
  | Block2 =>
      data ← into_bitvec (block (p_blk blk));
      if negb (length data =? 216) then Some []
      else Some [TmdCircuitDataInd (t ul_time) data (Some Block2)]
  | BlkBoth =>
      '(decoded, crc_ok) ← decode_tp lchan (block (p_blk blk)) (l_scrambling_code self);
      match decoded with
      | None => Some []
      | Some acelp_bits =>
          if negb crc_ok then Some [] else
          '(_, bb) ← call (seek 0) acelp_bits;
          '(data, _) ← call (to_bitarr (get_len acelp_bits)) bb;
          Some [TmdCircuitDataInd (t ul_time) data None]
      end
  | _ => Some []
  end.

(** Signalling; the result tells whether the block went to the upper MAC. *)
Definition rx_blk_control (self : LmacBs) (blk : TpInd) (lchan : LogicalChannel) (ul_time : TdmaTime)
  (diag : option PostGrantRxDiag) : option (bool * LmacBs * list LmacMsg) :=
  if negb (is_control_channel lchan) || bool_decide (lchan = Aach) then Some (false, self, []) else
  '(_, self) ← (match diag with
                | Some _ => Some (true, self)
                | None => take_control_rx_diag_event self ul_time (Z.to_nat (t ul_time - 1))
                end);
  '(type1bits, crc_pass) ← decode_cp lchan (p_blk blk) (Some (l_scrambling_code self));
  Some (match type1bits with
        | None => (false, self, [])
        | Some type1bits =>
            if negb crc_pass then (false, self, [])
            else (true, self, [TmvIndMsg (mkTmvInd type1bits (p_block_num blk) lchan (l_scrambling_code self)) (p_rssi blk)])
        end).

Definition should_fallback_non_traffic_nub_to_tch_s (blk : TpInd) (pchan : PhysicalChannel) : bool :=
  (bool_decide (pchan = Unallocated) || bool_decide (pchan = Cp))
  && bool_decide (p_burst_type blk = BurstNUB)
  && ((bool_decide (p_train_type blk = NormalTrainSeq1) && bool_decide (p_block_num blk = BlkBoth))
      || (bool_decide (p_train_type blk = NormalTrainSeq2) && bool_decide (p_block_num blk = Block2))).

Definition ul_time_of (self : LmacBs) : TdmaTime := add_timeslots (l_dltime self) (-2).

Definition bs_rx_tp_prim (self : LmacBs) (prim : TpInd) : option (LmacBs * list LmacMsg) :=
  let time := ul_time_of self in
  match ul_ts_index (t time) with
  | None => Some (self, [])
  | Some ts_idx =>
      pchan ← uplink_phy_chan self !! ts_idx;
      marker ← blk2_stolen_at self !! ts_idx;
      let block_num := p_block_num prim in
      let block2_stolen := bool_decide (marker = Some time) in
      '(diag, self) ← take_post_grant_rx_diag_event self time;
      let self := if bool_decide (is_Some marker) && negb block2_stolen then set_stolen self ts_idx None else self in
      let reset := bool_decide (block_num = Block1) && block2_stolen in
      let self := if reset then set_stolen self ts_idx None else self in
      let block2_stolen := block2_stolen && negb reset in
      if negb (bool_decide (pchan = Tp)) && block2_stolen then Some (set_stolen self ts_idx None, []) else
      let finish (self : LmacBs) :=
        if bool_decide (block_num = Block2) && block2_stolen then set_stolen self ts_idx None else self in
      match determine_logical_channel_ul prim (bool_decide (pchan = Tp)) block2_stolen with
      | Clch => Some (finish self, [])
      | TchS | Tch24 | Tch48 | Tch72 =>
          msgs ← bs_rx_blk_traffic self prim
                   (determine_logical_channel_ul prim (bool_decide (pchan = Tp)) block2_stolen) time;
          Some (finish self, msgs)
      | SchF | SchHu | Stch =>
          '(control_forwarded, self, msgs) ←
            rx_blk_control self prim
              (determine_logical_channel_ul prim (bool_decide (pchan = Tp)) block2_stolen) time diag;
          if negb control_forwarded && should_fallback_non_traffic_nub_to_tch_s prim pchan then
            more ← bs_rx_blk_traffic self prim TchS time;
            Some (finish self, msgs ++ more)
          else Some (finish self, msgs)
      | _ => Some (self, [])
      end
  end.

Definition bs_rx_tmv_configure_req (self : LmacBs) (prim : TmvConfigureReq) : option LmacBs :=
  match f_blk2_stolen prim with
  | None => Some self
  | Some stolen =>
      let ul_time := default (ul_time_of self) (f_time prim) in
      Some (match ul_ts_index (t ul_time) with
            | None => self
            | Some ts_idx => set_stolen self ts_idx (if stolen : bool then Some ul_time else None)
            end)
  end.

(** Burst and training sequence of a downlink slot; [None] when the slot is dropped. *)
Definition burst_of (blk1 : LogicalChannel) (has_blk2 : bool) : option (BurstType * TrainingSequence) :=
  match blk1 with
  | Bsch => if has_blk2 then Some (SDB, SyncTrainSeq) else None
  | SchF | TchS => Some (BurstNDB, NormalTrainSeq1)
  | SchHd | Stch | Bnch => if has_blk2 then Some (BurstNDB, NormalTrainSeq2) else None
  | _ => None
  end.

(** [encode_tp] for traffic, [encode_cp] for signalling. *)
Definition encode_blk (blk : TmvUnitdataReq) (blk_num : Z) : option (option BitBuffer) :=
  if is_traffic (logical_channel blk) then encode_tp blk blk_num else encode_cp blk.

Definition encode_blk2 (blk2 : TmvUnitdataReq) : option (option BitBuffer) :=
  if bool_decide (logical_channel blk2 = TchS) && (get_len (mac_block blk2) =? 216)
  then Some (Some (mac_block blk2)) else encode_blk blk2 2.

Definition bs_rx_tmv_unitdata_req_slot (self : LmacBs) (prim : TmvUnitdataReqSlot)
  : option (LmacBs * list LmacMsg) :=
  _ ← assert_ ((1 <=? t (s_ts prim)) && (t (s_ts prim) <=? Z.of_nat (length (uplink_phy_chan self))))%Z;
  let self := set_phy_chan self (Z.to_nat (t (s_ts prim) - 1)) (s_ul_phy_chan prim) in
  match s_bbk prim, s_blk1 prim with
  | Some bbk, Some blk1 =>
      let blk2 := s_blk2 prim in
      self ← maybe_arm_post_grant_rx_diag_from_dl_stch self (s_ts prim) blk1;
      match burst_of (logical_channel blk1) (bool_decide (is_Some blk2)) with
      | None => Some (self, [])
      | Some (burst_type, train_type) =>
          bbk' ← encode_aach (mac_block bbk) (scrambling_code bbk);
          blk1' ← encode_blk blk1 1;
          match blk1' with
          | None => Some (self, [])
          | Some blk1' =>
              match blk2 with
              | None => Some (self, [TpReqMsg (mkTpReq train_type burst_type (Some bbk') (Some blk1') None)])
              | Some blk2 =>
                  blk2' ← encode_blk2 blk2;
                  match blk2' with
                  | None => Some (self, [])
                  | Some blk2' =>
                      Some (self, [TpReqMsg (mkTpReq train_type burst_type (Some bbk') (Some blk1') (Some blk2'))])
                  end
              end
          end
      end
  | _, _ => Some (self, [])
  end.

Definition bs_tick_start (self : LmacBs) (ts : TdmaTime) : LmacBs :=
  let stale_before := add_timeslots ts (-2) in
  mkLmacBs ts (l_scrambling_code self) (uplink_phy_chan self)
    ((fun marker =>
        match marker with
        | Some marked_time =>
            if negb (bool_decide (marked_time = stale_before)) && (diff marked_time stale_before <? 0)%Z
            then None else marker
        | None => None
        end) <$> blk2_stolen_at self)
    (post_grant_rx_diag self) (control_rx_diag_last self).

(** ** Mobile station *)

Record CurBurst := mkCurBurst {
  cur_is_traffic : bool; cur_usage : option Z; cur_blk1_stolen : bool; cur_blk2_stolen : bool
}.
Definition CurBurst_default : CurBurst := mkCurBurst false None false false.

(** Without the array of traffic channels, which nothing uses. *)
Record LmacMs := mkLmacMs {
  m_scrambling_code : option Z;
  m_ts : option TdmaTime;
  cur_burst : CurBurst
}.
Definition LmacMs_new : LmacMs := mkLmacMs None None CurBurst_default.

Definition rx_bbk (self : LmacMs) (bbk : TpInd) : option (list LmacMsg) :=
  match m_scrambling_code self with
  | None => Some []
  | Some code =>
      type1 ← decode_aach (block (p_blk bbk)) code;
      Some [TmvIndMsg (mkTmvInd type1 Undefined Aach code) (Some 0%Z)]
  end.

Definition determine_logical_channel_dl (self : LmacMs) (blk : TpInd) (time : TdmaTime) : option LogicalChannel :=
  let bt := block_type (p_blk blk) in
  if bool_decide (bt = BBK) then Some Aach
  else if bool_decide (bt = SB1) then Some Bsch
  else
    _ ← assert_ (negb (is_mandatory_bsch time && bool_decide (p_block_num blk = Block1)));
    if bool_decide (bt = SB2) && is_mandatory_bnch time then Some Bnch
    else if cur_is_traffic (cur_burst self) then
      if (bool_decide (p_block_num blk = Block1) && cur_blk1_stolen (cur_burst self))
         || (bool_decide (p_block_num blk = Block2) && cur_blk2_stolen (cur_burst self))
      then Some Stch else Some TchS
    else if bool_decide (p_block_num blk = BlkBoth) then Some SchF else Some SchHd.

Definition rx_blk_cp (self : LmacMs) (blk : TpInd) (lchan : LogicalChannel) : option (list LmacMsg) :=
  '(type1bits, crc_pass) ← decode_cp lchan (p_blk blk) (m_scrambling_code self);
  match type1bits with
  | None => Some []
  | Some type1bits =>
      if negb crc_pass then Some [] else
      scramb_code ← (if bool_decide (lchan = Bsch) then Some SCRAMB_INIT else m_scrambling_code self);
      Some [TmvIndMsg (mkTmvInd type1bits (p_block_num blk) lchan scramb_code) (Some 0%Z)]
  end.

(** Reception of traffic is not implemented and does nothing. *)
Definition ms_rx_tp_prim (self : LmacMs) (prim : TpInd) : option (list LmacMsg) :=
  lchan ← determine_logical_channel_dl self prim (default TdmaTime_default (m_ts self));
  match lchan with
  | Aach => rx_bbk self prim
  | TchS | Tch24 | Tch48 | Tch72 => Some []
  | _ => rx_blk_cp self prim lchan
  end.

Definition ms_rx_tmv_configure_req (self : LmacMs) (prim : TmvConfigureReq) : LmacMs :=
  let ts := match f_time prim with Some time => Some time | None => m_ts self end in
  let code := match f_scrambling_code prim with Some c => Some c | None => m_scrambling_code self end in
  let cur := match f_is_traffic prim with
             | Some b => mkCurBurst b (cur_usage (cur_burst self)) (cur_blk1_stolen (cur_burst self))
                           (cur_blk2_stolen (cur_burst self))
             | None => cur_burst self
             end in
  mkLmacMs code ts cur.

Definition ms_rx_tmv_unitdata_req_slot (prim : TmvUnitdataReqSlot) : option (list LmacMsg) :=
  if negb (bool_decide (s_ul_phy_chan prim = Cp)) then Some [] else
  if bool_decide (is_Some (s_bbk prim)) || bool_decide (is_Some (s_blk2 prim)) then Some [] else
  match s_blk1 prim with
  | None => Some []
  | Some blk1 =>
      if negb (bool_decide (logical_channel blk1 = SchHu)) then Some [] else
      encoded ← encode_cp blk1;
      Some (match encoded with
            | None => []
            | Some encoded_blk1 => [TpReqMsg (mkTpReq ExtendedTrainSeq CUB None (Some encoded_blk1) None)]
            end)
  end.

(** The mobile's clock must agree with the tick. *)
Definition ms_tick_start (self : LmacMs) (ts : TdmaTime) : option LmacMs :=
  match m_ts self with
  | Some mod_time =>
      _ ← assert_ (bool_decide (mod_time = ts));
      Some (mkLmacMs (m_scrambling_code self) (Some (add_timeslots mod_time 1)) CurBurst_default)
  | None => Some (mkLmacMs (m_scrambling_code self) None CurBurst_default)
  end.

(** ** Facts *)

Record lm_ok (l : LmacBs) : Prop := {
  lk_chan : length (uplink_phy_chan l) = 4;
  lk_stolen : length (blk2_stolen_at l) = 4;
  lk_diag : length (post_grant_rx_diag l) = 4;
  lk_control : length (control_rx_diag_last l) = 4
}.

Lemma LmacBs_new_ok mcc mnc cc : lm_ok (LmacBs_new mcc mnc cc).
Proof. by split. Qed.

Lemma set_stolen_ok l i x : lm_ok l -> lm_ok (set_stolen l i x).
Proof. intros []. split; cbn; by rewrite ?length_insert. Qed.
Lemma set_diag_ok l i x : lm_ok l -> lm_ok (set_diag l i x).
Proof. intros []. split; cbn; by rewrite ?length_insert. Qed.
Lemma set_control_diag_ok l i x : lm_ok l -> lm_ok (set_control_diag l i x).
Proof. intros []. split; cbn; by rewrite ?length_insert. Qed.
Lemma set_phy_chan_ok l i x : lm_ok l -> lm_ok (set_phy_chan l i x).
Proof. intros []. split; cbn; by rewrite ?length_insert. Qed.

Create HintDb lmac.
#[export] Hint Resolve set_stolen_ok set_diag_ok set_control_diag_ok set_phy_chan_ok : lmac.

Lemma ul_ts_index_bound ts i : ul_ts_index ts = Some i -> i < 4.
Proof. unfold ul_ts_index. destruct (Z.leb_spec 1 ts), (Z.leb_spec ts 4); cbn [andb]; try done. intros [= <-]. lia. Qed.

Lemma ul_time_index l : exists i, ul_ts_index (t (ul_time_of l)) = Some i /\ i < 4 /\ i = Z.to_nat (t (ul_time_of l) - 1).
Proof.
  assert (V : Tdma.valid (ul_time_of l)) by apply from_int_valid. apply Tdma.valid_bounds in V.
  unfold ul_ts_index. btrue ((1 <=? t (ul_time_of l))%Z). btrue ((t (ul_time_of l) <=? 4)%Z). cbn [andb].
  eexists. split; [done|]. split; [lia|done].
Qed.

(** What a diagnostic record does to the rest of the state: nothing. *)
Definition same_but_diag (l l' : LmacBs) : Prop :=
  l_dltime l' = l_dltime l /\ l_scrambling_code l' = l_scrambling_code l /\
  uplink_phy_chan l' = uplink_phy_chan l /\ blk2_stolen_at l' = blk2_stolen_at l.

Lemma take_post_total l ts :
  lm_ok l -> exists d l', take_post_grant_rx_diag_event l ts = Some (d, l') /\ lm_ok l' /\ same_but_diag l l'.
Proof.
  intros O. unfold take_post_grant_rx_diag_event, ul_ts_index.
  destruct (Z.leb_spec 1 (t ts)), (Z.leb_spec (t ts) 4); cbn [andb]; try (by eexists _, _).
  destruct (lookup_lt_is_Some_2 (post_grant_rx_diag l) (Z.to_nat (t ts - 1))) as [d ->]; [rewrite (lk_diag _ O); lia|].
  rewrite bind_Some. destruct d as [d|]; [|by eexists _, _]. cbv zeta.
  destruct (negb _); [destruct (_ <? _)%Z|destruct (_ =? 0)%Z]; eexists _, _; (split; [done|split; [by auto with lmac|by repeat split]]).
Qed.

Lemma take_control_total l ts i :
  lm_ok l -> i < 4 -> exists b l', take_control_rx_diag_event l ts i = Some (b, l') /\ lm_ok l' /\ same_but_diag l l'.
Proof.
  intros O Hi. unfold take_control_rx_diag_event.
  destruct (lookup_lt_is_Some_2 (control_rx_diag_last l) i) as [d ->]; [rewrite (lk_control _ O); lia|].
  rewrite bind_Some. destruct d as [d|]; [destruct (_ <? _)%Z|]; eexists _, _; (split; [done|split; [by auto with lmac|by repeat split]]).
Qed.

Lemma into_bitvec_spec b :
  wf b -> into_bitvec b = Some (b2z <$> getbits (buffer b) 0 (get_len b)).
Proof.
  intros [Wb Ws Wp We]. unfold into_bitvec, get_len.
  assert (H : end_ b - start b <= 8 * length (buffer b)) by lia. revert H.
  generalize (end_ b - start b) as n. intros n Hn.
  replace (getbits (buffer b) 0 n) with (getbit (buffer b) <$> seq 0 n) by done.
  apply mapM_Some_2. rewrite <- list_fmap_compose. apply Forall2_fmap_r. apply Forall_Forall2_diag.
  apply Forall_seq. intros i Hi. apply read_bit_at_unchecked_spec; [done|lia].
Qed.

(** ** What the base station passes on *)

(** Signalling: a whole type-1 block of its channel.  Speech: 274 decoded bits, or the 216
    coded bits of a second half slot. *)
Definition msg_ok (prim : TpInd) (m : LmacMsg) : Prop :=
  match m with
  | TmvIndMsg ind rssi =>
      exists params bits, get_params (i_logical_channel ind) = Some params /\ holds (i_pdu ind) bits /\
        length bits = type1_bits params /\ i_block_num ind = p_block_num prim /\ rssi = p_rssi prim /\
        (i_logical_channel ind = SchF \/ i_logical_channel ind = SchHu \/ i_logical_channel ind = Stch)
  | TmdCircuitDataInd ts data raw =>
      (1 <= ts <= 4)%Z /\ Forall is_bit data /\
      (raw = None /\ length data = 274 \/ raw = Some Block2 /\ length data = 216)
  | TpReqMsg _ => False
  end.

(** Bits the physical layer delivers for a burst. *)
Definition burst_bits (prim : TpInd) : nat :=
  match p_burst_type prim, p_train_type prim with
  | BurstNUB, NormalTrainSeq1 => 432
  | BurstNUB, NormalTrainSeq2 => 216
  | _, _ => 168
  end.

Definition carries_control (lchan : LogicalChannel) : Prop := lchan = SchF \/ lchan = SchHu \/ lchan = Stch.

Section receive.
Context (l : LmacBs) (prim : TpInd).
Context (O : lm_ok l) (W : wf (block (p_blk prim))) (P : pos (block (p_blk prim)) = start (block (p_blk prim))).
Context (Hsb : block_type (p_blk prim) <> SB1).
Context (Hlen : burst_bits prim <= length (window (block (p_blk prim)))).
Context (time : TdmaTime) (V : Tdma.valid time).

Lemma traffic_total lchan :
  (p_block_num prim = BlkBoth -> 432 <= length (window (block (p_blk prim)))) ->
  exists msgs, bs_rx_blk_traffic l prim lchan time = Some msgs /\ length msgs <= 1 /\ Forall (msg_ok prim) msgs.
Proof using W V.
  clear O P Hsb Hlen. intros H. apply Tdma.valid_bounds in V.
  assert (None' : exists msgs, Some [] = Some msgs /\ length msgs <= 1 /\ Forall (msg_ok prim) msgs)
    by (exists []; split; [done|split; [cbn; lia|by constructor]]).
  unfold bs_rx_blk_traffic. destruct (negb _) eqn:El; [done|]. apply negb_false_iff, bool_decide_eq_true in El as ->.
  destruct (p_block_num prim) eqn:Eb; try done.
  - destruct (decode_tp_returns _ (l_scrambling_code l) W (H eq_refl)) as (b & bits & ok & -> & Hb & Lb). rewrite bind_Some.
    destruct (negb ok); [done|]. rewrite (call_seek0 _ _ Hb), bind_Some.
    destruct (call_to_bitarr b bits (get_len b) Hb) as (b' & ->); [by rewrite (holds_len _ _ Hb)|]. rewrite bind_Some.
    eexists. split; [done|]. split; [done|]. apply Forall_singleton. split; [lia|]. split; [apply array_of_bits|].
    left. by rewrite length_fmap.
  - rewrite (into_bitvec_spec _ W), bind_Some. destruct (negb _) eqn:E; [done|].
    apply negb_false_iff, Nat.eqb_eq in E. eexists. split; [done|]. split; [done|]. apply Forall_singleton.
    split; [lia|]. split; [apply array_of_bits|by right].
Qed.

Lemma control_total lchan params diag :
  carries_control lchan -> get_params lchan = Some params ->
  type345_bits params <= length (window (block (p_blk prim))) ->
  exists fwd l' msgs, rx_blk_control l prim lchan time diag = Some (fwd, l', msgs) /\ lm_ok l' /\ same_but_diag l l' /\
    length msgs = (if fwd then 1 else 0) /\ Forall (msg_ok prim) msgs.
Proof using O W P Hsb V.
  clear Hlen. intros Hc Hp Hn. unfold rx_blk_control.
  assert (Hctl : negb (is_control_channel lchan) || bool_decide (lchan = Aach) = false) by (by destruct Hc as [-> | [-> | -> ]]).
  assert (Hcrc : have_crc16 params = true) by (destruct Hc as [-> | [-> | -> ]]; cbn in Hp; by injection Hp as <-).
  rewrite Hctl. apply Tdma.valid_bounds in V. assert (Hi : Z.to_nat (t time - 1) < 4) by lia. set (i := Z.to_nat (t time - 1)) in *.
  assert (Hd : exists b l', match diag with Some _ => Some (true, l) | None => take_control_rx_diag_event l time i end
                = Some (b, l') /\ lm_ok l' /\ same_but_diag l l').
  { destruct diag; [|by apply take_control_total]. eexists _, _. split; [done|]. split; [done|by repeat split]. }
  destruct Hd as (b & l' & -> & O' & Hs). rewrite bind_Some.
  assert (Hr : type345_bits params <= length (remaining (block (p_blk prim)))).
  { unfold window in Hn. rewrite length_getbits in Hn. rewrite length_remaining, P. done. }
  destruct (decode_cp_returns lchan params (p_blk prim) (Some (l_scrambling_code l')) (l_scrambling_code l') Hp Hcrc W Hr)
    as (type1 & bits & ok & -> & Hh & Lb); [by rewrite bool_decide_false|].
  rewrite bind_Some. destruct ok; cbn [negb]; eexists _, _, _; (split; [done|]); (split; [done|]); (split; [done|]); [|by split; [|constructor]].
  split; [done|]. apply Forall_singleton. exists params, bits. repeat split; try done; apply Hh.
Qed.
End receive.

Lemma needs_block prim traffic stolen params :
  burst_bits prim <= length (window (block (p_blk prim))) ->
  get_params (determine_logical_channel_ul prim traffic stolen) = Some params ->
  carries_control (determine_logical_channel_ul prim traffic stolen) ->
  type345_bits params <= length (window (block (p_blk prim))).
Proof.
  unfold burst_bits, determine_logical_channel_ul. intros H Hp Hc.
  destruct (p_burst_type prim), (p_train_type prim), traffic, stolen, (p_block_num prim);
    cbn in Hp, Hc; injection Hp as <-; cbn; try lia; destruct Hc as [?|[?|?]]; done.
Qed.

Lemma ul_channels prim traffic stolen :
  carries_control (determine_logical_channel_ul prim traffic stolen) \/
  determine_logical_channel_ul prim traffic stolen = TchS.
Proof.
  unfold determine_logical_channel_ul, carries_control.
  destruct (p_burst_type prim), (p_train_type prim), traffic, stolen, (p_block_num prim); cbn; tauto.
Qed.

(** From the logical channel on. *)
Lemma dispatch_total l prim time diag pchan traffic stolen (finish : LmacBs -> LmacBs) :
  lm_ok l -> wf (block (p_blk prim)) -> pos (block (p_blk prim)) = start (block (p_blk prim)) ->
  block_type (p_blk prim) <> SB1 -> burst_bits prim <= length (window (block (p_blk prim))) -> Tdma.valid time ->
  (forall x, lm_ok x -> lm_ok (finish x) /\ l_dltime (finish x) = l_dltime x) ->
  let lchan := determine_logical_channel_ul prim traffic stolen in
  exists l' msgs,
    match lchan with
    | Clch => Some (finish l, [])
    | TchS | Tch24 | Tch48 | Tch72 =>
        msgs ← bs_rx_blk_traffic l prim lchan time; Some (finish l, msgs)
    | SchF | SchHu | Stch =>
        '(control_forwarded, self, msgs) ← rx_blk_control l prim lchan time diag;
        if negb control_forwarded && should_fallback_non_traffic_nub_to_tch_s prim pchan then
          more ← bs_rx_blk_traffic self prim TchS time;
          Some (finish self, msgs ++ more)
        else Some (finish self, msgs)
    | _ => Some (l, [])
    end = Some (l', msgs) /\ lm_ok l' /\ l_dltime l' = l_dltime l /\ length msgs <= 1 /\ Forall (msg_ok prim) msgs.
Proof.
  intros O W P Hsb Hl V Hf lchan. destruct (ul_channels prim traffic stolen) as [Hc|Hc]; fold lchan in Hc.
  - destruct (get_params lchan) as [params|] eqn:Hp; [|by destruct Hc as [E|[E|E]]; rewrite E in Hp].
    destruct (control_total l prim O W P Hsb time V lchan params diag Hc Hp (needs_block prim traffic stolen params Hl Hp Hc))
      as (fwd & l' & msgs & E & O' & Hs & Hn & Hm).
    assert (G : exists l'' msgs', (if negb fwd && should_fallback_non_traffic_nub_to_tch_s prim pchan then
        more ← bs_rx_blk_traffic l' prim TchS time; Some (finish l', msgs ++ more) else Some (finish l', msgs)) = Some (l'', msgs') /\
        lm_ok l'' /\ l_dltime l'' = l_dltime l /\ length msgs' <= 1 /\ Forall (msg_ok prim) msgs').
    { destruct (Hf l' O') as [Of Hd]. destruct Hs as (Hs & _). destruct (negb fwd && _) eqn:Efb.
      - apply andb_true_iff in Efb as [Hfwd Hfb]. apply negb_true_iff in Hfwd as ->.
        destruct (traffic_total l' prim W time V TchS) as (more & -> & Hm1 & Hm2).
        { intros Hb. unfold should_fallback_non_traffic_nub_to_tch_s in Hfb. rewrite Hb in Hfb.
          apply andb_true_iff in Hfb as [H1 H2]. apply andb_true_iff in H1 as [_ H1]. apply bool_decide_eq_true in H1.
          unfold burst_bits in Hl. rewrite H1 in Hl. destruct (p_train_type prim); cbn in H2; done. }
        rewrite bind_Some. destruct msgs; [|done]. eexists _, _. split; [done|]. split; [done|]. by rewrite Hd.
      - eexists _, _. split; [done|]. split; [done|]. rewrite Hd. split; [done|]. split; [destruct fwd; lia|done]. }
    destruct Hc as [Ec|[Ec|Ec]]; rewrite Ec in E |- *; rewrite E, bind_Some; exact G.
  - rewrite Hc. destruct (traffic_total l prim W time V TchS) as (msgs & -> & Hm).
    { intros Hb. unfold lchan, determine_logical_channel_ul in Hc. unfold burst_bits in Hl. rewrite Hb in Hc.
      destruct (p_burst_type prim); try done. destruct (p_train_type prim); done. }
    rewrite bind_Some. destruct (Hf l O) as [Of Hd]. by eexists _, _.
Qed.

(** ** Blocks that decode *)

Section decodes.
Context (l : LmacBs) (prim : TpInd) (i : nat) (pchan : PhysicalChannel) (marker : option TdmaTime).
Context (O : lm_ok l) (Hi : ul_ts_index (t (ul_time_of l)) = Some i).
Context (Hp : uplink_phy_chan l !! i = Some pchan) (Hm : blk2_stolen_at l !! i = Some marker).
Let stolen : bool := bool_decide (marker = Some (ul_time_of l)) && negb (bool_decide (p_block_num prim = Block1)).
Let lchan : LogicalChannel := determine_logical_channel_ul prim (bool_decide (pchan = Tp)) stolen.

(** The state afterwards: the marker of the timeslot is used up. *)
Definition marker_used (l' : LmacBs) : Prop :=
  lm_ok l' /\ l_dltime l' = l_dltime l /\ l_scrambling_code l' = l_scrambling_code l /\
  uplink_phy_chan l' = uplink_phy_chan l /\ blk2_stolen_at l' = <[i := None]> (blk2_stolen_at l).

Lemma marker_cases (l1 : LmacBs) :
  lm_ok l1 -> same_but_diag l l1 -> p_block_num prim = Block1 \/ p_block_num prim = Block2 ->
  let l2 := if bool_decide (is_Some marker) && negb (bool_decide (marker = Some (ul_time_of l))) then set_stolen l1 i None else l1 in
  let l3 := if bool_decide (p_block_num prim = Block1) && bool_decide (marker = Some (ul_time_of l)) then set_stolen l2 i None else l2 in
  l_dltime l3 = l_dltime l /\ l_scrambling_code l3 = l_scrambling_code l /\ lm_ok l3 /\
  forall l4, lm_ok l4 -> same_but_diag l3 l4 ->
    marker_used (if bool_decide (p_block_num prim = Block2) && stolen then set_stolen l4 i None else l4).
Proof using Hm.
  clear lchan Hp pchan. intros O1 (D1 & S1 & C1 & B1) Hb l2 l3. subst l2 l3.
  assert (Hid : marker = None -> blk2_stolen_at l = <[i := None]> (blk2_stolen_at l)).
  { intros E. rewrite E in Hm. by rewrite list_insert_id. }
  assert (Hii : forall x : option TdmaTime, <[i := None]> (<[i := x]> (blk2_stolen_at l)) = <[i := None]> (blk2_stolen_at l)).
  { intros x. apply list_insert_insert_eq. }
  unfold stolen. destruct (bool_decide (marker = Some (ul_time_of l))) eqn:Es.
  - rewrite andb_false_r. destruct Hb as [-> | ->]; cbn [bool_decide].
    + change (bool_decide (Block1 = Block1)) with true. change (bool_decide (Block1 = Block2)) with false. cbn [andb].
      split; [done|]. split; [done|]. split; [by auto with lmac|]. intros l4 O4 (D4 & S4 & C4 & B4). cbn in *.
      split; [done|]. split; [congruence|]. split; [congruence|]. split; [congruence|]. by rewrite B4, B1.
    + change (bool_decide (Block2 = Block1)) with false. change (bool_decide (Block2 = Block2)) with true. cbn [andb negb].
      split; [done|]. split; [done|]. split; [done|]. intros l4 O4 (D4 & S4 & C4 & B4).
      split; [by auto with lmac|]. cbn. split; [congruence|]. split; [congruence|]. split; [congruence|]. by rewrite B4, B1.
  - cbn [andb negb]. rewrite !andb_false_r, andb_true_r. destruct (bool_decide (is_Some marker)) eqn:Ei.
    + split; [done|]. split; [done|]. split; [by auto with lmac|]. intros l4 O4 (D4 & S4 & C4 & B4). cbn in *.
      split; [done|]. split; [congruence|]. split; [congruence|]. split; [congruence|]. by rewrite B4, B1.
    + apply bool_decide_eq_false, eq_None_not_Some in Ei. split; [done|]. split; [done|]. split; [done|].
      intros l4 O4 (D4 & S4 & C4 & B4).
      split; [done|]. split; [congruence|]. split; [congruence|]. split; [congruence|]. rewrite B4, B1. by apply Hid.
Qed.
Lemma control_forwards l1 c time diag x :
  lm_ok l1 -> Tdma.valid time -> carries_control c ->
  decode_cp c (p_blk prim) (Some (l_scrambling_code l1)) = Some (Some x, true) ->
  exists l2, rx_blk_control l1 prim c time diag
    = Some (true, l2, [TmvIndMsg (mkTmvInd x (p_block_num prim) c (l_scrambling_code l1)) (p_rssi prim)]) /\
    lm_ok l2 /\ same_but_diag l1 l2.
Proof using.
  intros O1 V Hc E. unfold rx_blk_control.
  assert (Hctl : negb (is_control_channel c) || bool_decide (c = Aach) = false) by (by destruct Hc as [-> | [-> | -> ]]).
  rewrite Hctl. apply Tdma.valid_bounds in V. assert (H4 : Z.to_nat (t time - 1) < 4) by lia.
  assert (Hd : exists b l2, match diag with Some _ => Some (true, l1) | None => take_control_rx_diag_event l1 time (Z.to_nat (t time - 1)) end
                = Some (b, l2) /\ lm_ok l2 /\ same_but_diag l1 l2).
  { destruct diag; [|by apply take_control_total]. eexists _, _. split; [done|]. split; [done|by repeat split]. }
  destruct Hd as (b & l2 & -> & O2 & Hs). rewrite bind_Some. pose proof Hs as (_ & Sc & _).
  rewrite Sc, E, bind_Some. by exists l2.
Qed.

(** A signalling block that decodes goes to the upper MAC. *)
Lemma rx_tp_control x :
  p_block_num prim = Block1 \/ p_block_num prim = Block2 -> (stolen = true -> pchan = Tp) -> carries_control lchan ->
  decode_cp lchan (p_blk prim) (Some (l_scrambling_code l)) = Some (Some x, true) ->
  exists l', bs_rx_tp_prim l prim
    = Some (l', [TmvIndMsg (mkTmvInd x (p_block_num prim) lchan (l_scrambling_code l)) (p_rssi prim)]) /\ marker_used l'.
Proof using O Hi Hp Hm.
  intros Hb Htp Hc E. unfold bs_rx_tp_prim. cbv zeta. rewrite Hi, Hp, bind_Some, Hm, bind_Some.
  assert (V : Tdma.valid (ul_time_of l)) by apply from_int_valid.
  destruct (take_post_total l (ul_time_of l) O) as (diag & l1 & -> & O1 & Hs1). rewrite bind_Some.
  pose proof (marker_cases l1 O1 Hs1 Hb) as HM. cbv zeta in HM.
  set (l3 := if bool_decide (p_block_num prim = Block1) && _ then _ else _) in *.
  assert (Est : bool_decide (marker = Some (ul_time_of l)) && negb (bool_decide (p_block_num prim = Block1) && bool_decide (marker = Some (ul_time_of l)))
    = stolen) by (unfold stolen; by destruct (bool_decide (marker = _)), (bool_decide (p_block_num prim = Block1))).
  rewrite Est. fold lchan. destruct HM as (D3 & S3 & O3 & HM).
  assert (Etp : negb (bool_decide (pchan = Tp)) && stolen = false).
  { destruct stolen; [|by rewrite andb_false_r]. by rewrite bool_decide_eq_true_2 by (by apply Htp). }
  rewrite Etp. rewrite <- S3 in E.
  destruct (control_forwards l3 lchan (ul_time_of l) diag x O3 V Hc E) as (l4 & E4 & O4 & Hs4).
  rewrite E4, bind_Some. rewrite S3.
  assert (Hmatch : forall A (a b c d : A), match lchan with Clch => a | TchS | Tch24 | Tch48 | Tch72 => b | SchF | SchHu | Stch => c | _ => d end = c).
  { intros. destruct Hc as [-> | [-> | ->]]; done. }
  rewrite Hmatch. cbn [negb andb]. eexists. split; [done|]. by apply HM.
Qed.

(** A second half slot that was not stolen is passed on as it is. *)
Lemma rx_tp_raw bits :
  p_burst_type prim = BurstNUB -> p_train_type prim = NormalTrainSeq2 -> p_block_num prim = Block2 ->
  marker <> Some (ul_time_of l) ->
  holds (block (p_blk prim)) bits -> start (block (p_blk prim)) = 0 -> length bits = 216 ->
  exists l', bs_rx_tp_prim l prim = Some (l', [TmdCircuitDataInd (t (ul_time_of l)) (b2z <$> bits) (Some Block2)]) /\ marker_used l'.
Proof using O Hi Hp Hm.
  intros Ebt Ett Hb Hmk Hh Hst Hl. unfold bs_rx_tp_prim. cbv zeta. rewrite Hi, Hp, bind_Some, Hm, bind_Some.
  destruct (take_post_total l (ul_time_of l) O) as (diag & l1 & -> & O1 & Hs1). rewrite bind_Some.
  pose proof (marker_cases l1 O1 Hs1 (or_intror Hb)) as HM. cbv zeta in HM. unfold stolen in HM.
  rewrite (bool_decide_eq_false_2 _ Hmk) in *. rewrite !andb_false_r in *. cbn [andb negb] in *. rewrite ?andb_false_r in *.
  unfold determine_logical_channel_ul. rewrite Ebt, Ett, Hb. destruct HM as (D3 & S3 & O3 & HM).
  unfold bs_rx_blk_traffic. cbn [negb bool_decide]. change (bool_decide (TchS = TchS)) with true. cbn [negb]. rewrite Hb.
  pose proof (holds_len _ _ Hh) as HL. rewrite Hl in HL.
  rewrite (into_bitvec_spec _ (ho_wf _ _ Hh)), bind_Some. unfold get_len in *. rewrite HL.
  assert (EB : getbits (buffer (block (p_blk prim))) 0 216 = bits).
  { pose proof (ho_window _ _ Hh) as Hw. unfold window in Hw. by rewrite Hst in *; replace (end_ (block (p_blk prim)) - 0) with 216 in Hw by lia. }
  rewrite EB, length_fmap, Hl. change (negb (216 =? 216)) with false. cbn iota. rewrite bind_Some. eexists. split; [done|].
  apply HM; [done|by repeat split].
Qed.
End decodes.

(** C26 (every received burst is handled). Whatever bits the physical layer delivers for a
    control, full-slot or half-slot burst, whatever burst and training sequence the
    demodulator reports, and whatever kind of uplink the slot is marked with: [rx_tp_prim]
    does not panic, keeps the per-timeslot state in order and passes on at most one
    message, which is a whole type-1 signalling block, 274 speech bits or the 216 bits of a
    second half slot. *)
Theorem bs_rx_tp_prim_total l prim :
  lm_ok l -> wf (block (p_blk prim)) -> pos (block (p_blk prim)) = start (block (p_blk prim)) ->
  block_type (p_blk prim) <> SB1 -> burst_bits prim <= length (window (block (p_blk prim))) ->
  exists l' msgs, bs_rx_tp_prim l prim = Some (l', msgs) /\ lm_ok l' /\ l_dltime l' = l_dltime l /\
    length msgs <= 1 /\ Forall (msg_ok prim) msgs.
Proof.
  intros O W P Hsb Hl. unfold bs_rx_tp_prim. destruct (ul_time_index l) as (i & Ei & Hi & _).
  assert (V : Tdma.valid (ul_time_of l)) by apply from_int_valid. cbv zeta. rewrite Ei.
  destruct (lookup_lt_is_Some_2 (uplink_phy_chan l) i) as [pchan ->]; [rewrite (lk_chan _ O); lia|]. rewrite bind_Some.
  destruct (lookup_lt_is_Some_2 (blk2_stolen_at l) i) as [marker ->]; [rewrite (lk_stolen _ O); lia|]. rewrite bind_Some.
  destruct (take_post_total l (ul_time_of l) O) as (diag & l1 & -> & O1 & Hd1 & _). rewrite bind_Some.
  set (stolen := bool_decide (marker = Some (ul_time_of l))).
  set (l2 := if bool_decide (is_Some marker) && negb stolen then set_stolen l1 i None else l1).
  set (reset := bool_decide (p_block_num prim = Block1) && stolen).
  set (l3 := if reset then set_stolen l2 i None else l2).
  assert (O3 : lm_ok l3 /\ l_dltime l3 = l_dltime l).
  { unfold l3, l2. destruct reset, (_ && _); (split; [by auto with lmac|exact Hd1]). }
  destruct O3 as [O3 Hd3]. destruct (_ && (stolen && _)).
  { eexists _, []. split; [done|]. split; [by auto with lmac|]. split; [done|]. split; [cbn; lia|constructor]. }
  destruct (dispatch_total l3 prim (ul_time_of l) diag pchan (bool_decide (pchan = Tp)) (stolen && negb reset)
    (fun self => if bool_decide (p_block_num prim = Block2) && (stolen && negb reset) then set_stolen self i None else self))
    as (l' & msgs & E & O' & Hd' & Hm); try done.
  { intros x Ox. destruct (bool_decide (p_block_num prim = Block2) && _); (split; [by auto with lmac|done]). }
  exists l', msgs. split; [exact E|]. split; [done|]. by rewrite Hd', Hd3.
Qed.

Lemma bs_rx_tp_prim_total_witness :
  let prim := mkTp ExtendedTrainSeq CUB Block1 {| block_type := SSN1; block := new 168 |} None in
  exists l' msgs, bs_rx_tp_prim (LmacBs_new 204 1337 1) prim = Some (l', msgs) /\ lm_ok l' /\
    length msgs <= 1 /\ Forall (msg_ok prim) msgs.
Proof.
  intros prim. assert (L : burst_bits prim <= length (window (block (p_blk prim)))) by (apply Nat.leb_le; vm_compute; reflexivity).
  destruct (bs_rx_tp_prim_total (LmacBs_new 204 1337 1) prim (LmacBs_new_ok _ _ _) (wf_new 168) eq_refl (fun e => ltac:(discriminate e)) L)
    as (l' & msgs & E & O & _ & H).
  exists l', msgs. exact (conj E (conj O H)).
Defined.
