(* ===== verification/Router.v ===== *)
(** * The message router (crates/tetra-entities/src/messagerouter.rs, entity_trait.rs)

    All entities of the stack exchange messages through one queue.  An entity that handles
    a message may push further messages, at the back or, with immediate priority, at the
    front, and may remove waiting ones.  What an entity is, is an interface here; the
    station of Station.v is one instance. *)

From Stdlib Require Import ZArith Lia Wellfounded.
From stdpp Require Import gmap strings.
From S2P Require Import Prelude.
From S2P Require Import Tdma.

(** ** The queue *)

Inductive MessagePrio := Immediate | Normal.

Section queue.
Context {Msg : Type}.
Implicit Types (self : list Msg) (message : Msg).

Definition push_back self message : list Msg := self ++ [message].
Definition push_prio self message (prio : MessagePrio) : list Msg :=
  match prio with Immediate => message :: self | Normal => self ++ [message] end.
Definition pop_front self : option Msg * list Msg :=
  match self with [] => (None, []) | message :: rest => (Some message, rest) end.
Definition retain self (f : Msg -> bool) : list Msg := List.filter f self.
End queue.

(** ** Entities *)

Inductive TetraEntity := Phy | Lmac | Umac | Llc | Mle | Mm | Cmce | Sndcp | User | Brew.
#[export] Instance TetraEntity_eq_dec : EqDecision TetraEntity.
Proof. solve_decision. Defined.

Definition TetraEntity_code (e : TetraEntity) : nat :=
  match e with Phy => 0 | Lmac => 1 | Umac => 2 | Llc => 3 | Mle => 4 | Mm => 5 | Cmce => 6 | Sndcp => 7
             | User => 8 | Brew => 9 end.
Definition TetraEntity_decode (n : nat) : option TetraEntity :=
  [Phy; Lmac; Umac; Llc; Mle; Mm; Cmce; Sndcp; User; Brew] !! n.
#[export] Program Instance TetraEntity_countable : Countable TetraEntity :=
  inj_countable TetraEntity_code TetraEntity_decode _.
Next Obligation. by intros []. Qed.

(** [None] is a panic. *)
Class TetraEntityTrait (E Msg : Type) := {
  get_dest : Msg -> TetraEntity;
  rx_prim : E -> list Msg -> Msg -> option (E * list Msg)
}.

(** The calls at the start and the end of a timeslot, which delivery does not use. *)
Class TetraEntityTicks (E Msg : Type) := {
  tick_start : E -> list Msg -> TdmaTime -> option (E * list Msg);
  tick_end : E -> list Msg -> TdmaTime -> option (E * list Msg)
}.

(** ** The router *)

Section router.
Context {E Msg : Type} {Ent : TetraEntityTrait E Msg}.

Record MessageRouter := mkRouter {
  entities : gmap TetraEntity E;
  msg_queue : list Msg;
  r_ts : TdmaTime
}.

Definition MessageRouter_new : MessageRouter := mkRouter ∅ [] TdmaTime_default.
Definition set_dl_time (self : MessageRouter) (ts : TdmaTime) : MessageRouter :=
  mkRouter (entities self) (msg_queue self) ts.
Definition register_entity (self : MessageRouter) (comp_type : TetraEntity) (entity : E) : MessageRouter :=
  mkRouter (<[comp_type := entity]> (entities self)) (msg_queue self) (r_ts self).
Definition submit_message (self : MessageRouter) (message : Msg) : MessageRouter :=
  mkRouter (entities self) (push_back (msg_queue self) message) (r_ts self).
Definition get_msgqueue_len (self : MessageRouter) : nat := length (msg_queue self).

Definition deliver_message (self : MessageRouter) : option MessageRouter :=
  match pop_front (msg_queue self) with
  | (None, q) => Some (mkRouter (entities self) q (r_ts self))
  | (Some message, q) =>
      match entities self !! get_dest message with
      | Some entity =>
          '(entity, q) ← rx_prim entity q message;
          Some (mkRouter (<[get_dest message := entity]> (entities self)) q (r_ts self))
      | None => Some (mkRouter (entities self) q (r_ts self))
      end
  end.

(** The [while] loop; the inner [None] is the fuel running out. *)
Fixpoint deliver_all_messages (fuel : nat) (self : MessageRouter) : option (option MessageRouter) :=
  match msg_queue self with
  | [] => Some (Some self)
  | _ :: _ =>
      match fuel with
      | 0 => Some None
      | S fuel => self ← deliver_message self; deliver_all_messages fuel self
      end
  end.

(** An end-of-tick call of one entity, if it is registered. *)
Definition call_tick (tick : E -> list Msg -> TdmaTime -> option (E * list Msg)) (self : MessageRouter)
  (target : TetraEntity) : option MessageRouter :=
  match entities self !! target with
  | Some entity =>
      '(entity, q) ← tick entity (msg_queue self) (r_ts self);
      Some (mkRouter (<[target := entity]> (entities self)) q (r_ts self))
  | None => Some self
  end.

Section ticks.
Context {Ticks : TetraEntityTicks E Msg}.

(** All entities, in the order [order] in which the hash map yields them. *)
Definition router_tick_start (order : list TetraEntity) (self : MessageRouter) : option MessageRouter :=
  foldM (call_tick tick_start) order self.

Definition router_tick_end (order : list TetraEntity) (fuel : nat) (self : MessageRouter)
  : option (option MessageRouter) :=
  self ← call_tick tick_end self Llc;
  self ← deliver_all_messages fuel self;
  match self with
  | None => Some None
  | Some self =>
      self ← call_tick tick_end self Umac;
      self ← deliver_all_messages fuel self;
      match self with
      | None => Some None
      | Some self =>
          self ← foldM (call_tick tick_end)
                   (List.filter (fun e => negb (bool_decide (e = Llc) || bool_decide (e = Umac))) order) self;
          self ← deliver_all_messages fuel self;
          Some (match self with
                | None => None
                | Some self => Some (mkRouter (entities self) (msg_queue self) (add_timeslots (r_ts self) 1))
                end)
      end
  end.
End ticks.

(** ** Facts *)

(** Delivery order: immediate messages are delivered before everything that waits. *)
Lemma deliver_next ents m q ts e e' q' :
  ents !! get_dest m = Some e -> rx_prim e q m = Some (e', q') ->
  deliver_message (mkRouter ents (m :: q) ts) = Some (mkRouter (<[get_dest m := e']> ents) q' ts).
Proof. intros He Hr. unfold deliver_message. cbn. by rewrite He, Hr. Qed.

Lemma deliver_all_step fuel self self' :
  msg_queue self <> [] -> deliver_message self = Some self' ->
  deliver_all_messages (S fuel) self = deliver_all_messages fuel self'.
Proof. intros Hq E'. cbn. destruct (msg_queue self); [done|]. by rewrite E'. Qed.

Lemma deliver_all_done fuel self : msg_queue self = [] -> deliver_all_messages fuel self = Some (Some self).
Proof. intros H. destruct fuel; cbn; by rewrite H. Qed.

(** ** The queue runs dry *)

Section ranked.
Context (rank : Msg -> nat).

(** [q'] is [q] with one message taken out, some waiting ones gone with it, and messages of
    lower rank come in, anywhere. *)
Definition consumes (q' q : list Msg) : Prop :=
  exists m gone keep new, q ≡ₚ m :: gone ++ keep /\ q' ≡ₚ new ++ keep /\ Forall (fun x => rank x < rank m) new.

Lemma consumes_perm q' q1 q2 : q1 ≡ₚ q2 -> consumes q' q1 -> consumes q' q2.
Proof. intros P (m & gone & keep & new & H1 & H2). exists m, gone, keep, new. by rewrite <- P. Qed.

Lemma acc_perm q1 q2 : q1 ≡ₚ q2 -> Acc consumes q1 -> Acc consumes q2.
Proof. intros P [H]. constructor. intros q' Hq. apply H. by eapply consumes_perm; [|exact Hq]. Qed.

Lemma acc_sub gone keep : Acc consumes (gone ++ keep) -> Acc consumes keep.
Proof.
  induction gone as [|m gone IH]; [done|]. cbn. intros [H]. apply IH, H. exists m, [], (gone ++ keep), [].
  split; [done|]. split; [done|constructor].
Qed.

Lemma acc_app new q :
  Forall (fun x => forall l, Acc consumes l -> Acc consumes (x :: l)) new -> Acc consumes q -> Acc consumes (new ++ q).
Proof. induction 1 as [|x new H _ IH]; cbn; [done|]. intros A. by apply H, IH. Qed.

Lemma acc_cons m : forall q, Acc consumes q -> Acc consumes (m :: q).
Proof.
  induction m as [m IHm] using (induction_ltof1 _ rank). unfold ltof in IHm.
  intros q A. induction A as [q A IHq]. constructor. intros q' (x & gone & keep & new & H1 & H2 & H3).
  assert (Hm : m = x \/ m ∈ gone \/ m ∈ keep).
  { assert (Hin : m ∈ x :: gone ++ keep) by (rewrite <- H1; left).
    apply elem_of_cons in Hin as [Hin|Hin]; [by left|]. apply elem_of_app in Hin as [Hin|Hin]; by auto. }
  destruct Hm as [<-|[Hm|Hm]].
  - apply (Permutation_cons_inv (a := m)) in H1. apply (acc_perm (new ++ keep)); [done|]. apply acc_app.
    + eapply Forall_impl; [exact H3|]. intros y Hy l. by apply IHm.
    + apply (acc_sub gone). apply (acc_perm q); [done|]. by constructor.
  - apply elem_of_Permutation in Hm as [gone' Hg]. apply A. exists x, gone', keep, new. split; [|done].
    rewrite Hg in H1. apply (Permutation_cons_inv (a := m)). rewrite H1. cbn. apply Permutation_swap.
  - apply elem_of_Permutation in Hm as [keep' Hk]. apply (acc_perm (m :: new ++ keep')).
    { rewrite H2, Hk. apply Permutation_middle. }
    apply IHq. exists x, gone, keep', new. split; [|done]. rewrite Hk in H1.
    apply (Permutation_cons_inv (a := m)). rewrite H1, <- Permutation_middle. apply Permutation_swap.
Qed.

Lemma consumes_wf : well_founded consumes.
Proof.
  intros q. induction q as [|m q IH]; [|by apply acc_cons]. constructor. intros q' (m & gone & keep & new & H & _).
  apply Permutation_nil in H. done.
Qed.

(** Every handler answers with messages of lower rank. *)
Context (Hrank : forall e q m e' q', rx_prim e q m = Some (e', q') ->
  exists gone keep new, q ≡ₚ gone ++ keep /\ q' ≡ₚ new ++ keep /\ Forall (fun x => rank x < rank m) new).

Lemma deliver_consumes self self' :
  msg_queue self <> [] -> deliver_message self = Some self' -> consumes (msg_queue self') (msg_queue self).
Proof using Hrank.
  unfold deliver_message. destruct (msg_queue self) as [|m q]; [done|]. intros _. cbn.
  destruct (entities self !! get_dest m) as [e|].
  - destruct (rx_prim e q m) as [[e' q']|] eqn:Er; [|done]. cbn. intros [= <-]. cbn.
    destruct (Hrank _ _ _ _ _ Er) as (gone & keep & new & H1 & H2 & H3). exists m, gone, keep, new. by rewrite H1.
  - intros [= <-]. cbn. exists m, [], q, []. split; [done|]. split; [done|constructor].
Qed.

Lemma deliver_all_ends self : exists fuel, forall fuel', fuel <= fuel' ->
  match deliver_all_messages fuel' self with
  | None => True
  | Some None => False
  | Some (Some self') => msg_queue self' = []
  end.
Proof using Hrank.
  remember (msg_queue self) as q eqn:Eq. revert self Eq.
  induction q as [q IH] using (well_founded_induction consumes_wf). intros self ->.
  destruct (msg_queue self) as [|m q] eqn:Eq.
  { exists 0. intros fuel' _. by rewrite deliver_all_done. }
  destruct (deliver_message self) as [self'|] eqn:Ed.
  - pose proof (deliver_consumes self self' ltac:(by rewrite Eq) Ed) as Hc. rewrite Eq in Hc.
    destruct (IH _ Hc self' eq_refl) as [fuel Hf]. exists (S fuel). intros [|fuel'] Hle; [lia|].
    rewrite (deliver_all_step fuel' self self') by (by rewrite ?Eq). apply Hf. lia.
  - exists 1. intros [|fuel'] Hle; [lia|]. cbn. by rewrite Eq, Ed.
Qed.
End ranked.
End router.
Arguments MessageRouter : clear implicits.
