(* ===== verification/Phy.v ===== *)
(** * The physical layer's burst formats (crates/tetra-entities/src/phy)

    Between the coded blocks of the lower MAC and the bits of a burst: building downlink
    bursts and the mobile's control burst (components/slotter.rs with the offsets of
    burst_consts.rs), splitting received bursts into blocks and assembling the slot for
    transmission (phy_bs.rs).  The radio device is what returns the received slots; signal
    processing is outside this model. *)

From Stdlib Require Import ZArith Lia ZifyNat.
From stdpp Require Import gmap strings.
From S2P Require Import Prelude.
From S2P Require Import BitBuffer.
From S2P Require Import BitBufferFacts.
From S2P Require Import Scrambler.
From S2P Require Import ErrorControl.
From S2P Require Import Tdma.
From S2P Require Import Codec.
From S2P Require Import MacFields.
From S2P Require Import MacPdus.
From S2P Require Import Robust.
From S2P Require Import UmacMs.
From S2P Require Import Lmac.

(** ** Bit sequences *)

Module bitseq.
Definition n : list Z := [1; 1; 0; 1; 0; 0; 0; 0; 1; 1; 1; 0; 1; 0; 0; 1; 1; 1; 0; 1; 0; 0]%Z.
Definition p : list Z := [0; 1; 1; 1; 1; 0; 1; 0; 0; 1; 0; 0; 0; 0; 1; 1; 0; 1; 1; 1; 1; 0]%Z.
Definition q : list Z := [1; 0; 1; 1; 0; 1; 1; 1; 0; 0; 0; 0; 0; 1; 1; 0; 1; 0; 1; 1; 0; 1]%Z.
Definition x : list Z :=
  [1; 0; 0; 1; 1; 1; 0; 1; 0; 0; 0; 0; 1; 1; 1; 0; 1; 0; 0; 1; 1; 1; 0; 1; 0; 0; 0; 0; 1; 1]%Z.
Definition y : list Z :=
  [1; 1; 0; 0; 0; 0; 0; 1; 1; 0; 0; 1; 1; 1; 0; 0; 1; 1; 1; 0; 1; 0; 0; 1; 1; 1; 0; 0; 0; 0; 0; 1;
   1; 0; 0; 1; 1; 1]%Z.
Definition t : list Z := [1; 1; 0; 0]%Z.
Definition f : list Z := replicate 8 1%Z ++ replicate 64 0%Z ++ replicate 8 1%Z.
End bitseq.

(** ** Offsets *)

Definition TIMESLOT_TYPE4_BITS : nat := 255 * 2.
Definition CUB_BITS : nat := 4 + 84 + 30 + 84 + 4.
Definition CUB_BLK_BITS : nat := 84.
Definition CUB_BLK1_OFFSET : nat := 4.
Definition CUB_TRAINING_OFFSET : nat := 4 + 84.
Definition CUB_BLK2_OFFSET : nat := 4 + 84 + 30.
Definition CUB_TAILBITS_OFFSET : nat := 4 + 84 + 30 + 84.
Definition CUB_BURST_BITS : nat := CUB_TAILBITS_OFFSET + 4.
Definition NUB_BITS : nat := 4 + 216 + 22 + 216 + 4.
Definition NUB_BLK_BITS : nat := 216.
Definition NUB_BLK1_OFFSET : nat := 4.
Definition NUB_BLK2_OFFSET : nat := 4 + 216 + 22.
Definition SEQ_SYNC_OFFSET : nat := 214.
Definition SEQ_NORM_DL_OFFSET : nat := 244.

(** ** Phase adjustment *)

Inductive PhaseAdjustBits := HA | HB | HC | HD | HE | HF | HG | HH | HI | HJ.

Definition PHASE_ADJ (pan : PhaseAdjustBits) : nat * nat :=
  match pan with
  | HA => (8, 122) | HB => (123, 249) | HC => (8, 108) | HD => (109, 249) | HE => (112, 230)
  | HF => (1, 111) | HG => (3, 117) | HH => (118, 224) | HI => (3, 103) | HJ => (104, 224)
  end.

Definition calc_phase_adj (phase : Z) : Z :=
  let adj_phase := (- Z.rem phase 8)%Z in
  if (3 <? adj_phase)%Z then (adj_phase - 8)%Z else if (adj_phase <? -3)%Z then (adj_phase + 8)%Z else adj_phase.

Definition BITS2PHASE : list Z := [1; -1; 3; -3]%Z.

Definition PHASE2BITS : list (Z * list Z) :=
  [(-3, [1; 1]); (0, [0; 0]); (-1, [0; 1]); (0, [0; 0]); (1, [0; 0]); (3, [1; 0])]%Z.

(** [BITS2PHASE[bits[idx] | bits[idx + 1] << 1]] *)
Definition symbol_phase (bits : list Z) (idx : nat) : option Z :=
  b0 ← bits !! idx; b1 ← bits !! S idx;
  BITS2PHASE !! Z.to_nat (Z.lor b0 (u8 (Z.shiftl b1 1))).

Definition sum_up_phase (bits : list Z) (start_symbol n_symbols : nat) : option Z :=
  foldM (fun sum i => ph ← symbol_phase bits (2 * i); Some (i32 (sum + ph))) (seq start_symbol n_symbols) 0%Z.

Definition compute_phase_adj_bits (window : list Z) (pan : PhaseAdjustBits) : option (list Z) :=
  let (n1, n2) := PHASE_ADJ pan in
  sum ← sum_up_phase window (n1 - 1) (n2 - n1 + 1);
  let adj := calc_phase_adj sum in
  Some (match List.find (fun '(ph, _) => (ph =? adj)%Z) PHASE2BITS with Some (_, b) => b | None => [0; 0]%Z end).

(** The phase steps of the modulator (components/modulator.rs), in units of pi/4. *)
Definition dqpsk_step (bit0 bit1 : bool) : Z :=
  match bit0, bit1 with true, true => -3 | true, false => -1 | false, false => 1 | false, true => 3 end.

(** ** Building bursts *)

Definition build_sdb (blk1 bbk blk2 : list Z) : option (list Z) :=
  let type5 := replicate TIMESLOT_TYPE4_BITS 0%Z in
  type5 ← splice type5 0 (drop 10 bitseq.q);
  type5 ← splice type5 14 bitseq.f;
  type5 ← splice type5 94 blk1;
  type5 ← splice type5 214 bitseq.y;
  type5 ← splice type5 252 bbk;
  type5 ← splice type5 282 blk2;
  type5 ← splice type5 500 (take 10 bitseq.q);
  fc1 ← compute_phase_adj_bits type5 HC;
  fc2 ← compute_phase_adj_bits type5 HD;
  type5 ← splice type5 12 fc1;
  splice type5 498 fc2.

Definition build_ndb (train_seq : TrainingSequence) (blk1 bbk blk2 : list Z) : option (list Z) :=
  let type5 := replicate TIMESLOT_TYPE4_BITS 0%Z in
  type5 ← splice type5 0 (drop 10 bitseq.q);
  type5 ← splice type5 14 blk1;
  type5 ← splice type5 230 (take 14 bbk);
  type5 ← (match train_seq with
           | NormalTrainSeq1 => splice type5 244 bitseq.n
           | NormalTrainSeq2 => splice type5 244 bitseq.p
           | _ => Some type5
           end);
  type5 ← splice type5 266 (drop 14 bbk);
  type5 ← splice type5 282 blk2;
  type5 ← splice type5 500 (take 10 bitseq.q);
  fc1 ← compute_phase_adj_bits type5 HA;
  fc2 ← compute_phase_adj_bits type5 HB;
  type5 ← splice type5 12 fc1;
  splice type5 498 fc2.

Definition build_cub (blk : list Z) : option (list Z) :=
  let type5 := replicate CUB_BURST_BITS 0%Z in
  type5 ← splice type5 0 bitseq.t;
  type5 ← splice type5 CUB_BLK1_OFFSET (take CUB_BLK_BITS blk);
  type5 ← splice type5 CUB_TRAINING_OFFSET bitseq.x;
  type5 ← splice type5 CUB_BLK2_OFFSET (drop CUB_BLK_BITS blk);
  splice type5 CUB_TAILBITS_OFFSET bitseq.t.

(** ** Receiving *)

(** [None] for an RSSI that is not finite. *)
Record RxBurstBits := mkRxBurst { x_train_type : TrainingSequence; x_bits : list Z; x_rssi : option Z }.
Record RxSlotBits := mkRxSlot { x_slot : RxBurstBits; x_subslot1 : RxBurstBits; x_subslot2 : RxBurstBits }.

(** [BitBuffer::new(n)] filled from two parts of the burst, rewound. *)
Definition joined_block (bits : list Z) (off1 off2 len : nat) : option BitBuffer :=
  part1 ← slice bits off1 (off1 + len);
  '(_, blk) ← call (copy_bits_from_bitarr part1) (new (len * 2));
  part2 ← slice bits off2 (off2 + len);
  '(_, blk) ← call (copy_bits_from_bitarr part2) blk;
  '(_, blk) ← call (seek 0) blk;
  Some blk.

Definition rxblock (train : TrainingSequence) (burst : BurstType) (bt : PhyBlockType) (num : PhyBlockNum)
  (bits : BitBuffer) (rssi : option Z) : TpInd :=
  mkTp train burst num {| block_type := bt; block := bits |} rssi.

Definition split_rxslot_and_send_to_lmac (burst : RxBurstBits) : option (list TpInd) :=
  let train_seq := x_train_type burst in
  let bits := x_bits burst in
  match train_seq with
  | NormalTrainSeq1 =>
      if negb (length bits =? NUB_BITS) then Some [] else
      blk ← joined_block bits NUB_BLK1_OFFSET NUB_BLK2_OFFSET NUB_BLK_BITS;
      Some [rxblock train_seq BurstNUB NUB BlkBoth blk (x_rssi burst)]
  | NormalTrainSeq2 =>
      if negb (length bits =? NUB_BITS) then Some [] else
      part1 ← slice bits NUB_BLK1_OFFSET (NUB_BLK1_OFFSET + NUB_BLK_BITS);
      blk1 ← from_bitarr part1;
      part2 ← slice bits NUB_BLK2_OFFSET (NUB_BLK2_OFFSET + NUB_BLK_BITS);
      blk2 ← from_bitarr part2;
      Some [rxblock train_seq BurstNUB NUB Block1 blk1 (x_rssi burst);
            rxblock train_seq BurstNUB NUB Block2 blk2 (x_rssi burst)]
  | ExtendedTrainSeq =>
      if negb (length bits =? CUB_BITS) then Some [] else
      blk ← joined_block bits CUB_BLK1_OFFSET CUB_BLK2_OFFSET CUB_BLK_BITS;
      Some [rxblock train_seq CUB SSN1 Block1 blk (x_rssi burst)]
  | _ => Some []
  end.

Definition found_burst (burst : RxBurstBits) : option (list TpInd) :=
  if bool_decide (x_train_type burst = NotFound) then Some [] else split_rxslot_and_send_to_lmac burst.

Definition handle_rx_slots (rx : list (option RxSlotBits)) : option (list TpInd) :=
  foldM (fun acc rx_slot =>
    match rx_slot with
    | None => Some acc
    | Some s =>
        a ← found_burst (x_slot s); b ← found_burst (x_subslot1 s); c ← found_burst (x_subslot2 s);
        Some (acc ++ a ++ b ++ c)
    end) rx [].

(** ** Transmitting *)

(** [prim.blk.unwrap().to_bitarr(&mut [0; n])] *)
Definition take_bits (blk : option BitBuffer) (n : nat) : option (list Z) :=
  b ← blk; '(bits, _) ← call (to_bitarr n) b; Some bits.

(** The burst of a slot; the inner [None] drops it. *)
Definition slot_burst (prim : TpUnitdataReqSlot) : option (option (list Z)) :=
  _ ← assert_ (bool_decide (is_Some (o_bbk prim)));
  bbk ← take_bits (o_bbk prim) 30;
  match o_burst_type prim with
  | SDB =>
      _ ← assert_ (bool_decide (o_train_type prim = SyncTrainSeq));
      _ ← assert_ (bool_decide (is_Some (o_blk1 prim)) && bool_decide (is_Some (o_blk2 prim)));
      blk1 ← take_bits (o_blk1 prim) 120;
      blk2 ← take_bits (o_blk2 prim) 216;
      Some <$> build_sdb blk1 bbk blk2
  | BurstNDB =>
      match o_train_type prim with
      | NormalTrainSeq1 =>
          _ ← assert_ (bool_decide (is_Some (o_blk1 prim)) && negb (bool_decide (is_Some (o_blk2 prim))));
          b ← o_blk1 prim;
          '(blk1, b) ← call (to_bitarr 216) b;
          '(blk2, _) ← call (to_bitarr 216) b;
          Some <$> build_ndb (o_train_type prim) blk1 bbk blk2
      | NormalTrainSeq2 =>
          _ ← assert_ (bool_decide (is_Some (o_blk1 prim)) && bool_decide (is_Some (o_blk2 prim)));
          blk1 ← take_bits (o_blk1 prim) 216;
          blk2 ← take_bits (o_blk2 prim) 216;
          Some <$> build_ndb (o_train_type prim) blk1 bbk blk2
      | _ => Some None
      end
  | _ => None
  end.

(** What is sent, and what goes to the lower MAC for the slots [rx] the device received;
    a dropped burst ends the call before the device is used. *)
Definition rx_tpsap_prim (carrier_inhibited : bool) (prim : TpUnitdataReqSlot) (rx : list (option RxSlotBits))
  : option (option (list Z) * list TpInd) :=
  if carrier_inhibited then msgs ← handle_rx_slots rx; Some (None, msgs)
  else
    burst ← slot_burst prim;
    match burst with
    | None => Some (None, [])
    | Some dl_burst => msgs ← handle_rx_slots rx; Some (Some dl_burst, msgs)
    end.

(** ** Facts: layout *)

(** The next field of an array that is zero from there on. *)
Lemma splice_next (pre src : list Z) off n :
  length pre = off -> length src <= n ->
  splice (pre ++ replicate n 0%Z) off src = Some ((pre ++ src) ++ replicate (n - length src) 0%Z).
Proof.
  intros <- H. replace n with (length src + (n - length src)) at 1 by lia. rewrite replicate_add.
  rewrite splice_app by (by rewrite length_replicate). by rewrite <- app_assoc.
Qed.

(** The same over a gap. *)
Lemma splice_gap (pre src : list Z) off g n :
  length pre + g = off -> g + length src <= n ->
  splice (pre ++ replicate n 0%Z) off src
  = Some ((pre ++ replicate g 0%Z ++ src) ++ replicate (n - g - length src) 0%Z).
Proof.
  intros <- H. replace n with (g + (n - g)) at 1 by lia. rewrite replicate_add, app_assoc.
  rewrite splice_next; [by rewrite <- !app_assoc|rewrite length_app, length_replicate; lia|lia].
Qed.

Lemma build_cub_spec blk :
  length blk = 168 ->
  build_cub blk = Some (bitseq.t ++ take 84 blk ++ bitseq.x ++ drop 84 blk ++ bitseq.t).
Proof.
  intros L. unfold build_cub. change (replicate CUB_BURST_BITS 0%Z) with ([] ++ replicate 206 0%Z).
  assert (L1 : length (take 84 blk) = 84) by (rewrite length_take; lia).
  assert (L2 : length (drop 84 blk) = 84) by (rewrite length_drop; lia).
  unfold CUB_BLK_BITS, CUB_BLK1_OFFSET, CUB_TRAINING_OFFSET, CUB_BLK2_OFFSET, CUB_TAILBITS_OFFSET.
  do 5 (rewrite splice_next; [try step|rewrite ?length_app, ?L1, ?L2; cbn; lia|rewrite ?L1, ?L2; cbn; lia]).
  rewrite L1, L2. cbn [length bitseq.t bitseq.x]. cbn [Nat.sub replicate]. by rewrite app_nil_r, <- !app_assoc.
Qed.

(** ** Facts: received bursts *)

Lemma joined_block_spec bits off1 off2 len p1 p2 :
  slice bits off1 (off1 + len) = Some (b2z <$> p1) -> slice bits off2 (off2 + len) = Some (b2z <$> p2) ->
  length p1 = len -> length p2 = len ->
  exists b, joined_block bits off1 off2 len = Some b /\ holds b (p1 ++ p2) /\ start b = 0.
Proof.
  intros E1 E2 L1 L2. unfold joined_block, call. rewrite E1, bind_Some.
  destruct (copy_bits_from_bitarr_emits p1 (new (len * 2)) (wf_new _)) as (b1 & -> & W1); [left; cbn; lia|].
  rewrite bind_Some, E2, bind_Some. pose proof W1 as [V1 S1 P1 F1 N1 _ _]. cbn in S1, P1, N1.
  destruct (copy_bits_from_bitarr_emits p2 b1 V1) as (b2 & -> & W2); [left; lia|].
  rewrite bind_Some. pose proof (wrote_trans _ _ _ _ _ W1 W2) as [V S P F N B _]. cbn in S, P, N, B.
  destruct (call_rewind b2 V) as [Es Hh]. unfold call in Es. rewrite Es, bind_Some. eexists. split; [done|].
  split; [|done]. rewrite <- B. replace (window b2) with (getbits (buffer b2) 0 (length (p1 ++ p2))) in Hh; [done|].
  unfold window. rewrite length_app in *. f_equal; lia.
Qed.

Lemma slice_fmap_mid (pre l post : list bool) i j :
  length pre = i -> length pre + length l = j -> slice (b2z <$> pre ++ l ++ post) i j = Some (b2z <$> l).
Proof. intros Hi Hj. rewrite !fmap_app. apply slice_mid; by rewrite ?length_fmap. Qed.

(** A burst of any bits, cut where the received bursts are cut. *)
Lemma split_cub head p1 mid p2 tail rssi :
  length head = 4 -> length p1 = 84 -> length mid = 30 -> length p2 = 84 -> length tail = 4 ->
  exists b, split_rxslot_and_send_to_lmac
      (mkRxBurst ExtendedTrainSeq (b2z <$> head ++ p1 ++ mid ++ p2 ++ tail) rssi)
    = Some [rxblock ExtendedTrainSeq CUB SSN1 Block1 b rssi] /\ holds b (p1 ++ p2) /\ start b = 0.
Proof.
  intros L0 L1 Lm L2 L3. unfold split_rxslot_and_send_to_lmac. cbn [x_train_type x_bits x_rssi].
  rewrite length_fmap, !length_app, L0, L1, Lm, L2, L3. change (negb _) with false. cbn iota.
  destruct (joined_block_spec (b2z <$> head ++ p1 ++ mid ++ p2 ++ tail) CUB_BLK1_OFFSET CUB_BLK2_OFFSET CUB_BLK_BITS p1 p2)
    as (b & -> & H); [..|by exists b].
  - apply slice_fmap_mid; unfold CUB_BLK1_OFFSET, CUB_BLK_BITS; lia.
  - replace (head ++ p1 ++ mid ++ p2 ++ tail) with ((head ++ p1 ++ mid) ++ p2 ++ tail) by (by rewrite <- !app_assoc).
    apply slice_fmap_mid; rewrite !length_app; unfold CUB_BLK2_OFFSET, CUB_BLK_BITS; lia.
  - done.
  - done.
Qed.

Lemma split_nub2 head p1 mid p2 tail rssi :
  length head = 4 -> length p1 = 216 -> length mid = 22 -> length p2 = 216 -> length tail = 4 ->
  exists b1 b2, split_rxslot_and_send_to_lmac
      (mkRxBurst NormalTrainSeq2 (b2z <$> head ++ p1 ++ mid ++ p2 ++ tail) rssi)
    = Some [rxblock NormalTrainSeq2 BurstNUB NUB Block1 b1 rssi; rxblock NormalTrainSeq2 BurstNUB NUB Block2 b2 rssi] /\
    holds b1 p1 /\ start b1 = 0 /\ holds b2 p2 /\ start b2 = 0.
Proof.
  intros L0 L1 Lm L2 L3. unfold split_rxslot_and_send_to_lmac. cbn [x_train_type x_bits x_rssi].
  rewrite length_fmap, !length_app, L0, L1, Lm, L2, L3. change (negb _) with false. cbn iota.
  destruct (from_bitarr_holds p1) as (b1 & E1 & H1 & S1 & _), (from_bitarr_holds p2) as (b2 & E2 & H2 & S2 & _).
  rewrite (slice_fmap_mid head p1 (mid ++ p2 ++ tail) NUB_BLK1_OFFSET (NUB_BLK1_OFFSET + NUB_BLK_BITS)) by (unfold NUB_BLK1_OFFSET, NUB_BLK_BITS; lia). rewrite bind_Some, E1, bind_Some.
  replace (head ++ p1 ++ mid ++ p2 ++ tail) with ((head ++ p1 ++ mid) ++ p2 ++ tail) by (by rewrite <- !app_assoc).
  rewrite slice_fmap_mid by (rewrite ?length_app; unfold NUB_BLK2_OFFSET, NUB_BLK_BITS; lia).
  rewrite bind_Some, E2, bind_Some. by exists b1, b2.
Qed.

(** The mobile's control burst, taken apart by the base station. *)
Lemma cub_roundtrip blk rssi :
  length blk = 168 ->
  exists burst b, build_cub (b2z <$> blk) = Some burst /\
    split_rxslot_and_send_to_lmac (mkRxBurst ExtendedTrainSeq burst rssi)
    = Some [rxblock ExtendedTrainSeq CUB SSN1 Block1 b rssi] /\ holds b blk /\ start b = 0.
Proof.
  intros L. rewrite build_cub_spec by (by rewrite length_fmap).
  rewrite <- fmap_take, <- fmap_drop.
  assert (Ht : bitseq.t = b2z <$> [true; true; false; false]) by done.
  destruct (bits_of_array bitseq.x) as (xs & Ex); [by repeat (constructor; [(by left) || (by right)|])|].
  rewrite Ht, Ex, <- !fmap_app.
  destruct (split_cub [true; true; false; false] (take 84 blk) xs (drop 84 blk) [true; true; false; false] rssi)
    as (b & E & Hb & Sb); try done; [rewrite length_take; lia| |rewrite length_drop; lia|].
  { apply (f_equal length) in Ex. by rewrite length_fmap in Ex. }
  rewrite take_drop in Hb. by eexists _, b.
Qed.

(** ** Facts: phases *)

(** Phase a stretch of symbols turns by, in units of pi/4. *)
Fixpoint phase_sum (bs : list bool) (i n : nat) : Z :=
  match n with
  | 0 => 0%Z
  | S n => (dqpsk_step (nth (2 * i) bs false) (nth (2 * i + 1) bs false) + phase_sum bs (S i) n)%Z
  end.

Lemma symbol_phase_spec bs i :
  2 * i + 1 < length bs ->
  symbol_phase (b2z <$> bs) (2 * i) = Some (dqpsk_step (nth (2 * i) bs false) (nth (2 * i + 1) bs false)).
Proof.
  intros H. unfold symbol_phase. rewrite !list_lookup_fmap.
  destruct (lookup_lt_is_Some_2 bs (2 * i)) as [x Hx]; [lia|]. destruct (lookup_lt_is_Some_2 bs (S (2 * i))) as [y Hy]; [lia|].
  rewrite Hx, Hy. replace (2 * i + 1) with (S (2 * i)) by lia.
  rewrite (nth_lookup_Some _ _ _ _ Hx), (nth_lookup_Some _ _ _ _ Hy). by destruct x, y.
Qed.

Lemma dqpsk_step_bound a b : (-3 <= dqpsk_step a b <= 3)%Z /\ (dqpsk_step a b mod 2 = 1)%Z.
Proof. by destruct a, b. Qed.

Lemma phase_sum_mod bs i n : (phase_sum bs i n mod 2 = Z.of_nat n mod 2)%Z.
Proof.
  revert i. induction n as [|n IH]; intros i; [done|]. cbn [phase_sum]. specialize (IH (S i)).
  destruct (dqpsk_step_bound (nth (2 * i) bs false) (nth (2 * i + 1) bs false)) as [_ H].
  set (d := dqpsk_step _ _) in *. Z.to_euclidean_division_equations. lia.
Qed.

Lemma sum_up_phase_acc bs n : forall i acc,
  2 * (i + n) <= length bs -> n <= 1000 -> (Z.abs acc <= 3 * (1000 - Z.of_nat n))%Z ->
  foldM (fun sum i => ph ← symbol_phase (b2z <$> bs) (2 * i); Some (i32 (sum + ph))) (seq i n) acc
  = Some (acc + phase_sum bs i n)%Z.
Proof.
  induction n as [|n IH]; intros i acc Hl Hn Ha; [cbn; f_equal; lia|]. cbn [seq foldM phase_sum].
  rewrite symbol_phase_spec, bind_Some by lia.
  destruct (dqpsk_step_bound (nth (2 * i) bs false) (nth (2 * i + 1) bs false)) as [H _].
  set (d := dqpsk_step _ _) in *. rewrite i32_small by lia. rewrite bind_Some, IH by lia. f_equal. lia.
Qed.

Lemma sum_up_phase_spec bs i n :
  2 * (i + n) <= length bs -> n <= 1000 -> sum_up_phase (b2z <$> bs) i n = Some (phase_sum bs i n).
Proof. intros. unfold sum_up_phase. rewrite sum_up_phase_acc by (done || lia). f_equal. Qed.

(** The window of a phase adjustment, first symbol and number of symbols. *)
Definition adj_window (pan : PhaseAdjustBits) : nat * nat := ((PHASE_ADJ pan).1 - 1, (PHASE_ADJ pan).2 - (PHASE_ADJ pan).1 + 1).

Lemma calc_phase_adj_odd s : (s mod 2 = 1)%Z ->
  exists b0 b1, List.find (fun '(ph, _) => (ph =? calc_phase_adj s)%Z) PHASE2BITS = Some (calc_phase_adj s, [b2z b0; b2z b1]) /\
    ((s + dqpsk_step b0 b1) mod 8 = if (s mod 4 =? 1)%Z then 4 else 0)%Z.
Proof.
  intros H. unfold calc_phase_adj.
  assert (Hr : (Z.rem s 8 = s mod 8 \/ Z.rem s 8 = s mod 8 - 8)%Z) by (Z.to_euclidean_division_equations; lia).
  assert (Hs : (s mod 8 = 1 \/ s mod 8 = 3 \/ s mod 8 = 5 \/ s mod 8 = 7)%Z) by (Z.to_euclidean_division_equations; lia).
  assert (Hc : forall r a k b0 b1, (s mod 8 = r)%Z -> (Z.rem s 8 = a)%Z -> (s mod 4 = r mod 4)%Z ->
    calc_phase_adj s = k -> List.find (fun '(ph, _) => (ph =? k)%Z) PHASE2BITS = Some (k, [b2z b0; b2z b1]) ->
    ((r + dqpsk_step b0 b1) mod 8 = if (r mod 4 =? 1)%Z then 4 else 0)%Z ->
    exists b0 b1, List.find (fun '(ph, _) => (ph =? calc_phase_adj s)%Z) PHASE2BITS = Some (calc_phase_adj s, [b2z b0; b2z b1]) /\
    ((s + dqpsk_step b0 b1) mod 8 = if (s mod 4 =? 1)%Z then 4 else 0)%Z).
  { intros r a k b0 b1 Hr8 Ha H4 Hk Hf Hm. rewrite Hk. exists b0, b1. split; [done|]. rewrite H4, <- Hm.
    rewrite <- (Zplus_mod_idemp_l s), Hr8. done. }
  assert (H4 : (s mod 4 = (s mod 8) mod 4)%Z) by (Z.to_euclidean_division_equations; lia).
  destruct Hs as [E|[E|[E|E]]]; rewrite E in H4; destruct Hr as [R|R]; rewrite E in R.
  - apply (Hc 1 1 (-1) false true)%Z; try done; unfold calc_phase_adj; by rewrite R.
  - apply (Hc 1 (-7) (-1) false true)%Z; try done; unfold calc_phase_adj; by rewrite R.
  - apply (Hc 3 3 (-3) true true)%Z; try done; unfold calc_phase_adj; by rewrite R.
  - apply (Hc 3 (-5) (-3) true true)%Z; try done; unfold calc_phase_adj; by rewrite R.
  - apply (Hc 5 5 3 true false)%Z; try done; unfold calc_phase_adj; by rewrite R.
  - apply (Hc 5 (-3) 3 true false)%Z; try done; unfold calc_phase_adj; by rewrite R.
  - apply (Hc 7 7 1 false false)%Z; try done; unfold calc_phase_adj; by rewrite R.
  - apply (Hc 7 (-1) 1 false false)%Z; try done; unfold calc_phase_adj; by rewrite R.
Qed.

Lemma compute_phase_adj_spec bs pan :
  498 <= length bs ->
  exists b0 b1, compute_phase_adj_bits (b2z <$> bs) pan = Some [b2z b0; b2z b1] /\
    let s := phase_sum bs (adj_window pan).1 (adj_window pan).2 in
    ((s + dqpsk_step b0 b1) mod 8 = if (s mod 4 =? 1)%Z then 4 else 0)%Z.
Proof.
  intros H. unfold compute_phase_adj_bits. rewrite (surjective_pairing (PHASE_ADJ pan)).
  rewrite sum_up_phase_spec by (destruct pan; cbn; lia). fold (adj_window pan).1 (adj_window pan).2. rewrite bind_Some.
  set (s := phase_sum bs _ _).
  assert (Hs : (s mod 2 = 1)%Z) by (unfold s; rewrite phase_sum_mod; by destruct pan).
  destruct (calc_phase_adj_odd s Hs) as (b0 & b1 & Ef & Hm). exists b0, b1. by rewrite Ef.
Qed.

(** ** Facts: downlink bursts *)



Lemma fmap_replicate_false n : b2z <$> replicate n false = replicate n 0%Z.
Proof. apply fmap_replicate. Qed.







(** ** The downlink slot *)

Lemma arm_total l ts blk :
  wf (mac_block blk) -> exists l', maybe_arm_post_grant_rx_diag_from_dl_stch l ts blk = Some l'.
Proof.
  intros W. unfold maybe_arm_post_grant_rx_diag_from_dl_stch. destruct (negb _); [by eexists|].
  destruct (from_bitbuffer_holds _ W) as (b & -> & Hb). rewrite bind_Some.
  pose proof (robust_resource b (ho_wf _ _ Hb)) as R. destruct (MacResource_from_bitbuf b) as [r b'|e b'|]; [|by eexists|done].
  destruct (addr r); [|by eexists]. destruct (negb _); [by eexists|]. by destruct (negb _); eexists.
Qed.








(** Half-slot signalling channels of the downlink. *)
Definition half_slot (lchan : LogicalChannel) : Prop := lchan = SchHd \/ lchan = Stch \/ lchan = Bnch.

Definition block_fits (blk : TmvUnitdataReq) : Prop :=
  wf (mac_block blk) /\
  exists params, get_params (logical_channel blk) = Some params /\ have_crc16 params = true /\
    length (window (mac_block blk)) = type1_bits params.





(** A block after coding: its bits on the air decode to what it held. *)
Definition coded (blk : TmvUnitdataReq) (type5 : BitBuffer) (sent : list bool) : Prop :=
  holds type5 sent /\
  forall r bt, holds r sent -> (bt = SB1 -> scrambling_code blk = SCRAMB_INIT) ->
    exists m, decode_cp (logical_channel blk) {| block_type := bt; block := r |} (Some (scrambling_code blk))
      = Some (Some m, true) /\ holds m (window (mac_block blk)).

Lemma encode_fits blk n :
  block_fits blk -> is_traffic (logical_channel blk) = false ->
  exists params type5 sent, get_params (logical_channel blk) = Some params /\
    encode_blk blk n = Some (Some type5) /\ length sent = type345_bits params /\ coded blk type5 sent.
Proof.
  intros (W & params & Hp & Hc & Hl) Ht. unfold encode_blk. rewrite Ht.
  destruct (encode_decode_cp_sent _ params _ _ (scrambling_code blk) Hp Hc Hl W eq_refl) as (type5 & sent & E & H & L & D).
  exists params, type5, sent. destruct blk as [b lc code]. cbn in *. split; [done|]. split; [done|]. split; [done|].
  split; [done|]. intros r bt Hr Hsb. apply (D r bt (Some code) Hr).
  destruct (bool_decide (bt = SB1)) eqn:Eb; [|done]. apply bool_decide_eq_true in Eb. cbn in Hsb. by rewrite (Hsb Eb).
Qed.



Lemma take_bits_spec b bs n : holds b bs -> length bs = n -> take_bits (Some b) n = Some (b2z <$> bs).
Proof. intros H L. unfold take_bits. rewrite bind_Some. destruct (call_to_bitarr b bs n H) as (b' & ->); [done|]. done. Qed.

(** Discharges the assertions that hold by computation. *)
Ltac asserts := repeat match goal with |- context [assert_ ?c] => change (assert_ c) with (Some tt) end.






Lemma lmac_slot l s bbk blk1 burst_type train_type bbk' blk1' blk2' :
  lm_ok l -> (1 <= t (s_ts s) <= 4)%Z -> s_bbk s = Some bbk -> s_blk1 s = Some blk1 -> wf (mac_block blk1) ->
  burst_of (logical_channel blk1) (bool_decide (is_Some (s_blk2 s))) = Some (burst_type, train_type) ->
  encode_aach (mac_block bbk) (scrambling_code bbk) = Some bbk' -> encode_blk blk1 1 = Some (Some blk1') ->
  match s_blk2 s with None => blk2' = None | Some blk2 => exists b, encode_blk2 blk2 = Some (Some b) /\ blk2' = Some b end ->
  exists l', bs_rx_tmv_unitdata_req_slot l s
    = Some (l', [TpReqMsg (mkTpReq train_type burst_type (Some bbk') (Some blk1') blk2')]).
Proof.
  intros O T Eb E1 W EB EA EC E2. unfold bs_rx_tmv_unitdata_req_slot. rewrite (lk_chan _ O).
  destruct (Z.leb_spec 1 (t (s_ts s))); [|lia]. change (Z.of_nat 4) with 4%Z.
  destruct (Z.leb_spec (t (s_ts s)) 4); [|lia]. asserts. rewrite bind_Some. cbv zeta.
  rewrite Eb, E1. destruct (arm_total (set_phy_chan l (Z.to_nat (t (s_ts s) - 1)) (s_ul_phy_chan s)) (s_ts s) blk1 W) as (l' & ->).
  rewrite bind_Some, EB, EA, bind_Some, EC, bind_Some. destruct (s_blk2 s) as [blk2|].
  - destruct E2 as (b & -> & ->). rewrite bind_Some. by exists l'.
  - rewrite E2. by exists l'.
Qed.


Lemma half_slot_encode2 blk : half_slot (logical_channel blk) -> encode_blk2 blk = encode_blk blk 2.
Proof. intros H. unfold encode_blk2. rewrite bool_decide_eq_false_2; [done|]. by destruct H as [-> | [-> | ->]]. Qed.


Lemma encode_aach_holds b bits code :
  holds b bits -> length bits = 14 -> exists type5 sent, encode_aach b code = Some type5 /\ holds type5 sent /\ length sent = 30.
Proof.
  intros H L. destruct (encode_aach_ok b bits code H L) as (type5 & E & H5). exists type5. eexists. split; [done|].
  split; [exact H5|]. by rewrite length_zip_with, length_val_bits, length_keystream.
Qed.












(** A second block beside a full-slot block.  The lower MAC announces that it ignores
    the second block of an SCH/F slot, but it encodes it and hands it on; the physical
    layer asserts that there is none, and panics. *)
Theorem schf_second_block_panics l s bbk aach blk1 blk2 :
  lm_ok l -> (1 <= t (s_ts s) <= 4)%Z -> s_bbk s = Some bbk -> holds (mac_block bbk) aach -> length aach = 14 ->
  s_blk1 s = Some blk1 -> block_fits blk1 -> logical_channel blk1 = SchF ->
  s_blk2 s = Some blk2 -> block_fits blk2 -> half_slot (logical_channel blk2) ->
  exists l' req, bs_rx_tmv_unitdata_req_slot l s = Some (l', [TpReqMsg req]) /\ slot_burst req = None.
Proof.
  intros O T Eb Ha La E1 F1 N1 E2 F2 N2.
  destruct (encode_aach_holds _ _ (scrambling_code bbk) Ha La) as (a5 & sa & EA & Hsa & Lsa).
  assert (T2 : is_traffic (logical_channel blk2) = false) by (by destruct N2 as [-> | [-> | ->]]).
  destruct (encode_fits blk1 1 F1) as (p1 & t1 & s1 & _ & EC1 & _); [by rewrite N1|].
  destruct (encode_fits blk2 2 F2 T2) as (p2 & t2 & s2 & _ & EC2 & _).
  destruct (lmac_slot l s bbk blk1 BurstNDB NormalTrainSeq1 a5 t1 (Some t2) O T Eb E1 (proj1 F1)) as (l' & EL);
    [by rewrite E2, N1|done|done|rewrite E2, half_slot_encode2 by done; by exists t2|].
  eexists l', _. split; [exact EL|]. unfold slot_burst. cbn [o_bbk o_burst_type o_train_type o_blk1 o_blk2].
  change (assert_ (bool_decide (is_Some (Some a5)))) with (Some tt).
  by rewrite bind_Some, (take_bits_spec _ _ _ Hsa Lsa), bind_Some.
Qed.


(** C39 (phase adjustment).  The two phase adjustment bits of a window are always defined,
    and with them the modulator turns the phase over the window by a whole number of turns
    exactly when the window's own phase is 3 modulo 4 (in units of pi/4); for the other
    windows the bits leave it half a turn away. *)
Theorem phase_adjustment_half_right bs pan :
  498 <= length bs ->
  exists b0 b1, compute_phase_adj_bits (b2z <$> bs) pan = Some [b2z b0; b2z b1] /\
    let s := phase_sum bs (adj_window pan).1 (adj_window pan).2 in
    ((s mod 4 = 3 /\ (s + dqpsk_step b0 b1) mod 8 = 0) \/ (s mod 4 = 1 /\ (s + dqpsk_step b0 b1) mod 8 = 4))%Z.
Proof.
  intros H. destruct (compute_phase_adj_spec bs pan H) as (b0 & b1 & E & Hm). exists b0, b1. split; [done|].
  intros s. cbv zeta in Hm. fold s in Hm.
  assert (Ho : (s mod 2 = 1)%Z) by (unfold s; rewrite phase_sum_mod; by destruct pan).
  assert (H4 : (s mod 4 = 1 \/ s mod 4 = 3)%Z) by (Z.to_euclidean_division_equations; lia).
  destruct H4 as [H4|H4]; rewrite H4 in Hm; [by right|by left].
Qed.

Lemma phase_adjustment_half_right_witness :
  let bs := replicate 20 false ++ [true; false] ++ replicate 488 false in
  exists b0 b1, compute_phase_adj_bits (b2z <$> bs) HA = Some [b2z b0; b2z b1] /\
    ((phase_sum bs 7 115 + dqpsk_step b0 b1) mod 8 = 4)%Z.
Proof.
  intros bs. assert (L : 498 <= length bs) by (cbn; lia).
  destruct (phase_adjustment_half_right bs HA L) as (b0 & b1 & E & H). exists b0, b1. split; [exact E|].
  destruct H as [[H _]|[_ H]]; [|exact H]. vm_compute in H. discriminate H.
Defined.
