(* ===== verification/Station.v ===== *)
(** * The uplink of the base station as one system

    The lower MAC (Lmac.v) and the receive path of the upper MAC (UmacBs.v), connected by
    the message router (Router.v), and the mobile's random access (UmacMs.v, Lmac.v) as the
    other end of the air interface.  The remaining entities only collect what they are sent.
    Calls of the upper MAC into the scheduler are recorded in the order they are made. *)

From Stdlib Require Import ZArith Lia ZifyNat.
From stdpp Require Import gmap strings.
From S2P Require Import Prelude.
From S2P Require Import BitBuffer.
From S2P Require Import BitBufferFacts.
From S2P Require Import ErrorControl.
From S2P Require Import Tdma.
From S2P Require Import Codec.
From S2P Require Import MacFields.
From S2P Require Import MacPdus.
From S2P Require Import Fillbits.
From S2P Require Import Defrag.
From S2P Require Import TxReceipt.
From S2P Require Import Frag.
From S2P Require Import UplinkPdus.
From S2P Require Import Robust.
From S2P Require Import UmacMs.
From S2P Require Import Circuits.
From S2P Require Import UlSched.
From S2P Require Import UmacBs.
From S2P Require Import Lmac.
From S2P Require Import Router.
From S2P Require Import Phy.

(** ** Messages and entities *)

Inductive BsMsg :=
  | TpIndication (prim : TpInd)
  | TmvConfigure (prim : TmvConfigureReq)
  | TmvIndication (ind : TmvInd)
  | TmdIndication (ts : Z) (data : list Z) (raw_tch_s_block : option PhyBlockNum)
  | TmaIndication (pdu : BitBuffer) (main_address : TetraAddress) (scrambling_code endpoint_id : Z)
      (air_interface_encryption : bool)
  | RssiUpdate (issi rssi : Z).

Definition dest_of (m : BsMsg) : TetraEntity :=
  match m with
  | TpIndication _ | TmvConfigure _ => Lmac
  | TmvIndication _ | TmdIndication _ _ _ => Umac
  | TmaIndication _ _ _ _ _ => Llc
  | RssiUpdate _ _ => Mm
  end.

(** The upper MAC with its scheduler calls and the speech it was handed. *)
Inductive BsEntity :=
  | LmacEntity (l : LmacBs)
  | UmacEntity (u : UmacBs) (calls : list BsEffect) (speech : list BsMsg)
  | OtherEntity (inbox : list BsMsg).

(** What the lower MAC pushes: signalling with immediate priority, speech at the back. *)
Definition push_lmac (q : list BsMsg) (m : LmacMsg) : list BsMsg :=
  match m with
  | TmvIndMsg prim rssi => push_prio q (TmvIndication (mkInd prim rssi)) Immediate
  | TmdCircuitDataInd ts data raw => push_back q (TmdIndication ts data raw)
  | TpReqMsg _ => q
  end.

(** The effects of the upper MAC that are messages. *)
Definition push_umac (q : list BsMsg) (fx : BsEffect) : list BsMsg :=
  match fx with
  | LlcInd pdu addr code ep enc => push_back q (TmaIndication pdu addr code ep enc)
  | Blk2Stolen time => push_prio q (TmvConfigure (mkConf None None (Some true) (Some time))) Immediate
  | MsRssiUpdate issi rssi => push_back q (RssiUpdate issi rssi)
  | _ => q
  end.
Definition is_call (fx : BsEffect) : bool :=
  match fx with MarkAwake _ _ | EnqueueRandomAccessAck _ _ | EnqueueReservationGrant _ _ _ _ => true | _ => false end.

(** [rx_prim] of the entities.  The loop over a block never runs out of its fuel. *)
Definition bs_rx_prim (e : BsEntity) (q : list BsMsg) (m : BsMsg) : option (BsEntity * list BsMsg) :=
  match e, m with
  | LmacEntity l, TpIndication prim =>
      '(l, msgs) ← bs_rx_tp_prim l prim; Some (LmacEntity l, foldl push_lmac q msgs)
  | LmacEntity l, TmvConfigure prim => l ← bs_rx_tmv_configure_req l prim; Some (LmacEntity l, q)
  | UmacEntity u calls speech, TmvIndication ind =>
      r ← rx_ul_unitdata_ind u ind;
      '(u, fx) ← r;
      Some (UmacEntity u (calls ++ List.filter is_call fx) speech, foldl push_umac q fx)
  | UmacEntity u calls speech, TmdIndication _ _ _ => Some (UmacEntity u calls (speech ++ [m]), q)
  | OtherEntity inbox, _ => Some (OtherEntity (inbox ++ [m]), q)
  | _, _ => Some (e, q)
  end.

#[export] Instance bs_entity : TetraEntityTrait BsEntity BsMsg := {| get_dest := dest_of; rx_prim := bs_rx_prim |}.

Definition station (l : LmacBs) (u : UmacBs) (calls : list BsEffect) (speech llc mm : list BsMsg) (q : list BsMsg)
  (ts : TdmaTime) : MessageRouter BsEntity BsMsg :=
  mkRouter (<[Lmac := LmacEntity l]> (<[Umac := UmacEntity u calls speech]>
             (<[Llc := OtherEntity llc]> {[ Mm := OtherEntity mm ]}))) q ts.

(** ** Both ends of the air interface *)

(** The mobile: from the request of its LLC to the burst. *)
Definition send_access (ms : UmacMs) (prim : TmaUnitdataReq) (heap : store) : option (option (list Z) * store) :=
  '(msgs, heap) ← rx_tma_unitdata_req ms prim heap;
  match msgs with
  | TmvUnitdataReqMsg ts block lchan code :: _ =>
      reqs ← ms_rx_tmv_unitdata_req_slot
               (mkSlot ts Cp (Some {| mac_block := block; logical_channel := lchan; scrambling_code := code |}) None None);
      match reqs with
      | [TpReqMsg req] => bits ← take_bits (o_blk1 req) 168; burst ← build_cub bits; Some (Some burst, heap)
      | _ => Some (None, heap)
      end
  | _ => Some (None, heap)
  end.

(** The base station: a burst the demodulator found is split and all messages are delivered. *)
Definition receive_burst (fuel : nat) (burst : RxBurstBits) (self : MessageRouter BsEntity BsMsg)
  : option (option (MessageRouter BsEntity BsMsg)) :=
  inds ← split_rxslot_and_send_to_lmac burst;
  deliver_all_messages fuel (mkRouter (entities self) (foldl push_back (msg_queue self) (TpIndication <$> inds)) (r_ts self)).

(** ** The mobile's side of a random access *)

(** The MAC-ACCESS of a message that goes out in one subslot. *)
Definition access_of (addr : TetraAddress) (filled : bool) : MacAccess := mkAccess filled false (Some addr) None None None None.

Definition individual (addr : TetraAddress) : Prop :=
  (ssi_type addr = Issi \/ ssi_type addr = Ssi) /\ (0 <= ssi addr < 2 ^ 24)%Z.

Lemma access_of_valid addr filled :
  individual addr ->
  MacAccess_validate (access_of addr filled) = inl tt /\ typed_ul (Some addr) None None.
Proof.
  intros [Ht Hs]. split; [|split; [|split]]; [|by intros a [= <-]; lia|done|done].
  unfold MacAccess_validate, validate_address. cbn [access_of ac_encrypted ac_addr ac_event_label].
  destruct (Z.ltb_spec SSI_MAX (ssi addr)); [unfold SSI_MAX in *; lia|]. by destruct Ht as [-> | ->].
Qed.

Lemma access_of_len addr filled : individual addr -> length (access_img (access_of addr filled)) = 30.
Proof. intros _. unfold access_img. cbn [concat access_of ac_fill_bits ac_encrypted ac_addr ac_event_label ac_length_ind ul_addr_img]. rewrite !length_app, !length_val_bits. done. Qed.

(** What the mobile's upper MAC sends for a message of up to 62 bits. *)
Lemma mobile_access_block self prim heap heap' msg :
  default 0%Z (q_air_interface_encryption prim) = 0%Z -> individual (q_main_address prim) ->
  wf (q_pdu prim) -> window (q_pdu prim) = msg -> length msg <= 62 ->
  report mark_transmitted (q_tx_reporter prim) heap = Some heap' ->
  let n := 62 - length msg in
  exists block, rx_tma_unitdata_req self prim heap
    = Some ([TmvUnitdataReqMsg (dltime self) block SchHu (default 0%Z (u_scrambling_code self));
             TmaReportSuccessRandomAccess (q_req_handle prim)], heap') /\
    holds block (access_img (access_of (q_main_address prim) (0 <? n)) ++ msg ++ fill n).
Proof.
  intros He Ha W Hw Hl Hr n. unfold rx_tma_unitdata_req. rewrite He. change (negb (0 =? 0)%Z) with false. cbn iota zeta.
  assert (Et : bool_decide (ssi_type (q_main_address prim) = Issi) || bool_decide (ssi_type (q_main_address prim) = Ssi) = true).
  { destruct Ha as [[-> | ->] _]; done. }
  rewrite Et. cbn [negb]. set (acc := access_of (q_main_address prim)).
  change (mkAccess false false (Some (q_main_address prim)) None None None None) with (acc false).
  destruct (access_of_valid (q_main_address prim) false Ha) as [V T].
  destruct (access_emits (acc false) tt V T (new_autoexpand 32)) as (b0 & E0 & [_ S0 P0 _ _ _ _]);
    [apply wf_new_autoexpand|right; done|].
  assert (R0 : run (MacAccess_to_bitbuf (acc false)) (new_autoexpand 32) = Some (tt, b0)) by (unfold run; by rewrite E0).
  rewrite R0, bind_Some. unfold acc in P0. rewrite access_of_len in P0 by done.
  assert (Hh : get_len_written b0 = 30) by (unfold get_len_written; rewrite P0, S0; done). rewrite Hh.
  assert (Hg : get_len (q_pdu prim) = length msg) by (rewrite <- Hw; unfold get_len, window; by rewrite length_getbits).
  rewrite Hg. unfold SCH_HU_TYPE1_CAP_BITS. bfalse (92 <? 30 + length msg).
  replace (92 - 30 - length msg) with n by lia.
  change (mkAccess (0 <? n) false (Some (q_main_address prim)) None None None None) with (acc (0 <? n)).
  destruct (call_rewind _ W) as [Es Hs]. change @call with @run in Es. rewrite Es, bind_Some.
  destruct (access_of_valid (q_main_address prim) (0 <? n) Ha) as [V' T'].
  destruct (write_pdu_spec _ _ n msg [] (new 92) _ (access_emits (acc (0 <? n)) tt V' T') (wf_new 92) (ho_wf _ _ Hs))
    as (block & -> & Wr).
  { rewrite (holds_remaining _ _ Hs), Hw. by rewrite app_nil_r. }
  { unfold acc. rewrite access_of_len by done. change (get_len_remaining (new 92)) with 92. lia. }
  rewrite bind_Some. destruct (call_rewind block (wr_wf _ _ _ Wr)) as [Eb Hb]. change @call with @run in Eb.
  rewrite Eb, bind_Some, Hr, bind_Some. eexists. split; [done|].
  replace (window block) with (access_img (acc (0 <? n)) ++ msg ++ fill n) in Hb; [done|].
  destruct Wr as [_ S P _ N B _]. rewrite <- B at 1. unfold window. f_equal; [done|].
  assert (L : length (access_img (acc (0 <? n)) ++ msg ++ fill n) = 92).
  { unfold acc. rewrite !length_app, access_of_len, length_fill by done. lia. }
  rewrite N, L, S. done.
Qed.

(** ** Deliveries *)

Section deliveries.
Context (l : LmacBs) (u : UmacBs) (calls : list BsEffect) (speech llc mm q : list BsMsg) (ts : TdmaTime).

Lemma deliver_tp prim l' msgs :
  bs_rx_tp_prim l prim = Some (l', msgs) ->
  deliver_message (station l u calls speech llc mm (TpIndication prim :: q) ts)
  = Some (station l' u calls speech llc mm (foldl push_lmac q msgs) ts).
Proof. intros E. unfold deliver_message. cbn -[bs_rx_tp_prim insert lookup]. rewrite lookup_insert_eq. cbn -[bs_rx_tp_prim insert lookup]. rewrite E. cbn -[insert lookup]. unfold station. by rewrite insert_insert_eq. Qed.

Lemma deliver_configure prim l' :
  bs_rx_tmv_configure_req l prim = Some l' ->
  deliver_message (station l u calls speech llc mm (TmvConfigure prim :: q) ts) = Some (station l' u calls speech llc mm q ts).
Proof. intros E. unfold deliver_message. cbn -[bs_rx_tmv_configure_req insert lookup]. rewrite lookup_insert_eq. cbn -[bs_rx_tmv_configure_req insert lookup]. rewrite E. cbn -[insert lookup]. unfold station. by rewrite insert_insert_eq. Qed.

Lemma deliver_tmv ind u' fx :
  rx_ul_unitdata_ind u ind = Some (Some (u', fx)) ->
  deliver_message (station l u calls speech llc mm (TmvIndication ind :: q) ts)
  = Some (station l u' (calls ++ List.filter is_call fx) speech llc mm (foldl push_umac q fx) ts).
Proof.
  intros E. unfold deliver_message. cbn -[rx_ul_unitdata_ind insert lookup].
  rewrite lookup_insert_ne, lookup_insert_eq by done. cbn -[rx_ul_unitdata_ind insert lookup]. rewrite E. cbn -[insert lookup].
  unfold station. by rewrite (insert_insert_ne _ Umac Lmac), insert_insert_eq by done.
Qed.

Lemma deliver_tmd t data raw :
  deliver_message (station l u calls speech llc mm (TmdIndication t data raw :: q) ts)
  = Some (station l u calls (speech ++ [TmdIndication t data raw]) llc mm q ts).
Proof.
  unfold deliver_message. cbn -[insert lookup]. rewrite lookup_insert_ne, lookup_insert_eq by done. cbn -[insert lookup].
  unfold station. by rewrite (insert_insert_ne _ Umac Lmac), insert_insert_eq by done.
Qed.

Lemma deliver_tma m :
  dest_of m = Llc -> deliver_message (station l u calls speech llc mm (m :: q) ts) = Some (station l u calls speech (llc ++ [m]) mm q ts).
Proof.
  intros D. unfold deliver_message. cbn -[insert lookup dest_of]. rewrite D, !lookup_insert_ne, lookup_insert_eq by done.
  destruct m; try discriminate D. cbn -[insert lookup]. unfold station.
  by rewrite (insert_insert_ne _ Llc Lmac), (insert_insert_ne _ Llc Umac), insert_insert_eq by done.
Qed.

Lemma deliver_rssi m :
  dest_of m = Mm -> deliver_message (station l u calls speech llc mm (m :: q) ts) = Some (station l u calls speech llc (mm ++ [m]) q ts).
Proof.
  intros D. unfold deliver_message. cbn -[insert lookup dest_of]. rewrite D, !lookup_insert_ne, lookup_singleton_eq by done.
  destruct m; try discriminate D. cbn -[insert lookup]. unfold station.
  rewrite (insert_insert_ne _ Mm Lmac), (insert_insert_ne _ Mm Umac), (insert_insert_ne _ Mm Llc) by done.
  by rewrite insert_singleton_eq.
Qed.

Lemma next_delivery fuel m self' :
  deliver_message (station l u calls speech llc mm (m :: q) ts) = Some self' ->
  deliver_all_messages (S fuel) (station l u calls speech llc mm (m :: q) ts) = deliver_all_messages fuel self'.
Proof. by apply deliver_all_step. Qed.
End deliveries.

(** ** A random access at the base station *)

(** The header alone: what is left to do once it is read. *)
Lemma access_header_read u ind pdu addr msg :
  bs_ok u -> individual addr -> 1 <= length msg <= 62 ->
  let n := 62 - length msg in
  holds pdu (access_img (access_of addr (0 <? n)) ++ msg ++ fill n) ->
  exists d sdu ep b, rx_mac_access u ind pdu
    = Some (with_b_defrag u d, (mark_ms_signalling_activity (ul_addr addr) (msg_dltime u)
        ++ [EnqueueRandomAccessAck (t (msg_dltime u)) (ul_addr addr)]
        ++ match n_rssi ind with Some rssi => [MsRssiUpdate (ssi addr) rssi] | None => [] end)
        ++ [LlcInd sdu (ul_addr addr) (i_scrambling_code (n_prim ind)) ep false], b) /\
    holds sdu msg /\ bs_ok (with_b_defrag u d) /\ start b = start pdu + 92 /\ get_len b = 0.
Proof.
  intros O Ha Hl n Hh. pose proof Hh as [W P Hw]. pose proof (holds_remaining _ _ Hh) as Hr.
  set (acc := access_of addr (0 <? n)) in *. assert (Lh : length (access_img acc) = 30) by (by apply access_of_len).
  destruct (access_of_valid addr (0 <? n) Ha) as [V T].
  unfold rx_mac_access, parsing. rewrite (at_start _ W P). change (assert_ (0 =? 0)) with (Some tt). rewrite bind_Some.
  rewrite (access_parses acc tt V T _ pdu W Hr), Lh. cbn [access_on_air acc access_of ac_event_label ac_addr].
  assert (F : framed (with_pos pdu (pos pdu + 30)) 30 msg n []).
  { rewrite <- Lh. apply framed_header; [done..|]. by rewrite app_nil_r. }
  set (pdu1 := with_pos pdu (pos pdu + 30)) in *. pose proof (framed_end _ _ _ _ _ F) as He. cbn [length] in He.
  assert (Hg : get_len pdu1 = 30 + length msg + n) by (unfold get_len; lia).
  assert (Hal : access_len (access_on_air acc) (get_len pdu1) = 30 + length msg + n).
  { unfold access_len. cbn [access_on_air acc access_of ac_length_ind]. rewrite Nat.ltb_irrefl. done. }
  change (mkAccess _ _ _ _ _ _ _) with (access_on_air acc). cbn [fmap option_fmap option_map]. rewrite Hal.
  change (ac_fill_bits (access_on_air acc)) with (0 <? n). rewrite (framed_fill _ _ _ _ _ F), bind_Some.
  unfold usub. btrue (n <=? 30 + length msg + n). replace (30 + length msg + n - n) with (30 + length msg) by lia.
  destruct (framed_cut _ _ _ _ _ F) as (Ec & Wc & Rc). rewrite bind_Some, Ec, bind_Some.
  change (MacAccess_is_null_pdu (access_on_air acc)) with false. change (ac_encrypted (access_on_air acc)) with false.
  change (ac_reservation_req (access_on_air acc)) with (@None ReservationRequirement).
  change (MacAccess_is_frag_start (access_on_air acc)) with false. cbn iota. rewrite bind_Some.
  destruct (discard_total u (ul_addr addr) O) as (r & d & -> & Od). rewrite bind_Some.
  set (w := sdu_window pdu1 (30 + length msg)) in *. exists d.
  destruct (sdu_of_total w Wc) as [Es|(sdu & Es & Hs)].
  { unfold sdu_of in Es. destruct (get_len_remaining w =? 0) eqn:E0.
    - apply Nat.eqb_eq in E0. pose proof (length_remaining w) as Hx. unfold get_len_remaining in E0. rewrite Rc in Hx. lia.
    - destruct (from_bitbuffer_pos_holds _ Wc) as (x & Ex & _). by rewrite Ex in Es. }
  rewrite Es, bind_Some. rewrite Rc in Hs.
  destruct (endpoint_total (with_b_defrag u d) (ul_addr addr) sdu (ho_wf _ _ Hs) (ho_pos _ _ Hs)) as [ep ->]. rewrite bind_Some.
  assert (Ew : end_ w = start pdu1 + (30 + length msg) /\ start w = start pdu1 /\ start pdu1 = start pdu) by done.
  destruct Ew as (Ew & Sw & S1).
  rewrite next_pdu_spec; [|done|lia|lia|exact (wf_end _ (fm_wf _ _ _ _ _ F))]. rewrite bind_Some, app_nil_r.
  eexists sdu, ep, _. split; [done|]. split; [done|]. split; [done|]. unfold get_len. cbn [start end_]. lia.
Qed.

Lemma access_pdu_received u ind addr msg :
  bs_ok u -> individual addr -> 1 <= length msg <= 62 ->
  let n := 62 - length msg in
  i_logical_channel (n_prim ind) = SchHu -> i_block_num (n_prim ind) = Block1 ->
  holds (i_pdu (n_prim ind)) (access_img (access_of addr (0 <? n)) ++ msg ++ fill n) ->
  exists d sdu ep, rx_ul_unitdata_ind u ind
    = Some (Some (with_b_defrag u d, (mark_ms_signalling_activity (ul_addr addr) (msg_dltime u)
        ++ [EnqueueRandomAccessAck (t (msg_dltime u)) (ul_addr addr)]
        ++ match n_rssi ind with Some rssi => [MsRssiUpdate (ssi addr) rssi] | None => [] end)
        ++ [LlcInd sdu (ul_addr addr) (i_scrambling_code (n_prim ind)) ep false])) /\
    holds sdu msg /\ bs_ok (with_b_defrag u d).
Proof.
  intros O Ha Hl n Hc Hb Hh. unfold rx_ul_unitdata_ind. rewrite Hc, Hb.
  change (negb (bool_decide (Block1 = Block1) || bool_decide (Block1 = Block2))) with false. cbn iota.
  unfold rx_ul_sch. set (pdu := i_pdu (n_prim ind)) in *. cbn [rx_ul_loop]. unfold rx_ul_pdu. rewrite Hc.
  destruct (access_header_read u ind pdu addr msg O Ha Hl Hh) as (d & sdu & ep & b & E & Hs & Od & Hst & Hg).
  assert (Ep : peek_bits pdu 3 = Some (Some (bits_val [false; 0 <? n; false]))).
  { eapply peek_type; [apply Hh|apply Hh|]. rewrite (holds_remaining _ _ Hh). by destruct (0 <? n). }
  rewrite Ep, bind_Some. cbn [orb]. change (bool_decide (SchHu = SchF) || bool_decide (SchHu = Stch)) with false.
  change (bool_decide (SchHu = SchHu)) with true. cbn iota.
  assert (Ez : Z.eqb (Z.land (Z.shiftr (bits_val [false; 0 <? n; false]) 2) 1) 0 = true) by (by destruct (0 <? n)).
  rewrite Ez, E. cbn [fmap option_fmap option_map]. rewrite bind_Some. rewrite Hg.
  change (16 <=? 0) with false. rewrite andb_false_r. by eexists d, sdu, ep.
Qed.

(** The burst of a random access and the block the base station cuts out of it. *)
Lemma access_on_the_air ms prim heap heap' msg code rssi :
  default 0%Z (q_air_interface_encryption prim) = 0%Z -> individual (q_main_address prim) ->
  wf (q_pdu prim) -> window (q_pdu prim) = msg -> length msg <= 62 ->
  report mark_transmitted (q_tx_reporter prim) heap = Some heap' -> u_scrambling_code ms = Some code ->
  let n := 62 - length msg in
  exists burst b m, send_access ms prim heap = Some (Some burst, heap') /\
    split_rxslot_and_send_to_lmac (mkRxBurst ExtendedTrainSeq burst rssi)
    = Some [rxblock ExtendedTrainSeq CUB SSN1 Block1 b rssi] /\
    decode_cp SchHu {| block_type := SSN1; block := b |} (Some code) = Some (Some m, true) /\
    holds m (access_img (access_of (q_main_address prim) (0 <? n)) ++ msg ++ fill n).
Proof.
  intros He Ha W Hw Hl Hr Hc n. unfold send_access.
  destruct (mobile_access_block ms prim heap heap' msg He Ha W Hw Hl Hr) as (block & -> & Hb). fold n in Hb.
  rewrite bind_Some, Hc. change (default 0%Z (Some code)) with code. unfold ms_rx_tmv_unitdata_req_slot. cbn [s_ul_phy_chan s_bbk s_blk1 s_blk2].
  change (negb (bool_decide (Cp = Cp))) with false. change (bool_decide (is_Some None) || bool_decide (is_Some None)) with false.
  cbn [logical_channel]. change (negb (bool_decide (SchHu = SchHu))) with false. cbn iota.
  destruct (encode_decode_cp_sent SchHu SCH_HU_PARAMS (window block) block code eq_refl eq_refl)
    as (type5 & sent & -> & H5 & L5 & D); [|apply Hb|done|].
  { rewrite (ho_window _ _ Hb), !length_app, access_of_len, length_fill by done. unfold n. cbn. lia. }
  rewrite bind_Some, bind_Some. cbn [o_blk1]. rewrite (take_bits_spec _ _ 168 H5 L5), bind_Some.
  destruct (cub_roundtrip sent rssi L5) as (burst & b & -> & Es & Hb' & _). rewrite bind_Some.
  destruct (D b SSN1 (Some code) Hb' eq_refl) as (m & Em & Hm). exists burst, b, m. rewrite (ho_window _ _ Hb) in Hm. done.
Qed.

(** C2 (a random access arrives).  Whenever a mobile of the cell is asked to send a message
    of 1 to 62 bits in the clear, its upper MAC, lower MAC and burst builder produce a
    control burst; and when a base station in any consistent state receives that burst,
    whatever kind of uplink the slot is marked with, its router delivers the messages this
    causes in at most four steps and without a panic: the LLC gets exactly one
    TMA-UNITDATA, with the bits of the message and the individual address of the mobile;
    the acknowledgement of the random access is queued for it; and no speech comes out. *)
Theorem random_access_delivery ms prim heap heap' msg l u calls speech llc mm ts rssi fuel :
  default 0%Z (q_air_interface_encryption prim) = 0%Z -> individual (q_main_address prim) ->
  wf (q_pdu prim) -> window (q_pdu prim) = msg -> 1 <= length msg <= 62 ->
  report mark_transmitted (q_tx_reporter prim) heap = Some heap' ->
  u_scrambling_code ms = Some (l_scrambling_code l) -> lm_ok l -> bs_ok u -> 4 <= fuel ->
  let a := mkAddr (ssi (q_main_address prim)) Issi in
  exists burst l' u' sdu ep, send_access ms prim heap = Some (Some burst, heap') /\
    receive_burst fuel (mkRxBurst ExtendedTrainSeq burst rssi) (station l u calls speech llc mm [] ts)
    = Some (Some (station l' u'
        (calls ++ [MarkAwake (ssi a) (msg_dltime u); EnqueueRandomAccessAck (t (msg_dltime u)) a]) speech
        (llc ++ [TmaIndication sdu a (l_scrambling_code l) ep false])
        (mm ++ match rssi with Some rssi => [RssiUpdate (ssi a) rssi] | None => [] end) [] ts)) /\
    holds sdu msg /\ lm_ok l' /\ bs_ok u'.
Proof.
  intros He Ha W Hw [Hl1 Hl] Hr Hc O Ou Hf a.
  destruct (access_on_the_air ms prim heap heap' msg _ rssi He Ha W Hw Hl Hr Hc) as (burst & b & m & Es & Er & Em & Hm).
  destruct (ul_time_index l) as (i & Ei & Hi & _).
  destruct (lookup_lt_is_Some_2 (uplink_phy_chan l) i) as [pchan Hp]; [rewrite (lk_chan _ O); lia|].
  destruct (lookup_lt_is_Some_2 (blk2_stolen_at l) i) as [marker Hk]; [rewrite (lk_stolen _ O); lia|].
  set (tp := rxblock ExtendedTrainSeq CUB SSN1 Block1 b rssi) in *.
  destruct (rx_tp_control l tp i pchan marker O Ei Hp Hk m) as (l' & El & O' & _);
    [by left|by rewrite andb_false_r|by right; left|exact Em|].
  set (ind := mkInd (mkTmvInd m Block1 SchHu (l_scrambling_code l)) rssi).
  destruct (access_pdu_received u ind (q_main_address prim) msg Ou Ha (conj Hl1 Hl) eq_refl eq_refl Hm) as (d & sdu & ep & Eu & Hs & Od).
  assert (Ea : ul_addr (q_main_address prim) = a) by (unfold ul_addr, a; by destruct Ha as [[-> | ->] _]).
  exists burst, l', (with_b_defrag u d), sdu, ep. split; [done|]. split; [|done].
  unfold receive_burst. rewrite Er, bind_Some. cbn [fmap list_fmap foldl push_back app entities msg_queue r_ts station].
  rewrite Ea in Eu. do 4 (destruct fuel as [|fuel]; [lia|]).
  change (mkRouter _ _ ts) with (station l u calls speech llc mm [TpIndication tp] ts).
  rewrite (next_delivery _ _ _ _ _ _ _ _ _ _ _ (deliver_tp l u calls speech llc mm [] ts tp l' _ El)).
  change (foldl push_lmac [] _) with [TmvIndication ind].
  rewrite (next_delivery _ _ _ _ _ _ _ _ _ _ _ (deliver_tmv l' u calls speech llc mm [] ts ind _ _ Eu)).
  change (mark_ms_signalling_activity a (msg_dltime u)) with [MarkAwake (ssi a) (msg_dltime u)].
  change (n_rssi ind) with rssi. destruct rssi as [r|]; cbn [app List.filter is_call foldl push_umac push_back].
  - rewrite (next_delivery _ _ _ _ _ _ _ _ _ _ _ (deliver_rssi _ _ _ _ _ _ _ _ (RssiUpdate _ _) eq_refl)).
    rewrite (next_delivery _ _ _ _ _ _ _ _ _ _ _ (deliver_tma _ _ _ _ _ _ _ _ (TmaIndication _ _ _ _ _) eq_refl)).
    by rewrite deliver_all_done.
  - rewrite (next_delivery _ _ _ _ _ _ _ _ _ _ _ (deliver_tma _ _ _ _ _ _ _ _ (TmaIndication _ _ _ _ _) eq_refl)).
    rewrite deliver_all_done by done. by rewrite app_nil_r.
Qed.

(** A mobile of the cell with 20 bits to send. *)
Definition example_mobile : UmacMs :=
  mkUmacMs TdmaTime_default MsDefrag_new (Some 204%Z) (Some 1337%Z) (Some 1%Z)
    (Some (l_scrambling_code (LmacBs_new 204 1337 1))).
Definition example_request : TmaUnitdataReq := mkTmaReq 7 (new 20) (mkAddr 2001 Issi) None None.

Lemma random_access_delivery_witness :
  exists burst l' u' sdu ep, send_access example_mobile example_request ∅ = Some (Some burst, ∅) /\
    receive_burst 4 (mkRxBurst ExtendedTrainSeq burst None)
      (station (LmacBs_new 204 1337 1) idle_station [] [] [] [] [] TdmaTime_default)
    = Some (Some (station l' u'
        [MarkAwake 2001 (msg_dltime idle_station); EnqueueRandomAccessAck (t (msg_dltime idle_station)) (mkAddr 2001 Issi)] []
        [TmaIndication sdu (mkAddr 2001 Issi) (l_scrambling_code (LmacBs_new 204 1337 1)) ep false] [] [] TdmaTime_default)) /\
    holds sdu (window (new 20)) /\ lm_ok l' /\ bs_ok u'.
Proof.
  apply (random_access_delivery example_mobile example_request ∅ ∅ (window (new 20)) (LmacBs_new 204 1337 1) idle_station
    [] [] [] [] TdmaTime_default None 4);
    [reflexivity| |apply wf_new|reflexivity| |reflexivity|reflexivity|apply LmacBs_new_ok|apply idle_station_ok|lia].
  - split; [left; reflexivity|cbn; lia].
  - replace (length (window (new 20))) with 20 by reflexivity. lia.
Defined.

(** ** The queue runs dry *)

Definition msg_rank (m : BsMsg) : nat :=
  match m with TpIndication _ => 2 | TmvIndication _ | TmdIndication _ _ _ => 1 | _ => 0 end.

Lemma push_lmac_rank msgs : forall q, exists new, foldl push_lmac q msgs ≡ₚ new ++ q /\ Forall (fun m => msg_rank m < 2) new.
Proof.
  induction msgs as [|m msgs IH]; intros q; cbn [foldl]; [exists []; split; [done|constructor]|].
  destruct (IH (push_lmac q m)) as (new & H & F).
  destruct m as [p r|ts d raw|req]; cbn [push_lmac push_prio push_back] in H.
  - exists (new ++ [TmvIndication (mkInd p r)]). rewrite H, <- app_assoc. split; [done|]. apply Forall_app; split; [done|]. repeat constructor.
  - exists (new ++ [TmdIndication ts d raw]). rewrite H, <- app_assoc. unfold push_back. split; [by rewrite (Permutation_app_comm q)|].
    apply Forall_app; split; [done|]. repeat constructor.
  - by exists new.
Qed.

Lemma push_umac_rank fx : forall q, exists new, foldl push_umac q fx ≡ₚ new ++ q /\ Forall (fun m => msg_rank m < 1) new.
Proof.
  induction fx as [|e fx IH]; intros q; cbn [foldl]; [exists []; split; [done|constructor]|].
  destruct (IH (push_umac q e)) as (new & H & F).
  assert (Add : forall m, msg_rank m < 1 -> push_umac q e ≡ₚ m :: q ->
    exists new, foldl push_umac (push_umac q e) fx ≡ₚ new ++ q /\ Forall (fun m => msg_rank m < 1) new).
  { intros m Hm Hq. exists (new ++ [m]). rewrite H, Hq, <- app_assoc. split; [done|]. apply Forall_app; split; [done|]. by constructor. }
  destruct e as [pdu a c ep enc|time|issi r| | |]; try (by exists new).
  - apply (Add (TmaIndication pdu a c ep enc)); [cbn; lia|]. cbn. unfold push_back. by rewrite (Permutation_app_comm q).
  - apply (Add (TmvConfigure (mkConf None None (Some true) (Some time)))); [cbn; lia|done].
  - apply (Add (RssiUpdate issi r)); [cbn; lia|]. cbn. unfold push_back. by rewrite (Permutation_app_comm q).
Qed.

Lemma bs_rank e q m e' q' :
  rx_prim e q m = Some (e', q') ->
  exists gone keep new, q ≡ₚ gone ++ keep /\ q' ≡ₚ new ++ keep /\ Forall (fun x => msg_rank x < msg_rank m) new.
Proof.
  cbn [rx_prim bs_entity]. unfold bs_rx_prim.
  assert (Same : forall e0, Some (e0, q) = Some (e', q') ->
    exists gone keep new, q ≡ₚ gone ++ keep /\ q' ≡ₚ new ++ keep /\ Forall (fun x => msg_rank x < msg_rank m) new).
  { intros e0 [= _ <-]. exists [], q, []. split; [done|]. split; [done|constructor]. }
  destruct e as [l|u calls speech|inbox], m as [prim|prim|ind|ts d raw|pdu a c ep enc|issi r]; try apply Same.
  - intros H. bind_inv H x E. destruct x as [l1 msgs]. injection H as <- <-.
    destruct (push_lmac_rank msgs q) as (new & Hp & F). exists [], q, new. split; [done|]. by split.
  - intros H. bind_inv H x E. by apply Same in H.
  - intros H. bind_inv H x E. destruct x as [[u1 fx]|]; [|done]. cbn in H. injection H as <- <-.
    destruct (push_umac_rank fx q) as (new & Hp & F). exists [], q, new. split; [done|]. by split.
Qed.

(** The station comes to rest.  Whatever messages wait at the station and whatever
    entities are registered, delivering them all ends: received bursts cause only blocks,
    blocks only messages that cause nothing further within the two MACs (the entities above
    only collect what they are sent).  Unless a handler panics, the queue
    is empty afterwards. *)
Lemma station_comes_to_rest (self : MessageRouter BsEntity BsMsg) :
  exists fuel, forall fuel', fuel <= fuel' ->
    match deliver_all_messages fuel' self with
    | None => True
    | Some None => False
    | Some (Some self') => msg_queue self' = []
    end.
Proof. apply (deliver_all_ends msg_rank bs_rank). Qed.

(** ** Stolen half slots *)

Lemma u_signal_parses s rest : parses MacUSignal_from_bitbuf [true; true; s] rest (mkUSignal s).
Proof.
  unfold MacUSignal_from_bitbuf. replace [true; true; s] with (val_bits 2 3 ++ img_bool s) by (by destruct s). parse.
  rewrite <- (app_nil_r (img_bool s)). eapply parses_bind; [apply read_flag_parses|apply parses_ret].
Qed.

Lemma u_signal_received u ind s msg a :
  i_logical_channel (n_prim ind) = Stch -> i_block_num (n_prim ind) = Block1 \/ i_block_num (n_prim ind) = Block2 ->
  holds (i_pdu (n_prim ind)) (true :: true :: s :: msg) -> msg <> [] ->
  current_ul_signal_addr u (t (msg_dltime u)) = Some (Some a) ->
  exists sdu, rx_ul_unitdata_ind u ind
    = Some (Some (u, (if s then [Blk2Stolen (msg_dltime u)] else []) ++ [LlcInd sdu a (i_scrambling_code (n_prim ind)) 0 false])) /\
    holds sdu msg.
Proof.
  intros Hc Hb Hh Hm Ha. unfold rx_ul_unitdata_ind. rewrite Hc.
  assert (Hn : negb (bool_decide (i_block_num (n_prim ind) = Block1) || bool_decide (i_block_num (n_prim ind) = Block2)) = false)
    by (by destruct Hb as [-> | ->]).
  rewrite Hn. unfold rx_ul_sch. set (pdu := i_pdu (n_prim ind)) in *. cbn [rx_ul_loop]. unfold rx_ul_pdu. rewrite Hc.
  pose proof (holds_remaining _ _ Hh) as Hr.
  rewrite (peek_type pdu true true s msg (ho_wf _ _ Hh) (ho_pos _ _ Hh) Hr), bind_Some.
  change (bool_decide (Stch = SchF) || bool_decide (Stch = Stch)) with true. cbn iota.
  assert (Et : MacPduType_try_from (Z.shiftr (bits_val [true; true; s]) 1) = Some SuppMacUSignal) by (by destruct s).
  rewrite Et. change (bool_decide (Stch = Stch)) with true. cbn iota.
  assert (Eu : exists sdu b, rx_ul_mac_u_signal u ind pdu
    = Some (u, (if s then [Blk2Stolen (msg_dltime u)] else []) ++ [LlcInd sdu a (i_scrambling_code (n_prim ind)) 0 false], b) /\
    holds sdu msg /\ start b = start pdu).
  { unfold rx_ul_mac_u_signal, parsing. rewrite (u_signal_parses s msg pdu (ho_wf _ _ Hh) Hr).
    destruct (parses_advance pdu [true; true; s] msg (ho_wf _ _ Hh) Hr) as (W1 & R1 & _). cbn [length] in *.
    set (pdu1 := with_pos pdu (pos pdu + 3)) in *. cbn [second_half_stolen].
    destruct (get_len_remaining pdu1 =? 0) eqn:E0.
    { apply Nat.eqb_eq in E0. pose proof (length_remaining pdu1) as Hx. unfold get_len_remaining in E0.
      rewrite R1, E0 in Hx. by destruct msg. }
    destruct (from_bitbuffer_pos_holds _ W1) as (sdu & -> & Hs). rewrite bind_Some, Ha, !bind_Some. rewrite R1 in Hs.
    eexists sdu, pdu1. split; [done|]. by split. }
  destruct Eu as (sdu & b & -> & Hs & Hst). cbn [fmap option_fmap option_map]. rewrite bind_Some, Hst, Nat.eqb_refl. cbn [negb andb].
  by exists sdu.
Qed.

(** A half slot as a mobile of the cell codes it: flag and message of a MAC-U-SIGNAL. *)
Definition coded_half (code : Z) (s : bool) (msg half : list bool) : Prop :=
  length msg = 121 /\
  exists b c, wf b /\ window b = true :: true :: s :: msg /\ holds c half /\
    encode_cp {| mac_block := b; logical_channel := Stch; scrambling_code := code |} = Some (Some c).

Lemma coded_half_decodes code s msg half r bt :
  coded_half code s msg half -> holds r half -> bt <> SB1 ->
  exists m, decode_cp Stch {| block_type := bt; block := r |} (Some code) = Some (Some m, true) /\
    holds m (true :: true :: s :: msg) /\ length half = 216.
Proof.
  intros (L & b & c & W & Hw & Hc & E) Hr Hbt.
  assert (L' : length (true :: true :: s :: msg) = type1_bits SCH_HD_PARAMS) by (cbn; by rewrite L).
  destruct (encode_decode_cp_sent Stch SCH_HD_PARAMS _ b code eq_refl eq_refl L' W Hw) as (c' & sent & E' & Hs & Ls & D).
  rewrite E in E'. injection E' as <-. pose proof (ho_window _ _ Hs) as H1. rewrite (ho_window _ _ Hc) in H1. subst sent.
  destruct (D r bt (Some code) Hr) as (m & Em & Hm); [by rewrite bool_decide_eq_false_2|]. by exists m.
Qed.

Section stealing.
Context (l : LmacBs) (u : UmacBs) (a : TetraAddress).
Context (O : lm_ok l) (Ht : b_dltime u = l_dltime l).
Context (i : nat) (Ei : ul_ts_index (t (ul_time_of l)) = Some i) (Hp : uplink_phy_chan l !! i = Some Tp).
Context (Ha : current_ul_signal_addr u (t (msg_dltime u)) = Some (Some a)).
Context (rssi : option Z).

Lemma same_time : msg_dltime u = ul_time_of l.
Proof using Ht. unfold msg_dltime, ul_time_of. by rewrite Ht. Qed.

(** The first half slot: what lower and upper MAC make of it. *)
Lemma first_half s msg half b :
  coded_half (l_scrambling_code l) s msg half -> holds b half ->
  exists l1 ind sdu, bs_rx_tp_prim l (rxblock NormalTrainSeq2 BurstNUB NUB Block1 b rssi) = Some (l1, [TmvIndMsg (n_prim ind) (n_rssi ind)]) /\
    marker_used l i l1 /\
    rx_ul_unitdata_ind u ind
    = Some (Some (u, (if s then [Blk2Stolen (msg_dltime u)] else []) ++ [LlcInd sdu a (l_scrambling_code l) 0 false])) /\
    holds sdu msg.
Proof using O Ei Hp Ha.
  intros Hc Hb. destruct (coded_half_decodes _ _ _ _ b NUB Hc Hb) as (m & Em & Hm & _); [done|].
  destruct (lookup_lt_is_Some_2 (blk2_stolen_at l) i) as [marker Hk].
  { rewrite (lk_stolen _ O). by eapply ul_ts_index_bound. }
  set (tp := rxblock NormalTrainSeq2 BurstNUB NUB Block1 b rssi).
  assert (Ec : determine_logical_channel_ul tp (bool_decide (Tp = Tp))
     (bool_decide (marker = Some (ul_time_of l)) && negb (bool_decide (p_block_num tp = Block1))) = Stch) by done.
  destruct (rx_tp_control l tp i Tp marker O Ei Hp Hk m) as (l1 & E1 & M1);
    [by left|by rewrite andb_false_r|rewrite Ec; by right; right|rewrite Ec; exact Em|]. rewrite Ec in E1.
  set (ind := mkInd (mkTmvInd m Block1 Stch (l_scrambling_code l)) rssi).
  destruct (u_signal_received u ind s msg a) as (sdu & Eu & Hs); [done|by left|exact Hm| |done|].
  { destruct Hc as [L _]. by destruct msg. }
  by exists l1, ind, sdu.
Qed.

(** The second half slot after the marker was set. *)
Lemma second_half_stolen_signalling l1 msg half b :
  marker_used l i l1 -> coded_half (l_scrambling_code l) false msg half -> holds b half ->
  exists l2 ind sdu, bs_rx_tp_prim (set_stolen l1 i (Some (ul_time_of l))) (rxblock NormalTrainSeq2 BurstNUB NUB Block2 b rssi)
      = Some (l2, [TmvIndMsg (n_prim ind) (n_rssi ind)]) /\
    marker_used l i l2 /\
    rx_ul_unitdata_ind u ind = Some (Some (u, [LlcInd sdu a (l_scrambling_code l) 0 false])) /\ holds sdu msg.
Proof using O Ei Hp Ha.
  intros (O1 & D1 & S1 & C1 & B1) Hc Hb. destruct (coded_half_decodes _ _ _ _ b NUB Hc Hb) as (m & Em & Hm & _); [done|].
  set (ls := set_stolen l1 i (Some (ul_time_of l))). assert (Os : lm_ok ls) by (by apply set_stolen_ok).
  assert (Et : ul_time_of ls = ul_time_of l) by (unfold ul_time_of; by cbn; rewrite D1).
  assert (Hi : i < 4) by (by eapply ul_ts_index_bound).
  assert (Hk : blk2_stolen_at ls !! i = Some (Some (ul_time_of l))).
  { cbn. apply list_lookup_insert_eq. rewrite (lk_stolen _ O1). lia. }
  set (tp := rxblock NormalTrainSeq2 BurstNUB NUB Block2 b rssi).
  assert (Ec : determine_logical_channel_ul tp (bool_decide (Tp = Tp))
     (bool_decide (Some (ul_time_of l) = Some (ul_time_of ls)) && negb (bool_decide (p_block_num tp = Block1))) = Stch).
  { rewrite Et, (bool_decide_eq_true_2 (Some (ul_time_of l) = _)) by done. done. }
  destruct (rx_tp_control ls tp i Tp (Some (ul_time_of l)) Os) with (x := m) as (l2 & E2 & M2);
    [by rewrite Et|cbn; by rewrite C1|exact Hk|by right|done|rewrite Ec; by right; right|rewrite Ec; cbn; by rewrite S1|].
  rewrite Ec in E2. set (ind := mkInd (mkTmvInd m Block2 Stch (l_scrambling_code l)) rssi).
  destruct (u_signal_received u ind false msg a) as (sdu & Eu & Hs); [done|by right|exact Hm| |done|].
  { destruct Hc as [L _]. by destruct msg. }
  exists l2, ind, sdu. split; [rewrite E2; cbn; by rewrite S1|]. split; [|done].
  destruct M2 as (O2 & D2 & S2 & C2 & B2). split; [done|]. cbn in *. split; [congruence|]. split; [congruence|]. split; [congruence|].
  by rewrite B2, B1, !list_insert_insert_eq.
Qed.

(** The second half slot without a marker. *)
Lemma second_half_speech l1 half b :
  marker_used l i l1 -> holds b half -> start b = 0 -> length half = 216 ->
  exists l2, bs_rx_tp_prim l1 (rxblock NormalTrainSeq2 BurstNUB NUB Block2 b rssi)
      = Some (l2, [TmdCircuitDataInd (t (ul_time_of l)) (b2z <$> half) (Some Block2)]) /\ marker_used l i l2.
Proof using O Ei Hp.
  clear Ht Ha a. intros (O1 & D1 & S1 & C1 & B1) Hb Hst L.
  assert (Et : ul_time_of l1 = ul_time_of l) by (unfold ul_time_of; by rewrite D1).
  assert (Hk : blk2_stolen_at l1 !! i = Some None).
  { rewrite B1. apply list_lookup_insert_eq. rewrite (lk_stolen _ O). by eapply ul_ts_index_bound. }
  destruct (rx_tp_raw l1 (rxblock NormalTrainSeq2 BurstNUB NUB Block2 b rssi) i Tp None O1) with (bits := half)
    as (l2 & E2 & O2 & D2 & S2 & C2 & B2); [by rewrite Et|by rewrite C1|done..|].
  rewrite Et in E2. exists l2. split; [done|]. split; [done|]. split; [congruence|]. split; [congruence|]. split; [congruence|].
  by rewrite B2, B1, list_insert_insert_eq.
Qed.

Lemma set_marker l1 :
  marker_used l i l1 ->
  bs_rx_tmv_configure_req l1 (mkConf None None (Some true) (Some (ul_time_of l))) = Some (set_stolen l1 i (Some (ul_time_of l))).
Proof using Ei. intros _. unfold bs_rx_tmv_configure_req. cbn -[ul_ts_index ul_time_of set_stolen]. by rewrite Ei. Qed.
End stealing.

Definition signalling (sdu : BitBuffer) (a : TetraAddress) (l : LmacBs) : BsMsg := TmaIndication sdu a (l_scrambling_code l) 0 false.

(** C13 (the first half slot decides about the second).  On a traffic timeslot with a known
    speaker a burst arrives whose first half slot is a MAC-U-SIGNAL.  If it says that the
    second half slot is stolen too, the mark reaches the lower MAC before the second half
    does, which is then decoded as signalling: the LLC gets both messages in order and no
    speech comes out.  If it does not, the LLC gets one message and the 216 bits of the
    second half slot, whatever they are, are passed on as speech.  Either way the mark is
    used up and the queue is empty after at most seven deliveries. *)
Theorem stolen_second_half l u a calls speech llc mm ts rssi i s msg1 msg2 half1 half2 head mid tail fuel :
  lm_ok l -> b_dltime u = l_dltime l -> ul_ts_index (t (ul_time_of l)) = Some i -> uplink_phy_chan l !! i = Some Tp ->
  current_ul_signal_addr u (t (msg_dltime u)) = Some (Some a) ->
  coded_half (l_scrambling_code l) s msg1 half1 -> length half2 = 216 ->
  (s = true -> coded_half (l_scrambling_code l) false msg2 half2) ->
  length head = 4 -> length mid = 22 -> length tail = 4 -> 7 <= fuel ->
  exists l' sdu1, marker_used l i l' /\ holds sdu1 msg1 /\
    let received speech' llc' :=
      receive_burst fuel (mkRxBurst NormalTrainSeq2 (b2z <$> head ++ half1 ++ mid ++ half2 ++ tail) rssi)
        (station l u calls speech llc mm [] ts)
      = Some (Some (station l' u calls (speech ++ speech') (llc ++ llc') mm [] ts)) in
    if s then exists sdu2, holds sdu2 msg2 /\ received [] [signalling sdu1 a l; signalling sdu2 a l]
    else received [TmdIndication (t (ul_time_of l)) (b2z <$> half2) (Some Block2)] [signalling sdu1 a l].
Proof.
  intros O Ht Ei Hp Ha H1 L2 H2 Lh Lm Lt Hf.
  assert (L1 : length half1 = 216).
  { destruct (from_bitarr_holds half1) as (c & _ & Hc & _). by destruct (coded_half_decodes _ _ _ _ c NUB H1 Hc) as (m & _ & _ & L). }
  destruct (split_nub2 head half1 mid half2 tail rssi Lh L1 Lm L2 Lt) as (b1 & b2 & Es & Hb1 & _ & Hb2 & Sb2).
  destruct (first_half l u a O i Ei Hp Ha rssi s msg1 half1 b1 H1 Hb1) as (l1 & ind1 & sdu1 & E1 & M1 & U1 & Hs1).
  unfold receive_burst. rewrite Es, bind_Some. cbn [fmap list_fmap foldl push_back app entities msg_queue r_ts station].
  change (mkRouter _ _ ts) with (station l u calls speech llc mm
    [TpIndication (rxblock NormalTrainSeq2 BurstNUB NUB Block1 b1 rssi); TpIndication (rxblock NormalTrainSeq2 BurstNUB NUB Block2 b2 rssi)] ts).
  do 7 (destruct fuel as [|fuel]; [lia|]).
  rewrite (next_delivery _ _ _ _ _ _ _ _ _ _ _ (deliver_tp _ _ _ _ _ _ _ _ _ _ _ E1)).
  cbn [foldl push_lmac push_prio]. replace (mkInd (n_prim ind1) (n_rssi ind1)) with ind1 by (by destruct ind1).
  rewrite (next_delivery _ _ _ _ _ _ _ _ _ _ _ (deliver_tmv _ _ _ _ _ _ _ _ _ _ _ U1)). rewrite (same_time l u Ht).
  destruct s; cbn [app List.filter is_call foldl push_umac push_prio]; rewrite app_nil_r; unfold push_back.
  - destruct (second_half_stolen_signalling l u a O i Ei Hp Ha rssi l1 msg2 half2 b2 M1 (H2 eq_refl) Hb2)
      as (l2 & ind2 & sdu2 & E2 & M2 & U2 & Hs2).
    exists l2, sdu1. split; [done|]. split; [done|]. exists sdu2. split; [done|]. cbn [app].
    rewrite (next_delivery _ _ _ _ _ _ _ _ _ _ _ (deliver_configure _ _ _ _ _ _ _ _ _ _ (set_marker l i Ei l1 M1))).
    cbn [app]. rewrite (next_delivery _ _ _ _ _ _ _ _ _ _ _ (deliver_tp _ _ _ _ _ _ _ _ _ _ _ E2)).
    cbn [foldl push_lmac push_prio]. replace (mkInd (n_prim ind2) (n_rssi ind2)) with ind2 by (by destruct ind2).
    rewrite (next_delivery _ _ _ _ _ _ _ _ _ _ _ (deliver_tmv _ _ _ _ _ _ _ _ _ _ _ U2)).
    cbn [app List.filter is_call foldl push_umac push_prio]. rewrite app_nil_r. unfold push_back. cbn [app].
    do 2 rewrite (next_delivery _ _ _ _ _ _ _ _ _ _ _ (deliver_tma _ _ _ _ _ _ _ _ (TmaIndication _ _ _ _ _) eq_refl)).
    rewrite deliver_all_done by done. by rewrite app_nil_r, <- app_assoc.
  - destruct (second_half_speech l O i Ei Hp rssi l1 half2 b2 M1 Hb2 Sb2 L2) as (l2 & E2 & M2).
    exists l2, sdu1. split; [done|]. split; [done|]. cbn [app].
    rewrite (next_delivery _ _ _ _ _ _ _ _ _ _ _ (deliver_tp _ _ _ _ _ _ _ _ _ _ _ E2)).
    cbn [foldl push_lmac]. unfold push_back. cbn [app].
    rewrite (next_delivery _ _ _ _ _ _ _ _ _ _ _ (deliver_tma _ _ _ _ _ _ _ _ (TmaIndication _ _ _ _ _) eq_refl)).
    rewrite (next_delivery _ _ _ _ _ _ _ _ _ _ _ (deliver_tmd _ _ _ _ _ _ _ _ _ _ _)).
    by rewrite deliver_all_done.
Qed.

Lemma coded_half_exists code s msg : length msg = 121 -> exists half, coded_half code s msg half /\ length half = 216.
Proof.
  intros L. destruct (from_bitarr_holds (true :: true :: s :: msg)) as (b & _ & Hb & _).
  assert (L' : length (true :: true :: s :: msg) = type1_bits SCH_HD_PARAMS) by (cbn; by rewrite L).
  destruct (encode_decode_cp_sent Stch SCH_HD_PARAMS _ b code eq_refl eq_refl L' (ho_wf _ _ Hb) (ho_window _ _ Hb))
    as (c & half & E & Hc & Lc & _).
  exists half. split; [|done]. split; [done|]. exists b, c. split; [apply Hb|]. split; [apply Hb|]. by split.
Qed.

(** A station with traffic and a speaker on every timeslot. *)
Definition busy_lmac : LmacBs :=
  foldl (fun l i => set_phy_chan l i Tp) (LmacBs_new 204 1337 1) [0; 1; 2; 3].
Definition busy_umac : UmacBs :=
  mkUmacBs (l_dltime busy_lmac) BsDefrag_new (sched_new 3) (replicate 4 (Some (mkAddr 2001 Issi))) ∅.

Lemma stolen_second_half_witness :
  let msg := replicate 121 false in
  exists half1 half2 l' sdu1 sdu2, holds sdu1 msg /\ holds sdu2 msg /\
    receive_burst 7 (mkRxBurst NormalTrainSeq2
        (b2z <$> replicate 4 false ++ half1 ++ replicate 22 true ++ half2 ++ replicate 4 false) None)
      (station busy_lmac busy_umac [] [] [] [] [] TdmaTime_default)
    = Some (Some (station l' busy_umac [] []
        [signalling sdu1 (mkAddr 2001 Issi) busy_lmac; signalling sdu2 (mkAddr 2001 Issi) busy_lmac] [] [] TdmaTime_default)).
Proof.
  intros msg. set (code := l_scrambling_code busy_lmac).
  destruct (coded_half_exists code true msg eq_refl) as (half1 & C1 & L1).
  destruct (coded_half_exists code false msg eq_refl) as (half2 & C2 & L2).
  assert (O : lm_ok busy_lmac) by (split; reflexivity).
  destruct (ul_time_index busy_lmac) as (i & Ei & Hi & Di).
  assert (Hp : uplink_phy_chan busy_lmac !! i = Some Tp) by (rewrite Di; vm_compute; reflexivity).
  destruct (stolen_second_half busy_lmac busy_umac (mkAddr 2001 Issi) [] [] [] [] TdmaTime_default None i true msg msg half1 half2
    (replicate 4 false) (replicate 22 true) (replicate 4 false) 7) as (l' & sdu1 & _ & H1 & sdu2 & H2 & E);
    [exact O|reflexivity|exact Ei|exact Hp|vm_compute; reflexivity|exact C1|exact L2|intros _; exact C2|reflexivity|reflexivity|reflexivity|lia|].
  exists half1, half2, l', sdu1, sdu2. exact (conj H1 (conj H2 E)).
Defined.
