(* ===== verification/Llc.v ===== *)
(** * The basic link (crates/tetra-entities/src/llc/llc_bs_ms.rs)

    The LLC entity of the stack, restricted to the basic link: TL-DATA and TL-UNITDATA
    requests become BL-DATA and BL-UDATA PDUs for the MAC, waiting acknowledgements are
    folded into them as BL-ADATA or sent as BL-ACK, transfers are repeated until they are
    acknowledged or given up, and received PDUs become indications and confirmations.

    The entity is a record, its message queue the list of messages pushed so far and the
    transmit receipts the store of TxReceipt.v.  [None] is a panic; a request or PDU of the
    advanced link, which is not modelled, is [None] too.  With no advanced link the
    advanced-link half of the entity's state stays empty and its part of [tick_end] does
    nothing.  Messages are typed by their constructor, which fixes their SAP, source and
    destination. *)

From Stdlib Require Import ZArith Lia ZifyNat.
From stdpp Require Import gmap strings.
From S2P Require Import Prelude.
From S2P Require Import BitBuffer.
From S2P Require Import Codec.
From S2P Require Import Fcs.
From S2P Require Import Tdma.
From S2P Require Import MacFields.
From S2P Require Import MacPdus.
From S2P Require Import Defrag.
From S2P Require Import TxReceipt.
From S2P Require Import Frag.
From S2P Require Import Downlink.
From S2P Require Import LlcPdus.

(** ** Constants *)

Definition TDMA_TIMESLOTS_PER_FRAME : Z := 4.
Definition N251_BL_MAX_TLSDU_LEN_BITS : nat := 2595.
Definition N252_BL_MAX_TLSDU_RETRANSMITS_ACKED : Z := 3.
Definition N253_BL_MAX_TLSDU_REPETITIONS_UNACKED : Z := 3.
Definition T251_SENDER_RETRY_TIMER : Z := frames 4.
Definition T251_SENDER_RETRY_SIGNALLING_FRAMES : Z := T251_SENDER_RETRY_TIMER / TDMA_TIMESLOTS_PER_FRAME.
Definition INBOUND_DUPLICATE_SUPPRESSION_SIGNALLING_FRAMES : Z :=
  (N252_BL_MAX_TLSDU_RETRANSMITS_ACKED + 1) * T251_SENDER_RETRY_SIGNALLING_FRAMES.
Definition CHANNEL_ALLOCATION_LATE_ACK_GRACE_SIGNALLING_FRAMES : Z := 18.
Definition N253_MAX_REQUESTED_TLSDU_REPEATS : Z := 5.
Definition TMA_HIGHEST_PDU_PRIORITY : Z := 7.
Definition COMMON_CONTROL_TIMESLOT : Z := 1.
(** 2^13, as [LLC_MAX_OUTBOUND_ACKED_MESSAGES] and [LLC_MAX_OUTBOUND_UDATA_MESSAGES]. *)
Definition LLC_MAX_OUTBOUND_ACKED_MESSAGES : nat := Z.to_nat 8192.
Definition LLC_MAX_OUTBOUND_UDATA_MESSAGES : nat := Z.to_nat 8192.

Definition TLA_REPORT_NO_SPECIFIC_REPORT : Z := 0.
Definition TLA_REPORT_FIRST_COMPLETE_TRANSMISSION : Z := 1.
Definition TLA_REPORT_FAILED_TRANSFER : Z := 2.
Definition TLA_REPORT_SUCCESSFUL_TRANSFER : Z := 3.

(** ** Primitives *)

Record CmceChanAllocReq := mkCmceChanAlloc {
  ca_usage : option Z;
  ca_carrier : option Z;
  ca_timeslots : list bool;  (* [bool; 4] *)
  ca_alloc_type : ChanAllocType;
  ca_ul_dl_assigned : UlDlAssignment
}.

Record TmaUnitdataReq := mkTmaUnitdataReq {
  tr_req_handle : Z;
  tr_pdu : BitBuffer;
  tr_main_address : TetraAddress;
  tr_endpoint_id : Z;
  tr_pdu_prio : Z;
  tr_stealing_permission : bool;
  tr_subscriber_class : Z;
  tr_air_interface_encryption : option Z;
  tr_stealing_repeats_flag : option bool;
  tr_data_category : option Z;
  tr_chan_alloc : option CmceChanAllocReq;
  tr_tx_reporter : option TxReporter
}.

Record TmaUnitdataInd := mkTmaUnitdataInd {
  ti_pdu : option BitBuffer;
  ti_main_address : TetraAddress;
  ti_scrambling_code : Z;
  ti_endpoint_id : Z;
  ti_new_endpoint_id : option Z;
  ti_css_endpoint_id : option Z;
  ti_air_interface_encryption : Z;
  ti_chan_change_response_req : bool;
  ti_chan_change_handle : option Z;
  ti_chan_info : option Z
}.

Inductive TmaReport :=
  | ConfirmHandle | SuccessRandomAccess | SuccessReservedOrStealing
  | FailedTransfer | FragmentationFailure | RandomAccessFailure.

(** TL-DATA request; [graceful_degradation] is never read. *)
Record TlaTlDataReqBl := mkTlDataReq {
  dr_main_address : TetraAddress;
  dr_link_id : Z;
  dr_endpoint_id : Z;
  dr_tl_sdu : BitBuffer;
  dr_pdu_prio : Z;
  dr_stealing_permission : bool;
  dr_subscriber_class : Z;
  dr_fcs_flag : bool;
  dr_air_interface_encryption : option Z;
  dr_stealing_repeats_flag : option bool;
  dr_data_class_info : option Z;
  dr_req_handle : Z;
  dr_chan_alloc : option CmceChanAllocReq;
  dr_tx_reporter : option TxReporter
}.

(** TL-DATA response; its scrambling code is never read. *)
Record TlDataRespBl := mkTlDataResp {
  dp_main_address : TetraAddress;
  dp_link_id : Z;
  dp_endpoint_id : Z;
  dp_tl_sdu : BitBuffer;
  dp_pdu_prio : Z;
  dp_stealing_permission : bool;
  dp_subscriber_class : Z;
  dp_fcs_flag : bool;
  dp_air_interface_encryption : Z;
  dp_stealing_repeats_flag : option bool;
  dp_data_class_info : option Z;
  dp_req_handle : Z
}.

(** TL-UNITDATA request; [packet_data_flag] is never read. *)
Record TlaTlUnitdataReqBl := mkTlUnitdataReq {
  ur_main_address : TetraAddress;
  ur_link_id : Z;
  ur_endpoint_id : Z;
  ur_tl_sdu : BitBuffer;
  ur_pdu_prio : Z;
  ur_stealing_permission : bool;
  ur_subscriber_class : Z;
  ur_fcs_flag : bool;
  ur_air_interface_encryption : option Z;
  ur_stealing_repeats_flag : option bool;
  ur_n_tlsdu_repeats : option Z;
  ur_data_class_info : option Z;
  ur_req_handle : Z;
  ur_chan_alloc : option CmceChanAllocReq;
  ur_tx_reporter : option TxReporter
}.

(** What TL-DATA and TL-UNITDATA indications and TL-DATA confirmations share. *)
Record TlIndication := mkTlInd {
  in_main_address : TetraAddress;
  in_link_id : Z;
  in_endpoint_id : Z;
  in_new_endpoint_id : option Z;
  in_css_endpoint_id : option Z;
  in_tl_sdu : option BitBuffer;
  in_scrambling_code : Z;
  in_fcs_flag : bool;
  in_air_interface_encryption : Z;
  in_chan_change_resp_req : bool;
  in_chan_change_handle : option Z;
  in_chan_info : option Z
}.

Inductive LlcMsg :=
  | TmaUnitdataReqMsg (prim : TmaUnitdataReq)
  | TmaCancelReqMsg (req_handle : Z)
  | TlaTlReportInd (req_handle report endpoint_id : Z)
  | TlDataConfBl (ind : TlIndication) (req_handle report : Z)
  | TlaTlDataIndBl (ind : TlIndication) (req_handle : Z)
  | TlaTlUnitdataIndBl (ind : TlIndication).

(** ** State *)

Record BasicLinkKey := mkKey { key_addr : TetraAddress; key_endpoint_id : Z }.
#[export] Instance BasicLinkKey_eq_dec : EqDecision BasicLinkKey.
Proof. solve_decision. Defined.
#[export] Instance BasicLinkKey_countable : Countable BasicLinkKey.
Proof.
  apply (inj_countable' (fun k => (key_addr k, key_endpoint_id k)) (fun p => mkKey p.1 p.2)). by intros [].
Defined.

Record ReceiveSeqState := mkReceiveSeq { last_ns : Z; received_at : TdmaTime; ack_timeslot : Z }.

(** A transfer waiting for submission or for its acknowledgement.  The retransmission
    buffer is always a TMA-UNITDATA request; [bl_type], always [Acknowledged] and never read,
    is left out. *)
Record ExpectedInAck := mkExpected {
  ea_ts : Z;
  ea_addr : TetraAddress;
  ea_ns : Z;
  ea_req_handle : Z;
  ea_link_id : Z;
  ea_endpoint_id : Z;
  ea_pdu_prio : Z;
  ea_fcs_flag : bool;
  ea_air_interface_encryption : Z;
  ea_stealing_repeats_flag : option bool;
  ea_t_first : TdmaTime;
  ea_t_submitted_to_umac : option TdmaTime;
  ea_t_umac_done : option TdmaTime;
  ea_t_retransmissions_exhausted : option TdmaTime;
  ea_tx_reporter : TxReporter;
  ea_current_mac_reporter : option TxReporter;
  ea_retransmission_buf : TmaUnitdataReq;
  ea_retransmit_count : Z;
  ea_first_complete_report_sent : bool
}.

Record ScheduledOutAck := mkScheduled {
  so_addr : TetraAddress;
  so_t_start : TdmaTime;
  so_nr : Z;
  so_ind_req_handle : Z;
  so_endpoint_id : Z;
  so_air_interface_encryption : Z;
  so_ts : Z
}.

Record QueuedUdata := mkUdata {
  qu_addr : TetraAddress;
  qu_t_first : TdmaTime;
  qu_req_handle : Z;
  qu_endpoint_id : Z;
  qu_pdu_prio : Z;
  qu_sapmsg : TmaUnitdataReq;
  qu_service_tx_reporter : option TxReporter;
  qu_current_mac_reporter : option TxReporter;
  qu_n253 : Z;
  qu_target_complete_transmissions : Z;
  qu_complete_transmissions : Z;
  qu_failed_transmissions : Z;
  qu_submitted : bool;
  qu_defer_mac_ready_once : bool
}.

Record Llc := mkLlc {
  dltime : TdmaTime;
  scheduled_out_acks : list ScheduledOutAck;
  outbound_messages : list ExpectedInAck;
  outbound_udata_messages : list QueuedUdata;
  link_send_seq : gmap BasicLinkKey Z;
  inbound_receive_seq : gmap BasicLinkKey ReceiveSeqState;
  next_tl_data_ind_req_handle : Z
}.

Definition Llc_new : Llc := mkLlc TdmaTime_default [] [] [] ∅ ∅ (-1).

(** Field updates. *)
Definition with_scheduled (self : Llc) l := mkLlc (dltime self) l (outbound_messages self)
  (outbound_udata_messages self) (link_send_seq self) (inbound_receive_seq self) (next_tl_data_ind_req_handle self).
Definition with_outbound (self : Llc) l := mkLlc (dltime self) (scheduled_out_acks self) l
  (outbound_udata_messages self) (link_send_seq self) (inbound_receive_seq self) (next_tl_data_ind_req_handle self).
Definition with_udata (self : Llc) l := mkLlc (dltime self) (scheduled_out_acks self) (outbound_messages self)
  l (link_send_seq self) (inbound_receive_seq self) (next_tl_data_ind_req_handle self).
Definition with_send_seq (self : Llc) m := mkLlc (dltime self) (scheduled_out_acks self) (outbound_messages self)
  (outbound_udata_messages self) m (inbound_receive_seq self) (next_tl_data_ind_req_handle self).
Definition with_receive_seq (self : Llc) m := mkLlc (dltime self) (scheduled_out_acks self) (outbound_messages self)
  (outbound_udata_messages self) (link_send_seq self) m (next_tl_data_ind_req_handle self).
Definition with_next_handle (self : Llc) n := mkLlc (dltime self) (scheduled_out_acks self) (outbound_messages self)
  (outbound_udata_messages self) (link_send_seq self) (inbound_receive_seq self) n.

(** The progress of a transfer: submission time, completion time, late-acknowledgement
    grace, reporter of the attempt, repetitions, and whether the first complete
    transmission was reported. *)
Definition ea_progress (a : ExpectedInAck) sub done exh mac count fst : ExpectedInAck :=
  mkExpected (ea_ts a) (ea_addr a) (ea_ns a) (ea_req_handle a) (ea_link_id a) (ea_endpoint_id a) (ea_pdu_prio a)
    (ea_fcs_flag a) (ea_air_interface_encryption a) (ea_stealing_repeats_flag a) (ea_t_first a) sub done exh
    (ea_tx_reporter a) mac (ea_retransmission_buf a) count fst.
Definition ea_with_done (a : ExpectedInAck) done : ExpectedInAck :=
  ea_progress a (ea_t_submitted_to_umac a) done (ea_t_retransmissions_exhausted a) (ea_current_mac_reporter a)
    (ea_retransmit_count a) (ea_first_complete_report_sent a).
Definition ea_with_exhausted (a : ExpectedInAck) exh : ExpectedInAck :=
  ea_progress a (ea_t_submitted_to_umac a) (ea_t_umac_done a) exh (ea_current_mac_reporter a)
    (ea_retransmit_count a) (ea_first_complete_report_sent a).
Definition ea_with_first_complete (a : ExpectedInAck) fst : ExpectedInAck :=
  ea_progress a (ea_t_submitted_to_umac a) (ea_t_umac_done a) (ea_t_retransmissions_exhausted a)
    (ea_current_mac_reporter a) (ea_retransmit_count a) fst.
Definition ea_retried (a : ExpectedInAck) : ExpectedInAck :=
  ea_progress a (ea_t_submitted_to_umac a) (ea_t_umac_done a) (ea_t_retransmissions_exhausted a)
    (ea_current_mac_reporter a) (ea_retransmit_count a + 1) (ea_first_complete_report_sent a).

(** [prim.pdu = pdu_buf] in the retransmission buffer, and a new N(S). *)
Definition tr_with_pdu (r : TmaUnitdataReq) pdu : TmaUnitdataReq :=
  mkTmaUnitdataReq (tr_req_handle r) pdu (tr_main_address r) (tr_endpoint_id r) (tr_pdu_prio r)
    (tr_stealing_permission r) (tr_subscriber_class r) (tr_air_interface_encryption r)
    (tr_stealing_repeats_flag r) (tr_data_category r) (tr_chan_alloc r) (tr_tx_reporter r).
Definition tr_with_reporter (r : TmaUnitdataReq) rep : TmaUnitdataReq :=
  mkTmaUnitdataReq (tr_req_handle r) (tr_pdu r) (tr_main_address r) (tr_endpoint_id r) (tr_pdu_prio r)
    (tr_stealing_permission r) (tr_subscriber_class r) (tr_air_interface_encryption r)
    (tr_stealing_repeats_flag r) (tr_data_category r) (tr_chan_alloc r) rep.
Definition ea_with_pdu (a : ExpectedInAck) (ns : Z) (pdu : BitBuffer) : ExpectedInAck :=
  mkExpected (ea_ts a) (ea_addr a) ns (ea_req_handle a) (ea_link_id a) (ea_endpoint_id a) (ea_pdu_prio a)
    (ea_fcs_flag a) (ea_air_interface_encryption a) (ea_stealing_repeats_flag a) (ea_t_first a)
    (ea_t_submitted_to_umac a) (ea_t_umac_done a) (ea_t_retransmissions_exhausted a) (ea_tx_reporter a)
    (ea_current_mac_reporter a) (tr_with_pdu (ea_retransmission_buf a) pdu) (ea_retransmit_count a)
    (ea_first_complete_report_sent a).

(** [for i in 0..v.len() { if p(&v[i]) { return v.remove(i) } } None], and [VecDeque::remove]. *)
Fixpoint take_first {A} (p : A -> bool) (l : list A) : option (A * list A) :=
  match l with
  | [] => None
  | x :: l' => if p x then Some (x, l') else '(y, rest) ← take_first p l'; Some (y, x :: rest)
  end.
Definition remove_at {A} (i : nat) (l : list A) : option (A * list A) :=
  x ← l !! i; Some (x, take i l ++ drop (S i) l).
(** [VecDeque::insert] *)
Definition insert_at {A} (i : nat) (x : A) (l : list A) : option (list A) :=
  if i <=? length l then Some (take i l ++ x :: drop i l) else None.

(** ** Building PDUs *)

Definition append_tl_sdu_and_optional_fcs (pdu_buf tl_sdu : BitBuffer) (has_fcs : bool) : option BitBuffer :=
  let tl_sdu_start := get_len_written pdu_buf in
  let sdu_len := get_len_remaining tl_sdu in
  '(pdu_buf, _) ← copy sdu_len pdu_buf tl_sdu;
  '(_, pdu_buf) ←
    (if has_fcs then
       fcs_value ← compute_fcs pdu_buf tl_sdu_start (get_len pdu_buf);
       run (write_bits fcs_value 32) pdu_buf
     else Some (tt, pdu_buf));
  '(_, pdu_buf) ← run (seek 0) pdu_buf;
  Some pdu_buf.

(** A PDU header in a fresh buffer, followed by the TL-SDU and its check sequence. *)
Definition build_pdu (header : M unit) (tl_sdu : BitBuffer) (has_fcs : bool) : option BitBuffer :=
  '(_, pdu_buf) ← run header (new_autoexpand 32);
  append_tl_sdu_and_optional_fcs pdu_buf tl_sdu has_fcs.

Definition n251_max_tl_sdu_bits (fcs_flag : bool) : nat :=
  let fcs_slack_bits := if fcs_flag then 0 else 32 in
  N251_BL_MAX_TLSDU_LEN_BITS + fcs_slack_bits.
Definition tl_sdu_exceeds_n251 (tl_sdu : BitBuffer) (fcs_flag : bool) : bool :=
  n251_max_tl_sdu_bits fcs_flag <? get_len_remaining tl_sdu.

Definition strip_validated_fcs (pdu : BitBuffer) : option BitBuffer :=
  payload_end ← usub (end_ pdu) 32;
  '(_, pdu) ← run (set_raw_end payload_end) pdu;
  Some pdu.

Definition cmce_to_mac_chanalloc_for_capacity (main_carrier : Z) (chan_alloc : CmceChanAllocReq) : ChanAllocElement :=
  let clch_permission :=
    (match ca_alloc_type chan_alloc with Replace | Additional => true | _ => false end) &&
    (match ca_ul_dl_assigned chan_alloc with Ul | Both => true | _ => false end) in
  mkChanAlloc (ca_alloc_type chan_alloc) (ca_timeslots chan_alloc) (ca_ul_dl_assigned chan_alloc)
    clch_permission false main_carrier None 0 (Some 0%Z).

Definition sch_f_mac_resource_tm_sdu_capacity_bits (main_carrier : Z) (addr : TetraAddress)
  (chan_alloc : option CmceChanAllocReq) : nat :=
  let mac_chan_alloc := cmce_to_mac_chanalloc_for_capacity main_carrier <$> chan_alloc in
  let usage_marker := chan_alloc ≫= ca_usage in
  let mac_resource := mkResource false 0 0 false 0 (Some addr) None usage_marker None None mac_chan_alloc in
  SCH_F_CAP - compute_header_len mac_resource.

Definition bl_adata_len_bits (tl_sdu : BitBuffer) (has_fcs : bool) : option nat :=
  '(_, header) ← run (BlAdata_to_bitbuf (mkBlAdata has_fcs 0 0)) (new_autoexpand 8);
  Some (get_len header + get_len_remaining tl_sdu + (if has_fcs then 1 else 0) * 32).

Definition bl_adata_exceeds_sch_f_capacity (main_carrier : Z) (addr : TetraAddress)
  (chan_alloc : option CmceChanAllocReq) (tl_sdu : BitBuffer) (has_fcs : bool) : option bool :=
  len ← bl_adata_len_bits tl_sdu has_fcs;
  Some (sch_f_mac_resource_tm_sdu_capacity_bits main_carrier addr chan_alloc <? len).

(** The PDU type, where the four bits are there and are one. *)
Definition peek_pdu_type (pdu : BitBuffer) : option (option LlcPduType) :=
  bits ← peek_bits pdu 4;
  Some (bits ≫= LlcPduType_try_from).

Record RebuildableAckTransfer := mkRebuildable { rb_has_fcs : bool; rb_tl_sdu : BitBuffer; rb_embedded_nr : option Z }.

(** The outer [option] is a panic. *)
Definition acknowledged_payload_for_rebuild (pdu : BitBuffer) : option (option RebuildableAckTransfer) :=
  pdu_type ← peek_pdu_type pdu;
  match pdu_type with
  | None => Some None
  | Some pdu_type =>
      header ←
        match pdu_type with
        | BlDataType | BlDataFcs =>
            match BlData_from_bitbuf pdu with
            | Ok header pdu => Some (Some (bt_has_fcs header, None, pdu))
            | Err _ _ => Some None
            | Panic => None
            end
        | BlAdataType | BlAdataFcs =>
            match BlAdata_from_bitbuf pdu with
            | Ok header pdu => Some (Some (bd_has_fcs header, Some (bd_nr header), pdu))
            | Err _ _ => Some None
            | Panic => None
            end
        | _ => Some None
        end;
      match header with
      | None => Some None
      | Some (has_fcs, embedded_nr, pdu) =>
          if has_fcs && (get_len_remaining pdu <? 32) then Some None
          else
            pdu ← (if has_fcs then strip_validated_fcs pdu else Some pdu);
            '(_, pdu) ← run (set_raw_start (pos pdu)) pdu;
            Some (Some (mkRebuildable has_fcs pdu embedded_nr))
      end
  end.

Definition rebuild_retransmission_as_bl_data (a : ExpectedInAck) (tl_sdu : BitBuffer) (has_fcs : bool)
  : option ExpectedInAck :=
  pdu_buf ← build_pdu (BlData_to_bitbuf (mkBlData has_fcs (ea_ns a))) tl_sdu has_fcs;
  Some (ea_with_pdu a (ea_ns a) pdu_buf).

Definition rebuild_retransmission_as_bl_adata (a : ExpectedInAck) (tl_sdu : BitBuffer) (has_fcs : bool) (nr : Z)
  : option ExpectedInAck :=
  pdu_buf ← build_pdu (BlAdata_to_bitbuf (mkBlAdata has_fcs nr (ea_ns a))) tl_sdu has_fcs;
  Some (ea_with_pdu a (ea_ns a) pdu_buf).

Definition rewrite_retransmission_ns (a : ExpectedInAck) (ns : Z) : option ExpectedInAck :=
  if (ea_ns a =? ns)%Z then Some a
  else
    rebuildable ← acknowledged_payload_for_rebuild (tr_pdu (ea_retransmission_buf a));
    let a := ea_with_pdu a ns (tr_pdu (ea_retransmission_buf a)) in
    match rebuildable with
    | Some r =>
        match rb_embedded_nr r with
        | Some nr => rebuild_retransmission_as_bl_adata a (rb_tl_sdu r) (rb_has_fcs r) nr
        | None => rebuild_retransmission_as_bl_data a (rb_tl_sdu r) (rb_has_fcs r)
        end
    | None => Some a
    end.

(** ** Links, timers and receipts *)

Definition expected_ack_key (a : ExpectedInAck) : BasicLinkKey := mkKey (ea_addr a) (ea_endpoint_id a).
Definition queued_udata_key (u : QueuedUdata) : BasicLinkKey := mkKey (qu_addr u) (qu_endpoint_id u).

(** Negative differences give 0; the [u32] conversion of the others is exact. *)
Definition downlink_signalling_frames_elapsed (start now : TdmaTime) (target_timeslot : Z) : Z :=
  if negb ((1 <=? target_timeslot) && (target_timeslot <=? 4))%Z then 0%Z
  else
    let first_counted := forward_to_timeslot (add_timeslots start 1) target_timeslot in
    let diff := diff now first_counted in
    if (diff <? 0)%Z then 0%Z else (u32 diff / 4 + 1)%Z.
Definition all_downlink_frames_elapsed (start now : TdmaTime) : Z :=
  let first_counted := forward_to_timeslot (add_timeslots start 1) 1 in
  let diff := diff now first_counted in
  if (diff <? 0)%Z then 0%Z else (u32 diff / TDMA_TIMESLOTS_PER_FRAME + 1)%Z.
Definition t251_downlink_frames_elapsed (start now : TdmaTime) (target_timeslot : Z) (stealing_repeats_flag : option bool) : Z :=
  match stealing_repeats_flag with
  | Some true => all_downlink_frames_elapsed start now
  | _ => downlink_signalling_frames_elapsed start now target_timeslot
  end.

Definition inbound_duplicate_state_expired (state : ReceiveSeqState) (now : TdmaTime) : bool :=
  (INBOUND_DUPLICATE_SUPPRESSION_SIGNALLING_FRAMES
   <? downlink_signalling_frames_elapsed (received_at state) now (ack_timeslot state))%Z.
Definition prune_expired_inbound_receive_seq (self : Llc) (now : TdmaTime) : Llc :=
  with_receive_seq self
    (filter (fun ks => inbound_duplicate_state_expired ks.2 now = false) (inbound_receive_seq self)).

Definition channel_allocation_late_ack_grace (a : ExpectedInAck) : option Z :=
  (fun _ => CHANNEL_ALLOCATION_LATE_ACK_GRACE_SIGNALLING_FRAMES) <$> tr_chan_alloc (ea_retransmission_buf a).
Definition late_ack_grace_expired (a : ExpectedInAck) (now : TdmaTime) : bool :=
  match ea_t_retransmissions_exhausted a with
  | None => false
  | Some started_at =>
      match channel_allocation_late_ack_grace a with
      | None => true
      | Some grace_frames =>
          (grace_frames <=? t251_downlink_frames_elapsed started_at now (ea_ts a) (ea_stealing_repeats_flag a))%Z
      end
  end.

(** The 1-based number of the first slot set. *)
Fixpoint first_slot_set (i : Z) (timeslots : list bool) : option Z :=
  match timeslots with
  | [] => None
  | set :: rest => if set then Some (i + 1)%Z else first_slot_set (i + 1) rest
  end.
Definition expected_ack_timeslot_for_outbound_bl (prim : TlaTlDataReqBl) : Z :=
  match dr_chan_alloc prim with
  | Some ca =>
      if negb (dr_stealing_permission prim) then COMMON_CONTROL_TIMESLOT
      else default COMMON_CONTROL_TIMESLOT (first_slot_set 0 (ca_timeslots ca))
  | None => COMMON_CONTROL_TIMESLOT
  end.

Definition ack_current_mac_state (a : ExpectedInAck) (heap : store) : option TxState :=
  get_state heap <$> ea_current_mac_reporter a.
Definition queued_udata_tx_state (u : QueuedUdata) (heap : store) : option TxState :=
  get_state heap <$> qu_current_mac_reporter u.

Definition mark_reporter_transmitted_if_pending (r : TxReporter) (heap : store) : store := (try_mark_transmitted r heap).2.
Definition mark_reporter_discarded_if_pending (r : TxReporter) (heap : store) : store := (try_mark_discarded r heap).2.
(** [if let Some(reporter) = ... { ... }] *)
Definition if_reporter (mark : TxReporter -> store -> store) (r : option TxReporter) (heap : store) : store :=
  match r with Some r => mark r heap | None => heap end.

Definition mark_ack_current_mac_transmitted (a : ExpectedInAck) : store -> store :=
  if_reporter mark_reporter_transmitted_if_pending (ea_current_mac_reporter a).
Definition mark_ack_current_mac_discarded (a : ExpectedInAck) : store -> store :=
  if_reporter mark_reporter_discarded_if_pending (ea_current_mac_reporter a).
Definition mark_ack_service_first_complete (a : ExpectedInAck) : store -> store :=
  mark_reporter_transmitted_if_pending (ea_tx_reporter a).
Definition mark_ack_service_failed (a : ExpectedInAck) (heap : store) : option store :=
  match get_state heap (ea_tx_reporter a) with
  | Pending => Some (try_mark_discarded (ea_tx_reporter a) heap).2
  | Transmitted => '(_, heap) ← try_mark_lost (ea_tx_reporter a) heap; Some heap
  | Discarded | Lost | Acknowledged => Some heap
  end.

(** The [take]n reporter is the second component. *)
Definition qu_with_mac (u : QueuedUdata) (mac : option TxReporter) (complete failed : Z) (submitted defer : bool) : QueuedUdata :=
  mkUdata (qu_addr u) (qu_t_first u) (qu_req_handle u) (qu_endpoint_id u) (qu_pdu_prio u) (qu_sapmsg u)
    (qu_service_tx_reporter u) mac (qu_n253 u) (qu_target_complete_transmissions u) complete failed submitted defer.
Definition mark_udata_current_mac_transmitted (u : QueuedUdata) (heap : store) : QueuedUdata * store :=
  (qu_with_mac u None (qu_complete_transmissions u) (qu_failed_transmissions u) (qu_submitted u) (qu_defer_mac_ready_once u),
   if_reporter mark_reporter_transmitted_if_pending (qu_current_mac_reporter u) heap).
Definition mark_udata_current_mac_discarded (u : QueuedUdata) (heap : store) : QueuedUdata * store :=
  (qu_with_mac u None (qu_complete_transmissions u) (qu_failed_transmissions u) (qu_submitted u) (qu_defer_mac_ready_once u),
   if_reporter mark_reporter_discarded_if_pending (qu_current_mac_reporter u) heap).
Definition mark_udata_service_transmitted (u : QueuedUdata) : store -> store :=
  if_reporter mark_reporter_transmitted_if_pending (qu_service_tx_reporter u).
Definition mark_udata_service_discarded (u : QueuedUdata) : store -> store :=
  if_reporter mark_reporter_discarded_if_pending (qu_service_tx_reporter u).

(** ** Messages *)

Definition push_tla_report (queue : list LlcMsg) (req_handle report endpoint_id : Z) : list LlcMsg :=
  queue ++ [TlaTlReportInd req_handle report (i32 endpoint_id)].
Definition push_tma_cancel (queue : list LlcMsg) (req_handle : Z) : list LlcMsg :=
  queue ++ [TmaCancelReqMsg req_handle].

Definition push_tl_data_conf (queue : list LlcMsg) (a : ExpectedInAck) (tl_sdu : option BitBuffer) (prim : TmaUnitdataInd)
  (fcs_flag : bool) (air_interface_encryption : Z) : list LlcMsg :=
  queue ++ [TlDataConfBl
    (mkTlInd (ea_addr a) (ea_link_id a) (ea_endpoint_id a) (i32 <$> ti_new_endpoint_id prim)
       (i32 <$> ti_css_endpoint_id prim) tl_sdu (i32 (ti_scrambling_code prim)) fcs_flag air_interface_encryption (ti_chan_change_response_req prim)
       (ti_chan_change_handle prim) (ti_chan_info prim))
    (ea_req_handle a) TLA_REPORT_SUCCESSFUL_TRANSFER].

(** ** Acknowledgements waiting to be sent *)

(** The first acknowledgement with the same SSI, SSI type and endpoint is overwritten, all
    fields included; with none, the new one is appended. *)
Fixpoint upsert_ack (ack : ScheduledOutAck) (acks : list ScheduledOutAck) : list ScheduledOutAck :=
  match acks with
  | [] => [ack]
  | existing :: rest =>
      if (ssi (so_addr existing) =? ssi (so_addr ack))%Z
         && bool_decide (ssi_type (so_addr existing) = ssi_type (so_addr ack))
         && (so_endpoint_id existing =? so_endpoint_id ack)%Z
      then ack :: rest else existing :: upsert_ack ack rest
  end.
Definition upsert_scheduled_out_ack (acks : list ScheduledOutAck) (dltime : TdmaTime) (addr : TetraAddress)
  (endpoint_id ns ind_req_handle air_interface_encryption : Z) : list ScheduledOutAck :=
  upsert_ack (mkScheduled addr dltime ns ind_req_handle endpoint_id air_interface_encryption (t dltime)) acks.

Definition schedule_outgoing_ack (self : Llc) (dltime : TdmaTime) (addr : TetraAddress)
  (endpoint_id ns ind_req_handle air_interface_encryption : Z) : Llc :=
  with_scheduled self (upsert_scheduled_out_ack (scheduled_out_acks self) dltime addr endpoint_id ns ind_req_handle
    air_interface_encryption).

(** [ack.addr == addr && ack.endpoint_id == endpoint_id] *)
Definition ack_on (addr : TetraAddress) (endpoint_id : Z) (ack : ScheduledOutAck) : bool :=
  bool_decide (so_addr ack = addr) && (so_endpoint_id ack =? endpoint_id)%Z.

Definition cancel_scheduled_out_ack_for_new_bl_data (self : Llc) (addr : TetraAddress) (endpoint_id : Z) : Llc :=
  match take_first (ack_on addr endpoint_id) (scheduled_out_acks self) with
  | Some (_, rest) => with_scheduled self rest
  | None => self
  end.
Definition scheduled_out_ack_handle_for_key (self : Llc) (key : BasicLinkKey) : option Z :=
  so_ind_req_handle <$> List.find (ack_on (key_addr key) (key_endpoint_id key)) (scheduled_out_acks self).
Definition take_scheduled_out_ack_for_response (self : Llc) (addr : TetraAddress) (endpoint_id req_handle : Z)
  : option (ScheduledOutAck * Llc) :=
  '(ack, rest) ← take_first (fun ack => ack_on addr endpoint_id ack && (so_ind_req_handle ack =? req_handle)%Z)
                   (scheduled_out_acks self);
  Some (ack, with_scheduled self rest).

(** Handles of TL-DATA indications count down from -1 through the [i32]s. *)
Definition take_tl_data_ind_req_handle (self : Llc) : Z * Llc :=
  let handle := next_tl_data_ind_req_handle self in
  (handle, with_next_handle self (if (handle =? -2147483648)%Z then -1 else handle - 1)%Z).

(** The stealing channel allocation of an acknowledgement that goes out on slots 2 to 4. *)
Definition ack_steals (ts : Z) : bool := ((2 <=? ts) && (ts <=? 4))%Z.
Definition ack_chan_alloc (ts : Z) : option CmceChanAllocReq :=
  if ack_steals ts
  then Some (mkCmceChanAlloc None None (<[Z.to_nat (ts - 1) := true]> (replicate 4 false)) Replace Both)
  else None.

Definition push_standalone_bl_ack (queue : list LlcMsg) (ack : ScheduledOutAck) : option (list LlcMsg) :=
  let steal := ack_steals (so_ts ack) in
  '(_, pdu_buf) ← run (BlAck_to_bitbuf (mkBlAck false (so_nr ack))) (new_autoexpand 5);
  '(_, pdu_buf) ← run (seek 0) pdu_buf;
  Some (queue ++ [TmaUnitdataReqMsg
    (mkTmaUnitdataReq (so_ind_req_handle ack) pdu_buf (so_addr ack) (so_endpoint_id ack) 5 steal 0
       (Some (so_air_interface_encryption ack)) None None (ack_chan_alloc (so_ts ack)) None)]).

(** ** Acknowledged transfers *)

(** [vs] toggles between 0 and 1. *)
Definition get_next_send_seq (self : Llc) (addr : TetraAddress) (endpoint_id : Z) : Z * Llc :=
  let key := mkKey addr endpoint_id in
  let vs := default 0%Z (link_send_seq self !! key) in
  (vs, with_send_seq self (<[key := Z.lxor vs 1]> (link_send_seq self))).

Definition take_expected_ack_for_key (key : BasicLinkKey) (outbound : list ExpectedInAck)
  : option (ExpectedInAck * list ExpectedInAck) :=
  take_first (fun a => bool_decide (expected_ack_key a = key) && bool_decide (is_Some (ea_t_submitted_to_umac a))) outbound.

Definition submit_for_acknowledged_transmission (queue : list LlcMsg) (a : ExpectedInAck) (dltime : TdmaTime) (heap : store)
  : list LlcMsg * ExpectedInAck * store :=
  let '(mac_reporter, heap) := new_unacked heap in
  let prim := tr_with_reporter (ea_retransmission_buf a) (Some mac_reporter) in
  (queue ++ [TmaUnitdataReqMsg prim],
   ea_progress a (Some dltime) None (ea_t_retransmissions_exhausted a) (Some mac_reporter) (ea_retransmit_count a)
     (ea_first_complete_report_sent a),
   heap).

Section basic_link.

(** [config.cell.main_carrier] *)
Variable main_carrier : Z.

Definition fold_waiting_ack_into_mac_ready_bl_data (queue : list LlcMsg) (scheduled : list ScheduledOutAck)
  (a : ExpectedInAck) : option (list LlcMsg * list ScheduledOutAck * ExpectedInAck) :=
  rebuildable ← acknowledged_payload_for_rebuild (tr_pdu (ea_retransmission_buf a));
  match rebuildable with
  | None => Some (queue, scheduled, a)
  | Some r =>
      match take_first (ack_on (ea_addr a) (ea_endpoint_id a)) scheduled with
      | None =>
          if bool_decide (is_Some (rb_embedded_nr r)) && (0 <? ea_retransmit_count a)%Z && ea_first_complete_report_sent a
          then a ← rebuild_retransmission_as_bl_data a (rb_tl_sdu r) (rb_has_fcs r); Some (queue, scheduled, a)
          else Some (queue, scheduled, a)
      | Some (waiting_ack, scheduled) =>
          exceeds ← bl_adata_exceeds_sch_f_capacity main_carrier (ea_addr a) (tr_chan_alloc (ea_retransmission_buf a))
                      (rb_tl_sdu r) (rb_has_fcs r);
          if (exceeds : bool) then
            queue ← push_standalone_bl_ack queue waiting_ack;
            a ← rebuild_retransmission_as_bl_data a (rb_tl_sdu r) (rb_has_fcs r);
            Some (queue, scheduled, a)
          else
            a ← rebuild_retransmission_as_bl_adata a (rb_tl_sdu r) (rb_has_fcs r) (so_nr waiting_ack);
            Some (queue, scheduled, a)
      end
  end.

(** [if !ack.first_complete_report_sent { ... }] *)
Definition report_first_complete (queue : list LlcMsg) (a : ExpectedInAck) (heap : store)
  : ExpectedInAck * list LlcMsg * store :=
  if negb (ea_first_complete_report_sent a) then
    (ea_with_first_complete a true,
     push_tla_report queue (ea_req_handle a) TLA_REPORT_FIRST_COMPLETE_TRANSMISSION (ea_endpoint_id a),
     mark_ack_service_first_complete a heap)
  else (a, queue, heap).

(** Returns whether a report was pushed. *)
Definition reconcile_umac_done_from_reporter (queue : list LlcMsg) (a : ExpectedInAck) (dltime : TdmaTime) (heap : store)
  : bool * list LlcMsg * ExpectedInAck * store :=
  let mac_state := ack_current_mac_state a heap in
  let settled := match mac_state with Some Transmitted | Some Discarded => true | _ => false end in
  if bool_decide (is_Some (ea_t_umac_done a)) || negb settled then (false, queue, a, heap)
  else
    let a := ea_with_done a (Some dltime) in
    if bool_decide (mac_state = Some Transmitted) && negb (ea_first_complete_report_sent a) then
      let heap := mark_ack_service_first_complete a heap in
      (true, push_tla_report queue (ea_req_handle a) TLA_REPORT_FIRST_COMPLETE_TRANSMISSION (ea_endpoint_id a),
       ea_with_first_complete a true, heap)
    else (false, queue, a, heap).

(** The acknowledged transfer, if any, and the effects. *)
Definition process_incoming_ack (self : Llc) (queue : list LlcMsg) (addr : TetraAddress) (endpoint_id nr : Z) (heap : store)
  : option (option ExpectedInAck * Llc * list LlcMsg * store) :=
  match take_expected_ack_for_key (mkKey addr endpoint_id) (outbound_messages self) with
  | None => Some (None, self, queue, heap)
  | Some (a, rest) =>
      let self := with_outbound self rest in
      let '(_, queue, a, heap) := reconcile_umac_done_from_reporter queue a (dltime self) heap in
      if bool_decide (ea_t_umac_done a = None) || negb (ea_first_complete_report_sent a) then
        if (ea_ns a =? nr)%Z then
          let heap := mark_ack_current_mac_transmitted a heap in
          let a := ea_with_done a (Some (dltime self)) in
          let '(a, queue, heap) := report_first_complete queue a heap in
          heap ← mark_acknowledged (ea_tx_reporter a) heap;
          Some (Some a, self, queue, heap)
        else Some (None, with_outbound self (a :: outbound_messages self), queue, heap)
      else if (ea_ns a =? nr)%Z then
        heap ← mark_acknowledged (ea_tx_reporter a) heap;
        Some (Some a, self, queue, heap)
      else if (ea_retransmit_count a <? N252_BL_MAX_TLSDU_RETRANSMITS_ACKED)%Z then
        let a := ea_progress a None None None None (ea_retransmit_count a + 1) (ea_first_complete_report_sent a) in
        Some (None, with_outbound self (a :: outbound_messages self), queue, heap)
      else
        heap ← mark_ack_service_failed a heap;
        Some (None, self, push_tla_report queue (ea_req_handle a) TLA_REPORT_FAILED_TRANSFER (ea_endpoint_id a), heap)
  end.

(** TL-DATA request; a request with a link identifier is one of the advanced link. *)
Definition rx_tla_tldata_req_bl (self : Llc) (queue : list LlcMsg) (prim : TlaTlDataReqBl) (heap : store)
  : option (Llc * list LlcMsg * store) :=
  _ ← assert_ (dr_link_id prim =? 0)%Z;
  if bool_decide (ssi_type (dr_main_address prim) = Gssi) then Some (self, queue, heap)
  else if tl_sdu_exceeds_n251 (dr_tl_sdu prim) (dr_fcs_flag prim) then
    heap ← match dr_tx_reporter prim with Some reporter => mark_discarded reporter heap | None => Some heap end;
    Some (self, push_tla_report queue (dr_req_handle prim) TLA_REPORT_FAILED_TRANSFER (dr_endpoint_id prim), heap)
  else if LLC_MAX_OUTBOUND_ACKED_MESSAGES <=? length (outbound_messages self) then
    (* reject_tldata_backlog_full *)
    let heap := if_reporter mark_reporter_discarded_if_pending (dr_tx_reporter prim) heap in
    Some (self, push_tla_report queue (dr_req_handle prim) TLA_REPORT_FAILED_TRANSFER (dr_endpoint_id prim), heap)
  else
    let derived_ts := expected_ack_timeslot_for_outbound_bl prim in
    let '(ns, self) := get_next_send_seq self (dr_main_address prim) (dr_endpoint_id prim) in
    pdu_buf ← build_pdu (BlData_to_bitbuf (mkBlData (dr_fcs_flag prim) ns)) (dr_tl_sdu prim) (dr_fcs_flag prim);
    let '(tx_reporter, heap) :=
      match dr_tx_reporter prim with Some r => (r, heap) | None => TxReporter_new heap end in
    let sapmsg := mkTmaUnitdataReq (dr_req_handle prim) pdu_buf (dr_main_address prim) (dr_endpoint_id prim)
      (dr_pdu_prio prim) (dr_stealing_permission prim) (dr_subscriber_class prim) (dr_air_interface_encryption prim)
      (dr_stealing_repeats_flag prim) (dr_data_class_info prim) (dr_chan_alloc prim) None in
    let ack := mkExpected derived_ts (dr_main_address prim) ns (dr_req_handle prim) (dr_link_id prim) (dr_endpoint_id prim)
      (dr_pdu_prio prim) (dr_fcs_flag prim) (default 0%Z (dr_air_interface_encryption prim))
      (dr_stealing_repeats_flag prim) (dltime self) None None None tx_reporter None sapmsg 0 false in
    Some (with_outbound self (outbound_messages self ++ [ack]),
          push_tla_report queue (dr_req_handle prim) TLA_REPORT_NO_SPECIFIC_REPORT (dr_endpoint_id prim), heap).

(** TL-DATA response: carried by the waiting BL-ACK, or sent as an acknowledged transfer
    of its own when that one has left. *)
Definition rx_tla_tldata_resp_bl (self : Llc) (queue : list LlcMsg) (prim : TlDataRespBl) (heap : store)
  : option (Llc * list LlcMsg * store) :=
  if tl_sdu_exceeds_n251 (dp_tl_sdu prim) (dp_fcs_flag prim) then
    Some (self, push_tla_report queue (dp_req_handle prim) TLA_REPORT_FAILED_TRANSFER (dp_endpoint_id prim), heap)
  else
    match take_scheduled_out_ack_for_response self (dp_main_address prim) (dp_endpoint_id prim) (dp_req_handle prim) with
    | None =>
        rx_tla_tldata_req_bl self queue
          (mkTlDataReq (dp_main_address prim) (dp_link_id prim) (dp_endpoint_id prim) (dp_tl_sdu prim) (dp_pdu_prio prim)
             (dp_stealing_permission prim) (dp_subscriber_class prim) (dp_fcs_flag prim)
             (Some (dp_air_interface_encryption prim)) (dp_stealing_repeats_flag prim) (dp_data_class_info prim)
             (dp_req_handle prim) None None) heap
    | Some (ack, self) =>
        let has_payload := 0 <? get_len_remaining (dp_tl_sdu prim) in
        let pdu := mkBlAck (dp_fcs_flag prim && has_payload) (so_nr ack) in
        pdu_buf ← build_pdu (BlAck_to_bitbuf pdu) (dp_tl_sdu prim) (ba_has_fcs pdu);
        Some (self, queue ++ [TmaUnitdataReqMsg
          (mkTmaUnitdataReq (dp_req_handle prim) pdu_buf (so_addr ack) (dp_endpoint_id prim) 5 (ack_steals (so_ts ack))
             (dp_subscriber_class prim) (Some (dp_air_interface_encryption prim)) (dp_stealing_repeats_flag prim)
             (dp_data_class_info prim) (ack_chan_alloc (so_ts ack)) None)], heap)
    end.

(** ** Unacknowledged transfers *)

(** The selection loops: over the elements not skipped, the index of the one whose priority
    none after it beats; [keeps selected prio] says that the selected one stays. *)
Definition select_by {A} (skip : A -> bool) (prio : A -> Z) (keeps : Z -> Z -> bool) (l : list A) : option nat :=
  fst <$> foldl (fun (selected : option (nat * Z)) ix =>
    let '(idx, x) := ix in
    if skip x then selected
    else match selected with
         | Some (_, selected_prio) => if keeps selected_prio (prio x) then selected else Some (idx, prio x)
         | None => Some (idx, prio x)
         end) None (imap pair l).

Definition lowest_priority_unsubmitted_udata_below (messages : list QueuedUdata) (incoming_pdu_prio : Z) : option nat :=
  select_by (fun u => qu_submitted u || (incoming_pdu_prio <=? qu_pdu_prio u)%Z) qu_pdu_prio Z.leb messages.

(** The [while] loop removes a message per iteration, so the number of messages is fuel enough. *)
Fixpoint ensure_udata_backlog_capacity_loop (fuel : nat) (queue : list LlcMsg) (messages : list QueuedUdata)
  (incoming_pdu_prio : Z) (limit : nat) (heap : store) : bool * list LlcMsg * list QueuedUdata * store :=
  match fuel with
  | O => (false, queue, messages, heap)
  | S fuel' =>
      if negb (limit <=? length messages) then (true, queue, messages, heap)
      else
        match lowest_priority_unsubmitted_udata_below messages incoming_pdu_prio with
        | None => (false, queue, messages, heap)
        | Some victim_idx =>
            match remove_at victim_idx messages with
            | None => (false, queue, messages, heap)
            | Some (victim, messages) =>
                let '(victim, heap) := mark_udata_current_mac_discarded victim heap in
                let heap := mark_udata_service_discarded victim heap in
                ensure_udata_backlog_capacity_loop fuel'
                  (push_tla_report queue (qu_req_handle victim) TLA_REPORT_FAILED_TRANSFER (qu_endpoint_id victim))
                  messages incoming_pdu_prio limit heap
            end
        end
  end.
Definition ensure_udata_backlog_capacity (queue : list LlcMsg) (messages : list QueuedUdata) (incoming_pdu_prio : Z)
  (limit : nat) (heap : store) : bool * list LlcMsg * list QueuedUdata * store :=
  ensure_udata_backlog_capacity_loop (S (length messages)) queue messages incoming_pdu_prio limit heap.

Definition reject_tl_unitdata_backlog_full (queue : list LlcMsg) (prim : TlaTlUnitdataReqBl) (heap : store)
  : list LlcMsg * store :=
  (push_tla_report queue (ur_req_handle prim) TLA_REPORT_FAILED_TRANSFER (ur_endpoint_id prim),
   if_reporter mark_reporter_discarded_if_pending (ur_tx_reporter prim) heap).

(** N.253 as requested, at most 5. *)
Definition n253_of (n_tlsdu_repeats : option Z) : Z :=
  match n_tlsdu_repeats with
  | Some requested => Z.min requested N253_MAX_REQUESTED_TLSDU_REPEATS
  | None => Z.min N253_BL_MAX_TLSDU_REPETITIONS_UNACKED N253_MAX_REQUESTED_TLSDU_REPEATS
  end.
(** [u8::saturating_add] *)
Definition saturating_add (a b : Z) : Z := Z.min 255 (a + b).

Definition rx_tla_tlunitdata_req_bl (self : Llc) (queue : list LlcMsg) (prim : TlaTlUnitdataReqBl) (heap : store)
  : option (Llc * list LlcMsg * store) :=
  if negb (ur_link_id prim =? 0)%Z then
    let '(queue, heap) := reject_tl_unitdata_backlog_full queue prim heap in Some (self, queue, heap)
  else if tl_sdu_exceeds_n251 (ur_tl_sdu prim) (ur_fcs_flag prim) then
    heap ← match ur_tx_reporter prim with Some reporter => mark_discarded reporter heap | None => Some heap end;
    Some (self, push_tla_report queue (ur_req_handle prim) TLA_REPORT_FAILED_TRANSFER (ur_endpoint_id prim), heap)
  else
    let '(room, queue, messages, heap) :=
      ensure_udata_backlog_capacity queue (outbound_udata_messages self) (ur_pdu_prio prim)
        LLC_MAX_OUTBOUND_UDATA_MESSAGES heap in
    let self := with_udata self messages in
    if negb room then
      let '(queue, heap) := reject_tl_unitdata_backlog_full queue prim heap in Some (self, queue, heap)
    else
      pdu_buf ← build_pdu (BlUdata_to_bitbuf (mkBlUdata (ur_fcs_flag prim))) (ur_tl_sdu prim) (ur_fcs_flag prim);
      let sapmsg := mkTmaUnitdataReq (ur_req_handle prim) pdu_buf (ur_main_address prim) (ur_endpoint_id prim)
        (ur_pdu_prio prim) (ur_stealing_permission prim) (ur_subscriber_class prim) (ur_air_interface_encryption prim)
        (ur_stealing_repeats_flag prim) (ur_data_class_info prim) (ur_chan_alloc prim) None in
      let n253 := n253_of (ur_n_tlsdu_repeats prim) in
      let udata := mkUdata (ur_main_address prim) (dltime self) (ur_req_handle prim) (ur_endpoint_id prim)
        (ur_pdu_prio prim) sapmsg (ur_tx_reporter prim) None n253 (saturating_add n253 1) 0 0 false false in
      Some (with_udata self (outbound_udata_messages self ++ [udata]), queue, heap).

(** ** Reports of the MAC *)

(** Indices (from the front) of the elements that satisfy [p]. *)
Definition indices {A} (p : A -> bool) (l : list A) : list nat :=
  fst <$> List.filter (fun ix => p ix.2) (imap pair l).

Inductive TmaReportOwner := BlDataOwner (idx : nat) | BlUdataOwner (idx : nat).

Definition submitted_ack_with (req_handle : Z) (a : ExpectedInAck) : bool :=
  (ea_req_handle a =? req_handle)%Z && bool_decide (is_Some (ea_t_submitted_to_umac a)).

(** [inr n]: ambiguous, [n] requests match. *)
Definition single_tma_report_owner_by_req_handle (self : Llc) (req_handle : Z) : option TmaReportOwner + nat :=
  let found :=
    (BlDataOwner <$> indices (submitted_ack_with req_handle) (outbound_messages self)) ++
    (BlUdataOwner <$> indices (fun u => (qu_req_handle u =? req_handle)%Z && qu_submitted u) (outbound_udata_messages self)) in
  if 1 <? length found then inr (length found) else inl (last found).
Definition single_queued_udata_index_by_req_handle (self : Llc) (req_handle : Z) : option nat + nat :=
  let found := indices (fun u => (qu_req_handle u =? req_handle)%Z) (outbound_udata_messages self) in
  if 1 <? length found then inr (length found) else inl (last found).

Definition handle_udata_tma_report_at_index (self : Llc) (queue : list LlcMsg) (report : TmaReport) (idx : nat) (heap : store)
  : option (Llc * list LlcMsg * store) :=
  match report with
  | ConfirmHandle => Some (self, queue, heap)
  | _ =>
      u ← outbound_udata_messages self !! idx;
      if negb (qu_submitted u) then Some (self, queue, heap)
      else
        '(_, rest) ← remove_at idx (outbound_udata_messages self);
        let drop_with (u : QueuedUdata) report heap :=
          (with_udata self rest, push_tla_report queue (qu_req_handle u) report (qu_endpoint_id u), heap) in
        let keep u heap := (with_udata self (<[idx := u]> (outbound_udata_messages self)), queue, heap) in
        match report with
        | SuccessRandomAccess =>
            let '(u, heap) := mark_udata_current_mac_transmitted u heap in
            Some (drop_with u TLA_REPORT_SUCCESSFUL_TRANSFER (mark_udata_service_transmitted u heap))
        | SuccessReservedOrStealing =>
            let '(u, heap) := mark_udata_current_mac_transmitted u heap in
            let u := qu_with_mac u (qu_current_mac_reporter u) (saturating_add (qu_complete_transmissions u) 1)
                       (qu_failed_transmissions u) false (qu_defer_mac_ready_once u) in
            Some (if (qu_target_complete_transmissions u <=? qu_complete_transmissions u)%Z
                  then drop_with u TLA_REPORT_SUCCESSFUL_TRANSFER (mark_udata_service_transmitted u heap)
                  else keep u heap)
        | FailedTransfer | FragmentationFailure =>
            let '(u, heap) := mark_udata_current_mac_discarded u heap in
            let u := qu_with_mac u (qu_current_mac_reporter u) (qu_complete_transmissions u)
                       (saturating_add (qu_failed_transmissions u) 1) false (qu_defer_mac_ready_once u) in
            let max_failed_transmissions := if (qu_n253 u =? 0)%Z then 2%Z else saturating_add (qu_n253 u) 1 in
            Some (if (max_failed_transmissions <=? qu_failed_transmissions u)%Z
                     && (qu_complete_transmissions u <? qu_target_complete_transmissions u)%Z
                  then drop_with u TLA_REPORT_FAILED_TRANSFER (mark_udata_service_discarded u heap)
                  else keep u heap)
        | RandomAccessFailure =>
            let '(u, heap) := mark_udata_current_mac_discarded u heap in
            Some (drop_with u TLA_REPORT_FAILED_TRANSFER (mark_udata_service_discarded u heap))
        | ConfirmHandle => None
        end
  end.

Definition handle_udata_tma_report (self : Llc) (queue : list LlcMsg) (req_handle : Z) (report : TmaReport) (heap : store)
  : option (Llc * list LlcMsg * store) :=
  match single_queued_udata_index_by_req_handle self req_handle with
  | inl (Some idx) => handle_udata_tma_report_at_index self queue report idx heap
  | _ => Some (self, queue, heap)
  end.

Definition rx_tma_report_ind (self : Llc) (queue : list LlcMsg) (req_handle : Z) (report : TmaReport) (heap : store)
  : option (Llc * list LlcMsg * store) :=
  match single_tma_report_owner_by_req_handle self req_handle with
  | inr _ => Some (self, queue, heap)
  | inl None => handle_udata_tma_report self queue req_handle report heap
  | inl (Some (BlUdataOwner idx)) => handle_udata_tma_report_at_index self queue report idx heap
  | inl (Some (BlDataOwner idx)) =>
      '(a, rest) ← remove_at idx (outbound_messages self);
      match report with
      | RandomAccessFailure | FailedTransfer =>
          heap ← mark_ack_service_failed a (mark_ack_current_mac_discarded a heap);
          Some (with_outbound self rest,
                push_tla_report queue (ea_req_handle a) TLA_REPORT_FAILED_TRANSFER (ea_endpoint_id a), heap)
      | FragmentationFailure =>
          let heap := mark_ack_current_mac_discarded a heap in
          let a := ea_with_exhausted (ea_with_done a (Some (dltime self))) None in
          if (ea_retransmit_count a <? N252_BL_MAX_TLSDU_RETRANSMITS_ACKED)%Z then
            let a := ea_retried a in
            let resubmit_time := forward_to_timeslot (dltime self) (t (ea_t_first a)) in
            '(queue, scheduled, a) ← fold_waiting_ack_into_mac_ready_bl_data queue (scheduled_out_acks self) a;
            let '(queue, a, heap) := submit_for_acknowledged_transmission queue a resubmit_time heap in
            outbound ← insert_at idx a rest;
            Some (with_outbound (with_scheduled self scheduled) outbound, queue, heap)
          else
            heap ← mark_ack_service_failed a heap;
            Some (with_outbound self rest,
                  push_tla_report queue (ea_req_handle a) TLA_REPORT_FAILED_TRANSFER (ea_endpoint_id a), heap)
      | ConfirmHandle => Some (self, queue, heap)
      | SuccessRandomAccess | SuccessReservedOrStealing =>
          let heap := mark_ack_current_mac_transmitted a heap in
          let a := if bool_decide (ea_t_umac_done a = None) then ea_with_done a (Some (dltime self)) else a in
          let '(a, queue, heap) := report_first_complete queue a heap in
          Some (with_outbound self (<[idx := a]> (outbound_messages self)), queue, heap)
      end
  end.

(** ** Received PDUs *)

(** What a TL-DATA or TL-UNITDATA indication takes from the MAC's. *)
Definition ind_of (prim : TmaUnitdataInd) (tl_sdu : option BitBuffer) (has_fcs : bool) : TlIndication :=
  mkTlInd (ti_main_address prim) 0 (ti_endpoint_id prim) (ti_new_endpoint_id prim) (ti_css_endpoint_id prim) tl_sdu
    (ti_scrambling_code prim) has_fcs (ti_air_interface_encryption prim) (ti_chan_change_response_req prim)
    (ti_chan_change_handle prim) (ti_chan_info prim).

(** The header: whether there is an FCS, N(S), N(R), and the rest of the PDU; [Some None]
    where it does not parse. *)
Definition parse_bl_header (pdu_type : LlcPduType) (pdu : BitBuffer)
  : option (option (bool * option Z * option Z * BitBuffer)) :=
  match pdu_type with
  | BlAdataType | BlAdataFcs =>
      match BlAdata_from_bitbuf pdu with
      | Ok h pdu => Some (Some (bd_has_fcs h, Some (bd_ns h), Some (bd_nr h), pdu))
      | Err _ _ => Some None | Panic => None
      end
  | BlDataType | BlDataFcs =>
      match BlData_from_bitbuf pdu with
      | Ok h pdu => Some (Some (bt_has_fcs h, Some (bt_ns h), None, pdu))
      | Err _ _ => Some None | Panic => None
      end
  | BlAckType | BlAckFcs =>
      match BlAck_from_bitbuf pdu with
      | Ok h pdu => Some (Some (ba_has_fcs h, None, Some (ba_nr h), pdu))
      | Err _ _ => Some None | Panic => None
      end
  | BlUdataType | BlUdataFcs =>
      match BlUdata_from_bitbuf pdu with
      | Ok h pdu => Some (Some (bu_has_fcs h, None, None, pdu))
      | Err _ _ => Some None | Panic => None
      end
  | _ => Some None
  end.

(** A valid N(S): the handle of its indication, whether it repeats the last one, and the
    entity with its receive state updated and the acknowledgement scheduled. *)
Definition receive_ns (self : Llc) (prim : TmaUnitdataInd) (ns : Z) : Z * bool * Llc :=
  let msg_dltime := add_timeslots (dltime self) (-2) in
  let self := prune_expired_inbound_receive_seq self (dltime self) in
  let key := mkKey (ti_main_address prim) (ti_endpoint_id prim) in
  let duplicate_inbound_ns :=
    match inbound_receive_seq self !! key with Some receive_seq => (last_ns receive_seq =? ns)%Z | None => false end in
  let '(handle, self) :=
    if duplicate_inbound_ns then
      match scheduled_out_ack_handle_for_key self key with
      | Some handle => (handle, self)
      | None => take_tl_data_ind_req_handle self
      end
    else
      let '(handle, self) := take_tl_data_ind_req_handle self in
      (handle, with_receive_seq self (<[key := mkReceiveSeq ns msg_dltime (t msg_dltime)]> (inbound_receive_seq self))) in
  (handle, duplicate_inbound_ns,
   schedule_outgoing_ack self msg_dltime (ti_main_address prim) (ti_endpoint_id prim) ns handle
     (ti_air_interface_encryption prim)).

(** [pdu.set_raw_start(pdu.get_raw_pos())] *)
Definition from_here (pdu : BitBuffer) : option BitBuffer := snd <$> run (set_raw_start (pos pdu)) pdu.

Definition is_bl_adata_type (pdu_type : LlcPduType) : bool :=
  match pdu_type with BlAdataType | BlAdataFcs => true | _ => false end.
Definition is_bl_ack_type (pdu_type : LlcPduType) : bool :=
  match pdu_type with BlAckType | BlAckFcs => true | _ => false end.
Definition is_bl_udata_type (pdu_type : LlcPduType) : bool :=
  match pdu_type with BlUdataType | BlUdataFcs => true | _ => false end.

(** After the acknowledgement half of a PDU: the confirmation and the indication. *)
Definition deliver_bl (self : Llc) (queue : list LlcMsg) (prim : TmaUnitdataInd) (pdu_type : LlcPduType) (pdu : BitBuffer)
  (has_fcs fcs_ok : bool) (ind : option (Z * bool)) (matching_ack : option ExpectedInAck)
  : option (Llc * list LlcMsg) :=
  let is_bl_ack := is_bl_ack_type pdu_type in
  let has_sdu := 0 <? get_len_remaining pdu in
  match matching_ack, is_bl_ack with
  | Some ack, true =>
      tl_sdu ← (if fcs_ok && has_sdu then pdu ← from_here pdu; Some (Some pdu) else Some None);
      Some (self, push_tl_data_conf queue ack tl_sdu prim has_fcs (ti_air_interface_encryption prim))
  | None, true =>
      if fcs_ok && has_sdu then
        pdu ← from_here pdu;
        let '(handle, self) := take_tl_data_ind_req_handle self in
        Some (self, queue ++ [TlaTlDataIndBl (ind_of prim (Some pdu) has_fcs) handle])
      else Some (self, queue)
  | _, false =>
      let queue :=
        match matching_ack with
        | Some ack =>
            if is_bl_adata_type pdu_type
            then push_tl_data_conf queue ack None prim (ea_fcs_flag ack) (ea_air_interface_encryption ack) else queue
        | None => queue
        end in
      if negb fcs_ok then Some (self, queue)
      else if match ind with Some (_, duplicate_inbound_ns) => duplicate_inbound_ns | None => false end then Some (self, queue)
      else
        pdu ← from_here pdu;
        let tl_sdu := if 0 <? get_len_remaining pdu then Some pdu else None in
        if is_bl_udata_type pdu_type then Some (self, queue ++ [TlaTlUnitdataIndBl (ind_of prim tl_sdu has_fcs)])
        else
          '(handle, _) ← ind;
          Some (self, queue ++ [TlaTlDataIndBl (ind_of prim tl_sdu has_fcs) handle])
  end.

Definition rx_tma_unitdata_ind_bl (self : Llc) (queue : list LlcMsg) (prim : TmaUnitdataInd) (pdu : BitBuffer)
  (heap : store) : option (Llc * list LlcMsg * store) :=
  pdu_type ← peek_pdu_type pdu;
  match pdu_type with
  | None => Some (self, queue, heap)
  | Some pdu_type =>
      header ← parse_bl_header pdu_type pdu;
      match header with
      | None => Some (self, queue, heap)
      | Some (has_fcs, ns, nr, pdu) =>
          fcs_ok ← (if negb has_fcs then Some true else check_fcs pdu);
          let self :=
            if bool_decide (is_Some ns) && negb fcs_ok
            then cancel_scheduled_out_ack_for_new_bl_data self (ti_main_address prim) (ti_endpoint_id prim) else self in
          if has_fcs && negb fcs_ok && match pdu_type with BlDataFcs | BlUdataFcs => true | _ => false end
          then Some (self, queue, heap)
          else
            pdu ← (if has_fcs && fcs_ok then strip_validated_fcs pdu else Some pdu);
            let '(ind, self) :=
              match ns with
              | Some ns =>
                  if fcs_ok then let '(handle, dup, self) := receive_ns self prim ns in (Some (handle, dup), self)
                  else (None, self)
              | None => (None, self)
              end in
            '(matching_ack, self, queue, heap) ←
              match nr with
              | Some nr => process_incoming_ack self queue (ti_main_address prim) (ti_endpoint_id prim) nr heap
              | None => Some (None, self, queue, heap)
              end;
            '(self, queue) ← deliver_bl self queue prim pdu_type pdu has_fcs fcs_ok ind matching_ack;
            Some (self, queue, heap)
      end
  end.

Definition rx_tma_unitdata_ind (self : Llc) (queue : list LlcMsg) (prim : TmaUnitdataInd) (heap : store)
  : option (Llc * list LlcMsg * store) :=
  match ti_pdu prim with
  | None => Some (self, queue, heap)
  | Some pdu =>
      pdu_type ← peek_pdu_type pdu;
      match pdu_type with
      | None => Some (self, queue, heap)
      | Some (BlAdataType | BlAdataFcs | BlDataType | BlDataFcs | BlUdataType | BlUdataFcs | BlAckType | BlAckFcs) =>
          rx_tma_unitdata_ind_bl self queue prim pdu heap
      | Some (AlSetup | AlDataAlFinal | AlAckAlRnr) => None
      | Some (AlAlUdataAlUfinal | AlReconnect | AlDisc | SuppLlcPdu | L2SigPdu) => Some (self, queue, heap)
      end
  end.

(** ** End of a timeslot *)

(** One transfer in the retransmission pass; the last component asks for its removal.
    The pass only reads [dltime] and the waiting acknowledgements of the entity. *)
Definition retransmit_one (dltime : TdmaTime) (queue : list LlcMsg) (scheduled : list ScheduledOutAck) (a : ExpectedInAck)
  (heap : store) : option (bool * list LlcMsg * list ScheduledOutAck * ExpectedInAck * store * bool) :=
  let '(act, queue, a, heap) := reconcile_umac_done_from_reporter queue a dltime heap in
  if bool_decide (is_Some (ea_t_retransmissions_exhausted a)) then
    Some (act, queue, scheduled, a, heap, late_ack_grace_expired a dltime)
  else
    match ea_t_umac_done a with
    | None => Some (act, queue, scheduled, a, heap, false)
    | Some t_umac_done =>
        let age := t251_downlink_frames_elapsed t_umac_done dltime (ea_ts a) (ea_stealing_repeats_flag a) in
        if (T251_SENDER_RETRY_SIGNALLING_FRAMES <=? age)%Z then
          if (ea_retransmit_count a <? N252_BL_MAX_TLSDU_RETRANSMITS_ACKED)%Z then
            let a := ea_with_exhausted (ea_retried a) None in
            '(queue, scheduled, a) ← fold_waiting_ack_into_mac_ready_bl_data queue scheduled a;
            let '(queue, a, heap) :=
              submit_for_acknowledged_transmission queue a (forward_to_timeslot dltime (t (ea_t_first a))) heap in
            Some (true, queue, scheduled, a, heap, false)
          else
            match channel_allocation_late_ack_grace a with
            | Some _ => Some (act, queue, scheduled, ea_with_exhausted a (Some dltime), heap, false)
            | None => Some (act, queue, scheduled, a, heap, true)
            end
        else Some (act, queue, scheduled, a, heap, false)
    end.

(** [for ack in self.outbound_messages.iter_mut()]; the keys to remove are collected in order. *)
Fixpoint retransmit_pass (dltime : TdmaTime) (queue : list LlcMsg) (scheduled : list ScheduledOutAck)
  (outbound : list ExpectedInAck) (heap : store)
  : option (bool * list LlcMsg * list ScheduledOutAck * list ExpectedInAck * store * list BasicLinkKey) :=
  match outbound with
  | [] => Some (false, queue, scheduled, [], heap, [])
  | a :: rest =>
      '(act, queue, scheduled, a, heap, gone) ← retransmit_one dltime queue scheduled a heap;
      '(act', queue, scheduled, rest, heap, removals) ← retransmit_pass dltime queue scheduled rest heap;
      Some (act || act', queue, scheduled, a :: rest, heap,
            (if gone : bool then [expected_ack_key a] else []) ++ removals)
  end.

(** [for key in removals { ... }] *)
Fixpoint remove_exhausted (queue : list LlcMsg) (outbound : list ExpectedInAck) (heap : store) (removals : list BasicLinkKey)
  : option (list LlcMsg * list ExpectedInAck * store) :=
  match removals with
  | [] => Some (queue, outbound, heap)
  | key :: removals =>
      match take_expected_ack_for_key key outbound with
      | None => remove_exhausted queue outbound heap removals
      | Some (a, outbound) =>
          heap ← mark_ack_service_failed a heap;
          remove_exhausted (push_tla_report queue (ea_req_handle a) TLA_REPORT_FAILED_TRANSFER (ea_endpoint_id a))
            outbound heap removals
      end
  end.

Definition submit_retransmissions_to_umac (self : Llc) (queue : list LlcMsg) (heap : store)
  : option (bool * Llc * list LlcMsg * store) :=
  '(act, queue, scheduled, outbound, heap, removals) ←
    retransmit_pass (dltime self) queue (scheduled_out_acks self) (outbound_messages self) heap;
  '(queue, outbound, heap) ← remove_exhausted queue outbound heap removals;
  Some (act, with_outbound (with_scheduled self scheduled) outbound, queue, heap).

Definition unsubmitted_on (key : BasicLinkKey) (a : ExpectedInAck) : bool :=
  bool_decide (expected_ack_key a = key) && bool_decide (ea_t_submitted_to_umac a = None).

Definition unsubmitted_ack_indices_for_key (outbound : list ExpectedInAck) (key : BasicLinkKey) : list nat :=
  indices (unsubmitted_on key) outbound.

(** [sort_by] by decreasing priority, then increasing index.  The indices come in increasing
    order and the sort is stable, so inserting each behind those of at least its priority
    gives the order. *)
Fixpoint insert_by_prio (prio : nat -> Z) (i : nat) (l : list nat) : list nat :=
  match l with
  | [] => [i]
  | j :: l' => if (prio j <? prio i)%Z then i :: l else j :: insert_by_prio prio i l'
  end.
Definition sort_by_prio (prio : nat -> Z) (l : list nat) : list nat := foldl (fun acc i => insert_by_prio prio i acc) [] l.

Definition normalize_unsubmitted_ns_for_key (outbound : list ExpectedInAck) (key : BasicLinkKey)
  : option (list ExpectedInAck) :=
  let indices := unsubmitted_ack_indices_for_key outbound key in
  if length indices <? 2 then Some outbound
  else
    ns_sequence ← mapM (fun idx => ea_ns <$> outbound !! idx) indices;
    let prio idx := match outbound !! idx with Some a => ea_pdu_prio a | None => 0%Z end in
    foldM (fun outbound (ix : nat * Z) =>
      let '(idx, ns) := ix in
      a ← outbound !! idx;
      a ← rewrite_retransmission_ns a ns;
      Some (<[idx := a]> outbound)) (zip (sort_by_prio prio indices) ns_sequence) outbound.

Definition highest_priority_unsubmitted_ack_index (outbound : list ExpectedInAck) (link_blocked : gset BasicLinkKey) : option nat :=
  select_by (fun a => bool_decide (is_Some (ea_t_submitted_to_umac a)) || bool_decide (expected_ack_key a ∈ link_blocked))
    ea_pdu_prio (fun selected prio => prio <=? selected)%Z outbound.

Definition highest_unsubmitted_pdu_prio_for_key (outbound : list ExpectedInAck) (key : BasicLinkKey) : option Z :=
  foldl (fun acc a =>
    if unsubmitted_on key a then Some (match acc with Some m => Z.max m (ea_pdu_prio a) | None => ea_pdu_prio a end)
    else acc) None outbound.

(** The waiting priority a transfer of priority [prio] on [key] has to give way to. *)
Definition gives_way (outbound : list ExpectedInAck) (key : BasicLinkKey) (prio : Z) : bool :=
  match highest_unsubmitted_pdu_prio_for_key outbound key with
  | None => false
  | Some highest_waiting_prio =>
      (TMA_HIGHEST_PDU_PRIORITY <=? highest_waiting_prio)%Z && (prio <? highest_waiting_prio)%Z
  end.

Definition ack_to_cancel (outbound : list ExpectedInAck) (heap : store) (a : ExpectedInAck) : bool :=
  if bool_decide (ea_t_submitted_to_umac a = None) || bool_decide (is_Some (ea_t_umac_done a))
     || negb (bool_decide (ack_current_mac_state a heap = Some Pending)) || (TMA_HIGHEST_PDU_PRIORITY <=? ea_pdu_prio a)%Z
  then false else gives_way outbound (expected_ack_key a) (ea_pdu_prio a).
Definition udata_to_cancel (outbound : list ExpectedInAck) (heap : store) (u : QueuedUdata) : bool :=
  if negb (qu_submitted u) || qu_defer_mac_ready_once u || (TMA_HIGHEST_PDU_PRIORITY <=? qu_pdu_prio u)%Z
     || match queued_udata_tx_state u heap with Some state => negb (bool_decide (state = Pending)) | None => false end
  then false else gives_way outbound (queued_udata_key u) (qu_pdu_prio u).

(** Both index lists are computed before anything is cancelled; the two loops then run over
    distinct indices, each touching its own transfer. *)
Definition cancel_ack (queue : list LlcMsg) (a : ExpectedInAck) (heap : store) : list LlcMsg * ExpectedInAck * store :=
  (push_tma_cancel queue (ea_req_handle a),
   ea_progress a None None (ea_t_retransmissions_exhausted a) None (ea_retransmit_count a) (ea_first_complete_report_sent a),
   mark_ack_current_mac_discarded a heap).
Definition cancel_udata (queue : list LlcMsg) (u : QueuedUdata) (heap : store) : list LlcMsg * QueuedUdata * store :=
  let '(u', heap) := mark_udata_current_mac_discarded u heap in
  (push_tma_cancel queue (qu_req_handle u),
   qu_with_mac u' (qu_current_mac_reporter u') (qu_complete_transmissions u') (qu_failed_transmissions u') false true, heap).

(** [for idx in idxs { let x = &mut v[idx]; ... }] *)
Definition for_indices {A} (f : list LlcMsg -> A -> store -> list LlcMsg * A * store) (idxs : list nat)
  (queue : list LlcMsg) (l : list A) (heap : store) : option (list LlcMsg * list A * store) :=
  foldM (fun (s : list LlcMsg * list A * store) idx =>
    let '(queue, l, heap) := s in
    x ← l !! idx;
    let '(queue, x, heap) := f queue x heap in
    Some (queue, <[idx := x]> l, heap)) idxs (queue, l, heap).

Definition cancel_lower_priority_pending_mac_transfers_for_emergency (self : Llc) (queue : list LlcMsg) (heap : store)
  : option (bool * Llc * list LlcMsg * store) :=
  let cancel_ack_indices := indices (ack_to_cancel (outbound_messages self) heap) (outbound_messages self) in
  let cancel_udata_indices := indices (udata_to_cancel (outbound_messages self) heap) (outbound_udata_messages self) in
  '(queue, outbound, heap) ← for_indices cancel_ack cancel_ack_indices queue (outbound_messages self) heap;
  '(queue, udata, heap) ← for_indices cancel_udata cancel_udata_indices queue (outbound_udata_messages self) heap;
  Some (negb (length cancel_ack_indices =? 0) || negb (length cancel_udata_indices =? 0),
        with_udata (with_outbound self outbound) udata, queue, heap).

(** The [while] loop submits a transfer per iteration, so their number is fuel enough. *)
Fixpoint submit_free_loop (fuel : nat) (act : bool) (self : Llc) (link_blocked : gset BasicLinkKey) (queue : list LlcMsg)
  (heap : store) : option (bool * Llc * list LlcMsg * store) :=
  match fuel with
  | O => Some (act, self, queue, heap)
  | S fuel' =>
      match highest_priority_unsubmitted_ack_index (outbound_messages self) link_blocked with
      | None => Some (act, self, queue, heap)
      | Some idx =>
          key ← expected_ack_key <$> outbound_messages self !! idx;
          outbound ← normalize_unsubmitted_ns_for_key (outbound_messages self) key;
          a ← outbound !! idx;
          '(queue, scheduled, a) ← fold_waiting_ack_into_mac_ready_bl_data queue (scheduled_out_acks self) a;
          let '(queue, a, heap) :=
            submit_for_acknowledged_transmission queue a (forward_to_timeslot (dltime self) (t (ea_t_first a))) heap in
          submit_free_loop fuel' true (with_outbound (with_scheduled self scheduled) (<[idx := a]> outbound))
            ({[key]} ∪ link_blocked) queue heap
      end
  end.

Definition blocked_links (outbound : list ExpectedInAck) : gset BasicLinkKey :=
  list_to_set (expected_ack_key <$> List.filter (fun a => bool_decide (is_Some (ea_t_submitted_to_umac a))) outbound).

Definition submit_free_messages_to_umac (self : Llc) (queue : list LlcMsg) (heap : store)
  : option (bool * Llc * list LlcMsg * store) :=
  '(act, self, queue, heap) ← cancel_lower_priority_pending_mac_transfers_for_emergency self queue heap;
  submit_free_loop (S (length (outbound_messages self))) act self (blocked_links (outbound_messages self)) queue heap.

Definition submit_ack_replies_to_umac (self : Llc) (queue : list LlcMsg) : option (bool * Llc * list LlcMsg) :=
  queue ← foldM push_standalone_bl_ack (scheduled_out_acks self) queue;
  Some (negb (length (scheduled_out_acks self) =? 0), with_scheduled self [], queue).

Definition highest_priority_unsubmitted_udata_index (messages : list QueuedUdata) : option nat :=
  select_by (fun u => qu_submitted u || qu_defer_mac_ready_once u) qu_pdu_prio (fun selected prio => prio <=? selected)%Z messages.

Fixpoint submit_udata_loop (fuel : nat) (act : bool) (messages : list QueuedUdata) (queue : list LlcMsg) (heap : store)
  : option (bool * list QueuedUdata * list LlcMsg * store) :=
  match fuel with
  | O => Some (act, messages, queue, heap)
  | S fuel' =>
      match highest_priority_unsubmitted_udata_index messages with
      | None => Some (act, messages, queue, heap)
      | Some idx =>
          u ← messages !! idx;
          let '(mac_reporter, heap) := new_unacked heap in
          let prim := tr_with_reporter (qu_sapmsg u) (Some mac_reporter) in
          let u := qu_with_mac u (Some mac_reporter) (qu_complete_transmissions u) (qu_failed_transmissions u) true
                     (qu_defer_mac_ready_once u) in
          submit_udata_loop fuel' true (<[idx := u]> messages) (queue ++ [TmaUnitdataReqMsg prim]) heap
      end
  end.

Definition submit_udata_msgs_to_umac (self : Llc) (queue : list LlcMsg) (heap : store)
  : option (bool * Llc * list LlcMsg * store) :=
  '(act, messages, queue, heap) ←
    submit_udata_loop (S (length (outbound_udata_messages self))) false (outbound_udata_messages self) queue heap;
  let messages := (fun u => qu_with_mac u (qu_current_mac_reporter u) (qu_complete_transmissions u)
                              (qu_failed_transmissions u) (qu_submitted u) false) <$> messages in
  Some (act, with_udata self messages, queue, heap).

Definition tick_start (self : Llc) (ts : TdmaTime) : Llc :=
  mkLlc ts (scheduled_out_acks self) (outbound_messages self) (outbound_udata_messages self) (link_send_seq self)
    (inbound_receive_seq self) (next_tl_data_ind_req_handle self).

Definition tick_end (self : Llc) (queue : list LlcMsg) (heap : store) : option (bool * Llc * list LlcMsg * store) :=
  '(act1, self, queue, heap) ← submit_retransmissions_to_umac self queue heap;
  '(act2, self, queue, heap) ← submit_free_messages_to_umac self queue heap;
  '(act3, self, queue) ← submit_ack_replies_to_umac self queue;
  '(act4, self, queue, heap) ← submit_udata_msgs_to_umac self queue heap;
  Some (act1 || act2 || act3 || act4, self, queue, heap).

(** ** Primitives *)

Inductive LlcPrim :=
  | PrimDataReq (prim : TlaTlDataReqBl)
  | PrimDataResp (prim : TlDataRespBl)
  | PrimUnitdataReq (prim : TlaTlUnitdataReqBl)
  | PrimReport (req_handle : Z) (report : TmaReport)
  | PrimUnitdataInd (prim : TmaUnitdataInd).

(** [rx_prim] with the dispatch of [rx_tla_prim] and [rx_tma_prim]. *)
Definition rx_prim (self : Llc) (queue : list LlcMsg) (message : LlcPrim) (heap : store) : option (Llc * list LlcMsg * store) :=
  match message with
  | PrimDataReq prim => rx_tla_tldata_req_bl self queue prim heap
  | PrimDataResp prim => rx_tla_tldata_resp_bl self queue prim heap
  | PrimUnitdataReq prim => rx_tla_tlunitdata_req_bl self queue prim heap
  | PrimReport req_handle report => rx_tma_report_ind self queue req_handle report heap
  | PrimUnitdataInd prim => rx_tma_unitdata_ind self queue prim heap
  end.

End basic_link.
