(* ===== verification/LlcFacts.v ===== *)
(** * Basic link PDUs: what is built, taken apart and received

    Facts on the PDU handling of Llc.v, stated on bit strings: a PDU is a header, the TL-SDU
    and, in the FCS variants, the check sequence of the TL-SDU. *)

From Stdlib Require Import ZArith Lia ZifyNat.
From stdpp Require Import gmap strings.
From S2P Require Import Prelude.
From S2P Require Import BitBuffer.
From S2P Require Import BitBufferFacts.
From S2P Require Import Codec.
From S2P Require Import Fcs.
From S2P Require Import MacFields.
From S2P Require Import Frag.
From S2P Require Import Robust.
From S2P Require Import LlcPdus.
From S2P Require Import Llc.

(** N(S) and N(R) are single bits. *)
Definition seq_bit (n : Z) : Prop := (0 <= n < 2)%Z.

Definition fcs_img (has_fcs : bool) (sdu : list bool) : list bool :=
  if has_fcs then val_bits 32 (fcs_of sdu) else [].

(** Headers of BL-DATA and, with an N(R), BL-ADATA; and of BL-ACK and BL-UDATA. *)
Definition data_hdr (has_fcs : bool) (nr : option Z) (ns : Z) : list bool :=
  match nr with
  | None => bl_img has_fcs 1 [] ++ val_bits 1 ns
  | Some nr => bl_img has_fcs 0 [] ++ val_bits 1 nr ++ val_bits 1 ns
  end.
Definition ack_hdr (has_fcs : bool) (nr : Z) : list bool := bl_img has_fcs 3 [] ++ val_bits 1 nr.
Definition udata_hdr (has_fcs : bool) : list bool := bl_img has_fcs 2 [].

(** The PDU with header [hdr] that carries [sdu]. *)
Definition pdu_img (hdr : list bool) (has_fcs : bool) (sdu : list bool) : list bool := hdr ++ sdu ++ fcs_img has_fcs sdu.
Definition data_img (has_fcs : bool) (nr : option Z) (ns : Z) (sdu : list bool) : list bool :=
  pdu_img (data_hdr has_fcs nr ns) has_fcs sdu.

Lemma length_fcs_img has_fcs sdu : length (fcs_img has_fcs sdu) = if has_fcs then 32 else 0.
Proof. by destruct has_fcs. Qed.

(** ** Headers *)

Lemma bl_data_emits d : seq_bit (bt_ns d) -> emits (BlData_to_bitbuf d) tt (data_hdr (bt_has_fcs d) None (bt_ns d)).
Proof.
  intros H. unfold BlData_to_bitbuf. eapply emits_bind_tt; [by apply write_bl_type_emits|].
  apply write_bits_emits; [cbn; unfold seq_bit in H; lia|lia].
Qed.

Lemma bl_adata_emits d :
  seq_bit (bd_nr d) -> seq_bit (bd_ns d) ->
  emits (BlAdata_to_bitbuf d) tt (data_hdr (bd_has_fcs d) (Some (bd_nr d)) (bd_ns d)).
Proof.
  unfold seq_bit. intros H1 H2. unfold BlAdata_to_bitbuf. eapply emits_bind_tt; [by apply write_bl_type_emits|].
  eapply emits_bind_tt; apply write_bits_emits; cbn; lia.
Qed.

Lemma bl_udata_emits d : emits (BlUdata_to_bitbuf d) tt (udata_hdr (bu_has_fcs d)).
Proof. by apply write_bl_type_emits. Qed.

Lemma bl_data_parses has_fcs ns rest :
  seq_bit ns -> parses BlData_from_bitbuf (data_hdr has_fcs None ns) rest (mkBlData has_fcs ns).
Proof.
  intros H. unfold BlData_from_bitbuf. eapply parses_bind; [by apply read_bl_type_parses|].
  rewrite <- (app_nil_r (val_bits 1 ns)).
  eapply parses_bind; [apply read_u8_parses; unfold seq_bit in H; cbn; lia|]. apply parses_ret.
Qed.

Lemma bl_adata_parses has_fcs nr ns rest :
  seq_bit nr -> seq_bit ns -> parses BlAdata_from_bitbuf (data_hdr has_fcs (Some nr) ns) rest (mkBlAdata has_fcs nr ns).
Proof.
  unfold seq_bit. intros H1 H2. unfold BlAdata_from_bitbuf. eapply parses_bind; [by apply read_bl_type_parses|].
  eapply parses_bind; [apply read_u8_parses; cbn; lia|]. rewrite <- (app_nil_r (val_bits 1 ns)).
  eapply parses_bind; [apply read_u8_parses; cbn; lia|]. apply parses_ret.
Qed.

Lemma bl_ack_parses has_fcs nr rest :
  seq_bit nr -> parses BlAck_from_bitbuf (ack_hdr has_fcs nr) rest (mkBlAck has_fcs nr).
Proof.
  intros H. unfold BlAck_from_bitbuf. eapply parses_bind; [by apply read_bl_type_parses|].
  rewrite <- (app_nil_r (val_bits 1 nr)).
  eapply parses_bind; [apply read_u8_parses; unfold seq_bit in H; cbn; lia|]. apply parses_ret.
Qed.

Lemma bl_udata_parses has_fcs rest : parses BlUdata_from_bitbuf (udata_hdr has_fcs) rest (mkBlUdata has_fcs).
Proof.
  unfold BlUdata_from_bitbuf, udata_hdr. rewrite <- (app_nil_r (bl_img has_fcs 2 [])).
  eapply parses_bind; [by apply read_bl_type_parses|]. apply parses_ret.
Qed.

(** ** Building a PDU *)

Lemma run_emits {A} (m : M A) a bs b :
  emits m a bs -> wf b -> room b (length bs) -> exists b', run m b = Some (a, b') /\ wrote b b' bs.
Proof. intros He W R. destruct (He b W R) as (b' & E & Wr). exists b'. unfold run. by rewrite E. Qed.

(** An append-only buffer after [bs] has been written to it. *)
Record written (b : BitBuffer) (bs : list bool) : Prop := {
  wn_wf : wf b;
  wn_start : start b = 0;
  wn_pos : pos b = length bs;
  wn_end : end_ b = length bs;
  wn_flag : flag_autoexpand b = true;
  wn_bits : getbits (buffer b) 0 (length bs) = bs
}.

Lemma written_new n : written (new_autoexpand n) [].
Proof. constructor; try done. apply wf_new_autoexpand. Qed.

Lemma written_room b bs n : written b bs -> room b n.
Proof. intros [W S P E F B]. right. split; [done|]. by rewrite P, E. Qed.

Lemma written_app b b' bs bs' : written b bs -> wrote b b' bs' -> written b' (bs ++ bs').
Proof.
  intros [W S P E F B] [W' S' P' F' E' B' Fr]. constructor; rewrite ?length_app; try done; try congruence; try lia.
  rewrite getbits_app. f_equal; [|cbn; by rewrite <- P].
  rewrite <- B at 2. apply getbits_ext. intros i Hi. rewrite !Nat.add_0_l. apply Fr. lia.
Qed.

Lemma written_holds b bs : written b bs -> run (seek 0) b = Some (tt, with_pos b 0) /\ holds (with_pos b 0) bs.
Proof.
  intros [W S P E F B]. split.
  - unfold run, seek. rewrite S. by btrue (0 + 0 <=? end_ b).
  - constructor; cbn; [apply wf_with_pos; [done|lia]|done|].
    unfold window. cbn. by rewrite S, E, Nat.sub_0_r.
Qed.

Lemma append_tl_sdu_holds b hdr tl_sdu sdu has_fcs :
  written b hdr -> wf tl_sdu -> remaining tl_sdu = sdu ->
  exists b', append_tl_sdu_and_optional_fcs b tl_sdu has_fcs = Some b' /\ holds b' (pdu_img hdr has_fcs sdu).
Proof.
  intros Hb W Hs. unfold append_tl_sdu_and_optional_fcs, get_len_remaining.
  rewrite <- length_remaining, Hs.
  destruct (copy_bits_spec b tl_sdu sdu [] (wn_wf _ _ Hb) W) as (b1 & E1 & Wr1);
    [by rewrite app_nil_r|by eapply written_room|].
  pose proof (written_app _ _ _ _ Hb Wr1) as Hb1.
  unfold copy. rewrite E1. step.
  destruct has_fcs.
  - rewrite compute_fcs_spec;
      [|exact (wn_wf _ _ Hb1)|unfold get_len_written, get_len;
        rewrite (wn_start _ _ Hb), (wn_pos _ _ Hb), (wn_start _ _ Hb1), (wn_end _ _ Hb1), length_app; lia|lia].
    step. assert (Ef : getbits (buffer b1) (start b1 + get_len_written b) (get_len b1 - get_len_written b) = sdu).
    { unfold get_len_written, get_len.
      rewrite (wn_start _ _ Hb), (wn_pos _ _ Hb), (wn_start _ _ Hb1), (wn_end _ _ Hb1), length_app.
      pose proof (wn_bits _ _ Hb1) as B. rewrite length_app, getbits_app in B.
      apply app_inj_1 in B as [_ B]; [|apply length_getbits]. rewrite <- B at 2. f_equal; lia. }
    rewrite Ef.
    destruct (run_emits (write_bits (fcs_of sdu) 32) tt (val_bits 32 (fcs_of sdu)) b1) as (b2 & E2 & Wr2);
      [apply write_bits_emits; [apply fcs_of_bound|lia]|exact (wn_wf _ _ Hb1)|by eapply written_room|].
    rewrite E2. step.
    pose proof (written_app _ _ _ _ Hb1 Wr2) as Hb2.
    destruct (written_holds _ _ Hb2) as [E3 Hh]. rewrite E3. step.
    eexists. split; [done|]. unfold pdu_img, fcs_img. by rewrite app_assoc.
  - step. destruct (written_holds _ _ Hb1) as [E3 Hh]. rewrite E3. step.
    eexists. split; [done|]. unfold pdu_img, fcs_img. by rewrite app_nil_r.
Qed.

Lemma build_pdu_holds header hdr tl_sdu sdu has_fcs :
  emits header tt hdr -> wf tl_sdu -> remaining tl_sdu = sdu ->
  exists b, build_pdu header tl_sdu has_fcs = Some b /\ holds b (pdu_img hdr has_fcs sdu).
Proof.
  intros He W Hs. unfold build_pdu.
  destruct (run_emits header tt hdr (new_autoexpand 32)) as (b1 & E1 & Wr1);
    [done|apply wf_new_autoexpand|by apply (written_room _ []), written_new|].
  rewrite E1. step. eapply append_tl_sdu_holds; [|done..].
  apply (written_app _ _ [] _ (written_new 32) Wr1).
Qed.

(** ** Taking a PDU apart *)

Lemma bl_img_type has_fcs ty :
  (0 <= ty < 4)%Z -> length (bl_img has_fcs ty []) = 4 /\ bits_val (bl_img has_fcs ty []) = (b2z has_fcs * 4 + ty)%Z.
Proof.
  intros H. assert (ty = 0 \/ ty = 1 \/ ty = 2 \/ ty = 3)%Z as [-> |[-> |[-> | ->]]] by lia; by destruct has_fcs.
Qed.

Lemma peek_pdu_type_img b has_fcs ty rest :
  wf b -> pos b = start b -> (0 <= ty < 4)%Z -> remaining b = bl_img has_fcs ty [] ++ rest ->
  peek_pdu_type b = Some (LlcPduType_try_from (b2z has_fcs * 4 + ty)).
Proof.
  intros W P H E. destruct (bl_img_type has_fcs ty H) as [Hl Hv]. unfold peek_pdu_type.
  rewrite peek_here by (done || lia). rewrite E, length_app, Hl.
  bfalse (4 + length rest <? 4). step. cbn [mbind option_bind].
  by rewrite <- Hl, take_app_length, Hv.
Qed.

(** Cutting a validated check sequence and the bits already read. *)
Lemma strip_holds b sdu has_fcs :
  wf b -> remaining b = sdu ++ fcs_img has_fcs sdu ->
  exists b', (if has_fcs then strip_validated_fcs b else Some b) = Some b' /\
    wf b' /\ remaining b' = sdu /\ pos b' = pos b /\ start b' = start b.
Proof.
  intros W E. pose proof W as [Wb Ws Wp We]. pose proof (length_remaining b) as Hl.
  rewrite E, length_app, length_fcs_img in Hl. destruct has_fcs.
  2:{ exists b. cbn in E. rewrite app_nil_r in E. done. }
  unfold strip_validated_fcs, usub. btrue (32 <=? end_ b). step. unfold run, set_raw_end.
  btrue (end_ b - 32 <=? length (buffer b) * 8). btrue (start b <=? end_ b - 32). btrue (pos b <=? end_ b - 32).
  cbn [andb]. step. eexists. split; [done|]. split_and!; [constructor; cbn; try done; lia| |done|done].
  unfold remaining in *. cbn. replace (end_ b - pos b) with (length sdu + 32) in E by lia.
  rewrite getbits_app in E. apply app_inj_1 in E as [E _]; [|apply length_getbits].
  etrans; [|exact E]. f_equal. lia.
Qed.

Lemma from_here_holds b : wf b -> exists b', from_here b = Some b' /\ holds b' (remaining b) /\ get_len_remaining b' = get_len_remaining b.
Proof.
  intros W. pose proof W as [Wb Ws Wp We]. unfold from_here, run, set_raw_start.
  btrue (pos b <=? end_ b). btrue (pos b <=? pos b). cbn. eexists. split; [done|]. split; [|done].
  constructor; cbn; [constructor; cbn; try done; lia|done|]. done.
Qed.

(** A stored BL-DATA or BL-ADATA gives back what it carries. *)
Lemma rebuild_payload b has_fcs nr ns sdu :
  holds b (data_img has_fcs nr ns sdu) -> seq_bit ns -> (forall n, nr = Some n -> seq_bit n) ->
  exists b', acknowledged_payload_for_rebuild b = Some (Some (mkRebuildable has_fcs b' nr)) /\ holds b' sdu.
Proof.
  intros Hb Hns Hnr. pose proof (holds_remaining _ _ Hb) as E. pose proof (ho_wf _ _ Hb) as W.
  unfold data_img, pdu_img in E. unfold acknowledged_payload_for_rebuild.
  set (fields := match nr with Some n => val_bits 1 n ++ val_bits 1 ns | None => val_bits 1 ns end).
  assert (Ep : peek_pdu_type b = Some (Some (match nr, has_fcs with
     | None, false => BlDataType | None, true => BlDataFcs | Some _, false => BlAdataType | Some _, true => BlAdataFcs end))).
  { rewrite (peek_pdu_type_img b has_fcs (match nr with Some _ => 0 | None => 1 end) (fields ++ sdu ++ fcs_img has_fcs sdu));
      [by destruct nr, has_fcs|done|by apply ho_pos in Hb|by destruct nr|].
    rewrite E. unfold fields. by destruct nr; cbn [data_hdr]; rewrite <- ?app_assoc. }
  rewrite Ep. step.
  destruct (parses_advance b (data_hdr has_fcs nr ns) _ W E) as (W1 & R1 & _).
  set (b1 := with_pos b (pos b + length (data_hdr has_fcs nr ns))) in *.
  assert (Hl : has_fcs && (get_len_remaining b1 <? 32) = false).
  { unfold get_len_remaining. rewrite <- length_remaining, R1, length_app, length_fcs_img.
    destruct has_fcs; [|done]. by bfalse (length sdu + 32 <? 32). }
  destruct (strip_holds b1 sdu has_fcs W1 R1) as (b2 & E2 & W2 & R2 & _).
  destruct (from_here_holds b2 W2) as (b3 & E3 & H3 & _). unfold from_here in E3.
  destruct (run (set_raw_start (pos b2)) b2) as [[[] b3']|] eqn:E3'; [|done]. injection E3 as ->.
  rewrite R2 in H3. exists b3. split; [|done].
  destruct nr as [nr|].
  - assert (Er : BlAdata_from_bitbuf b = Ok (mkBlAdata has_fcs nr ns) b1) by (eapply bl_adata_parses; eauto).
    destruct has_fcs; rewrite Er; step; cbn [bd_has_fcs bd_nr]; rewrite Hl, E2; step; by rewrite E3'.
  - assert (Er : BlData_from_bitbuf b = Ok (mkBlData has_fcs ns) b1) by (eapply bl_data_parses; eauto).
    destruct has_fcs; rewrite Er; step; cbn [bt_has_fcs]; rewrite Hl, E2; step; by rewrite E3'.
Qed.

(** ** Repetitions keep the TL-SDU *)

(** The transfer's stored PDU carries [sdu] with the transfer's N(S). *)
Definition stores (a : ExpectedInAck) (has_fcs : bool) (sdu : list bool) : Prop :=
  seq_bit (ea_ns a) /\
  exists nr, (forall n, nr = Some n -> seq_bit n) /\
    holds (tr_pdu (ea_retransmission_buf a)) (data_img has_fcs nr (ea_ns a) sdu).

Lemma ea_with_pdu_self a : ea_with_pdu a (ea_ns a) (tr_pdu (ea_retransmission_buf a)) = a.
Proof. by destruct a as [? ? ? ? ? ? ? ? ? ? ? ? ? ? ? ? [] ? ?]. Qed.

Lemma rebuild_as_bl_data a tl_sdu has_fcs sdu :
  seq_bit (ea_ns a) -> holds tl_sdu sdu ->
  exists b, rebuild_retransmission_as_bl_data a tl_sdu has_fcs = Some (ea_with_pdu a (ea_ns a) b) /\
    stores (ea_with_pdu a (ea_ns a) b) has_fcs sdu.
Proof.
  intros Hn Hs. unfold rebuild_retransmission_as_bl_data.
  destruct (build_pdu_holds _ _ tl_sdu sdu has_fcs (bl_data_emits (mkBlData has_fcs (ea_ns a)) Hn)
    (ho_wf _ _ Hs) (holds_remaining _ _ Hs)) as (b & E & Hb).
  rewrite E. step. exists b. split; [done|]. split; [done|]. exists None. done.
Qed.

Lemma rebuild_as_bl_adata a tl_sdu has_fcs nr sdu :
  seq_bit (ea_ns a) -> seq_bit nr -> holds tl_sdu sdu ->
  exists b, rebuild_retransmission_as_bl_adata a tl_sdu has_fcs nr = Some (ea_with_pdu a (ea_ns a) b) /\
    stores (ea_with_pdu a (ea_ns a) b) has_fcs sdu.
Proof.
  intros Hn Hr Hs. unfold rebuild_retransmission_as_bl_adata.
  destruct (build_pdu_holds _ _ tl_sdu sdu has_fcs (bl_adata_emits (mkBlAdata has_fcs nr (ea_ns a)) Hr Hn)
    (ho_wf _ _ Hs) (holds_remaining _ _ Hs)) as (b & E & Hb).
  rewrite E. step. exists b. split; [done|]. split; [done|]. exists (Some nr). split; [by intros ? [= <-]|done].
Qed.

(** Another N(S) for the same TL-SDU. *)
Lemma rewrite_ns a has_fcs sdu ns :
  stores a has_fcs sdu -> seq_bit ns ->
  exists b, rewrite_retransmission_ns a ns = Some (ea_with_pdu a ns b) /\ stores (ea_with_pdu a ns b) has_fcs sdu.
Proof.
  intros Ha Hn. unfold rewrite_retransmission_ns. destruct (Z.eqb_spec (ea_ns a) ns) as [<-|Hne].
  { eexists. rewrite ea_with_pdu_self. done. }
  destruct Ha as (Hs & nr & Hnr & Hb).
  destruct (rebuild_payload _ _ _ _ _ Hb Hs Hnr) as (b & E & Hp). rewrite E. step. cbn [rb_embedded_nr rb_tl_sdu rb_has_fcs].
  destruct nr as [nr|].
  - by apply (rebuild_as_bl_adata (ea_with_pdu a ns _) b has_fcs nr sdu Hn (Hnr _ eq_refl) Hp).
  - by apply (rebuild_as_bl_data (ea_with_pdu a ns _) b has_fcs sdu Hn Hp).
Qed.

(** ** Waiting acknowledgements *)

Lemma take_first_Some {A} (p : A -> bool) l x l' :
  take_first p l = Some (x, l') ->
  exists l1 l2, l = l1 ++ x :: l2 /\ l' = l1 ++ l2 /\ p x = true /\ Forall (fun y => p y = false) l1.
Proof.
  revert l'; induction l as [|y l IH]; intros l'; cbn; [done|].
  destruct (p y) eqn:Ey.
  - intros [= -> ->]. exists [], l'. done.
  - destruct (take_first p l) as [[z r]|] eqn:E; cbn; [|done]. intros [= -> <-].
    destruct (IH r eq_refl) as (l1 & l2 & -> & -> & Hp & Hf). exists (y :: l1), l2. split_and!; auto.
Qed.

Lemma take_first_None {A} (p : A -> bool) l : take_first p l = None -> Forall (fun y => p y = false) l.
Proof.
  induction l as [|y l IH]; cbn; [done|]. destruct (p y) eqn:Ey; [done|].
  destruct (take_first p l) as [[z r]|]; cbn; [done|]. intros _. auto.
Qed.

(** The MAC request for a standalone BL-ACK. *)
Definition bl_ack_req (ack : ScheduledOutAck) (pdu : BitBuffer) : TmaUnitdataReq :=
  mkTmaUnitdataReq (so_ind_req_handle ack) pdu (so_addr ack) (so_endpoint_id ack) 5 (ack_steals (so_ts ack)) 0
    (Some (so_air_interface_encryption ack)) None None (ack_chan_alloc (so_ts ack)) None.

Lemma push_standalone_bl_ack_sends queue ack :
  seq_bit (so_nr ack) ->
  exists b, push_standalone_bl_ack queue ack = Some (queue ++ [TmaUnitdataReqMsg (bl_ack_req ack b)]) /\
    holds b (ack_hdr false (so_nr ack)).
Proof.
  intros H. unfold push_standalone_bl_ack.
  destruct (run_emits (BlAck_to_bitbuf (mkBlAck false (so_nr ack))) tt (ack_hdr false (so_nr ack)) (new_autoexpand 5))
    as (b1 & E1 & Wr1); [by apply bl_ack_emits|apply wf_new_autoexpand|by apply (written_room _ []), written_new|].
  rewrite E1. step. pose proof (written_app _ _ [] _ (written_new 5) Wr1) as Hb.
  destruct (written_holds _ _ Hb) as [E2 Hh]. rewrite E2. step. eexists. split; [done|done].
Qed.

Lemma bl_adata_exceeds_total main_carrier addr chan_alloc tl_sdu has_fcs :
  exists x, bl_adata_exceeds_sch_f_capacity main_carrier addr chan_alloc tl_sdu has_fcs = Some x.
Proof.
  unfold bl_adata_exceeds_sch_f_capacity, bl_adata_len_bits.
  destruct (run_emits (BlAdata_to_bitbuf (mkBlAdata has_fcs 0 0)) tt (data_hdr has_fcs (Some 0%Z) 0) (new_autoexpand 8))
    as (b1 & E1 & _);
    [by apply bl_adata_emits|apply wf_new_autoexpand|by apply (written_room _ []), written_new|].
  rewrite E1. step. by eexists.
Qed.

(** Folding: the TL-SDU stays, and a waiting acknowledgement either travels with it or is
    sent on its own. *)
Inductive folded (scheduled : list ScheduledOutAck) (a : ExpectedInAck) : list LlcMsg -> list ScheduledOutAck -> Prop :=
  | folded_none : Forall (fun k => ack_on (ea_addr a) (ea_endpoint_id a) k = false) scheduled -> folded scheduled a [] scheduled
  | folded_in ack rest : take_first (ack_on (ea_addr a) (ea_endpoint_id a)) scheduled = Some (ack, rest) -> folded scheduled a [] rest
  | folded_apart ack rest pdu :
      take_first (ack_on (ea_addr a) (ea_endpoint_id a)) scheduled = Some (ack, rest) -> holds pdu (ack_hdr false (so_nr ack)) ->
      folded scheduled a [TmaUnitdataReqMsg (bl_ack_req ack pdu)] rest.

Lemma fold_waiting_ack main_carrier queue scheduled a has_fcs sdu :
  stores a has_fcs sdu -> Forall (fun k => seq_bit (so_nr k)) scheduled ->
  exists msgs scheduled' b,
    fold_waiting_ack_into_mac_ready_bl_data main_carrier queue scheduled a
      = Some (queue ++ msgs, scheduled', ea_with_pdu a (ea_ns a) b) /\
    stores (ea_with_pdu a (ea_ns a) b) has_fcs sdu /\ folded scheduled a msgs scheduled'.
Proof.
  intros Ha Hk. pose proof Ha as (Hs & nr & Hnr & Hb).
  destruct (rebuild_payload _ _ _ _ _ Hb Hs Hnr) as (p & E & Hp).
  unfold fold_waiting_ack_into_mac_ready_bl_data. rewrite E. step. cbn [rb_embedded_nr rb_tl_sdu rb_has_fcs].
  destruct (take_first _ scheduled) as [[ack rest]|] eqn:Et.
  - destruct (take_first_Some _ _ _ _ Et) as (l1 & l2 & Hl & _ & _).
    assert (Hn : seq_bit (so_nr ack)) by (rewrite Hl in Hk; apply Forall_app in Hk as [_ Hk]; by apply Forall_cons in Hk as [Hk _]).
    destruct (bl_adata_exceeds_total main_carrier (ea_addr a) (tr_chan_alloc (ea_retransmission_buf a)) p has_fcs) as [x Ex].
    rewrite Ex. step. destruct x.
    + destruct (push_standalone_bl_ack_sends queue ack Hn) as (kb & Ek & Hkb). rewrite Ek. step.
      destruct (rebuild_as_bl_data a p has_fcs sdu Hs Hp) as (b & Eb & Hb'). rewrite Eb. step.
      do 3 eexists. split; [done|]. split; [done|]. by eapply folded_apart.
    + destruct (rebuild_as_bl_adata a p has_fcs (so_nr ack) sdu Hs Hn Hp) as (b & Eb & Hb'). rewrite Eb. step.
      exists [], rest, b. rewrite app_nil_r. split; [done|]. split; [done|]. by eapply folded_in.
  - apply take_first_None in Et. exists [], scheduled. rewrite app_nil_r.
    destruct (bool_decide _ && _ && _).
    + destruct (rebuild_as_bl_data a p has_fcs sdu Hs Hp) as (b & Eb & Hb'). rewrite Eb. step.
      exists b. split; [done|]. split; [done|]. by constructor.
    + eexists. rewrite ea_with_pdu_self. split; [done|]. split; [done|]. by constructor.
Qed.

(** ** What arrives is arbitrary *)

Lemma read_u8_bound n name b v b' : wf b -> n <= 8 -> read_u8 n name b = Ok v b' -> (0 <= v < 2 ^ Z.of_nat n)%Z.
Proof.
  intros W Hn. unfold read_u8, read_field, mbind, method_bind.
  destruct (decide (length (remaining b) < n)) as [Hs|Hs]; [by rewrite read_bits_short by done|].
  rewrite (read_bits_parses n (take n (remaining b)) (drop n (remaining b)));
    [|rewrite length_take; lia|lia|done|by rewrite take_drop].
  intros [= <- _]. pose proof (bits_val_bound (take n (remaining b))) as Hb.
  rewrite length_take, Nat.min_l in Hb by lia. rewrite u8_small; [done|].
  assert (2 ^ Z.of_nat n <= 2 ^ 8)%Z by (apply Z.pow_le_mono_r; lia). lia.
Qed.

(** A parser that returns, and only values that satisfy [P]. *)
Definition returns {A} (m : M A) (P : A -> Prop) : Prop :=
  robust m /\ forall b a b', wf b -> m b = Ok a b' -> P a.

Lemma returns_robust {A} (m : M A) : robust m -> returns m (fun _ => True).
Proof. by split. Qed.

Lemma returns_bind {A B} (m : M A) (k : A -> M B) P Q :
  returns m P -> (forall a, robust (k a)) -> (forall a, P a -> returns (k a) Q) -> returns (m ≫= k) Q.
Proof.
  intros [Hm HP] Hr Hk. split; [by apply robust_bind|].
  intros b c b' W. unfold mbind, method_bind. destruct (m b) as [a b1|e b1|] eqn:E; [|done|done].
  specialize (Hm b W). rewrite E in Hm.
  intros E2. eapply (proj2 (Hk a (HP b a b1 W E))); [by eapply advanced_wf|done].
Qed.

Lemma returns_ret {A} (a : A) (P : A -> Prop) : P a -> returns (mret a) P.
Proof. intros H. split; [apply robust_ret|]. by intros b ? ? _ [= <- _]. Qed.

Lemma returns_seq_bit name : returns (read_u8 1 name) seq_bit.
Proof.
  split; [unfold read_u8; robust|]. intros b v b' W E. apply (read_u8_bound 1 name b v b'); [done|lia|done].
Qed.

Lemma bl_data_returns : returns BlData_from_bitbuf (fun d => seq_bit (bt_ns d)).
Proof.
  unfold BlData_from_bitbuf. eapply returns_bind; [apply returns_robust, robust_bl_type|intros ?; unfold read_u8; robust|intros f _].
  eapply returns_bind; [apply returns_seq_bit|intros ?; robust|]. intros n Hn. by apply returns_ret.
Qed.

Lemma bl_adata_returns : returns BlAdata_from_bitbuf (fun d => seq_bit (bd_nr d) /\ seq_bit (bd_ns d)).
Proof.
  unfold BlAdata_from_bitbuf. eapply returns_bind; [apply returns_robust, robust_bl_type|intros ?; unfold read_u8; robust|intros f _].
  eapply returns_bind; [apply returns_seq_bit|intros ?; unfold read_u8; robust|]. intros n Hn.
  eapply returns_bind; [apply returns_seq_bit|intros ?; robust|]. intros n' Hn'. by apply returns_ret.
Qed.

Lemma bl_ack_returns : returns BlAck_from_bitbuf (fun d => seq_bit (ba_nr d)).
Proof.
  unfold BlAck_from_bitbuf. eapply returns_bind; [apply returns_robust, robust_bl_type|intros ?; unfold read_u8; robust|intros f _].
  eapply returns_bind; [apply returns_seq_bit|intros ?; robust|]. intros n Hn. by apply returns_ret.
Qed.

Lemma bl_udata_returns : returns BlUdata_from_bitbuf (fun _ => True).
Proof.
  unfold BlUdata_from_bitbuf. eapply returns_bind; [apply returns_robust, robust_bl_type|intros ?; robust|]. intros f _. by apply returns_ret.
Qed.

Definition opt_seq_bit (o : option Z) : Prop := forall n, o = Some n -> seq_bit n.

(** What follows a parsed header. *)
Definition header_ok (pdu_type : LlcPduType) (h : bool * option Z * option Z * BitBuffer) : Prop :=
  let '(_, ns, nr, pdu) := h in
  wf pdu /\ opt_seq_bit ns /\ opt_seq_bit nr /\
  (is_Some ns \/ is_bl_ack_type pdu_type = true \/ is_bl_udata_type pdu_type = true) /\
  (is_Some nr -> is_bl_ack_type pdu_type = true \/ is_bl_adata_type pdu_type = true).

Lemma parse_bl_header_total pdu_type b :
  wf b -> exists o, parse_bl_header pdu_type b = Some o /\ forall h, o = Some h -> header_ok pdu_type h.
Proof.
  intros W. unfold opt_seq_bit.
  pose proof (proj1 bl_data_returns b W) as R1. pose proof (proj1 bl_adata_returns b W) as R2.
  pose proof (proj1 bl_ack_returns b W) as R3. pose proof (proj1 bl_udata_returns b W) as R4.
  destruct pdu_type; cbn [parse_bl_header]; try (by exists None);
    match goal with |- context [match ?m b with _ => _ end] =>
      destruct (m b) as [h b'|e b'|] eqn:E; [|by eexists|done] end;
    (eexists; split; [done|]; intros h0 [= <-]; split; [by eapply advanced_wf|]);
    (split_and!; [intros n [=]; subst..| |]);
    try (by right; left); try (by right; right); try (by left; eexists); try (by left); try (by right);
    try (by intros [? [=]]);
    first [by apply (proj2 bl_data_returns _ _ _ W E)|by apply (proj2 bl_adata_returns _ _ _ W E)
          |by apply (proj2 bl_ack_returns _ _ _ W E)].
Qed.

Lemma peek_pdu_type_total b : wf b -> pos b = start b -> exists o, peek_pdu_type b = Some o.
Proof. intros W P. unfold peek_pdu_type. rewrite peek_here by (done || lia). step. by eexists. Qed.

Lemma check_fcs_total b : wf b -> exists x, check_fcs b = Some x /\ (x = true -> 32 <= get_len_remaining b).
Proof.
  intros W. unfold get_len_remaining. rewrite <- length_remaining.
  destruct (Nat.lt_ge_cases (length (remaining b)) 32) as [H|H].
  - exists false. split; [|done]. unfold check_fcs, get_len_remaining. rewrite <- length_remaining.
    by btrue (length (remaining b) <? 32).
  - destruct (split_at (remaining b) (length (remaining b) - 32)) as (l1 & l2 & E & Hl); [lia|].
    eexists. split; [|done]. apply (check_fcs_spec b l1 l2 W E).
    assert (length (remaining b) = length l1 + length l2) by (by rewrite E, length_app). lia.
Qed.

Lemma strip_total b : wf b -> 32 <= get_len_remaining b -> exists b', strip_validated_fcs b = Some b' /\ wf b'.
Proof.
  intros [Wb Ws Wp We]. unfold get_len_remaining. intros H. unfold strip_validated_fcs, usub.
  btrue (32 <=? end_ b). step. unfold run, set_raw_end.
  btrue (end_ b - 32 <=? length (buffer b) * 8). btrue (start b <=? end_ b - 32). btrue (pos b <=? end_ b - 32).
  cbn [andb]. step. eexists. split; [done|]. constructor; cbn; try done; lia.
Qed.
