(* ===== verification/LlcInv.v ===== *)
(** * The basic link: invariant and accounting

    The invariant of the LLC entity of Llc.v: on every link at most one transfer is with the
    MAC, its stored PDU carries the TL-SDU with the transfer's N(S), the receipt of every
    transfer follows its progress and is shared with nobody else, queues stay within their
    limits and each link has at most one acknowledgement waiting.  Every primitive, every
    timeslot and every report of the MAC keeps it and returns, and accounts for every
    request: it is answered once, or still queued with the TL-SDU it came with. *)

From Stdlib Require Import ZArith Lia ZifyNat.
From stdpp Require Import gmap strings.
From S2P Require Import Prelude.
From S2P Require Import BitBuffer.
From S2P Require Import BitBufferFacts.
From S2P Require Import Fcs.
From S2P Require Import Tdma.
From S2P Require Import MacFields.
From S2P Require Import Defrag.
From S2P Require Import TxReceipt.
From S2P Require Import Frag.
From S2P Require Import LlcPdus.
From S2P Require Import Llc.
From S2P Require Import LlcFacts.

(** ** Receipts *)

(** The cells [cs] keep their contents and no cell disappears. *)
Definition evolves (cs : list nat) (heap heap' : store) : Prop :=
  (forall c, c ∈ cs -> heap' !! c = heap !! c) /\ (forall c, is_Some (heap !! c) -> is_Some (heap' !! c)).

Lemma evolves_refl cs heap : evolves cs heap heap.
Proof. done. Qed.

Lemma evolves_trans cs h1 h2 h3 : evolves cs h1 h2 -> evolves cs h2 h3 -> evolves cs h1 h3.
Proof. intros [A1 B1] [A2 B2]. split; [|by auto]. intros c Hc. by rewrite A2, A1. Qed.

Lemma evolves_mono cs cs' h1 h2 : cs' ⊆ cs -> evolves cs h1 h2 -> evolves cs' h1 h2.
Proof. intros H [A B]. split; [|done]. intros c Hc. apply A, H, Hc. Qed.

Lemma evolves_insert cs heap l v : l ∉ cs -> evolves cs heap (<[l := v]> heap).
Proof.
  intros H. split; intros c Hc; [by rewrite lookup_insert_ne by set_solver|].
  destruct (decide (l = c)) as [->|]; [by rewrite lookup_insert_eq|by rewrite lookup_insert_ne].
Qed.

Lemma evolves_try_mark cs r x y heap : tx_cell r ∉ cs -> evolves cs heap ((try_mark r x y heap).2).
Proof. intros H. unfold try_mark. destruct (_ =? _)%Z; [by apply evolves_insert|done]. Qed.

(** A reporter none of whose cells is one of [cs], with a cell in the store. *)
Definition apart (heap : store) (cs : list nat) (r : option TxReporter) : Prop :=
  forall x, r = Some x -> (tx_cell x ∉ cs) /\ is_Some (heap !! tx_cell x).

Lemma apart_None heap cs : apart heap cs None.
Proof. done. Qed.

Lemma apart_evolves heap heap' cs cs' r :
  apart heap cs r -> (forall c, is_Some (heap !! c) -> is_Some (heap' !! c)) -> cs' ⊆ cs -> apart heap' cs' r.
Proof. intros H He Hs x Hx. destruct (H x Hx). split; [set_solver|by apply He]. Qed.

Lemma evolves_if_reporter cs x y r heap :
  apart heap cs r -> evolves cs heap (if_reporter (fun r heap => snd (try_mark r x y heap)) r heap).
Proof. intros H. destruct r as [r|]; cbn; [|done]. apply evolves_try_mark, (H r eq_refl). Qed.

Lemma new_unacked_fresh heap cs :
  (forall c, c ∈ cs -> is_Some (heap !! c)) ->
  exists l, new_unacked heap = (mkReporter false l, <[l := tx_raw Pending]> heap) /\ (l ∉ cs) /\
    evolves cs heap (<[l := tx_raw Pending]> heap) /\ heap !! l = None.
Proof.
  intros H. unfold new_unacked, TxReporter_new. set (l := fresh (dom heap)). exists l. split; [done|].
  assert (Hl : l ∉ dom heap) by apply is_fresh. apply not_elem_of_dom in Hl.
  assert (l ∉ cs) by (intros Hc; destruct (H l Hc); congruence).
  split; [done|]. split; [by apply evolves_insert|done].
Qed.

(** ** Transfers *)

Definition svc_cell (a : ExpectedInAck) : nat := tx_cell (ea_tx_reporter a).
Definition svc_state (a : ExpectedInAck) : TxState := if ea_first_complete_report_sent a then Transmitted else Pending.
Definition submitted (a : ExpectedInAck) : bool := bool_decide (is_Some (ea_t_submitted_to_umac a)).

(** The TL-SDU of a transfer, and of a queued unacknowledged one its PDU. *)
Definition carried (a : ExpectedInAck) : option (list bool) :=
  match acknowledged_payload_for_rebuild (tr_pdu (ea_retransmission_buf a)) with
  | Some (Some r) => Some (remaining (rb_tl_sdu r))
  | _ => None
  end.
Definition tid (a : ExpectedInAck) : Z * option (list bool) := (ea_req_handle a, carried a).
Definition uid (u : QueuedUdata) : Z * option (list bool) := (qu_req_handle u, Some (window (tr_pdu (qu_sapmsg u)))).

Lemma stores_carried a has_fcs sdu : stores a has_fcs sdu -> carried a = Some sdu.
Proof.
  intros (Hs & nr & Hnr & Hb). destruct (rebuild_payload _ _ _ _ _ Hb Hs Hnr) as (b & E & Hp).
  unfold carried. rewrite E. cbn. by rewrite (holds_remaining _ _ Hp).
Qed.

Record transfer_ok (heap : store) (a : ExpectedInAck) : Prop := {
  to_stores : exists has_fcs sdu, stores a has_fcs sdu;
  to_count : (0 <= ea_retransmit_count a <= N252_BL_MAX_TLSDU_RETRANSMITS_ACKED)%Z;
  to_done : is_Some (ea_t_umac_done a) -> submitted a = true;
  to_exhausted : is_Some (ea_t_retransmissions_exhausted a) -> is_Some (ea_t_umac_done a);
  to_mac : is_Some (ea_current_mac_reporter a) -> submitted a = true;
  to_expects : expects_ack (ea_tx_reporter a) = true;
  to_receipt : heap !! svc_cell a = Some (tx_raw (svc_state a))
}.

Record out_inv (heap : store) (l : list ExpectedInAck) : Prop := {
  oi_ok : Forall (transfer_ok heap) l;
  oi_cells : NoDup (svc_cell <$> l);
  oi_links : NoDup (expected_ack_key <$> List.filter submitted l);
  oi_mac : Forall (fun a => apart heap (svc_cell <$> l) (ea_current_mac_reporter a)) l
}.

Definition udata_inv (heap : store) (cs : list nat) (l : list QueuedUdata) : Prop :=
  Forall (fun u => apart heap cs (qu_current_mac_reporter u) /\ apart heap cs (qu_service_tx_reporter u)) l.

Definition so_key (k : ScheduledOutAck) : BasicLinkKey := mkKey (so_addr k) (so_endpoint_id k).
Record acks_inv (l : list ScheduledOutAck) : Prop := {
  ai_nr : Forall (fun k => seq_bit (so_nr k)) l;
  ai_links : NoDup (so_key <$> l)
}.

Record inv (self : Llc) (heap : store) : Prop := {
  iv_out : out_inv heap (outbound_messages self);
  iv_udata : udata_inv heap (svc_cell <$> outbound_messages self) (outbound_udata_messages self);
  iv_acks : acks_inv (scheduled_out_acks self);
  iv_send_seq : map_Forall (fun _ v => seq_bit v) (link_send_seq self);
  iv_out_len : length (outbound_messages self) <= LLC_MAX_OUTBOUND_ACKED_MESSAGES;
  iv_udata_len : length (outbound_udata_messages self) <= LLC_MAX_OUTBOUND_UDATA_MESSAGES
}.

(** *** Transfers as a collection *)

Lemma filter_perm {A} (p : A -> bool) l l' : l ≡ₚ l' -> List.filter p l ≡ₚ List.filter p l'.
Proof.
  induction 1 as [|x l l' _ IH|x y l|? ? ? _ IH1 _ IH2]; cbn; [done| | |by etrans].
  - destruct (p x); [by f_equiv|done].
  - destruct (p x), (p y); try done. apply Permutation_swap.
Qed.

Lemma out_inv_perm heap l l' : l ≡ₚ l' -> out_inv heap l -> out_inv heap l'.
Proof.
  intros Hp [H1 H2 H3 H4]. assert (Hc : svc_cell <$> l ≡ₚ svc_cell <$> l') by by rewrite Hp.
  constructor.
  - by rewrite <- Hp.
  - by rewrite <- Hc.
  - by rewrite <- (filter_perm submitted _ _ Hp).
  - rewrite Hp in H4. eapply Forall_impl; [exact H4|]. intros a Ha. cbn.
    eapply apart_evolves; [exact Ha|done|]. intros c. by rewrite Hc.
Qed.

Lemma transfer_ok_evolves heap heap' a : transfer_ok heap a -> heap' !! svc_cell a = heap !! svc_cell a -> transfer_ok heap' a.
Proof. intros [H1 H2 H3 H4 H5 H6 H7] E. constructor; try done. by rewrite E. Qed.

Lemma out_inv_evolves heap heap' l : out_inv heap l -> evolves (svc_cell <$> l) heap heap' -> out_inv heap' l.
Proof.
  intros [H1 H2 H3 H4] He. constructor; [|done|done|].
  - rewrite Forall_forall in *. intros a Ha. apply (transfer_ok_evolves heap); [by apply H1|].
    apply He, list_elem_of_fmap. eauto.
  - eapply Forall_impl; [exact H4|]. intros a Ha. by eapply apart_evolves; [exact Ha|apply He|].
Qed.

Lemma out_inv_drop heap a l : out_inv heap (a :: l) -> out_inv heap l.
Proof.
  intros [H1 H2 H3 H4]. cbn in *. constructor.
  - by apply Forall_cons in H1 as [_ H1].
  - by apply NoDup_cons in H2 as [_ H2].
  - destruct (submitted a); [|done]. cbn in H3. by apply NoDup_cons in H3 as [_ H3].
  - apply Forall_cons in H4 as [_ H4]. eapply Forall_impl; [exact H4|]. intros b Hb.
    eapply apart_evolves; [exact Hb|done|]. intros c Hc. by right.
Qed.

(** A transfer [a] beside others with receipt cells [cs] becomes [a']. *)
Record becomes (cs : list nat) (heap : store) (a : ExpectedInAck) (heap' : store) (a' : ExpectedInAck) : Prop := {
  bc_ok : transfer_ok heap' a';
  bc_tid : tid a' = tid a;
  bc_cell : svc_cell a' = svc_cell a;
  bc_key : expected_ack_key a' = expected_ack_key a;
  bc_mac : apart heap' (svc_cell a :: cs) (ea_current_mac_reporter a');
  bc_heap : evolves cs heap heap'
}.

(** Nothing else is with the MAC on the link of [a]. *)
Definition link_free (a : ExpectedInAck) (l : list ExpectedInAck) : Prop :=
  forall b, b ∈ l -> submitted b = true -> expected_ack_key b <> expected_ack_key a.

Lemma out_inv_link_free heap a l : out_inv heap (a :: l) -> submitted a = true -> link_free a l.
Proof.
  intros [_ _ H3 _] Hs b Hb Hsb Hk. cbn in H3. rewrite Hs in H3. cbn in H3. apply NoDup_cons in H3 as [H3 _].
  apply H3. rewrite <- Hk. apply list_elem_of_fmap. exists b. split; [done|].
  apply list_elem_of_In, filter_In. split; [by apply list_elem_of_In|done].
Qed.

Lemma out_inv_update heap a l heap' a' :
  out_inv heap (a :: l) -> becomes (svc_cell <$> l) heap a heap' a' -> (submitted a' = true -> link_free a l) ->
  out_inv heap' (a' :: l).
Proof.
  intros Hi [B1 B2 B3 B4 B5 B6] Hl. pose proof (out_inv_evolves heap heap' l (out_inv_drop _ _ _ Hi) B6) as [D1 D2 D3 D4].
  destruct Hi as [_ H2 _ H4]. cbn in *. apply NoDup_cons in H2 as [H2 _]. apply Forall_cons in H4 as [_ H4].
  constructor; cbn.
  - by constructor.
  - rewrite B3. by apply NoDup_cons.
  - destruct (submitted a') eqn:Es; [|done]. cbn. apply NoDup_cons. split; [|done].
    rewrite list_elem_of_fmap. intros (b & Hk & Hb). apply list_elem_of_In, filter_In in Hb as [Hb Hsb].
    apply (Hl eq_refl b); [by apply list_elem_of_In|done|congruence].
  - rewrite B3. constructor; [done|]. eapply Forall_impl; [exact H4|]. intros b Hb.
    by eapply apart_evolves; [exact Hb|apply B6|].
Qed.

(** The context of an operation on one transfer. *)
Record beside (cs : list nat) (heap : store) (a : ExpectedInAck) : Prop := {
  bs_ok : transfer_ok heap a;
  bs_mac : apart heap (svc_cell a :: cs) (ea_current_mac_reporter a);
  bs_cell : svc_cell a ∉ cs;
  bs_live : forall c, c ∈ cs -> is_Some (heap !! c)
}.

Lemma out_inv_beside heap a l : out_inv heap (a :: l) -> beside (svc_cell <$> l) heap a.
Proof.
  intros [H1 H2 H3 H4]. cbn in *. apply Forall_cons in H1 as [H1 H1']. apply NoDup_cons in H2 as [H2 _].
  apply Forall_cons in H4 as [H4 _]. constructor; try done.
  intros c Hc. apply list_elem_of_fmap in Hc as (b & -> & Hb). rewrite Forall_forall in H1'.
  rewrite (to_receipt _ _ (H1' b Hb)). by eexists.
Qed.

Lemma becomes_beside cs heap a heap' a' : beside cs heap a -> becomes cs heap a heap' a' -> beside cs heap' a'.
Proof.
  intros [H1 H2 H3 H4] [B1 B2 B3 B4 B5 B6]. constructor; rewrite ?B3; try done. intros c Hc. by apply B6, H4.
Qed.

Lemma becomes_trans cs h1 a1 h2 a2 h3 a3 :
  becomes cs h1 a1 h2 a2 -> becomes cs h2 a2 h3 a3 -> becomes cs h1 a1 h3 a3.
Proof.
  intros [A1 A2 A3 A4 A5 A6] [B1 B2 B3 B4 B5 B6]. constructor; try done; try congruence.
  - by rewrite <- A3.
  - by eapply evolves_trans.
Qed.

Lemma becomes_refl cs heap a : beside cs heap a -> becomes cs heap a heap a.
Proof. intros [H1 H2 H3 H4]. by constructor. Qed.

(** *** Operations on one transfer *)

(** Handles answered by a message: a confirmation, or a report of success or failure. *)
Definition answer (m : LlcMsg) : option Z :=
  match m with
  | TlaTlReportInd h r _ =>
      if (r =? TLA_REPORT_FAILED_TRANSFER)%Z || (r =? TLA_REPORT_SUCCESSFUL_TRANSFER)%Z then Some h else None
  | TlDataConfBl _ h _ => Some h
  | _ => None
  end.
Definition answers (msgs : list LlcMsg) : list Z := omap answer msgs.

Lemma answers_app m1 m2 : answers (m1 ++ m2) = answers m1 ++ answers m2.
Proof. apply omap_app. Qed.

(** Changing only the progress, with the receipt as it was. *)
Lemma becomes_progress cs heap a heap' (sub done exh : option TdmaTime) (mac : option TxReporter) (count : Z) (fst : bool) :
  beside cs heap a ->
  (0 <= count <= N252_BL_MAX_TLSDU_RETRANSMITS_ACKED)%Z ->
  (is_Some done \/ is_Some mac -> is_Some sub) -> (is_Some exh -> is_Some done) ->
  apart heap' (svc_cell a :: cs) mac -> evolves cs heap heap' ->
  heap' !! svc_cell a = Some (tx_raw (if fst then Transmitted else Pending)) ->
  becomes cs heap a heap' (ea_progress a sub done exh mac count fst).
Proof.
  intros [[H1 H2 H3 H4 H5 H6 H7] _ _ _] Hc Hs Hx Hm He Hr. constructor; try done.
  constructor; try done; unfold submitted; cbn; intros; apply bool_decide_eq_true; auto.
Qed.

Lemma load_lookup heap r v : heap !! tx_cell r = Some v -> load heap r = v.
Proof. intros H. unfold load. by apply lookup_total_correct. Qed.

(** The receipt of the transfer itself, moved from what its progress says. *)
Lemma service_mark cs heap a x y :
  beside cs heap a -> svc_state a = x ->
  exists heap', try_mark (ea_tx_reporter a) x y heap = (true, heap') /\ evolves cs heap heap' /\
    heap' !! svc_cell a = Some (tx_raw y) /\ forall r, apart heap (svc_cell a :: cs) r -> apart heap' (svc_cell a :: cs) r.
Proof.
  intros [[H1 H2 H3 H4 H5 H6 H7] _ Hn _] <-. unfold try_mark. rewrite (load_lookup _ _ _ H7), Z.eqb_refl.
  eexists. split; [done|]. pose proof (evolves_insert cs heap (svc_cell a) (tx_raw y) Hn) as He.
  split; [done|]. split; [by rewrite lookup_insert_eq|]. intros r Hr. by eapply apart_evolves; [exact Hr|apply He|].
Qed.

Lemma mark_first_complete cs heap a :
  beside cs heap a -> ea_first_complete_report_sent a = false ->
  let heap' := mark_ack_service_first_complete a heap in
  evolves cs heap heap' /\ heap' !! svc_cell a = Some (tx_raw Transmitted) /\
  forall r, apart heap (svc_cell a :: cs) r -> apart heap' (svc_cell a :: cs) r.
Proof.
  intros Hb Hf. destruct (service_mark cs heap a Pending Transmitted Hb) as (heap' & E & H1 & H2 & H3).
  { unfold svc_state. by rewrite Hf. }
  unfold mark_ack_service_first_complete, mark_reporter_transmitted_if_pending, try_mark_transmitted. by rewrite E.
Qed.

Lemma mark_service_failed cs heap a :
  beside cs heap a -> exists heap', mark_ack_service_failed a heap = Some heap' /\ evolves cs heap heap'.
Proof.
  intros Hb. pose proof Hb as [[H1 H2 H3 H4 H5 H6 H7] _ _ _]. unfold mark_ack_service_failed, get_state.
  rewrite (load_lookup _ _ _ H7), from_raw_tx_raw. unfold svc_state.
  destruct (ea_first_complete_report_sent a) eqn:Ef.
  - destruct (service_mark cs heap a Transmitted Lost Hb) as (heap' & E & He & _); [unfold svc_state; by rewrite Ef|].
    unfold try_mark_lost. rewrite H6. cbn. rewrite E. by exists heap'.
  - destruct (service_mark cs heap a Pending Discarded Hb) as (heap' & E & He & _); [unfold svc_state; by rewrite Ef|].
    unfold try_mark_discarded. rewrite E. by exists heap'.
Qed.

Lemma service_acknowledged cs heap a :
  beside cs heap a -> ea_first_complete_report_sent a = true ->
  exists heap', mark_acknowledged (ea_tx_reporter a) heap = Some heap' /\ evolves cs heap heap'.
Proof.
  intros Hb Hf. pose proof Hb as [[H1 H2 H3 H4 H5 H6 H7] _ _ _]. unfold mark_acknowledged, mark. rewrite H6. cbn.
  destruct (service_mark cs heap a Transmitted Acknowledged Hb) as (heap' & E & He & _); [unfold svc_state; by rewrite Hf|].
  rewrite E. by exists heap'.
Qed.

(** The reporter of the MAC attempt is nobody's receipt. *)
Lemma mac_mark cs heap a y :
  beside cs heap a ->
  let heap' := if_reporter (fun r heap => snd (try_mark r Pending y heap)) (ea_current_mac_reporter a) heap in
  evolves (svc_cell a :: cs) heap heap'.
Proof. intros Hb. apply evolves_if_reporter, Hb. Qed.

Lemma ea_progress_eta a :
  ea_progress a (ea_t_submitted_to_umac a) (ea_t_umac_done a) (ea_t_retransmissions_exhausted a)
    (ea_current_mac_reporter a) (ea_retransmit_count a) (ea_first_complete_report_sent a) = a.
Proof. by destruct a. Qed.

(** The MAC's report is noticed: the first complete transmission is reported once. *)
Lemma reconcile_becomes cs queue a now heap :
  beside cs heap a ->
  exists act msgs a' heap', reconcile_umac_done_from_reporter queue a now heap = (act, queue ++ msgs, a', heap') /\
    answers msgs = [] /\ becomes cs heap a heap' a' /\ submitted a' = submitted a /\
    ea_retransmit_count a' = ea_retransmit_count a /\ ea_ns a' = ea_ns a /\
    ea_retransmission_buf a' = ea_retransmission_buf a /\
    (is_Some (ea_t_retransmissions_exhausted a') <-> is_Some (ea_t_retransmissions_exhausted a)).
Proof.
  intros Hb. pose proof Hb as [T Hm Hn Hl]. unfold reconcile_umac_done_from_reporter.
  destruct (_ || _) eqn:Ec.
  { exists false, [], a, heap. rewrite app_nil_r. split_and!; try done; by apply becomes_refl. }
  apply orb_false_iff in Ec as [_ Ec]. apply negb_false_iff in Ec.
  assert (Hs : submitted a = true).
  { apply (to_mac _ _ T). unfold ack_current_mac_state in Ec. destruct (ea_current_mac_reporter a); [by eexists|done]. }
  assert (Hs' : is_Some (ea_t_submitted_to_umac a)) by (by apply bool_decide_eq_true in Hs).
  destruct (bool_decide _ && _) eqn:Ef.
  - apply andb_true_iff in Ef as [_ Ef%negb_true_iff]. cbn in Ef.
    destruct (mark_first_complete cs heap a Hb Ef) as (He & Hr & Ha).
    eexists true, [_], _, _. split; [done|]. split; [done|]. split; [|done].
    refine (becomes_progress cs heap a _ (ea_t_submitted_to_umac a) (Some now) (ea_t_retransmissions_exhausted a)
      (ea_current_mac_reporter a) (ea_retransmit_count a) true Hb _ _ _ _ _ _); [apply T|done|by eexists|by apply Ha|done|done].
  - eexists false, [], _, _. rewrite app_nil_r. split; [done|]. split; [done|]. split; [|done].
    apply becomes_progress; [done|apply T|done|by eexists|done|apply evolves_refl|apply (to_receipt _ _ T)].
Qed.

(** The transfer goes to the MAC with a fresh reporter. *)
Lemma submit_becomes cs queue a now heap :
  beside cs heap a -> ea_t_retransmissions_exhausted a = None ->
  exists prim a' heap', submit_for_acknowledged_transmission queue a now heap = (queue ++ [TmaUnitdataReqMsg prim], a', heap') /\
    becomes cs heap a heap' a' /\ tr_pdu prim = tr_pdu (ea_retransmission_buf a) /\
    (forall r, apart heap cs r -> apart heap' cs r).
Proof.
  intros Hb Hx. pose proof Hb as [T Hm Hn Hl]. unfold submit_for_acknowledged_transmission.
  destruct (new_unacked_fresh heap (svc_cell a :: cs)) as (l & E & Hf & He & Hd).
  { intros c [->|Hc]%elem_of_cons; [|by apply Hl]. rewrite (to_receipt _ _ T). by eexists. }
  rewrite E. do 3 eexists. split; [done|]. split; [|split; [done|]].
  - apply becomes_progress; [done|apply T|by eexists|by rewrite Hx; intros [? [=]]| | |].
    + intros x [= <-]. split; [done|]. cbn. rewrite lookup_insert_eq. by eexists.
    + by eapply evolves_mono; [|exact He]; intros c Hc; right.
    + rewrite (proj1 He) by (by left). apply (to_receipt _ _ T).
  - intros r Hr. by eapply apart_evolves; [exact Hr|apply He|].
Qed.

(** A waiting acknowledgement is folded in; the TL-SDU stays. *)
Lemma stores_becomes cs heap a ns b has_fcs sdu :
  beside cs heap a -> stores a has_fcs sdu -> stores (ea_with_pdu a ns b) has_fcs sdu ->
  becomes cs heap a heap (ea_with_pdu a ns b).
Proof.
  intros [T Hm Hn Hl] H1 H2. constructor; [|cbn|done|done|done|done].
  - destruct T. constructor; try done. by eauto.
  - unfold tid. by rewrite (stores_carried _ _ _ H1), (stores_carried _ _ _ H2).
Qed.

Lemma acks_inv_drop l ack rest p : take_first p l = Some (ack, rest) -> acks_inv l -> acks_inv rest.
Proof.
  intros (l1 & l2 & -> & -> & _)%take_first_Some [H1 H2]. constructor.
  - apply Forall_app in H1 as [? H1]. apply Forall_cons in H1 as [_ ?]. by apply Forall_app.
  - rewrite fmap_app in *. cbn in H2. apply NoDup_app in H2 as (A & B & C). apply NoDup_cons in C as [_ C].
    apply NoDup_app. split_and!; [done| |done]. intros x Hx Hx'. apply (B x Hx). by right.
Qed.

Lemma fold_becomes main_carrier cs queue scheduled a heap :
  beside cs heap a -> acks_inv scheduled ->
  exists msgs scheduled' b,
    fold_waiting_ack_into_mac_ready_bl_data main_carrier queue scheduled a
      = Some (queue ++ msgs, scheduled', ea_with_pdu a (ea_ns a) b) /\
    becomes cs heap a heap (ea_with_pdu a (ea_ns a) b) /\ answers msgs = [] /\ acks_inv scheduled'.
Proof.
  intros Hb Hk. destruct (to_stores _ _ (bs_ok _ _ _ Hb)) as (f & sdu & Hs).
  destruct (fold_waiting_ack main_carrier queue scheduled a f sdu Hs (ai_nr _ Hk)) as (msgs & sch & b & E & Hs' & Hf).
  exists msgs, sch, b. split; [done|]. split; [by eapply stores_becomes|].
  destruct Hf as [_|ack rest Et|ack rest pdu Et _]; [done|by split; [|eapply acks_inv_drop]..].
Qed.

(** ** Operations on the entity *)

(** Requests not answered yet, with what they carry. *)
Definition pending (self : Llc) : list (Z * option (list bool)) :=
  (tid <$> outbound_messages self) ++ (uid <$> outbound_udata_messages self).

Lemma udata_inv_evolves heap heap' cs cs' l :
  udata_inv heap cs l -> (forall c, is_Some (heap !! c) -> is_Some (heap' !! c)) -> cs' ⊆ cs -> udata_inv heap' cs' l.
Proof.
  intros H He Hs. eapply Forall_impl; [exact H|]. intros u [H1 H2]. by split; eapply apart_evolves.
Qed.

Lemma inv_scheduled self heap l : inv self heap -> acks_inv l -> inv (with_scheduled self l) heap.
Proof. intros [] H. by constructor. Qed.

Lemma inv_evolves self heap heap' :
  inv self heap -> evolves (svc_cell <$> outbound_messages self) heap heap' -> inv self heap'.
Proof.
  intros [] He. constructor; try done; [by eapply out_inv_evolves|]. by eapply udata_inv_evolves; [|apply He|].
Qed.

(** One transfer changes, wherever it stands in the queue. *)
Lemma inv_update self heap a rest heap' a' out' :
  inv self heap -> outbound_messages self ≡ₚ a :: rest -> becomes (svc_cell <$> rest) heap a heap' a' ->
  (submitted a' = true -> link_free a rest) -> out' ≡ₚ a' :: rest ->
  inv (with_outbound self out') heap' /\ pending (with_outbound self out') ≡ₚ pending self.
Proof.
  intros [] Hp Hb Hl Ho. split.
  - constructor; try done; cbn.
    + eapply out_inv_perm; [symmetry; exact Ho|]. apply (out_inv_update heap a); [|done|done].
      by apply (out_inv_perm heap (outbound_messages self)).
    + eapply udata_inv_evolves; [done|apply Hb|]. rewrite Ho, Hp. cbn. rewrite (bc_cell _ _ _ _ _ Hb). by intros c.
    + rewrite Ho. cbn. by rewrite Hp in iv_out_len0.
  - unfold pending. cbn. rewrite Ho, Hp. cbn. by rewrite (bc_tid _ _ _ _ _ Hb).
Qed.

(** One transfer leaves the queue. *)
Lemma inv_remove self heap a rest heap' out' :
  inv self heap -> outbound_messages self ≡ₚ a :: rest -> evolves (svc_cell <$> rest) heap heap' -> out' ≡ₚ rest ->
  inv (with_outbound self out') heap' /\ tid a :: pending (with_outbound self out') ≡ₚ pending self.
Proof.
  intros [] Hp He Ho. split.
  - constructor; try done; cbn.
    + eapply out_inv_perm; [symmetry; exact Ho|]. apply (out_inv_evolves heap); [|done].
      apply (out_inv_drop heap a). by apply (out_inv_perm heap (outbound_messages self)).
    + eapply udata_inv_evolves; [done|apply He|]. rewrite Ho, Hp. cbn. intros c Hc. by right.
    + rewrite Ho. rewrite Hp in iv_out_len0. cbn in iv_out_len0. lia.
  - unfold pending. cbn. by rewrite Ho, Hp.
Qed.

Lemma inv_beside self heap a rest :
  inv self heap -> outbound_messages self ≡ₚ a :: rest -> beside (svc_cell <$> rest) heap a.
Proof. intros [] Hp. apply out_inv_beside. by apply (out_inv_perm heap (outbound_messages self)). Qed.

Lemma inv_link_free self heap a rest :
  inv self heap -> outbound_messages self ≡ₚ a :: rest -> submitted a = true -> link_free a rest.
Proof. intros [] Hp. apply (out_inv_link_free heap). by apply (out_inv_perm heap (outbound_messages self)). Qed.

(** Requests [new] come in, [msgs] are pushed: what is not answered stays pending. *)
Record effect (self : Llc) (heap : store) (new : list (Z * option (list bool))) (msgs : list LlcMsg)
  (self' : Llc) (heap' : store) : Prop := {
  ef_inv : inv self' heap';
  ef_account : exists answered, fst <$> answered = answers msgs /\ answered ++ pending self' ≡ₚ new ++ pending self
}.

Lemma effect_refl self heap : inv self heap -> effect self heap [] [] self heap.
Proof. intros H. split; [done|]. by exists []. Qed.

Lemma effect_trans s1 h1 n1 m1 s2 h2 n2 m2 s3 h3 :
  effect s1 h1 n1 m1 s2 h2 -> effect s2 h2 n2 m2 s3 h3 -> effect s1 h1 (n1 ++ n2) (m1 ++ m2) s3 h3.
Proof.
  intros [_ (d1 & E1 & P1)] [I (d2 & E2 & P2)]. split; [done|].
  exists (d1 ++ d2). rewrite fmap_app, E1, E2, answers_app. split; [done|].
  rewrite <- app_assoc, P2. rewrite (app_assoc d1), (Permutation_app_comm d1), <- app_assoc, P1.
  by rewrite !app_assoc, (Permutation_app_comm n2).
Qed.

(** Messages that answer nothing. *)
Lemma effect_quiet self heap msgs self' heap' :
  inv self' heap' -> answers msgs = [] -> pending self' ≡ₚ pending self -> effect self heap [] msgs self' heap'.
Proof. intros H E P. split; [done|]. exists []. by rewrite E. Qed.

(** Nothing is pushed, or the transfer that leaves is answered. *)
Lemma effect_answered self heap msgs x self' heap' :
  inv self' heap' -> answers msgs = [x.1] -> x :: pending self' ≡ₚ pending self -> effect self heap [] msgs self' heap'.
Proof. intros H E P. split; [done|]. exists [x]. by rewrite E. Qed.

Lemma take_first_perm {A} (p : A -> bool) l x l' : take_first p l = Some (x, l') -> l ≡ₚ x :: l' /\ p x = true.
Proof. intros (l1 & l2 & -> & -> & Hp & _)%take_first_Some. split; [by rewrite Permutation_middle|done]. Qed.

Lemma tid_progress a sub done exh mac count fst : tid (ea_progress a sub done exh mac count fst) = tid a.
Proof. done. Qed.


Lemma tid_handle a a' : tid a' = tid a -> ea_req_handle a' = ea_req_handle a.
Proof. intros [= H _]. done. Qed.

Lemma report_first_complete_becomes cs queue a heap :
  beside cs heap a -> is_Some (ea_t_submitted_to_umac a) ->
  exists msgs a' heap', report_first_complete queue a heap = (a', queue ++ msgs, heap') /\ answers msgs = [] /\
    becomes cs heap a heap' a' /\ submitted a' = submitted a /\ ea_first_complete_report_sent a' = true.
Proof.
  intros Hb Hs. unfold report_first_complete. destruct (negb (ea_first_complete_report_sent a)) eqn:Ef.
  - apply negb_true_iff in Ef. destruct (mark_first_complete _ _ _ Hb Ef) as (He & Hr & Ha).
    eexists [_], _, _. split; [done|]. split; [done|]. split; [|done].
    apply becomes_progress; [done|apply Hb|done|apply Hb|apply Ha, Hb|done|done].
  - apply negb_false_iff in Ef. exists [], a, heap. rewrite app_nil_r. split_and!; try done; by apply becomes_refl.
Qed.

(** The MAC has, or must have, completed the attempt. *)
Lemma completed_becomes cs a now heap :
  beside cs heap a -> is_Some (ea_t_submitted_to_umac a) ->
  becomes cs heap a (mark_ack_current_mac_transmitted a heap) (ea_with_done a (Some now)).
Proof.
  intros Hb Hs. pose proof (mac_mark _ _ _ Transmitted Hb) as He.
  change (evolves (svc_cell a :: cs) heap (mark_ack_current_mac_transmitted a heap)) in He.
  apply becomes_progress; [done|apply Hb|done|by eexists| | |].
  - eapply apart_evolves; [apply Hb|apply He|by intros c].
  - eapply evolves_mono; [|exact He]. intros c Hc. by right.
  - rewrite (proj1 He) by (by left). apply Hb.
Qed.

(** What became of the transfer leaves the queue acknowledged. *)
Lemma acknowledged_leaves self heap a rest heap1 a1 :
  inv self heap -> outbound_messages self ≡ₚ a :: rest -> becomes (svc_cell <$> rest) heap a heap1 a1 ->
  ea_first_complete_report_sent a1 = true ->
  exists heap', mark_acknowledged (ea_tx_reporter a1) heap1 = Some heap' /\
    inv (with_outbound self rest) heap' /\ tid a1 :: pending (with_outbound self rest) ≡ₚ pending self.
Proof.
  intros I Hp B Hf. pose proof (becomes_beside _ _ _ _ _ (inv_beside _ _ _ _ I Hp) B) as Hb.
  destruct (service_acknowledged _ _ _ Hb Hf) as (heap' & E & He).
  exists heap'. split; [done|]. rewrite (bc_tid _ _ _ _ _ B).
  apply (inv_remove self heap a rest heap' rest I Hp); [|done]. by eapply evolves_trans; [apply B|].
Qed.

(** What became of the transfer leaves the queue as failed. *)
Lemma failed_leaves self heap a rest heap1 a1 queue msgs :
  inv self heap -> outbound_messages self ≡ₚ a :: rest -> becomes (svc_cell <$> rest) heap a heap1 a1 -> answers msgs = [] ->
  exists heap', mark_ack_service_failed a1 heap1 = Some heap' /\
    exists msgs', push_tla_report (queue ++ msgs) (ea_req_handle a1) TLA_REPORT_FAILED_TRANSFER (ea_endpoint_id a1) = queue ++ msgs' /\
    effect self heap [] msgs' (with_outbound self rest) heap'.
Proof.
  intros I Hp B Hm. pose proof (becomes_beside _ _ _ _ _ (inv_beside _ _ _ _ I Hp) B) as Hb.
  destruct (mark_service_failed _ _ _ Hb) as (heap' & E & He). exists heap'. split; [done|].
  eexists (msgs ++ [_]). unfold push_tla_report. rewrite <- app_assoc. split; [done|].
  destruct (inv_remove self heap a rest heap' rest I Hp) as [I' P']; [by eapply evolves_trans; [apply B|]|done|].
  apply (effect_answered _ _ _ (tid a)); [exact I'| |exact P'].
  rewrite answers_app, Hm. cbn. by rewrite (tid_handle _ _ (bc_tid _ _ _ _ _ B)).
Qed.

(** A received N(R): a matching one hands the transfer back, another one may send it again
    or give it up. *)
Lemma process_incoming_ack_effect self queue addr ep nr heap :
  inv self heap ->
  exists mack self' msgs heap', process_incoming_ack self queue addr ep nr heap = Some (mack, self', queue ++ msgs, heap') /\
    match mack with
    | Some a => inv self' heap' /\ answers msgs = [] /\ tid a :: pending self' ≡ₚ pending self
    | None => effect self heap [] msgs self' heap'
    end.
Proof.
  intros I. unfold process_incoming_ack.
  destruct (take_expected_ack_for_key _ _) as [[a rest]|] eqn:Et.
  2:{ exists None, self, [], heap. rewrite app_nil_r. split; [done|by apply effect_refl]. }
  apply take_first_perm in Et as [Hp [_ Hs]%andb_true_iff]. change (submitted a = true) in Hs.
  pose proof (inv_beside _ _ _ _ I Hp) as Hb. pose proof (inv_link_free _ _ _ _ I Hp Hs) as Hl.
  destruct (reconcile_becomes _ queue a (dltime (with_outbound self rest)) heap Hb)
    as (act & msgs & a1 & heap1 & E1 & Hm & B1 & Hs1 & Hc1 & _).
  rewrite E1. cbn beta iota. clear E1 act. pose proof (becomes_beside _ _ _ _ _ Hb B1) as Hb1.
  assert (Hsub : is_Some (ea_t_submitted_to_umac a1)) by (rewrite Hs in Hs1; by apply bool_decide_eq_true in Hs1).
  destruct (bool_decide (ea_t_umac_done a1 = None) || negb (ea_first_complete_report_sent a1)) eqn:Ed;
    (destruct (ea_ns a1 =? nr)%Z; [|]).
  - pose proof (completed_becomes _ _ (dltime (with_outbound self rest)) _ Hb1 Hsub) as B2.
    destruct (report_first_complete_becomes _ (queue ++ msgs) _ _ (becomes_beside _ _ _ _ _ Hb1 B2) Hsub)
      as (msgs3 & a3 & heap3 & E3 & Hm3 & B3 & _ & Hf3).
    rewrite E3. cbn beta iota.
    pose proof (becomes_trans _ _ _ _ _ _ _ B1 (becomes_trans _ _ _ _ _ _ _ B2 B3)) as B.
    destruct (acknowledged_leaves _ _ _ _ _ _ I Hp B Hf3) as (heap4 & E4 & I4 & P4).
    rewrite E4. step. exists (Some a3), (with_outbound self rest), (msgs ++ msgs3), heap4. rewrite app_assoc.
    by rewrite answers_app, Hm, Hm3.
  - exists None, (with_outbound self (a1 :: rest)), msgs, heap1. split; [done|].
    destruct (inv_update self heap a rest heap1 a1 (a1 :: rest) I Hp B1) as [I' P']; [done|done|].
    by apply effect_quiet.
  - apply orb_false_iff in Ed as [_ Ed%negb_false_iff].
    destruct (acknowledged_leaves _ _ _ _ _ _ I Hp B1 Ed) as (heap4 & E4 & I4 & P4).
    rewrite E4. step. by exists (Some a1), (with_outbound self rest), msgs, heap4.
  - destruct (Z.ltb_spec (ea_retransmit_count a1) N252_BL_MAX_TLSDU_RETRANSMITS_ACKED) as [Ec|Ec].
    + eexists None, _, msgs, heap1. split; [done|].
      destruct (inv_update self heap a rest heap1
        (ea_progress a1 None None None None (ea_retransmit_count a1 + 1) (ea_first_complete_report_sent a1))
        (ea_progress a1 None None None None (ea_retransmit_count a1 + 1) (ea_first_complete_report_sent a1) :: rest)
        I Hp) as [I' P']; [|done|done|by apply effect_quiet].
      eapply becomes_trans; [exact B1|]. pose proof (to_count _ _ (bs_ok _ _ _ Hb1)) as Hc.
      apply becomes_progress; [done|lia|by intros [[? [=]]|[? [=]]]|by intros [? [=]]|apply apart_None|apply evolves_refl|apply Hb1].
    + destruct (failed_leaves _ _ _ _ _ _ queue msgs I Hp B1 Hm) as (heap4 & E4 & msgs' & Em & F). rewrite E4. step.
      exists None, (with_outbound self rest), msgs', heap4. by rewrite Em.
Qed.

(** ** Received PDUs *)

Lemma upsert_acks_inv k l : acks_inv l -> seq_bit (so_nr k) -> acks_inv (upsert_ack k l).
Proof.
  intros Hi Hn.
  assert (H : acks_inv (upsert_ack k l) /\ forall x, x ∈ so_key <$> upsert_ack k l -> x = so_key k \/ x ∈ so_key <$> l).
  { induction l as [|e l IH]; cbn [upsert_ack fmap list_fmap].
    - split; [constructor; [by apply Forall_singleton|apply NoDup_singleton]|].
      intros x [->|Hx]%elem_of_cons; [by left|by apply not_elem_of_nil in Hx].
    - destruct Hi as [H1 H2]. apply Forall_cons in H1 as [H1 H1']. cbn in H2. apply NoDup_cons in H2 as [H2 H2'].
      destruct (_ && _ && _) eqn:E; cbn [fmap list_fmap].
      + rewrite !andb_true_iff, Z.eqb_eq, bool_decide_eq_true, Z.eqb_eq in E. destruct E as [[E1 E2] E3].
        assert (Ek : so_key k = so_key e).
        { unfold so_key. f_equal; [|done]. destruct (so_addr e), (so_addr k). cbn in *. congruence. }
        split; [|intros x [->|Hx]%elem_of_cons; [by left|by right; right]].
        constructor; cbn; [by constructor|]. rewrite Ek. by apply NoDup_cons.
      + destruct IH as [[I1 I2] I3]; [by constructor|]. split.
        2:{ intros x [->|Hx]%elem_of_cons; [by right; left|]. destruct (I3 x Hx); [by left|by right; right]. }
        constructor; cbn; [by constructor|]. apply NoDup_cons. split; [|done]. intros Hx.
        destruct (I3 _ Hx) as [Ek|?]; [|done]. unfold so_key in Ek. injection Ek as Ea Ee.
        rewrite Ea, Ee in E. by rewrite !Z.eqb_refl, bool_decide_true in E. }
  apply H.
Qed.

Lemma pending_same self self' :
  outbound_messages self' = outbound_messages self -> outbound_udata_messages self' = outbound_udata_messages self ->
  pending self' = pending self.
Proof. intros H1 H2. unfold pending. by rewrite H1, H2. Qed.

(** Only the parts of the entity that concern receiving differ. *)
Lemma inv_receiving self self' heap :
  inv self heap -> acks_inv (scheduled_out_acks self') ->
  outbound_messages self' = outbound_messages self -> outbound_udata_messages self' = outbound_udata_messages self ->
  link_send_seq self' = link_send_seq self -> inv self' heap.
Proof. intros [] H1 H2 H3 H4. constructor; by rewrite ?H2, ?H3, ?H4. Qed.

Lemma receive_ns_inv self prim ns heap :
  inv self heap -> seq_bit ns ->
  exists handle dup self', receive_ns self prim ns = (handle, dup, self') /\ inv self' heap /\ pending self' = pending self.
Proof.
  intros I Hn. unfold receive_ns. cbv zeta.
  match goal with |- context [if ?c then match scheduled_out_ack_handle_for_key _ _ with _ => _ end else _] =>
    destruct c; [destruct (scheduled_out_ack_handle_for_key _ _)|] end;
    (do 3 eexists; split; [reflexivity|]; split; [|done];
     apply (inv_receiving self); [done|apply upsert_acks_inv; [apply I|done]|done..]).
Qed.

Lemma deliver_bl_effect self queue prim ty pdu has_fcs fcs_ok ind mack heap :
  inv self heap -> wf pdu ->
  (is_bl_ack_type ty = false -> is_bl_udata_type ty = false -> fcs_ok = true -> is_Some ind) ->
  (is_Some mack -> is_bl_ack_type ty = true \/ is_bl_adata_type ty = true) ->
  exists self' msgs, deliver_bl self queue prim ty pdu has_fcs fcs_ok ind mack = Some (self', queue ++ msgs) /\
    inv self' heap /\ pending self' = pending self /\ answers msgs = option_list (ea_req_handle <$> mack).
Proof.
  intros I W Hi Hm. unfold deliver_bl. destruct (from_here_holds pdu W) as (b & Eb & Hb & _).
  assert (In : forall n, inv (with_next_handle self n) heap) by (intros n; by apply (inv_receiving self); [done|apply I|..]).
  destruct (is_bl_ack_type ty) eqn:Ea.
  - destruct mack as [a|]; destruct (fcs_ok && _); rewrite ?Eb; try step;
      first [by eexists _, [_]|eexists _, []; by rewrite app_nil_r].
  - set (q := match mack with Some a => _ | None => queue end).
    assert (exists m1, q = queue ++ m1 /\ answers m1 = option_list (ea_req_handle <$> mack)) as (m1 & Eq & Em).
    { unfold q. destruct mack as [a|]; [|exists []; by rewrite app_nil_r].
      destruct Hm as [[=]| ->]; [by eexists|]. by eexists [_]. }
    assert (Hq : exists self' msgs, Some (self, q) = Some (self', queue ++ msgs) /\ inv self' heap /\
      pending self' = pending self /\ answers msgs = option_list (ea_req_handle <$> mack)).
    { exists self, m1. by rewrite Eq. }
    destruct mack; (destruct fcs_ok; cbn [negb]; [|exact Hq]);
      (destruct (match ind with Some _ => _ | None => _ end); [exact Hq|]);
      rewrite Eb; step;
      (destruct (is_bl_udata_type ty); [|destruct (Hi eq_refl eq_refl eq_refl) as [[h d] ->]; step]);
      rewrite Eq; (eexists self, (m1 ++ [_]); rewrite <- app_assoc; split; [done|]; split; [done|]; split; [done|];
        by rewrite answers_app, Em, app_nil_r).
Qed.

Lemma cancel_scheduled_inv self addr ep heap :
  inv self heap -> inv (cancel_scheduled_out_ack_for_new_bl_data self addr ep) heap /\
    pending (cancel_scheduled_out_ack_for_new_bl_data self addr ep) = pending self.
Proof.
  intros I. unfold cancel_scheduled_out_ack_for_new_bl_data.
  destruct (take_first _ _) as [[k rest]|] eqn:E; [|done]. split; [|done].
  apply inv_scheduled; [done|]. eapply acks_inv_drop; [exact E|apply I].
Qed.

(** The acknowledgement half of a PDU and its delivery. *)
Lemma ack_and_deliver self queue prim ty pdu has_fcs fcs_ok ind nr heap :
  inv self heap -> wf pdu ->
  (is_bl_ack_type ty = false -> is_bl_udata_type ty = false -> fcs_ok = true -> is_Some ind) ->
  (is_Some nr -> is_bl_ack_type ty = true \/ is_bl_adata_type ty = true) ->
  exists self' msgs heap',
    ('(matching_ack, self, queue, heap) ←
       match nr with
       | Some nr => process_incoming_ack self queue (ti_main_address prim) (ti_endpoint_id prim) nr heap
       | None => Some (None, self, queue, heap)
       end;
     '(self, queue) ← deliver_bl self queue prim ty pdu has_fcs fcs_ok ind matching_ack;
     Some (self, queue, heap)) = Some (self', queue ++ msgs, heap') /\ effect self heap [] msgs self' heap'.
Proof.
  intros I W Hi Hn. destruct nr as [nr|].
  - destruct (process_incoming_ack_effect self queue (ti_main_address prim) (ti_endpoint_id prim) nr heap I)
      as (mack & self1 & m1 & heap1 & E1 & H1). rewrite E1. step.
    assert (I1 : inv self1 heap1) by (destruct mack; apply H1).
    destruct (deliver_bl_effect self1 (queue ++ m1) prim ty pdu has_fcs fcs_ok ind mack heap1 I1 W Hi)
      as (self2 & m2 & E2 & I2 & P2 & A2); [intros _; apply Hn; by eexists|].
    rewrite E2. step. exists self2, (m1 ++ m2), heap1. rewrite app_assoc. split; [done|].
    destruct mack as [a|].
    + destruct H1 as (_ & Hm & P1). apply (effect_answered _ _ _ (tid a)); [done| |by rewrite P2].
      by rewrite answers_app, Hm, A2.
    + destruct H1 as [_ (d & Ed & Pd)]. split; [done|]. exists d. rewrite answers_app, A2, app_nil_r, P2. done.
  - step. destruct (deliver_bl_effect self queue prim ty pdu has_fcs fcs_ok ind None heap I W Hi)
      as (self2 & m2 & E2 & I2 & P2 & A2); [by intros [? [=]]|].
    rewrite E2. step. exists self2, m2, heap. split; [done|]. apply effect_quiet; [done|done|by rewrite P2].
Qed.

(** A received PDU: well formed, read from its start, and not one of the advanced link. *)
Definition pdu_ok (pdu : BitBuffer) : Prop :=
  wf pdu /\ pos pdu = start pdu /\
  match peek_pdu_type pdu with
  | Some (Some (AlSetup | AlDataAlFinal | AlAckAlRnr)) => False
  | _ => True
  end.

Lemma rx_tma_unitdata_ind_bl_effect self queue prim pdu heap :
  inv self heap -> wf pdu -> pos pdu = start pdu ->
  exists self' msgs heap', rx_tma_unitdata_ind_bl self queue prim pdu heap = Some (self', queue ++ msgs, heap') /\
    effect self heap [] msgs self' heap'.
Proof.
  intros I W P. unfold rx_tma_unitdata_ind_bl. destruct (peek_pdu_type_total pdu W P) as [ty Et]. rewrite Et. step.
  assert (Hq : exists self' msgs heap', Some (self, queue, heap) = Some (self', queue ++ msgs, heap') /\
    effect self heap [] msgs self' heap').
  { exists self, [], heap. rewrite app_nil_r. split; [done|by apply effect_refl]. }
  destruct ty as [ty|]; [|exact Hq].
  destruct (parse_bl_header_total ty pdu W) as (h & Eh & Hh). rewrite Eh. step.
  destruct h as [[[[has_fcs ns] nr] pdu1]|]; [|exact Hq]. destruct (Hh _ eq_refl) as (W1 & Hns & Hnr & Hk & Hr). clear Hh Eh.
  destruct (check_fcs_total pdu1 W1) as (x & Ex & Hx).
  assert (exists fcs_ok, (if negb has_fcs then Some true else check_fcs pdu1) = Some fcs_ok /\
    (has_fcs && fcs_ok = true -> 32 <= get_len_remaining pdu1)) as (fcs_ok & Ef & Hf).
  { destruct has_fcs; cbn; [by exists x|by exists true]. }
  rewrite Ef. step. set (self1 := if _ && _ then _ else self).
  assert (inv self1 heap /\ pending self1 = pending self) as [I1 P1].
  { unfold self1. destruct (bool_decide (is_Some ns) && negb fcs_ok); [by apply cancel_scheduled_inv|done]. }
  destruct (has_fcs && negb fcs_ok && _) eqn:Ee.
  { exists self1, [], heap. rewrite app_nil_r. split; [done|]. apply effect_quiet; [done|done|by rewrite P1]. }
  assert (exists pdu2, (if has_fcs && fcs_ok then strip_validated_fcs pdu1 else Some pdu1) = Some pdu2 /\ wf pdu2) as (pdu2 & E2 & W2).
  { destruct (has_fcs && fcs_ok); [by apply strip_total, Hf|by exists pdu1]. }
  rewrite E2. step.
  match goal with |- context [let '(_, _) := ?m in _] =>
    assert (exists ind self2, m = (ind, self2) /\ inv self2 heap /\ pending self2 = pending self /\
      (is_Some ns -> fcs_ok = true -> is_Some ind)) as (ind & self2 & E3 & I2 & P2 & Hind) end.
  { destruct ns as [ns|]; [|exists None, self1; split_and!; [done..|by intros [? [=]]]].
    destruct fcs_ok; [|by exists None, self1].
    destruct (receive_ns_inv self1 prim ns heap I1 (Hns ns eq_refl)) as (hd & dup & self2 & E3 & I2 & P2).
    rewrite E3. exists (Some (hd, dup)), self2. split_and!; [done..|by rewrite P2|by eexists]. }
  rewrite E3. cbn beta iota.
  destruct (ack_and_deliver self2 queue prim ty pdu2 has_fcs fcs_ok ind nr heap I2 W2) as (self' & msgs & heap' & E & [I' A']).
  - intros H1 H2 H3. apply Hind; [|done]. by destruct Hk as [?|[?|?]]; [done|congruence..].
  - done.
  - exists self', msgs, heap'. split; [exact E|]. split; [done|]. by rewrite P2 in A'.
Qed.

Lemma rx_tma_unitdata_ind_effect self queue prim heap :
  inv self heap -> (forall pdu, ti_pdu prim = Some pdu -> pdu_ok pdu) ->
  exists self' msgs heap', rx_tma_unitdata_ind self queue prim heap = Some (self', queue ++ msgs, heap') /\
    effect self heap [] msgs self' heap'.
Proof.
  intros I H. unfold rx_tma_unitdata_ind.
  assert (Hq : exists self' msgs heap', Some (self, queue, heap) = Some (self', queue ++ msgs, heap') /\
    effect self heap [] msgs self' heap').
  { exists self, [], heap. rewrite app_nil_r. split; [done|by apply effect_refl]. }
  destruct (ti_pdu prim) as [pdu|] eqn:Ep; [|exact Hq].
  destruct (H pdu eq_refl) as (W & P & Hty). destruct (peek_pdu_type_total pdu W P) as [ty Et]. rewrite Et in Hty |- *. step.
  destruct ty as [[]|]; first [exact Hq|by apply rx_tma_unitdata_ind_bl_effect|done].
Qed.

(** ** Requests *)

(** A cell none of the entity's reporters has. *)
Record unused (self : Llc) (c : nat) : Prop := {
  un_svc : c ∉ svc_cell <$> outbound_messages self;
  un_mac : forall a r, a ∈ outbound_messages self -> ea_current_mac_reporter a = Some r -> tx_cell r <> c;
  un_udata : forall u r, u ∈ outbound_udata_messages self ->
    qu_current_mac_reporter u = Some r \/ qu_service_tx_reporter u = Some r -> tx_cell r <> c
}.

Lemma fresh_unused self heap c : inv self heap -> heap !! c = None -> unused self c.
Proof.
  intros [[O1 O2 O3 O4] U _ _ _ _] Hc. unfold udata_inv in U. rewrite Forall_forall in O1. rewrite Forall_forall in O4. rewrite Forall_forall in U. split.
  - intros (a & -> & Ha)%list_elem_of_fmap. rewrite (to_receipt _ _ (O1 a Ha)) in Hc. done.
  - intros a r Ha Hr <-. destruct (O4 a Ha r Hr) as [_ [? E]]. congruence.
  - intros u r Hu Hr <-. destruct (U u Hu) as [U1 U2].
    destruct Hr as [Hr|Hr]; [destruct (U1 r Hr) as [_ [? E]]|destruct (U2 r Hr) as [_ [? E]]]; congruence.
Qed.

(** A new transfer, with a receipt of its own, at the end of the queue. *)
Lemma inv_push self heap heap' a m :
  inv self heap -> transfer_ok heap' a -> submitted a = false -> ea_current_mac_reporter a = None ->
  unused self (svc_cell a) -> evolves (svc_cell <$> outbound_messages self) heap heap' ->
  length (outbound_messages self) < LLC_MAX_OUTBOUND_ACKED_MESSAGES -> map_Forall (fun _ v => seq_bit v) m ->
  inv (with_outbound (with_send_seq self m) (outbound_messages self ++ [a])) heap'.
Proof.
  intros I Ta Hs Hm Hu He Hl Hq. pose proof (inv_evolves _ _ _ I He) as [[O1 O2 O3 O4] U A S L1 L2].
  destruct Hu as [U1 U2 U3]. constructor; try done; cbn.
  - constructor.
    + apply Forall_app. split; [done|]. by apply Forall_singleton.
    + rewrite fmap_app. apply NoDup_app. split_and!; [done| |apply NoDup_singleton].
      intros c Hc [->|Hn]%elem_of_cons; [done|by apply not_elem_of_nil in Hn].
    + rewrite List.filter_app. cbn. by rewrite Hs, app_nil_r.
    + apply Forall_app. split; [|by apply Forall_singleton; rewrite Hm].
      rewrite Forall_forall. rewrite Forall_forall in O4. intros b Hb r Hr. destruct (O4 b Hb r Hr) as [N V]. split; [|done].
      rewrite fmap_app. intros [?|[E|E]%elem_of_cons]%elem_of_app; [done| |by apply not_elem_of_nil in E].
      by apply (U2 b r Hb Hr).
  - unfold udata_inv in *. rewrite Forall_forall. rewrite Forall_forall in U. intros u Hu. destruct (U u Hu) as [V1 V2].
    split; intros r Hr; [destruct (V1 r Hr) as [N V]|destruct (V2 r Hr) as [N V]]; (split; [|done]);
      rewrite fmap_app; (intros [?|[E|E]%elem_of_cons]%elem_of_app; [done| |by apply not_elem_of_nil in E]);
      apply (U3 u r Hu); auto.
  - rewrite length_app. cbn. lia.
Qed.

(** A receipt that comes with a request: pending, and not in use for anything else. *)
Definition receipt_ok (self : Llc) (heap : store) (acked : bool) (r : option TxReporter) : Prop :=
  forall x, r = Some x ->
    (acked = true -> expects_ack x = true) /\ heap !! tx_cell x = Some (tx_raw Pending) /\ unused self (tx_cell x).

Lemma receipt_evolves self heap acked r x y :
  receipt_ok self heap acked r ->
  evolves (svc_cell <$> outbound_messages self) heap (if_reporter (fun r heap => snd (try_mark r x y heap)) r heap).
Proof.
  intros H. apply evolves_if_reporter. intros z Hz. destruct (H z Hz) as (_ & Hp & Hu). split; [apply Hu|by eexists].
Qed.

Lemma discard_receipt self heap acked r :
  receipt_ok self heap acked r ->
  exists heap', match r with Some reporter => mark_discarded reporter heap | None => Some heap end = Some heap' /\
    evolves (svc_cell <$> outbound_messages self) heap heap'.
Proof.
  intros H. destruct r as [r|]; [|by exists heap]. destruct (H r eq_refl) as (_ & Hp & Hu).
  unfold mark_discarded, mark, try_mark. rewrite (load_lookup _ _ _ Hp), Z.eqb_refl.
  eexists. split; [done|]. apply evolves_insert, Hu.
Qed.

Record data_req_ok (self : Llc) (heap : store) (prim : TlaTlDataReqBl) : Prop := {
  dq_link : dr_link_id prim = 0%Z;
  dq_addr : ssi_type (dr_main_address prim) <> Gssi;
  dq_sdu : wf (dr_tl_sdu prim);
  dq_receipt : receipt_ok self heap true (dr_tx_reporter prim)
}.

(** A request that is refused is answered at once. *)
Lemma effect_refused self heap x msgs heap' :
  inv self heap -> evolves (svc_cell <$> outbound_messages self) heap heap' -> answers msgs = [x.1] ->
  effect self heap [x] msgs self heap'.
Proof. intros I He Ha. split; [by eapply inv_evolves|]. exists [x]. by rewrite Ha. Qed.

Lemma get_next_send_seq_ok self heap addr ep :
  inv self heap -> exists ns m, get_next_send_seq self addr ep = (ns, with_send_seq self m) /\ seq_bit ns /\
    map_Forall (fun _ v => seq_bit v) m.
Proof.
  intros I. unfold get_next_send_seq. do 2 eexists. split; [done|].
  set (vs := default 0%Z _). assert (Hv : seq_bit vs).
  { unfold vs. destruct (link_send_seq self !! _) as [v|] eqn:E; [by apply (iv_send_seq _ _ I _ _ E)|done]. }
  split; [done|]. apply map_Forall_insert_2; [|apply I]. unfold seq_bit in *.
  assert (vs = 0 \/ vs = 1)%Z as [-> | ->] by lia; done.
Qed.

(** The receipt of a new transfer: the user's, or one of the entity's own. *)
Lemma receipt_taken self heap given :
  inv self heap -> receipt_ok self heap true given ->
  exists r heap', match given with Some r => (r, heap) | None => TxReporter_new heap end = (r, heap') /\
    expects_ack r = true /\ heap' !! tx_cell r = Some (tx_raw Pending) /\ unused self (tx_cell r) /\
    evolves (svc_cell <$> outbound_messages self) heap heap' /\ forall x, given = Some x -> r = x.
Proof.
  intros I Hr. destruct given as [r|].
  - destruct (Hr r eq_refl) as (H1 & H2 & H3). exists r, heap.
    split_and!; [done|by apply H1|done|done|apply evolves_refl|by intros ? [= ->]].
  - unfold TxReporter_new. set (l := fresh (dom heap)).
    assert (Hf : heap !! l = None) by (apply not_elem_of_dom, is_fresh).
    do 2 eexists. split; [done|]. split; [done|]. split; [by rewrite lookup_insert_eq|].
    pose proof (fresh_unused self heap l I Hf) as Hu. split; [done|]. split; [apply evolves_insert, Hu|done].
Qed.

Lemma rx_tla_tldata_req_bl_effect self queue prim heap :
  inv self heap -> data_req_ok self heap prim ->
  exists self' msgs heap', rx_tla_tldata_req_bl self queue prim heap = Some (self', queue ++ msgs, heap') /\
    effect self heap [(dr_req_handle prim, Some (remaining (dr_tl_sdu prim)))] msgs self' heap'.
Proof.
  intros I [Hl Ha Hs Hr]. unfold rx_tla_tldata_req_bl. rewrite Hl. change (assert_ (0 =? 0)%Z) with (Some tt). step.
  rewrite bool_decide_false by done.
  destruct (tl_sdu_exceeds_n251 _ _).
  { destruct (discard_receipt _ _ _ _ Hr) as (heap' & E & He). rewrite E. step.
    eexists self, [_], heap'. split; [done|]. by apply effect_refused. }
  destruct (Nat.leb_spec LLC_MAX_OUTBOUND_ACKED_MESSAGES (length (outbound_messages self))) as [Hlen|Hlen].
  { eexists self, [_], _. split; [done|]. apply effect_refused; [done|by eapply receipt_evolves|done]. }
  destruct (get_next_send_seq_ok self heap (dr_main_address prim) (dr_endpoint_id prim) I) as (ns & m & Eq & Hn & Hm).
  rewrite Eq. cbn beta iota.
  destruct (build_pdu_holds _ _ (dr_tl_sdu prim) _ (dr_fcs_flag prim) (bl_data_emits (mkBlData (dr_fcs_flag prim) ns) Hn)
    Hs eq_refl) as (b & Eb & Hb). rewrite Eb. step.
  destruct (receipt_taken self heap (dr_tx_reporter prim) I Hr) as (r & heap' & Er & Hx & Hp & Hu & He & _).
  rewrite Er. cbn beta iota. eexists _, [_], heap'. split; [done|].
  match goal with |- effect _ _ _ _ (with_outbound _ (_ ++ [?x])) _ => set (a := x) end.
  assert (Hst : stores a (dr_fcs_flag prim) (remaining (dr_tl_sdu prim))) by (split; [done|by exists None]).
  split.
  - apply (inv_push self heap heap' a m); try done. constructor; try done; [by eauto|by intros [? [=]]..].
  - exists []. split; [done|]. unfold pending. cbn. rewrite fmap_app. cbn. unfold tid at 2.
    rewrite (stores_carried _ _ _ Hst). change (ea_req_handle a) with (dr_req_handle prim).
    rewrite <- app_assoc. cbn [app]. by rewrite <- Permutation_middle.
Qed.
