(* ===== verification/LlcTick.v ===== *)
(** * The basic link at the end of a timeslot, and unacknowledged transfers

    Accounting for the retransmission pass, the submission loops with priority and
    emergency cancellation, the unacknowledged transfers and the reports of the MAC. *)

From Stdlib Require Import ZArith Lia ZifyNat.
From stdpp Require Import gmap strings.
From S2P Require Import Prelude.
From S2P Require Import BitBuffer.
From S2P Require Import BitBufferFacts.
From S2P Require Import Tdma.
From S2P Require Import MacFields.
From S2P Require Import Defrag.
From S2P Require Import TxReceipt.
From S2P Require Import Frag.
From S2P Require Import LlcPdus.
From S2P Require Import Llc.
From S2P Require Import LlcFacts.
From S2P Require Import LlcInv.

(** ** Selection and indices *)

Lemma select_by_spec {A} (skip : A -> bool) prio keeps l :
  match select_by skip prio keeps l with
  | Some i => exists x, l !! i = Some x /\ skip x = false
  | None => Forall (fun x => skip x = true) l
  end.
Proof.
  unfold select_by. set (f := fun (selected : option (nat * Z)) ix => _).
  assert (H : match foldl f None (imap pair l) with
              | Some (i, _) => exists x, l !! i = Some x /\ skip x = false
              | None => Forall (fun x => skip x = true) l end).
  { induction l as [|x l IH] using rev_ind; [constructor|].
    rewrite imap_app, foldl_app. cbn [imap foldl]. rewrite Nat.add_0_r.
    assert (Hl : (l ++ [x]) !! length l = Some x) by (by rewrite lookup_app_r, Nat.sub_diag).
    assert (Hm : forall i y, l !! i = Some y -> (l ++ [x]) !! i = Some y) by (intros; by apply lookup_app_l_Some).
    destruct (foldl f None (imap pair l)) as [[i p]|]; cbn [f].
    - destruct IH as (y & Hy & Hs). destruct (skip x) eqn:Ex; [by eauto|]. destruct (keeps p (prio x)); eauto.
    - destruct (skip x) eqn:Ex; [by apply Forall_app, conj; [|apply Forall_singleton]|eauto]. }
  destruct (foldl f None (imap pair l)) as [[i p]|]; exact H.
Qed.

Lemma indices_spec {A} (p : A -> bool) l :
  NoDup (indices p l) /\ forall i, i ∈ indices p l <-> exists x, l !! i = Some x /\ p x = true.
Proof.
  unfold indices. induction l as [|x l [IH1 IH2]] using rev_ind.
  { split; [constructor|]. intros i. cbn. split; [by intros ?%not_elem_of_nil|by intros (? & [=] & _)]. }
  rewrite imap_app, List.filter_app, fmap_app. cbn [imap List.filter]. unfold compose, snd at 2. cbn [snd].
  rewrite Nat.add_0_r.
  assert (Hlt : forall i, i ∈ indices p l -> i < length l).
  { intros i (y & Hy & _)%IH2. by apply lookup_lt_Some in Hy. }
  unfold indices in Hlt. split.
  - destruct (p x); cbn; rewrite ?app_nil_r; [|done]. apply NoDup_app. split_and!; [done| |apply NoDup_singleton].
    intros i Hi [->|Hn]%elem_of_cons; [specialize (Hlt _ Hi); lia|by apply not_elem_of_nil in Hn].
  - intros i. rewrite elem_of_app, IH2. split.
    + intros [(y & Hy & Hp)|Hi]; [exists y; split; [by apply lookup_app_l_Some|done]|].
      destruct (p x) eqn:Ex; [|by apply not_elem_of_nil in Hi]. apply elem_of_cons in Hi as [->|Hi]; [|by apply not_elem_of_nil in Hi].
      exists x. by rewrite lookup_app_r, Nat.sub_diag.
    + intros (y & Hy & Hp). apply lookup_app_Some in Hy as [Hy|[Hi Hy]]; [left; by eauto|right].
      destruct (i - length l) as [|k] eqn:Ek; [|done]. injection Hy as ->. rewrite Hp. cbn.
      replace i with (length l) by lia. by left.
Qed.

Lemma remove_at_perm {A} (l : list A) i x :
  l !! i = Some x -> exists rest, remove_at i l = Some (x, rest) /\ l ≡ₚ x :: rest /\
    (forall y, <[i := y]> l ≡ₚ y :: rest) /\ (forall y, exists l', insert_at i y rest = Some l' /\ l' ≡ₚ y :: rest).
Proof.
  intros H. unfold remove_at. rewrite H. step. eexists. split; [done|].
  pose proof (lookup_lt_Some _ _ _ H) as Hl. split_and!.
  - rewrite <- (take_drop_middle l i x H) at 1. by rewrite Permutation_middle.
  - intros y. rewrite insert_take_drop by done. by rewrite Permutation_middle.
  - intros y. unfold insert_at. rewrite length_app, length_take, length_drop. rewrite Nat.min_l by lia.
    btrue (i <=? i + (length l - S i)). eexists. split; [done|]. rewrite <- Permutation_middle. by rewrite take_drop.
Qed.

(** ** Unacknowledged transfers *)

Definition udata_ok (heap : store) (cs : list nat) (u : QueuedUdata) : Prop :=
  apart heap cs (qu_current_mac_reporter u) /\ apart heap cs (qu_service_tx_reporter u).

Lemma inv_udata self heap heap' l :
  inv self heap -> evolves (svc_cell <$> outbound_messages self) heap heap' ->
  udata_inv heap' (svc_cell <$> outbound_messages self) l -> length l <= LLC_MAX_OUTBOUND_UDATA_MESSAGES ->
  inv (with_udata self l) heap'.
Proof. intros I He Hu Hl. destruct (inv_evolves _ _ _ I He). by constructor. Qed.

Lemma udata_inv_perm heap cs l l' : l ≡ₚ l' -> udata_inv heap cs l -> udata_inv heap cs l'.
Proof. intros Hp H. unfold udata_inv in *. by rewrite <- Hp. Qed.

(** One queued transfer changes, or leaves. *)
Lemma inv_udata_update self heap u rest heap' u' l :
  inv self heap -> outbound_udata_messages self ≡ₚ u :: rest ->
  evolves (svc_cell <$> outbound_messages self) heap heap' -> udata_ok heap' (svc_cell <$> outbound_messages self) u' ->
  uid u' = uid u -> l ≡ₚ u' :: rest ->
  inv (with_udata self l) heap' /\ pending (with_udata self l) ≡ₚ pending self.
Proof.
  intros I Hp He Hu Hid Hl. split.
  - apply (inv_udata self heap); [done|done| |].
    + apply (udata_inv_perm _ _ (u' :: rest)); [by symmetry|]. constructor; [done|].
      pose proof (udata_inv_perm _ _ _ _ Hp (iv_udata _ _ I)) as H. apply Forall_cons in H as [_ H].
      by eapply udata_inv_evolves; [exact H|apply He|].
    + rewrite Hl. pose proof (iv_udata_len _ _ I) as H. by rewrite Hp in H.
  - unfold pending. cbn. rewrite Hl, Hp. cbn. by rewrite Hid.
Qed.

Lemma inv_udata_remove self heap u rest heap' l :
  inv self heap -> outbound_udata_messages self ≡ₚ u :: rest ->
  evolves (svc_cell <$> outbound_messages self) heap heap' -> l ≡ₚ rest ->
  inv (with_udata self l) heap' /\ uid u :: pending (with_udata self l) ≡ₚ pending self.
Proof.
  intros I Hp He Hl. split.
  - apply (inv_udata self heap); [done|done| |].
    + apply (udata_inv_perm _ _ rest); [by symmetry|].
      pose proof (udata_inv_perm _ _ _ _ Hp (iv_udata _ _ I)) as H. apply Forall_cons in H as [_ H].
      by eapply udata_inv_evolves; [exact H|apply He|].
    + rewrite Hl. pose proof (iv_udata_len _ _ I) as H. rewrite Hp in H. cbn in H. lia.
  - unfold pending. cbn. rewrite Hl, Hp. cbn. by rewrite Permutation_middle.
Qed.

Lemma udata_mac_mark self heap u y mark :
  inv self heap -> udata_ok heap (svc_cell <$> outbound_messages self) u ->
  (mark = fun r heap => snd (try_mark r Pending y heap)) ->
  evolves (svc_cell <$> outbound_messages self) heap (if_reporter mark (qu_current_mac_reporter u) heap).
Proof. intros I [H _] ->. by apply evolves_if_reporter. Qed.

Lemma udata_service_mark cs heap heap1 r x y :
  apart heap cs r -> evolves cs heap heap1 -> evolves cs heap (if_reporter (fun r heap => snd (try_mark r x y heap)) r heap1).
Proof.
  intros H He. eapply evolves_trans; [exact He|]. apply evolves_if_reporter. by eapply apart_evolves; [exact H|apply He|].
Qed.

Lemma udata_ok_lookup self heap i u :
  inv self heap -> outbound_udata_messages self !! i = Some u -> udata_ok heap (svc_cell <$> outbound_messages self) u.
Proof. intros I H. pose proof (iv_udata _ _ I) as Hu. unfold udata_inv in Hu. rewrite Forall_lookup in Hu. by apply (Hu i). Qed.

(** A report of the MAC on an unacknowledged transfer: it may complete it or fail it. *)
Lemma handle_udata_effect self queue report idx heap :
  inv self heap -> is_Some (outbound_udata_messages self !! idx) ->
  exists self' msgs heap', handle_udata_tma_report_at_index self queue report idx heap = Some (self', queue ++ msgs, heap') /\
    effect self heap [] msgs self' heap'.
Proof.
  intros I [u Hu]. pose proof (udata_ok_lookup _ _ _ _ I Hu) as Ho. pose proof Ho as [H1 H2].
  unfold handle_udata_tma_report_at_index. rewrite Hu.
  assert (Hq : exists self' msgs heap', Some (self, queue, heap) = Some (self', queue ++ msgs, heap') /\
    effect self heap [] msgs self' heap').
  { exists self, [], heap. rewrite app_nil_r. split; [done|by apply effect_refl]. }
  destruct (remove_at_perm _ _ _ Hu) as (rest & Er & Hp & Hins & _).
  pose proof (udata_mac_mark self heap u Transmitted _ I Ho eq_refl) as Ht.
  pose proof (udata_mac_mark self heap u Discarded _ I Ho eq_refl) as Hd.
  assert (Leave : forall heap' rep, evolves (svc_cell <$> outbound_messages self) heap heap' ->
    answers [TlaTlReportInd (qu_req_handle u) rep (i32 (qu_endpoint_id u))] = [qu_req_handle u] ->
    exists self' msgs heap2, Some (with_udata self rest, push_tla_report queue (qu_req_handle u) rep (qu_endpoint_id u), heap')
      = Some (self', queue ++ msgs, heap2) /\ effect self heap [] msgs self' heap2).
  { intros heap' rep He Ha. eexists _, [_], heap'. split; [done|].
    destruct (inv_udata_remove self heap u rest heap' rest I Hp He) as [I' P']; [done|]. by apply (effect_answered _ _ _ (uid u)). }
  assert (Stay : forall heap' u', evolves (svc_cell <$> outbound_messages self) heap heap' ->
    qu_service_tx_reporter u' = qu_service_tx_reporter u -> qu_current_mac_reporter u' = None -> uid u' = uid u ->
    exists self' msgs heap2, Some (with_udata self (<[idx := u']> (outbound_udata_messages self)), queue, heap')
      = Some (self', queue ++ msgs, heap2) /\ effect self heap [] msgs self' heap2).
  { intros heap' u' He Hsv Hmc Hid. eexists _, [], heap'. rewrite app_nil_r. split; [done|].
    destruct (inv_udata_update self heap u rest heap' u' (<[idx := u']> (outbound_udata_messages self)) I Hp He)
      as [I' P']; [|done|apply Hins|by apply effect_quiet].
    split; [by rewrite Hmc|]. rewrite Hsv. by eapply apart_evolves; [exact H2|apply He|]. }
  destruct report; [exact Hq|..]; step; (destruct (qu_submitted u); cbn [negb]; [|exact Hq]); rewrite Er; step;
    cbn [mark_udata_current_mac_transmitted mark_udata_current_mac_discarded fst snd];
    unfold mark_udata_service_transmitted, mark_udata_service_discarded; cbn [qu_with_mac qu_service_tx_reporter];
    try (destruct (_ <=? _)%Z; cbn [andb]); try (destruct (_ <? _)%Z);
    first [apply Stay; done | apply Leave; [eapply udata_service_mark; eassumption|reflexivity]].
Qed.

(** Making room: what is evicted is answered, and the loop ends with room or with nothing
    left to evict. *)
Lemma ensure_capacity_loop fuel : forall self queue prio limit heap,
  inv self heap -> length (outbound_udata_messages self) < fuel ->
  exists room msgs l heap',
    ensure_udata_backlog_capacity_loop fuel queue (outbound_udata_messages self) prio limit heap = (room, queue ++ msgs, l, heap') /\
    effect self heap [] msgs (with_udata self l) heap' /\ evolves (svc_cell <$> outbound_messages self) heap heap' /\
    (forall u, u ∈ l -> u ∈ outbound_udata_messages self) /\
    if room then length l < limit else lowest_priority_unsubmitted_udata_below l prio = None.
Proof.
  induction fuel as [|fuel IH]; intros self queue prio limit heap I Hf; [lia|]. cbn [ensure_udata_backlog_capacity_loop].
  assert (Hw : with_udata self (outbound_udata_messages self) = self) by by destruct self.
  destruct (Nat.leb_spec limit (length (outbound_udata_messages self))) as [Hl|Hl]; cbn [negb].
  2:{ eexists true, [], _, heap. rewrite app_nil_r, Hw. split_and!; [done|by apply effect_refl|apply evolves_refl|done|done]. }
  destruct (lowest_priority_unsubmitted_udata_below _ prio) as [i|] eqn:Es.
  2:{ eexists false, [], _, heap. rewrite app_nil_r, Hw. split_and!; [done|by apply effect_refl|apply evolves_refl|done|done]. }
  pose proof (select_by_spec (fun u => qu_submitted u || (prio <=? qu_pdu_prio u)%Z) qu_pdu_prio Z.leb (outbound_udata_messages self)) as Hs.
  unfold lowest_priority_unsubmitted_udata_below in Es. rewrite Es in Hs. destruct Hs as (u & Hu & _).
  destruct (remove_at_perm _ _ _ Hu) as (rest & Er & Hp & _ & _). rewrite Er.
  cbn [mark_udata_current_mac_discarded]. pose proof (udata_ok_lookup _ _ _ _ I Hu) as Ho.
  pose proof (udata_mac_mark self heap u Discarded _ I Ho eq_refl) as He1.
  set (heap2 := mark_udata_service_discarded _ _).
  assert (He2 : evolves (svc_cell <$> outbound_messages self) heap heap2) by (by eapply udata_service_mark; [apply Ho|]).
  destruct (inv_udata_remove self heap u rest heap2 rest I Hp He2) as [I2 P2]; [done|].
  destruct (IH (with_udata self rest) (push_tla_report queue (qu_req_handle u) TLA_REPORT_FAILED_TRANSFER (qu_endpoint_id u))
    prio limit heap2 I2) as (room & msgs & l & heap' & E & Hef & He & Hin & Hr).
  { cbn. rewrite Hp in Hf. cbn in Hf. lia. }
  exists room, (TlaTlReportInd (qu_req_handle u) TLA_REPORT_FAILED_TRANSFER (i32 (qu_endpoint_id u)) :: msgs), l, heap'.
  split_and!.
  - etrans; [exact E|]. unfold push_tla_report. by rewrite <- app_assoc.
  - change (with_udata self l) with (with_udata (with_udata self rest) l).
    apply (effect_trans self heap [] [_] (with_udata self rest) heap2 []); [|exact Hef].
    by apply (effect_answered _ _ _ (uid u)).
  - by eapply evolves_trans.
  - intros v Hv. rewrite Hp. right. by apply Hin.
  - done.
Qed.

Record unitdata_req_ok (self : Llc) (heap : store) (prim : TlaTlUnitdataReqBl) : Prop := {
  uq_sdu : wf (ur_tl_sdu prim);
  uq_receipt : receipt_ok self heap false (ur_tx_reporter prim)
}.

Lemma rx_tla_tlunitdata_req_bl_effect self queue prim heap :
  inv self heap -> unitdata_req_ok self heap prim ->
  exists self' msgs heap', rx_tla_tlunitdata_req_bl self queue prim heap = Some (self', queue ++ msgs, heap') /\
    effect self heap
      [(ur_req_handle prim, Some (pdu_img (udata_hdr (ur_fcs_flag prim)) (ur_fcs_flag prim) (remaining (ur_tl_sdu prim))))]
      msgs self' heap'.
Proof.
  intros I [Hs Hr]. unfold rx_tla_tlunitdata_req_bl. destruct (negb (ur_link_id prim =? 0)%Z).
  { eexists self, [_], _. split; [done|]. apply effect_refused; [done|by eapply receipt_evolves|done]. }
  destruct (tl_sdu_exceeds_n251 _ _).
  { destruct (discard_receipt _ _ _ _ Hr) as (heap' & E & He). rewrite E. step.
    eexists self, [_], heap'. split; [done|]. by apply effect_refused. }
  unfold ensure_udata_backlog_capacity.
  destruct (ensure_capacity_loop (S (length (outbound_udata_messages self))) self queue (ur_pdu_prio prim)
    LLC_MAX_OUTBOUND_UDATA_MESSAGES heap I) as (room & msgs & l & heap1 & E & Hef & He & Hin & Hroom); [lia|].
  rewrite E. cbn beta iota. set (self1 := with_udata self l) in *. pose proof (ef_inv _ _ _ _ _ _ Hef) as I1.
  set (new := (ur_req_handle prim, _)).
  assert (Ap : apart heap1 (svc_cell <$> outbound_messages self1) (ur_tx_reporter prim)).
  { intros x Hx. destruct (Hr x Hx) as (_ & Hp & Hu). split; [apply Hu|]. apply He. by eexists. }
  destruct room; cbn [negb].
  - destruct (build_pdu_holds _ _ (ur_tl_sdu prim) _ (ur_fcs_flag prim) (bl_udata_emits (mkBlUdata (ur_fcs_flag prim))) Hs eq_refl)
      as (b & Eb & Hb). rewrite Eb. step. eexists _, msgs, heap1. split; [done|].
    rewrite <- (app_nil_r msgs). change [new] with ([] ++ [new]). eapply effect_trans; [exact Hef|].
    match goal with |- effect _ _ _ _ (with_udata _ (_ ++ [?x])) _ => set (u := x) end. split.
    + apply (inv_udata self1 heap1); [done|apply evolves_refl| |].
      * apply Forall_app. split; [apply I1|]. by apply Forall_singleton.
      * rewrite length_app. cbn. change (length l + 1 <= LLC_MAX_OUTBOUND_UDATA_MESSAGES). lia.
    + exists []. split; [done|]. unfold pending. cbn. rewrite fmap_app, app_assoc, Permutation_app_comm. cbn.
      unfold uid at 1. cbn. rewrite (ho_window _ _ Hb). done.
  - eexists self1, (msgs ++ [_]), _. rewrite app_assoc. split; [done|]. change [new] with ([] ++ [new]).
    eapply effect_trans; [exact Hef|]. apply effect_refused; [done|by apply evolves_if_reporter|done].
Qed.

(** A request to be acknowledged that is addressed to a group is dropped, without a report. *)
Lemma group_request_dropped self queue prim heap :
  dr_link_id prim = 0%Z -> ssi_type (dr_main_address prim) = Gssi ->
  rx_tla_tldata_req_bl self queue prim heap = Some (self, queue, heap).
Proof.
  intros Hl Ha. unfold rx_tla_tldata_req_bl. rewrite Hl. change (assert_ (0 =? 0)%Z) with (Some tt). step.
  by rewrite bool_decide_true.
Qed.

Record data_resp_ok (prim : TlDataRespBl) : Prop := {
  ds_link : dp_link_id prim = 0%Z;
  ds_sdu : wf (dp_tl_sdu prim)
}.

(** A response that comes too late for the acknowledgement, or is too long, is a request; the
    late one to a group address is dropped. *)
Definition resp_asks (self : Llc) (prim : TlDataRespBl) : bool :=
  tl_sdu_exceeds_n251 (dp_tl_sdu prim) (dp_fcs_flag prim) ||
  negb (bool_decide (is_Some
    (take_scheduled_out_ack_for_response self (dp_main_address prim) (dp_endpoint_id prim) (dp_req_handle prim)))) &&
  negb (bool_decide (ssi_type (dp_main_address prim) = Gssi)).

Lemma rx_tla_tldata_resp_bl_effect self queue prim heap :
  inv self heap -> data_resp_ok prim ->
  exists self' msgs heap', rx_tla_tldata_resp_bl self queue prim heap = Some (self', queue ++ msgs, heap') /\
    effect self heap (if resp_asks self prim then [(dp_req_handle prim, Some (remaining (dp_tl_sdu prim)))] else [])
      msgs self' heap'.
Proof.
  intros I [Hl Hs]. unfold rx_tla_tldata_resp_bl, resp_asks.
  destruct (tl_sdu_exceeds_n251 _ _); cbn [orb].
  { eexists self, [_], heap. split; [done|]. apply effect_refused; [done|apply evolves_refl|done]. }
  destruct (take_scheduled_out_ack_for_response _ _ _ _) as [[ack self1]|] eqn:Et.
  - rewrite bool_decide_true by (by eexists). cbn [negb andb].
    unfold take_scheduled_out_ack_for_response in Et.
    destruct (take_first _ _) as [[k rest]|] eqn:Ek; [|done]. injection Et as <- <-.
    assert (Hn : seq_bit (so_nr k)).
    { apply take_first_perm in Ek as [Hp _]. pose proof (ai_nr _ (iv_acks _ _ I)) as Hn. rewrite Hp in Hn.
      by apply Forall_cons in Hn as [Hn _]. }
    edestruct (build_pdu_holds _ _ (dp_tl_sdu prim) _ (ba_has_fcs (mkBlAck (dp_fcs_flag prim && (0 <? get_len_remaining (dp_tl_sdu prim))) (so_nr k)))
      (bl_ack_emits (mkBlAck (dp_fcs_flag prim && (0 <? get_len_remaining (dp_tl_sdu prim))) (so_nr k)) Hn) Hs eq_refl) as (b & Eb & _).
    rewrite Eb. step. eexists _, [_], heap. split; [done|]. apply effect_quiet; [|done|done].
    apply inv_scheduled; [done|]. eapply acks_inv_drop; [exact Ek|apply I].
  - rewrite bool_decide_false by (by intros [? [=]]). cbn [negb andb].
    match goal with |- context [rx_tla_tldata_req_bl self queue ?p heap] => set (req := p) end.
    destruct (bool_decide_reflect (ssi_type (dp_main_address prim) = Gssi)) as [Hg|Hg]; cbn [negb].
    + exists self, [], heap. rewrite app_nil_r. split; [by apply group_request_dropped|by apply effect_refl].
    + apply (rx_tla_tldata_req_bl_effect self queue req heap I). by constructor.
Qed.

(** ** Reports of the MAC *)

Lemma last_elem {A} (l : list A) x : last l = Some x -> x ∈ l.
Proof. intros (l' & ->)%last_Some. apply elem_of_app. right. by left. Qed.

Lemma report_owner_spec self h o :
  single_tma_report_owner_by_req_handle self h = inl (Some o) ->
  match o with
  | BlDataOwner i => exists a, outbound_messages self !! i = Some a /\ submitted a = true /\ ea_req_handle a = h
  | BlUdataOwner i => is_Some (outbound_udata_messages self !! i)
  end.
Proof.
  unfold single_tma_report_owner_by_req_handle. set (found := _ ++ _). destruct (1 <? length found); [done|].
  intros [= H%last_elem]. apply elem_of_app in H as [(i & -> & Hi)%list_elem_of_fmap|(i & -> & Hi)%list_elem_of_fmap].
  - apply indices_spec in Hi as (a & Ha & Hs). exists a. split; [done|].
    unfold submitted_ack_with in Hs. apply andb_true_iff in Hs as [E%Z.eqb_eq Hs]. done.
  - apply indices_spec in Hi as (u & Hu & _). by eexists.
Qed.

Lemma submitted_true a : submitted a = true <-> is_Some (ea_t_submitted_to_umac a).
Proof. apply bool_decide_eq_true. Qed.

Lemma discarded_evolves cs heap a :
  beside cs heap a -> evolves (svc_cell a :: cs) heap (mark_ack_current_mac_discarded a heap).
Proof. intros Hb. exact (mac_mark _ _ _ Discarded Hb). Qed.

(** The attempt was discarded by the MAC. *)
Lemma discarded_becomes cs heap a :
  beside cs heap a -> becomes cs heap a (mark_ack_current_mac_discarded a heap) a.
Proof.
  intros Hb. pose proof (discarded_evolves _ _ _ Hb) as He. rewrite <- (ea_progress_eta a) at 3.
  apply becomes_progress; [done|apply Hb| |apply Hb| | |].
  - intros H. apply submitted_true. destruct Hb as [T _ _ _].
    destruct H as [H|H]; [by apply (to_done _ _ T)|by apply (to_mac _ _ T)].
  - eapply apart_evolves; [apply Hb|apply He|by intros c].
  - eapply evolves_mono; [|exact He]. intros c Hc. by right.
  - rewrite (proj1 He) by (by left). apply Hb.
Qed.

(** A transfer that is not with the MAC is not waiting for a late acknowledgement either. *)
Lemma unsubmitted_fresh heap a : transfer_ok heap a -> submitted a = false -> ea_t_retransmissions_exhausted a = None.
Proof.
  intros T Hs. destruct (ea_t_retransmissions_exhausted a) eqn:E; [|done].
  assert (submitted a = true) by (apply (to_done _ _ T), (to_exhausted _ _ T); rewrite E; by eexists). congruence.
Qed.

(** Folding and submitting, as one change of the transfer. *)
Lemma fold_submit_becomes main_carrier cs queue scheduled a now heap :
  beside cs heap a -> acks_inv scheduled -> ea_t_retransmissions_exhausted a = None ->
  exists queue1 scheduled' a1 msgs a2 heap',
    fold_waiting_ack_into_mac_ready_bl_data main_carrier queue scheduled a = Some (queue1, scheduled', a1) /\
    submit_for_acknowledged_transmission queue1 a1 now heap = (queue ++ msgs, a2, heap') /\
    ea_t_first a1 = ea_t_first a /\ becomes cs heap a heap' a2 /\ answers msgs = [] /\ acks_inv scheduled' /\ submitted a2 = true.
Proof.
  intros Hb Hk Hx. destruct (fold_becomes main_carrier cs queue scheduled a heap Hb Hk) as (m1 & sch & b & E1 & B1 & A1 & K1).
  destruct (submit_becomes cs (queue ++ m1) _ now heap (becomes_beside _ _ _ _ _ Hb B1) Hx) as (prim & a2 & heap' & E2 & B2 & _).
  do 3 eexists. exists (m1 ++ [TmaUnitdataReqMsg prim]), a2, heap'. split; [exact E1|].
  split; [by rewrite app_assoc|]. split; [done|]. split; [by eapply becomes_trans|].
  split; [by rewrite answers_app, A1|]. split; [done|].
  unfold submit_for_acknowledged_transmission in E2. destruct (new_unacked heap). by simplify_eq.
Qed.

(** The three outcomes of a report on the submitted transfer [a] at index [i]. *)
Section report_on.
Context (main_carrier : Z) (self : Llc) (queue : list LlcMsg) (heap : store) (i : nat) (a : ExpectedInAck) (rest : list ExpectedInAck).
Hypothesis I : inv self heap.
Hypothesis Hs : submitted a = true.
Hypothesis Hp : outbound_messages self ≡ₚ a :: rest.

Let Hb : beside (svc_cell <$> rest) heap a := inv_beside _ _ _ _ I Hp.
Let Hl : link_free a rest := inv_link_free _ _ _ _ I Hp Hs.

Lemma report_sub : is_Some (ea_t_submitted_to_umac a).
Proof. by apply submitted_true. Qed.

Lemma report_fails a1 :
  becomes (svc_cell <$> rest) heap a (mark_ack_current_mac_discarded a heap) a1 ->
  exists self' msgs heap', (heap' ← mark_ack_service_failed a1 (mark_ack_current_mac_discarded a heap);
    Some (with_outbound self rest, push_tla_report queue (ea_req_handle a1) TLA_REPORT_FAILED_TRANSFER (ea_endpoint_id a1), heap'))
    = Some (self', queue ++ msgs, heap') /\ effect self heap [] msgs self' heap'.
Proof.
  intros B1. destruct (failed_leaves _ _ _ _ _ _ queue [] I Hp B1 eq_refl) as (heap2 & E2 & msgs & Em & F).
  rewrite E2. step. rewrite app_nil_r in Em. exists (with_outbound self rest), msgs, heap2. by rewrite Em.
Qed.

Lemma report_completes :
  (forall y, <[i := y]> (outbound_messages self) ≡ₚ y :: rest) ->
  exists self' msgs heap',
    (let heap := mark_ack_current_mac_transmitted a heap in
     let a := if bool_decide (ea_t_umac_done a = None) then ea_with_done a (Some (dltime self)) else a in
     let '(a, queue, heap) := report_first_complete queue a heap in
     Some (with_outbound self (<[i := a]> (outbound_messages self)), queue, heap)) = Some (self', queue ++ msgs, heap') /\
    effect self heap [] msgs self' heap'.
Proof.
  intros Hins. pose proof (completed_becomes _ a (default (dltime self) (ea_t_umac_done a)) heap Hb report_sub) as B1.
  assert (Ea : ea_with_done a (Some (default (dltime self) (ea_t_umac_done a)))
    = if bool_decide (ea_t_umac_done a = None) then ea_with_done a (Some (dltime self)) else a).
  { destruct (ea_t_umac_done a) eqn:Ed; [|by rewrite bool_decide_true].
    rewrite bool_decide_false by done. cbn. rewrite <- Ed. apply ea_progress_eta. }
  rewrite Ea in B1. cbv zeta.
  destruct (report_first_complete_becomes _ queue _ _ (becomes_beside _ _ _ _ _ Hb B1)) as (m2 & a2 & heap2 & E2 & A2 & B2 & S2 & _).
  { pose proof report_sub. by destruct (bool_decide _). }
  rewrite E2. exists (with_outbound self (<[i := a2]> (outbound_messages self))), m2, heap2. split; [done|].
  destruct (inv_update self heap a rest heap2 a2 (<[i := a2]> (outbound_messages self)) I Hp) as [I' P'];
    [by eapply becomes_trans|done|apply Hins|by apply effect_quiet].
Qed.

Let heap1 : store := mark_ack_current_mac_discarded a heap.
Let a1 : ExpectedInAck := ea_with_exhausted (ea_with_done a (Some (dltime self))) None.

Lemma report_discards : becomes (svc_cell <$> rest) heap a (mark_ack_current_mac_discarded a heap) a1.
Proof.
  pose proof (discarded_becomes _ _ _ Hb) as Bd. eapply becomes_trans; [exact Bd|].
  pose proof (becomes_beside _ _ _ _ _ Hb Bd) as Hb1.
  refine (becomes_progress _ _ a _ _ (Some (dltime self)) None _ _ _ Hb1 _ _ _ _ _ _);
    [apply Hb1|intros _; apply report_sub|by intros [? [=]]|apply Hb1|apply evolves_refl|apply Hb1].
Qed.

Lemma report_retries :
  (ea_retransmit_count a1 < N252_BL_MAX_TLSDU_RETRANSMITS_ACKED)%Z ->
  (forall y, exists l', insert_at i y rest = Some l' /\ l' ≡ₚ y :: rest) ->
  exists self' msgs heap',
    ('(queue, scheduled, a) ← fold_waiting_ack_into_mac_ready_bl_data main_carrier queue (scheduled_out_acks self) (ea_retried a1);
     let '(queue, a, heap) := submit_for_acknowledged_transmission queue a
        (forward_to_timeslot (dltime self) (t (ea_t_first (ea_retried a1)))) heap1 in
     outbound ← insert_at i a rest;
     Some (with_outbound (with_scheduled self scheduled) outbound, queue, heap)) = Some (self', queue ++ msgs, heap') /\
    effect self heap [] msgs self' heap'.
Proof.
  intros Hc Hat. unfold heap1. pose proof report_discards as B1. pose proof (becomes_beside _ _ _ _ _ Hb B1) as Hb1.
  assert (B2 : becomes (svc_cell <$> rest) heap a (mark_ack_current_mac_discarded a heap) (ea_retried a1)).
  { eapply becomes_trans; [exact B1|]. pose proof (to_count _ _ (bs_ok _ _ _ Hb1)) as Hn.
    apply becomes_progress; [done|lia|intros _; apply report_sub|by intros [? [=]]|apply Hb1|apply evolves_refl|apply Hb1]. }
  destruct (fold_submit_becomes main_carrier _ queue (scheduled_out_acks self) (ea_retried a1)
    (forward_to_timeslot (dltime self) (t (ea_t_first (ea_retried a1)))) _
    (becomes_beside _ _ _ _ _ Hb B2) (iv_acks _ _ I) eq_refl) as (q1 & sch & a3 & m3 & a4 & heap4 & E3 & E4 & _ & B4 & A4 & K4 & _).
  rewrite E3. step. rewrite E4. cbn beta iota. destruct (Hat a4) as (out & Eo' & Po). rewrite Eo'. step.
  eexists _, m3, heap4. split; [done|].
  destruct (inv_update self heap a rest heap4 a4 out I Hp) as [I' P'];
    [by eapply becomes_trans|done|done|]. apply effect_quiet; [|done|exact P'].
  change (inv (with_scheduled (with_outbound self out) sch) heap4). by apply inv_scheduled.
Qed.
End report_on.

Lemma rx_tma_report_ind_effect main_carrier self queue h report heap :
  inv self heap ->
  exists self' msgs heap', rx_tma_report_ind main_carrier self queue h report heap = Some (self', queue ++ msgs, heap') /\
    effect self heap [] msgs self' heap'.
Proof.
  intros I. unfold rx_tma_report_ind.
  assert (Hq : exists self' msgs heap', Some (self, queue, heap) = Some (self', queue ++ msgs, heap') /\
    effect self heap [] msgs self' heap').
  { exists self, [], heap. rewrite app_nil_r. split; [done|by apply effect_refl]. }
  destruct (single_tma_report_owner_by_req_handle self h) as [o|] eqn:Eo; [|exact Hq].
  destruct o as [[i|i]|]; [|by apply handle_udata_effect, (report_owner_spec _ _ _ Eo)|].
  2:{ unfold handle_udata_tma_report, single_queued_udata_index_by_req_handle.
      set (found := indices _ _). destruct (1 <? length found); [exact Hq|].
      destruct (last found) as [i|] eqn:El; [|exact Hq]. apply handle_udata_effect; [done|].
      apply last_elem, indices_spec in El as (u & Hu & _). by eexists. }
  destruct (report_owner_spec _ _ _ Eo) as (a & Ha & Hs & _). destruct (remove_at_perm _ _ _ Ha) as (rest & Er & Hp & Hins & Hat).
  rewrite Er. step. pose proof (discarded_becomes _ _ _ (inv_beside _ _ _ _ I Hp)) as Bd.
  destruct report; [exact Hq|by apply (report_completes self queue heap i a rest)..|by apply report_fails| |by apply report_fails].
  destruct (Z.ltb_spec (ea_retransmit_count (ea_with_exhausted (ea_with_done a (Some (dltime self))) None))
    N252_BL_MAX_TLSDU_RETRANSMITS_ACKED) as [Hc|Hc]; [by apply (report_retries main_carrier self queue heap i a rest)|].
  apply (report_fails self queue heap a rest); [done|done|]. by apply report_discards.
Qed.

(** ** The retransmission pass *)

Lemma retransmit_one_becomes main_carrier cs now queue scheduled a heap :
  beside cs heap a -> acks_inv scheduled ->
  exists act msgs scheduled' a' heap' gone,
    retransmit_one main_carrier now queue scheduled a heap = Some (act, queue ++ msgs, scheduled', a', heap', gone) /\
    answers msgs = [] /\ becomes cs heap a heap' a' /\ acks_inv scheduled' /\ submitted a' = submitted a.
Proof.
  intros Hb Hk. unfold retransmit_one.
  destruct (reconcile_becomes cs queue a now heap Hb) as (act & m1 & a1 & heap1 & E1 & A1 & B1 & S1 & _).
  rewrite E1. cbn beta iota. pose proof (becomes_beside _ _ _ _ _ Hb B1) as Hb1. pose proof (bs_ok _ _ _ Hb1) as T1.
  assert (Hq : forall gone : bool, exists act' msgs scheduled' a' heap' gone',
    Some (act, queue ++ m1, scheduled, a1, heap1, gone) = Some (act', queue ++ msgs, scheduled', a', heap', gone') /\
    answers msgs = [] /\ becomes cs heap a heap' a' /\ acks_inv scheduled' /\ submitted a' = submitted a).
  { intros gone. by exists act, m1, scheduled, a1, heap1, gone. }
  destruct (bool_decide (is_Some (ea_t_retransmissions_exhausted a1))); [by apply Hq|].
  destruct (ea_t_umac_done a1) as [td|] eqn:Ed; [|by apply Hq].
  assert (S1' : submitted a1 = true) by (apply (to_done _ _ T1); rewrite Ed; by eexists).
  destruct (_ <=? _)%Z; [|by apply Hq]. destruct (Z.ltb_spec (ea_retransmit_count a1) N252_BL_MAX_TLSDU_RETRANSMITS_ACKED) as [Hc|Hc].
  - set (a2 := ea_with_exhausted (ea_retried a1) None).
    assert (B2 : becomes cs heap1 a1 heap1 a2).
    { pose proof (to_count _ _ T1) as Hn. apply submitted_true in S1'.
      refine (becomes_progress cs heap1 a1 heap1 _ _ None _ (ea_retransmit_count a1 + 1) _ Hb1 _ _ _ _ _ _);
        [lia|done|by intros [? [=]]|apply Hb1|apply evolves_refl|apply T1]. }
    destruct (fold_submit_becomes main_carrier cs (queue ++ m1) scheduled a2 (forward_to_timeslot now (t (ea_t_first a2))) heap1
      (becomes_beside _ _ _ _ _ Hb1 B2) Hk eq_refl) as (q3 & sch & a3 & m3 & a4 & heap4 & E3 & E4 & Ef & B4 & A4 & K4 & S4).
    rewrite E3. step. rewrite Ef, E4. cbn beta iota.
    exists true, (m1 ++ m3), sch, a4, heap4, false. rewrite app_assoc. split; [done|].
    rewrite answers_app, A1, A4. split_and!; [done| |done|congruence].
    eapply becomes_trans; [exact B1|]. by eapply becomes_trans.
  - destruct (channel_allocation_late_ack_grace a1); [|by apply Hq].
    exists act, m1, scheduled, (ea_with_exhausted a1 (Some now)), heap1, false. split_and!; try done.
    eapply becomes_trans; [exact B1|]. apply submitted_true in S1'.
    refine (becomes_progress cs heap1 a1 heap1 _ _ (Some now) _ _ _ Hb1 _ _ _ _ _ _);
      [apply T1|done|rewrite Ed; by eexists|apply Hb1|apply evolves_refl|apply T1].
Qed.

(** Two lists of the same transfers. *)
Definition view (a : ExpectedInAck) : (Z * option (list bool)) * nat * bool * BasicLinkKey :=
  (tid a, svc_cell a, submitted a, expected_ack_key a).
Definition same_transfers (l l' : list ExpectedInAck) : Prop := view <$> l' = view <$> l.

Lemma same_fmap {B} (g : _ -> B) l l' : same_transfers l l' -> g ∘ view <$> l' = g ∘ view <$> l.
Proof. intros H. rewrite !list_fmap_compose. by rewrite H. Qed.

Lemma same_length l l' : same_transfers l l' -> length l' = length l.
Proof. intros H. apply (f_equal length) in H. by rewrite !length_fmap in H. Qed.

Lemma same_insert l i a a' : l !! i = Some a -> view a' = view a -> same_transfers l (<[i := a']> l).
Proof.
  intros Ha Hv. unfold same_transfers. rewrite list_fmap_insert, Hv. apply list_insert_id. by rewrite list_lookup_fmap, Ha.
Qed.

Lemma same_lookup l l' i a : same_transfers l l' -> l !! i = Some a -> exists a', l' !! i = Some a' /\ view a' = view a.
Proof.
  intros H Ha. assert ((view <$> l') !! i = Some (view a)) as E by (by rewrite H, list_lookup_fmap, Ha).
  rewrite list_lookup_fmap in E. destruct (l' !! i) as [a'|]; [|done]. change (Some (view a') = Some (view a)) in E. exists a'. split; [done|congruence].
Qed.

Lemma retransmit_pass_inv main_carrier now l : forall pre queue scheduled heap,
  out_inv heap (pre ++ l) -> acks_inv scheduled ->
  exists act msgs scheduled' l' heap' removals,
    retransmit_pass main_carrier now queue scheduled l heap = Some (act, queue ++ msgs, scheduled', l', heap', removals) /\
    answers msgs = [] /\ out_inv heap' (pre ++ l') /\ acks_inv scheduled' /\ same_transfers l l' /\
    (forall c, is_Some (heap !! c) -> is_Some (heap' !! c)).
Proof.
  induction l as [|a l IH]; intros pre queue scheduled heap Ho Hk; cbn [retransmit_pass].
  { exists false, [], scheduled, [], heap, []. by rewrite !app_nil_r in *. }
  assert (Hp : pre ++ a :: l ≡ₚ a :: (pre ++ l)) by (by rewrite <- Permutation_middle).
  pose proof (out_inv_perm _ _ _ Hp Ho) as Ho1.
  destruct (retransmit_one_becomes main_carrier _ now queue scheduled a heap (out_inv_beside _ _ _ Ho1) Hk)
    as (act & m1 & sch1 & a1 & heap1 & gone & E1 & A1 & B1 & K1 & S1). rewrite E1. step.
  destruct (IH (pre ++ [a1]) (queue ++ m1) sch1 heap1) as (act2 & m2 & sch2 & l2 & heap2 & rem & E2 & A2 & O2 & K2 & T2 & L2).
  { rewrite <- app_assoc. cbn [app]. eapply out_inv_perm; [apply Permutation_middle|].
    eapply out_inv_update; [exact Ho1|exact B1|]. rewrite S1. by apply (out_inv_link_free heap). }
  { done. }
  rewrite E2. step. do 6 eexists. split; [by rewrite <- app_assoc|]. rewrite answers_app, A1, A2.
  rewrite <- app_assoc in O2. split_and!; [done|done|done| |intros c Hc; by apply L2, (bc_heap _ _ _ _ _ B1)].
  unfold same_transfers. cbn. rewrite T2. unfold view at 1. by rewrite (bc_tid _ _ _ _ _ B1), (bc_cell _ _ _ _ _ B1), (bc_key _ _ _ _ _ B1), S1.
Qed.

(** The same transfers in an entity, with the receipts they have. *)
Lemma inv_same self heap heap' l :
  inv self heap -> out_inv heap' l -> same_transfers (outbound_messages self) l ->
  (forall c, is_Some (heap !! c) -> is_Some (heap' !! c)) ->
  inv (with_outbound self l) heap' /\ pending (with_outbound self l) = pending self.
Proof.
  intros [] Ho Hs Hd. pose proof (same_fmap (fun v => v.1.1.1) _ _ Hs) as T. pose proof (same_fmap (fun v => v.1.1.2) _ _ Hs) as C.
  change (tid <$> l = tid <$> outbound_messages self) in T. change (svc_cell <$> l = svc_cell <$> outbound_messages self) in C.
  split; [|by unfold pending; cbn; rewrite T]. constructor; try done; cbn.
  - eapply udata_inv_evolves; [done|done|]. by rewrite C.
  - by rewrite (same_length _ _ Hs).
Qed.

Lemma remove_exhausted_effect removals : forall self queue heap,
  inv self heap ->
  exists msgs l heap', remove_exhausted queue (outbound_messages self) heap removals = Some (queue ++ msgs, l, heap') /\
    effect self heap [] msgs (with_outbound self l) heap'.
Proof.
  induction removals as [|key removals IH]; intros self queue heap I; cbn [remove_exhausted].
  { exists [], (outbound_messages self), heap. rewrite app_nil_r. split; [done|].
    assert (with_outbound self (outbound_messages self) = self) as -> by by destruct self. by apply effect_refl. }
  destruct (take_expected_ack_for_key key (outbound_messages self)) as [[a rest]|] eqn:Et; [|by apply IH].
  apply take_first_perm in Et as [Hp _]. pose proof (inv_beside _ _ _ _ I Hp) as Hb.
  destruct (failed_leaves _ _ _ _ _ _ queue [] I Hp (becomes_refl _ _ _ Hb) eq_refl) as (heap1 & E1 & m1 & Em & F1).
  rewrite E1. step. rewrite app_nil_r in Em. rewrite Em.
  destruct (IH (with_outbound self rest) (queue ++ m1) heap1 (ef_inv _ _ _ _ _ _ F1)) as (m2 & l & heap2 & E2 & F2).
  exists (m1 ++ m2), l, heap2. rewrite app_assoc. split; [exact E2|]. exact (effect_trans _ _ [] _ _ _ [] _ _ _ F1 F2).
Qed.

Lemma submit_retransmissions_effect main_carrier self queue heap :
  inv self heap ->
  exists act self' msgs heap', submit_retransmissions_to_umac main_carrier self queue heap = Some (act, self', queue ++ msgs, heap') /\
    effect self heap [] msgs self' heap'.
Proof.
  intros I. unfold submit_retransmissions_to_umac.
  destruct (retransmit_pass_inv main_carrier (dltime self) (outbound_messages self) [] queue (scheduled_out_acks self) heap
    (iv_out _ _ I) (iv_acks _ _ I)) as (act & m1 & sch & l1 & heap1 & rem & E1 & A1 & O1 & K1 & Sm & L1).
  rewrite E1. step. destruct (inv_same self heap heap1 l1 I O1 Sm L1) as [I1 P1].
  destruct (remove_exhausted_effect rem (with_outbound self l1) (queue ++ m1) heap1 I1) as (m2 & l2 & heap2 & E2 & F2).
  cbn in E2. rewrite E2. step. exists act, (with_outbound (with_scheduled self sch) l2), (m1 ++ m2), heap2.
  rewrite app_assoc. split; [done|].
  assert (F1 : effect self heap [] m1 (with_outbound self l1) heap1) by (apply effect_quiet; [done|done|by rewrite P1]).
  destruct (effect_trans _ _ [] _ _ _ [] _ _ _ F1 F2) as [I2 A2]. split; [|exact A2].
  exact (inv_scheduled (with_outbound self l2) heap2 sch I2 K1).
Qed.

(** ** Numbering and submitting *)

Lemma sort_by_prio_perm prio l : sort_by_prio prio l ≡ₚ l.
Proof.
  unfold sort_by_prio. assert (Hi : forall i l, insert_by_prio prio i l ≡ₚ i :: l).
  { intros i l0. induction l0 as [|j l0 IH]; cbn; [done|]. destruct (_ <? _)%Z; [done|]. rewrite IH. apply Permutation_swap. }
  assert (H : forall acc, foldl (fun acc i => insert_by_prio prio i acc) acc l ≡ₚ acc ++ l); [|by apply (H [])].
  induction l as [|i l IH]; intros acc; cbn; [by rewrite app_nil_r|]. rewrite IH, Hi. by rewrite <- Permutation_middle.
Qed.

(** Sequence numbers move between transfers; their TL-SDUs stay. *)
Lemma renumber_inv heap ixs : forall l,
  out_inv heap l -> Forall (fun ix : nat * Z => ix.1 < length l /\ seq_bit ix.2) ixs ->
  exists l', foldM (fun outbound (ix : nat * Z) =>
      let '(idx, ns) := ix in
      a ← outbound !! idx;
      a ← rewrite_retransmission_ns a ns;
      Some (<[idx := a]> outbound)) ixs l = Some l' /\ out_inv heap l' /\ same_transfers l l'.
Proof.
  induction ixs as [|[i ns] ixs IH]; intros l Ho Hx; cbn [foldM]; [by exists l|].
  apply Forall_cons in Hx as [[Hi Hn] Hx]. cbn in Hi, Hn. destruct (lookup_lt_is_Some_2 l i Hi) as [a Ha]. rewrite Ha. step.
  destruct (remove_at_perm _ _ _ Ha) as (rest & _ & Hp & Hins & _). pose proof (out_inv_perm _ _ _ Hp Ho) as Ho1.
  pose proof (out_inv_beside _ _ _ Ho1) as Hb. destruct (to_stores _ _ (bs_ok _ _ _ Hb)) as (f & sdu & Hs).
  destruct (rewrite_ns a f sdu ns Hs Hn) as (b & E & Hs'). rewrite E. step.
  pose proof (stores_becomes _ _ _ _ _ _ _ Hb Hs Hs') as B.
  pose proof (same_insert l i a (ea_with_pdu a ns b) Ha) as Hv.
  destruct (IH (<[i := ea_with_pdu a ns b]> l)) as (l' & E' & Ho' & Hs2).
  - eapply out_inv_perm; [symmetry; apply Hins|]. eapply out_inv_update; [exact Ho1|exact B|].
    change (submitted (ea_with_pdu a ns b)) with (submitted a). by apply (out_inv_link_free heap).
  - eapply Forall_impl; [exact Hx|]. intros ix H. by rewrite length_insert.
  - exists l'. split; [done|]. split; [done|]. unfold same_transfers in *. rewrite Hs2. apply Hv.
    unfold view. by rewrite (bc_tid _ _ _ _ _ B).
Qed.

Lemma normalize_inv heap l key :
  out_inv heap l -> exists l', normalize_unsubmitted_ns_for_key l key = Some l' /\ out_inv heap l' /\ same_transfers l l'.
Proof.
  intros Ho. unfold normalize_unsubmitted_ns_for_key. destruct (_ <? 2); [by exists l|].
  set (idxs := unsubmitted_ack_indices_for_key l key).
  assert (Hi : Forall (fun i => exists a, l !! i = Some a) idxs).
  { rewrite Forall_forall. intros i (a & Ha & _)%indices_spec. by exists a. }
  destruct (mapM_is_Some_2 (fun idx => ea_ns <$> l !! idx) idxs) as [ns En].
  { eapply Forall_impl; [exact Hi|]. intros i [a Ha]. cbn. rewrite Ha. by eexists. }
  rewrite En. step. apply renumber_inv; [done|].
  assert (Hn : Forall seq_bit ns).
  { apply mapM_Some_1 in En. rewrite Forall_forall. intros n (j & Hj)%list_elem_of_lookup_1.
    destruct (Forall2_lookup_r _ _ _ _ _ En Hj) as (i & _ & E). destruct (l !! i) as [a|] eqn:Ea; [|done]. injection E as <-.
    destruct (to_stores heap a) as (? & ? & H & _); [|done].
    pose proof (oi_ok _ _ Ho) as Hok. rewrite Forall_lookup in Hok. by apply (Hok i). }
  rewrite Forall_forall. intros [i n] Hin. cbn. apply elem_of_zip_l in Hin as Hl. apply elem_of_zip_r in Hin as Hr.
  rewrite sort_by_prio_perm in Hl. rewrite Forall_forall in Hi. rewrite Forall_forall in Hn. split; [|by apply Hn].
  destruct (Hi i Hl) as [a Ha]. by apply lookup_lt_Some in Ha.
Qed.

(** A link with a transfer at the MAC. *)
Definition occupied (l : list ExpectedInAck) (key : BasicLinkKey) : Prop :=
  exists b, b ∈ l /\ submitted b = true /\ expected_ack_key b = key.
(** No link idles while it has something to send. *)
Definition no_idle_link (l : list ExpectedInAck) : Prop := forall a, a ∈ l -> occupied l (expected_ack_key a).

Lemma occupied_same l l' key : same_transfers l l' -> occupied l key -> occupied l' key.
Proof.
  intros H (b & (i & Hb)%list_elem_of_lookup_1 & Hs & Hk). destruct (same_lookup _ _ _ _ H Hb) as (b' & Hb' & Hv).
  exists b'. split; [by eapply list_elem_of_lookup_2|]. unfold view in Hv. split; congruence.
Qed.

Lemma occupied_perm l l' key : l ≡ₚ l' -> occupied l key <-> occupied l' key.
Proof. intros H. unfold occupied. by setoid_rewrite H. Qed.

Lemma blocked_links_occupied l key : key ∈ blocked_links l <-> occupied l key.
Proof.
  unfold blocked_links. rewrite elem_of_list_to_set, list_elem_of_fmap. unfold occupied. split.
  - intros (b & -> & [Hb Hs]%list_elem_of_In%filter_In). exists b. split_and!; [by apply list_elem_of_In|done|done].
  - intros (b & Hb & Hs & <-). exists b. split; [done|]. apply list_elem_of_In, filter_In. split; [by apply list_elem_of_In|done].
Qed.

Definition unsubmitted_count (l : list ExpectedInAck) : nat := length (List.filter (fun a => negb (submitted a)) l).

Lemma unsubmitted_count_perm l l' : l ≡ₚ l' -> unsubmitted_count l = unsubmitted_count l'.
Proof. intros H. unfold unsubmitted_count. by rewrite (filter_perm _ _ _ H). Qed.

Lemma unsubmitted_count_same l l' : same_transfers l l' -> unsubmitted_count l' = unsubmitted_count l.
Proof.
  intros H. pose proof (same_fmap (fun v => v.1.2) _ _ H) as E. change (submitted <$> l' = submitted <$> l) in E. clear H.
  unfold unsubmitted_count. revert l E; induction l' as [|a' l' IH]; intros [|a l] E; cbn in *; try done.
  injection E as E1 E2. rewrite E1. destruct (submitted a); cbn; [by apply IH|by rewrite (IH l E2)].
Qed.

(** Submitting the transfer at index [i], whose link is free. *)
Lemma submit_free_step main_carrier self queue heap i a :
  inv self heap -> outbound_messages self !! i = Some a -> submitted a = false ->
  ~ occupied (outbound_messages self) (expected_ack_key a) ->
  exists l1 a1 q3 sch a3 m3 a4 heap4,
    normalize_unsubmitted_ns_for_key (outbound_messages self) (expected_ack_key a) = Some l1 /\ l1 !! i = Some a1 /\
    fold_waiting_ack_into_mac_ready_bl_data main_carrier queue (scheduled_out_acks self) a1 = Some (q3, sch, a3) /\
    submit_for_acknowledged_transmission q3 a3 (forward_to_timeslot (dltime self) (t (ea_t_first a3))) heap = (queue ++ m3, a4, heap4) /\
    effect self heap [] m3 (with_outbound (with_scheduled self sch) (<[i := a4]> l1)) heap4 /\
    (forall k, occupied (<[i := a4]> l1) k <-> k = expected_ack_key a \/ occupied (outbound_messages self) k) /\
    unsubmitted_count (outbound_messages self) = S (unsubmitted_count (<[i := a4]> l1)).
Proof.
  intros I Ha Hu Hk.
  destruct (normalize_inv heap (outbound_messages self) (expected_ack_key a) (iv_out _ _ I)) as (l1 & E1 & O1 & S1).
  destruct (same_lookup _ _ _ _ S1 Ha) as (a1 & Ha1 & Hv).
  destruct (inv_same self heap heap l1 I O1 S1 (fun c H => H)) as [I1 P1].
  destruct (remove_at_perm _ _ _ Ha1) as (rest & _ & Hp & Hins & _).
  assert (Ek : expected_ack_key a1 = expected_ack_key a) by (unfold view in Hv; congruence).
  assert (Hu1 : submitted a1 = false) by (unfold view in Hv; congruence).
  assert (Hfree : link_free a1 rest).
  { intros b Hin Hsb Hkb. apply Hk. apply (occupied_same l1); [by symmetry|]. exists b. split_and!; [|done|congruence].
    rewrite Hp. by right. }
  destruct (fold_submit_becomes main_carrier _ queue (scheduled_out_acks self) a1
    (forward_to_timeslot (dltime self) (t (ea_t_first a1))) heap (inv_beside _ _ _ _ I1 Hp) (iv_acks _ _ I) (unsubmitted_fresh _ _ (bs_ok _ _ _ (inv_beside _ _ _ _ I1 Hp)) Hu1))
    as (q3 & sch & a3 & m3 & a4 & heap4 & E3 & E4 & Ef & B4 & A4 & K4 & S4).
  assert (Hp4 : <[i := a4]> l1 ≡ₚ a4 :: rest) by apply Hins.
  destruct (inv_update (with_outbound self l1) heap a1 rest heap4 a4 _ I1 Hp B4 (fun _ => Hfree) Hp4) as [I4 P4].
  exists l1, a1, q3, sch, a3, m3, a4, heap4. rewrite Ef. split_and!; try done.
  - apply effect_quiet; [exact (inv_scheduled _ _ sch I4 K4)|done|]. rewrite <- P1. exact P4.
  - intros k. rewrite (occupied_perm _ _ k Hp4). split.
    + intros (b & [->|Hb']%elem_of_cons & Hsb & Hkb); [left; by rewrite <- Hkb, (bc_key _ _ _ _ _ B4)|right].
      apply (occupied_same l1); [by symmetry|]. exists b. split_and!; [rewrite Hp; by right|done|done].
    + intros [->|Ho]; [exists a4; split_and!; [by left|done|by rewrite (bc_key _ _ _ _ _ B4)]|].
      apply (occupied_same _ _ _ S1) in Ho. rewrite (occupied_perm _ _ k Hp) in Ho. destruct Ho as (b & Hb' & Hsb & Hkb).
      apply elem_of_cons in Hb' as [->|Hb']; [congruence|]. exists b. split_and!; [by right|done|done].
  - rewrite <- (unsubmitted_count_same _ _ S1), (unsubmitted_count_perm _ _ Hp), (unsubmitted_count_perm _ _ Hp4).
    unfold unsubmitted_count. cbn. by rewrite S4, Hu1.
Qed.

Lemma submit_free_loop_effect main_carrier fuel : forall act self blocked queue heap,
  inv self heap -> (forall k, k ∈ blocked <-> occupied (outbound_messages self) k) ->
  unsubmitted_count (outbound_messages self) < fuel ->
  exists act' self' msgs heap', submit_free_loop main_carrier fuel act self blocked queue heap = Some (act', self', queue ++ msgs, heap') /\
    effect self heap [] msgs self' heap' /\ no_idle_link (outbound_messages self').
Proof.
  induction fuel as [|fuel IH]; intros act self blocked queue heap I Hb Hf; [lia|]. cbn [submit_free_loop].
  set (skip := fun a => bool_decide (is_Some (ea_t_submitted_to_umac a)) || bool_decide (expected_ack_key a ∈ blocked)).
  pose proof (select_by_spec skip ea_pdu_prio (fun selected prio => prio <=? selected)%Z (outbound_messages self)) as Hs.
  unfold highest_priority_unsubmitted_ack_index. fold skip. destruct (select_by skip _ _ _) as [i|].
  2:{ exists act, self, [], heap. rewrite app_nil_r. split; [done|]. split; [by apply effect_refl|].
      intros a Ha. rewrite Forall_forall in Hs. specialize (Hs a Ha). unfold skip in Hs. apply orb_true_iff in Hs as [Hs|Hs].
      - by exists a.
      - apply bool_decide_eq_true in Hs. by apply Hb. }
  destruct Hs as (a & Ha & Hsk). apply orb_false_iff in Hsk as [Hu Hk]. change (submitted a = false) in Hu.
  apply bool_decide_eq_false in Hk. rewrite Hb in Hk. rewrite Ha. cbn [fmap option_fmap option_map]. step.
  destruct (submit_free_step main_carrier self queue heap i a I Ha Hu Hk)
    as (l1 & a1 & q3 & sch & a3 & m3 & a4 & heap4 & E1 & Ha1 & E3 & E4 & F4 & Hocc & Hcnt).
  rewrite E1. step. rewrite Ha1. step. rewrite E3. step. rewrite E4. cbn beta iota.
  destruct (IH true (with_outbound (with_scheduled self sch) (<[i := a4]> l1)) ({[expected_ack_key a]} ∪ blocked) (queue ++ m3) heap4
    (ef_inv _ _ _ _ _ _ F4)) as (act' & self' & m5 & heap5 & E5 & F5 & N5).
  - intros k. rewrite elem_of_union, elem_of_singleton, Hb. symmetry. apply Hocc.
  - change (unsubmitted_count (<[i := a4]> l1) < fuel). lia.
  - exists act', self', (m3 ++ m5), heap5. rewrite app_assoc. split; [exact E5|]. split; [|done].
    exact (effect_trans _ _ [] _ _ _ [] _ _ _ F4 F5).
Qed.

(** ** Emergency cancellation *)

Lemma cancel_ack_becomes cs queue a heap :
  beside cs heap a -> ea_t_umac_done a = None ->
  exists msgs a' heap', cancel_ack queue a heap = (queue ++ msgs, a', heap') /\ answers msgs = [] /\
    becomes cs heap a heap' a' /\ submitted a' = false.
Proof.
  intros Hb Hd. pose proof (discarded_evolves _ _ _ Hb) as He.
  eexists [_], _, _. split; [done|]. split; [done|]. split; [|done].
  apply becomes_progress; [done|apply Hb|by intros [[? [=]]|[? [=]]]| |apply apart_None| |].
  - intros Hx. apply (to_exhausted _ _ (bs_ok _ _ _ Hb)) in Hx. rewrite Hd in Hx. by destruct Hx as [? [=]].
  - eapply evolves_mono; [|exact He]. intros c Hc. by right.
  - rewrite (proj1 He) by (by left). apply Hb.
Qed.

Lemma cancel_acks_effect idxs : forall self queue heap,
  inv self heap -> NoDup idxs ->
  Forall (fun i => exists a, outbound_messages self !! i = Some a /\ ea_t_umac_done a = None) idxs ->
  exists msgs l heap', for_indices cancel_ack idxs queue (outbound_messages self) heap = Some (queue ++ msgs, l, heap') /\
    effect self heap [] msgs (with_outbound self l) heap'.
Proof.
  unfold for_indices. induction idxs as [|i idxs IH]; intros self queue heap I Hn Hi; cbn [foldM].
  { exists [], (outbound_messages self), heap. rewrite app_nil_r. split; [done|].
    assert (with_outbound self (outbound_messages self) = self) as -> by by destruct self. by apply effect_refl. }
  apply NoDup_cons in Hn as [Hn1 Hn]. apply Forall_cons in Hi as [(a & Ha & Hd) Hi]. rewrite Ha. step.
  destruct (remove_at_perm _ _ _ Ha) as (rest & _ & Hp & Hins & _).
  destruct (cancel_ack_becomes _ queue a heap (inv_beside _ _ _ _ I Hp) Hd) as (m1 & a1 & heap1 & E1 & A1 & B1 & S1).
  rewrite E1. cbn beta iota. step.
  destruct (inv_update self heap a rest heap1 a1 (<[i := a1]> (outbound_messages self)) I Hp B1) as [I1 P1];
    [by rewrite S1|apply Hins|].
  destruct (IH (with_outbound self (<[i := a1]> (outbound_messages self))) (queue ++ m1) heap1 I1 Hn) as (m2 & l & heap2 & E2 & F2).
  { rewrite Forall_forall. rewrite Forall_forall in Hi. intros j Hj. destruct (Hi j Hj) as (b & Hb & Hdb). exists b.
    split; [|done]. cbn. rewrite list_lookup_insert_ne; [done|]. by intros ->. }
  exists (m1 ++ m2), l, heap2. rewrite app_assoc. split; [exact E2|].
  refine (effect_trans _ _ [] _ _ _ [] _ _ _ _ F2). by apply effect_quiet.
Qed.

Lemma cancel_udatas_effect idxs : forall self queue heap,
  inv self heap -> Forall (fun i => is_Some (outbound_udata_messages self !! i)) idxs ->
  exists msgs l heap', for_indices cancel_udata idxs queue (outbound_udata_messages self) heap = Some (queue ++ msgs, l, heap') /\
    effect self heap [] msgs (with_udata self l) heap'.
Proof.
  unfold for_indices. induction idxs as [|i idxs IH]; intros self queue heap I Hi; cbn [foldM].
  { exists [], (outbound_udata_messages self), heap. rewrite app_nil_r. split; [done|].
    assert (with_udata self (outbound_udata_messages self) = self) as -> by by destruct self. by apply effect_refl. }
  apply Forall_cons in Hi as [[u Hu] Hi]. rewrite Hu. step. pose proof (udata_ok_lookup _ _ _ _ I Hu) as Ho.
  destruct (remove_at_perm _ _ _ Hu) as (rest & _ & Hp & Hins & _).
  pose proof (udata_mac_mark self heap u Discarded _ I Ho eq_refl) as He. unfold cancel_udata. cbn [mark_udata_current_mac_discarded].
  cbn beta iota. step. set (u1 := qu_with_mac _ _ _ _ _ _). set (heap1 := if_reporter _ _ _) in *.
  destruct (inv_udata_update self heap u rest heap1 u1 (<[i := u1]> (outbound_udata_messages self)) I Hp He) as [I1 P1];
    [|done|apply Hins|].
  { split; [done|]. eapply apart_evolves; [apply Ho|apply He|by intros c]. }
  destruct (IH (with_udata self (<[i := u1]> (outbound_udata_messages self))) (push_tma_cancel queue (qu_req_handle u)) heap1 I1)
    as (m2 & l & heap2 & E2 & F2).
  { eapply Forall_impl; [exact Hi|]. intros j Hj. apply lookup_lt_is_Some. cbn. rewrite length_insert. by apply lookup_lt_is_Some. }
  exists (TmaCancelReqMsg (qu_req_handle u) :: m2), l, heap2. split; [etrans; [exact E2|]; unfold push_tma_cancel; by rewrite <- app_assoc|].
  refine (effect_trans _ _ [] [_] _ _ [] _ _ _ _ F2). by apply effect_quiet.
Qed.

Lemma cancel_lower_priority_effect self queue heap :
  inv self heap ->
  exists act self' msgs heap', cancel_lower_priority_pending_mac_transfers_for_emergency self queue heap = Some (act, self', queue ++ msgs, heap') /\
    effect self heap [] msgs self' heap'.
Proof.
  intros I. unfold cancel_lower_priority_pending_mac_transfers_for_emergency.
  destruct (indices_spec (ack_to_cancel (outbound_messages self) heap) (outbound_messages self)) as [N1 H1].
  destruct (indices_spec (udata_to_cancel (outbound_messages self) heap) (outbound_udata_messages self)) as [N2 H2].
  destruct (cancel_acks_effect _ self queue heap I N1) as (m1 & l1 & heap1 & E1 & F1).
  { rewrite Forall_forall. intros i (a & Ha & Hc)%H1. exists a. split; [done|]. unfold ack_to_cancel in Hc.
    destruct (ea_t_umac_done a); [|done]. rewrite (bool_decide_true (is_Some _)), orb_true_r in Hc by (by eexists). done. }
  rewrite E1. step. destruct (cancel_udatas_effect (indices (udata_to_cancel (outbound_messages self) heap) (outbound_udata_messages self))
    (with_outbound self l1) (queue ++ m1) heap1 (ef_inv _ _ _ _ _ _ F1)) as (m2 & l2 & heap2 & E2 & F2).
  { rewrite Forall_forall. intros i (u & Hu & _)%H2. by exists u. }
  cbn in E2. rewrite E2. step. do 2 eexists. exists (m1 ++ m2), heap2. rewrite app_assoc. split; [done|].
  exact (effect_trans _ _ [] _ _ _ [] _ _ _ F1 F2).
Qed.

(** ** The end of the timeslot *)

Lemma submit_free_messages_effect main_carrier self queue heap :
  inv self heap ->
  exists act self' msgs heap', submit_free_messages_to_umac main_carrier self queue heap = Some (act, self', queue ++ msgs, heap') /\
    effect self heap [] msgs self' heap' /\ no_idle_link (outbound_messages self').
Proof.
  intros I. unfold submit_free_messages_to_umac.
  destruct (cancel_lower_priority_effect self queue heap I) as (act & self1 & m1 & heap1 & E1 & F1). rewrite E1. step.
  destruct (submit_free_loop_effect main_carrier (S (length (outbound_messages self1))) act self1
    (blocked_links (outbound_messages self1)) (queue ++ m1) heap1 (ef_inv _ _ _ _ _ _ F1)) as (act2 & self2 & m2 & heap2 & E2 & F2 & N2).
  { apply blocked_links_occupied. }
  { unfold unsubmitted_count. pose proof (List.filter_length_le (fun a => negb (submitted a)) (outbound_messages self1)). lia. }
  exists act2, self2, (m1 ++ m2), heap2. rewrite app_assoc. split; [exact E2|]. split; [|done].
  exact (effect_trans _ _ [] _ _ _ [] _ _ _ F1 F2).
Qed.

(** The standalone acknowledgements [acks], in order. *)
Definition sends_acks (acks : list ScheduledOutAck) (msgs : list LlcMsg) : Prop :=
  Forall2 (fun k m => exists pdu, m = TmaUnitdataReqMsg (bl_ack_req k pdu) /\ holds pdu (ack_hdr false (so_nr k))) acks msgs.

Lemma submit_ack_replies_effect self queue heap :
  inv self heap ->
  exists act msgs, submit_ack_replies_to_umac self queue = Some (act, with_scheduled self [], queue ++ msgs) /\
    effect self heap [] msgs (with_scheduled self []) heap /\ sends_acks (scheduled_out_acks self) msgs.
Proof.
  intros I. unfold submit_ack_replies_to_umac.
  assert (H : forall l queue, Forall (fun k => seq_bit (so_nr k)) l ->
    exists msgs, foldM push_standalone_bl_ack l queue = Some (queue ++ msgs) /\ answers msgs = [] /\ sends_acks l msgs).
  { induction l as [|k l IH]; intros q Hk; cbn [foldM]; [exists []; rewrite app_nil_r; split_and!; [done|done|constructor]|].
    apply Forall_cons in Hk as [Hk Hk']. destruct (push_standalone_bl_ack_sends q k Hk) as (b & E & Hb). rewrite E. step.
    destruct (IH (q ++ [TmaUnitdataReqMsg (bl_ack_req k b)]) Hk') as (m & Em & Am & Sm). exists (TmaUnitdataReqMsg (bl_ack_req k b) :: m).
    split; [by rewrite Em, <- app_assoc|]. split; [done|]. constructor; [by exists b|done]. }
  destruct (H (scheduled_out_acks self) queue (ai_nr _ (iv_acks _ _ I))) as (m & Em & Am & Sm). rewrite Em. step.
  do 2 eexists. split; [done|]. split; [|done]. apply effect_quiet; [|done|done].
  apply inv_scheduled; [done|]. by constructor; [|apply NoDup_nil_2].
Qed.

Definition udata_waiting (l : list QueuedUdata) : nat := length (List.filter (fun u => negb (qu_submitted u)) l).

Lemma submit_udata_loop_effect fuel : forall act self queue heap,
  inv self heap -> udata_waiting (outbound_udata_messages self) < fuel ->
  exists act' l msgs heap', submit_udata_loop fuel act (outbound_udata_messages self) queue heap = Some (act', l, queue ++ msgs, heap') /\
    effect self heap [] msgs (with_udata self l) heap' /\
    Forall (fun u => qu_submitted u = true \/ qu_defer_mac_ready_once u = true) l.
Proof.
  induction fuel as [|fuel IH]; intros act self queue heap I Hf; [lia|]. cbn [submit_udata_loop].
  pose proof (select_by_spec (fun u => qu_submitted u || qu_defer_mac_ready_once u) qu_pdu_prio
    (fun selected prio => prio <=? selected)%Z (outbound_udata_messages self)) as Hs.
  unfold highest_priority_unsubmitted_udata_index. destruct (select_by _ _ _ _) as [i|].
  2:{ exists act, (outbound_udata_messages self), [], heap. rewrite app_nil_r. split; [done|].
      assert (with_udata self (outbound_udata_messages self) = self) as -> by by destruct self.
      split; [by apply effect_refl|]. eapply Forall_impl; [exact Hs|]. intros u Hu. by apply orb_true_iff. }
  destruct Hs as (u & Hu & Hsk). apply orb_false_iff in Hsk as [Hsub _]. rewrite Hu. step.
  destruct (remove_at_perm _ _ _ Hu) as (rest & _ & Hp & Hins & _). pose proof (udata_ok_lookup _ _ _ _ I Hu) as Ho.
  destruct (new_unacked_fresh heap (svc_cell <$> outbound_messages self)) as (c & En & Hc & He & _).
  { intros c (a & -> & Ha)%list_elem_of_fmap. pose proof (oi_ok _ _ (iv_out _ _ I)) as Hok. rewrite Forall_forall in Hok.
    rewrite (to_receipt _ _ (Hok a Ha)). by eexists. }
  rewrite En. cbn beta iota. set (u1 := qu_with_mac _ _ _ _ _ _). set (heap1 := <[c := _]> heap) in *.
  destruct (inv_udata_update self heap u rest heap1 u1 (<[i := u1]> (outbound_udata_messages self)) I Hp He) as [I1 P1];
    [|done|apply Hins|].
  { split; [|eapply apart_evolves; [apply Ho|apply He|by intros x]]. intros x [= <-]. split; [done|]. cbn. unfold heap1. rewrite lookup_insert_eq. by eexists. }
  edestruct (IH true (with_udata self (<[i := u1]> (outbound_udata_messages self)))) as (act' & l & m2 & heap2 & E2 & F2 & D2); [exact I1| |].
  { cbn. unfold udata_waiting in *. rewrite (filter_perm _ _ _ (Hins u1)). rewrite (filter_perm _ _ _ Hp) in Hf. cbn in *.
    rewrite Hsub in Hf. cbn in *. lia. }
  exists act', l. eexists (_ :: m2), heap2. split; [etrans; [exact E2|]; by rewrite <- app_assoc|]. split; [|done].
  refine (effect_trans _ _ [] [_] _ _ [] _ _ _ _ F2). by apply effect_quiet.
Qed.

Lemma submit_udata_msgs_effect self queue heap :
  inv self heap ->
  exists act l msgs heap', submit_udata_msgs_to_umac self queue heap = Some (act, with_udata self l, queue ++ msgs, heap') /\
    effect self heap [] msgs (with_udata self l) heap'.
Proof.
  intros I. unfold submit_udata_msgs_to_umac.
  destruct (submit_udata_loop_effect (S (length (outbound_udata_messages self))) false self queue heap I)
    as (act & l & m & heap1 & E & [I1 A1] & _).
  { unfold udata_waiting. pose proof (List.filter_length_le (fun u => negb (qu_submitted u)) (outbound_udata_messages self)). lia. }
  rewrite E. step. do 2 eexists. exists m, heap1. split; [done|].
  set (g := fun u : QueuedUdata => qu_with_mac _ _ _ _ _ _).
  assert (Hid : uid <$> (g <$> l) = uid <$> l) by (rewrite <- list_fmap_compose; by apply list_fmap_ext).
  split; [|destruct A1 as (d & Ed & Pd); exists d; split; [done|]; unfold pending in *; cbn in *; by rewrite Hid].
  destruct I1 as [J1 J2 J3 J4 J5 J6]. cbn in *. constructor; try done; cbn.
  - unfold udata_inv in *. rewrite Forall_fmap. by eapply Forall_impl.
  - by rewrite length_fmap.
Qed.

(** A timeslot ends: nothing panics, requests are accounted for, no acknowledgement is left
    waiting and no link idles while it has something to send. *)
Lemma tick_end_effect main_carrier self queue heap :
  inv self heap ->
  exists act self' msgs heap', tick_end main_carrier self queue heap = Some (act, self', queue ++ msgs, heap') /\
    effect self heap [] msgs self' heap' /\ scheduled_out_acks self' = [] /\ no_idle_link (outbound_messages self').
Proof.
  intros I. unfold tick_end.
  destruct (submit_retransmissions_effect main_carrier self queue heap I) as (a1 & s1 & m1 & h1 & E1 & F1). rewrite E1. step.
  destruct (submit_free_messages_effect main_carrier s1 (queue ++ m1) h1 (ef_inv _ _ _ _ _ _ F1)) as (a2 & s2 & m2 & h2 & E2 & F2 & N2).
  rewrite E2. step.
  destruct (submit_ack_replies_effect s2 ((queue ++ m1) ++ m2) h2 (ef_inv _ _ _ _ _ _ F2)) as (a3 & m3 & E3 & F3 & _). rewrite E3. step.
  destruct (submit_udata_msgs_effect (with_scheduled s2 []) (((queue ++ m1) ++ m2) ++ m3) h2 (ef_inv _ _ _ _ _ _ F3))
    as (a4 & l & m4 & h4 & E4 & F4). rewrite E4. step.
  do 2 eexists. exists (((m1 ++ m2) ++ m3) ++ m4), h4. split; [by rewrite !app_assoc|]. split; [|done].
  refine (effect_trans _ _ [] _ _ _ [] _ _ _ _ F4). refine (effect_trans _ _ [] _ _ _ [] _ _ _ _ F3).
  exact (effect_trans _ _ [] _ _ _ [] _ _ _ F1 F2).
Qed.
