(* ===== verification/LlcRun.v ===== *)
(** * Runs of the basic link

    The LLC entity under any sequence of primitives, timeslots and reports of the MAC: it
    never panics, its queues and repetitions stay within their limits, every request is
    answered once, and at the end of a timeslot no link idles while it has something to
    send. *)

From Stdlib Require Import ZArith Lia ZifyNat.
From stdpp Require Import gmap strings.
From S2P Require Import Prelude.
From S2P Require Import BitBuffer.
From S2P Require Import BitBufferFacts.
From S2P Require Import Tdma.
From S2P Require Import MacFields.
From S2P Require Import Defrag.
From S2P Require Import TxReceipt.
From S2P Require Import LlcPdus.
From S2P Require Import Llc.
From S2P Require Import LlcFacts.
From S2P Require Import LlcInv.
From S2P Require Import LlcTick.

(** ** Events *)

(** The entity, the messages it has pushed so far and the receipts. *)
Abbreviation world := (Llc * list LlcMsg * store)%type.
Definition initial : world := (Llc_new, [], ∅).

(** [EvMac c s]: somebody else, the MAC reporting on an attempt or a user making a receipt,
    sets the cell [c]. *)
Inductive llc_event :=
  | EvPrim (message : LlcPrim)
  | EvTickStart (ts : TdmaTime)
  | EvTickEnd
  | EvMac (c : nat) (s : TxState).

(** A primitive the entity may be given: on the basic link where it is to be acknowledged, with
    well-formed buffers and receipts of their own. *)
Definition prim_ok (self : Llc) (heap : store) (message : LlcPrim) : Prop :=
  match message with
  | PrimDataReq prim => dr_link_id prim = 0%Z /\ (ssi_type (dr_main_address prim) <> Gssi -> data_req_ok self heap prim)
  | PrimDataResp prim => data_resp_ok prim
  | PrimUnitdataReq prim => unitdata_req_ok self heap prim
  | PrimReport _ _ => True
  | PrimUnitdataInd prim => forall pdu, ti_pdu prim = Some pdu -> pdu_ok pdu
  end.
Definition event_ok (w : world) (e : llc_event) : Prop :=
  let '(self, queue, heap) := w in
  match e with
  | EvPrim message => prim_ok self heap message
  | EvMac c _ => c ∉ svc_cell <$> outbound_messages self
  | _ => True
  end.

Section runs.
Variable main_carrier : Z.

Definition run_event (w : world) (e : llc_event) : option world :=
  let '(self, queue, heap) := w in
  match e with
  | EvPrim message => rx_prim main_carrier self queue message heap
  | EvTickStart ts => Some (tick_start self ts, queue, heap)
  | EvTickEnd => '(_, self, queue, heap) ← tick_end main_carrier self queue heap; Some (self, queue, heap)
  | EvMac c s => Some (self, queue, <[c := tx_raw s]> heap)
  end.
Definition run_events (w : world) (es : list llc_event) : option world := foldM run_event es w.

(** Every event is one the entity may be given when it happens. *)
Fixpoint events_ok (w : world) (es : list llc_event) : Prop :=
  match es with
  | [] => True
  | e :: es => event_ok w e /\ forall w', run_event w e = Some w' -> events_ok w' es
  end.

(** What a primitive asks to be answered: its handle, and the TL-SDU (of an unacknowledged
    transfer, the PDU) to be sent.  A request to be acknowledged by a group is not answered. *)
Definition asks (self : Llc) (e : llc_event) : list (Z * option (list bool)) :=
  match e with
  | EvPrim (PrimDataReq prim) =>
      if bool_decide (ssi_type (dr_main_address prim) = Gssi) then []
      else [(dr_req_handle prim, Some (remaining (dr_tl_sdu prim)))]
  | EvPrim (PrimDataResp prim) => if resp_asks self prim then [(dp_req_handle prim, Some (remaining (dp_tl_sdu prim)))] else []
  | EvPrim (PrimUnitdataReq prim) =>
      [(ur_req_handle prim, Some (pdu_img (udata_hdr (ur_fcs_flag prim)) (ur_fcs_flag prim) (remaining (ur_tl_sdu prim))))]
  | _ => []
  end.
Fixpoint asked (w : world) (es : list llc_event) : list (Z * option (list bool)) :=
  match es with
  | [] => []
  | e :: es => asks w.1.1 e ++ match run_event w e with Some w' => asked w' es | None => [] end
  end.

(** ** One event, and all of them *)

Lemma run_event_effect self queue heap e :
  inv self heap -> event_ok (self, queue, heap) e ->
  exists self' msgs heap', run_event (self, queue, heap) e = Some (self', queue ++ msgs, heap') /\
    effect self heap (asks self e) msgs self' heap'.
Proof.
  intros I He. destruct e as [message|ts| |c s]; cbn [run_event asks].
  - destruct message as [prim|prim|prim|h report|prim]; cbn [rx_prim].
    + destruct He as [Hl Hq]. case_bool_decide as Hg.
      * exists self, [], heap. rewrite app_nil_r. split; [by apply group_request_dropped|by apply effect_refl].
      * by apply rx_tla_tldata_req_bl_effect, Hq.
    + by apply rx_tla_tldata_resp_bl_effect.
    + by apply rx_tla_tlunitdata_req_bl_effect.
    + by apply rx_tma_report_ind_effect.
    + by apply rx_tma_unitdata_ind_effect.
  - exists (tick_start self ts), [], heap. rewrite app_nil_r. split; [done|]. apply effect_quiet; [|done|done].
    destruct I. by constructor.
  - destruct (tick_end_effect main_carrier self queue heap I) as (act & self' & m & heap' & E & F & _). rewrite E. step.
    by exists self', m, heap'.
  - exists self, [], (<[c := tx_raw s]> heap). rewrite app_nil_r. split; [done|]. apply effect_quiet; [|done|done].
    apply (inv_evolves _ heap); [done|]. by apply evolves_insert.
Qed.

Lemma run_events_effect es : forall self queue heap,
  inv self heap -> events_ok (self, queue, heap) es ->
  exists self' msgs heap', run_events (self, queue, heap) es = Some (self', queue ++ msgs, heap') /\
    effect self heap (asked (self, queue, heap) es) msgs self' heap'.
Proof.
  unfold run_events. induction es as [|e es IH]; intros self queue heap I Hok; cbn [foldM asked].
  { exists self, [], heap. rewrite app_nil_r. split; [done|by apply effect_refl]. }
  destruct Hok as [He Hok]. destruct (run_event_effect self queue heap e I He) as (s1 & m1 & h1 & E1 & F1).
  rewrite E1. step. destruct (IH s1 (queue ++ m1) h1 (ef_inv _ _ _ _ _ _ F1) (Hok _ E1)) as (s2 & m2 & h2 & E2 & F2).
  exists s2, (m1 ++ m2), h2. rewrite app_assoc. split; [exact E2|]. by eapply effect_trans.
Qed.

Lemma inv_initial : inv Llc_new ∅.
Proof.
  constructor; cbn; try done; try lia; try constructor; try apply NoDup_nil_2; try done; try constructor.
Qed.

(** ** Claims *)

(** C6 (the basic link never panics).  Whatever the sequence of requests, responses, received
    PDUs, reports of the MAC and timeslots, the LLC entity returns from each; at any time at
    most one transfer per basic link is with the MAC and at most one acknowledgement per link
    is waiting; and what is stored for a transfer is a BL-DATA or BL-ADATA PDU with the
    transfer's own N(S), its receipt saying exactly whether it has been sent. *)
Theorem llc_never_panics es :
  events_ok initial es ->
  exists self queue heap, run_events initial es = Some (self, queue, heap) /\
    NoDup (expected_ack_key <$> List.filter (fun a => bool_decide (is_Some (ea_t_submitted_to_umac a))) (outbound_messages self)) /\
    NoDup ((fun k => (so_addr k, so_endpoint_id k)) <$> scheduled_out_acks self) /\
    Forall (fun a =>
      (exists has_fcs nr sdu, holds (tr_pdu (ea_retransmission_buf a)) (data_img has_fcs nr (ea_ns a) sdu)) /\
      get_state heap (ea_tx_reporter a) = if ea_first_complete_report_sent a then Transmitted else Pending)
      (outbound_messages self).
Proof.
  intros Hok. destruct (run_events_effect es _ _ _ inv_initial Hok) as (self & msgs & heap & E & [I _]).
  exists self, msgs, heap. split; [exact E|]. destruct (iv_acks _ _ I) as [_ Hk]. split; [apply I|]. split.
  - assert (Ek : (fun k => (so_addr k, so_endpoint_id k)) <$> scheduled_out_acks self
      = (fun k => (key_addr k, key_endpoint_id k)) <$> (so_key <$> scheduled_out_acks self)) by (by rewrite <- list_fmap_compose).
    rewrite Ek. apply NoDup_fmap_2; [|done]. intros [] [] [= -> ->]. done.
  - eapply Forall_impl; [apply I|]. intros a T. destruct (to_stores _ _ T) as (f & sdu & _ & nr & _ & Hb). split; [by eauto|].
    unfold get_state. rewrite (load_lookup _ _ _ (to_receipt _ _ T)), from_raw_tx_raw. done.
Qed.

(** C18 (every request is answered once).  Requests to be acknowledged that are addressed to a
    group are dropped without an answer, and so are late responses to one.  At any time the handles
    of the other requests made so far, late and overlong responses among them, are exactly those answered by a confirmation or a report of success or failure and those
    still queued, each as often as it was asked for; and what is queued still carries the
    TL-SDU of its request, whatever renumbering, folding of acknowledgements or repetition it
    went through. *)
Theorem llc_answers_every_request es :
  events_ok initial es ->
  exists self queue heap answered, run_events initial es = Some (self, queue, heap) /\
    fst <$> answered = answers queue /\ answered ++ pending self ≡ₚ asked initial es.
Proof.
  intros Hok. destruct (run_events_effect es _ _ _ inv_initial Hok) as (self & msgs & heap & E & [_ (d & Ed & P)]).
  exists self, msgs, heap, d. split; [exact E|]. split; [done|]. rewrite P. unfold pending. cbn. by rewrite app_nil_r.
Qed.

(** Limits.  The queues of acknowledged and unacknowledged transfers never exceed 8192
    entries, the repetition counter of a queued transfer never exceeds N.252 = 3, and N(S) and the send
    variables stay single bits. *)
Lemma llc_limits es :
  events_ok initial es ->
  exists self queue heap, run_events initial es = Some (self, queue, heap) /\
    length (outbound_messages self) <= LLC_MAX_OUTBOUND_ACKED_MESSAGES /\
    length (outbound_udata_messages self) <= LLC_MAX_OUTBOUND_UDATA_MESSAGES /\
    Forall (fun a => 0 <= ea_retransmit_count a <= N252_BL_MAX_TLSDU_RETRANSMITS_ACKED /\ 0 <= ea_ns a < 2)%Z (outbound_messages self) /\
    map_Forall (fun _ vs => 0 <= vs < 2)%Z (link_send_seq self).
Proof.
  intros Hok. destruct (run_events_effect es _ _ _ inv_initial Hok) as (self & msgs & heap & E & [I _]).
  exists self, msgs, heap. split; [exact E|]. split_and!; [apply I|apply I| |apply I].
  eapply Forall_impl; [apply I|]. intros a T. split; [apply T|]. destruct (to_stores _ _ T) as (f & sdu & Hs & _). exact Hs.
Qed.

(** C25 (no link idles).  When a timeslot ends, no acknowledgement is left waiting, and every
    link with a queued transfer has one with the MAC. *)
Theorem llc_no_idle_link es :
  events_ok initial es ->
  exists self queue heap, run_events initial (es ++ [EvTickEnd]) = Some (self, queue, heap) /\
    scheduled_out_acks self = [] /\
    forall a, a ∈ outbound_messages self ->
      exists b, b ∈ outbound_messages self /\ is_Some (ea_t_submitted_to_umac b) /\ expected_ack_key b = expected_ack_key a.
Proof.
  intros Hok. destruct (run_events_effect es _ _ _ inv_initial Hok) as (s1 & m1 & h1 & E1 & [I1 _]).
  unfold run_events, initial in *. rewrite foldM_app, E1. step. cbn [foldM run_event].
  destruct (tick_end_effect main_carrier s1 ([] ++ m1) h1 I1) as (act & self & m & heap & E & _ & Hs & Hn).
  rewrite E. step. exists self, (([] ++ m1) ++ m), heap. split; [done|]. split; [done|].
  intros a Ha. destruct (Hn a Ha) as (b & Hb & Hsb & Hk). exists b. split; [done|]. split; [by apply submitted_true|done].
Qed.
End runs.

(** ** A short run *)

Definition station : TetraAddress := mkAddr 2001 Issi.
Definition tl_request (req_handle prio : Z) (sdu : list bool) : TlaTlDataReqBl :=
  mkTlDataReq station 0 1 (buffer_of sdu) prio false 0 false None None None req_handle None None.

Lemma tl_request_ok self heap h prio sdu : data_req_ok self heap (tl_request h prio sdu).
Proof. constructor; [done|done|apply buffer_of_holds with (bits := sdu)|done]. Qed.

(** A request, its slot, and the acknowledgement of its N(S). *)
Definition short_run : list llc_event :=
  [EvPrim (PrimDataReq (tl_request 7 0 [true; false; true])); EvTickStart TdmaTime_default; EvTickEnd;
   EvPrim (PrimUnitdataInd (mkTmaUnitdataInd (Some (buffer_of (ack_hdr false 0))) station 0 1 None None 0 false None None))].

Lemma short_run_ok main_carrier : events_ok main_carrier initial short_run.
Proof.
  pose proof (buffer_of_holds (ack_hdr false 0)) as Hb.
  split; [split; [done|intros _; apply tl_request_ok]|]. intros [[s1 q1] h1] _. split; [done|]. intros [[s2 q2] h2] _. split; [done|].
  intros [[s3 q3] h3] _. split; [|done]. intros pdu [= <-]. split; [apply Hb|]. split; [apply Hb|].
  rewrite (peek_pdu_type_img _ false 3 (val_bits 1 0)); [done|apply Hb|apply Hb|lia|]. by rewrite (holds_remaining _ _ Hb).
Qed.

Lemma llc_never_panics_witness :
  exists self queue heap, run_events 1 initial short_run = Some (self, queue, heap) /\
    NoDup (expected_ack_key <$> List.filter (fun a => bool_decide (is_Some (ea_t_submitted_to_umac a))) (outbound_messages self)) /\
    NoDup ((fun k => (so_addr k, so_endpoint_id k)) <$> scheduled_out_acks self) /\
    Forall (fun a =>
      (exists has_fcs nr sdu, holds (tr_pdu (ea_retransmission_buf a)) (data_img has_fcs nr (ea_ns a) sdu)) /\
      get_state heap (ea_tx_reporter a) = if ea_first_complete_report_sent a then Transmitted else Pending)
      (outbound_messages self).
Proof. apply (llc_never_panics 1 short_run), short_run_ok. Defined.

Lemma llc_answers_every_request_witness :
  exists self queue heap answered, run_events 1 initial short_run = Some (self, queue, heap) /\
    fst <$> answered = answers queue /\ answered ++ pending self ≡ₚ asked 1 initial short_run.
Proof. apply (llc_answers_every_request 1 short_run), short_run_ok. Defined.


Lemma llc_no_idle_link_witness :
  exists self queue heap, run_events 1 initial (short_run ++ [EvTickEnd]) = Some (self, queue, heap) /\
    scheduled_out_acks self = [] /\
    forall a, a ∈ outbound_messages self ->
      exists b, b ∈ outbound_messages self /\ is_Some (ea_t_submitted_to_umac b) /\ expected_ack_key b = expected_ack_key a.
Proof. apply (llc_no_idle_link 1 short_run), short_run_ok. Defined.
