(* ===== verification/LlcPeer.v ===== *)
(** * Two ends of a basic link

    What the LLC entity makes of the PDUs another one sends: delivery of a TL-SDU, suppression
    of repeated ones, acknowledgement and confirmation, and a whole transfer between two
    entities. *)

From Stdlib Require Import ZArith Lia ZifyNat.
From stdpp Require Import gmap strings.
From S2P Require Import Prelude.
From S2P Require Import BitBuffer.
From S2P Require Import BitBufferFacts.
From S2P Require Import Codec.
From S2P Require Import Fcs.
From S2P Require Import Tdma.
From S2P Require Import MacFields.
From S2P Require Import Defrag.
From S2P Require Import TxReceipt.
From S2P Require Import LlcPdus.
From S2P Require Import Llc.
From S2P Require Import LlcFacts.
From S2P Require Import LlcInv.
From S2P Require Import LlcTick.
From S2P Require Import LlcRun.

(** The TL-SDU of an indication; an empty one is left out. *)
Definition sdu_bits (tl_sdu : option BitBuffer) : list bool :=
  match tl_sdu with Some b => remaining b | None => [] end.

Definition link_of (prim : TmaUnitdataInd) : BasicLinkKey := mkKey (ti_main_address prim) (ti_endpoint_id prim).

(** [ns] is the last N(S) received on the link, and that is not too long ago. *)
Definition repeats (self : Llc) (key : BasicLinkKey) (ns : Z) : Prop :=
  exists st, inbound_receive_seq self !! key = Some st /\ last_ns st = ns /\
    inbound_duplicate_state_expired st (dltime self) = false.

(** ** Reception *)

Lemma check_fcs_own b sdu has_fcs :
  wf b -> remaining b = sdu ++ fcs_img has_fcs sdu -> (if negb has_fcs then Some true else check_fcs b) = Some true.
Proof.
  intros W E. destruct has_fcs; [|done]. cbn [negb].
  rewrite (check_fcs_spec b sdu _ W E) by done. unfold fcs_img. rewrite bits_val_val_bits_small by apply fcs_of_bound.
  by rewrite Z.eqb_refl.
Qed.

Lemma receive_data self queue prim b has_fcs ns sdu heap :
  ti_pdu prim = Some b -> holds b (data_img has_fcs None ns sdu) -> seq_bit ns ->
  exists tl_sdu, sdu_bits tl_sdu = sdu /\
    rx_tma_unitdata_ind self queue prim heap =
      let '(handle, dup, self) := receive_ns self prim ns in
      Some (self, if dup : bool then queue else queue ++ [TlaTlDataIndBl (ind_of prim tl_sdu has_fcs) handle], heap).
Proof.
  intros Hp Hb Hns. pose proof (holds_remaining _ _ Hb) as E. pose proof (ho_wf _ _ Hb) as W. pose proof (ho_pos _ _ Hb) as P.
  unfold data_img, pdu_img in E.
  assert (Ep : peek_pdu_type b = Some (Some (if has_fcs then BlDataFcs else BlDataType))).
  { rewrite (peek_pdu_type_img b has_fcs 1 (val_bits 1 ns ++ sdu ++ fcs_img has_fcs sdu)); [by destruct has_fcs|done|done|lia|].
    rewrite E. cbn [data_hdr]. by rewrite <- app_assoc. }
  assert (Er : BlData_from_bitbuf b = Ok (mkBlData has_fcs ns) (with_pos b (pos b + length (data_hdr has_fcs None ns))))
    by (eapply bl_data_parses; eauto).
  destruct (parses_advance b (data_hdr has_fcs None ns) _ W E) as (W1 & R1 & _).
  set (b1 := with_pos b (pos b + length (data_hdr has_fcs None ns))) in *.
  pose proof (check_fcs_own b1 sdu has_fcs W1 R1) as Ec.
  destruct (strip_holds b1 sdu has_fcs W1 R1) as (b2 & E2 & W2 & R2 & _).
  destruct (from_here_holds b2 W2) as (b3 & E3 & H3 & L3). rewrite R2 in H3.
  exists (if 0 <? get_len_remaining b3 then Some b3 else None). split.
  { pose proof (holds_remaining _ _ H3) as R3. unfold get_len_remaining. rewrite <- length_remaining, R3.
    destruct (Nat.ltb_spec 0 (length sdu)); cbn [sdu_bits]; [done|]. destruct sdu; [done|cbn in *; lia]. }
  unfold rx_tma_unitdata_ind, rx_tma_unitdata_ind_bl. rewrite Hp, Ep. step.
  destruct (receive_ns self prim ns) as [[handle dup] self'] eqn:En.
  destruct has_fcs; try step; cbn [parse_bl_header]; rewrite Er; step;
    cbn [bt_has_fcs bt_ns]; rewrite Ec; step; cbn [negb]; rewrite !andb_false_r; cbn [andb]; rewrite E2; step; rewrite En; try step;
    unfold deliver_bl; cbn [is_bl_ack_type is_bl_udata_type negb];
    (destruct dup; [done|]); rewrite E3; step; done.
Qed.

(** Receiving an N(S): it becomes the link's last one and its acknowledgement is scheduled. *)
Lemma upsert_ack_in k l : k ∈ upsert_ack k l.
Proof.
  induction l as [|x l IH]; cbn; [by left|]. destruct (_ && _ && _); [by left|by right].
Qed.

Lemma receive_ns_spec self prim ns :
  let '(handle, dup, self') := receive_ns self prim ns in
  (dup = true <-> repeats self (link_of prim) ns) /\
  last_ns <$> inbound_receive_seq self' !! link_of prim = Some ns /\
  scheduled_out_acks self' = upsert_scheduled_out_ack (scheduled_out_acks self) (add_timeslots (dltime self) (-2))
    (ti_main_address prim) (ti_endpoint_id prim) ns handle (ti_air_interface_encryption prim) /\
  dltime self' = dltime self /\ outbound_messages self' = outbound_messages self /\
  outbound_udata_messages self' = outbound_udata_messages self /\ link_send_seq self' = link_send_seq self.
Proof.
  unfold receive_ns. cbn [prune_expired_inbound_receive_seq with_receive_seq inbound_receive_seq]. fold (link_of prim).
  set (fresh := filter _ (inbound_receive_seq self)).
  assert (Hf : forall st, fresh !! link_of prim = Some st <->
    inbound_receive_seq self !! link_of prim = Some st /\ inbound_duplicate_state_expired st (dltime self) = false)
    by (intros st; apply map_lookup_filter_Some).
  assert (Hr : (exists st, fresh !! link_of prim = Some st /\ last_ns st = ns) <-> repeats self (link_of prim) ns).
  { unfold repeats. split.
    - intros (st & [H1 H2]%Hf & H3). by exists st.
    - intros (st & H1 & H2 & H3). exists st. split; [by apply Hf|done]. }
  destruct (fresh !! link_of prim) as [st|] eqn:E.
  - destruct (Z.eqb_spec (last_ns st) ns) as [Hn|Hn].
    + destruct (scheduled_out_ack_handle_for_key _ _);
        (split; [split; [intros _; apply Hr; by exists st|done]|]); (split; [|done]);
        change (last_ns <$> fresh !! link_of prim = Some ns); rewrite E; cbn; by rewrite Hn.
    + split; [split; [done|intros (st' & [= <-] & H')%Hr; done]|]. split; [|done].
      change (last_ns <$> <[link_of prim := mkReceiveSeq ns (add_timeslots (dltime self) (-2))
        (t (add_timeslots (dltime self) (-2)))]> fresh !! link_of prim = Some ns). by rewrite lookup_insert_eq.
  - split; [split; [done|intros (st' & [=] & _)%Hr]|]. split; [|done].
    change (last_ns <$> <[link_of prim := mkReceiveSeq ns (add_timeslots (dltime self) (-2))
      (t (add_timeslots (dltime self) (-2)))]> fresh !! link_of prim = Some ns). by rewrite lookup_insert_eq.
Qed.

(** C19 (in order, once).  A BL-DATA PDU received on a link delivers its TL-SDU, unless its
    N(S) repeats the last one received there within the suppression window; then nothing is
    delivered.  In both cases exactly its N(S) is acknowledged and remembered. *)
Theorem bl_data_delivered_once self queue prim b has_fcs ns sdu heap :
  ti_pdu prim = Some b -> holds b (data_img has_fcs None ns sdu) -> seq_bit ns ->
  exists self' msgs handle, rx_tma_unitdata_ind self queue prim heap = Some (self', queue ++ msgs, heap) /\
    (repeats self (link_of prim) ns -> msgs = []) /\
    (~ repeats self (link_of prim) ns -> exists ind, msgs = [TlaTlDataIndBl ind handle] /\ sdu_bits (in_tl_sdu ind) = sdu) /\
    last_ns <$> inbound_receive_seq self' !! link_of prim = Some ns /\
    exists k, k ∈ scheduled_out_acks self' /\ so_key k = link_of prim /\ so_nr k = ns /\ so_ind_req_handle k = handle.
Proof.
  intros Hp Hb Hns. destruct (receive_data self queue prim b has_fcs ns sdu heap Hp Hb Hns) as (tl_sdu & Hs & ->).
  pose proof (receive_ns_spec self prim ns) as H. destruct (receive_ns self prim ns) as [[handle dup] self'].
  destruct H as (Hd & Hl & Hk & _).
  assert (Hin : exists k, k ∈ scheduled_out_acks self' /\ so_key k = link_of prim /\ so_nr k = ns /\ so_ind_req_handle k = handle).
  { eexists. rewrite Hk. split; [apply upsert_ack_in|done]. }
  exists self', (if dup then [] else [TlaTlDataIndBl (ind_of prim tl_sdu has_fcs) handle]), handle.
  split; [by destruct dup; rewrite ?app_nil_r|]. destruct dup; (split; [|split; [|done]]).
  - done.
  - intros Hn. destruct Hn. by apply Hd.
  - intros Hr%Hd. done.
  - intros _. eexists. split; [done|]. exact Hs.
Qed.

Lemma bl_data_delivered_once_witness :
  exists self' msgs handle,
    rx_tma_unitdata_ind Llc_new [] (mkTmaUnitdataInd (Some (buffer_of (data_img false None 0 [true; false; true]))) station 0 1
      None None 0 false None None) ∅ = Some (self', [] ++ msgs, ∅) /\
    (exists ind, msgs = [TlaTlDataIndBl ind handle] /\ sdu_bits (in_tl_sdu ind) = [true; false; true]).
Proof.
  destruct (bl_data_delivered_once Llc_new [] (mkTmaUnitdataInd (Some (buffer_of (data_img false None 0 [true; false; true])))
    station 0 1 None None 0 false None None) _ false 0 [true; false; true] ∅ eq_refl) as (self' & msgs & handle & E & _ & Hn & _).
  - apply buffer_of_holds.
  - by unfold seq_bit.
  - exists self', msgs, handle. split; [exact E|]. apply Hn. intros (st & H & _). done.
Defined.

Lemma receive_ack self queue prim b nr heap :
  ti_pdu prim = Some b -> holds b (ack_hdr false nr) -> seq_bit nr ->
  rx_tma_unitdata_ind self queue prim heap =
    '(matching_ack, self, queue, heap) ← process_incoming_ack self queue (ti_main_address prim) (ti_endpoint_id prim) nr heap;
    Some (self, match matching_ack with
                | Some a => push_tl_data_conf queue a None prim false (ti_air_interface_encryption prim)
                | None => queue end, heap).
Proof.
  intros Hp Hb Hnr. pose proof (holds_remaining _ _ Hb) as E. pose proof (ho_wf _ _ Hb) as W. pose proof (ho_pos _ _ Hb) as P.
  assert (Ep : peek_pdu_type b = Some (Some BlAckType)) by (by rewrite (peek_pdu_type_img b false 3 (val_bits 1 nr))).
  rewrite <- (app_nil_r (ack_hdr _ _)) in E.
  assert (Er : BlAck_from_bitbuf b = Ok (mkBlAck false nr) (with_pos b (pos b + length (ack_hdr false nr))))
    by (eapply bl_ack_parses; eauto).
  destruct (parses_advance b (ack_hdr false nr) _ W E) as (W1 & R1 & _).
  set (b1 := with_pos b (pos b + length (ack_hdr false nr))) in *.
  assert (El : get_len_remaining b1 = 0) by (unfold get_len_remaining; by rewrite <- length_remaining, R1).
  unfold rx_tma_unitdata_ind, rx_tma_unitdata_ind_bl. rewrite Hp, Ep. step. cbn [parse_bl_header]. rewrite Er. step.
  cbn [ba_has_fcs ba_nr negb andb]. step. rewrite andb_false_r.
  destruct (process_incoming_ack _ _ _ _ _ _) as [[[[m s] q] h]|]; [|done]. cbn [mbind option_bind].
  unfold deliver_bl. cbn [is_bl_ack_type]. rewrite El. cbn. by destruct m.
Qed.

(** ** A whole transfer *)

(** An entity with nothing to send. *)
Record quiet (self : Llc) : Prop := {
  qt_out : outbound_messages self = [];
  qt_udata : outbound_udata_messages self = [];
  qt_acks : scheduled_out_acks self = []
}.

Section transfer.
Variable main_carrier : Z.

(** Nothing unacknowledged to send. *)
Lemma no_udata self queue heap :
  outbound_udata_messages self = [] -> submit_udata_msgs_to_umac self queue heap = Some (false, self, queue, heap).
Proof. intros Hu. unfold submit_udata_msgs_to_umac. rewrite Hu. cbn. destruct self; cbn in *. by subst. Qed.

Lemma with_same self : with_outbound (with_scheduled self (scheduled_out_acks self)) (outbound_messages self) = self.
Proof. by destruct self. Qed.

(** A single transfer not yet with the MAC is not repeated. *)
Lemma no_retransmission self queue a heap :
  outbound_messages self = [a] -> ea_t_umac_done a = None -> ea_t_retransmissions_exhausted a = None ->
  ea_current_mac_reporter a = None ->
  submit_retransmissions_to_umac main_carrier self queue heap = Some (false, self, queue, heap).
Proof.
  intros Ho Hdone Hex Hmac. unfold submit_retransmissions_to_umac. rewrite Ho. cbn [retransmit_pass]. unfold retransmit_one.
  unfold reconcile_umac_done_from_reporter, ack_current_mac_state. rewrite Hmac. cbn [fmap option_fmap option_map negb].
  rewrite orb_true_r, Hex, Hdone. cbn. by rewrite <- Ho, with_same.
Qed.

Lemma indices_none {A} (p : A -> bool) x : p x = false -> indices p [x] = [].
Proof. intros H. unfold indices. cbn. by rewrite H. Qed.

Lemma highest_single a blocked :
  highest_priority_unsubmitted_ack_index [a] blocked =
  if bool_decide (is_Some (ea_t_submitted_to_umac a)) || bool_decide (expected_ack_key a ∈ blocked) then None else Some 0.
Proof. unfold highest_priority_unsubmitted_ack_index, select_by. cbn. by destruct (_ || _). Qed.

(** ... but sent. *)
Lemma submits_one self queue a has_fcs sdu heap :
  outbound_messages self = [a] -> outbound_udata_messages self = [] -> scheduled_out_acks self = [] ->
  stores a has_fcs sdu -> ea_t_submitted_to_umac a = None -> ea_retransmit_count a = 0%Z ->
  submit_free_messages_to_umac main_carrier self queue heap =
    let '(queue, a, heap) :=
      submit_for_acknowledged_transmission queue a (forward_to_timeslot (dltime self) (t (ea_t_first a))) heap in
    Some (true, with_outbound self [a], queue, heap).
Proof.
  intros Ho Hu Hk (Hs & nr & Hnr & Hb) Hsub Hc. destruct (rebuild_payload _ _ _ _ _ Hb Hs Hnr) as (p & Ep & _).
  assert (Ef : fold_waiting_ack_into_mac_ready_bl_data main_carrier queue [] a = Some (queue, [], a)).
  { unfold fold_waiting_ack_into_mac_ready_bl_data. rewrite Ep. step. rewrite Hc. cbn. by rewrite andb_false_r. }
  assert (Ec : cancel_lower_priority_pending_mac_transfers_for_emergency self queue heap = Some (false, self, queue, heap)).
  { unfold cancel_lower_priority_pending_mac_transfers_for_emergency. rewrite Ho, Hu.
    rewrite (indices_none _ a) by (unfold ack_to_cancel; by rewrite Hsub). destruct self; cbn in *. by subst. }
  assert (Hbl : blocked_links [a] = ∅) by (unfold blocked_links; cbn; by rewrite Hsub).
  unfold submit_free_messages_to_umac. rewrite Ec. step. rewrite Ho, Hbl. cbn [length submit_free_loop].
  rewrite Ho, highest_single, Hsub, (bool_decide_eq_false_2 (_ ∈ ∅)) by apply not_elem_of_empty.
  rewrite bool_decide_eq_false_2 by (by intros [? ?]). cbn [orb list_lookup lookup fmap option_fmap option_map]. step.
  assert (En : normalize_unsubmitted_ns_for_key [a] (expected_ack_key a) = Some [a]).
  { unfold normalize_unsubmitted_ns_for_key, unsubmitted_ack_indices_for_key, indices. cbn. by destruct (unsubmitted_on _ a). }
  rewrite En. cbn [mbind option_bind list_lookup lookup]. rewrite Hk, Ef. cbn [mbind option_bind].
  destruct (submit_for_acknowledged_transmission queue a _ heap) as [[q a'] h] eqn:Es.
  cbn [with_outbound with_scheduled outbound_messages list_insert insert]. rewrite highest_single.
  assert (Hs' : is_Some (ea_t_submitted_to_umac a')).
  { unfold submit_for_acknowledged_transmission in Es. destruct (new_unacked heap). injection Es as _ <- _. by eexists. }
  rewrite bool_decide_eq_true_2 by done. cbn [orb]. destruct self; cbn in *. by subst.
Qed.

(** The slot in which a single new transfer is sent. *)
Lemma tick_sends_one self queue a has_fcs sdu heap :
  outbound_messages self = [a] -> outbound_udata_messages self = [] -> scheduled_out_acks self = [] ->
  stores a has_fcs sdu -> ea_t_submitted_to_umac a = None -> ea_t_umac_done a = None ->
  ea_t_retransmissions_exhausted a = None -> ea_current_mac_reporter a = None -> ea_retransmit_count a = 0%Z ->
  tick_end main_carrier self queue heap =
    let '(queue, a, heap) :=
      submit_for_acknowledged_transmission queue a (forward_to_timeslot (dltime self) (t (ea_t_first a))) heap in
    Some (true, with_outbound self [a], queue, heap).
Proof.
  intros Ho Hu Hk Hst Hsub Hdone Hex Hmac Hc. unfold tick_end.
  rewrite (no_retransmission self queue a heap) by done. step. rewrite (submits_one self queue a has_fcs sdu heap) by done.
  destruct (submit_for_acknowledged_transmission queue a _ heap) as [[q a'] h]. step.
  unfold submit_ack_replies_to_umac. cbn [with_outbound scheduled_out_acks]. rewrite Hk. cbn [foldM]. step.
  rewrite no_udata by done. step. destruct self; cbn in *. by subst.
Qed.

(** The slot in which the acknowledgement of a received TL-SDU is sent. *)
Lemma tick_acknowledges self queue k heap :
  outbound_messages self = [] -> outbound_udata_messages self = [] -> scheduled_out_acks self = [k] -> seq_bit (so_nr k) ->
  exists b, tick_end main_carrier self queue heap =
    Some (true, with_scheduled self [], queue ++ [TmaUnitdataReqMsg (bl_ack_req k b)], heap) /\ holds b (ack_hdr false (so_nr k)).
Proof.
  intros Ho Hu Hk Hn. destruct (push_standalone_bl_ack_sends queue k Hn) as (b & Eb & Hb). exists b. split; [|done].
  destruct self as [dl sch out ud snd rcv nh]; cbn in Ho, Hu, Hk; subst. set (self := mkLlc _ _ _ _ _ _ _).
  assert (E1 : submit_retransmissions_to_umac main_carrier self queue heap = Some (false, self, queue, heap)) by done.
  assert (E2 : submit_free_messages_to_umac main_carrier self queue heap = Some (false, self, queue, heap)) by done.
  unfold tick_end. rewrite E1. step. rewrite E2. step. unfold submit_ack_replies_to_umac. cbn [self scheduled_out_acks foldM].
  rewrite Eb. step. by rewrite no_udata.
Qed.

(** The sender once its transfer is with the MAC. *)
Definition awaiting (self : Llc) (a : ExpectedInAck) (heap : store) : Prop :=
  outbound_messages self = [a] /\ outbound_udata_messages self = [] /\ scheduled_out_acks self = [] /\
  is_Some (ea_t_submitted_to_umac a) /\ ea_t_umac_done a = None /\ ea_first_complete_report_sent a = false /\
  expects_ack (ea_tx_reporter a) = true /\ heap !! svc_cell a = Some (tx_raw Pending) /\
  forall r, ea_current_mac_reporter a = Some r -> tx_cell r <> svc_cell a.

(** A request to a quiet entity is sent in the next slot. *)
Lemma request_sent self heap prim :
  quiet self -> inv self heap -> data_req_ok self heap prim -> tl_sdu_exceeds_n251 (dr_tl_sdu prim) (dr_fcs_flag prim) = false ->
  let ns := default 0%Z (link_send_seq self !! mkKey (dr_main_address prim) (dr_endpoint_id prim)) in
  exists self' a r heap',
    run_events main_carrier (self, [], heap) [EvPrim (PrimDataReq prim); EvTickEnd]
      = Some (self', [TlaTlReportInd (dr_req_handle prim) TLA_REPORT_NO_SPECIFIC_REPORT (i32 (dr_endpoint_id prim));
                    TmaUnitdataReqMsg r], heap') /\
    awaiting self' a heap' /\ expected_ack_key a = mkKey (dr_main_address prim) (dr_endpoint_id prim) /\
    ea_req_handle a = dr_req_handle prim /\ ea_endpoint_id a = dr_endpoint_id prim /\ ea_ns a = ns /\
    tr_main_address r = dr_main_address prim /\
    holds (tr_pdu r) (data_img (dr_fcs_flag prim) None ns (remaining (dr_tl_sdu prim))) /\
    (forall x, dr_tx_reporter prim = Some x -> ea_tx_reporter a = x).
Proof.
  intros [Ho Hu Hk] I [Hl Ha Hw Hr] Hx ns. unfold run_events. cbn [foldM run_event rx_prim].
  unfold rx_tla_tldata_req_bl. rewrite Hl. change (assert_ (0 =? 0)%Z) with (Some tt). step.
  rewrite bool_decide_eq_false_2 by done. rewrite Hx. rewrite (proj2 (Nat.leb_gt _ _)) by (rewrite Ho; unfold LLC_MAX_OUTBOUND_ACKED_MESSAGES; cbn; lia).
  assert (Hn : seq_bit ns).
  { unfold ns. destruct (link_send_seq self !! _) as [v|] eqn:E; cbn; [|by unfold seq_bit]. by apply (iv_send_seq _ _ I _ _ E). }
  unfold get_next_send_seq. fold ns. cbn beta iota.
  destruct (build_pdu_holds _ _ (dr_tl_sdu prim) _ (dr_fcs_flag prim) (bl_data_emits (mkBlData (dr_fcs_flag prim) ns) Hn)
    Hw eq_refl) as (b & Eb & Hb). rewrite Eb. step.
  destruct (receipt_taken self heap (dr_tx_reporter prim) I Hr) as (r & heap' & Er & Hxr & Hp & Huu & He & Hxx).
  rewrite Er. cbn beta iota. step.
  match goal with |- context [with_outbound _ (_ ++ [?x])] => set (a := x) end.
  assert (Hst : stores a (dr_fcs_flag prim) (remaining (dr_tl_sdu prim))) by (split; [done|by exists None]).
  set (self' := with_send_seq self _). cbn [run_event].
  rewrite (tick_sends_one (with_outbound self' (outbound_messages self' ++ [a])) _ a (dr_fcs_flag prim) (remaining (dr_tl_sdu prim)) heap');
    [|unfold self'; cbn; by rewrite Ho|done|done|exact Hst|done..].
  unfold submit_for_acknowledged_transmission, new_unacked, TxReporter_new. step.
  assert (Hf : fresh (dom heap') <> tx_cell r).
  { intros Hc. assert (Hd : tx_cell r ∈ dom heap') by (by apply elem_of_dom_2 in Hp). rewrite <- Hc in Hd. by apply is_fresh in Hd. }
  match goal with |- context [with_outbound _ [?x]] => eexists _, x, _, _ end. split; [reflexivity|].
  unfold awaiting. split_and!; try done; [unfold svc_cell; cbn; by rewrite lookup_insert_ne|by intros ? [= <-]].
Qed.

(** The receiver delivers it and acknowledges in the next slot. *)
Lemma data_answered self heap prim b has_fcs ns sdu :
  quiet self -> ti_pdu prim = Some b -> holds b (data_img has_fcs None ns sdu) -> seq_bit ns ->
  ~ repeats self (link_of prim) ns ->
  exists self' ind handle r,
    run_events main_carrier (self, [], heap) [EvPrim (PrimUnitdataInd prim); EvTickEnd]
      = Some (self', [TlaTlDataIndBl ind handle; TmaUnitdataReqMsg r], heap) /\
    quiet self' /\ sdu_bits (in_tl_sdu ind) = sdu /\ tr_main_address r = ti_main_address prim /\
    tr_endpoint_id r = ti_endpoint_id prim /\ holds (tr_pdu r) (ack_hdr false ns).
Proof.
  intros [Ho Hu Hk] Hp Hb Hn Hnr. destruct (receive_data self [] prim b has_fcs ns sdu heap Hp Hb Hn) as (tl_sdu & Hs & Er).
  pose proof (receive_ns_spec self prim ns) as Hr. unfold run_events. cbn [foldM run_event rx_prim]. rewrite Er.
  destruct (receive_ns self prim ns) as [[handle dup] self']. destruct Hr as (Hd & _ & Hk' & _ & Ho' & Hu' & _).
  destruct dup; [by destruct Hnr; apply Hd|]. step. rewrite Hk in Hk'. cbn in Hk'.
  match type of Hk' with _ = [?x] => set (k := x) in * end. cbn [run_event].
  destruct (tick_acknowledges self' [TlaTlDataIndBl (ind_of prim tl_sdu has_fcs) handle] k heap) as (pdu & E & Hpdu);
    [by rewrite Ho'|by rewrite Hu'|done|done|].
  cbn [app]. rewrite E. step. do 4 eexists. split; [reflexivity|]. split_and!; try done.
  constructor; cbn; [by rewrite Ho'|by rewrite Hu'|done].
Qed.

Lemma first_complete_acknowledged a heap :
  expects_ack (ea_tx_reporter a) = true -> heap !! svc_cell a = Some (tx_raw Pending) ->
  exists heap', mark_acknowledged (ea_tx_reporter a) (mark_ack_service_first_complete a heap) = Some heap' /\
    get_state heap' (ea_tx_reporter a) = Acknowledged.
Proof.
  intros He Hc. unfold mark_acknowledged, mark_ack_service_first_complete, mark_reporter_transmitted_if_pending,
    try_mark_transmitted, mark, try_mark. rewrite He. change (assert_ true) with (Some tt). step.
  rewrite (load_lookup _ _ _ Hc), Z.eqb_refl. cbn [snd]. rewrite load_insert, decide_True, Z.eqb_refl by done.
  eexists. split; [done|]. unfold get_state. by rewrite load_insert, decide_True.
Qed.

Lemma mac_transmitted_keeps a heap c v :
  (forall r, ea_current_mac_reporter a = Some r -> tx_cell r <> c) -> heap !! c = Some v ->
  mark_ack_current_mac_transmitted a heap !! c = Some v.
Proof.
  intros Hr Hc. unfold mark_ack_current_mac_transmitted, if_reporter. destruct (ea_current_mac_reporter a) as [r|]; [|done].
  unfold mark_reporter_transmitted_if_pending, try_mark_transmitted, try_mark. destruct (_ =? _)%Z; [|done].
  cbn [snd]. by rewrite lookup_insert_ne by auto.
Qed.

(** The acknowledgement confirms the transfer, whatever the MAC reported before. *)
Lemma ack_confirms self a heap prim b :
  awaiting self a heap -> ti_pdu prim = Some b -> holds b (ack_hdr false (ea_ns a)) -> seq_bit (ea_ns a) ->
  link_of prim = expected_ack_key a ->
  exists self' conf heap',
    run_events main_carrier (self, [], heap) [EvPrim (PrimUnitdataInd prim)]
      = Some (self', [TlaTlReportInd (ea_req_handle a) TLA_REPORT_FIRST_COMPLETE_TRANSMISSION (i32 (ea_endpoint_id a));
                      TlDataConfBl conf (ea_req_handle a) TLA_REPORT_SUCCESSFUL_TRANSFER], heap') /\
    quiet self' /\ get_state heap' (ea_tx_reporter a) = Acknowledged.
Proof.
  intros (Ho & Hu & Hk & Hsub & Hdone & Hfirst & Hexp & Hcell & Hmac) Hp Hb Hn Hl.
  unfold run_events. cbn [foldM run_event rx_prim]. rewrite (receive_ack self [] prim b (ea_ns a) heap Hp Hb Hn).
  unfold process_incoming_ack. fold (link_of prim). rewrite Ho, Hl. unfold take_expected_ack_for_key. cbn [take_first].
  rewrite !bool_decide_eq_true_2 by done. cbn [andb].
  assert (Hq : quiet (with_outbound self [])) by (by constructor).
  pose proof (mac_transmitted_keeps a heap _ _ Hmac Hcell) as Hcell'.
  pose proof (first_complete_acknowledged a _ Hexp Hcell) as (h1 & E1 & H1).
  pose proof (first_complete_acknowledged a _ Hexp Hcell') as (h2 & E2 & H2).
  set (now := dltime _). assert (Er : exists act q a0 h, reconcile_umac_done_from_reporter [] a now heap = (act, q, a0, h) /\
    ((q = [] /\ h = heap /\ (a0 = a \/ a0 = ea_with_done a (Some now))) \/
     (q = push_tla_report [] (ea_req_handle a) TLA_REPORT_FIRST_COMPLETE_TRANSMISSION (ea_endpoint_id a) /\
      h = mark_ack_service_first_complete a heap /\ a0 = ea_with_first_complete (ea_with_done a (Some now)) true))).
  { unfold reconcile_umac_done_from_reporter. rewrite Hdone. cbn [ea_with_done ea_progress ea_first_complete_report_sent].
    rewrite Hfirst. destruct (ack_current_mac_state a heap) as [[]|]; do 4 eexists; (split; [reflexivity|]); tauto. }
  destruct Er as (act & q & a0 & h & Er & Hc). rewrite Er.
  assert (Hns : ea_ns a0 = ea_ns a) by (by destruct Hc as [(_ & _ & [-> | ->])|(_ & _ & ->)]). rewrite Hns, Z.eqb_refl.
  destruct Hc as [(-> & -> & Ha0)|(-> & -> & ->)].
  - rewrite (proj2 (orb_true_iff _ _)) by (right; by destruct Ha0 as [-> | ->]; cbn; rewrite Hfirst).
    unfold report_first_complete.
    assert (Hf0 : ea_first_complete_report_sent (ea_with_done a0 (Some now)) = false) by (by destruct Ha0 as [-> | ->]).
    rewrite Hf0. cbn [negb]. exists (with_outbound self []).
    destruct Ha0 as [-> | ->]; (match goal with |- context [mark_acknowledged ?r ?h] =>
      change (mark_acknowledged r h) with (mark_acknowledged (ea_tx_reporter a)
        (mark_ack_service_first_complete a (mark_ack_current_mac_transmitted a heap))) end);
      rewrite E2; step; eexists _, h2; (split; [reflexivity|done]).
  - rewrite (proj2 (orb_false_iff _ _)) by done.
    change (ea_tx_reporter (ea_with_first_complete _ _)) with (ea_tx_reporter a). rewrite E1. step.
    eexists _, _, h1. split; [reflexivity|done].
Qed.

(** C3 (a transfer on the basic link).  Between two entities that have nothing else to send, a
    TL-SDU within N.251 octets requested at one is sent in the next slot; the entity that receives
    the PDU delivers exactly that TL-SDU to its user, unless
    its N(S) repeats the last one received, and acknowledges it in its next slot; on the
    acknowledgement the sender confirms the request with success, its receipt says
    acknowledged and nothing is left to send, whatever state the MAC has given the receipt
    of its attempt by then. *)
Theorem basic_link_transfer self heap prim peer peer_heap :
  quiet self -> inv self heap -> data_req_ok self heap prim -> tl_sdu_exceeds_n251 (dr_tl_sdu prim) (dr_fcs_flag prim) = false ->
  quiet peer ->
  let ns := default 0%Z (link_send_seq self !! mkKey (dr_main_address prim) (dr_endpoint_id prim)) in
  exists self1 r heap1,
    run_events main_carrier (self, [], heap) [EvPrim (PrimDataReq prim); EvTickEnd]
      = Some (self1, [TlaTlReportInd (dr_req_handle prim) TLA_REPORT_NO_SPECIFIC_REPORT (i32 (dr_endpoint_id prim));
                      TmaUnitdataReqMsg r], heap1) /\
    tr_main_address r = dr_main_address prim /\
    forall ind, ti_pdu ind = Some (tr_pdu r) -> ~ repeats peer (link_of ind) ns ->
    exists peer' tl_ind handle reply,
      run_events main_carrier (peer, [], peer_heap) [EvPrim (PrimUnitdataInd ind); EvTickEnd]
        = Some (peer', [TlaTlDataIndBl tl_ind handle; TmaUnitdataReqMsg reply], peer_heap) /\
      quiet peer' /\ sdu_bits (in_tl_sdu tl_ind) = remaining (dr_tl_sdu prim) /\
      mkKey (tr_main_address reply) (tr_endpoint_id reply) = link_of ind /\
      forall ack heap2, ti_pdu ack = Some (tr_pdu reply) -> link_of ack = mkKey (dr_main_address prim) (dr_endpoint_id prim) ->
        (forall a, outbound_messages self1 = [a] -> heap2 !! svc_cell a = heap1 !! svc_cell a) ->
      exists self2 conf heap3,
        run_events main_carrier (self1, [], heap2) [EvPrim (PrimUnitdataInd ack)]
          = Some (self2, [TlaTlReportInd (dr_req_handle prim) TLA_REPORT_FIRST_COMPLETE_TRANSMISSION (i32 (dr_endpoint_id prim));
                          TlDataConfBl conf (dr_req_handle prim) TLA_REPORT_SUCCESSFUL_TRANSFER], heap3) /\
        quiet self2 /\ forall x, dr_tx_reporter prim = Some x -> get_state heap3 x = Acknowledged.
Proof.
  intros Hq I Hok Hx Hqp ns.
  destruct (request_sent self heap prim Hq I Hok Hx) as (self1 & a & r & heap1 & E1 & Haw & Hkey & Hh & Hep & Hns & Had & Hpdu & Hrec).
  fold ns in Hns, Hpdu. exists self1, r, heap1. split; [done|]. split; [done|]. intros ind Hi Hrep.
  assert (Hn : seq_bit ns).
  { unfold ns. destruct (link_send_seq self !! _) as [v|] eqn:E; cbn; [|by unfold seq_bit]. by apply (iv_send_seq _ _ I _ _ E). }
  destruct (data_answered peer peer_heap ind _ _ ns _ Hqp Hi Hpdu Hn Hrep) as (peer' & tl & h & reply & E2 & Hq' & Hs & Ha & He & Hr).
  exists peer', tl, h, reply. split; [done|]. split; [done|]. split; [done|]. split; [by rewrite Ha, He|].
  intros ack heap2 Hack Hl Hheap. pose proof Haw as (Ho & Hu & Hk & Hsub & Hdone & Hfirst & Hexp & Hcell & Hmac).
  assert (Haw2 : awaiting self1 a heap2) by (unfold awaiting; split_and!; try done; by rewrite (Hheap a Ho)).
  destruct (ack_confirms self1 a heap2 ack (tr_pdu reply) Haw2 Hack) as (self2 & conf & heap3 & E3 & Hq2 & Hst);
    [by rewrite Hns|by rewrite Hns|by rewrite Hkey|].
  rewrite Hh, Hep in E3. exists self2, conf, heap3. split; [done|]. split; [done|]. intros x Hx'. by rewrite <- (Hrec x Hx').
Qed.
End transfer.

Lemma basic_link_transfer_witness :
  exists self1 r heap1,
    run_events 1 initial [EvPrim (PrimDataReq (tl_request 7 0 [true; false; true])); EvTickEnd]
      = Some (self1, [TlaTlReportInd 7 TLA_REPORT_NO_SPECIFIC_REPORT (i32 1); TmaUnitdataReqMsg r], heap1) /\
    tr_main_address r = station.
Proof.
  destruct (basic_link_transfer 1 Llc_new ∅ (tl_request 7 0 [true; false; true]) Llc_new ∅)
    as (self1 & r & heap1 & E & Ha & _).
  - by constructor.
  - apply inv_initial.
  - apply tl_request_ok.
  - vm_compute. reflexivity.
  - by constructor.
  - exists self1, r, heap1. split; [exact E|exact Ha].
Defined.

(** ** Emergency pre-emption *)

(** Two entities on one link, each of the sender's PDUs that is carried being answered at
    once. *)
Inductive link_step :=
  | Ask (req_handle prio : Z) (sdu : list bool)
  | Slot
  | Carry.

Definition over_the_air (r : TmaUnitdataReq) : TmaUnitdataInd :=
  mkTmaUnitdataInd (Some (tr_pdu r)) (tr_main_address r) 0 (tr_endpoint_id r) None None 0 false None None.
Definition last_request (queue : list LlcMsg) : option TmaUnitdataReq :=
  last (omap (fun m => match m with TmaUnitdataReqMsg r => Some r | _ => None end) queue).

Definition link_run (main_carrier : Z) (ends : world * world) (s : link_step) : option (world * world) :=
  let '(sender, receiver) := ends in
  match s with
  | Ask h prio sdu => sender ← run_event main_carrier sender (EvPrim (PrimDataReq (tl_request h prio sdu))); Some (sender, receiver)
  | Slot => sender ← run_event main_carrier sender EvTickEnd; Some (sender, receiver)
  | Carry =>
      r ← last_request sender.1.2;
      receiver ← run_events main_carrier receiver [EvPrim (PrimUnitdataInd (over_the_air r)); EvTickEnd];
      r ← last_request receiver.1.2;
      sender ← run_event main_carrier sender (EvPrim (PrimUnitdataInd (over_the_air r)));
      Some (sender, receiver)
  end.

Definition confirmed (queue : list LlcMsg) : list Z :=
  omap (fun m => match m with
                 | TlDataConfBl _ h r => if (r =? TLA_REPORT_SUCCESSFUL_TRANSFER)%Z then Some h else None
                 | _ => None end) queue.
Definition delivered (queue : list LlcMsg) : list (list bool) :=
  omap (fun m => match m with TlaTlDataIndBl ind _ => Some (sdu_bits (in_tl_sdu ind)) | _ => None end) queue.

(** An emergency message costs a waiting one.  Two TL-SDUs wait on a link, the second
    more urgent and so first with the MAC; an emergency message then takes its place.  The
    N(S) dealt out anew no longer alternate: the two go out with the same one, so the
    receiver takes the last for a repetition, yet all three are confirmed with success. *)
Example emergency_preemption_loses_sdu :
  (ends ← foldM (link_run 1)
     [Ask 1 0 [true; false; false]; Ask 2 5 [false; true; false]; Slot; Ask 3 7 [true; true; true]; Slot;
      Carry; Slot; Carry; Slot; Carry] (initial, initial);
  Some (confirmed ends.1.1.2, delivered ends.2.1.2)) = Some ([3%Z; 2%Z; 1%Z], [[true; true; true]; [false; true; false]]).
Proof. vm_compute. reflexivity. Qed.
