(* ===== verification/Typed.v ===== *)
(** * Optional elements of layer 3 PDUs (crates/tetra-core/src/typed_pdu_fields.rs)

    After the mandatory type 1 fields of a PDU an o-bit says whether any optional element
    follows.  Type 2 elements each have a presence bit (p-bit); type 3 and type 4 elements
    are announced by an m-bit, a 4-bit identifier and an 11-bit length, and an m-bit of 0
    ends the PDU.  An absent type 3 or 4 element is recognised by looking ahead at what
    comes next, so that reading one depends on what follows. *)

From Stdlib Require Import ZArith Lia ZifyNat.
From stdpp Require Import strings.
From S2P Require Import Prelude.
From S2P Require Import BitBuffer.
From S2P Require Import BitBufferFacts.
From S2P Require Import Codec.
From S2P Require Import MacFields.
From S2P Require Import MacPdus.
From S2P Require Import Robust.

(** [data]: up to 128 bits of a type 3 element, 64 of a type 4 element. *)
Record Type3FieldGeneric := mkType3 { t3_field_id : Z; t3_len : nat; t3_data : Z }.
Record Type4FieldGeneric := mkType4 { t4_field_id : Z; t4_len : nat; t4_elems : nat; t4_data : Z }.

(** ** Delimiters *)

Definition read_delimiter (name : string) : M bool := v ← read_field 1 name; mret (v =? 1)%Z.
Definition read_obit : M bool := read_delimiter "obit".
Definition read_pbit : M bool := read_delimiter "pbit".
Definition read_mbit : M bool := read_delimiter "mbit".
Definition write_obit (val : Z) : M unit := write_bit val.
Definition write_pbit (val : Z) : M unit := write_bit val.
Definition write_mbit (val : Z) : M unit := write_bit val.

(** [obit = if obit { buffer.read_field(1, "trailing_obit")? == 1 } else { obit };
    if obit { return Err(InvalidTrailingMbitValue) }] *)
Definition read_trailing (obit : bool) : M unit :=
  obit ← (if obit then read_delimiter "trailing_obit" else mret obit);
  if (obit : bool) then fail InvalidTrailingMbitValue else mret tt.

(** ** Type 2 *)

Definition parse_type2_struct {T} (obit : bool) (parser : M T) : M (option T) :=
  if negb obit then mret None
  else
    present ← read_pbit;
    if (present : bool) then value ← parser; mret (Some value) else mret None.

Definition parse_type2_generic (obit : bool) (num_bits : nat) (field_name : string) : M (option Z) :=
  if negb obit then mret None
  else
    present ← read_pbit;
    if (present : bool) then v ← read_field num_bits field_name; mret (Some v) else mret None.

Definition write_type2_generic (obit : bool) (value : option Z) (len : nat) : M unit :=
  if negb obit then (if bool_decide (value = None) then mret tt else fun _ => Panic)
  else match value with
       | Some v => write_pbit 1;; write_bits v len
       | None => write_pbit 0
       end.

Definition write_type2_struct {T} (obit : bool) (value : option T) (writer : T -> M unit) : M unit :=
  match value with
  | Some v => if negb obit then (fun _ => Panic) else write_pbit 1;; writer v
  | None => if negb obit then mret tt else write_pbit 0
  end.

(** ** Type 3 *)

(** Whether the next element is the expected one; the cursor stays. *)
Definition peek_type34_mbit_and_id (expected_id : Z) : M bool := fun buffer =>
  match peek_bits buffer 1 with
  | None => Panic
  | Some None => Err (BufferEnded (Some "peek_type34_mbit_and_id mbit")) buffer
  | Some (Some mbit) =>
      if (mbit =? 0)%Z then Ok false buffer
      else if (mbit =? 1)%Z then
        match peek_bits_posoffset buffer 1 4 with
        | None => Panic
        | Some (Some id) => Ok (id =? expected_id)%Z buffer
        | Some None => Err (BufferEnded (Some "peek_type34_mbit_and_id id_bits")) buffer
        end
      else Panic
  end.

Definition parse_type3_generic (obit : bool) (id : Z) : M (option Type3FieldGeneric) :=
  if negb obit then mret None
  else
    field_present ← peek_type34_mbit_and_id id;
    if negb field_present then mret None
    else
      seek_rel 5;;
      len ← read_field 11 "parse_type3_generic len_bits";
      let len_bits := Z.to_nat len in
      let read_bits := if 128 <? len_bits then 128 else len_bits in
      data ← (if read_bits <=? 64 then read_field read_bits "parse_type3_generic data"
              else
                let hi_bits := read_bits - 64 in
                hi ← read_field hi_bits "parse_type3_generic data (high)";
                lo ← read_field 64 "parse_type3_generic data (low)";
                mret (Z.lor (Z.shiftl hi 64) lo));
      (if 128 <? len_bits then seek_rel (Z.of_nat len_bits - 128) else mret tt);;
      mret (Some (mkType3 id len_bits data)).

Definition get_pos_m : M nat := fun buffer => Ok (get_pos buffer) buffer.
Definition get_raw_pos_m : M nat := fun buffer => Ok (pos buffer) buffer.

Definition parse_type3_struct {T} (obit : bool) (id : Z) (parser : M T) : M (option T) :=
  if negb obit then mret None
  else
    field_present ← peek_type34_mbit_and_id id;
    if negb field_present then mret None
    else
      seek_rel 5;;
      len ← read_field 11 "parse_type3_struct len_bits";
      let len_bits := Z.to_nat len in
      start_pos ← get_pos_m;
      result ← parser;
      end_pos ← get_pos_m;
      if negb (start_pos + len_bits =? end_pos) then fail (InconsistentLength len_bits (end_pos - start_pos))
      else mret (Some result).

Definition write_type34_header_generic (field_type : Z) : M unit :=
  write_mbit 1;; write_bits field_type 4.

(** The length is filled in after the element has been written. *)
Definition write_type3_struct {T} (obit : bool) (value : option T) (id : Z) (writer : T -> M unit) : M unit :=
  if negb obit && bool_decide (is_Some (value)) then fail (InvalidValue "write_type3_struct" id)
  else match value with
       | Some elem =>
           write_type34_header_generic id;;
           pos_len_field ← get_raw_pos_m;
           write_bits 0 11;;
           writer elem;;
           pos_end ← get_raw_pos_m;
           let len_bits := Z.of_nat (pos_end - pos_len_field - 11) in
           set_raw_pos pos_len_field;;
           write_bits len_bits 11;;
           set_raw_pos pos_end
       | None => mret tt
       end.

Definition write_type3_generic (obit : bool) (value : option Type3FieldGeneric) (id : Z) : M unit :=
  if negb obit && bool_decide (is_Some (value)) then fail (InvalidValue "write_type3_generic" id)
  else match value with
       | Some elem =>
           write_type34_header_generic id;;
           write_bits (Z.of_nat (t3_len elem)) 11;;
           if t3_len elem <=? 64 then write_bits (u64 (t3_data elem)) (t3_len elem)
           else
             let hi_bits := t3_len elem - 64 in
             let hi := u64 (Z.shiftr (t3_data elem) 64) in
             let lo := u64 (t3_data elem) in
             write_bits hi hi_bits;; write_bits lo 64
       | None => mret tt
       end.

(** ** Type 4 *)

(** The number of elements and the bits they take. *)
Definition parse_type4_header (id : Z) : M (option (nat * nat)) :=
  field_present ← peek_type34_mbit_and_id id;
  if negb field_present then mret None
  else
    seek_rel 5;;
    len ← read_field 11 "parse_type4_header len_bits";
    elems ← read_field 6 "parse_type4_header num_elems";
    let len_bits := Z.to_nat len in
    let num_elems := Z.to_nat elems in
    if len_bits <? 6 then fail (InconsistentLength 6 len_bits)
    else if num_elems =? 0 then fail (InvalidValue "parse_type4_header num_elems" 0)
    else mret (Some (num_elems, len_bits - 6)).

(** [for _ in 0..num_elems { elems.push(parser(buffer)?) }] *)
Fixpoint parse_elems {T} (num_elems : nat) (parser : M T) : M (list T) :=
  match num_elems with
  | O => mret []
  | S n => elem ← parser; elems ← parse_elems n parser; mret (elem :: elems)
  end.

Definition parse_type4_struct {T} (obit : bool) (id : Z) (parser : M T) : M (option (list T)) :=
  if negb obit then mret None
  else
    header ← parse_type4_header id;
    match header with
    | None => mret None
    | Some (num_elems, len_bits) =>
        start_pos ← get_pos_m;
        elems ← parse_elems num_elems parser;
        end_pos ← get_pos_m;
        if negb (start_pos + len_bits =? end_pos) then fail (InconsistentLength len_bits (end_pos - start_pos))
        else mret (Some elems)
    end.

Definition parse_type4_generic (obit : bool) (id : Z) : M (option Type4FieldGeneric) :=
  if negb obit then mret None
  else
    header ← parse_type4_header id;
    match header with
    | None => mret None
    | Some (num_elems, len_bits) =>
        let read_bits := if 64 <? len_bits then 64 else len_bits in
        val ← read_field read_bits "parse_type4_header";
        (if 64 <? len_bits then seek_rel (Z.of_nat len_bits - 64) else mret tt);;
        mret (Some (mkType4 id len_bits num_elems val))
    end.

(** [for elem in elems { writer(elem, &mut payload)? }] *)
Fixpoint write_elems {T} (elems : list T) (writer : T -> M unit) : M unit :=
  match elems with [] => mret tt | elem :: elems => writer elem;; write_elems elems writer end.

(** [buffer.copy_bits(&mut payload, payload_len)] *)
Definition copy_payload (payload : BitBuffer) (payload_len : nat) : M unit := fun buffer =>
  match copy_bits payload_len buffer payload with
  | Ok _ (buffer, _) => Ok tt buffer
  | Err e (buffer, _) => Err e buffer
  | Panic => Panic
  end.

Definition write_type4_struct {T} (obit : bool) (value : option (list T)) (id : Z) (writer : T -> M unit) : M unit :=
  if negb obit && bool_decide (is_Some (value)) then fail (InvalidValue "write_type4_struct" id)
  else match value with
       | Some elems =>
           if length elems =? 0 then fail (InvalidValue "write_type4_struct elems" 0)
           else if 63 <? length elems then fail (InvalidValue "write_type4_struct elems" (Z.of_nat (length elems)))
           else
             match write_elems elems writer (new_autoexpand (Nat.max (length elems * 64) 64)) with
             | Err e _ => fail e
             | Panic => fun _ => Panic
             | Ok _ payload =>
                 let payload_len := get_len payload in
                 let len_bits := payload_len + 6 in
                 if 2047 <? len_bits then fail (InvalidValue "write_type4_struct len" (Z.of_nat len_bits))
                 else
                   write_type34_header_generic id;;
                   write_bits (Z.of_nat len_bits) 11;;
                   write_bits (Z.of_nat (length elems)) 6;;
                   match seek 0 payload with
                   | Ok _ payload => copy_payload payload payload_len
                   | Err e _ => fail e
                   | Panic => fun _ => Panic
                   end
             end
       | None => mret tt
       end.

Definition write_type4_todo (obit : bool) (value : option Type4FieldGeneric) (id : Z) : M unit :=
  if negb obit && bool_decide (is_Some (value)) then fail (InvalidValue "write_type4_todo" id)
  else match value with
       | Some elem =>
           if negb (t4_field_id elem =? id)%Z then fail (InvalidValue "write_type4_todo field_id" (t4_field_id elem))
           else if 64 <? t4_len elem then fail (NotImplemented (Some "write_type4_todo truncated_payload"))
           else if 2047 <? t4_len elem + 6 then fail (InvalidValue "write_type4_todo len" (Z.of_nat (t4_len elem)))
           else if 63 <? t4_elems elem then fail (InvalidValue "write_type4_todo elems" (Z.of_nat (t4_elems elem)))
           else if (t4_len elem <? 64) && (Z.shiftl 1 (Z.of_nat (t4_len elem)) <=? t4_data elem)%Z
           then fail (InvalidValue "write_type4_todo data" (t4_data elem))
           else
             write_type34_header_generic id;;
             write_bits (Z.of_nat (t4_len elem + 6)) 11;;
             write_bits (Z.of_nat (t4_elems elem)) 6;;
             write_bits (t4_data elem) (t4_len elem)
       | None => mret tt
       end.

(** ** What the PDUs share *)

(** [expect_pdu_type!] *)
Definition expect_pdu_type (n : nat) (expected : Z) : M unit :=
  pdu_type ← read_field n "pdu_type";
  if (pdu_type =? expected)%Z then mret tt else fail (InvalidPduType expected pdu_type).

(** [T::try_from(buffer.read_field(n, name)?).unwrap()] *)
Definition read_enum_unwrap (T : Type) `{WireEnum T} (n : nat) (name : string) : M T :=
  val ← read_field n name;
  panicking (try_from val).

(** [self.validate()?] *)
Definition validated (r : unit + PduParseErr) (k : M unit) : M unit :=
  match r with inl _ => k | inr e => fail e end.

(** [if v > max { return Err(InvalidValue { .. }) }] *)
Definition at_most (name : string) (max v : Z) : unit + PduParseErr :=
  if (max <? v)%Z then inr (InvalidValue name v) else inl tt.

Definition is_some {T} (o : option T) : bool := match o with Some _ => true | None => false end.

(** [if let Some(v) = o { .. }] *)
Definition write_some {T} (writer : T -> M unit) (o : option T) : M unit :=
  match o with Some v => writer v | None => mret tt end.

(** [if cond { Some(buffer.read_field(n, name)?) } else { None }] *)
Definition read_if (cond : bool) (n : nat) (name : string) : M (option Z) :=
  if cond then v ← read_field n name; mret (Some v) else mret None.

(** [o.ok_or(FieldNotPresent { .. })?] and what follows *)
Definition required {T} (name : string) (o : option T) (k : T -> unit + PduParseErr) : unit + PduParseErr :=
  match o with Some v => k v | None => inr (FieldNotPresent (Some name)) end.

(** [if o.is_some() { return Err(Inconsistency { .. }) }] *)
Definition require_absent {T} (name reason : string) (o : option T) : unit + PduParseErr :=
  if is_some o then inr (Inconsistency name reason) else inl tt.

(** [pdu.validate()?; Ok(pdu)] *)
Definition checked {T} (r : unit + PduParseErr) (x : T) : M T :=
  match r with inl _ => mret x | inr e => fail e end.

(** A type 2 element that holds an enumeration: [T::try_from(val).map_err(..)?] of the value
    that [parse_type2_generic] returns. *)
Definition parse_type2_enum (T : Type) `{WireEnum T} (obit : bool) (n : nat) (name : string) : M (option T) :=
  val ← parse_type2_generic obit n name;
  match val with
  | None => mret None
  | Some val => match try_from val with Some x => mret (Some x) | None => fail (InvalidValue name val) end
  end.

(** ** Images *)

Definition img2 {T} (image : T -> list bool) (o : option T) : list bool :=
  match o with Some v => true :: image v | None => [false] end.

(** m-bit, identifier, length, element *)
Definition elem_img (id : Z) (body : list bool) : list bool :=
  [true] ++ val_bits 4 id ++ val_bits 11 (Z.of_nat (length body)) ++ body.
Definition img3 {T} (id : Z) (image : T -> list bool) (o : option T) : list bool :=
  match o with Some v => elem_img id (image v) | None => [] end.
Definition t3_body (f : Type3FieldGeneric) : list bool := val_bits (t3_len f) (t3_data f).

(** A generic element that is stored completely. *)
Record valid3 (id : Z) (f : Type3FieldGeneric) : Prop := {
  v3_id : t3_field_id f = id;
  v3_len : t3_len f <= 128;
  v3_data : (0 <= t3_data f < 2 ^ Z.of_nat (t3_len f))%Z
}.
Definition option_all {T} (P : T -> Prop) (o : option T) : Prop := forall x, o = Some x -> P x.

(** What comes next is not element [id]. *)
Inductive absent (id : Z) : list bool -> Prop :=
  | absent_end r : absent id (false :: r)
  | absent_other id' r : (0 <= id' < 16)%Z -> id' <> id -> absent id (true :: val_bits 4 id' ++ r).

Lemma absent_img3 {T} id id' (image : T -> list bool) o rest :
  (0 <= id' < 16)%Z -> id' <> id -> absent id rest -> absent id (img3 id' image o ++ rest).
Proof.
  intros Hi Hne Hr. destruct o as [v|]; [|done]. cbn [img3]. unfold elem_img. cbn [app]. rewrite <- app_assoc.
  by apply absent_other.
Qed.

(** ** Delimiters *)

Lemma read_delimiter_parses name x rest : parses (read_delimiter name) [x] rest x.
Proof.
  unfold read_delimiter. replace [x] with (val_bits 1 (b2z x)) by (by destruct x).
  replace x with (b2z x =? 1)%Z at 2 by (by destruct x).
  apply (parses_fmap _ (fun v => (v =? 1)%Z)). apply (read_field_val 1 name (b2z x)); [by destruct x|lia].
Qed.

Lemma write_delimiter_emits x : emits (write_bit (b2z x)) tt [x].
Proof. apply write_bit_emits. Qed.

Lemma read_trailing_parses rest : parses (read_trailing true) [false] rest tt.
Proof.
  unfold read_trailing. rewrite <- (app_nil_r [false]). eapply parses_bind; [apply read_delimiter_parses|]. apply parses_ret.
Qed.

(** The end of a PDU, with and without optional elements. *)
Lemma trailing_end {T} (x : T) rest : parses (read_trailing true;; mret x) [false] rest x.
Proof. rewrite <- (app_nil_r [false]). eapply parses_bind; [apply read_trailing_parses|]. apply parses_ret. Qed.

Lemma no_trailing_end {T} (x : T) rest : parses (read_trailing false;; mret x) [] rest x.
Proof. apply (parses_ret x). Qed.

(** A PDU without optional elements. *)
Lemma plain_end {T} (x : T) rest : parses (obit ← read_obit; read_trailing obit;; mret x) [false] rest x.
Proof. rewrite <- (app_nil_r [false]). eapply parses_bind; [apply read_delimiter_parses|]. apply (parses_ret x). Qed.

(** ** Type 2 *)

Lemma write_type2_struct_emits {T} (image : T -> list bool) o writer :
  (forall v, o = Some v -> emits (writer v) tt (image v)) ->
  emits (write_type2_struct true o writer) tt (img2 image o).
Proof.
  intros H. destruct o as [v|]; cbn.
  - change (true :: image v) with ([true] ++ image v).
    apply emits_bind_tt; [apply (write_delimiter_emits true)|by apply H].
  - apply (write_delimiter_emits false).
Qed.

Lemma write_type2_generic_emits o n :
  option_all (fun v => 0 <= v < 2 ^ Z.of_nat n)%Z o -> n <= 64 ->
  emits (write_type2_generic true o n) tt (img2 (val_bits n) o).
Proof.
  intros H Hn. destruct o as [v|]; cbn.
  - change (true :: val_bits n v) with ([true] ++ val_bits n v).
    apply emits_bind_tt; [apply (write_delimiter_emits true)|apply write_bits_emits; [by apply H|done]].
  - apply (write_delimiter_emits false).
Qed.

Lemma parse_type2_struct_parses {T} (image : T -> list bool) (parser : M T) o rest :
  (forall v, o = Some v -> parses parser (image v) rest v) ->
  parses (parse_type2_struct true parser) (img2 image o) rest o.
Proof.
  intros H. unfold parse_type2_struct. cbn [negb]. destruct o as [v|]; cbn [img2].
  - change (true :: image v) with ([true] ++ image v). eapply parses_bind; [apply read_delimiter_parses|].
    apply (parses_fmap parser Some). by apply H.
  - rewrite <- (app_nil_r [false]). eapply parses_bind; [apply read_delimiter_parses|]. apply parses_ret.
Qed.

Lemma parse_type2_generic_parses o n name rest :
  option_all (fun v => 0 <= v < 2 ^ Z.of_nat n)%Z o -> n <= 64 ->
  parses (parse_type2_generic true n name) (img2 (val_bits n) o) rest o.
Proof.
  intros H Hn. apply (parse_type2_struct_parses (val_bits n) (read_field n name)).
  intros v Hv. apply read_field_val; [by apply H|done].
Qed.

(** ** The header of a type 3 or 4 element *)

Lemma peek_header id id' rest :
  (0 <= id' < 16)%Z -> parses (peek_type34_mbit_and_id id) [] (true :: val_bits 4 id' ++ rest) (id' =? id)%Z.
Proof.
  intros Hi b W E. cbn in E. cbn [length]. rewrite Nat.add_0_r. unfold peek_type34_mbit_and_id.
  replace (with_pos b (pos b)) with b by (by destruct b).
  rewrite peek_here by (done || lia). change 1%Z with (Z.of_nat 1). rewrite peek_ahead by (done || lia). rewrite E.
  cbn [length]. rewrite length_app, length_val_bits. bfalse (S (4 + length rest) <? 1). bfalse (S (4 + length rest) <? 1 + 4).
  change (bits_val (take 1 (true :: val_bits 4 id' ++ rest))) with 1%Z. cbn [drop].
  change (1 =? 0)%Z with false. change (1 =? Z.of_nat 1)%Z with true. cbn iota.
  rewrite drop_0, take_app_length' by done. by rewrite bits_val_val_bits_small by lia.
Qed.

Lemma peek_absent id rest : absent id rest -> parses (peek_type34_mbit_and_id id) [] rest false.
Proof.
  intros [r|id' r Hi Hne].
  - intros b W E. cbn in E. cbn [length]. rewrite Nat.add_0_r. unfold peek_type34_mbit_and_id.
    replace (with_pos b (pos b)) with b by (by destruct b). rewrite peek_here by (done || lia). rewrite E.
    cbn [length]. by bfalse (S (length r) <? 1).
  - replace false with (id' =? id)%Z by (by apply Z.eqb_neq). by apply peek_header.
Qed.

Lemma seek_rel_parses bs rest n : n = Z.of_nat (length bs) -> parses (seek_rel n) bs rest tt.
Proof.
  intros -> b W E. destruct (parses_advance b bs rest W E) as (_ & _ & Hl). pose proof (wf_start _ W). unfold seek_rel.
  pose proof (wf_pos _ W). btrue (Z.of_nat (start b) <=? Z.of_nat (pos b) + Z.of_nat (length bs))%Z.
  btrue (Z.of_nat (pos b) + Z.of_nat (length bs) <=? Z.of_nat (end_ b))%Z. cbn. do 2 f_equal. lia.
Qed.

(** Reading behind the header, with the element there or not. *)
Lemma header_parses {T} id (k : M (option T)) (o : option T) img rest :
  (0 <= id < 16)%Z -> (o = None -> img = [] /\ absent id rest) ->
  (forall v, o = Some v -> exists body, img = [true] ++ val_bits 4 id ++ body /\ parses k body rest o) ->
  parses (field_present ← peek_type34_mbit_and_id id; if negb field_present then mret None else seek_rel 5;; k) img rest o.
Proof.
  intros Hi Hn Hs. rewrite <- (app_nil_l img). destruct o as [v|].
  - destruct (Hs v eq_refl) as (body & -> & Hk). eapply parses_bind.
    + cbn [app]. rewrite <- app_assoc. by apply peek_header.
    + rewrite Z.eqb_refl. cbn [negb]. rewrite app_assoc. eapply parses_bind; [|exact Hk]. by apply seek_rel_parses.
  - destruct (Hn eq_refl) as [-> Ha]. eapply parses_bind; [by apply peek_absent|]. apply parses_ret.
Qed.

Lemma read_len_parses (body : list bool) name rest :
  length body < 2048 -> parses (read_field 11 name) (val_bits 11 (Z.of_nat (length body))) rest (Z.of_nat (length body)).
Proof. intros H. apply read_field_val; lia. Qed.

Lemma header_emits id : (0 <= id < 16)%Z -> emits (write_type34_header_generic id) tt ([true] ++ val_bits 4 id).
Proof.
  intros Hi. apply emits_bind_tt; [apply (write_delimiter_emits true)|]. apply write_bits_emits; lia.
Qed.

(** ** Generic type 3 elements *)

Lemma val_bits_split n m v :
  val_bits (n + m) v = val_bits n (Z.shiftr v (Z.of_nat m)) ++ val_bits m v.
Proof.
  induction n as [|n IH]; [done|]. cbn [Nat.add]. rewrite !val_bits_S, IH. cbn [app]. f_equal.
  rewrite Z.shiftr_spec by lia. f_equal. lia.
Qed.

Lemma val_bits_low n v : n <= 64 -> val_bits n (u64 v) = val_bits n v.
Proof.
  intros Hn. apply list_eq. intros i. destruct (decide (i < n)) as [Hi|Hi].
  - rewrite !lookup_val_bits by done. f_equal. unfold u64. rewrite Z.mod_pow2_bits_low by lia. done.
  - rewrite !lookup_ge_None_2; [done|rewrite length_val_bits; lia..].
Qed.

Lemma write_low_emits v n : n <= 64 -> (0 <= u64 v < 2 ^ Z.of_nat n)%Z -> emits (write_bits (u64 v) n) tt (val_bits n v).
Proof. intros Hn Hv. rewrite <- val_bits_low by done. by apply write_bits_emits. Qed.

Lemma shiftr_high v n : 64 < n -> (0 <= v < 2 ^ Z.of_nat n)%Z -> (0 <= Z.shiftr v 64 < 2 ^ Z.of_nat (n - 64))%Z.
Proof.
  intros Hn Hv. rewrite Z.shiftr_div_pow2 by lia. split; [apply Z.div_pos; lia|]. apply Z.div_lt_upper_bound; [lia|].
  rewrite <- Z.pow_add_r by lia. replace (64 + Z.of_nat (n - 64))%Z with (Z.of_nat n) by lia. lia.
Qed.

Lemma write_type3_generic_emits id o :
  (0 <= id < 16)%Z -> option_all (valid3 id) o -> emits (write_type3_generic true o id) tt (img3 id t3_body o).
Proof.
  intros Hi Ho. unfold write_type3_generic. cbn [negb andb]. destruct o as [f|]; [|apply emits_ret].
  destruct (Ho f eq_refl) as [Hid Hl Hd]. cbn [img3]. unfold elem_img, t3_body. rewrite length_val_bits, app_assoc.
  apply emits_bind_tt; [by apply header_emits|]. apply emits_bind_tt; [apply write_bits_emits; lia|].
  destruct (Nat.leb_spec (t3_len f) 64) as [H64|H64].
  - apply write_low_emits; [done|]. unfold u64. rewrite Z.mod_small; [done|].
    split; [lia|]. apply Z.lt_le_trans with (2 ^ Z.of_nat (t3_len f))%Z; [lia|]. apply Z.pow_le_mono_r; lia.
  - replace (val_bits (t3_len f) (t3_data f))
      with (val_bits (t3_len f - 64) (Z.shiftr (t3_data f) 64) ++ val_bits 64 (t3_data f))
      by (rewrite <- (val_bits_split (t3_len f - 64) 64); f_equal; lia).
    assert (Hs : (0 <= Z.shiftr (t3_data f) 64 < 2 ^ Z.of_nat (t3_len f - 64))%Z) by (apply shiftr_high; [lia|done]).
    apply emits_bind_tt; apply write_low_emits; try lia.
    + unfold u64. rewrite Z.mod_small; [done|]. split; [lia|].
      apply Z.lt_le_trans with (2 ^ Z.of_nat (t3_len f - 64))%Z; [lia|]. apply Z.pow_le_mono_r; lia.
    + unfold u64. apply Z.mod_pos_bound. lia.
Qed.

Lemma lor_shiftl hi lo n : (0 <= n)%Z -> (0 <= lo < 2 ^ n)%Z -> Z.lor (Z.shiftl hi n) lo = (hi * 2 ^ n + lo)%Z.
Proof.
  intros H0 H. rewrite <- Z.add_lor_land, Z.shiftl_mul_pow2 by lia.
  replace (Z.land (hi * 2 ^ n) lo) with 0%Z; [lia|]. symmetry. apply Z.bits_inj'. intros i Hi.
  rewrite Z.land_spec, Z.bits_0. destruct (Z.lt_ge_cases i n).
  - by rewrite Z.mul_pow2_bits_low.
  - destruct (Z.eq_dec lo 0%Z) as [->|]; [by rewrite Z.bits_0, andb_false_r|].
    rewrite (Z.bits_above_log2 lo i), andb_false_r; [done|lia|]. apply Z.log2_lt_pow2; [lia|].
    apply Z.lt_le_trans with (2 ^ n)%Z; [lia|]. apply Z.pow_le_mono_r; lia.
Qed.

Lemma parse_type3_generic_parses id o rest :
  (0 <= id < 16)%Z -> option_all (valid3 id) o -> (o = None -> absent id rest) ->
  parses (parse_type3_generic true id) (img3 id t3_body o) rest o.
Proof.
  intros Hi Ho Ha. unfold parse_type3_generic. cbn [negb]. apply header_parses; [done|intros ->; split; [done|by apply Ha]|].
  intros f ->. destruct (Ho f eq_refl) as [Hid Hl Hd]. eexists. split; [reflexivity|].
  assert (Hb : length (t3_body f) = t3_len f) by apply length_val_bits.
  eapply parses_bind; [apply read_len_parses; lia|]. rewrite Nat2Z.id, Hb. cbv zeta. bfalse (128 <? t3_len f).
  rewrite <- (app_nil_r (t3_body f)). eapply parses_bind; [|].
  2:{ cbn beta. rewrite <- (app_nil_l []). eapply parses_bind; [apply parses_ret|]. rewrite <- Hid.
      replace (Some f) with (Some (mkType3 (t3_field_id f) (t3_len f) (t3_data f))) by (by destruct f). apply parses_ret. }
  unfold t3_body. destruct (Nat.leb_spec (t3_len f) 64) as [H64|H64]; [by apply read_field_val|].
  replace (val_bits (t3_len f) (t3_data f))
    with (val_bits (t3_len f - 64) (Z.shiftr (t3_data f) 64) ++ val_bits 64 (t3_data f))
    by (rewrite <- (val_bits_split (t3_len f - 64) 64); f_equal; lia).
  assert (Hs : (0 <= Z.shiftr (t3_data f) 64 < 2 ^ Z.of_nat (t3_len f - 64))%Z) by (apply shiftr_high; [lia|done]).
  eapply parses_bind; [apply read_field_val; [exact Hs|lia]|]. rewrite <- val_bits_low by lia.
  assert (Hu : (0 <= u64 (t3_data f) < 2 ^ 64)%Z) by (unfold u64; apply Z.mod_pos_bound; lia).
  assert (E : Z.lor (Z.shiftl (Z.shiftr (t3_data f) 64) 64) (u64 (t3_data f)) = t3_data f).
  { rewrite lor_shiftl by lia. rewrite Z.shiftr_div_pow2 by lia. unfold u64. rewrite Z.mul_comm. symmetry. apply Z.div_mod. lia. }
  eassert (H : parses _ (val_bits 64 (u64 (t3_data f))) rest _).
  { apply (parses_fmap (read_field 64 "parse_type3_generic data (low)")
      (fun lo => Z.lor (Z.shiftl (Z.shiftr (t3_data f) 64) 64) lo) _ _ (u64 (t3_data f))).
    apply read_field_val; [exact Hu|lia]. }
  cbn beta in H. rewrite E in H. exact H.
Qed.

(** ** Elements that announce more than there is

    A generic element keeps its first 128 (type 4: 64) bits and skips the rest with
    [seek_rel], which panics when the element is longer than what was received. *)

(** At the cursor an element is announced that is longer than what is left, of which the 128
    bits that are kept are there. *)
Definition overlong (b : BitBuffer) : Prop :=
  exists id len rest, remaining b = [true] ++ val_bits 4 id ++ val_bits 11 len ++ rest /\
    128 <= length rest /\ (Z.of_nat (length rest) < len)%Z.

(** Like [robust], except that such an element somewhere ahead may cause a panic. *)
Definition guarded {A} (m : M A) : Prop :=
  forall b, wf b ->
    match m b with
    | Ok _ b' | Err _ b' => advanced b b'
    | Panic => exists p, pos b <= p <= end_ b /\ overlong (with_pos b p)
    end.

Lemma guarded_robust {A} (m : M A) : robust m -> guarded m.
Proof. intros H b W. specialize (H b W). by destruct (m b). Qed.

Lemma guarded_bind {A B} (m : M A) (k : A -> M B) : guarded m -> (forall a, guarded (k a)) -> guarded (m ≫= k).
Proof.
  intros Hm Hk b W. specialize (Hm b W). unfold mbind, method_bind.
  destruct (m b) as [a b1|e b1|]; [|done|done].
  specialize (Hk a b1 (advanced_wf _ _ W Hm)).
  destruct (k a b1); [by eapply advanced_trans..|].
  destruct Hm as (p & -> & Hp). destruct Hk as (q & Hq & Ho). exists q. cbn in *. split; [lia|done].
Qed.

Lemma robust_peek id : robust (peek_type34_mbit_and_id id).
Proof.
  intros b W. unfold peek_type34_mbit_and_id. rewrite peek_here by (done || lia).
  change 1%Z with (Z.of_nat 1). rewrite (peek_ahead b 1 4) by (done || lia).
  destruct (Nat.ltb_spec (length (remaining b)) 1) as [H1|H1]; [by apply advanced_refl|].
  destruct (remaining b) as [|x r] eqn:E; [cbn in H1; lia|]. change (take 1 (x :: r)) with [x].
  destruct x; cbn [bits_val foldl b2z]; cbn; [|by apply advanced_refl].
  destruct (_ <? _); by apply advanced_refl.
Qed.

Lemma val_bits_take n l : n <= length l -> val_bits n (bits_val (take n l)) = take n l.
Proof.
  intros H. assert (L : length (take n l) = n) by (rewrite length_take; lia). rewrite <- L at 1. apply val_bits_bits_val.
Qed.

Lemma peek_true id b b' :
  wf b -> peek_type34_mbit_and_id id b = Ok true b' -> b' = b /\ exists r, remaining b = [true] ++ val_bits 4 id ++ r.
Proof.
  intros W. unfold peek_type34_mbit_and_id. rewrite peek_here by (done || lia).
  change 1%Z with (Z.of_nat 1). rewrite (peek_ahead b 1 4) by (done || lia).
  destruct (Nat.ltb_spec (length (remaining b)) 1) as [H1|H1]; [done|].
  destruct (remaining b) as [|x r] eqn:E; [cbn in H1; lia|]. change (take 1 (x :: r)) with [x].
  change (drop 1 (x :: r)) with (drop 0 r). rewrite drop_0.
  destruct x; [|done]. change (bits_val [true] =? 0)%Z with false. change (bits_val [true] =? Z.of_nat 1)%Z with true. cbn iota.
  destruct (Nat.ltb_spec (length (true :: r)) (1 + 4)) as [H5|H5]; [done|]. cbn in H5.
  intros [= Hid%Z.eqb_eq <-]. split; [done|]. exists (drop 4 r). cbn [app]. f_equal.
  rewrite <- Hid, val_bits_take by lia. by rewrite take_drop.
Qed.

Lemma guarded_here {A} (m : M A) : tame m -> (forall b, wf b -> m b = Panic -> overlong b) -> guarded m.
Proof.
  intros Ht Hp b W. specialize (Ht b W). specialize (Hp b W). destruct (m b); [done|done|].
  exists (pos b). pose proof (wf_pos _ W). split; [lia|]. replace (with_pos b (pos b)) with b by (by destruct b). by apply Hp.
Qed.

(** Behind the header of an element no panic comes from a length that is kept. *)
Lemma header_panic {T} id (k : Z -> M (option T)) b name :
  wf b ->
  (field_present ← peek_type34_mbit_and_id id;
   if negb field_present then mret None else seek_rel 5;; len ← read_field 11 name; k len) b = Panic ->
  exists len rest, remaining b = [true] ++ val_bits 4 id ++ val_bits 11 len ++ rest /\ (0 <= len < 2048)%Z /\
    exists b', wf b' /\ remaining b' = rest /\ k len b' = Panic.
Proof.
  intros W. pose proof (robust_peek id b W) as Hp. unfold mbind, method_bind at 1.
  destruct (peek_type34_mbit_and_id id b) as [present b1|e b1|] eqn:E1; [|done|done]. destruct present; [|done]. cbn [negb].
  destruct (peek_true id b b1 W E1) as [-> [r Hr]].
  unfold mbind, method_bind at 1. rewrite app_assoc in Hr.
  rewrite (seek_rel_parses ([true] ++ val_bits 4 id) r) by done.
  destruct (parses_advance b _ _ W Hr) as (W1 & R1 & _).
  set (b1 := with_pos b (pos b + length ([true] ++ val_bits 4 id))) in *.
  unfold mbind, method_bind. destruct (Nat.lt_ge_cases (length r) 11) as [H11|H11].
  { rewrite read_field_short by (done || by rewrite R1). done. }
  assert (R11 : remaining b1 = take 11 r ++ drop 11 r) by (by rewrite R1, take_drop).
  assert (L11 : length (take 11 r) = 11) by (rewrite length_take; lia).
  rewrite (read_field_parses 11 name (take 11 r) (drop 11 r)) by (done || lia).
  destruct (parses_advance b1 _ _ W1 R11) as (W2 & R2 & _). intros Hk.
  exists (bits_val (take 11 r)), (drop 11 r).
  rewrite val_bits_take, take_drop, app_assoc by lia. split; [done|]. split; [|by eexists].
  pose proof (bits_val_bound (take 11 r)) as Hb. rewrite L11 in Hb. exact Hb.
Qed.

(** Skipping what is not kept. *)
Lemma skip_panics {A B} (m : M A) (f : A -> B) c s b :
  consumes m c -> wf b ->
  ((data ← m; seek_rel (Z.of_nat s);; mret (f data)) b = Panic <->
   exists a, m b = Ok a (with_pos b (pos b + c)) /\ c <= length (remaining b) < c + s).
Proof.
  intros Hc W. specialize (Hc b W). unfold mbind, method_bind. rewrite length_remaining. pose proof (wf_start _ W).
  pose proof (wf_pos _ W). destruct (m b) as [a b1|e b1|]; [|by split; [|intros (? & ? & _)]|done].
  destruct Hc as [-> Hc]. unfold seek_rel. cbn [pos start end_ with_pos].
  btrue (Z.of_nat (start b) <=? Z.of_nat (pos b + c) + Z.of_nat s)%Z. cbn [andb].
  destruct (Z.leb_spec (Z.of_nat (pos b + c) + Z.of_nat s) (Z.of_nat (end_ b))) as [Hs|Hs]; cbn.
  - split; [done|]. intros (a' & _ & Hl). lia.
  - split; [|done]. intros _. exists a. split; [done|lia].
Qed.

Lemma consumes_two : consumes (hi ← read_field 64 "parse_type3_generic data (high)";
  lo ← read_field 64 "parse_type3_generic data (low)"; mret (Z.lor (Z.shiftl hi 64) lo)) 128.
Proof.
  apply (consumes_bind _ _ 64 64); [apply consumes_read_field; lia|]. intros hi.
  apply (consumes_fmap _ (fun lo => Z.lor (Z.shiftl hi 64) lo)), consumes_read_field. lia.
Qed.

(** Exactly the elements of more than 128 bits whose first 128 bits are there and whose last
    ones are not make the parser panic. *)
Lemma type3_generic_panics_iff id b :
  wf b -> (0 <= id < 16)%Z ->
  (parse_type3_generic true id b = Panic <->
   exists len rest, remaining b = [true] ++ val_bits 4 id ++ val_bits 11 len ++ rest /\ (len < 2048)%Z /\
     128 <= length rest /\ (Z.of_nat (length rest) < len)%Z).
Proof.
  intros W Hi. split.
  - intros Hp. apply header_panic in Hp as (len & rest & Hr & Hl & b' & W' & R' & Hk); [|done]. cbv zeta in Hk.
    exists len, rest. split; [done|]. split; [lia|]. destruct (Nat.ltb_spec 128 (Z.to_nat len)) as [H|H].
    + change (128 <=? 64) with false in Hk. change (128 - 64) with 64 in Hk.
      replace (Z.of_nat (Z.to_nat len) - 128)%Z with (Z.of_nat (Z.to_nat len - 128)) in Hk by lia.
      apply (skip_panics _ (fun data => Some (mkType3 id (Z.to_nat len) data)) 128) in Hk as (_ & _ & Hs);
        [|apply consumes_two|done]. rewrite R' in Hs. lia.
    + exfalso. revert Hk. match goal with |- ?m b' = Panic -> _ => assert (Hrob : robust m)
        by (destruct (Nat.leb_spec (Z.to_nat len) 64); robust) end.
      specialize (Hrob b' W'). intros Hk. by rewrite Hk in Hrob.
  - intros (len & rest & Hr & Hl & H128 & Hs). unfold parse_type3_generic. cbn [negb].
    unfold mbind, method_bind at 1. rewrite (peek_header id id (val_bits 11 len ++ rest)) by done.
    rewrite Z.eqb_refl. cbn [negb length]. rewrite Nat.add_0_r. replace (with_pos b (pos b)) with b by (by destruct b).
    unfold mbind, method_bind at 1. rewrite app_assoc in Hr. rewrite (seek_rel_parses ([true] ++ val_bits 4 id) _ 5%Z eq_refl b W Hr).
    destruct (parses_advance b _ _ W Hr) as (W1 & R1 & _). set (b1 := with_pos b _) in *.
    unfold mbind, method_bind at 1. rewrite (read_field_val 11 _ len rest ltac:(lia) ltac:(lia) b1 W1 R1).
    destruct (parses_advance b1 _ _ W1 R1) as (W2 & R2 & _). set (b2 := with_pos b1 _) in *. cbv zeta.
    btrue (128 <? Z.to_nat len). change (128 <=? 64) with false. change (128 - 64) with 64. cbn iota.
    replace (Z.of_nat (Z.to_nat len) - 128)%Z with (Z.of_nat (Z.to_nat len - 128)) by lia.
    apply (skip_panics _ (fun data => Some (mkType3 id (Z.to_nat len) data)) 128 _ b2 consumes_two W2).
    assert (R2' : remaining b2 = take 64 rest ++ take 64 (drop 64 rest) ++ drop 128 rest).
    { rewrite R2, <- (take_drop 64 rest) at 1. f_equal. by rewrite <- (take_drop 64 (drop 64 rest)) at 1; rewrite drop_drop. }
    assert (L1 : length (take 64 rest) = 64) by (rewrite length_take; lia).
    assert (L2 : length (take 64 (drop 64 rest)) = 64) by (rewrite length_take, length_drop; lia).
    exists (Z.lor (Z.shiftl (bits_val (take 64 rest)) 64) (bits_val (take 64 (drop 64 rest)))).
    split; [|rewrite R2; lia]. rewrite app_assoc in R2'.
    replace 128 with (length (take 64 rest ++ take 64 (drop 64 rest))) by (rewrite length_app; lia).
    assert (Hps : parses (hi ← read_field 64 "parse_type3_generic data (high)";
      lo ← read_field 64 "parse_type3_generic data (low)"; mret (Z.lor (Z.shiftl hi 64) lo))
      (take 64 rest ++ take 64 (drop 64 rest)) (drop 128 rest)
      (Z.lor (Z.shiftl (bits_val (take 64 rest)) 64) (bits_val (take 64 (drop 64 rest))))).
    { eapply parses_bind; [apply read_field_parses; [done|lia]|].
      apply (parses_fmap _ (fun lo => Z.lor _ lo)), read_field_parses; [done|lia]. }
    exact (Hps b2 W2 R2').
Qed.

Lemma tame_type3_generic obit id : tame (parse_type3_generic obit id).
Proof.
  unfold parse_type3_generic. destruct obit; [|apply tame_robust, robust_ret]. cbn [negb].
  apply tame_bind; [apply tame_robust, robust_peek|]. intros []; [|apply tame_robust, robust_ret]. cbn [negb].
  apply tame_bind; [apply (tame_seek_rel 5)|]. intros _. apply tame_bind; [apply tame_robust; robust|]. intros len. cbv zeta.
  apply tame_bind.
  - apply tame_robust. destruct (Nat.ltb_spec 128 (Z.to_nat len)).
    + change (128 <=? 64) with false. cbn iota. robust.
    + destruct (Nat.leb_spec (Z.to_nat len) 64); robust.
  - intros data. apply tame_bind; [|intros _; apply tame_robust, robust_ret].
    destruct (Nat.ltb_spec 128 (Z.to_nat len)); [|apply tame_robust, robust_ret].
    replace (Z.of_nat (Z.to_nat len) - 128)%Z with (Z.of_nat (Z.to_nat len - 128)) by lia. apply tame_seek_rel.
Qed.

Lemma guarded_type3_generic obit id : (0 <= id < 16)%Z -> guarded (parse_type3_generic obit id).
Proof.
  intros Hi. apply guarded_here; [apply tame_type3_generic|]. intros b W. destruct obit; [|done].
  intros (len & rest & Hr & _ & Hk & Hs)%type3_generic_panics_iff; [|done|done]. by exists id, len, rest.
Qed.

(** ** Round trips

    Whatever is written is read back, whatever follows it. *)
Definition roundtrips {T} (to_bitbuf : T -> M unit) (from_bitbuf : M T) (x : T) : Prop :=
  exists bs, emits (to_bitbuf x) tt bs /\ forall rest, parses from_bitbuf bs rest x.

Lemma expect_pdu_type_parses n expected rest :
  (0 <= expected < 2 ^ Z.of_nat n)%Z -> n <= 64 -> parses (expect_pdu_type n expected) (val_bits n expected) rest tt.
Proof.
  intros Hv Hn. unfold expect_pdu_type. rewrite <- (app_nil_r (val_bits n expected)).
  eapply parses_bind; [by apply read_field_val|]. rewrite Z.eqb_refl. apply parses_ret.
Qed.

Lemma read_enum_unwrap_parses {T} `{WireEnum T} n name (x : T) rest :
  n = enum_width T -> n <= 64 -> parses (read_enum_unwrap T n name) (val_bits n (into_raw x)) rest x.
Proof.
  intros -> Hn. unfold read_enum_unwrap. rewrite <- (app_nil_r (val_bits _ _)).
  eapply parses_bind; [apply read_field_val; [apply into_raw_bound|done]|]. cbn beta. rewrite try_from_into_raw. apply parses_ret.
Qed.

Lemma at_most_inl name max v : at_most name max v = inl tt -> (v <= max)%Z.
Proof. unfold at_most. destruct (Z.ltb_spec max v); [done|lia]. Qed.

(** What a successful validation says. *)
Lemma checks_inl {A} (r : unit + PduParseErr) (k : A + PduParseErr) x : then_ r k = inl x -> r = inl tt /\ k = inl x.
Proof. by destruct r as [[]|]. Qed.

Lemma required_inl {T} name (o : option T) k : required name o k = inl tt -> exists v, o = Some v /\ k v = inl tt.
Proof. destruct o as [v|]; [|done]. by exists v. Qed.

Lemma require_absent_inl {T} name reason (o : option T) : require_absent name reason o = inl tt -> o = None.
Proof. by destruct o. Qed.

Ltac validations H :=
  repeat match type of H with
  | then_ _ _ = inl _ => let H' := fresh "V" in apply checks_inl in H as [H' H]; validations H'
  | at_most _ _ _ = inl _ => apply at_most_inl in H
  | required _ ?o _ = inl _ => let v := fresh "v" in let E := fresh "E" in apply required_inl in H as (v & E & H); subst
  | require_absent _ _ _ = inl _ => apply require_absent_inl in H; subst
  | (if ?c then inr _ else inl tt) = inl _ =>
      let E := fresh "E" in destruct c eqn:E; [discriminate H|]; clear H
  | match ?x with _ => _ end = inl _ => destruct x; try discriminate H
  end.

Lemma read_if_parses n name v rest :
  (0 <= v < 2 ^ Z.of_nat n)%Z -> n <= 64 -> parses (read_if true n name) (val_bits n v) rest (Some v).
Proof. intros Hv Hn. by apply (parses_fmap _ Some), read_field_val. Qed.

Lemma read_if_not_parses n name rest : parses (read_if false n name) [] rest None.
Proof. apply (parses_ret None). Qed.

Lemma checked_end {T} r (x : T) rest : r = inl tt -> parses (read_trailing true;; checked r x) [false] rest x.
Proof. intros ->. apply trailing_end. Qed.

Lemma checked_no_trailing {T} r (x : T) rest : r = inl tt -> parses (read_trailing false;; checked r x) [] rest x.
Proof. intros ->. apply no_trailing_end. Qed.

Lemma into_raw_all {T} `{WireEnum T} (o : option T) n :
  n = enum_width T -> option_all (fun v => 0 <= v < 2 ^ Z.of_nat n)%Z (into_raw <$> o).
Proof. intros -> v Hv. destruct o as [x|]; [|done]. injection Hv as <-. apply into_raw_bound. Qed.

Lemma parse_type2_enum_parses {T} `{WireEnum T} n name (o : option T) rest :
  n = enum_width T -> n <= 64 -> parses (parse_type2_enum T true n name) (img2 (val_bits n) (into_raw <$> o)) rest o.
Proof.
  intros Hn Hw. rewrite <- (app_nil_r (img2 _ _)). eapply parses_bind.
  - apply parse_type2_generic_parses; [by apply into_raw_all|done].
  - destruct o as [x|]; cbn; [rewrite try_from_into_raw|]; apply parses_ret.
Qed.

(** ** Parsers that only an overlong element makes panic *)

Lemma guarded_type2_struct {T} obit (parser : M T) : robust parser -> guarded (parse_type2_struct obit parser).
Proof. intros Hp. apply guarded_robust. unfold parse_type2_struct, read_pbit, read_delimiter. robust. exact Hp. Qed.

Lemma guarded_type2_generic obit n name : n <= 64 -> guarded (parse_type2_generic obit n name).
Proof. intros Hn. apply (guarded_type2_struct obit (read_field n name)). by apply robust_read_field. Qed.

Lemma guarded_read_if c n name : n <= 64 -> guarded (read_if c n name).
Proof. intros Hn. apply guarded_robust. unfold read_if. robust. Qed.

Lemma guarded_trailing obit : guarded (read_trailing obit).
Proof. apply guarded_robust. unfold read_trailing, read_delimiter. robust. Qed.

Lemma guarded_pdu_type n expected : n <= 64 -> guarded (expect_pdu_type n expected).
Proof. intros Hn. apply guarded_robust. unfold expect_pdu_type. robust. Qed.

(** ** Claims *)

(** C30 (which elements make the parser panic).  The parser of a type 3 element panics exactly
    when the element it expects is at the cursor, announces more bits than the buffer has left,
    and the 128 bits it keeps are there: it skips what it does not keep with an assertion.  Every
    other bit pattern is parsed or rejected. *)
Theorem element_panics_iff id b :
  wf b -> (0 <= id < 16)%Z ->
  (parse_type3_generic true id b = Panic <->
   exists len rest, remaining b = [true] ++ val_bits 4 id ++ val_bits 11 len ++ rest /\ (len < 2048)%Z /\
     128 <= length rest /\ (Z.of_nat (length rest) < len)%Z).
Proof. apply type3_generic_panics_iff. Qed.

(** An element of 129 bits of which 128 were received. *)
Lemma element_panics_iff_witness :
  exists b, from_bitarr (b2z <$> ([true] ++ val_bits 4 3 ++ val_bits 11 129 ++ replicate 128 false)) = Some b /\
    parse_type3_generic true 3 b = Panic.
Proof.
  destruct (from_bitarr_holds ([true] ++ val_bits 4 3 ++ val_bits 11 129 ++ replicate 128 false)) as (b & E & Hb & _).
  exists b. split; [exact E|]. apply element_panics_iff; [apply Hb|lia|].
  exists 129%Z, (replicate 128 false). split; [by apply holds_remaining|]. rewrite length_replicate. lia.
Defined.
