(* ===== verification/CmceFields.v ===== *)
(** * Fields of CMCE PDUs (crates/tetra-pdus/src/cmce/enums and fields)

    The enumerations and information elements the call control PDUs share. *)

From Stdlib Require Import ZArith Lia ZifyNat.
From stdpp Require Import strings.
From S2P Require Import Prelude.
From S2P Require Import BitBuffer.
From S2P Require Import BitBufferFacts.
From S2P Require Import Codec.
From S2P Require Import MacFields.
From S2P Require Import MacPdus.
From S2P Require Import Robust.
From S2P Require Import Circuits.
From S2P Require Import Typed.

(** ** Enumerations *)

Inductive CallStatus :=
  | CsCallproceeding | CsCallqueued | CsRequestedsubscriberpaged | CsCallcontinue | CsHangtimeexpired.
#[export] Instance CallStatus_eq_dec : EqDecision CallStatus.
Proof. solve_decision. Defined.
Definition CallStatus_into_raw (x : CallStatus) : Z :=
  match x with
  | CsCallproceeding => 0 | CsCallqueued => 1 | CsRequestedsubscriberpaged => 2 | CsCallcontinue => 3
  | CsHangtimeexpired => 4
  end.
Definition CallStatus_try_from (x : Z) : option CallStatus :=
  match x with
  | 0 => Some CsCallproceeding | 1 => Some CsCallqueued | 2 => Some CsRequestedsubscriberpaged
  | 3 => Some CsCallcontinue | 4 => Some CsHangtimeexpired | _ => None
  end%Z.
#[export] Program Instance CallStatus_wire : WireEnum CallStatus :=
  {| enum_width := 3; into_raw := CallStatus_into_raw; try_from := CallStatus_try_from |}.
Solve Obligations with wire_enum.

Inductive CallTimeout :=
  | CtInfinite | CtT30s | CtT45s | CtT60s | CtT2m | CtT3m | CtT4m | CtT5m | CtT6m | CtT8m | CtT10m | CtT12m
  | CtT15m | CtT20m | CtT30m | CtReserved.
#[export] Instance CallTimeout_eq_dec : EqDecision CallTimeout.
Proof. solve_decision. Defined.
Definition CallTimeout_into_raw (x : CallTimeout) : Z :=
  match x with
  | CtInfinite => 0 | CtT30s => 1 | CtT45s => 2 | CtT60s => 3 | CtT2m => 4 | CtT3m => 5 | CtT4m => 6
  | CtT5m => 7 | CtT6m => 8 | CtT8m => 9 | CtT10m => 10 | CtT12m => 11 | CtT15m => 12 | CtT20m => 13
  | CtT30m => 14 | CtReserved => 15
  end.
Definition CallTimeout_try_from (x : Z) : option CallTimeout :=
  match x with
  | 0 => Some CtInfinite | 1 => Some CtT30s | 2 => Some CtT45s | 3 => Some CtT60s | 4 => Some CtT2m
  | 5 => Some CtT3m | 6 => Some CtT4m | 7 => Some CtT5m | 8 => Some CtT6m | 9 => Some CtT8m
  | 10 => Some CtT10m | 11 => Some CtT12m | 12 => Some CtT15m | 13 => Some CtT20m | 14 => Some CtT30m
  | 15 => Some CtReserved | _ => None
  end%Z.
#[export] Program Instance CallTimeout_wire : WireEnum CallTimeout :=
  {| enum_width := 4; into_raw := CallTimeout_into_raw; try_from := CallTimeout_try_from |}.
Solve Obligations with wire_enum.

Inductive CallTimeoutSetupPhase :=
  | SpPredefined | SpT1s | SpT2s | SpT5s | SpT10s | SpT20s | SpT30s | SpT60s.
#[export] Instance CallTimeoutSetupPhase_eq_dec : EqDecision CallTimeoutSetupPhase.
Proof. solve_decision. Defined.
Definition CallTimeoutSetupPhase_into_raw (x : CallTimeoutSetupPhase) : Z :=
  match x with
  | SpPredefined => 0 | SpT1s => 1 | SpT2s => 2 | SpT5s => 3 | SpT10s => 4 | SpT20s => 5 | SpT30s => 6
  | SpT60s => 7
  end.
Definition CallTimeoutSetupPhase_try_from (x : Z) : option CallTimeoutSetupPhase :=
  match x with
  | 0 => Some SpPredefined | 1 => Some SpT1s | 2 => Some SpT2s | 3 => Some SpT5s | 4 => Some SpT10s
  | 5 => Some SpT20s | 6 => Some SpT30s | 7 => Some SpT60s | _ => None
  end%Z.
#[export] Program Instance CallTimeoutSetupPhase_wire : WireEnum CallTimeoutSetupPhase :=
  {| enum_width := 3; into_raw := CallTimeoutSetupPhase_into_raw; try_from := CallTimeoutSetupPhase_try_from |}.
Solve Obligations with wire_enum.

Inductive TransmissionGrant :=
  | TgGranted | TgNotGranted | TgRequestQueued | TgGrantedToOtherUser.
#[export] Instance TransmissionGrant_eq_dec : EqDecision TransmissionGrant.
Proof. solve_decision. Defined.
Definition TransmissionGrant_into_raw (x : TransmissionGrant) : Z :=
  match x with
  | TgGranted => 0 | TgNotGranted => 1 | TgRequestQueued => 2 | TgGrantedToOtherUser => 3
  end.
Definition TransmissionGrant_try_from (x : Z) : option TransmissionGrant :=
  match x with
  | 0 => Some TgGranted | 1 => Some TgNotGranted | 2 => Some TgRequestQueued
  | 3 => Some TgGrantedToOtherUser | _ => None
  end%Z.
#[export] Program Instance TransmissionGrant_wire : WireEnum TransmissionGrant :=
  {| enum_width := 2; into_raw := TransmissionGrant_into_raw; try_from := TransmissionGrant_try_from |}.
Solve Obligations with wire_enum.

Inductive DisconnectCause :=
  | DcCauseNotDefinedOrUnknown | DcUserRequestedDisconnection | DcCalledPartyBusy
  | DcCalledPartyNotReachable | DcCalledPartyDoesNotSupportEncryption | DcCongestionInInfrastructure
  | DcNotAllowedTrafficCase | DcIncompatibleTrafficCase | DcRequestedServiceNotAvailable
  | DcPreEmptiveUseOfResource | DcInvalidCallIdentifier | DcCallRejectedByTheCalledParty | DcNoIdleCcEntity
  | DcExpiryOfTimer | DcSwmiRequestedDisconnection | DcAcknowledgedServiceNotComplete
  | DcUnknownTetraIdentity | DcSsSpecificDisconnection | DcUnknownExternalSubscriberIdentity
  | DcCallRestorationOfTheOtherUserFailed | DcCalledPartyRequiresEncryption | DcConcurrentSetUpNotSupported
  | DcCalledPartyIsUnderTheSameDmGateOfTheCallingParty | DcNonCallOwnerRequestedDisconnection.
#[export] Instance DisconnectCause_eq_dec : EqDecision DisconnectCause.
Proof. solve_decision. Defined.
Definition DisconnectCause_into_raw (x : DisconnectCause) : Z :=
  match x with
  | DcCauseNotDefinedOrUnknown => 0 | DcUserRequestedDisconnection => 1 | DcCalledPartyBusy => 2
  | DcCalledPartyNotReachable => 3 | DcCalledPartyDoesNotSupportEncryption => 4
  | DcCongestionInInfrastructure => 5 | DcNotAllowedTrafficCase => 6 | DcIncompatibleTrafficCase => 7
  | DcRequestedServiceNotAvailable => 8 | DcPreEmptiveUseOfResource => 9 | DcInvalidCallIdentifier => 10
  | DcCallRejectedByTheCalledParty => 11 | DcNoIdleCcEntity => 12 | DcExpiryOfTimer => 13
  | DcSwmiRequestedDisconnection => 14 | DcAcknowledgedServiceNotComplete => 15
  | DcUnknownTetraIdentity => 16 | DcSsSpecificDisconnection => 17
  | DcUnknownExternalSubscriberIdentity => 18 | DcCallRestorationOfTheOtherUserFailed => 19
  | DcCalledPartyRequiresEncryption => 20 | DcConcurrentSetUpNotSupported => 21
  | DcCalledPartyIsUnderTheSameDmGateOfTheCallingParty => 22 | DcNonCallOwnerRequestedDisconnection => 23
  end.
Definition DisconnectCause_try_from (x : Z) : option DisconnectCause :=
  match x with
  | 0 => Some DcCauseNotDefinedOrUnknown | 1 => Some DcUserRequestedDisconnection
  | 2 => Some DcCalledPartyBusy | 3 => Some DcCalledPartyNotReachable
  | 4 => Some DcCalledPartyDoesNotSupportEncryption | 5 => Some DcCongestionInInfrastructure
  | 6 => Some DcNotAllowedTrafficCase | 7 => Some DcIncompatibleTrafficCase
  | 8 => Some DcRequestedServiceNotAvailable | 9 => Some DcPreEmptiveUseOfResource
  | 10 => Some DcInvalidCallIdentifier | 11 => Some DcCallRejectedByTheCalledParty
  | 12 => Some DcNoIdleCcEntity | 13 => Some DcExpiryOfTimer | 14 => Some DcSwmiRequestedDisconnection
  | 15 => Some DcAcknowledgedServiceNotComplete | 16 => Some DcUnknownTetraIdentity
  | 17 => Some DcSsSpecificDisconnection | 18 => Some DcUnknownExternalSubscriberIdentity
  | 19 => Some DcCallRestorationOfTheOtherUserFailed | 20 => Some DcCalledPartyRequiresEncryption
  | 21 => Some DcConcurrentSetUpNotSupported
  | 22 => Some DcCalledPartyIsUnderTheSameDmGateOfTheCallingParty
  | 23 => Some DcNonCallOwnerRequestedDisconnection | _ => None
  end%Z.
#[export] Program Instance DisconnectCause_wire : WireEnum DisconnectCause :=
  {| enum_width := 5; into_raw := DisconnectCause_into_raw; try_from := DisconnectCause_try_from |}.
Solve Obligations with wire_enum.

Inductive PartyTypeIdentifier :=
  | PtiSna | PtiSsi | PtiTsi | PtiReserved.
#[export] Instance PartyTypeIdentifier_eq_dec : EqDecision PartyTypeIdentifier.
Proof. solve_decision. Defined.
Definition PartyTypeIdentifier_into_raw (x : PartyTypeIdentifier) : Z :=
  match x with
  | PtiSna => 0 | PtiSsi => 1 | PtiTsi => 2 | PtiReserved => 3
  end.
Definition PartyTypeIdentifier_try_from (x : Z) : option PartyTypeIdentifier :=
  match x with
  | 0 => Some PtiSna | 1 => Some PtiSsi | 2 => Some PtiTsi | 3 => Some PtiReserved | _ => None
  end%Z.
#[export] Program Instance PartyTypeIdentifier_wire : WireEnum PartyTypeIdentifier :=
  {| enum_width := 2; into_raw := PartyTypeIdentifier_into_raw; try_from := PartyTypeIdentifier_try_from |}.
Solve Obligations with wire_enum.

Inductive CommunicationType :=
  | ComP2p | ComP2Mp | ComP2MpAcked | ComBroadcast.
#[export] Instance CommunicationType_eq_dec : EqDecision CommunicationType.
Proof. solve_decision. Defined.
Definition CommunicationType_into_raw (x : CommunicationType) : Z :=
  match x with
  | ComP2p => 0 | ComP2Mp => 1 | ComP2MpAcked => 2 | ComBroadcast => 3
  end.
Definition CommunicationType_try_from (x : Z) : option CommunicationType :=
  match x with
  | 0 => Some ComP2p | 1 => Some ComP2Mp | 2 => Some ComP2MpAcked | 3 => Some ComBroadcast | _ => None
  end%Z.
#[export] Program Instance CommunicationType_wire : WireEnum CommunicationType :=
  {| enum_width := 2; into_raw := CommunicationType_into_raw; try_from := CommunicationType_try_from |}.
Solve Obligations with wire_enum.

#[export] Instance CircuitModeType_eq_dec : EqDecision CircuitModeType.
Proof. solve_decision. Defined.
Definition CircuitModeType_into_raw (x : CircuitModeType) : Z :=
  match x with
  | TchS => 0 | Tch72 => 1 | Tch48n1 => 2 | Tch48n4 => 3 | Tch48n8 => 4 | Tch24n1 => 5 | Tch24n4 => 6 | Tch24n8 => 7
  end.
Definition CircuitModeType_try_from (x : Z) : option CircuitModeType :=
  match x with
  | 0 => Some TchS | 1 => Some Tch72 | 2 => Some Tch48n1 | 3 => Some Tch48n4 | 4 => Some Tch48n8
  | 5 => Some Tch24n1 | 6 => Some Tch24n4 | 7 => Some Tch24n8 | _ => None
  end%Z.
#[export] Program Instance CircuitModeType_wire : WireEnum CircuitModeType :=
  {| enum_width := 3; into_raw := CircuitModeType_into_raw; try_from := CircuitModeType_try_from |}.
Solve Obligations with wire_enum.

(** [CmceType3ElemId] *)
Inductive CmceType3ElemId := Dtmf | ExtSubscriberNum | Facility | PollResponseAddr | TempAddr | DmMsAddr | Proprietary.
Definition elem_id (x : CmceType3ElemId) : Z :=
  match x with
  | Dtmf => 1 | ExtSubscriberNum => 2 | Facility => 3 | PollResponseAddr => 4 | TempAddr => 5 | DmMsAddr => 6
  | Proprietary => 15
  end.

(** The largest values of the fields; each PDU's file declares the ones it uses. *)
Abbreviation MAX_U1 := 0x01%Z (only parsing).
Abbreviation MAX_U2 := 0x03%Z (only parsing).
Abbreviation MAX_U3 := 0x07%Z (only parsing).
Abbreviation MAX_U4 := 0x0f%Z (only parsing).
Abbreviation MAX_U6 := 0x3f%Z (only parsing).
Abbreviation MAX_U8 := 0xff%Z (only parsing).
Abbreviation MAX_U9 := 0x01ff%Z (only parsing).
Abbreviation MAX_U14 := 0x3fff%Z (only parsing).
Abbreviation MAX_U24 := 0x00ffffff%Z (only parsing).

(** ** Basic service information *)

Record BasicServiceInformation := mkBsi {
  bsi_circuit_mode_type : CircuitModeType;
  bsi_encryption_flag : bool;
  bsi_communication_type : CommunicationType;
  bsi_slots_per_frame : option Z;
  bsi_speech_service : option Z
}.

Definition Bsi_validate (self : BasicServiceInformation) : unit + PduParseErr :=
  match bsi_circuit_mode_type self, bsi_slots_per_frame self, bsi_speech_service self with
  | TchS, None, Some speech_service => at_most "speech_service" 0x03 speech_service
  | TchS, _, _ => inr (InvalidValue "circuit_mode_type" (into_raw (bsi_circuit_mode_type self)))
  | _, Some slots_per_frame, None => at_most "slots_per_frame" 0x03 slots_per_frame
  | _, _, _ => inr (InvalidValue "circuit_mode_type" (into_raw (bsi_circuit_mode_type self)))
  end.

Definition Bsi_from_bitbuf : M BasicServiceInformation :=
  circuit_mode_type ← read_enum_unwrap CircuitModeType 3 "circuit_mode_type";
  encryption_flag ← read_flag "encryption_flag";
  communication_type ← read_enum_unwrap CommunicationType 2 "communication_type";
  '(speech_service, slots_per_frame) ←
    match circuit_mode_type with
    | TchS => speech_service ← read_u8 2 "speech_service"; mret (Some speech_service, None)
    | _ => slots_per_frame ← read_u8 2 "slots_per_frame"; mret (None, Some slots_per_frame)
    end;
  mret (mkBsi circuit_mode_type encryption_flag communication_type slots_per_frame speech_service).

Definition Bsi_to_bitbuf (self : BasicServiceInformation) : M unit :=
  validated (Bsi_validate self) (
    write_bits (into_raw (bsi_circuit_mode_type self)) 3;;
    write_bits (b2z (bsi_encryption_flag self)) 1;;
    write_bits (into_raw (bsi_communication_type self)) 2;;
    write_some (fun v => write_bits v 2) (bsi_slots_per_frame self);;
    write_some (fun v => write_bits v 2) (bsi_speech_service self)).

(** ** Automation

    [l3_emit] and [l3_parse] run through the fields of a PDU; what is left are the
    conditions on the values of optional elements. *)

Definition nonneg (o : option Z) : Prop := option_all (fun v => 0 <= v)%Z o.

(** [if let Some(v) = o { if v > max { return Err(InvalidValue { .. }) } }] is [bounded]. *)
Lemma bounded_opt_inl name max o : bounded name max o = inl tt -> nonneg o -> option_all (fun v => 0 <= v < max + 1)%Z o.
Proof.
  intros H Hn x ->. specialize (Hn x eq_refl). cbn in *. destruct (Z.ltb_spec max x); [done|lia].
Qed.

Lemma is_some_false {T} (o : option T) : is_some o = false -> o = None.
Proof. by destruct o. Qed.

(** No optional element is there. *)
Ltac none_present E :=
  repeat match type of E with
  | (_ || _) = false => let E' := fresh "E" in apply orb_false_iff in E as [E E']; apply is_some_false in E'
  | is_some _ = false => apply is_some_false in E
  end.

Ltac solve_absent := intros _; rewrite <- ?app_assoc; repeat (apply absent_img3; [cbn; lia|cbn; lia|]); apply absent_end.

Ltac emit_field :=
  first [ apply write_flag_emits
        | apply write_enum_emits; [reflexivity|lia]
        | apply write_bits_emits; [cbn in *; lia|lia]
        | apply write_type3_generic_emits; [cbn; lia|done]
        | apply write_type2_generic_emits; [first [done|by apply into_raw_all]|lia]
        | eapply write_type2_struct_emits; intros ? ?; solve [eauto 3 with l3]
        | apply (write_delimiter_emits true)
        | apply (write_delimiter_emits false)
        | apply emits_ret
        | cbn [write_some]; first [apply emits_ret|apply write_bits_emits; [cbn in *; lia|lia]]
        | solve [eauto 2 with l3] ].
Ltac l3_emit := repeat (eapply emits_bind_tt; [emit_field|]); try emit_field.

Ltac parse_field :=
  first [ apply read_flag_parses
        | apply read_enum_unwrap_parses; [reflexivity|lia]
        | apply read_enum_parses; [reflexivity|lia]
        | apply expect_pdu_type_parses; [cbn; lia|lia]
        | apply read_u8_parses; [cbn in *; lia|lia]
        | apply read_u16_parses; [cbn in *; lia|lia]
        | apply read_u32_parses; [cbn in *; lia|lia]
        | apply read_field_val; [cbn in *; lia|lia]
        | apply read_if_parses; [cbn in *; lia|lia]
        | apply read_if_not_parses
        | apply read_delimiter_parses
        | apply read_trailing_parses
        | apply parse_type2_enum_parses; [reflexivity|lia]
        | apply parse_type3_generic_parses; [cbn; lia|done|solve_absent]
        | apply parse_type2_generic_parses; [done|lia]
        | apply parse_type2_struct_parses; intros ? ?; solve [eauto 3 with l3]
        | apply parses_ret
        | solve [eauto 2 with l3] ].
(** [if cond { return Err(..) }] when the condition is false *)
Ltac parse_guard :=
  lazymatch goal with
  | |- parses (if ?c then fail _ else ?k) ?bs ?rest ?x =>
      first [change (parses k bs rest x) | match goal with E : c = false |- _ => rewrite E end]
  end.
Ltac l3_parse :=
  repeat first [parse_guard | apply trailing_end | apply plain_end | apply no_trailing_end | apply checked_end; assumption | apply checked_no_trailing; assumption | eapply parses_bind; [parse_field|]; cbv beta iota];
  try parse_field.

Create HintDb l3.

(** ** Basic service information *)

Definition Bsi_img (x : BasicServiceInformation) : list bool :=
  val_bits 3 (into_raw (bsi_circuit_mode_type x)) ++ img_bool (bsi_encryption_flag x) ++
  val_bits 2 (into_raw (bsi_communication_type x)) ++
  val_bits 2 (match bsi_speech_service x, bsi_slots_per_frame x with Some v, _ => v | None, Some v => v | _, _ => 0 end).

(** The unsigned fields, and what the writer checks. *)
Record Bsi_typed (x : BasicServiceInformation) : Prop := {
  bt_slots : nonneg (bsi_slots_per_frame x);
  bt_speech : nonneg (bsi_speech_service x)
}.
Record Bsi_ok (x : BasicServiceInformation) : Prop := {
  bok_typed : Bsi_typed x;
  bok_valid : Bsi_validate x = inl tt
}.

(** Either one or the other of the last two fields is there. *)
Lemma Bsi_cases x :
  Bsi_ok x ->
  (exists v, bsi_circuit_mode_type x = TchS /\ bsi_slots_per_frame x = None /\ bsi_speech_service x = Some v /\ (0 <= v < 4)%Z) \/
  (exists v, bsi_circuit_mode_type x <> TchS /\ bsi_slots_per_frame x = Some v /\ bsi_speech_service x = None /\ (0 <= v < 4)%Z).
Proof.
  intros [[H1 H2] H3]. unfold Bsi_validate in H3. destruct x as [m e c [sl|] [sp|]]; cbn in *.
  - by destruct m.
  - right. destruct m; [done|..]; apply at_most_inl in H3; specialize (H1 sl eq_refl); cbn in H1; exists sl; (split; [done|]); repeat split; lia.
  - left. destruct m; [|done..]. apply at_most_inl in H3. specialize (H2 sp eq_refl). cbn in H2. exists sp. repeat split; lia.
  - by destruct m.
Qed.

Lemma Bsi_emits x : Bsi_ok x -> emits (Bsi_to_bitbuf x) tt (Bsi_img x).
Proof.
  intros Hx. unfold Bsi_to_bitbuf, validated. rewrite (bok_valid _ Hx). unfold Bsi_img.
  destruct (Bsi_cases x Hx) as [(v & Hm & Hsl & Hsp & Hv)|(v & Hm & Hsl & Hsp & Hv)]; rewrite Hsl, Hsp; cbn [write_some].
  - l3_emit.
  - rewrite <- (app_nil_r (val_bits 2 v)). l3_emit.
Qed.

Lemma Bsi_parses x rest : Bsi_ok x -> parses Bsi_from_bitbuf (Bsi_img x) rest x.
Proof.
  intros Hx. unfold Bsi_from_bitbuf, Bsi_img.
  destruct (Bsi_cases x Hx) as [(v & Hm & Hsl & Hsp & Hv)|(v & Hm & Hsl & Hsp & Hv)]; rewrite Hsl, Hsp;
    destruct x as [m e c sl sp]; cbn in Hm, Hsl, Hsp; subst; cbn [bsi_circuit_mode_type bsi_encryption_flag bsi_communication_type].
  - do 3 (eapply parses_bind; [parse_field|]). rewrite <- (app_nil_r (val_bits 2 v)).
    eapply parses_bind with (a := (Some v, None)); [|apply parses_ret].
    apply (parses_fmap _ (fun v => (Some v, None))), read_u8_parses; lia.
  - do 3 (eapply parses_bind; [parse_field|]). rewrite <- (app_nil_r (val_bits 2 v)).
    eapply parses_bind with (a := (None, Some v)); [|apply parses_ret].
    destruct m; [done|..]; apply (parses_fmap _ (fun v => (None, Some v))), read_u8_parses; lia.
Qed.
#[export] Hint Resolve Bsi_emits Bsi_parses : l3.

(** [if let Some(bsi) = &self.basic_service_information { bsi.validate()? }] *)
Definition opt_bsi_validate (o : option BasicServiceInformation) : unit + PduParseErr :=
  match o with Some bsi => Bsi_validate bsi | None => inl tt end.
Lemma opt_bsi_ok o : option_all Bsi_typed o -> opt_bsi_validate o = inl tt -> option_all Bsi_ok o.
Proof. intros Ht Hv x ->. split; [by apply Ht|done]. Qed.

Lemma robust_enum_unwrap {T} `{WireEnum T} n name :
  n <= 64 -> (forall v, (0 <= v < 2 ^ Z.of_nat n)%Z -> is_Some (try_from (T := T) v)) -> robust (read_enum_unwrap T n name).
Proof.
  intros Hn Ht b W. pose proof (consumes_read_field n name Hn b W) as Hc. unfold read_enum_unwrap, mbind, method_bind.
  destruct (decide (length (remaining b) < n)) as [Hs|Hs]; [by rewrite read_field_short in * by done|].
  assert (Hb : read_field n name b = Ok (bits_val (take n (remaining b))) (with_pos b (pos b + n))).
  { assert (Hl : length (take n (remaining b)) = n) by (rewrite length_take; lia).
    rewrite (read_field_parses n name (take n (remaining b)) (drop n (remaining b))) by (done || by rewrite take_drop).
    by rewrite Hl. }
  rewrite Hb in *. destruct Hc as [_ Hc]. pose proof (bits_val_bound (take n (remaining b))) as Hv.
  rewrite length_take, Nat.min_l in Hv by lia. destruct (Ht _ Hv) as [x ->]. cbn. eexists. split; [done|lia].
Qed.

(** ** Pre-coded status *)

Inductive ShortReportType := SrProtOrEncodingNotSupported | SrDestMemFull | SrMessageReceived | SrMessageConsumed.
#[export] Instance ShortReportType_eq_dec : EqDecision ShortReportType.
Proof. solve_decision. Defined.
Definition ShortReportType_into_raw (x : ShortReportType) : Z :=
  match x with SrProtOrEncodingNotSupported => 0 | SrDestMemFull => 1 | SrMessageReceived => 2 | SrMessageConsumed => 3 end.
Definition ShortReportType_try_from (x : Z) : option ShortReportType :=
  match x with
  | 0 => Some SrProtOrEncodingNotSupported | 1 => Some SrDestMemFull | 2 => Some SrMessageReceived
  | 3 => Some SrMessageConsumed | _ => None
  end%Z.
#[export] Program Instance ShortReportType_wire : WireEnum ShortReportType :=
  {| enum_width := 2; into_raw := ShortReportType_into_raw; try_from := ShortReportType_try_from |}.
Solve Obligations with wire_enum.

Record SdsShortReport := mkShortReport { short_report_type : ShortReportType; message_reference : Z }.

(** [expect_value!] fails with [InvalidValue]. *)
Definition SdsShortReport_from_u16 (val : Z) : SdsShortReport + PduParseErr :=
  let pdu_type := Z.shiftr val 10 in
  if negb (pdu_type =? 0x1f)%Z then inr (InvalidValue "pdu_type" pdu_type)
  else
    let raw := Z.land (Z.shiftr val 8) 3 in
    match try_from raw with
    | Some t => inl (mkShortReport t (Z.land val 0xff))
    | None => inr (InvalidValue "short_report_type" raw)
    end.

(** The assertion on the width of the type never fails. *)
Definition SdsShortReport_to_u16 (self : SdsShortReport) : Z :=
  Z.lor (Z.lor (Z.shiftl 0x1f 10) (Z.shiftl (into_raw (short_report_type self)) 8)) (Z.land (message_reference self) 0xff).

Inductive PreCodedStatus :=
  | PcEmergency
  | PcReserved (x : Z)
  | PcSdsTl (report : SdsShortReport)
  | PcNetworkUserSpecific (x : Z).

Definition PreCodedStatus_from (x : Z) : PreCodedStatus :=
  if (x =? 0)%Z then PcEmergency
  else if (x <=? 31743)%Z then PcReserved x
  else if (x <=? 32767)%Z then
    match SdsShortReport_from_u16 x with inl report => PcSdsTl report | inr _ => PcReserved x end
  else PcNetworkUserSpecific x.

Definition PreCodedStatus_into_raw (self : PreCodedStatus) : Z :=
  match self with
  | PcEmergency => 0
  | PcReserved x => x
  | PcSdsTl report => SdsShortReport_to_u16 report
  | PcNetworkUserSpecific x => x
  end.

(** [PreCodedStatus::from(buffer.read_field(16, "pre_coded_status")? as u16)] *)
Definition read_pre_coded_status : M PreCodedStatus := val ← read_u16 16 "pre_coded_status"; mret (PreCodedStatus_from val).

(** The values that the decoder makes. *)
Definition pcs_ok (s : PreCodedStatus) : Prop :=
  match s with
  | PcEmergency => True
  | PcReserved x => (0 < x <= 31743)%Z
  | PcSdsTl report => (0 <= message_reference report < 256)%Z
  | PcNetworkUserSpecific x => (32767 < x < 65536)%Z
  end.

Lemma to_u16_sum r :
  (0 <= message_reference r < 256)%Z ->
  SdsShortReport_to_u16 r = (31744 + into_raw (short_report_type r) * 256 + message_reference r)%Z.
Proof.
  intros Hm. unfold SdsShortReport_to_u16. change 0xff%Z with (Z.ones 8). rewrite Z.land_ones, Z.mod_small by lia.
  replace (Z.lor (Z.shiftl 31 10) (Z.shiftl (into_raw (short_report_type r)) 8))
    with (Z.shiftl (124 + into_raw (short_report_type r)) 8) by (by destruct r as [[] ?]).
  rewrite lor_shiftl by lia. lia.
Qed.

Lemma into_raw_u16 s : pcs_ok s -> (0 <= PreCodedStatus_into_raw s < 65536)%Z.
Proof.
  destruct s as [|x|r|x]; cbn; [lia|lia| |lia]. intros Hm. rewrite to_u16_sum by done.
  pose proof (into_raw_bound (short_report_type r)) as Hr. cbn in Hr. lia.
Qed.

Lemma pcs_roundtrip s : pcs_ok s -> PreCodedStatus_from (PreCodedStatus_into_raw s) = s.
Proof.
  unfold PreCodedStatus_from. destruct s as [|x|r|x]; [done|..]; cbn [PreCodedStatus_into_raw pcs_ok]; intros H.
  - bfalse (x =? 0)%Z. by btrue (x <=? 31743)%Z.
  - rewrite to_u16_sum by done. set (v := (31744 + _ + _)%Z).
    assert (Hv : (31744 <= v <= 32767)%Z) by (pose proof (into_raw_bound (short_report_type r)) as Hr; cbn in Hr; lia).
    bfalse (v =? 0)%Z. bfalse (v <=? 31743)%Z. btrue (v <=? 32767)%Z. unfold SdsShortReport_from_u16.
    assert (E1 : Z.shiftr v 10 = 31%Z) by (rewrite Z.shiftr_div_pow2 by lia; symmetry; apply (Z.div_unique _ _ _ (v - 31 * 1024)); lia).
    assert (E2 : Z.land (Z.shiftr v 8) 3 = into_raw (short_report_type r)).
    { rewrite Z.shiftr_div_pow2 by lia. replace (v / 2 ^ 8)%Z with (124 + into_raw (short_report_type r))%Z;
        [by destruct r as [[] ?]|]. apply (Z.div_unique _ _ _ (message_reference r)); [lia|]. unfold v. lia. }
    assert (E3 : Z.land v 0xff = message_reference r).
    { change 0xff%Z with (Z.ones 8). rewrite Z.land_ones by lia. symmetry.
      apply (Z.mod_unique _ _ (124 + into_raw (short_report_type r))); [lia|]. unfold v. lia. }
    rewrite E1, E2, E3. cbv zeta. change (negb (31 =? 31)%Z) with false. cbn iota. rewrite try_from_into_raw. by destruct r.
  - bfalse (x =? 0)%Z. bfalse (x <=? 31743)%Z. by bfalse (x <=? 32767)%Z.
Qed.

Lemma pcs_emits s : pcs_ok s -> emits (write_bits (PreCodedStatus_into_raw s) 16) tt (val_bits 16 (PreCodedStatus_into_raw s)).
Proof. intros H. apply write_bits_emits; [by apply into_raw_u16|lia]. Qed.

Lemma pcs_parses s rest : pcs_ok s -> parses read_pre_coded_status (val_bits 16 (PreCodedStatus_into_raw s)) rest s.
Proof.
  intros H. unfold read_pre_coded_status. rewrite <- (pcs_roundtrip s H) at 2. apply (parses_fmap _ PreCodedStatus_from).
  apply read_u16_parses; [by apply into_raw_u16|lia].
Qed.
#[export] Hint Resolve pcs_emits pcs_parses : l3.

(** ** Round trips of whole PDUs *)

(** What a successful validation says of the fields. *)
Ltac l3_facts H :=
  validations H;
  repeat match goal with
  | V : bounded _ _ ?o = inl _, N : nonneg ?o |- _ => apply bounded_opt_inl in V; [|exact N]
  | V : opt_bsi_validate ?o = inl _, T : option_all Bsi_typed ?o |- _ =>
      let B := fresh "B" in pose proof (opt_bsi_ok _ T V) as B; clear V
  | V : Bsi_validate ?x = inl _, T : Bsi_typed ?x |- _ =>
      let B := fresh "B" in pose proof (Build_Bsi_ok _ T V) as B; clear V
  | V : Bsi_validate ?x = inl _, T : option_all Bsi_typed (Some ?x) |- _ =>
      let B := fresh "B" in pose proof (opt_bsi_ok (Some x) T V) as B; clear V
  | N : nonneg (Some ?v) |- _ => specialize (N v eq_refl); cbn in N
  end.

(** Both cases of the o-bit. *)
Ltac l3_body :=
  cbv zeta;
  match goal with
  | |- context [write_obit (b2z ?c)] =>
      let E := fresh "O" in
      destruct c eqn:E; cbn [negb]; [|none_present E; try discriminate; subst]; (eexists; split; [l3_emit|]); intros ?; l3_parse
  end.

Ltac l3_roundtrip to_bitbuf from_bitbuf validate :=
  intros []; cbn in *; unfold roundtrips, to_bitbuf, from_bitbuf;
  match goal with
  | H : validate _ = inl _ |- _ =>
      rewrite H; cbn; let F := fresh "F" in pose proof H as F; unfold validate in F; cbn in F; l3_facts F; l3_body
  end.
