(* ===== verification/SdsCodec.v ===== *)
(** * User data of short data PDUs

    crates/tetra-saps/src/control/enums/sds_user_data.rs and
    crates/tetra-pdus/src/cmce/pdus/sds_user_data_codec.rs: three fixed sizes and a type 4
    of 8 to 2047 bits, kept as bytes of which the last one may be partly used. *)

From Stdlib Require Import ZArith Lia ZifyNat.
From stdpp Require Import strings.
From S2P Require Import Prelude.
From S2P Require Import BitBuffer.
From S2P Require Import BitBufferFacts.
From S2P Require Import Codec.
From S2P Require Import MacFields.
From S2P Require Import MacPdus.
From S2P Require Import Robust.
From S2P Require Import Circuits.
From S2P Require Import Typed.
From S2P Require Import CmceFields.

Inductive SdsUserData :=
  | Type1 (value : Z)
  | Type2 (value : Z)
  | Type3 (value : Z)
  | Type4 (len_bits : nat) (data : list Z).

Definition type_identifier (self : SdsUserData) : Z :=
  match self with Type1 _ => 0 | Type2 _ => 1 | Type3 _ => 2 | Type4 _ _ => 3 end.

Definition type4_declared_byte_count (len_bits : nat) : option nat :=
  if 2047 <? len_bits then None else Some ((len_bits + 7) / 8).

(** The unused low bits of the last byte are cleared. *)
Definition canonical_type4_bytes (len_bits : nat) (data : list Z) : option (list Z) :=
  expected_bytes ← type4_declared_byte_count len_bits;
  if length data <? expected_bytes then None
  else
    let out := take expected_bytes data in
    let remaining_bits := len_bits mod 8 in
    Some (if 0 <? remaining_bits
          then alter (fun byte => Z.land byte (u8 (Z.shiftl 0xff (Z.of_nat (8 - remaining_bits))))) (length out - 1) out
          else out).

Definition validate_type4_length (len_bits : nat) : unit + PduParseErr :=
  if len_bits <? 8 then inr (InvalidValue "length_indicator" (Z.of_nat len_bits))
  else if 2047 <? len_bits then inr (InvalidValue "length_indicator" (Z.of_nat len_bits))
  else inl tt.

Definition validate_type4_payload (len_bits : nat) (data : list Z) : unit + PduParseErr :=
  then_ (validate_type4_length len_bits) (
  let expected_bytes := (len_bits + 7) / 8 in
  if length data <? expected_bytes then inr (InconsistentLength expected_bytes (length data)) else inl tt).

Definition read_sds_type4_user_data (len_bits : nat) : M SdsUserData :=
  match validate_type4_length len_bits with
  | inr e => fail e
  | inl _ =>
      match type4_declared_byte_count len_bits with
      | None => fail (InvalidValue "length_indicator" (Z.of_nat len_bits))
      | Some num_bytes =>
          data ← read_bits_into_slice len_bits num_bytes;
          match data with
          | None => fail (BufferEnded (Some "user_defined_data_4"))
          | Some data =>
              match canonical_type4_bytes len_bits data with
              | None => fail (InconsistentLength num_bytes (length data))
              | Some data => mret (Type4 len_bits data)
              end
          end
      end
  end.

(** [for byte in data.iter().take(full_bytes) { buffer.write_bits( *byte as u64, 8) }] *)
Fixpoint write_bytes (data : list Z) : M unit :=
  match data with [] => mret tt | byte :: data => write_bits byte 8;; write_bytes data end.

Definition write_sds_user_data (user_defined_data : SdsUserData) : M unit :=
  write_bits (type_identifier user_defined_data) 2;;
  match user_defined_data with
  | Type1 value => write_bits value 16
  | Type2 value => write_bits value 32
  | Type3 value => write_bits value 64
  | Type4 len_bits data =>
      validated (validate_type4_payload len_bits data) (
        write_bits (Z.of_nat len_bits) 11;;
        let full_bytes := len_bits / 8 in
        let remaining_bits := len_bits mod 8 in
        write_bytes (take full_bytes data);;
        if 0 <? remaining_bits then
          match data !! full_bytes with
          | Some byte => write_bits (Z.shiftr byte (Z.of_nat (8 - remaining_bits))) remaining_bits
          | None => fun _ => Panic
          end
        else mret tt)
  end.

(** The short data type identifier and what it announces, as U-SDS-DATA and D-SDS-DATA read it. *)
Definition read_user_data : M SdsUserData :=
  short_data_type_identifier ← read_u8 2 "short_data_type_identifier";
  match short_data_type_identifier with
  | 0%Z => v ← read_u16 16 "user_defined_data_1"; mret (Type1 v)
  | 1%Z => v ← read_u32 32 "user_defined_data_2"; mret (Type2 v)
  | 2%Z => v ← read_field 64 "user_defined_data_3"; mret (Type3 v)
  | 3%Z => len_bits ← read_u16 11 "length_indicator"; read_sds_type4_user_data (Z.to_nat len_bits)
  | _ => fun _ => Panic
  end.

(** ** Bytes on the air *)

(** What reading makes: as many bytes as the length needs, no stray bits in the last one. *)
Definition user_data_ok (d : SdsUserData) : Prop :=
  match d with
  | Type1 v => (0 <= v < 2 ^ 16)%Z
  | Type2 v => (0 <= v < 2 ^ 32)%Z
  | Type3 v => (0 <= v < 2 ^ 64)%Z
  | Type4 len data => 8 <= len /\ Forall is_byte data /\ canonical_type4_bytes len data = Some data
  end.

Definition bytes_img (l : list Z) : list bool := concat (val_bits 8 <$> l).
(** The [rem] bits of a last byte. *)
Definition last_img (rem : nat) (byte : Z) : list bool := val_bits rem (Z.shiftr byte (Z.of_nat (8 - rem))).

Lemma write_bytes_emits l : Forall is_byte l -> emits (write_bytes l) tt (bytes_img l).
Proof.
  induction 1 as [|b l Hb _ IH]; [apply emits_ret|]. cbn [write_bytes]. unfold bytes_img. cbn [fmap list_fmap concat].
  apply emits_bind_tt; [apply write_bits_emits; [exact Hb|lia]|exact IH].
Qed.

(** [read_bits_into_slice], one byte at a time. *)
Lemma slice_step n bits acc bs rest R x :
  length bs = Nat.min bits 8 ->
  parses (read_bits_into_slice_loop n (bits - length bs)
    (acc ++ [u8 (Z.shiftl (u8 (bits_val bs)) (Z.of_nat (8 - Nat.min bits 8)))])) rest R x ->
  parses (read_bits_into_slice_loop (S n) bits acc) (bs ++ rest) R x.
Proof.
  intros Hl H. cbn [read_bits_into_slice_loop]. eapply parses_bind; [apply read_bits_parses; [exact Hl|lia]|].
  cbn iota. rewrite Hl in H. exact H.
Qed.

Lemma slices_whole l n bits acc rest R x :
  Forall is_byte l ->
  parses (read_bits_into_slice_loop n bits (acc ++ l)) rest R x ->
  parses (read_bits_into_slice_loop (length l + n) (8 * length l + bits) acc) (bytes_img l ++ rest) R x.
Proof.
  intros Hl. revert acc. induction Hl as [|b l Hb Hl IH]; intros acc H; [by rewrite app_nil_r in H|].
  unfold bytes_img. cbn [fmap list_fmap concat length]. rewrite <- app_assoc. cbn [Nat.add]. apply slice_step.
  { rewrite length_val_bits. lia. }
  rewrite length_val_bits, bits_val_val_bits_small by exact Hb.
  replace (Nat.min _ 8) with 8 by lia. cbn [Nat.sub Z.of_nat]. rewrite Z.shiftl_0_r.
  replace (u8 (u8 b)) with b by (unfold u8, is_byte in *; rewrite !Z.mod_small; lia).
  replace (8 * S (length l) + bits - 8) with (8 * length l + bits) by lia.
  apply IH. by rewrite <- app_assoc.
Qed.

Lemma shiftr_byte byte rem : is_byte byte -> 0 < rem < 8 -> (0 <= Z.shiftr byte (Z.of_nat (8 - rem)) < 2 ^ Z.of_nat rem)%Z.
Proof.
  unfold is_byte. intros Hb Hr. rewrite Z.shiftr_div_pow2 by lia. split; [apply Z.div_pos; lia|].
  apply Z.div_lt_upper_bound; [lia|]. rewrite <- Z.pow_add_r by lia.
  replace (Z.of_nat (8 - rem) + Z.of_nat rem)%Z with 8%Z by lia. lia.
Qed.

(** A byte that the mask leaves alone is its upper bits. *)
Lemma masked_byte byte rem :
  is_byte byte -> 0 < rem < 8 -> Z.land byte (u8 (Z.shiftl 0xff (Z.of_nat (8 - rem)))) = byte ->
  u8 (Z.shiftl (u8 (Z.shiftr byte (Z.of_nat (8 - rem)))) (Z.of_nat (8 - rem))) = byte.
Proof.
  intros Hb Hr Hm. set (k := Z.of_nat (8 - rem)) in *. assert (Hk : (0 < k < 8)%Z) by lia.
  pose proof (shiftr_byte byte rem Hb Hr) as Hs. fold k in Hs.
  assert (E : Z.shiftl (Z.shiftr byte k) k = byte).
  { apply Z.bits_inj'. intros n Hn. destruct (Z.lt_ge_cases n k).
    - rewrite Z.shiftl_spec_low by lia. rewrite <- Hm, Z.land_spec. unfold u8.
      rewrite Z.mod_pow2_bits_low, Z.shiftl_spec_low, andb_false_r by lia. done.
    - rewrite Z.shiftl_spec by lia. rewrite Z.shiftr_spec by lia. f_equal. lia. }
  assert (H256 : (2 ^ Z.of_nat rem <= 256)%Z) by (change 256%Z with (2 ^ 8)%Z; apply Z.pow_le_mono_r; lia).
  unfold u8. change (2 ^ 8)%Z with 256%Z. rewrite (Z.mod_small (Z.shiftr byte k)) by lia. rewrite E. by apply Z.mod_small.
Qed.

(** Canonical bytes: the full ones, then one whose unused bits are clear. *)
Lemma canonical_split len data :
  canonical_type4_bytes len data = Some data ->
  len <= 2047 /\
  ((len mod 8 = 0 /\ length data = len / 8) \/
   (0 < len mod 8 < 8 /\ exists full byte, data = full ++ [byte] /\ length full = len / 8 /\
      Z.land byte (u8 (Z.shiftl 0xff (Z.of_nat (8 - len mod 8)))) = byte)).
Proof.
  unfold canonical_type4_bytes, type4_declared_byte_count. destruct (Nat.ltb_spec 2047 len) as [Hl|Hl]; [done|].
  cbn [mbind option_bind]. destruct (Nat.ltb_spec (length data) ((len + 7) / 8)) as [Hd|Hd]; [done|].
  pose proof (Nat.div_mod_eq len 8) as Hdm. pose proof (Nat.mod_upper_bound len 8 ltac:(lia)) as Hm. intros [= E].
  split; [done|]. destruct (Nat.ltb_spec 0 (len mod 8)) as [H0|H0].
  - right. split; [lia|]. assert (Hn : (len + 7) / 8 = S (len / 8)) by (symmetry; apply (Nat.div_unique _ _ _ (len mod 8 - 1)); lia).
    rewrite Hn in *. apply (f_equal length) in E as El. rewrite length_alter, length_take in El.
    rewrite take_ge in E by lia. assert (Hld : length data = S (len / 8)) by lia.
    destruct data as [|byte full _] using rev_ind; [done|].
    rewrite length_app in *. cbn in *. exists full, byte. split; [done|]. split; [lia|].
    apply (f_equal (lookup (length full))) in E. replace (length full + 1 - 1) with (length full) in E by lia.
    rewrite list_lookup_alter_eq, lookup_app_r, Nat.sub_diag in E by lia. cbn in E. by injection E.
  - left. split; [lia|]. apply (f_equal length) in E. rewrite length_take in E.
    replace ((len + 7) / 8) with (len / 8) in * by (apply (Nat.div_unique _ _ _ 7); lia). lia.
Qed.

Definition type4_img (len : nat) (data : list Z) : list bool :=
  bytes_img (take (len / 8) data) ++
  match data !! (len / 8) with
  | Some byte => if 0 <? len mod 8 then last_img (len mod 8) byte else []
  | None => []
  end.

Lemma type4_parses len data rest :
  8 <= len -> Forall is_byte data -> canonical_type4_bytes len data = Some data ->
  parses (read_sds_type4_user_data len) (type4_img len data) rest (Type4 len data).
Proof.
  intros H8 Hb Hc. destruct (canonical_split len data Hc) as [H2047 Hs]. unfold read_sds_type4_user_data, validate_type4_length.
  bfalse (len <? 8). bfalse (2047 <? len). unfold type4_declared_byte_count. bfalse (2047 <? len).
  pose proof (Nat.div_mod_eq len 8) as Hdm. unfold read_bits_into_slice. rewrite Nat.leb_refl.
  rewrite <- (app_nil_r (type4_img len data)). eapply parses_bind with (a := Some data); [|cbn iota; rewrite Hc; apply parses_ret].
  unfold type4_img. destruct Hs as [[Hm Hl]|[Hm (full & byte & -> & Hl & Hbyte)]].
  - rewrite lookup_ge_None_2, take_ge by lia.
    replace ((len + 7) / 8) with (length data + 0) by (rewrite Hl; symmetry; transitivity (len / 8); [symmetry; apply (Nat.div_unique _ _ _ 7); lia|lia]).
    replace len with (8 * length data + 0) at 1 by lia. apply slices_whole; [done|]. apply parses_ret.
  - apply Forall_app in Hb as [Hf [Hb _]%Forall_cons].
    rewrite lookup_app_r, Hl, Nat.sub_diag by lia. rewrite <- Hl, take_app_length. cbn [lookup list_lookup]. btrue (0 <? len mod 8).
    replace ((len + 7) / 8) with (length full + 1) by (symmetry; rewrite Hl; symmetry; apply (Nat.div_unique _ _ _ (len mod 8 - 1)); lia).
    replace len with (8 * length full + len mod 8) at 1 by lia. apply slices_whole; [done|]. cbn [app].
    rewrite <- (app_nil_r (last_img _ _)). apply slice_step; [unfold last_img; rewrite length_val_bits; lia|].
    unfold last_img. rewrite length_val_bits, bits_val_val_bits_small by (by apply shiftr_byte).
    rewrite Nat.min_l, masked_byte by (done || lia). apply parses_ret.
Qed.

Lemma type4_emits len data :
  8 <= len -> Forall is_byte data -> canonical_type4_bytes len data = Some data ->
  emits (write_sds_user_data (Type4 len data)) tt (val_bits 2 3 ++ val_bits 11 (Z.of_nat len) ++ type4_img len data).
Proof.
  intros H8 Hb Hc. destruct (canonical_split len data Hc) as [H2047 Hs]. pose proof (Nat.div_mod_eq len 8) as Hdm.
  unfold write_sds_user_data. cbn [type_identifier]. apply emits_bind_tt; [apply write_bits_emits; lia|].
  unfold validate_type4_payload, validate_type4_length. bfalse (len <? 8). bfalse (2047 <? len). cbn [then_].
  assert (Hld : (len + 7) / 8 <= length data).
  { destruct Hs as [[Hm Hl]|[Hm (full & byte & -> & Hl & _)]]; [rewrite Hl; apply Nat.lt_succ_r, Nat.Div0.div_lt_upper_bound; lia|].
    rewrite length_app. cbn. apply Nat.lt_succ_r, Nat.Div0.div_lt_upper_bound. lia. }
  bfalse (length data <? (len + 7) / 8). cbn [validated]. apply emits_bind_tt; [apply write_bits_emits; lia|]. cbv zeta.
  unfold type4_img. apply emits_bind_tt; [apply write_bytes_emits; by apply Forall_take|].
  destruct Hs as [[Hm Hl]|[Hm (full & byte & -> & Hl & _)]].
  - rewrite Hm. cbn. rewrite lookup_ge_None_2 by lia. apply emits_ret.
  - btrue (0 <? len mod 8). rewrite lookup_app_r, Hl, Nat.sub_diag by lia. cbn [lookup list_lookup].
    apply Forall_app in Hb as [_ [Hb _]%Forall_cons]. apply write_bits_emits; [by apply shiftr_byte|lia].
Qed.

Definition user_data_img (d : SdsUserData) : list bool :=
  val_bits 2 (type_identifier d) ++
  match d with
  | Type1 v => val_bits 16 v
  | Type2 v => val_bits 32 v
  | Type3 v => val_bits 64 v
  | Type4 len data => val_bits 11 (Z.of_nat len) ++ type4_img len data
  end.

Lemma user_data_emits d : user_data_ok d -> emits (write_sds_user_data d) tt (user_data_img d).
Proof.
  destruct d as [v|v|v|len data]; cbn [user_data_ok]; intros H; [..|by apply type4_emits; apply H];
    (apply emits_bind_tt; apply write_bits_emits; cbn in *; lia).
Qed.

Lemma user_data_parses d rest : user_data_ok d -> parses read_user_data (user_data_img d) rest d.
Proof.
  destruct d as [v|v|v|len data]; cbn [user_data_ok]; intros H; unfold read_user_data, user_data_img;
    (eapply parses_bind; [apply read_u8_parses; cbn; lia|]); cbn [type_identifier].
  - apply (parses_fmap _ Type1), read_u16_parses; lia.
  - apply (parses_fmap _ Type2), read_u32_parses; lia.
  - apply (parses_fmap _ Type3), read_field_val; lia.
  - destruct H as (H8 & Hb & Hc). pose proof (proj1 (canonical_split len data Hc)) as Hl.
    eapply parses_bind; [apply read_u16_parses; lia|]. rewrite Nat2Z.id. by apply type4_parses.
Qed.
#[export] Hint Resolve user_data_emits user_data_parses : l3.
