(* ===== verification/CmceUl.v ===== *)
(** * Uplink call control PDUs (crates/tetra-pdus/src/cmce/pdus/u_*.rs)

    One section per PDU: the structure, what [validate] demands of it, the two directions of
    the codec and their round trip. *)

From Stdlib Require Import ZArith Lia ZifyNat.
From stdpp Require Import strings.
From S2P Require Import Prelude.
From S2P Require Import BitBuffer.
From S2P Require Import BitBufferFacts.
From S2P Require Import Codec.
From S2P Require Import MacFields.
From S2P Require Import MacPdus.
From S2P Require Import Robust.
From S2P Require Import Circuits.
From S2P Require Import Typed.
From S2P Require Import CmceFields.
From S2P Require Import SdsCodec.

(** ** U-ALERT *)

Record UAlert := mkUAlert {
  ual_call_identifier : Z;
  ual_reserved : bool;
  ual_simplex_duplex_selection : bool;
  ual_basic_service_information : option BasicServiceInformation;
  ual_facility : option Type3FieldGeneric;
  ual_proprietary : option Type3FieldGeneric
}.

Definition UAlert_validate (self : UAlert) : unit + PduParseErr :=
  then_ (at_most "call_identifier" MAX_U14 (ual_call_identifier self)) (
  then_ (if negb (ual_reserved self) then inr (InvalidValue "reserved" 0) else inl tt) (
  opt_bsi_validate (ual_basic_service_information self))).

Definition UAlert_from_bitbuf : M UAlert :=
  expect_pdu_type 5 0;;
  call_identifier ← read_u16 14 "call_identifier";
  reserved ← read_flag "reserved";
  simplex_duplex_selection ← read_flag "simplex_duplex_selection";
  obit ← read_obit;
  basic_service_information ← parse_type2_struct obit Bsi_from_bitbuf;
  facility ← parse_type3_generic obit (elem_id Facility);
  proprietary ← parse_type3_generic obit (elem_id Proprietary);
  read_trailing obit;;
  mret (mkUAlert call_identifier reserved simplex_duplex_selection basic_service_information facility proprietary).

Definition UAlert_to_bitbuf (self : UAlert) : M unit :=
  validated (UAlert_validate self) (
    write_bits 0 5;;
    write_bits (ual_call_identifier self) 14;;
    write_bits (b2z (ual_reserved self)) 1;;
    write_bits (b2z (ual_simplex_duplex_selection self)) 1;;
    let obit := is_some (ual_basic_service_information self) || is_some (ual_facility self) || is_some
      (ual_proprietary self) in
    write_obit (b2z obit);;
    if negb obit then mret tt
    else
      write_type2_struct obit (ual_basic_service_information self) Bsi_to_bitbuf;;
      write_type3_generic obit (ual_facility self) (elem_id Facility);;
      write_type3_generic obit (ual_proprietary self) (elem_id Proprietary);;
      write_mbit 0).

Record UAlert_ok (x : UAlert) : Prop := {
  ual_ok_call_identifier : (0 <= ual_call_identifier x)%Z;
  ual_ok_basic_service_information : option_all Bsi_typed (ual_basic_service_information x);
  ual_ok_facility : option_all (valid3 (elem_id Facility)) (ual_facility x);
  ual_ok_proprietary : option_all (valid3 (elem_id Proprietary)) (ual_proprietary x);
  ual_ok_valid : UAlert_validate x = inl tt
}.

Lemma UAlert_roundtrips x : UAlert_ok x -> roundtrips UAlert_to_bitbuf UAlert_from_bitbuf x.
Proof. destruct x. l3_roundtrip UAlert_to_bitbuf UAlert_from_bitbuf UAlert_validate. Qed.

(** ** U-CALL-RESTORE *)

Record UCallRestore := mkUCallRestore {
  ucr_call_identifier : Z;
  ucr_request_to_transmit_send_data : bool;
  ucr_other_party_type_identifier : Z;
  ucr_other_party_short_number_address : option Z;
  ucr_other_party_ssi : option Z;
  ucr_other_party_extension : option Z;
  ucr_basic_service_information : option BasicServiceInformation;
  ucr_facility : option Type3FieldGeneric;
  ucr_dm_ms_address : option Type3FieldGeneric;
  ucr_proprietary : option Type3FieldGeneric
}.

Definition UCallRestore_validate (self : UCallRestore) : unit + PduParseErr :=
  then_ (at_most "call_identifier" MAX_U14 (ucr_call_identifier self)) (
  then_
  (match ucr_other_party_type_identifier self with
  | 0 =>
      required "other_party_short_number_address" (ucr_other_party_short_number_address self) (fun short =>
      then_ (at_most "other_party_short_number_address" MAX_U8 short) (
      then_ (require_absent "other_party_ssi" "not valid for OPTI=SNA" (ucr_other_party_ssi self))
      (require_absent "other_party_extension" "not valid for OPTI=SNA" (ucr_other_party_extension self))))
  | 1 =>
      required "other_party_ssi" (ucr_other_party_ssi self) (fun ssi =>
      then_ (at_most "other_party_ssi" MAX_U24 ssi) (
      then_ (require_absent "other_party_short_number_address" "not valid for OPTI=SSI"
          (ucr_other_party_short_number_address self))
      (require_absent "other_party_extension" "not valid for OPTI=SSI" (ucr_other_party_extension self))))
  | 2 =>
      required "other_party_ssi" (ucr_other_party_ssi self) (fun ssi =>
      then_ (at_most "other_party_ssi" MAX_U24 ssi) (
      required "other_party_extension" (ucr_other_party_extension self) (fun extension =>
      then_ (at_most "other_party_extension" MAX_U24 extension)
      (require_absent "other_party_short_number_address" "not valid for OPTI=TSI"
          (ucr_other_party_short_number_address self)))))
  | value => inr (InvalidValue "other_party_type_identifier" value)
  end%Z) (
  required "basic_service_information" (ucr_basic_service_information self) Bsi_validate)).

Definition UCallRestore_from_bitbuf : M UCallRestore :=
  expect_pdu_type 5 14;;
  call_identifier ← read_u16 14 "call_identifier";
  request_to_transmit_send_data ← read_flag "request_to_transmit_send_data";
  other_party_type_identifier ← read_u8 2 "other_party_type_identifier";
  other_party_short_number_address ← read_if ((other_party_type_identifier =? 0)%Z) 8
    "other_party_short_number_address";
  other_party_ssi ← read_if ((other_party_type_identifier =? 1)%Z || (other_party_type_identifier =? 2)%Z) 24
    "other_party_ssi";
  other_party_extension ← read_if ((other_party_type_identifier =? 2)%Z) 24 "other_party_extension";
  obit ← read_obit;
  basic_service_information ← parse_type2_struct obit Bsi_from_bitbuf;
  facility ← parse_type3_generic obit (elem_id Facility);
  dm_ms_address ← parse_type3_generic obit (elem_id DmMsAddr);
  proprietary ← parse_type3_generic obit (elem_id Proprietary);
  read_trailing obit;;
  let pdu := mkUCallRestore call_identifier request_to_transmit_send_data other_party_type_identifier
    other_party_short_number_address other_party_ssi other_party_extension basic_service_information facility
    dm_ms_address proprietary in checked (UCallRestore_validate pdu) pdu.

Definition UCallRestore_to_bitbuf (self : UCallRestore) : M unit :=
  validated (UCallRestore_validate self) (
    write_bits 14 5;;
    write_bits (ucr_call_identifier self) 14;;
    write_bits (b2z (ucr_request_to_transmit_send_data self)) 1;;
    write_bits (ucr_other_party_type_identifier self) 2;;
    write_some (fun v => write_bits v 8) (ucr_other_party_short_number_address self);;
    write_some (fun v => write_bits v 24) (ucr_other_party_ssi self);;
    write_some (fun v => write_bits v 24) (ucr_other_party_extension self);;
    let obit := is_some (ucr_basic_service_information self) || is_some (ucr_facility self) || is_some
      (ucr_dm_ms_address self) || is_some (ucr_proprietary self) in
    write_obit (b2z obit);;
    if negb obit then mret tt
    else
      write_type2_struct obit (ucr_basic_service_information self) Bsi_to_bitbuf;;
      write_type3_generic obit (ucr_facility self) (elem_id Facility);;
      write_type3_generic obit (ucr_dm_ms_address self) (elem_id DmMsAddr);;
      write_type3_generic obit (ucr_proprietary self) (elem_id Proprietary);;
      write_mbit 0).

Record UCallRestore_ok (x : UCallRestore) : Prop := {
  ucr_ok_call_identifier : (0 <= ucr_call_identifier x)%Z;
  ucr_ok_other_party_type_identifier : (0 <= ucr_other_party_type_identifier x)%Z;
  ucr_ok_other_party_short_number_address : nonneg (ucr_other_party_short_number_address x);
  ucr_ok_other_party_ssi : nonneg (ucr_other_party_ssi x);
  ucr_ok_other_party_extension : nonneg (ucr_other_party_extension x);
  ucr_ok_basic_service_information : option_all Bsi_typed (ucr_basic_service_information x);
  ucr_ok_facility : option_all (valid3 (elem_id Facility)) (ucr_facility x);
  ucr_ok_dm_ms_address : option_all (valid3 (elem_id DmMsAddr)) (ucr_dm_ms_address x);
  ucr_ok_proprietary : option_all (valid3 (elem_id Proprietary)) (ucr_proprietary x);
  ucr_ok_valid : UCallRestore_validate x = inl tt
}.

Lemma UCallRestore_roundtrips x : UCallRestore_ok x -> roundtrips UCallRestore_to_bitbuf UCallRestore_from_bitbuf x.
Proof. destruct x. l3_roundtrip UCallRestore_to_bitbuf UCallRestore_from_bitbuf UCallRestore_validate. Qed.

(** ** U-CONNECT *)

Record UConnect := mkUConnect {
  ucn_call_identifier : Z;
  ucn_hook_method_selection : bool;
  ucn_simplex_duplex_selection : bool;
  ucn_basic_service_information : option BasicServiceInformation;
  ucn_facility : option Type3FieldGeneric;
  ucn_proprietary : option Type3FieldGeneric
}.

Definition UConnect_validate (self : UConnect) : unit + PduParseErr :=
  then_ (at_most "call_identifier" MAX_U14 (ucn_call_identifier self)) (
  opt_bsi_validate (ucn_basic_service_information self)).

Definition UConnect_from_bitbuf : M UConnect :=
  expect_pdu_type 5 2;;
  call_identifier ← read_u16 14 "call_identifier";
  hook_method_selection ← read_flag "hook_method_selection";
  simplex_duplex_selection ← read_flag "simplex_duplex_selection";
  obit ← read_obit;
  basic_service_information ← parse_type2_struct obit Bsi_from_bitbuf;
  facility ← parse_type3_generic obit (elem_id Facility);
  proprietary ← parse_type3_generic obit (elem_id Proprietary);
  read_trailing obit;;
  mret (mkUConnect call_identifier hook_method_selection simplex_duplex_selection basic_service_information facility
    proprietary).

Definition UConnect_to_bitbuf (self : UConnect) : M unit :=
  validated (UConnect_validate self) (
    write_bits 2 5;;
    write_bits (ucn_call_identifier self) 14;;
    write_bits (b2z (ucn_hook_method_selection self)) 1;;
    write_bits (b2z (ucn_simplex_duplex_selection self)) 1;;
    let obit := is_some (ucn_basic_service_information self) || is_some (ucn_facility self) || is_some
      (ucn_proprietary self) in
    write_obit (b2z obit);;
    if negb obit then mret tt
    else
      write_type2_struct obit (ucn_basic_service_information self) Bsi_to_bitbuf;;
      write_type3_generic obit (ucn_facility self) (elem_id Facility);;
      write_type3_generic obit (ucn_proprietary self) (elem_id Proprietary);;
      write_mbit 0).

Record UConnect_ok (x : UConnect) : Prop := {
  ucn_ok_call_identifier : (0 <= ucn_call_identifier x)%Z;
  ucn_ok_basic_service_information : option_all Bsi_typed (ucn_basic_service_information x);
  ucn_ok_facility : option_all (valid3 (elem_id Facility)) (ucn_facility x);
  ucn_ok_proprietary : option_all (valid3 (elem_id Proprietary)) (ucn_proprietary x);
  ucn_ok_valid : UConnect_validate x = inl tt
}.

Lemma UConnect_roundtrips x : UConnect_ok x -> roundtrips UConnect_to_bitbuf UConnect_from_bitbuf x.
Proof. destruct x. l3_roundtrip UConnect_to_bitbuf UConnect_from_bitbuf UConnect_validate. Qed.

(** ** U-DISCONNECT *)

Record UDisconnect := mkUDisconnect {
  udc_call_identifier : Z;
  udc_disconnect_cause : DisconnectCause;
  udc_facility : option Type3FieldGeneric;
  udc_proprietary : option Type3FieldGeneric
}.

Definition UDisconnect_validate (self : UDisconnect) : unit + PduParseErr :=
  at_most "call_identifier" MAX_U14 (udc_call_identifier self).

Definition UDisconnect_from_bitbuf : M UDisconnect :=
  expect_pdu_type 5 4;;
  call_identifier ← read_u16 14 "call_identifier";
  disconnect_cause ← read_enum DisconnectCause 5 "disconnect_cause";
  obit ← read_obit;
  facility ← parse_type3_generic obit (elem_id Facility);
  proprietary ← parse_type3_generic obit (elem_id Proprietary);
  read_trailing obit;;
  mret (mkUDisconnect call_identifier disconnect_cause facility proprietary).

Definition UDisconnect_to_bitbuf (self : UDisconnect) : M unit :=
  validated (UDisconnect_validate self) (
    write_bits 4 5;;
    write_bits (udc_call_identifier self) 14;;
    write_bits (into_raw (udc_disconnect_cause self)) 5;;
    let obit := is_some (udc_facility self) || is_some (udc_proprietary self) in
    write_obit (b2z obit);;
    if negb obit then mret tt
    else
      write_type3_generic obit (udc_facility self) (elem_id Facility);;
      write_type3_generic obit (udc_proprietary self) (elem_id Proprietary);;
      write_mbit 0).

Record UDisconnect_ok (x : UDisconnect) : Prop := {
  udc_ok_call_identifier : (0 <= udc_call_identifier x)%Z;
  udc_ok_facility : option_all (valid3 (elem_id Facility)) (udc_facility x);
  udc_ok_proprietary : option_all (valid3 (elem_id Proprietary)) (udc_proprietary x);
  udc_ok_valid : UDisconnect_validate x = inl tt
}.

Lemma UDisconnect_roundtrips x : UDisconnect_ok x -> roundtrips UDisconnect_to_bitbuf UDisconnect_from_bitbuf x.
Proof. destruct x. l3_roundtrip UDisconnect_to_bitbuf UDisconnect_from_bitbuf UDisconnect_validate. Qed.

(** ** U-FACILITY *)

Inductive UFacility := mkUFacility.

Definition UFacility_from_bitbuf : M UFacility :=
  expect_pdu_type 5 16;;
  obit ← read_obit;
  read_trailing obit;;
  mret (mkUFacility).

Definition UFacility_to_bitbuf (self : UFacility) : M unit :=
  write_bits 16 5;;
  write_mbit 0.

Lemma UFacility_roundtrips x : roundtrips UFacility_to_bitbuf UFacility_from_bitbuf x.
Proof. destruct x. unfold roundtrips, UFacility_to_bitbuf, UFacility_from_bitbuf. eexists. split; [l3_emit|]. intros ?. l3_parse. Qed.

(** ** U-INFO *)

Record UInfo := mkUInfo {
  uin_call_identifier : Z;
  uin_poll_response : bool;
  uin_modify : option Z;
  uin_dtmf : option Type3FieldGeneric;
  uin_facility : option Type3FieldGeneric;
  uin_proprietary : option Type3FieldGeneric
}.

Definition UInfo_validate (self : UInfo) : unit + PduParseErr :=
  then_ (at_most "call_identifier" MAX_U14 (uin_call_identifier self)) (
  bounded "modify" MAX_U9 (uin_modify self)).

Definition UInfo_from_bitbuf : M UInfo :=
  expect_pdu_type 5 5;;
  call_identifier ← read_u16 14 "call_identifier";
  poll_response ← read_flag "poll_response";
  obit ← read_obit;
  modify ← parse_type2_generic obit 9 "modify";
  dtmf ← parse_type3_generic obit (elem_id Dtmf);
  facility ← parse_type3_generic obit (elem_id Facility);
  proprietary ← parse_type3_generic obit (elem_id Proprietary);
  read_trailing obit;;
  mret (mkUInfo call_identifier poll_response modify dtmf facility proprietary).

Definition UInfo_to_bitbuf (self : UInfo) : M unit :=
  validated (UInfo_validate self) (
    write_bits 5 5;;
    write_bits (uin_call_identifier self) 14;;
    write_bits (b2z (uin_poll_response self)) 1;;
    let obit := is_some (uin_modify self) || is_some (uin_dtmf self) || is_some (uin_facility self) || is_some
      (uin_proprietary self) in
    write_obit (b2z obit);;
    if negb obit then mret tt
    else
      write_type2_generic obit (uin_modify self) 9;;
      write_type3_generic obit (uin_dtmf self) (elem_id Dtmf);;
      write_type3_generic obit (uin_facility self) (elem_id Facility);;
      write_type3_generic obit (uin_proprietary self) (elem_id Proprietary);;
      write_mbit 0).

Record UInfo_ok (x : UInfo) : Prop := {
  uin_ok_call_identifier : (0 <= uin_call_identifier x)%Z;
  uin_ok_modify : nonneg (uin_modify x);
  uin_ok_dtmf : option_all (valid3 (elem_id Dtmf)) (uin_dtmf x);
  uin_ok_facility : option_all (valid3 (elem_id Facility)) (uin_facility x);
  uin_ok_proprietary : option_all (valid3 (elem_id Proprietary)) (uin_proprietary x);
  uin_ok_valid : UInfo_validate x = inl tt
}.

Lemma UInfo_roundtrips x : UInfo_ok x -> roundtrips UInfo_to_bitbuf UInfo_from_bitbuf x.
Proof. destruct x. l3_roundtrip UInfo_to_bitbuf UInfo_from_bitbuf UInfo_validate. Qed.

(** ** U-RELEASE *)

Record URelease := mkURelease {
  url_call_identifier : Z;
  url_disconnect_cause : DisconnectCause;
  url_facility : option Type3FieldGeneric;
  url_proprietary : option Type3FieldGeneric
}.

Definition URelease_validate (self : URelease) : unit + PduParseErr :=
  at_most "call_identifier" MAX_U14 (url_call_identifier self).

Definition URelease_from_bitbuf : M URelease :=
  expect_pdu_type 5 6;;
  call_identifier ← read_u16 14 "call_identifier";
  disconnect_cause ← read_enum DisconnectCause 5 "disconnect_cause";
  obit ← read_obit;
  facility ← parse_type3_generic obit (elem_id Facility);
  proprietary ← parse_type3_generic obit (elem_id Proprietary);
  read_trailing obit;;
  mret (mkURelease call_identifier disconnect_cause facility proprietary).

Definition URelease_to_bitbuf (self : URelease) : M unit :=
  validated (URelease_validate self) (
    write_bits 6 5;;
    write_bits (url_call_identifier self) 14;;
    write_bits (into_raw (url_disconnect_cause self)) 5;;
    let obit := is_some (url_facility self) || is_some (url_proprietary self) in
    write_obit (b2z obit);;
    if negb obit then mret tt
    else
      write_type3_generic obit (url_facility self) (elem_id Facility);;
      write_type3_generic obit (url_proprietary self) (elem_id Proprietary);;
      write_mbit 0).

Record URelease_ok (x : URelease) : Prop := {
  url_ok_call_identifier : (0 <= url_call_identifier x)%Z;
  url_ok_facility : option_all (valid3 (elem_id Facility)) (url_facility x);
  url_ok_proprietary : option_all (valid3 (elem_id Proprietary)) (url_proprietary x);
  url_ok_valid : URelease_validate x = inl tt
}.

Lemma URelease_roundtrips x : URelease_ok x -> roundtrips URelease_to_bitbuf URelease_from_bitbuf x.
Proof. destruct x. l3_roundtrip URelease_to_bitbuf URelease_from_bitbuf URelease_validate. Qed.

(** ** U-SETUP *)

Record USetup := mkUSetup {
  usu_area_selection : Z;
  usu_hook_method_selection : bool;
  usu_simplex_duplex_selection : bool;
  usu_basic_service_information : BasicServiceInformation;
  usu_request_to_transmit_send_data : bool;
  usu_call_priority : Z;
  usu_clir_control : Z;
  usu_called_party_type_identifier : PartyTypeIdentifier;
  usu_called_party_short_number_address : option Z;
  usu_called_party_ssi : option Z;
  usu_called_party_extension : option Z;
  usu_external_subscriber_number : option Type3FieldGeneric;
  usu_facility : option Type3FieldGeneric;
  usu_dm_ms_address : option Type3FieldGeneric;
  usu_proprietary : option Type3FieldGeneric
}.

Definition USetup_validate (self : USetup) : unit + PduParseErr :=
  then_ (at_most "area_selection" MAX_U4 (usu_area_selection self)) (
  then_ (Bsi_validate (usu_basic_service_information self)) (
  then_ (at_most "call_priority" MAX_U4 (usu_call_priority self)) (
  then_ (at_most "clir_control" MAX_U2 (usu_clir_control self)) (
  match usu_called_party_type_identifier self with
  | PtiSna =>
      required "called_party_short_number_address" (usu_called_party_short_number_address self) (fun short =>
      then_ (at_most "called_party_short_number_address" MAX_U8 short) (
      then_ (require_absent "called_party_ssi" "not valid for SNA called party type identifier"
          (usu_called_party_ssi self))
      (require_absent "called_party_extension" "not valid for SNA called party type identifier"
          (usu_called_party_extension self))))
  | PtiSsi =>
      then_ (require_absent "called_party_short_number_address" "not valid for SSI called party type identifier"
          (usu_called_party_short_number_address self)) (
      required "called_party_ssi" (usu_called_party_ssi self) (fun ssi =>
      then_ (at_most "called_party_ssi" MAX_U24 ssi)
      (require_absent "called_party_extension" "not valid for SSI called party type identifier"
          (usu_called_party_extension self))))
  | PtiTsi =>
      then_ (require_absent "called_party_short_number_address" "not valid for TSI called party type identifier"
          (usu_called_party_short_number_address self)) (
      required "called_party_ssi" (usu_called_party_ssi self) (fun ssi =>
      then_ (at_most "called_party_ssi" MAX_U24 ssi) (
      required "called_party_extension" (usu_called_party_extension self) (fun extension =>
      at_most "called_party_extension" MAX_U24 extension))))
  | PtiReserved => inr (InvalidValue "called_party_type_identifier" (into_raw PtiReserved))
  end)))).

Definition USetup_from_bitbuf : M USetup :=
  expect_pdu_type 5 7;;
  area_selection ← read_u8 4 "area_selection";
  hook_method_selection ← read_flag "hook_method_selection";
  simplex_duplex_selection ← read_flag "simplex_duplex_selection";
  basic_service_information ← Bsi_from_bitbuf;
  request_to_transmit_send_data ← read_flag "request_to_transmit_send_data";
  call_priority ← read_u8 4 "call_priority";
  clir_control ← read_u8 2 "clir_control";
  called_party_type_identifier ← read_enum PartyTypeIdentifier 2 "called_party_type_identifier";
  called_party_short_number_address ← read_if (bool_decide (called_party_type_identifier = PtiSna)) 8
    "called_party_short_number_address";
  called_party_ssi ← read_if (bool_decide (called_party_type_identifier = PtiSsi) || bool_decide
    (called_party_type_identifier = PtiTsi)) 24 "called_party_ssi";
  called_party_extension ← read_if (bool_decide (called_party_type_identifier = PtiTsi)) 24 "called_party_extension";
  obit ← read_obit;
  external_subscriber_number ← parse_type3_generic obit (elem_id ExtSubscriberNum);
  facility ← parse_type3_generic obit (elem_id Facility);
  dm_ms_address ← parse_type3_generic obit (elem_id DmMsAddr);
  proprietary ← parse_type3_generic obit (elem_id Proprietary);
  read_trailing obit;;
  mret (mkUSetup area_selection hook_method_selection simplex_duplex_selection basic_service_information
    request_to_transmit_send_data call_priority clir_control called_party_type_identifier
    called_party_short_number_address called_party_ssi called_party_extension external_subscriber_number facility
    dm_ms_address proprietary).

Definition USetup_to_bitbuf (self : USetup) : M unit :=
  validated (USetup_validate self) (
    write_bits 7 5;;
    write_bits (usu_area_selection self) 4;;
    write_bits (b2z (usu_hook_method_selection self)) 1;;
    write_bits (b2z (usu_simplex_duplex_selection self)) 1;;
    Bsi_to_bitbuf (usu_basic_service_information self);;
    write_bits (b2z (usu_request_to_transmit_send_data self)) 1;;
    write_bits (usu_call_priority self) 4;;
    write_bits (usu_clir_control self) 2;;
    write_bits (into_raw (usu_called_party_type_identifier self)) 2;;
    write_some (fun v => write_bits v 8) (usu_called_party_short_number_address self);;
    write_some (fun v => write_bits v 24) (usu_called_party_ssi self);;
    write_some (fun v => write_bits v 24) (usu_called_party_extension self);;
    let obit := is_some (usu_external_subscriber_number self) || is_some (usu_facility self) || is_some
      (usu_dm_ms_address self) || is_some (usu_proprietary self) in
    write_obit (b2z obit);;
    if negb obit then mret tt
    else
      write_type3_generic obit (usu_external_subscriber_number self) (elem_id ExtSubscriberNum);;
      write_type3_generic obit (usu_facility self) (elem_id Facility);;
      write_type3_generic obit (usu_dm_ms_address self) (elem_id DmMsAddr);;
      write_type3_generic obit (usu_proprietary self) (elem_id Proprietary);;
      write_mbit 0).

Record USetup_ok (x : USetup) : Prop := {
  usu_ok_area_selection : (0 <= usu_area_selection x)%Z;
  usu_ok_basic_service_information : Bsi_typed (usu_basic_service_information x);
  usu_ok_call_priority : (0 <= usu_call_priority x)%Z;
  usu_ok_clir_control : (0 <= usu_clir_control x)%Z;
  usu_ok_called_party_short_number_address : nonneg (usu_called_party_short_number_address x);
  usu_ok_called_party_ssi : nonneg (usu_called_party_ssi x);
  usu_ok_called_party_extension : nonneg (usu_called_party_extension x);
  usu_ok_external_subscriber_number : option_all (valid3 (elem_id ExtSubscriberNum)) (usu_external_subscriber_number x);
  usu_ok_facility : option_all (valid3 (elem_id Facility)) (usu_facility x);
  usu_ok_dm_ms_address : option_all (valid3 (elem_id DmMsAddr)) (usu_dm_ms_address x);
  usu_ok_proprietary : option_all (valid3 (elem_id Proprietary)) (usu_proprietary x);
  usu_ok_valid : USetup_validate x = inl tt
}.

Lemma USetup_roundtrips x : USetup_ok x -> roundtrips USetup_to_bitbuf USetup_from_bitbuf x.
Proof. destruct x. l3_roundtrip USetup_to_bitbuf USetup_from_bitbuf USetup_validate. Qed.

(** ** U-STATUS *)

Record UStatus := mkUStatus {
  ust_area_selection : Z;
  ust_called_party_type_identifier : PartyTypeIdentifier;
  ust_called_party_short_number_address : option Z;
  ust_called_party_ssi : option Z;
  ust_called_party_extension : option Z;
  ust_pre_coded_status : PreCodedStatus;
  ust_external_subscriber_number : option Type3FieldGeneric;
  ust_dm_ms_address : option Type3FieldGeneric
}.

Definition UStatus_validate (self : UStatus) : unit + PduParseErr :=
  then_ (at_most "area_selection" 0x0f (ust_area_selection self)) (
  match ust_called_party_type_identifier self with
  | PtiSna =>
      required "called_party_short_number_address" (ust_called_party_short_number_address self) (fun sna =>
      then_ (at_most "called_party_short_number_address" MAX_U8 sna) (
      then_ (require_absent "called_party_ssi" "not valid for called party type identifier" (ust_called_party_ssi
          self))
      (require_absent "called_party_extension" "not valid for called party type identifier"
          (ust_called_party_extension self))))
  | PtiSsi =>
      required "called_party_ssi" (ust_called_party_ssi self) (fun ssi =>
      then_ (at_most "called_party_ssi" MAX_U24 ssi) (
      then_ (require_absent "called_party_short_number_address" "not valid for called party type identifier"
          (ust_called_party_short_number_address self))
      (require_absent "called_party_extension" "not valid for called party type identifier"
          (ust_called_party_extension self))))
  | PtiTsi =>
      required "called_party_ssi" (ust_called_party_ssi self) (fun ssi =>
      required "called_party_extension" (ust_called_party_extension self) (fun extension =>
      then_ (at_most "called_party_ssi" MAX_U24 ssi) (
      then_ (at_most "called_party_extension" MAX_U24 extension)
      (require_absent "called_party_short_number_address" "not valid for called party type identifier"
          (ust_called_party_short_number_address self)))))
  | PtiReserved => inr (InvalidValue "called_party_type_identifier" (into_raw (ust_called_party_type_identifier
      self)))
  end).

Definition UStatus_from_bitbuf : M UStatus :=
  expect_pdu_type 5 8;;
  area_selection ← read_u8 4 "area_selection";
  called_party_type_identifier ← read_enum PartyTypeIdentifier 2 "called_party_type_identifier";
  if bool_decide (called_party_type_identifier = PtiReserved)
  then fail (InvalidValue "called_party_type_identifier" (into_raw called_party_type_identifier))
  else
  called_party_short_number_address ← read_if (bool_decide (called_party_type_identifier = PtiSna)) 8
    "called_party_short_number_address";
  called_party_ssi ← read_if (bool_decide (called_party_type_identifier = PtiSsi) || bool_decide
    (called_party_type_identifier = PtiTsi)) 24 "called_party_ssi";
  called_party_extension ← read_if (bool_decide (called_party_type_identifier = PtiTsi)) 24 "called_party_extension";
  pre_coded_status ← read_pre_coded_status;
  obit ← read_obit;
  external_subscriber_number ← parse_type3_generic obit (elem_id ExtSubscriberNum);
  dm_ms_address ← parse_type3_generic obit (elem_id DmMsAddr);
  read_trailing obit;;
  mret (mkUStatus area_selection called_party_type_identifier called_party_short_number_address called_party_ssi
    called_party_extension pre_coded_status external_subscriber_number dm_ms_address).

Definition UStatus_to_bitbuf (self : UStatus) : M unit :=
  validated (UStatus_validate self) (
    write_bits 8 5;;
    write_bits (ust_area_selection self) 4;;
    write_bits (into_raw (ust_called_party_type_identifier self)) 2;;
    write_some (fun v => write_bits v 8) (ust_called_party_short_number_address self);;
    write_some (fun v => write_bits v 24) (ust_called_party_ssi self);;
    write_some (fun v => write_bits v 24) (ust_called_party_extension self);;
    write_bits (PreCodedStatus_into_raw (ust_pre_coded_status self)) 16;;
    let obit := is_some (ust_external_subscriber_number self) || is_some (ust_dm_ms_address self) in
    write_obit (b2z obit);;
    if negb obit then mret tt
    else
      write_type3_generic obit (ust_external_subscriber_number self) (elem_id ExtSubscriberNum);;
      write_type3_generic obit (ust_dm_ms_address self) (elem_id DmMsAddr);;
      write_mbit 0).

Record UStatus_ok (x : UStatus) : Prop := {
  ust_ok_area_selection : (0 <= ust_area_selection x)%Z;
  ust_ok_called_party_short_number_address : nonneg (ust_called_party_short_number_address x);
  ust_ok_called_party_ssi : nonneg (ust_called_party_ssi x);
  ust_ok_called_party_extension : nonneg (ust_called_party_extension x);
  ust_ok_pre_coded_status : pcs_ok (ust_pre_coded_status x);
  ust_ok_external_subscriber_number : option_all (valid3 (elem_id ExtSubscriberNum)) (ust_external_subscriber_number x);
  ust_ok_dm_ms_address : option_all (valid3 (elem_id DmMsAddr)) (ust_dm_ms_address x);
  ust_ok_valid : UStatus_validate x = inl tt
}.

Lemma UStatus_roundtrips x : UStatus_ok x -> roundtrips UStatus_to_bitbuf UStatus_from_bitbuf x.
Proof. destruct x. l3_roundtrip UStatus_to_bitbuf UStatus_from_bitbuf UStatus_validate. Qed.

(** ** U-TX-CEASED *)

Record UTxCeased := mkUTxCeased {
  utc_call_identifier : Z;
  utc_facility : option Type3FieldGeneric;
  utc_dm_ms_address : option Type3FieldGeneric;
  utc_proprietary : option Type3FieldGeneric
}.

Definition UTxCeased_validate (self : UTxCeased) : unit + PduParseErr :=
  at_most "call_identifier" MAX_U14 (utc_call_identifier self).

Definition UTxCeased_from_bitbuf : M UTxCeased :=
  expect_pdu_type 5 9;;
  call_identifier ← read_u16 14 "call_identifier";
  obit ← read_obit;
  facility ← parse_type3_generic obit (elem_id Facility);
  dm_ms_address ← parse_type3_generic obit (elem_id DmMsAddr);
  proprietary ← parse_type3_generic obit (elem_id Proprietary);
  read_trailing obit;;
  mret (mkUTxCeased call_identifier facility dm_ms_address proprietary).

Definition UTxCeased_to_bitbuf (self : UTxCeased) : M unit :=
  validated (UTxCeased_validate self) (
    write_bits 9 5;;
    write_bits (utc_call_identifier self) 14;;
    let obit := is_some (utc_facility self) || is_some (utc_dm_ms_address self) || is_some (utc_proprietary self) in
    write_obit (b2z obit);;
    if negb obit then mret tt
    else
      write_type3_generic obit (utc_facility self) (elem_id Facility);;
      write_type3_generic obit (utc_dm_ms_address self) (elem_id DmMsAddr);;
      write_type3_generic obit (utc_proprietary self) (elem_id Proprietary);;
      write_mbit 0).

Record UTxCeased_ok (x : UTxCeased) : Prop := {
  utc_ok_call_identifier : (0 <= utc_call_identifier x)%Z;
  utc_ok_facility : option_all (valid3 (elem_id Facility)) (utc_facility x);
  utc_ok_dm_ms_address : option_all (valid3 (elem_id DmMsAddr)) (utc_dm_ms_address x);
  utc_ok_proprietary : option_all (valid3 (elem_id Proprietary)) (utc_proprietary x);
  utc_ok_valid : UTxCeased_validate x = inl tt
}.

Lemma UTxCeased_roundtrips x : UTxCeased_ok x -> roundtrips UTxCeased_to_bitbuf UTxCeased_from_bitbuf x.
Proof. destruct x. l3_roundtrip UTxCeased_to_bitbuf UTxCeased_from_bitbuf UTxCeased_validate. Qed.

(** ** U-TX-DEMAND *)

Record UTxDemand := mkUTxDemand {
  utd_call_identifier : Z;
  utd_tx_demand_priority : Z;
  utd_encryption_control : bool;
  utd_reserved : bool;
  utd_facility : option Type3FieldGeneric;
  utd_dm_ms_address : option Type3FieldGeneric;
  utd_proprietary : option Type3FieldGeneric
}.

Definition UTxDemand_validate (self : UTxDemand) : unit + PduParseErr :=
  then_ (at_most "call_identifier" MAX_U14 (utd_call_identifier self)) (
  then_ (at_most "tx_demand_priority" MAX_U2 (utd_tx_demand_priority self)) (
  if utd_reserved self then inr (InvalidValue "reserved" 1) else inl tt)).

Definition UTxDemand_from_bitbuf : M UTxDemand :=
  expect_pdu_type 5 10;;
  call_identifier ← read_u16 14 "call_identifier";
  tx_demand_priority ← read_u8 2 "tx_demand_priority";
  encryption_control ← read_flag "encryption_control";
  reserved ← read_flag "reserved";
  obit ← read_obit;
  facility ← parse_type3_generic obit (elem_id Facility);
  dm_ms_address ← parse_type3_generic obit (elem_id DmMsAddr);
  proprietary ← parse_type3_generic obit (elem_id Proprietary);
  read_trailing obit;;
  mret (mkUTxDemand call_identifier tx_demand_priority encryption_control reserved facility dm_ms_address proprietary).

Definition UTxDemand_to_bitbuf (self : UTxDemand) : M unit :=
  validated (UTxDemand_validate self) (
    write_bits 10 5;;
    write_bits (utd_call_identifier self) 14;;
    write_bits (utd_tx_demand_priority self) 2;;
    write_bits (b2z (utd_encryption_control self)) 1;;
    write_bits (b2z (utd_reserved self)) 1;;
    let obit := is_some (utd_facility self) || is_some (utd_dm_ms_address self) || is_some (utd_proprietary self) in
    write_obit (b2z obit);;
    if negb obit then mret tt
    else
      write_type3_generic obit (utd_facility self) (elem_id Facility);;
      write_type3_generic obit (utd_dm_ms_address self) (elem_id DmMsAddr);;
      write_type3_generic obit (utd_proprietary self) (elem_id Proprietary);;
      write_mbit 0).

Record UTxDemand_ok (x : UTxDemand) : Prop := {
  utd_ok_call_identifier : (0 <= utd_call_identifier x)%Z;
  utd_ok_tx_demand_priority : (0 <= utd_tx_demand_priority x)%Z;
  utd_ok_facility : option_all (valid3 (elem_id Facility)) (utd_facility x);
  utd_ok_dm_ms_address : option_all (valid3 (elem_id DmMsAddr)) (utd_dm_ms_address x);
  utd_ok_proprietary : option_all (valid3 (elem_id Proprietary)) (utd_proprietary x);
  utd_ok_valid : UTxDemand_validate x = inl tt
}.

Lemma UTxDemand_roundtrips x : UTxDemand_ok x -> roundtrips UTxDemand_to_bitbuf UTxDemand_from_bitbuf x.
Proof. destruct x. l3_roundtrip UTxDemand_to_bitbuf UTxDemand_from_bitbuf UTxDemand_validate. Qed.

(** ** U-SDS-DATA *)

Record USdsData := mkUSdsData {
  usd_area_selection : Z;
  usd_called_party_type_identifier : PartyTypeIdentifier;
  usd_called_party_short_number_address : option Z;
  usd_called_party_ssi : option Z;
  usd_called_party_extension : option Z;
  usd_user_defined_data : SdsUserData;
  usd_external_subscriber_number : option Type3FieldGeneric;
  usd_dm_ms_address : option Type3FieldGeneric
}.

Definition USdsData_validate (self : USdsData) : unit + PduParseErr :=
  then_ (at_most "area_selection" 0x0f (usd_area_selection self)) (
  match usd_called_party_type_identifier self with
  | PtiSna =>
      required "called_party_short_number_address" (usd_called_party_short_number_address self) (fun sna =>
      then_ (at_most "called_party_short_number_address" MAX_U8 sna) (
      then_ (require_absent "called_party_ssi" "not valid for called party type identifier" (usd_called_party_ssi
          self))
      (require_absent "called_party_extension" "not valid for called party type identifier"
          (usd_called_party_extension self))))
  | PtiSsi =>
      required "called_party_ssi" (usd_called_party_ssi self) (fun ssi =>
      then_ (at_most "called_party_ssi" MAX_U24 ssi) (
      then_ (require_absent "called_party_short_number_address" "not valid for called party type identifier"
          (usd_called_party_short_number_address self))
      (require_absent "called_party_extension" "not valid for called party type identifier"
          (usd_called_party_extension self))))
  | PtiTsi =>
      required "called_party_ssi" (usd_called_party_ssi self) (fun ssi =>
      required "called_party_extension" (usd_called_party_extension self) (fun extension =>
      then_ (at_most "called_party_ssi" MAX_U24 ssi) (
      then_ (at_most "called_party_extension" MAX_U24 extension)
      (require_absent "called_party_short_number_address" "not valid for called party type identifier"
          (usd_called_party_short_number_address self)))))
  | PtiReserved => inr (InvalidValue "called_party_type_identifier" (into_raw (usd_called_party_type_identifier
      self)))
  end).

Definition USdsData_from_bitbuf : M USdsData :=
  expect_pdu_type 5 15;;
  area_selection ← read_u8 4 "area_selection";
  called_party_type_identifier ← read_enum PartyTypeIdentifier 2 "called_party_type_identifier";
  if bool_decide (called_party_type_identifier = PtiReserved)
  then fail (InvalidValue "called_party_type_identifier" (into_raw called_party_type_identifier))
  else
  called_party_short_number_address ← read_if (bool_decide (called_party_type_identifier = PtiSna)) 8
    "called_party_short_number_address";
  called_party_ssi ← read_if (bool_decide (called_party_type_identifier = PtiSsi) || bool_decide
    (called_party_type_identifier = PtiTsi)) 24 "called_party_ssi";
  called_party_extension ← read_if (bool_decide (called_party_type_identifier = PtiTsi)) 24 "called_party_extension";
  user_defined_data ← read_user_data;
  obit ← read_obit;
  external_subscriber_number ← parse_type3_generic obit (elem_id ExtSubscriberNum);
  dm_ms_address ← parse_type3_generic obit (elem_id DmMsAddr);
  read_trailing obit;;
  mret (mkUSdsData area_selection called_party_type_identifier called_party_short_number_address called_party_ssi
    called_party_extension user_defined_data external_subscriber_number dm_ms_address).

Definition USdsData_to_bitbuf (self : USdsData) : M unit :=
  validated (USdsData_validate self) (
    write_bits 15 5;;
    write_bits (usd_area_selection self) 4;;
    write_bits (into_raw (usd_called_party_type_identifier self)) 2;;
    write_some (fun v => write_bits v 8) (usd_called_party_short_number_address self);;
    write_some (fun v => write_bits v 24) (usd_called_party_ssi self);;
    write_some (fun v => write_bits v 24) (usd_called_party_extension self);;
    write_sds_user_data (usd_user_defined_data self);;
    let obit := is_some (usd_external_subscriber_number self) || is_some (usd_dm_ms_address self) in
    write_obit (b2z obit);;
    if negb obit then mret tt
    else
      write_type3_generic obit (usd_external_subscriber_number self) (elem_id ExtSubscriberNum);;
      write_type3_generic obit (usd_dm_ms_address self) (elem_id DmMsAddr);;
      write_mbit 0).

Record USdsData_ok (x : USdsData) : Prop := {
  usd_ok_area_selection : (0 <= usd_area_selection x)%Z;
  usd_ok_called_party_short_number_address : nonneg (usd_called_party_short_number_address x);
  usd_ok_called_party_ssi : nonneg (usd_called_party_ssi x);
  usd_ok_called_party_extension : nonneg (usd_called_party_extension x);
  usd_ok_user_defined_data : user_data_ok (usd_user_defined_data x);
  usd_ok_external_subscriber_number : option_all (valid3 (elem_id ExtSubscriberNum)) (usd_external_subscriber_number x);
  usd_ok_dm_ms_address : option_all (valid3 (elem_id DmMsAddr)) (usd_dm_ms_address x);
  usd_ok_valid : USdsData_validate x = inl tt
}.

Lemma USdsData_roundtrips x : USdsData_ok x -> roundtrips USdsData_to_bitbuf USdsData_from_bitbuf x.
Proof. destruct x. l3_roundtrip USdsData_to_bitbuf USdsData_from_bitbuf USdsData_validate. Qed.

