(* ===== verification/CmceDl.v ===== *)
(** * Downlink call control PDUs (crates/tetra-pdus/src/cmce/pdus/d_*.rs)

    One section per PDU: the structure, what [validate] demands of it, the two directions of
    the codec and their round trip. *)

From Stdlib Require Import ZArith Lia ZifyNat.
From stdpp Require Import strings.
From S2P Require Import Prelude.
From S2P Require Import BitBuffer.
From S2P Require Import BitBufferFacts.
From S2P Require Import Codec.
From S2P Require Import MacFields.
From S2P Require Import MacPdus.
From S2P Require Import Robust.
From S2P Require Import Circuits.
From S2P Require Import Typed.
From S2P Require Import CmceFields.
From S2P Require Import SdsCodec.

(** ** The transmitting party of D-TX-GRANTED and D-TX-INTERRUPT

    Type identifier 1 comes with an address, 2 with an address and an extension. *)

Definition validate_transmitting_party (tpti ssi ext : option Z) : unit + PduParseErr :=
  match tpti with
  | None =>
      then_ (require_absent "transmitting_party_address_ssi" "not valid without transmitting party type identifier" ssi)
      (require_absent "transmitting_party_extension" "not valid without transmitting party type identifier" ext)
  | Some 1%Z =>
      required "transmitting_party_address_ssi" ssi (fun _ =>
      require_absent "transmitting_party_extension" "not valid for transmitting party type identifier" ext)
  | Some 2%Z =>
      required "transmitting_party_address_ssi" ssi (fun _ =>
      required "transmitting_party_extension" ext (fun _ => inl tt))
  | Some value => inr (InvalidValue "transmitting_party_type_identifier" value)
  end.

Definition read_transmitting_party (tpti : option Z) : M (option Z * option Z) :=
  match tpti with
  | None => mret (None, None)
  | Some 1%Z => ssi ← read_field 24 "transmitting_party_address_ssi"; mret (Some ssi, None)
  | Some 2%Z =>
      ssi ← read_field 24 "transmitting_party_address_ssi";
      ext ← read_field 24 "transmitting_party_extension";
      mret (Some ssi, Some ext)
  | Some value => fail (InvalidValue "transmitting_party_type_identifier" value)
  end.

Definition party_img (ssi ext : option Z) : list bool :=
  match ssi with Some v => val_bits 24 v | None => [] end ++ match ext with Some v => val_bits 24 v | None => [] end.
Definition addr24 (o : option Z) : Prop := option_all (fun v => 0 <= v < 0xffffff + 1)%Z o.

Lemma party_cases tpti ssi ext :
  validate_transmitting_party tpti ssi ext = inl tt ->
  (tpti = None /\ ssi = None /\ ext = None) \/
  (exists s, tpti = Some 1%Z /\ ssi = Some s /\ ext = None) \/
  (exists s e, tpti = Some 2%Z /\ ssi = Some s /\ ext = Some e).
Proof.
  destruct tpti as [[|[[]|[[]|[]|]|]|]|]; cbn [validate_transmitting_party]; try discriminate.
  - intros H. validations H. right. right. by do 2 eexists.
  - intros H. validations H. right. left. by eexists.
  - intros H. validations H. left. done.
Qed.

Lemma party_parses tpti ssi ext rest :
  validate_transmitting_party tpti ssi ext = inl tt -> addr24 ssi -> addr24 ext ->
  parses (read_transmitting_party tpti) (party_img ssi ext) rest (ssi, ext).
Proof.
  intros [(-> & -> & ->)|[(s & -> & -> & ->)|(s & e & -> & -> & ->)]]%party_cases Hs He; unfold party_img.
  - apply (parses_ret (None, None)).
  - rewrite app_nil_r. apply (parses_fmap _ (fun s => (Some s, None))). apply read_field_val; [by apply Hs|lia].
  - eapply parses_bind; [apply read_field_val; [by apply Hs|lia]|].
    apply (parses_fmap _ (fun e => (Some s, Some e))). apply read_field_val; [by apply He|lia].
Qed.

Lemma some24_emits o :
  addr24 o -> emits (write_some (fun v => write_bits v 24) o) tt (match o with Some v => val_bits 24 v | None => [] end).
Proof. intros H. destruct o as [v|]; cbn; [apply write_bits_emits; [by apply H|lia]|apply emits_ret]. Qed.

Lemma party_emits ssi ext (k : M unit) bs :
  addr24 ssi -> addr24 ext -> emits k tt bs ->
  emits (write_some (fun v => write_bits v 24) ssi;; write_some (fun v => write_bits v 24) ext;; k) tt (party_img ssi ext ++ bs).
Proof.
  intros Hs He Hk. unfold party_img. rewrite <- app_assoc.
  apply emits_bind_tt; [by apply some24_emits|]. apply emits_bind_tt; [by apply some24_emits|done].
Qed.

#[export] Hint Resolve party_parses : l3.

Lemma party_type_bound tpti ssi ext :
  validate_transmitting_party tpti ssi ext = inl tt -> option_all (fun v => 0 <= v < 2 ^ Z.of_nat 2)%Z tpti.
Proof. intros [(-> & _)|[(s & -> & _)|(s & e & -> & _)]]%party_cases v; [done|intros [= <-]; lia..]. Qed.

Lemma party_none ssi ext : validate_transmitting_party None ssi ext = inl tt -> ssi = None /\ ext = None.
Proof. by intros [(_ & -> & ->)|[(s & [=] & _)|(s & e & [=] & _)]]%party_cases. Qed.

(** [l3_roundtrip] with a transmitting party *)
Ltac l3_tx to_bitbuf from_bitbuf validate :=
  intros []; cbn in *; unfold roundtrips, to_bitbuf, from_bitbuf;
  match goal with
  | H : validate _ = inl _ |- _ =>
      rewrite H; cbn; unfold validate in H; cbn in H; l3_facts H; pose proof (party_type_bound _ _ _ H); cbv zeta;
      match goal with
      | |- context [write_obit (b2z ?c)] =>
          let E := fresh "O" in
          destruct c eqn:E; cbn [negb];
          [ eexists; split; [l3_emit; eapply party_emits; [done|done|l3_emit]|]
          | none_present E; subst; apply party_none in H as [-> ->]; eexists; split; [l3_emit|] ];
          intros ?; l3_parse
      end
  end.

(** ** D-ALERT *)

Record DAlert := mkDAlert {
  dal_call_identifier : Z;
  dal_call_time_out_set_up_phase : Z;
  dal_reserved : bool;
  dal_simplex_duplex_selection : bool;
  dal_call_queued : bool;
  dal_basic_service_information : option BasicServiceInformation;
  dal_notification_indicator : option Z;
  dal_facility : option Type3FieldGeneric;
  dal_proprietary : option Type3FieldGeneric
}.

Definition DAlert_validate (self : DAlert) : unit + PduParseErr :=
  then_ (at_most "call_identifier" MAX_U14 (dal_call_identifier self)) (
  then_ (at_most "call_time_out_set_up_phase" MAX_U3 (dal_call_time_out_set_up_phase self)) (
  then_ (if negb (dal_reserved self) then inr (InvalidValue "reserved" 0) else inl tt) (
  then_ (opt_bsi_validate (dal_basic_service_information self)) (
  bounded "notification_indicator" MAX_U6 (dal_notification_indicator self))))).

Definition DAlert_from_bitbuf : M DAlert :=
  expect_pdu_type 5 0;;
  call_identifier ← read_u16 14 "call_identifier";
  call_time_out_set_up_phase ← read_u8 3 "call_time_out_set_up_phase";
  reserved ← read_flag "reserved";
  simplex_duplex_selection ← read_flag "simplex_duplex_selection";
  call_queued ← read_flag "call_queued";
  obit ← read_obit;
  basic_service_information ← parse_type2_struct obit Bsi_from_bitbuf;
  notification_indicator ← parse_type2_generic obit 6 "notification_indicator";
  facility ← parse_type3_generic obit (elem_id Facility);
  proprietary ← parse_type3_generic obit (elem_id Proprietary);
  read_trailing obit;;
  mret (mkDAlert call_identifier call_time_out_set_up_phase reserved simplex_duplex_selection call_queued
    basic_service_information notification_indicator facility proprietary).

Definition DAlert_to_bitbuf (self : DAlert) : M unit :=
  validated (DAlert_validate self) (
    write_bits 0 5;;
    write_bits (dal_call_identifier self) 14;;
    write_bits (dal_call_time_out_set_up_phase self) 3;;
    write_bits (b2z (dal_reserved self)) 1;;
    write_bits (b2z (dal_simplex_duplex_selection self)) 1;;
    write_bits (b2z (dal_call_queued self)) 1;;
    let obit := is_some (dal_basic_service_information self) || is_some (dal_notification_indicator self) || is_some
      (dal_facility self) || is_some (dal_proprietary self) in
    write_obit (b2z obit);;
    if negb obit then mret tt
    else
      write_type2_struct obit (dal_basic_service_information self) Bsi_to_bitbuf;;
      write_type2_generic obit (dal_notification_indicator self) 6;;
      write_type3_generic obit (dal_facility self) (elem_id Facility);;
      write_type3_generic obit (dal_proprietary self) (elem_id Proprietary);;
      write_mbit 0).

Record DAlert_ok (x : DAlert) : Prop := {
  dal_ok_call_identifier : (0 <= dal_call_identifier x)%Z;
  dal_ok_call_time_out_set_up_phase : (0 <= dal_call_time_out_set_up_phase x)%Z;
  dal_ok_basic_service_information : option_all Bsi_typed (dal_basic_service_information x);
  dal_ok_notification_indicator : nonneg (dal_notification_indicator x);
  dal_ok_facility : option_all (valid3 (elem_id Facility)) (dal_facility x);
  dal_ok_proprietary : option_all (valid3 (elem_id Proprietary)) (dal_proprietary x);
  dal_ok_valid : DAlert_validate x = inl tt
}.

Lemma DAlert_roundtrips x : DAlert_ok x -> roundtrips DAlert_to_bitbuf DAlert_from_bitbuf x.
Proof. destruct x. l3_roundtrip DAlert_to_bitbuf DAlert_from_bitbuf DAlert_validate. Qed.

(** ** D-CALL-PROCEEDING *)

Record DCallProceeding := mkDCallProceeding {
  dcp_call_identifier : Z;
  dcp_call_time_out_set_up_phase : CallTimeoutSetupPhase;
  dcp_hook_method_selection : bool;
  dcp_simplex_duplex_selection : bool;
  dcp_basic_service_information : option BasicServiceInformation;
  dcp_call_status : option CallStatus;
  dcp_notification_indicator : option Z;
  dcp_facility : option Type3FieldGeneric;
  dcp_proprietary : option Type3FieldGeneric
}.

Definition DCallProceeding_validate (self : DCallProceeding) : unit + PduParseErr :=
  then_ (at_most "call_identifier" MAX_U14 (dcp_call_identifier self)) (
  bounded "notification_indicator" MAX_U6 (dcp_notification_indicator self)).

Definition DCallProceeding_from_bitbuf : M DCallProceeding :=
  expect_pdu_type 5 1;;
  call_identifier ← read_u16 14 "call_identifier";
  call_time_out_set_up_phase ← read_enum_unwrap CallTimeoutSetupPhase 3 "call_time_out_set_up_phase";
  hook_method_selection ← read_flag "hook_method_selection";
  simplex_duplex_selection ← read_flag "simplex_duplex_selection";
  obit ← read_obit;
  basic_service_information ← parse_type2_struct obit Bsi_from_bitbuf;
  call_status ← parse_type2_enum CallStatus obit 3 "call_status";
  notification_indicator ← parse_type2_generic obit 6 "notification_indicator";
  facility ← parse_type3_generic obit (elem_id Facility);
  proprietary ← parse_type3_generic obit (elem_id Proprietary);
  read_trailing obit;;
  mret (mkDCallProceeding call_identifier call_time_out_set_up_phase hook_method_selection simplex_duplex_selection
    basic_service_information call_status notification_indicator facility proprietary).

Definition DCallProceeding_to_bitbuf (self : DCallProceeding) : M unit :=
  validated (DCallProceeding_validate self) (
    write_bits 1 5;;
    write_bits (dcp_call_identifier self) 14;;
    write_bits (into_raw (dcp_call_time_out_set_up_phase self)) 3;;
    write_bits (b2z (dcp_hook_method_selection self)) 1;;
    write_bits (b2z (dcp_simplex_duplex_selection self)) 1;;
    let obit := is_some (dcp_basic_service_information self) || is_some (dcp_call_status self) || is_some
      (dcp_notification_indicator self) || is_some (dcp_facility self) || is_some (dcp_proprietary self) in
    write_obit (b2z obit);;
    if negb obit then mret tt
    else
      write_type2_struct obit (dcp_basic_service_information self) Bsi_to_bitbuf;;
      write_type2_generic obit (into_raw <$> (dcp_call_status self)) 3;;
      write_type2_generic obit (dcp_notification_indicator self) 6;;
      write_type3_generic obit (dcp_facility self) (elem_id Facility);;
      write_type3_generic obit (dcp_proprietary self) (elem_id Proprietary);;
      write_mbit 0).

Record DCallProceeding_ok (x : DCallProceeding) : Prop := {
  dcp_ok_call_identifier : (0 <= dcp_call_identifier x)%Z;
  dcp_ok_basic_service_information : option_all Bsi_ok (dcp_basic_service_information x);
  dcp_ok_notification_indicator : nonneg (dcp_notification_indicator x);
  dcp_ok_facility : option_all (valid3 (elem_id Facility)) (dcp_facility x);
  dcp_ok_proprietary : option_all (valid3 (elem_id Proprietary)) (dcp_proprietary x);
  dcp_ok_valid : DCallProceeding_validate x = inl tt
}.

Lemma DCallProceeding_roundtrips x : DCallProceeding_ok x -> roundtrips DCallProceeding_to_bitbuf DCallProceeding_from_bitbuf x.
Proof. destruct x. l3_roundtrip DCallProceeding_to_bitbuf DCallProceeding_from_bitbuf DCallProceeding_validate. Qed.

(** ** D-CALL-RESTORE *)

Record DCallRestore := mkDCallRestore {
  dcr_call_identifier : Z;
  dcr_transmission_grant : Z;
  dcr_transmission_request_permission : bool;
  dcr_reset_call_time_out_timer_t310_ : bool;
  dcr_new_call_identifier : option Z;
  dcr_call_time_out : option Z;
  dcr_call_status : option Z;
  dcr_modify : option Z;
  dcr_notification_indicator : option Z;
  dcr_facility : option Type3FieldGeneric;
  dcr_temporary_address : option Type3FieldGeneric;
  dcr_dm_ms_address : option Type3FieldGeneric;
  dcr_proprietary : option Type3FieldGeneric
}.

Definition DCallRestore_validate (self : DCallRestore) : unit + PduParseErr :=
  then_ (at_most "call_identifier" MAX_U14 (dcr_call_identifier self)) (
  then_ (at_most "transmission_grant" 0x03 (dcr_transmission_grant self)) (
  then_ (bounded "new_call_identifier" MAX_U14 (dcr_new_call_identifier self)) (
  then_ (bounded "call_time_out" MAX_U4 (dcr_call_time_out self)) (
  then_ (bounded "call_status" MAX_U3 (dcr_call_status self)) (
  then_ (bounded "modify" MAX_U9 (dcr_modify self)) (
  bounded "notification_indicator" MAX_U6 (dcr_notification_indicator self))))))).

Definition DCallRestore_from_bitbuf : M DCallRestore :=
  expect_pdu_type 5 14;;
  call_identifier ← read_u16 14 "call_identifier";
  transmission_grant ← read_u8 2 "transmission_grant";
  transmission_request_permission ← read_flag "transmission_request_permission";
  reset_call_time_out_timer_t310_ ← read_flag "reset_call_time_out_timer_t310_";
  obit ← read_obit;
  new_call_identifier ← parse_type2_generic obit 14 "new_call_identifier";
  call_time_out ← parse_type2_generic obit 4 "call_time_out";
  call_status ← parse_type2_generic obit 3 "call_status";
  modify ← parse_type2_generic obit 9 "modify";
  notification_indicator ← parse_type2_generic obit 6 "notification_indicator";
  facility ← parse_type3_generic obit (elem_id Facility);
  temporary_address ← parse_type3_generic obit (elem_id TempAddr);
  dm_ms_address ← parse_type3_generic obit (elem_id DmMsAddr);
  proprietary ← parse_type3_generic obit (elem_id Proprietary);
  read_trailing obit;;
  let pdu := mkDCallRestore call_identifier transmission_grant transmission_request_permission
    reset_call_time_out_timer_t310_ new_call_identifier call_time_out call_status modify notification_indicator
    facility temporary_address dm_ms_address proprietary in checked (DCallRestore_validate pdu) pdu.

Definition DCallRestore_to_bitbuf (self : DCallRestore) : M unit :=
  validated (DCallRestore_validate self) (
    write_bits 14 5;;
    write_bits (dcr_call_identifier self) 14;;
    write_bits (dcr_transmission_grant self) 2;;
    write_bits (b2z (dcr_transmission_request_permission self)) 1;;
    write_bits (b2z (dcr_reset_call_time_out_timer_t310_ self)) 1;;
    let obit := is_some (dcr_new_call_identifier self) || is_some (dcr_call_time_out self) || is_some (dcr_call_status
      self) || is_some (dcr_modify self) || is_some (dcr_notification_indicator self) || is_some (dcr_facility self)
      || is_some (dcr_temporary_address self) || is_some (dcr_dm_ms_address self) || is_some (dcr_proprietary self)
      in
    write_obit (b2z obit);;
    if negb obit then mret tt
    else
      write_type2_generic obit (dcr_new_call_identifier self) 14;;
      write_type2_generic obit (dcr_call_time_out self) 4;;
      write_type2_generic obit (dcr_call_status self) 3;;
      write_type2_generic obit (dcr_modify self) 9;;
      write_type2_generic obit (dcr_notification_indicator self) 6;;
      write_type3_generic obit (dcr_facility self) (elem_id Facility);;
      write_type3_generic obit (dcr_temporary_address self) (elem_id TempAddr);;
      write_type3_generic obit (dcr_dm_ms_address self) (elem_id DmMsAddr);;
      write_type3_generic obit (dcr_proprietary self) (elem_id Proprietary);;
      write_mbit 0).

Record DCallRestore_ok (x : DCallRestore) : Prop := {
  dcr_ok_call_identifier : (0 <= dcr_call_identifier x)%Z;
  dcr_ok_transmission_grant : (0 <= dcr_transmission_grant x)%Z;
  dcr_ok_new_call_identifier : nonneg (dcr_new_call_identifier x);
  dcr_ok_call_time_out : nonneg (dcr_call_time_out x);
  dcr_ok_call_status : nonneg (dcr_call_status x);
  dcr_ok_modify : nonneg (dcr_modify x);
  dcr_ok_notification_indicator : nonneg (dcr_notification_indicator x);
  dcr_ok_facility : option_all (valid3 (elem_id Facility)) (dcr_facility x);
  dcr_ok_temporary_address : option_all (valid3 (elem_id TempAddr)) (dcr_temporary_address x);
  dcr_ok_dm_ms_address : option_all (valid3 (elem_id DmMsAddr)) (dcr_dm_ms_address x);
  dcr_ok_proprietary : option_all (valid3 (elem_id Proprietary)) (dcr_proprietary x);
  dcr_ok_valid : DCallRestore_validate x = inl tt
}.

Lemma DCallRestore_roundtrips x : DCallRestore_ok x -> roundtrips DCallRestore_to_bitbuf DCallRestore_from_bitbuf x.
Proof. destruct x. l3_roundtrip DCallRestore_to_bitbuf DCallRestore_from_bitbuf DCallRestore_validate. Qed.

(** ** D-CONNECT *)

Record DConnect := mkDConnect {
  dcn_call_identifier : Z;
  dcn_call_time_out : CallTimeout;
  dcn_hook_method_selection : bool;
  dcn_simplex_duplex_selection : bool;
  dcn_transmission_grant : TransmissionGrant;
  dcn_transmission_request_permission : bool;
  dcn_call_ownership : bool;
  dcn_call_priority : option Z;
  dcn_basic_service_information : option BasicServiceInformation;
  dcn_temporary_address : option Z;
  dcn_notification_indicator : option Z;
  dcn_facility : option Type3FieldGeneric;
  dcn_proprietary : option Type3FieldGeneric
}.

Definition DConnect_validate (self : DConnect) : unit + PduParseErr :=
  then_ (at_most "call_identifier" MAX_U14 (dcn_call_identifier self)) (
  then_ (bounded "call_priority" MAX_U4 (dcn_call_priority self)) (
  then_ (bounded "temporary_address" MAX_U24 (dcn_temporary_address self)) (
  bounded "notification_indicator" MAX_U6 (dcn_notification_indicator self)))).

Definition DConnect_from_bitbuf : M DConnect :=
  expect_pdu_type 5 2;;
  call_identifier ← read_u16 14 "call_identifier";
  call_time_out ← read_enum_unwrap CallTimeout 4 "call_time_out";
  hook_method_selection ← read_flag "hook_method_selection";
  simplex_duplex_selection ← read_flag "simplex_duplex_selection";
  transmission_grant ← read_enum_unwrap TransmissionGrant 2 "transmission_grant";
  transmission_request_permission ← read_flag "transmission_request_permission";
  call_ownership ← read_flag "call_ownership";
  obit ← read_obit;
  call_priority ← parse_type2_generic obit 4 "call_priority";
  basic_service_information ← parse_type2_struct obit Bsi_from_bitbuf;
  temporary_address ← parse_type2_generic obit 24 "temporary_address";
  notification_indicator ← parse_type2_generic obit 6 "notification_indicator";
  facility ← parse_type3_generic obit (elem_id Facility);
  proprietary ← parse_type3_generic obit (elem_id Proprietary);
  read_trailing obit;;
  mret (mkDConnect call_identifier call_time_out hook_method_selection simplex_duplex_selection transmission_grant
    transmission_request_permission call_ownership call_priority basic_service_information temporary_address
    notification_indicator facility proprietary).

Definition DConnect_to_bitbuf (self : DConnect) : M unit :=
  validated (DConnect_validate self) (
    write_bits 2 5;;
    write_bits (dcn_call_identifier self) 14;;
    write_bits (into_raw (dcn_call_time_out self)) 4;;
    write_bits (b2z (dcn_hook_method_selection self)) 1;;
    write_bits (b2z (dcn_simplex_duplex_selection self)) 1;;
    write_bits (into_raw (dcn_transmission_grant self)) 2;;
    write_bits (b2z (dcn_transmission_request_permission self)) 1;;
    write_bits (b2z (dcn_call_ownership self)) 1;;
    let obit := is_some (dcn_call_priority self) || is_some (dcn_basic_service_information self) || is_some
      (dcn_temporary_address self) || is_some (dcn_notification_indicator self) || is_some (dcn_facility self) ||
      is_some (dcn_proprietary self) in
    write_obit (b2z obit);;
    if negb obit then mret tt
    else
      write_type2_generic obit (dcn_call_priority self) 4;;
      write_type2_struct obit (dcn_basic_service_information self) Bsi_to_bitbuf;;
      write_type2_generic obit (dcn_temporary_address self) 24;;
      write_type2_generic obit (dcn_notification_indicator self) 6;;
      write_type3_generic obit (dcn_facility self) (elem_id Facility);;
      write_type3_generic obit (dcn_proprietary self) (elem_id Proprietary);;
      write_mbit 0).

Record DConnect_ok (x : DConnect) : Prop := {
  dcn_ok_call_identifier : (0 <= dcn_call_identifier x)%Z;
  dcn_ok_call_priority : nonneg (dcn_call_priority x);
  dcn_ok_basic_service_information : option_all Bsi_ok (dcn_basic_service_information x);
  dcn_ok_temporary_address : nonneg (dcn_temporary_address x);
  dcn_ok_notification_indicator : nonneg (dcn_notification_indicator x);
  dcn_ok_facility : option_all (valid3 (elem_id Facility)) (dcn_facility x);
  dcn_ok_proprietary : option_all (valid3 (elem_id Proprietary)) (dcn_proprietary x);
  dcn_ok_valid : DConnect_validate x = inl tt
}.

Lemma DConnect_roundtrips x : DConnect_ok x -> roundtrips DConnect_to_bitbuf DConnect_from_bitbuf x.
Proof. destruct x. l3_roundtrip DConnect_to_bitbuf DConnect_from_bitbuf DConnect_validate. Qed.

(** ** D-CONNECT-ACKNOWLEDGE *)

Record DConnectAcknowledge := mkDConnectAcknowledge {
  dca_call_identifier : Z;
  dca_call_time_out : CallTimeout;
  dca_transmission_grant : TransmissionGrant;
  dca_transmission_request_permission : bool;
  dca_notification_indicator : option Z;
  dca_facility : option Type3FieldGeneric;
  dca_proprietary : option Type3FieldGeneric
}.

Definition DConnectAcknowledge_validate (self : DConnectAcknowledge) : unit + PduParseErr :=
  then_ (at_most "call_identifier" MAX_U14 (dca_call_identifier self)) (
  bounded "notification_indicator" MAX_U6 (dca_notification_indicator self)).

Definition DConnectAcknowledge_from_bitbuf : M DConnectAcknowledge :=
  expect_pdu_type 5 3;;
  call_identifier ← read_u16 14 "call_identifier";
  call_time_out ← read_enum_unwrap CallTimeout 4 "call_time_out";
  transmission_grant ← read_enum_unwrap TransmissionGrant 2 "transmission_grant";
  transmission_request_permission ← read_flag "transmission_request_permission";
  obit ← read_obit;
  notification_indicator ← parse_type2_generic obit 6 "notification_indicator";
  facility ← parse_type3_generic obit (elem_id Facility);
  proprietary ← parse_type3_generic obit (elem_id Proprietary);
  read_trailing obit;;
  mret (mkDConnectAcknowledge call_identifier call_time_out transmission_grant transmission_request_permission
    notification_indicator facility proprietary).

Definition DConnectAcknowledge_to_bitbuf (self : DConnectAcknowledge) : M unit :=
  validated (DConnectAcknowledge_validate self) (
    write_bits 3 5;;
    write_bits (dca_call_identifier self) 14;;
    write_bits (into_raw (dca_call_time_out self)) 4;;
    write_bits (into_raw (dca_transmission_grant self)) 2;;
    write_bits (b2z (dca_transmission_request_permission self)) 1;;
    let obit := is_some (dca_notification_indicator self) || is_some (dca_facility self) || is_some (dca_proprietary
      self) in
    write_obit (b2z obit);;
    if negb obit then mret tt
    else
      write_type2_generic obit (dca_notification_indicator self) 6;;
      write_type3_generic obit (dca_facility self) (elem_id Facility);;
      write_type3_generic obit (dca_proprietary self) (elem_id Proprietary);;
      write_mbit 0).

Record DConnectAcknowledge_ok (x : DConnectAcknowledge) : Prop := {
  dca_ok_call_identifier : (0 <= dca_call_identifier x)%Z;
  dca_ok_notification_indicator : nonneg (dca_notification_indicator x);
  dca_ok_facility : option_all (valid3 (elem_id Facility)) (dca_facility x);
  dca_ok_proprietary : option_all (valid3 (elem_id Proprietary)) (dca_proprietary x);
  dca_ok_valid : DConnectAcknowledge_validate x = inl tt
}.

Lemma DConnectAcknowledge_roundtrips x : DConnectAcknowledge_ok x -> roundtrips DConnectAcknowledge_to_bitbuf DConnectAcknowledge_from_bitbuf x.
Proof. destruct x. l3_roundtrip DConnectAcknowledge_to_bitbuf DConnectAcknowledge_from_bitbuf DConnectAcknowledge_validate. Qed.

(** ** D-DISCONNECT *)

Record DDisconnect := mkDDisconnect {
  ddc_call_identifier : Z;
  ddc_disconnect_cause : DisconnectCause;
  ddc_notification_indicator : option Z;
  ddc_facility : option Type3FieldGeneric;
  ddc_proprietary : option Type3FieldGeneric
}.

Definition DDisconnect_validate (self : DDisconnect) : unit + PduParseErr :=
  then_ (at_most "call_identifier" MAX_U14 (ddc_call_identifier self)) (
  bounded "notification_indicator" MAX_U6 (ddc_notification_indicator self)).

Definition DDisconnect_from_bitbuf : M DDisconnect :=
  expect_pdu_type 5 4;;
  call_identifier ← read_u16 14 "call_identifier";
  disconnect_cause ← read_enum DisconnectCause 5 "disconnect_cause";
  obit ← read_obit;
  notification_indicator ← parse_type2_generic obit 6 "notification_indicator";
  facility ← parse_type3_generic obit (elem_id Facility);
  proprietary ← parse_type3_generic obit (elem_id Proprietary);
  read_trailing obit;;
  mret (mkDDisconnect call_identifier disconnect_cause notification_indicator facility proprietary).

Definition DDisconnect_to_bitbuf (self : DDisconnect) : M unit :=
  validated (DDisconnect_validate self) (
    write_bits 4 5;;
    write_bits (ddc_call_identifier self) 14;;
    write_bits (into_raw (ddc_disconnect_cause self)) 5;;
    let obit := is_some (ddc_notification_indicator self) || is_some (ddc_facility self) || is_some (ddc_proprietary
      self) in
    write_obit (b2z obit);;
    if negb obit then mret tt
    else
      write_type2_generic obit (ddc_notification_indicator self) 6;;
      write_type3_generic obit (ddc_facility self) (elem_id Facility);;
      write_type3_generic obit (ddc_proprietary self) (elem_id Proprietary);;
      write_mbit 0).

Record DDisconnect_ok (x : DDisconnect) : Prop := {
  ddc_ok_call_identifier : (0 <= ddc_call_identifier x)%Z;
  ddc_ok_notification_indicator : nonneg (ddc_notification_indicator x);
  ddc_ok_facility : option_all (valid3 (elem_id Facility)) (ddc_facility x);
  ddc_ok_proprietary : option_all (valid3 (elem_id Proprietary)) (ddc_proprietary x);
  ddc_ok_valid : DDisconnect_validate x = inl tt
}.

Lemma DDisconnect_roundtrips x : DDisconnect_ok x -> roundtrips DDisconnect_to_bitbuf DDisconnect_from_bitbuf x.
Proof. destruct x. l3_roundtrip DDisconnect_to_bitbuf DDisconnect_from_bitbuf DDisconnect_validate. Qed.

(** ** D-FACILITY *)

Inductive DFacility := mkDFacility.

Definition DFacility_from_bitbuf : M DFacility :=
  expect_pdu_type 5 16;;
  obit ← read_obit;
  read_trailing obit;;
  mret (mkDFacility).

Definition DFacility_to_bitbuf (self : DFacility) : M unit :=
  write_bits 16 5;;
  write_mbit 0.

Lemma DFacility_roundtrips x : roundtrips DFacility_to_bitbuf DFacility_from_bitbuf x.
Proof. destruct x. unfold roundtrips, DFacility_to_bitbuf, DFacility_from_bitbuf. eexists. split; [l3_emit|]. intros ?. l3_parse. Qed.

(** ** D-INFO *)

Record DInfo := mkDInfo {
  din_call_identifier : Z;
  din_reset_call_time_out_timer_t310_ : bool;
  din_poll_request : bool;
  din_new_call_identifier : option Z;
  din_call_time_out : option Z;
  din_call_time_out_set_up_phase_t301_t302_ : option Z;
  din_call_ownership : option Z;
  din_modify : option Z;
  din_call_status : option Z;
  din_temporary_address : option Z;
  din_notification_indicator : option Z;
  din_poll_response_percentage : option Z;
  din_poll_response_number : option Z;
  din_dtmf : option Type3FieldGeneric;
  din_facility : option Type3FieldGeneric;
  din_poll_response_addresses : option Type3FieldGeneric;
  din_proprietary : option Type3FieldGeneric
}.

Definition DInfo_validate (self : DInfo) : unit + PduParseErr :=
  then_ (at_most "call_identifier" MAX_U14 (din_call_identifier self)) (
  then_ (bounded "new_call_identifier" MAX_U14 (din_new_call_identifier self)) (
  then_ (bounded "call_time_out" MAX_U4 (din_call_time_out self)) (
  then_ (bounded "call_time_out_set_up_phase_t301_t302_" MAX_U3 (din_call_time_out_set_up_phase_t301_t302_ self)) (
  then_ (bounded "call_ownership" MAX_U1 (din_call_ownership self)) (
  then_ (bounded "modify" MAX_U9 (din_modify self)) (
  then_ (bounded "call_status" MAX_U3 (din_call_status self)) (
  then_ (bounded "temporary_address" MAX_U24 (din_temporary_address self)) (
  then_ (bounded "notification_indicator" MAX_U6 (din_notification_indicator self)) (
  then_ (bounded "poll_response_percentage" MAX_U6 (din_poll_response_percentage self)) (
  bounded "poll_response_number" MAX_U6 (din_poll_response_number self))))))))))).

Definition DInfo_from_bitbuf : M DInfo :=
  expect_pdu_type 5 5;;
  call_identifier ← read_u16 14 "call_identifier";
  reset_call_time_out_timer_t310_ ← read_flag "reset_call_time_out_timer_t310_";
  poll_request ← read_flag "poll_request";
  obit ← read_obit;
  new_call_identifier ← parse_type2_generic obit 14 "new_call_identifier";
  call_time_out ← parse_type2_generic obit 4 "call_time_out";
  call_time_out_set_up_phase_t301_t302_ ← parse_type2_generic obit 3 "call_time_out_set_up_phase_t301_t302_";
  call_ownership ← parse_type2_generic obit 1 "call_ownership";
  modify ← parse_type2_generic obit 9 "modify";
  call_status ← parse_type2_generic obit 3 "call_status";
  temporary_address ← parse_type2_generic obit 24 "temporary_address";
  notification_indicator ← parse_type2_generic obit 6 "notification_indicator";
  poll_response_percentage ← parse_type2_generic obit 6 "poll_response_percentage";
  poll_response_number ← parse_type2_generic obit 6 "poll_response_number";
  dtmf ← parse_type3_generic obit (elem_id Dtmf);
  facility ← parse_type3_generic obit (elem_id Facility);
  poll_response_addresses ← parse_type3_generic obit (elem_id PollResponseAddr);
  proprietary ← parse_type3_generic obit (elem_id Proprietary);
  read_trailing obit;;
  mret (mkDInfo call_identifier reset_call_time_out_timer_t310_ poll_request new_call_identifier call_time_out
    call_time_out_set_up_phase_t301_t302_ call_ownership modify call_status temporary_address
    notification_indicator poll_response_percentage poll_response_number dtmf facility poll_response_addresses
    proprietary).

Definition DInfo_to_bitbuf (self : DInfo) : M unit :=
  validated (DInfo_validate self) (
    write_bits 5 5;;
    write_bits (din_call_identifier self) 14;;
    write_bits (b2z (din_reset_call_time_out_timer_t310_ self)) 1;;
    write_bits (b2z (din_poll_request self)) 1;;
    let obit := is_some (din_new_call_identifier self) || is_some (din_call_time_out self) || is_some
      (din_call_time_out_set_up_phase_t301_t302_ self) || is_some (din_call_ownership self) || is_some (din_modify
      self) || is_some (din_call_status self) || is_some (din_temporary_address self) || is_some
      (din_notification_indicator self) || is_some (din_poll_response_percentage self) || is_some
      (din_poll_response_number self) || is_some (din_dtmf self) || is_some (din_facility self) || is_some
      (din_poll_response_addresses self) || is_some (din_proprietary self) in
    write_obit (b2z obit);;
    if negb obit then mret tt
    else
      write_type2_generic obit (din_new_call_identifier self) 14;;
      write_type2_generic obit (din_call_time_out self) 4;;
      write_type2_generic obit (din_call_time_out_set_up_phase_t301_t302_ self) 3;;
      write_type2_generic obit (din_call_ownership self) 1;;
      write_type2_generic obit (din_modify self) 9;;
      write_type2_generic obit (din_call_status self) 3;;
      write_type2_generic obit (din_temporary_address self) 24;;
      write_type2_generic obit (din_notification_indicator self) 6;;
      write_type2_generic obit (din_poll_response_percentage self) 6;;
      write_type2_generic obit (din_poll_response_number self) 6;;
      write_type3_generic obit (din_dtmf self) (elem_id Dtmf);;
      write_type3_generic obit (din_facility self) (elem_id Facility);;
      write_type3_generic obit (din_poll_response_addresses self) (elem_id PollResponseAddr);;
      write_type3_generic obit (din_proprietary self) (elem_id Proprietary);;
      write_mbit 0).

Record DInfo_ok (x : DInfo) : Prop := {
  din_ok_call_identifier : (0 <= din_call_identifier x)%Z;
  din_ok_new_call_identifier : nonneg (din_new_call_identifier x);
  din_ok_call_time_out : nonneg (din_call_time_out x);
  din_ok_call_time_out_set_up_phase_t301_t302_ : nonneg (din_call_time_out_set_up_phase_t301_t302_ x);
  din_ok_call_ownership : nonneg (din_call_ownership x);
  din_ok_modify : nonneg (din_modify x);
  din_ok_call_status : nonneg (din_call_status x);
  din_ok_temporary_address : nonneg (din_temporary_address x);
  din_ok_notification_indicator : nonneg (din_notification_indicator x);
  din_ok_poll_response_percentage : nonneg (din_poll_response_percentage x);
  din_ok_poll_response_number : nonneg (din_poll_response_number x);
  din_ok_dtmf : option_all (valid3 (elem_id Dtmf)) (din_dtmf x);
  din_ok_facility : option_all (valid3 (elem_id Facility)) (din_facility x);
  din_ok_poll_response_addresses : option_all (valid3 (elem_id PollResponseAddr)) (din_poll_response_addresses x);
  din_ok_proprietary : option_all (valid3 (elem_id Proprietary)) (din_proprietary x);
  din_ok_valid : DInfo_validate x = inl tt
}.

Lemma DInfo_roundtrips x : DInfo_ok x -> roundtrips DInfo_to_bitbuf DInfo_from_bitbuf x.
Proof. destruct x. l3_roundtrip DInfo_to_bitbuf DInfo_from_bitbuf DInfo_validate. Qed.

(** ** D-RELEASE *)

Record DRelease := mkDRelease {
  drl_call_identifier : Z;
  drl_disconnect_cause : DisconnectCause;
  drl_notification_indicator : option Z;
  drl_facility : option Type3FieldGeneric;
  drl_proprietary : option Type3FieldGeneric
}.

Definition DRelease_validate (self : DRelease) : unit + PduParseErr :=
  then_ (at_most "call_identifier" MAX_U14 (drl_call_identifier self)) (
  bounded "notification_indicator" MAX_U6 (drl_notification_indicator self)).

Definition DRelease_from_bitbuf : M DRelease :=
  expect_pdu_type 5 6;;
  call_identifier ← read_u16 14 "call_identifier";
  disconnect_cause ← read_enum DisconnectCause 5 "disconnect_cause";
  obit ← read_obit;
  notification_indicator ← parse_type2_generic obit 6 "notification_indicator";
  facility ← parse_type3_generic obit (elem_id Facility);
  proprietary ← parse_type3_generic obit (elem_id Proprietary);
  read_trailing obit;;
  mret (mkDRelease call_identifier disconnect_cause notification_indicator facility proprietary).

Definition DRelease_to_bitbuf (self : DRelease) : M unit :=
  validated (DRelease_validate self) (
    write_bits 6 5;;
    write_bits (drl_call_identifier self) 14;;
    write_bits (into_raw (drl_disconnect_cause self)) 5;;
    let obit := is_some (drl_notification_indicator self) || is_some (drl_facility self) || is_some (drl_proprietary
      self) in
    write_obit (b2z obit);;
    if negb obit then mret tt
    else
      write_type2_generic obit (drl_notification_indicator self) 6;;
      write_type3_generic obit (drl_facility self) (elem_id Facility);;
      write_type3_generic obit (drl_proprietary self) (elem_id Proprietary);;
      write_mbit 0).

Record DRelease_ok (x : DRelease) : Prop := {
  drl_ok_call_identifier : (0 <= drl_call_identifier x)%Z;
  drl_ok_notification_indicator : nonneg (drl_notification_indicator x);
  drl_ok_facility : option_all (valid3 (elem_id Facility)) (drl_facility x);
  drl_ok_proprietary : option_all (valid3 (elem_id Proprietary)) (drl_proprietary x);
  drl_ok_valid : DRelease_validate x = inl tt
}.

Lemma DRelease_roundtrips x : DRelease_ok x -> roundtrips DRelease_to_bitbuf DRelease_from_bitbuf x.
Proof. destruct x. l3_roundtrip DRelease_to_bitbuf DRelease_from_bitbuf DRelease_validate. Qed.

(** ** D-STATUS *)

Record DStatus := mkDStatus {
  dst_calling_party_type_identifier : PartyTypeIdentifier;
  dst_calling_party_address_ssi : option Z;
  dst_calling_party_extension : option Z;
  dst_pre_coded_status : PreCodedStatus;
  dst_external_subscriber_number : option Type3FieldGeneric;
  dst_dm_ms_address : option Type3FieldGeneric
}.

Definition DStatus_validate (self : DStatus) : unit + PduParseErr :=
  match dst_calling_party_type_identifier self with
  | PtiSsi =>
      required "calling_party_address_ssi" (dst_calling_party_address_ssi self) (fun ssi =>
      then_ (at_most "calling_party_address_ssi" MAX_U24 ssi)
      (require_absent "calling_party_extension" "not valid for calling party type identifier"
          (dst_calling_party_extension self)))
  | PtiTsi =>
      required "calling_party_address_ssi" (dst_calling_party_address_ssi self) (fun ssi =>
      required "calling_party_extension" (dst_calling_party_extension self) (fun extension =>
      then_ (at_most "calling_party_address_ssi" MAX_U24 ssi)
      (at_most "calling_party_extension" MAX_U24 extension)))
  | PtiSna | PtiReserved =>
      inr (InvalidValue "calling_party_type_identifier" (into_raw (dst_calling_party_type_identifier self)))
  end.

Definition DStatus_from_bitbuf : M DStatus :=
  expect_pdu_type 5 8;;
  calling_party_type_identifier ← read_enum PartyTypeIdentifier 2 "calling_party_type_identifier";
  if bool_decide (calling_party_type_identifier = PtiSna) || bool_decide (calling_party_type_identifier = PtiReserved)
  then fail (InvalidValue "calling_party_type_identifier" (into_raw calling_party_type_identifier))
  else
  calling_party_address_ssi ← read_if (bool_decide (calling_party_type_identifier = PtiSsi) || bool_decide
    (calling_party_type_identifier = PtiTsi)) 24 "calling_party_address_ssi";
  calling_party_extension ← read_if (bool_decide (calling_party_type_identifier = PtiTsi)) 24 "calling_party_extension";
  pre_coded_status ← read_pre_coded_status;
  obit ← read_obit;
  external_subscriber_number ← parse_type3_generic obit (elem_id ExtSubscriberNum);
  dm_ms_address ← parse_type3_generic obit (elem_id DmMsAddr);
  read_trailing obit;;
  mret (mkDStatus calling_party_type_identifier calling_party_address_ssi calling_party_extension pre_coded_status
    external_subscriber_number dm_ms_address).

Definition DStatus_to_bitbuf (self : DStatus) : M unit :=
  validated (DStatus_validate self) (
    write_bits 8 5;;
    write_bits (into_raw (dst_calling_party_type_identifier self)) 2;;
    write_some (fun v => write_bits v 24) (dst_calling_party_address_ssi self);;
    write_some (fun v => write_bits v 24) (dst_calling_party_extension self);;
    write_bits (PreCodedStatus_into_raw (dst_pre_coded_status self)) 16;;
    let obit := is_some (dst_external_subscriber_number self) || is_some (dst_dm_ms_address self) in
    write_obit (b2z obit);;
    if negb obit then mret tt
    else
      write_type3_generic obit (dst_external_subscriber_number self) (elem_id ExtSubscriberNum);;
      write_type3_generic obit (dst_dm_ms_address self) (elem_id DmMsAddr);;
      write_mbit 0).

Record DStatus_ok (x : DStatus) : Prop := {
  dst_ok_calling_party_address_ssi : nonneg (dst_calling_party_address_ssi x);
  dst_ok_calling_party_extension : nonneg (dst_calling_party_extension x);
  dst_ok_pre_coded_status : pcs_ok (dst_pre_coded_status x);
  dst_ok_external_subscriber_number : option_all (valid3 (elem_id ExtSubscriberNum)) (dst_external_subscriber_number x);
  dst_ok_dm_ms_address : option_all (valid3 (elem_id DmMsAddr)) (dst_dm_ms_address x);
  dst_ok_valid : DStatus_validate x = inl tt
}.

Lemma DStatus_roundtrips x : DStatus_ok x -> roundtrips DStatus_to_bitbuf DStatus_from_bitbuf x.
Proof. destruct x. l3_roundtrip DStatus_to_bitbuf DStatus_from_bitbuf DStatus_validate. Qed.

(** ** D-TX-CEASED *)

Record DTxCeased := mkDTxCeased {
  dtc_call_identifier : Z;
  dtc_transmission_request_permission : bool;
  dtc_notification_indicator : option Z;
  dtc_facility : option Type3FieldGeneric;
  dtc_dm_ms_address : option Type3FieldGeneric;
  dtc_proprietary : option Type3FieldGeneric
}.

Definition DTxCeased_validate (self : DTxCeased) : unit + PduParseErr :=
  then_ (at_most "call_identifier" MAX_U14 (dtc_call_identifier self)) (
  bounded "notification_indicator" MAX_U6 (dtc_notification_indicator self)).

Definition DTxCeased_from_bitbuf : M DTxCeased :=
  expect_pdu_type 5 9;;
  call_identifier ← read_u16 14 "call_identifier";
  transmission_request_permission ← read_flag "transmission_request_permission";
  obit ← read_obit;
  notification_indicator ← parse_type2_generic obit 6 "notification_indicator";
  facility ← parse_type3_generic obit (elem_id Facility);
  dm_ms_address ← parse_type3_generic obit (elem_id DmMsAddr);
  proprietary ← parse_type3_generic obit (elem_id Proprietary);
  read_trailing obit;;
  mret (mkDTxCeased call_identifier transmission_request_permission notification_indicator facility dm_ms_address
    proprietary).

Definition DTxCeased_to_bitbuf (self : DTxCeased) : M unit :=
  validated (DTxCeased_validate self) (
    write_bits 9 5;;
    write_bits (dtc_call_identifier self) 14;;
    write_bits (b2z (dtc_transmission_request_permission self)) 1;;
    let obit := is_some (dtc_notification_indicator self) || is_some (dtc_facility self) || is_some (dtc_dm_ms_address
      self) || is_some (dtc_proprietary self) in
    write_obit (b2z obit);;
    if negb obit then mret tt
    else
      write_type2_generic obit (dtc_notification_indicator self) 6;;
      write_type3_generic obit (dtc_facility self) (elem_id Facility);;
      write_type3_generic obit (dtc_dm_ms_address self) (elem_id DmMsAddr);;
      write_type3_generic obit (dtc_proprietary self) (elem_id Proprietary);;
      write_mbit 0).

Record DTxCeased_ok (x : DTxCeased) : Prop := {
  dtc_ok_call_identifier : (0 <= dtc_call_identifier x)%Z;
  dtc_ok_notification_indicator : nonneg (dtc_notification_indicator x);
  dtc_ok_facility : option_all (valid3 (elem_id Facility)) (dtc_facility x);
  dtc_ok_dm_ms_address : option_all (valid3 (elem_id DmMsAddr)) (dtc_dm_ms_address x);
  dtc_ok_proprietary : option_all (valid3 (elem_id Proprietary)) (dtc_proprietary x);
  dtc_ok_valid : DTxCeased_validate x = inl tt
}.

Lemma DTxCeased_roundtrips x : DTxCeased_ok x -> roundtrips DTxCeased_to_bitbuf DTxCeased_from_bitbuf x.
Proof. destruct x. l3_roundtrip DTxCeased_to_bitbuf DTxCeased_from_bitbuf DTxCeased_validate. Qed.

(** ** D-TX-CONTINUE *)

Record DTxContinue := mkDTxContinue {
  dto_call_identifier : Z;
  dto_do_continue : bool;
  dto_transmission_request_permission : bool;
  dto_notification_indicator : option Z;
  dto_facility : option Type3FieldGeneric;
  dto_dm_ms_address : option Type3FieldGeneric;
  dto_proprietary : option Type3FieldGeneric
}.

Definition DTxContinue_validate (self : DTxContinue) : unit + PduParseErr :=
  then_ (at_most "call_identifier" MAX_U14 (dto_call_identifier self)) (
  bounded "notification_indicator" MAX_U6 (dto_notification_indicator self)).

Definition DTxContinue_from_bitbuf : M DTxContinue :=
  expect_pdu_type 5 10;;
  call_identifier ← read_u16 14 "call_identifier";
  do_continue ← read_flag "do_continue";
  transmission_request_permission ← read_flag "transmission_request_permission";
  obit ← read_obit;
  notification_indicator ← parse_type2_generic obit 6 "notification_indicator";
  facility ← parse_type3_generic obit (elem_id Facility);
  dm_ms_address ← parse_type3_generic obit (elem_id DmMsAddr);
  proprietary ← parse_type3_generic obit (elem_id Proprietary);
  read_trailing obit;;
  mret (mkDTxContinue call_identifier do_continue transmission_request_permission notification_indicator facility
    dm_ms_address proprietary).

Definition DTxContinue_to_bitbuf (self : DTxContinue) : M unit :=
  validated (DTxContinue_validate self) (
    write_bits 10 5;;
    write_bits (dto_call_identifier self) 14;;
    write_bits (b2z (dto_do_continue self)) 1;;
    write_bits (b2z (dto_transmission_request_permission self)) 1;;
    let obit := is_some (dto_notification_indicator self) || is_some (dto_facility self) || is_some (dto_dm_ms_address
      self) || is_some (dto_proprietary self) in
    write_obit (b2z obit);;
    if negb obit then mret tt
    else
      write_type2_generic obit (dto_notification_indicator self) 6;;
      write_type3_generic obit (dto_facility self) (elem_id Facility);;
      write_type3_generic obit (dto_dm_ms_address self) (elem_id DmMsAddr);;
      write_type3_generic obit (dto_proprietary self) (elem_id Proprietary);;
      write_mbit 0).

Record DTxContinue_ok (x : DTxContinue) : Prop := {
  dto_ok_call_identifier : (0 <= dto_call_identifier x)%Z;
  dto_ok_notification_indicator : nonneg (dto_notification_indicator x);
  dto_ok_facility : option_all (valid3 (elem_id Facility)) (dto_facility x);
  dto_ok_dm_ms_address : option_all (valid3 (elem_id DmMsAddr)) (dto_dm_ms_address x);
  dto_ok_proprietary : option_all (valid3 (elem_id Proprietary)) (dto_proprietary x);
  dto_ok_valid : DTxContinue_validate x = inl tt
}.

Lemma DTxContinue_roundtrips x : DTxContinue_ok x -> roundtrips DTxContinue_to_bitbuf DTxContinue_from_bitbuf x.
Proof. destruct x. l3_roundtrip DTxContinue_to_bitbuf DTxContinue_from_bitbuf DTxContinue_validate. Qed.

(** ** D-TX-GRANTED *)

Record DTxGranted := mkDTxGranted {
  dtg_call_identifier : Z;
  dtg_transmission_grant : Z;
  dtg_transmission_request_permission : bool;
  dtg_encryption_control : bool;
  dtg_reserved : bool;
  dtg_notification_indicator : option Z;
  dtg_transmitting_party_type_identifier : option Z;
  dtg_transmitting_party_address_ssi : option Z;
  dtg_transmitting_party_extension : option Z;
  dtg_external_subscriber_number : option Type3FieldGeneric;
  dtg_facility : option Type3FieldGeneric;
  dtg_dm_ms_address : option Type3FieldGeneric;
  dtg_proprietary : option Type3FieldGeneric
}.

Definition DTxGranted_validate (self : DTxGranted) : unit + PduParseErr :=
  then_ (if dtg_reserved self then inr (InvalidValue "reserved" 1) else inl tt) (
  then_ (at_most "call_identifier" MAX_U14 (dtg_call_identifier self)) (
  then_ (at_most "transmission_grant" 0x03 (dtg_transmission_grant self)) (
  then_ (bounded "notification_indicator" MAX_U6 (dtg_notification_indicator self)) (
  then_ (bounded "transmitting_party_address_ssi" MAX_U24 (dtg_transmitting_party_address_ssi self)) (
  then_ (bounded "transmitting_party_extension" MAX_U24 (dtg_transmitting_party_extension self)) (
  validate_transmitting_party (dtg_transmitting_party_type_identifier self)
    (dtg_transmitting_party_address_ssi self) (dtg_transmitting_party_extension self))))))).

Definition DTxGranted_from_bitbuf : M DTxGranted :=
  expect_pdu_type 5 11;;
  call_identifier ← read_u16 14 "call_identifier";
  transmission_grant ← read_u8 2 "transmission_grant";
  transmission_request_permission ← read_flag "transmission_request_permission";
  encryption_control ← read_flag "encryption_control";
  reserved ← read_flag "reserved";
  if (reserved : bool) then fail (InvalidValue "reserved" 1) else
  obit ← read_obit;
  notification_indicator ← parse_type2_generic obit 6 "notification_indicator";
  transmitting_party_type_identifier ← parse_type2_generic obit 2 "transmitting_party_type_identifier";
  '(transmitting_party_address_ssi, transmitting_party_extension) ← read_transmitting_party
    transmitting_party_type_identifier;
  external_subscriber_number ← parse_type3_generic obit (elem_id ExtSubscriberNum);
  facility ← parse_type3_generic obit (elem_id Facility);
  dm_ms_address ← parse_type3_generic obit (elem_id DmMsAddr);
  proprietary ← parse_type3_generic obit (elem_id Proprietary);
  read_trailing obit;;
  mret (mkDTxGranted call_identifier transmission_grant transmission_request_permission encryption_control reserved
    notification_indicator transmitting_party_type_identifier transmitting_party_address_ssi
    transmitting_party_extension external_subscriber_number facility dm_ms_address proprietary).

Definition DTxGranted_to_bitbuf (self : DTxGranted) : M unit :=
  validated (DTxGranted_validate self) (
    write_bits 11 5;;
    write_bits (dtg_call_identifier self) 14;;
    write_bits (dtg_transmission_grant self) 2;;
    write_bits (b2z (dtg_transmission_request_permission self)) 1;;
    write_bits (b2z (dtg_encryption_control self)) 1;;
    write_bits (b2z (dtg_reserved self)) 1;;
    let obit := is_some (dtg_notification_indicator self) || is_some (dtg_transmitting_party_type_identifier self) ||
      is_some (dtg_external_subscriber_number self) || is_some (dtg_facility self) || is_some (dtg_dm_ms_address
      self) || is_some (dtg_proprietary self) in
    write_obit (b2z obit);;
    if negb obit then mret tt
    else
      write_type2_generic obit (dtg_notification_indicator self) 6;;
      write_type2_generic obit (dtg_transmitting_party_type_identifier self) 2;;
      write_some (fun v => write_bits v 24) (dtg_transmitting_party_address_ssi self);;
      write_some (fun v => write_bits v 24) (dtg_transmitting_party_extension self);;
      write_type3_generic obit (dtg_external_subscriber_number self) (elem_id ExtSubscriberNum);;
      write_type3_generic obit (dtg_facility self) (elem_id Facility);;
      write_type3_generic obit (dtg_dm_ms_address self) (elem_id DmMsAddr);;
      write_type3_generic obit (dtg_proprietary self) (elem_id Proprietary);;
      write_mbit 0).

Record DTxGranted_ok (x : DTxGranted) : Prop := {
  dtg_ok_call_identifier : (0 <= dtg_call_identifier x)%Z;
  dtg_ok_transmission_grant : (0 <= dtg_transmission_grant x)%Z;
  dtg_ok_notification_indicator : nonneg (dtg_notification_indicator x);
  dtg_ok_transmitting_party_type_identifier : nonneg (dtg_transmitting_party_type_identifier x);
  dtg_ok_transmitting_party_address_ssi : nonneg (dtg_transmitting_party_address_ssi x);
  dtg_ok_transmitting_party_extension : nonneg (dtg_transmitting_party_extension x);
  dtg_ok_external_subscriber_number : option_all (valid3 (elem_id ExtSubscriberNum)) (dtg_external_subscriber_number x);
  dtg_ok_facility : option_all (valid3 (elem_id Facility)) (dtg_facility x);
  dtg_ok_dm_ms_address : option_all (valid3 (elem_id DmMsAddr)) (dtg_dm_ms_address x);
  dtg_ok_proprietary : option_all (valid3 (elem_id Proprietary)) (dtg_proprietary x);
  dtg_ok_valid : DTxGranted_validate x = inl tt
}.

Lemma DTxGranted_roundtrips x : DTxGranted_ok x -> roundtrips DTxGranted_to_bitbuf DTxGranted_from_bitbuf x.
Proof. destruct x. l3_tx DTxGranted_to_bitbuf DTxGranted_from_bitbuf DTxGranted_validate. Qed.

(** ** D-TX-INTERRUPT *)

Record DTxInterrupt := mkDTxInterrupt {
  dti_call_identifier : Z;
  dti_transmission_grant : Z;
  dti_transmission_request_permission : bool;
  dti_encryption_control : bool;
  dti_reserved : bool;
  dti_notification_indicator : option Z;
  dti_transmitting_party_type_identifier : option Z;
  dti_transmitting_party_address_ssi : option Z;
  dti_transmitting_party_extension : option Z;
  dti_external_subscriber_number : option Type3FieldGeneric;
  dti_facility : option Type3FieldGeneric;
  dti_dm_ms_address : option Type3FieldGeneric;
  dti_proprietary : option Type3FieldGeneric
}.

Definition DTxInterrupt_validate (self : DTxInterrupt) : unit + PduParseErr :=
  then_ (if dti_reserved self then inr (InvalidValue "reserved" 1) else inl tt) (
  then_ (at_most "call_identifier" MAX_U14 (dti_call_identifier self)) (
  then_ (at_most "transmission_grant" 0x03 (dti_transmission_grant self)) (
  then_ (bounded "notification_indicator" MAX_U6 (dti_notification_indicator self)) (
  then_ (bounded "transmitting_party_address_ssi" MAX_U24 (dti_transmitting_party_address_ssi self)) (
  then_ (bounded "transmitting_party_extension" MAX_U24 (dti_transmitting_party_extension self)) (
  validate_transmitting_party (dti_transmitting_party_type_identifier self)
    (dti_transmitting_party_address_ssi self) (dti_transmitting_party_extension self))))))).

Definition DTxInterrupt_from_bitbuf : M DTxInterrupt :=
  expect_pdu_type 5 13;;
  call_identifier ← read_u16 14 "call_identifier";
  transmission_grant ← read_u8 2 "transmission_grant";
  transmission_request_permission ← read_flag "transmission_request_permission";
  encryption_control ← read_flag "encryption_control";
  reserved ← read_flag "reserved";
  if (reserved : bool) then fail (InvalidValue "reserved" 1) else
  obit ← read_obit;
  notification_indicator ← parse_type2_generic obit 6 "notification_indicator";
  transmitting_party_type_identifier ← parse_type2_generic obit 2 "transmitting_party_type_identifier";
  '(transmitting_party_address_ssi, transmitting_party_extension) ← read_transmitting_party
    transmitting_party_type_identifier;
  external_subscriber_number ← parse_type3_generic obit (elem_id ExtSubscriberNum);
  facility ← parse_type3_generic obit (elem_id Facility);
  dm_ms_address ← parse_type3_generic obit (elem_id DmMsAddr);
  proprietary ← parse_type3_generic obit (elem_id Proprietary);
  read_trailing obit;;
  mret (mkDTxInterrupt call_identifier transmission_grant transmission_request_permission encryption_control
    reserved notification_indicator transmitting_party_type_identifier transmitting_party_address_ssi
    transmitting_party_extension external_subscriber_number facility dm_ms_address proprietary).

Definition DTxInterrupt_to_bitbuf (self : DTxInterrupt) : M unit :=
  validated (DTxInterrupt_validate self) (
    write_bits 13 5;;
    write_bits (dti_call_identifier self) 14;;
    write_bits (dti_transmission_grant self) 2;;
    write_bits (b2z (dti_transmission_request_permission self)) 1;;
    write_bits (b2z (dti_encryption_control self)) 1;;
    write_bits (b2z (dti_reserved self)) 1;;
    let obit := is_some (dti_notification_indicator self) || is_some (dti_transmitting_party_type_identifier self) ||
      is_some (dti_external_subscriber_number self) || is_some (dti_facility self) || is_some (dti_dm_ms_address
      self) || is_some (dti_proprietary self) in
    write_obit (b2z obit);;
    if negb obit then mret tt
    else
      write_type2_generic obit (dti_notification_indicator self) 6;;
      write_type2_generic obit (dti_transmitting_party_type_identifier self) 2;;
      write_some (fun v => write_bits v 24) (dti_transmitting_party_address_ssi self);;
      write_some (fun v => write_bits v 24) (dti_transmitting_party_extension self);;
      write_type3_generic obit (dti_external_subscriber_number self) (elem_id ExtSubscriberNum);;
      write_type3_generic obit (dti_facility self) (elem_id Facility);;
      write_type3_generic obit (dti_dm_ms_address self) (elem_id DmMsAddr);;
      write_type3_generic obit (dti_proprietary self) (elem_id Proprietary);;
      write_mbit 0).

Record DTxInterrupt_ok (x : DTxInterrupt) : Prop := {
  dti_ok_call_identifier : (0 <= dti_call_identifier x)%Z;
  dti_ok_transmission_grant : (0 <= dti_transmission_grant x)%Z;
  dti_ok_notification_indicator : nonneg (dti_notification_indicator x);
  dti_ok_transmitting_party_type_identifier : nonneg (dti_transmitting_party_type_identifier x);
  dti_ok_transmitting_party_address_ssi : nonneg (dti_transmitting_party_address_ssi x);
  dti_ok_transmitting_party_extension : nonneg (dti_transmitting_party_extension x);
  dti_ok_external_subscriber_number : option_all (valid3 (elem_id ExtSubscriberNum)) (dti_external_subscriber_number x);
  dti_ok_facility : option_all (valid3 (elem_id Facility)) (dti_facility x);
  dti_ok_dm_ms_address : option_all (valid3 (elem_id DmMsAddr)) (dti_dm_ms_address x);
  dti_ok_proprietary : option_all (valid3 (elem_id Proprietary)) (dti_proprietary x);
  dti_ok_valid : DTxInterrupt_validate x = inl tt
}.

Lemma DTxInterrupt_roundtrips x : DTxInterrupt_ok x -> roundtrips DTxInterrupt_to_bitbuf DTxInterrupt_from_bitbuf x.
Proof. destruct x. l3_tx DTxInterrupt_to_bitbuf DTxInterrupt_from_bitbuf DTxInterrupt_validate. Qed.

(** ** D-TX-WAIT *)

Record DTxWait := mkDTxWait {
  dtw_call_identifier : Z;
  dtw_transmission_request_permission : bool;
  dtw_notification_indicator : option Z;
  dtw_facility : option Type3FieldGeneric;
  dtw_dm_ms_address : option Type3FieldGeneric;
  dtw_proprietary : option Type3FieldGeneric
}.

Definition DTxWait_validate (self : DTxWait) : unit + PduParseErr :=
  then_ (at_most "call_identifier" MAX_U14 (dtw_call_identifier self)) (
  bounded "notification_indicator" MAX_U6 (dtw_notification_indicator self)).

Definition DTxWait_from_bitbuf : M DTxWait :=
  expect_pdu_type 5 12;;
  call_identifier ← read_u16 14 "call_identifier";
  transmission_request_permission ← read_flag "transmission_request_permission";
  obit ← read_obit;
  notification_indicator ← parse_type2_generic obit 6 "notification_indicator";
  facility ← parse_type3_generic obit (elem_id Facility);
  dm_ms_address ← parse_type3_generic obit (elem_id DmMsAddr);
  proprietary ← parse_type3_generic obit (elem_id Proprietary);
  read_trailing obit;;
  mret (mkDTxWait call_identifier transmission_request_permission notification_indicator facility dm_ms_address
    proprietary).

Definition DTxWait_to_bitbuf (self : DTxWait) : M unit :=
  validated (DTxWait_validate self) (
    write_bits 12 5;;
    write_bits (dtw_call_identifier self) 14;;
    write_bits (b2z (dtw_transmission_request_permission self)) 1;;
    let obit := is_some (dtw_notification_indicator self) || is_some (dtw_facility self) || is_some (dtw_dm_ms_address
      self) || is_some (dtw_proprietary self) in
    write_obit (b2z obit);;
    if negb obit then mret tt
    else
      write_type2_generic obit (dtw_notification_indicator self) 6;;
      write_type3_generic obit (dtw_facility self) (elem_id Facility);;
      write_type3_generic obit (dtw_dm_ms_address self) (elem_id DmMsAddr);;
      write_type3_generic obit (dtw_proprietary self) (elem_id Proprietary);;
      write_mbit 0).

Record DTxWait_ok (x : DTxWait) : Prop := {
  dtw_ok_call_identifier : (0 <= dtw_call_identifier x)%Z;
  dtw_ok_notification_indicator : nonneg (dtw_notification_indicator x);
  dtw_ok_facility : option_all (valid3 (elem_id Facility)) (dtw_facility x);
  dtw_ok_dm_ms_address : option_all (valid3 (elem_id DmMsAddr)) (dtw_dm_ms_address x);
  dtw_ok_proprietary : option_all (valid3 (elem_id Proprietary)) (dtw_proprietary x);
  dtw_ok_valid : DTxWait_validate x = inl tt
}.

Lemma DTxWait_roundtrips x : DTxWait_ok x -> roundtrips DTxWait_to_bitbuf DTxWait_from_bitbuf x.
Proof. destruct x. l3_roundtrip DTxWait_to_bitbuf DTxWait_from_bitbuf DTxWait_validate. Qed.

(** ** D-SDS-DATA *)

Record DSdsData := mkDSdsData {
  dsd_calling_party_type_identifier : PartyTypeIdentifier;
  dsd_calling_party_address_ssi : option Z;
  dsd_calling_party_extension : option Z;
  dsd_user_defined_data : SdsUserData;
  dsd_external_subscriber_number : option Type3FieldGeneric;
  dsd_dm_ms_address : option Type3FieldGeneric
}.

Definition DSdsData_validate (self : DSdsData) : unit + PduParseErr :=
  match dsd_calling_party_type_identifier self with
  | PtiSsi =>
      required "calling_party_address_ssi" (dsd_calling_party_address_ssi self) (fun ssi =>
      then_ (at_most "calling_party_address_ssi" MAX_U24 ssi)
      (require_absent "calling_party_extension" "not valid for calling party type identifier"
          (dsd_calling_party_extension self)))
  | PtiTsi =>
      required "calling_party_address_ssi" (dsd_calling_party_address_ssi self) (fun ssi =>
      required "calling_party_extension" (dsd_calling_party_extension self) (fun extension =>
      then_ (at_most "calling_party_address_ssi" MAX_U24 ssi)
      (at_most "calling_party_extension" MAX_U24 extension)))
  | PtiSna | PtiReserved =>
      inr (InvalidValue "calling_party_type_identifier" (into_raw (dsd_calling_party_type_identifier self)))
  end.

Definition DSdsData_from_bitbuf : M DSdsData :=
  expect_pdu_type 5 15;;
  calling_party_type_identifier ← read_enum PartyTypeIdentifier 2 "calling_party_type_identifier";
  if bool_decide (calling_party_type_identifier = PtiSna) || bool_decide (calling_party_type_identifier = PtiReserved)
  then fail (InvalidValue "calling_party_type_identifier" (into_raw calling_party_type_identifier))
  else
  calling_party_address_ssi ← read_if (bool_decide (calling_party_type_identifier = PtiSsi) || bool_decide
    (calling_party_type_identifier = PtiTsi)) 24 "calling_party_address_ssi";
  calling_party_extension ← read_if (bool_decide (calling_party_type_identifier = PtiTsi)) 24 "calling_party_extension";
  user_defined_data ← read_user_data;
  obit ← read_obit;
  external_subscriber_number ← parse_type3_generic obit (elem_id ExtSubscriberNum);
  dm_ms_address ← parse_type3_generic obit (elem_id DmMsAddr);
  read_trailing obit;;
  mret (mkDSdsData calling_party_type_identifier calling_party_address_ssi calling_party_extension user_defined_data
    external_subscriber_number dm_ms_address).

Definition DSdsData_to_bitbuf (self : DSdsData) : M unit :=
  validated (DSdsData_validate self) (
    write_bits 15 5;;
    write_bits (into_raw (dsd_calling_party_type_identifier self)) 2;;
    write_some (fun v => write_bits v 24) (dsd_calling_party_address_ssi self);;
    write_some (fun v => write_bits v 24) (dsd_calling_party_extension self);;
    write_sds_user_data (dsd_user_defined_data self);;
    let obit := is_some (dsd_external_subscriber_number self) || is_some (dsd_dm_ms_address self) in
    write_obit (b2z obit);;
    if negb obit then mret tt
    else
      write_type3_generic obit (dsd_external_subscriber_number self) (elem_id ExtSubscriberNum);;
      write_type3_generic obit (dsd_dm_ms_address self) (elem_id DmMsAddr);;
      write_mbit 0).

Record DSdsData_ok (x : DSdsData) : Prop := {
  dsd_ok_calling_party_address_ssi : nonneg (dsd_calling_party_address_ssi x);
  dsd_ok_calling_party_extension : nonneg (dsd_calling_party_extension x);
  dsd_ok_user_defined_data : user_data_ok (dsd_user_defined_data x);
  dsd_ok_external_subscriber_number : option_all (valid3 (elem_id ExtSubscriberNum)) (dsd_external_subscriber_number x);
  dsd_ok_dm_ms_address : option_all (valid3 (elem_id DmMsAddr)) (dsd_dm_ms_address x);
  dsd_ok_valid : DSdsData_validate x = inl tt
}.

Lemma DSdsData_roundtrips x : DSdsData_ok x -> roundtrips DSdsData_to_bitbuf DSdsData_from_bitbuf x.
Proof. destruct x. l3_roundtrip DSdsData_to_bitbuf DSdsData_from_bitbuf DSdsData_validate. Qed.

(** ** D-SETUP

    The type identifier of the calling party is not stored; it follows from which of address and
    extension are there. *)
Record DSetup := mkDSetup {
  dsu_call_identifier : Z;
  dsu_call_time_out : CallTimeout;
  dsu_hook_method_selection : bool;
  dsu_simplex_duplex_selection : bool;
  dsu_basic_service_information : BasicServiceInformation;
  dsu_transmission_grant : TransmissionGrant;
  dsu_transmission_request_permission : bool;
  dsu_call_priority : Z;
  dsu_notification_indicator : option Z;
  dsu_temporary_address : option Z;
  dsu_calling_party_address_ssi : option Z;
  dsu_calling_party_extension : option Z;
  dsu_external_subscriber_number : option Type3FieldGeneric;
  dsu_facility : option Type3FieldGeneric;
  dsu_dm_ms_address : option Type3FieldGeneric;
  dsu_proprietary : option Type3FieldGeneric
}.

Definition DSetup_validate (self : DSetup) : unit + PduParseErr :=
  then_ (at_most "call_identifier" MAX_U14 (dsu_call_identifier self)) (
  then_ (Bsi_validate (dsu_basic_service_information self)) (
  then_ (at_most "call_priority" MAX_U4 (dsu_call_priority self)) (
  then_ (bounded "notification_indicator" MAX_U6 (dsu_notification_indicator self)) (
  then_ (bounded "temporary_address" MAX_U24 (dsu_temporary_address self)) (
  then_ (bounded "calling_party_address_ssi" MAX_U24 (dsu_calling_party_address_ssi self)) (
  then_ (bounded "calling_party_extension" MAX_U24 (dsu_calling_party_extension self)) (
  if is_some (dsu_calling_party_extension self) && negb (is_some (dsu_calling_party_address_ssi self))
  then inr (Inconsistency "calling_party_extension" "not valid without calling_party_address_ssi")
  else inl tt))))))).

(** [as u32] of a field of 24 bits *)
Definition read_u32_if (cond : bool) (n : nat) (name : string) : M (option Z) :=
  if cond then v ← read_u32 n name; mret (Some v) else mret None.

Definition DSetup_from_bitbuf : M DSetup :=
  expect_pdu_type 5 7;;
  call_identifier ← read_u16 14 "call_identifier";
  call_time_out ← read_enum_unwrap CallTimeout 4 "call_time_out";
  hook_method_selection ← read_flag "hook_method_selection";
  simplex_duplex_selection ← read_flag "simplex_duplex_selection";
  basic_service_information ← Bsi_from_bitbuf;
  transmission_grant ← read_enum_unwrap TransmissionGrant 2 "transmission_grant";
  transmission_request_permission ← read_flag "transmission_request_permission";
  call_priority ← read_u8 4 "call_priority";
  obit ← read_obit;
  notification_indicator ← parse_type2_generic obit 6 "notification_indicator";
  temporary_address ← parse_type2_generic obit 24 "temporary_address";
  calling_party_type_identifier ← parse_type2_generic obit 2 "calling_party_type_identifier";
  calling_party_address_ssi ←
    read_u32_if (obit && bool_decide (calling_party_type_identifier = Some 1%Z)
                 || bool_decide (calling_party_type_identifier = Some 2%Z)) 24 "calling_party_address_ssi";
  calling_party_extension ←
    read_u32_if (obit && bool_decide (calling_party_type_identifier = Some 2%Z)) 24 "calling_party_extension";
  external_subscriber_number ← parse_type3_generic obit (elem_id ExtSubscriberNum);
  facility ← parse_type3_generic obit (elem_id Facility);
  dm_ms_address ← parse_type3_generic obit (elem_id DmMsAddr);
  proprietary ← parse_type3_generic obit (elem_id Proprietary);
  read_trailing obit;;
  mret (mkDSetup call_identifier call_time_out hook_method_selection simplex_duplex_selection basic_service_information
          transmission_grant transmission_request_permission call_priority notification_indicator temporary_address
          calling_party_address_ssi calling_party_extension external_subscriber_number facility dm_ms_address proprietary).

(** [None] of the inner option: the error of the last arm. *)
Definition calling_party_type (ssi ext : option Z) : option (option Z) :=
  match ssi, ext with
  | None, None => Some None
  | Some _, None => Some (Some 1%Z)
  | Some _, Some _ => Some (Some 2%Z)
  | _, _ => None
  end.

Definition DSetup_to_bitbuf (self : DSetup) : M unit :=
  validated (DSetup_validate self) (
    write_bits 7 5;;
    write_bits (dsu_call_identifier self) 14;;
    write_bits (into_raw (dsu_call_time_out self)) 4;;
    write_bits (b2z (dsu_hook_method_selection self)) 1;;
    write_bits (b2z (dsu_simplex_duplex_selection self)) 1;;
    Bsi_to_bitbuf (dsu_basic_service_information self);;
    write_bits (into_raw (dsu_transmission_grant self)) 2;;
    write_bits (b2z (dsu_transmission_request_permission self)) 1;;
    write_bits (dsu_call_priority self) 4;;
    let obit := is_some (dsu_notification_indicator self) || is_some (dsu_temporary_address self)
      || is_some (dsu_calling_party_address_ssi self) || is_some (dsu_calling_party_extension self)
      || is_some (dsu_external_subscriber_number self) || is_some (dsu_facility self)
      || is_some (dsu_dm_ms_address self) || is_some (dsu_proprietary self) in
    write_obit (b2z obit);;
    if negb obit then mret tt
    else
      write_type2_generic obit (dsu_notification_indicator self) 6;;
      write_type2_generic obit (dsu_temporary_address self) 24;;
      match calling_party_type (dsu_calling_party_address_ssi self) (dsu_calling_party_extension self) with
      | None => fail (InvalidValue "calling_party_type_identifier" 0)
      | Some calling_party_type_identifier =>
          write_type2_generic obit calling_party_type_identifier 2;;
          write_some (fun v => write_bits v 24) (dsu_calling_party_address_ssi self);;
          write_some (fun v => write_bits v 24) (dsu_calling_party_extension self);;
          write_type3_generic obit (dsu_external_subscriber_number self) (elem_id ExtSubscriberNum);;
          write_type3_generic obit (dsu_facility self) (elem_id Facility);;
          write_type3_generic obit (dsu_dm_ms_address self) (elem_id DmMsAddr);;
          write_type3_generic obit (dsu_proprietary self) (elem_id Proprietary);;
          write_mbit 0
      end).

Record DSetup_ok (x : DSetup) : Prop := {
  dsu_ok_call_identifier : (0 <= dsu_call_identifier x)%Z;
  dsu_ok_basic_service_information : Bsi_typed (dsu_basic_service_information x);
  dsu_ok_call_priority : (0 <= dsu_call_priority x)%Z;
  dsu_ok_notification_indicator : nonneg (dsu_notification_indicator x);
  dsu_ok_temporary_address : nonneg (dsu_temporary_address x);
  dsu_ok_calling_party_address_ssi : nonneg (dsu_calling_party_address_ssi x);
  dsu_ok_calling_party_extension : nonneg (dsu_calling_party_extension x);
  dsu_ok_external_subscriber_number : option_all (valid3 (elem_id ExtSubscriberNum)) (dsu_external_subscriber_number x);
  dsu_ok_facility : option_all (valid3 (elem_id Facility)) (dsu_facility x);
  dsu_ok_dm_ms_address : option_all (valid3 (elem_id DmMsAddr)) (dsu_dm_ms_address x);
  dsu_ok_proprietary : option_all (valid3 (elem_id Proprietary)) (dsu_proprietary x);
  dsu_ok_valid : DSetup_validate x = inl tt
}.

Lemma read_u32_if_parses n name v rest :
  (0 <= v < 2 ^ Z.of_nat n)%Z -> n <= 32 -> parses (read_u32_if true n name) (val_bits n v) rest (Some v).
Proof. intros Hv Hn. by apply (parses_fmap _ Some), read_u32_parses. Qed.

Lemma read_u32_if_not_parses n name rest : parses (read_u32_if false n name) [] rest None.
Proof. apply (parses_ret None). Qed.

Lemma some_bound24 v : addr24 (Some v) -> (0 <= v < 2 ^ Z.of_nat 24)%Z.
Proof. intros H. exact (H v eq_refl). Qed.

Lemma calling_party_type_bound ssi ext t :
  calling_party_type ssi ext = Some t -> option_all (fun v => 0 <= v < 2 ^ Z.of_nat 2)%Z t.
Proof. destruct ssi, ext; intros [= <-] v; [intros [= <-]; lia..|done]. Qed.

Ltac dsu_parse :=
  l3_parse;
  repeat (eapply parses_bind; [first [apply read_u32_if_parses; [assumption|lia]|apply read_u32_if_not_parses]|];
          cbv beta iota; l3_parse).

Lemma DSetup_roundtrips x : DSetup_ok x -> roundtrips DSetup_to_bitbuf DSetup_from_bitbuf x.
Proof.
  destruct x as [ci ct hk sd bsi tg trp cp ni ta ssi ext esn fac dm prop]. intros [? ? ? ? ? ? ? ? ? ? ? Hv]. cbn in *.
  unfold roundtrips, DSetup_to_bitbuf, DSetup_from_bitbuf. rewrite Hv. cbn. unfold DSetup_validate in Hv. cbn in Hv. l3_facts Hv.
  destruct (calling_party_type ssi ext) as [t|] eqn:Et; [|by destruct ssi, ext].
  pose proof (calling_party_type_bound _ _ _ Et) as Ht. cbv zeta.
  destruct (_ || _) eqn:O; cbn [negb].
  - destruct ssi as [s|], ext as [e|]; try discriminate Et; injection Et as <-;
      repeat match goal with H : option_all _ (Some ?v) |- _ => apply some_bound24 in H end;
      (eexists; split; [l3_emit|intros rest; dsu_parse]).
  - none_present O. subst. eexists. split; [l3_emit|]. intros rest. l3_parse.
Qed.
