(* ===== verification/MlePdus.v ===== *)
(** * D-NWRK-BROADCAST (crates/tetra-pdus/src/mle)

    The network broadcast PDU with the neighbour cells it lists: mle/pdus/d_nwrk_broadcast.rs,
    mle/fields/neighbour_cell_information_for_ca.rs, mle/fields/bs_service_details.rs. *)

From Stdlib Require Import ZArith Lia ZifyNat.
From stdpp Require Import strings.
From S2P Require Import Prelude.
From S2P Require Import BitBuffer.
From S2P Require Import BitBufferFacts.
From S2P Require Import Codec.
From S2P Require Import MacFields.
From S2P Require Import MacPdus.
From S2P Require Import Robust.
From S2P Require Import Circuits.
From S2P Require Import Typed.
From S2P Require Import CmceFields.

(** ** Service details of a cell *)

Record BsServiceDetails := mkBsServiceDetails {
  bsd_registration : bool;
  bsd_deregistration : bool;
  bsd_priority_cell : bool;
  bsd_no_minimum_mode : bool;
  bsd_migration : bool;
  bsd_system_wide_services : bool;
  bsd_voice_service : bool;
  bsd_circuit_mode_data_service : bool;
  bsd_sndcp_service : bool;
  bsd_aie_service : bool;
  bsd_advanced_link : bool
}.

(** A reserved bit that is set is only logged. *)
Definition BsServiceDetails_from_bitbuf : M BsServiceDetails :=
  registration ← read_flag "registration";
  deregistration ← read_flag "deregistration";
  priority_cell ← read_flag "priority_cell";
  no_minimum_mode ← read_flag "no_minimum_mode";
  migration ← read_flag "migration";
  system_wide_services ← read_flag "system_wide_services";
  voice_service ← read_flag "voice_service";
  circuit_mode_data_service ← read_flag "circuit_mode_data_service";
  _ ← read_field 1 "reserved";
  sndcp_service ← read_flag "sndcp_service";
  aie_service ← read_flag "aie_service";
  advanced_link ← read_flag "advanced_link";
  mret (mkBsServiceDetails registration deregistration priority_cell no_minimum_mode migration system_wide_services
          voice_service circuit_mode_data_service sndcp_service aie_service advanced_link).

Definition BsServiceDetails_to_bitbuf (self : BsServiceDetails) : M unit :=
  write_bits (b2z (bsd_registration self)) 1;;
  write_bits (b2z (bsd_deregistration self)) 1;;
  write_bits (b2z (bsd_priority_cell self)) 1;;
  write_bits (b2z (bsd_no_minimum_mode self)) 1;;
  write_bits (b2z (bsd_migration self)) 1;;
  write_bits (b2z (bsd_system_wide_services self)) 1;;
  write_bits (b2z (bsd_voice_service self)) 1;;
  write_bits (b2z (bsd_circuit_mode_data_service self)) 1;;
  write_bits 0 1;;
  write_bits (b2z (bsd_sndcp_service self)) 1;;
  write_bits (b2z (bsd_aie_service self)) 1;;
  write_bits (b2z (bsd_advanced_link self)) 1.

Definition bsd_img (x : BsServiceDetails) : list bool :=
  img_bool (bsd_registration x) ++ img_bool (bsd_deregistration x) ++ img_bool (bsd_priority_cell x) ++ img_bool (bsd_no_minimum_mode x) ++
  img_bool (bsd_migration x) ++ img_bool (bsd_system_wide_services x) ++ img_bool (bsd_voice_service x) ++ img_bool (bsd_circuit_mode_data_service x) ++
  val_bits 1 0 ++ img_bool (bsd_sndcp_service x) ++ img_bool (bsd_aie_service x) ++ img_bool (bsd_advanced_link x).

(** ** Neighbour cells *)

(** [typed::parse_type2_generic(..)?.map(|v| v as uN)] *)
Definition parse_type2_as (wrap : Z -> Z) (obit : bool) (num_bits : nat) (field_name : string) : M (option Z) :=
  v ← parse_type2_generic obit num_bits field_name;
  mret (wrap <$> v).

Record NeighbourCellInformationForCa := mkNeighbour {
  nc_cell_identifier_ca : Z;
  nc_cell_reselection_types_supported : Z;
  nc_neighbour_cell_synchronized : bool;
  nc_cell_load_ca : Z;
  nc_main_carrier_number : Z;
  nc_main_carrier_number_extension : option Z;
  nc_mcc : option Z;
  nc_mnc : option Z;
  nc_location_area : option Z;
  nc_maximum_ms_transmit_power : option Z;
  nc_minimum_rx_access_level : option Z;
  nc_subscriber_class : option Z;
  nc_bs_service_details : option BsServiceDetails;
  nc_timeshare_cell_information_or_security_parameters : option Z;
  nc_tdma_frame_offset : option Z
}.

Definition NeighbourCell_from_bitbuf : M NeighbourCellInformationForCa :=
  cell_identifier_ca ← read_u8 5 "cell_identifier_ca";
  cell_reselection_types_supported ← read_u8 2 "cell_reselection_types_supported";
  neighbour_cell_synchronized ← read_flag "neighbour_cell_synchronized";
  cell_load_ca ← read_u8 2 "cell_load_ca";
  main_carrier_number ← read_u16 12 "main_carrier_number";
  obit ← read_obit;
  main_carrier_number_extension ← parse_type2_as u16 obit 10 "main_carrier_number_extension";
  mcc ← parse_type2_as u16 obit 10 "mcc";
  mnc ← parse_type2_as u16 obit 14 "mnc";
  location_area ← parse_type2_as u16 obit 14 "location_area";
  maximum_ms_transmit_power ← parse_type2_as u8 obit 3 "maximum_ms_transmit_power";
  minimum_rx_access_level ← parse_type2_as u8 obit 4 "minimum_rx_access_level";
  subscriber_class ← parse_type2_as u16 obit 16 "subscriber_class";
  bs_service_details ← parse_type2_struct obit BsServiceDetails_from_bitbuf;
  timeshare_cell_information_or_security_parameters ← parse_type2_as u8 obit 5 "timeshare_cell_information_or_security_parameters";
  tdma_frame_offset ← parse_type2_as u8 obit 6 "tdma_frame_offset";
  mret (mkNeighbour cell_identifier_ca cell_reselection_types_supported neighbour_cell_synchronized cell_load_ca
          main_carrier_number main_carrier_number_extension mcc mnc location_area maximum_ms_transmit_power
          minimum_rx_access_level subscriber_class bs_service_details timeshare_cell_information_or_security_parameters
          tdma_frame_offset).

(** [ensure_bits] and [ensure_opt_bits] *)
Definition ensure_bits (value : Z) (bits : nat) (field : string) : unit + PduParseErr :=
  at_most field (if (64 <=? bits)%nat then 2 ^ 64 - 1 else Z.shiftl 1 (Z.of_nat bits) - 1)%Z value.
Definition ensure_opt_bits (value : option Z) (bits : nat) (field : string) : unit + PduParseErr :=
  match value with Some v => ensure_bits v bits field | None => inl tt end.

(** The checks at the beginning of [to_bitbuf]. *)
Definition NeighbourCell_ensure (self : NeighbourCellInformationForCa) : unit + PduParseErr :=
  then_ (ensure_bits (nc_cell_identifier_ca self) 5 "cell_identifier_ca") (
  then_ (ensure_bits (nc_cell_reselection_types_supported self) 2 "cell_reselection_types_supported") (
  then_ (ensure_bits (nc_cell_load_ca self) 2 "cell_load_ca") (
  then_ (ensure_bits (nc_main_carrier_number self) 12 "main_carrier_number") (
  then_ (ensure_opt_bits (nc_main_carrier_number_extension self) 10 "main_carrier_number_extension") (
  then_ (ensure_opt_bits (nc_mcc self) 10 "mcc") (
  then_ (ensure_opt_bits (nc_mnc self) 14 "mnc") (
  then_ (ensure_opt_bits (nc_location_area self) 14 "location_area") (
  then_ (ensure_opt_bits (nc_maximum_ms_transmit_power self) 3 "maximum_ms_transmit_power") (
  then_ (ensure_opt_bits (nc_minimum_rx_access_level self) 4 "minimum_rx_access_level") (
  then_ (ensure_opt_bits (nc_subscriber_class self) 16 "subscriber_class") (
  then_ (ensure_opt_bits (nc_timeshare_cell_information_or_security_parameters self) 5 "timeshare_cell_information_or_security_parameters") (
  ensure_opt_bits (nc_tdma_frame_offset self) 6 "tdma_frame_offset")))))))))))).

Definition NeighbourCell_to_bitbuf (self : NeighbourCellInformationForCa) : M unit :=
  validated (NeighbourCell_ensure self) (
    write_bits (nc_cell_identifier_ca self) 5;;
    write_bits (nc_cell_reselection_types_supported self) 2;;
    write_bits (b2z (nc_neighbour_cell_synchronized self)) 1;;
    write_bits (nc_cell_load_ca self) 2;;
    write_bits (nc_main_carrier_number self) 12;;
    let obit := is_some (nc_main_carrier_number_extension self)
      || is_some (nc_mcc self)
      || is_some (nc_mnc self)
      || is_some (nc_location_area self)
      || is_some (nc_maximum_ms_transmit_power self)
      || is_some (nc_minimum_rx_access_level self)
      || is_some (nc_subscriber_class self)
      || is_some (nc_bs_service_details self)
      || is_some (nc_timeshare_cell_information_or_security_parameters self)
      || is_some (nc_tdma_frame_offset self) in
    write_obit (b2z obit);;
    write_type2_generic obit (nc_main_carrier_number_extension self) 10;;
    write_type2_generic obit (nc_mcc self) 10;;
    write_type2_generic obit (nc_mnc self) 14;;
    write_type2_generic obit (nc_location_area self) 14;;
    write_type2_generic obit (nc_maximum_ms_transmit_power self) 3;;
    write_type2_generic obit (nc_minimum_rx_access_level self) 4;;
    write_type2_generic obit (nc_subscriber_class self) 16;;
    write_type2_struct obit (nc_bs_service_details self) BsServiceDetails_to_bitbuf;;
    write_type2_generic obit (nc_timeshare_cell_information_or_security_parameters self) 5;;
    write_type2_generic obit (nc_tdma_frame_offset self) 6).

Record NeighbourCell_ok (x : NeighbourCellInformationForCa) : Prop := {
  nc_ok_cell_identifier_ca : (0 <= nc_cell_identifier_ca x)%Z;
  nc_ok_cell_reselection_types_supported : (0 <= nc_cell_reselection_types_supported x)%Z;
  nc_ok_cell_load_ca : (0 <= nc_cell_load_ca x)%Z;
  nc_ok_main_carrier_number : (0 <= nc_main_carrier_number x)%Z;
  nc_ok_main_carrier_number_extension : nonneg (nc_main_carrier_number_extension x);
  nc_ok_mcc : nonneg (nc_mcc x);
  nc_ok_mnc : nonneg (nc_mnc x);
  nc_ok_location_area : nonneg (nc_location_area x);
  nc_ok_maximum_ms_transmit_power : nonneg (nc_maximum_ms_transmit_power x);
  nc_ok_minimum_rx_access_level : nonneg (nc_minimum_rx_access_level x);
  nc_ok_subscriber_class : nonneg (nc_subscriber_class x);
  nc_ok_timeshare_cell_information_or_security_parameters : nonneg (nc_timeshare_cell_information_or_security_parameters x);
  nc_ok_tdma_frame_offset : nonneg (nc_tdma_frame_offset x);
  nc_ok_valid : NeighbourCell_ensure x = inl tt
}.

(** ** D-NWRK-BROADCAST *)

Record DNwrkBroadcast := mkNwrkBroadcast {
  nb_cell_re_select_parameters : Z;
  nb_cell_load_ca : Z;
  nb_tetra_network_time : option Z;
  nb_number_of_ca_neighbour_cells : option Z;
  nb_neighbour_cell_information_for_ca : list NeighbourCellInformationForCa
}.

Definition DNwrkBroadcast_from_bitbuf : M DNwrkBroadcast :=
  expect_pdu_type 3 2;;
  cell_re_select_parameters ← read_u16 16 "cell_re_select_parameters";
  cell_load_ca ← read_u8 2 "cell_load_ca";
  obit ← read_obit;
  tetra_network_time ← parse_type2_generic obit 48 "tetra_network_time";
  number_of_ca_neighbour_cells ← parse_type2_as u8 obit 3 "number_of_ca_neighbour_cells";
  neighbour_cell_information_for_ca ←
    match number_of_ca_neighbour_cells with
    | Some count =>
        if (7 <? count)%Z then fail (InvalidValue "number_of_ca_neighbour_cells" count)
        else parse_elems (Z.to_nat count) NeighbourCell_from_bitbuf
    | None => mret []
    end;
  mret (mkNwrkBroadcast cell_re_select_parameters cell_load_ca tetra_network_time number_of_ca_neighbour_cells
          neighbour_cell_information_for_ca).

(** The checks at the beginning of [to_bitbuf]. *)
Definition DNwrkBroadcast_check (self : DNwrkBroadcast) : unit + PduParseErr :=
  let neighbour_count := Z.of_nat (length (nb_neighbour_cell_information_for_ca self)) in
  match nb_number_of_ca_neighbour_cells self with
  | Some count =>
      if negb (count =? neighbour_count)%Z
      then inr (Inconsistency "number_of_ca_neighbour_cells" "count does not match neighbour_cell_information_for_ca length")
      else at_most "number_of_ca_neighbour_cells" 7 count
  | None =>
      if (0 <? neighbour_count)%Z
      then inr (Inconsistency "neighbour_cell_information_for_ca" "missing number_of_ca_neighbour_cells")
      else inl tt
  end.

Definition DNwrkBroadcast_to_bitbuf (self : DNwrkBroadcast) : M unit :=
  validated (DNwrkBroadcast_check self) (
    write_bits 2 3;;
    write_bits (nb_cell_re_select_parameters self) 16;;
    write_bits (nb_cell_load_ca self) 2;;
    let obit := is_some (nb_tetra_network_time self) || is_some (nb_number_of_ca_neighbour_cells self) in
    write_obit (b2z obit);;
    if negb obit then mret tt
    else
      write_type2_generic obit (nb_tetra_network_time self) 48;;
      write_type2_generic obit (nb_number_of_ca_neighbour_cells self) 3;;
      if (0 <? default 0 (nb_number_of_ca_neighbour_cells self))%Z
      then write_elems (nb_neighbour_cell_information_for_ca self) NeighbourCell_to_bitbuf
      else mret tt).

(** The value of a field of [n] bits; the network time is 48 bits. *)
Record DNwrkBroadcast_ok (x : DNwrkBroadcast) : Prop := {
  nb_ok_cell_re_select_parameters : (0 <= nb_cell_re_select_parameters x < 2 ^ 16)%Z;
  nb_ok_cell_load_ca : (0 <= nb_cell_load_ca x < 4)%Z;
  nb_ok_tetra_network_time : option_all (fun v => 0 <= v < 2 ^ 48)%Z (nb_tetra_network_time x);
  nb_ok_cells : Forall NeighbourCell_ok (nb_neighbour_cell_information_for_ca x);
  nb_ok_valid : DNwrkBroadcast_check x = inl tt
}.

(** ** Round trips *)

Lemma bsd_emits x : emits (BsServiceDetails_to_bitbuf x) tt (bsd_img x).
Proof. unfold BsServiceDetails_to_bitbuf, bsd_img. l3_emit. Qed.

Lemma bsd_parses x rest : parses BsServiceDetails_from_bitbuf (bsd_img x) rest x.
Proof.
  destruct x. unfold BsServiceDetails_from_bitbuf, bsd_img. cbn.
  rewrite <- (app_nil_r (img_bool bsd_advanced_link0)). l3_parse.
Qed.
#[export] Hint Resolve bsd_emits bsd_parses : l3.

Lemma type2_as_parses wrap k o n name rest :
  option_all (fun v => 0 <= v < 2 ^ Z.of_nat n)%Z o -> n <= 64 -> n <= k ->
  (forall v, (0 <= v < 2 ^ Z.of_nat k)%Z -> wrap v = v) ->
  parses (parse_type2_as wrap true n name) (img2 (val_bits n) o) rest o.
Proof.
  intros Ho Hn Hk Hw. assert (E : wrap <$> o = o).
  { destruct o as [v|]; [|done]. cbn. f_equal. apply Hw. destruct (Ho v eq_refl). split; [done|].
    apply Z.lt_le_trans with (2 ^ Z.of_nat n)%Z; [done|]. apply Z.pow_le_mono_r; lia. }
  rewrite <- E at 2. by apply (parses_fmap _ (fmap wrap)), parse_type2_generic_parses.
Qed.

Lemma u8_of_bits v : (0 <= v < 2 ^ Z.of_nat 8)%Z -> u8 v = v.
Proof. apply Z.mod_small. Qed.
Lemma u16_of_bits v : (0 <= v < 2 ^ Z.of_nat 16)%Z -> u16 v = v.
Proof. apply Z.mod_small. Qed.

Lemma ensure_inl v n name : n < 64 -> ensure_bits v n name = inl tt -> (v < 2 ^ Z.of_nat n)%Z.
Proof.
  intros Hn H. unfold ensure_bits in H. rewrite (proj2 (Nat.leb_gt _ _) Hn) in H.
  apply at_most_inl in H. rewrite Z.shiftl_1_l in H. lia.
Qed.

Lemma ensure_opt_inl o n name :
  n < 64 -> ensure_opt_bits o n name = inl tt -> nonneg o -> option_all (fun v => 0 <= v < 2 ^ Z.of_nat n)%Z o.
Proof.
  intros Hn H Ho v ->. specialize (Ho v eq_refl). split; [exact Ho|]. by apply ensure_inl in H.
Qed.

(** The fields that have to fit their width. *)
Ltac nc_facts :=
  repeat match goal with
  | V : then_ _ _ = inl _ |- _ => let V' := fresh "V" in apply checks_inl in V as [V' V]
  | V : ensure_bits _ _ _ = inl _ |- _ => apply ensure_inl in V; [|lia]
  | V : ensure_opt_bits ?o _ _ = inl _, N : nonneg ?o |- _ => apply ensure_opt_inl in V; [|lia|exact N]; clear N
  end.
Ltac nc_parse :=
  repeat first
    [ eapply parses_bind; [first [parse_field | eapply (type2_as_parses _ 8); [eassumption|lia|lia|apply u8_of_bits]
                                | eapply (type2_as_parses _ 16); [eassumption|lia|lia|apply u16_of_bits]]|]; cbv beta iota ].

Lemma NeighbourCell_roundtrips x : NeighbourCell_ok x -> roundtrips NeighbourCell_to_bitbuf NeighbourCell_from_bitbuf x.
Proof.
  destruct x. intros []. cbn in *. unfold roundtrips, NeighbourCell_to_bitbuf, NeighbourCell_from_bitbuf. rewrite nc_ok_valid0. cbn.
  unfold NeighbourCell_ensure in nc_ok_valid0. cbn [nc_cell_identifier_ca nc_cell_reselection_types_supported nc_cell_load_ca
    nc_main_carrier_number nc_main_carrier_number_extension nc_mcc nc_mnc nc_location_area nc_maximum_ms_transmit_power
    nc_minimum_rx_access_level nc_subscriber_class nc_timeshare_cell_information_or_security_parameters nc_tdma_frame_offset] in nc_ok_valid0.
  nc_facts. cbv zeta. destruct (_ || _) eqn:O.
  - eexists. split; [l3_emit|]. intros rest. nc_parse. rewrite <- (app_nil_r (img2 _ _)). nc_parse. apply parses_ret.
  - none_present O. subst. eexists. split; [l3_emit|]. intros rest. nc_parse. apply parses_ret.
Qed.

(** A list of elements that all survive their round trip. *)
Lemma elems_roundtrip {T} (to_bitbuf : T -> M unit) (from_bitbuf : M T) l :
  Forall (roundtrips to_bitbuf from_bitbuf) l ->
  exists bs, emits (write_elems l to_bitbuf) tt bs /\ forall rest, parses (parse_elems (length l) from_bitbuf) bs rest l.
Proof.
  induction 1 as [|x l (bx & Ex & Px) _ (bs & E & P)].
  - exists []. split; [apply emits_ret|]. intros rest. apply (parses_ret []).
  - exists (bx ++ bs). split; [by apply emits_bind_tt|]. intros rest. cbn [length parse_elems].
    eapply parses_bind; [apply Px|]. apply (parses_fmap _ (cons x)), P.
Qed.

Lemma DNwrkBroadcast_roundtrips x : DNwrkBroadcast_ok x -> roundtrips DNwrkBroadcast_to_bitbuf DNwrkBroadcast_from_bitbuf x.
Proof.
  destruct x as [rp load time num cells]. intros [Hrp Hload Htime Hcells Hv]. cbn in *.
  unfold roundtrips, DNwrkBroadcast_to_bitbuf, DNwrkBroadcast_from_bitbuf. rewrite Hv. cbn. unfold DNwrkBroadcast_check in Hv. cbn in Hv.
  destruct (elems_roundtrip NeighbourCell_to_bitbuf NeighbourCell_from_bitbuf cells) as (cs & Ec & Pc).
  { eapply Forall_impl; [exact Hcells|]. apply NeighbourCell_roundtrips. }
  assert (Hn : option_all (fun v => 0 <= v < 2 ^ Z.of_nat 3)%Z num /\ Z.of_nat (length cells) = default 0%Z num).
  { destruct num as [n|]; cbn in Hv |- *.
    - destruct (Z.eqb_spec n (Z.of_nat (length cells))) as [->|]; [|done]. apply at_most_inl in Hv. split; [|done].
      intros v [= <-]. lia.
    - destruct (Z.ltb_spec 0 (Z.of_nat (length cells))); [done|]. split; [by intros v [=]|lia]. }
  destruct Hn as [Hn Hl]. cbv zeta. destruct (is_some time || is_some num) eqn:O; cbn [negb].
  - eexists. split.
    + do 6 (eapply emits_bind_tt; [emit_field|]).
      instantiate (1 := cs). destruct (Z.ltb_spec 0 (default 0%Z num)) as [H0|H0]; [exact Ec|].
      destruct cells; [exact Ec|cbn in Hl; lia].
    + intros rest. nc_parse. rewrite <- (app_nil_r cs). eapply parses_bind with (a := cells); [|apply parses_ret].
      destruct num as [n|]; cbn in Hl; [|destruct cells; [apply Pc|cbn in Hl; lia]].
      specialize (Hn n eq_refl). cbn in Hn. bfalse (7 <? n)%Z. rewrite <- Hl, Nat2Z.id. apply Pc.
  - none_present O. subst. cbn in Hl. destruct cells; [|cbn in Hl; lia]. eexists. split; [l3_emit|]. intros rest. nc_parse. apply parses_ret.
Qed.
