(* ===== verification/LlcUp.v ===== *)
(** * What the basic link hands up

    Whatever the LLC entity goes through, its indications and confirmations carry well-formed
    SDUs read from their start, its confirmations report success, and the handles it gives to
    TL-DATA indications are negative. *)

From Stdlib Require Import ZArith Lia ZifyNat.
From stdpp Require Import gmap strings.
From S2P Require Import Prelude.
From S2P Require Import BitBuffer.
From S2P Require Import BitBufferFacts.
From S2P Require Import Codec.
From S2P Require Import Tdma.
From S2P Require Import MacFields.
From S2P Require Import Defrag.
From S2P Require Import TxReceipt.
From S2P Require Import Frag.
From S2P Require Import LlcPdus.
From S2P Require Import Llc.
From S2P Require Import LlcFacts.
From S2P Require Import LlcInv.
From S2P Require Import LlcTick.
From S2P Require Import LlcRun.

Definition sdu_ok (ind : TlIndication) : Prop :=
  forall sdu, in_tl_sdu ind = Some sdu -> wf sdu /\ pos sdu = start sdu.

Definition msg_ok (m : LlcMsg) : Prop :=
  match m with
  | TlDataConfBl ind _ report => report = TLA_REPORT_SUCCESSFUL_TRANSFER /\ sdu_ok ind
  | TlaTlDataIndBl ind handle => (handle < 0)%Z /\ sdu_ok ind
  | TlaTlUnitdataIndBl ind => sdu_ok ind
  | _ => True
  end.

Definition acks_negative : list ScheduledOutAck -> Prop := Forall (fun k => (so_ind_req_handle k < 0)%Z).

(** The handles of indications, and the messages pushed so far. *)
Record up (self : Llc) (queue : list LlcMsg) : Prop := {
  up_next : (-2147483648 <= next_tl_data_ind_req_handle self < 0)%Z;
  up_acks : acks_negative (scheduled_out_acks self);
  up_msgs : Forall msg_ok queue
}.

(** ** Messages without an SDU *)

Lemma push_ok queue m : Forall msg_ok queue -> msg_ok m -> Forall msg_ok (queue ++ [m]).
Proof. intros. by apply Forall_app_2; [|constructor]. Qed.

Lemma push_report_ok queue h r ep : Forall msg_ok queue -> Forall msg_ok (push_tla_report queue h r ep).
Proof. intros. by apply push_ok. Qed.
Lemma push_cancel_ok queue h : Forall msg_ok queue -> Forall msg_ok (push_tma_cancel queue h).
Proof. intros. by apply push_ok. Qed.
Lemma push_tma_ok queue r : Forall msg_ok queue -> Forall msg_ok (queue ++ [TmaUnitdataReqMsg r]).
Proof. intros. by apply push_ok. Qed.

Create HintDb llc_up.
#[local] Hint Resolve push_report_ok push_cancel_ok push_tma_ok : llc_up.

(** The cases of a handler, and the leaves by the lemmas of what it calls. *)
Ltac crack := repeat (progress simplify_option_eq || case_match || simplify_eq/=).
Ltac leaf := repeat match goal with H : up _ _ |- _ => destruct H end; try constructor; cbn in *; try done; eauto with llc_up.

Lemma take_first_negative p acks ack rest :
  take_first p acks = Some (ack, rest) -> acks_negative acks -> acks_negative rest.
Proof.
  intros (l1 & l2 & -> & -> & _)%take_first_Some H. apply Forall_app in H as [H1 [_ H2]%Forall_cons]. by apply Forall_app.
Qed.
#[local] Hint Resolve take_first_negative : llc_up.

Lemma standalone_ok queue ack queue' :
  push_standalone_bl_ack queue ack = Some queue' -> Forall msg_ok queue -> Forall msg_ok queue'.
Proof. unfold push_standalone_bl_ack. intros. crack. leaf. Qed.
#[local] Hint Resolve standalone_ok : llc_up.

Lemma submit_ok queue a ts heap queue' a' heap' :
  submit_for_acknowledged_transmission queue a ts heap = (queue', a', heap') -> Forall msg_ok queue -> Forall msg_ok queue'.
Proof. unfold submit_for_acknowledged_transmission. intros. crack. leaf. Qed.
#[local] Hint Resolve submit_ok : llc_up.

Section up.
Variable main_carrier : Z.

Lemma fold_ok queue acks a queue' acks' a' :
  fold_waiting_ack_into_mac_ready_bl_data main_carrier queue acks a = Some (queue', acks', a') ->
  Forall msg_ok queue -> acks_negative acks -> Forall msg_ok queue' /\ acks_negative acks'.
Proof. unfold fold_waiting_ack_into_mac_ready_bl_data. intros. crack; split; leaf. Qed.

Lemma first_complete_ok queue a heap a' queue' heap' :
  report_first_complete queue a heap = (a', queue', heap') -> Forall msg_ok queue -> Forall msg_ok queue'.
Proof. unfold report_first_complete. intros. crack; leaf. Qed.
Lemma reconcile_ok queue a ts heap b queue' a' heap' :
  reconcile_umac_done_from_reporter queue a ts heap = (b, queue', a', heap') -> Forall msg_ok queue -> Forall msg_ok queue'.
Proof. unfold reconcile_umac_done_from_reporter. intros. crack; leaf. Qed.
#[local] Hint Resolve first_complete_ok reconcile_ok : llc_up.

Lemma incoming_ack_up self queue addr ep nr heap r self' queue' heap' :
  process_incoming_ack self queue addr ep nr heap = Some (r, self', queue', heap') -> up self queue -> up self' queue'.
Proof. unfold process_incoming_ack. intros. crack; leaf. Qed.

Lemma data_req_up self queue prim heap self' queue' heap' :
  rx_tla_tldata_req_bl self queue prim heap = Some (self', queue', heap') -> up self queue -> up self' queue'.
Proof. unfold rx_tla_tldata_req_bl, get_next_send_seq. intros. crack; leaf. Qed.

Lemma data_resp_up self queue prim heap self' queue' heap' :
  rx_tla_tldata_resp_bl self queue prim heap = Some (self', queue', heap') -> up self queue -> up self' queue'.
Proof.
  unfold rx_tla_tldata_resp_bl, take_scheduled_out_ack_for_response. intros. crack; try by eapply data_req_up.
  all: leaf.
Qed.

Lemma ensure_ok fuel queue messages prio limit : forall heap b queue' messages' heap',
  ensure_udata_backlog_capacity_loop fuel queue messages prio limit heap = (b, queue', messages', heap') ->
  Forall msg_ok queue -> Forall msg_ok queue'.
Proof.
  revert queue messages. induction fuel as [|fuel IH]; intros queue messages heap b queue' messages' heap' E H; cbn in E; crack; try done.
  eapply IH; [done|]. leaf.
Qed.
#[local] Hint Resolve ensure_ok : llc_up.

Lemma unitdata_req_up self queue prim heap self' queue' heap' :
  rx_tla_tlunitdata_req_bl self queue prim heap = Some (self', queue', heap') -> up self queue -> up self' queue'.
Proof. unfold rx_tla_tlunitdata_req_bl, ensure_udata_backlog_capacity, reject_tl_unitdata_backlog_full. intros. crack; leaf. Qed.

Lemma udata_report_up self queue report idx heap self' queue' heap' :
  handle_udata_tma_report_at_index self queue report idx heap = Some (self', queue', heap') -> up self queue -> up self' queue'.
Proof. unfold handle_udata_tma_report_at_index. intros. crack; leaf. Qed.

Lemma tma_report_up self queue h report heap self' queue' heap' :
  rx_tma_report_ind main_carrier self queue h report heap = Some (self', queue', heap') -> up self queue -> up self' queue'.
Proof.
  unfold rx_tma_report_ind, handle_udata_tma_report. intros. crack; try by eapply udata_report_up.
  all: try (match goal with H : fold_waiting_ack_into_mac_ready_bl_data _ _ _ _ = Some _, U : up _ _ |- _ =>
         destruct (fold_ok _ _ _ _ _ _ H (up_msgs _ _ U) (up_acks _ _ U)) end).
  all: leaf.
Qed.

(** ** Received PDUs *)

Lemma from_here_ok pdu b : wf pdu -> from_here pdu = Some b -> wf b /\ pos b = start b.
Proof. intros W E. destruct (from_here_holds pdu W) as (b' & E' & Hb & _). rewrite E' in E. injection E as <-. split; apply Hb. Qed.

Lemma conf_ok queue a tl_sdu prim fcs enc :
  Forall msg_ok queue -> (forall b, tl_sdu = Some b -> wf b /\ pos b = start b) ->
  Forall msg_ok (push_tl_data_conf queue a tl_sdu prim fcs enc).
Proof. intros H Hs. apply push_ok; [done|]. by split. Qed.

Lemma deliver_up self queue prim ty pdu has_fcs fcs_ok ind mack self' queue' :
  wf pdu -> (forall h dup, ind = Some (h, dup) -> (h < 0)%Z) ->
  deliver_bl self queue prim ty pdu has_fcs fcs_ok ind mack = Some (self', queue') -> up self queue -> up self' queue'.
Proof.
  intros W Hi E [U1 U2 U3]. destruct (from_here_holds pdu W) as (b & Eb & Hb & _).
  assert (Hsdu : forall x, Some b = Some x -> wf x /\ pos x = start x) by (intros x [= <-]; split; apply Hb).
  assert (Hopt : forall c x, (if c : bool then Some b else None) = Some x -> wf x /\ pos x = start x) by (intros [] x Ex; [by apply Hsdu|done]).
  unfold deliver_bl, take_tl_data_ind_req_handle in E. rewrite Eb in E. cbn [mbind option_bind] in E.
  destruct (is_bl_ack_type ty).
  - destruct mack as [a|]; destruct (fcs_ok && _) in E; cbn [mbind option_bind] in E; injection E as <- <-; constructor; cbn; try done.
    + by apply conf_ok.
    + by apply conf_ok.
    + destruct (Z.eqb_spec (next_tl_data_ind_req_handle self) (-2147483648)); lia.
    + apply push_ok; [done|]. split; [lia|done].
  - set (q := match mack with Some a => _ | None => queue end) in E.
    assert (Uq : Forall msg_ok q).
    { unfold q. destruct mack; [|done]. destruct (is_bl_adata_type ty); [by apply conf_ok|done]. }
    clearbody q. assert (E' : (if negb fcs_ok then Some (self, q) else
        if match ind with Some (_, d) => d | None => false end then Some (self, q) else
        if is_bl_udata_type ty then Some (self, q ++ [TlaTlUnitdataIndBl (ind_of prim (if 0 <? get_len_remaining b then Some b else None) has_fcs)])
        else '(handle, _) ← ind; Some (self, q ++ [TlaTlDataIndBl (ind_of prim (if 0 <? get_len_remaining b then Some b else None) has_fcs) handle]))
        = Some (self', queue')) by (by destruct mack). clear E.
    destruct (negb fcs_ok); [by injection E' as <- <-|]. destruct (match ind with Some _ => _ | None => _ end); [by injection E' as <- <-|].
    destruct (is_bl_udata_type ty); [|destruct ind as [[h d]|]; [|done]; cbn [mbind option_bind] in E'];
      injection E' as <- <-; constructor; try done; (apply push_ok; [done|]).
    + exact (Hopt _).
    + split; [by eapply Hi|exact (Hopt _)].
Qed.

Lemma upsert_negative ack acks : (so_ind_req_handle ack < 0)%Z -> acks_negative acks -> acks_negative (upsert_ack ack acks).
Proof.
  intros Ha. induction acks as [|k acks IH]; cbn; intros H; [by constructor|].
  apply Forall_cons in H as [Hk H]. destruct (_ && _); constructor; try done. by apply IH.
Qed.

Lemma receive_up self queue prim ns h dup self' :
  receive_ns self prim ns = (h, dup, self') -> up self queue -> up self' queue /\ (h < 0)%Z.
Proof.
  intros E [U1 U2 U3]. unfold receive_ns, take_tl_data_ind_req_handle, scheduled_out_ack_handle_for_key in E.
  set (self1 := prune_expired_inbound_receive_seq _ _) in E.
  assert (En : next_tl_data_ind_req_handle self1 = next_tl_data_ind_req_handle self) by done.
  assert (Ea : scheduled_out_acks self1 = scheduled_out_acks self) by done. clearbody self1.
  assert (Hn : (-2147483648 <= (if next_tl_data_ind_req_handle self1 =? -2147483648 then -1 else next_tl_data_ind_req_handle self1 - 1) < 0)%Z).
  { rewrite En. destruct (Z.eqb_spec (next_tl_data_ind_req_handle self) (-2147483648)); lia. }
  assert (Hf : forall p h, so_ind_req_handle <$> List.find p (scheduled_out_acks self1) = Some h -> (h < 0)%Z).
  { intros p h0 F. destruct (List.find p _) as [k|] eqn:Ek; [|done]. injection F as <-. apply List.find_some in Ek as [Hk _].
    rewrite Ea in Hk. apply list_elem_of_In in Hk. by eapply Forall_forall in U2. }
  rewrite <- Ea in U2. rewrite <- En in U1.
  destruct (inbound_receive_seq self1 !! _) as [rs|]; [destruct (last_ns rs =? ns)%Z|].
  1: match type of E with context [so_ind_req_handle <$> List.find ?p ?l] =>
       destruct (so_ind_req_handle <$> List.find p l) eqn:Ef; [apply Hf in Ef|] end.
  all: injection E as <- <- <-; split; [|lia]; constructor; cbn; try done; by apply upsert_negative; [cbn; lia|].
Qed.

Lemma cancel_scheduled_up self queue addr ep : up self queue -> up (cancel_scheduled_out_ack_for_new_bl_data self addr ep) queue.
Proof.
  intros [U1 U2 U3]. unfold cancel_scheduled_out_ack_for_new_bl_data. destruct (take_first _ _) as [[k rest]|] eqn:E; [|done].
  constructor; [done| |done]. by eapply take_first_negative.
Qed.

Lemma received_up self queue prim heap self' queue' heap' :
  (forall pdu, ti_pdu prim = Some pdu -> pdu_ok pdu) ->
  rx_tma_unitdata_ind self queue prim heap = Some (self', queue', heap') -> up self queue -> up self' queue'.
Proof.
  intros Hp E U. unfold rx_tma_unitdata_ind in E. destruct (ti_pdu prim) as [pdu|]; [|by injection E as <- <- <-].
  destruct (Hp pdu eq_refl) as (W & P & _). destruct (peek_pdu_type pdu) as [ty|] eqn:Ety; [|done]. cbn [mbind option_bind] in E.
  assert (E' : rx_tma_unitdata_ind_bl self queue prim pdu heap = Some (self', queue', heap') \/ Some (self, queue, heap) = Some (self', queue', heap')).
  { destruct ty as [[]|]; auto; done. }
  clear E. destruct E' as [E|E]; [|by injection E as <- <- <-].
  unfold rx_tma_unitdata_ind_bl in E. rewrite Ety in E. cbn [mbind option_bind] in E. destruct ty as [ty|]; [|by injection E as <- <- <-].
  destruct (parse_bl_header_total ty pdu W) as (hd & Eh & Hh). rewrite Eh in E. cbn [mbind option_bind] in E.
  destruct hd as [[[[has_fcs ns] nr] pdu1]|]; [|by injection E as <- <- <-]. destruct (Hh _ eq_refl) as (W1 & _). clear Hh Eh.
  apply option.bind_Some in E as (fcs_ok & Ef & E).
  set (self1 := if bool_decide (is_Some ns) && negb fcs_ok then _ else self) in E.
  assert (U1 : up self1 queue) by (unfold self1; destruct (_ && _); [by apply cancel_scheduled_up|done]). clearbody self1.
  destruct (has_fcs && negb fcs_ok && _); [by injection E as <- <- <-|].
  apply option.bind_Some in E as (pdu2 & E2 & E).
  assert (W2 : wf pdu2).
  { destruct has_fcs; cbn in Ef, E2; [|by injection E2 as <-]. destruct fcs_ok; [|by injection E2 as <-].
    destruct (check_fcs_total pdu1 W1) as (x & Ex & Hx). rewrite Ex in Ef. injection Ef as ->.
    destruct (strip_total pdu1 W1 (Hx eq_refl)) as (p & Es & Hw). congruence. }
  match type of E with (let '(_, _) := ?m in _) = _ => destruct m as [ind self2] eqn:Ei end.
  assert (up self2 queue /\ forall h dup, ind = Some (h, dup) -> (h < 0)%Z) as [U2 Hi].
  { destruct ns as [ns|]; [|by injection Ei as <- <-]. destruct fcs_ok; [|by injection Ei as <- <-].
    destruct (receive_ns self1 prim ns) as [[h dup] self3] eqn:Er. injection Ei as <- <-.
    destruct (receive_up _ _ _ _ _ _ _ Er U1) as [U2 Hh]. split; [done|]. by intros ? ? [= <- <-]. }
  apply option.bind_Some in E as ([[[mack self3] queue3] heap3] & E3 & E).
  assert (U3 : up self3 queue3) by (destruct nr; [by eapply incoming_ack_up|by injection E3 as <- <- <- <-]).
  apply option.bind_Some in E as ([self4 queue4] & E4 & E). injection E as <- <- <-. by eapply deliver_up.
Qed.

(** ** The end of a timeslot *)

Lemma retransmit_one_ok ts queue acks a heap act queue' acks' a' heap' gone :
  retransmit_one main_carrier ts queue acks a heap = Some (act, queue', acks', a', heap', gone) ->
  Forall msg_ok queue -> acks_negative acks -> Forall msg_ok queue' /\ acks_negative acks'.
Proof.
  unfold retransmit_one. intros E H1 H2. destruct (reconcile_umac_done_from_reporter _ _ _ _) as [[[b q] a1] h1] eqn:Er.
  pose proof (reconcile_ok _ _ _ _ _ _ _ _ Er H1) as Hq. crack; try done.
  destruct (fold_ok _ _ _ _ _ _ ltac:(eassumption) Hq H2). split; [|done]. leaf.
Qed.

Lemma retransmit_pass_ok ts outbound : forall queue acks heap act queue' acks' outbound' heap' gone,
  retransmit_pass main_carrier ts queue acks outbound heap = Some (act, queue', acks', outbound', heap', gone) ->
  Forall msg_ok queue -> acks_negative acks -> Forall msg_ok queue' /\ acks_negative acks'.
Proof.
  induction outbound as [|a outbound IH]; intros queue acks heap act queue' acks' outbound' heap' gone E H1 H2; cbn in E; crack; [done|].
  destruct (retransmit_one_ok _ _ _ _ _ _ _ _ _ _ _ ltac:(eassumption) H1 H2). by eapply IH.
Qed.

Lemma remove_exhausted_ok removals : forall queue outbound heap queue' outbound' heap',
  remove_exhausted queue outbound heap removals = Some (queue', outbound', heap') -> Forall msg_ok queue -> Forall msg_ok queue'.
Proof.
  induction removals as [|key removals IH]; intros queue outbound heap queue' outbound' heap' E H; cbn in E; crack; try done.
  - eapply IH; [eassumption|]. leaf.
  - by eapply IH.
Qed.

Lemma for_indices_ok {A} (f : list LlcMsg -> A -> store -> list LlcMsg * A * store) idxs :
  (forall queue x heap queue' x' heap', f queue x heap = (queue', x', heap') -> Forall msg_ok queue -> Forall msg_ok queue') ->
  forall queue l heap queue' l' heap',
  for_indices f idxs queue l heap = Some (queue', l', heap') -> Forall msg_ok queue -> Forall msg_ok queue'.
Proof.
  intros Hf. unfold for_indices. induction idxs as [|i idxs IH]; intros queue l heap queue' l' heap' E H; cbn in E; [by injection E as <- <- <-|].
  apply option.bind_Some in E as ([[q1 l1] h1] & E1 & E). apply option.bind_Some in E1 as (x & _ & E1).
  destruct (f queue x heap) as [[q2 x2] h2] eqn:Ef. injection E1 as <- <- <-. eapply IH; [exact E|]. by eapply Hf.
Qed.

Lemma submit_free_up fuel : forall act self blocked queue heap act' self' queue' heap',
  submit_free_loop main_carrier fuel act self blocked queue heap = Some (act', self', queue', heap') -> up self queue -> up self' queue'.
Proof.
  induction fuel as [|fuel IH]; intros act self blocked queue heap act' self' queue' heap' E [U1 U2 U3]; cbn in E; crack; try done.
  destruct (fold_ok _ _ _ _ _ _ ltac:(eassumption) U3 U2). eapply IH; [eassumption|]. constructor; cbn; try done. leaf.
Qed.

Lemma ack_replies_ok acks : forall queue queue',
  foldM push_standalone_bl_ack acks queue = Some queue' -> Forall msg_ok queue -> Forall msg_ok queue'.
Proof.
  induction acks as [|k acks IH]; intros queue queue' E H; cbn in E; [by injection E as <-|].
  apply option.bind_Some in E as (q & E1 & E). eapply IH; [exact E|]. leaf.
Qed.

Lemma submit_udata_ok fuel : forall act messages queue heap act' messages' queue' heap',
  submit_udata_loop fuel act messages queue heap = Some (act', messages', queue', heap') -> Forall msg_ok queue -> Forall msg_ok queue'.
Proof.
  induction fuel as [|fuel IH]; intros act messages queue heap act' messages' queue' heap' E H; cbn in E; crack; try done.
  eapply IH; [eassumption|]. leaf.
Qed.

Lemma tick_end_up self queue heap act self' queue' heap' :
  tick_end main_carrier self queue heap = Some (act, self', queue', heap') -> up self queue -> up self' queue'.
Proof.
  unfold tick_end. intros ([[[act1 s1] q1] h1] & E1 & ([[[act2 s2] q2] h2] & E2 & ([[act3 s3] q3] & E3 &
    ([[[act4 s4] q4] h4] & E4 & E)%option.bind_Some)%option.bind_Some)%option.bind_Some)%option.bind_Some U. injection E as <- <- <- <-.
  assert (U1 : up s1 q1).
  { apply option.bind_Some in E1 as ([[[[[a1 qq] acks] outb] hh] rem] & E0 & E1). apply option.bind_Some in E1 as ([[q0 o0] h0] & Er & E1).
    injection E1 as <- <- <- <-. destruct U as [V1 V2 V3]. destruct (retransmit_pass_ok _ _ _ _ _ _ _ _ _ _ _ E0 V3 V2) as [W1 W2].
    constructor; [done|done|]. by eapply remove_exhausted_ok. }
  assert (U2 : up s2 q2).
  { apply option.bind_Some in E2 as ([[[a2 s0] q0] h0] & E0 & E2). eapply submit_free_up; [exact E2|].
    apply option.bind_Some in E0 as ([[qa oa] ha] & Ea & E0). apply option.bind_Some in E0 as ([[qb ob] hb] & Eb & E0). injection E0 as <- <- <- <-.
    destruct U1 as [V1 V2 V3]. constructor; [done|done|]. eapply for_indices_ok; [|exact Eb|eapply for_indices_ok; [|exact Ea|exact V3]];
      unfold cancel_udata, cancel_ack; intros; crack; leaf. }
  assert (U3 : up s3 q3).
  { apply option.bind_Some in E3 as (q0 & E0 & E3). injection E3 as <- <- <-. destruct U2. constructor; [done|constructor|].
    by eapply ack_replies_ok. }
  apply option.bind_Some in E4 as ([[[a4 m4] q0] h0] & E0 & E4). injection E4 as <- <- <- <-. destruct U3. constructor; [done|done|].
  by eapply submit_udata_ok.
Qed.

(** ** Any event *)

Lemma up_initial : up Llc_new [].
Proof. constructor; cbn; [lia|constructor|constructor]. Qed.

Lemma run_event_up self queue heap e self' queue' heap' :
  event_ok (self, queue, heap) e -> run_event main_carrier (self, queue, heap) e = Some (self', queue', heap') ->
  up self queue -> up self' queue'.
Proof.
  intros He E U. destruct e as [message|ts| |c s]; cbn [run_event] in E.
  - destruct message; cbn [rx_prim] in E.
    + by eapply data_req_up.
    + by eapply data_resp_up.
    + by eapply unitdata_req_up.
    + by eapply tma_report_up.
    + by eapply received_up.
  - injection E as <- <- <-. by destruct U.
  - apply option.bind_Some in E as ([[[act s1] q1] h1] & E1 & E). injection E as <- <- <-. by eapply tick_end_up.
  - by injection E as <- <- <-.
Qed.

(** Only the messages added matter. *)
Lemma up_drop self queue msgs : up self (queue ++ msgs) -> up self msgs.
Proof. intros [U1 U2 [_ U3]%Forall_app]. by constructor. Qed.
End up.
