(* ===== verification/Mle.v ===== *)
(** * The MLE of the base station (crates/tetra-entities/src/mle)

    mle_bs.rs with components/broadcast.rs: routing of received TL-SDUs to MM, CMCE and SNDCP
    by the protocol discriminator in their first three bits, forwarding of their requests to the
    LLC, and the table of transfers under way by which reports of the LLC find their way back.

    The entity is a record; a handler returns the entity and the messages it pushed, [None] is a
    panic.  Messages are typed by their constructor, which fixes SAP, source and destination.
    What the configuration and the clock supply are arguments; [encode_tetra_network_time] asks
    the chrono library and is represented by its result.  The wrap of the handle counter is that
    of the release profile, which has no overflow checks. *)

From Stdlib Require Import ZArith Lia ZifyNat.
From stdpp Require Import gmap strings.
From S2P Require Import Prelude.
From S2P Require Import BitBuffer.
From S2P Require Import BitBufferFacts.
From S2P Require Import Codec.
From S2P Require Import Tdma.
From S2P Require Import MacFields.
From S2P Require Import TxReceipt.
From S2P Require Import Frag.
From S2P Require Import Typed.
From S2P Require Import MlePdus.
From S2P Require Import Llc.

(** ** Primitives *)

Inductive Layer2Service := L2Todo | L2Acknowledged | L2AcknowledgedResponse | L2Unacknowledged.

(** [encryption_flag] and [is_null_pdu] are never read by the MLE. *)
Record LmmMleUnitdataReq := mkLmmReq {
  lm_sdu : BitBuffer;
  lm_handle : Z;
  lm_address : TetraAddress;
  lm_layer2service : Layer2Service;
  lm_stealing_permission : bool;
  lm_stealing_repeats_flag : bool;
  lm_tx_reporter : option TxReporter
}.

Record LcmcMleUnitdataReq := mkLcmcReq {
  lc_sdu : BitBuffer;
  lc_handle : Z;
  lc_endpoint_id : Z;
  lc_link_id : Z;
  lc_layer2service : Layer2Service;
  lc_pdu_prio : Z;
  lc_layer2_qos : Z;
  lc_stealing_permission : bool;
  lc_stealing_repeats_flag : bool;
  lc_unacked_bl_repetitions : option Z;
  lc_main_address : TetraAddress;
  lc_chan_alloc : option CmceChanAllocReq;
  lc_tx_reporter : option TxReporter
}.

(** Of the fields the MLE does not read, none is kept. *)
Record LtpdMleUnitdataReq := mkLtpdReq {
  lt_sdu : BitBuffer;
  lt_handle : Z;
  lt_address : TetraAddress;
  lt_layer2service : Layer2Service;
  lt_unacked_bl_repetitions : Z;
  lt_pdu_prio : Z;
  lt_endpoint_id : Z;
  lt_link_id : Z;
  lt_stealing_permission : bool;
  lt_stealing_repeats_flag : bool;
  lt_data_class_info : Z;
  lt_fcs_flag : bool;
  lt_chan_alloc : option CmceChanAllocReq
}.

Record LcmcMleUnitdataInd := mkLcmcInd {
  ci_sdu : BitBuffer;
  ci_handle : Z;
  ci_endpoint_id : Z;
  ci_link_id : Z;
  ci_received_tetra_address : TetraAddress;
  ci_chan_change_resp_req : bool;
  ci_chan_change_handle : option Z
}.

Inductive MleMsg :=
  | ToLlc (prim : LlcPrim)
  | LmmMleUnitdataIndMsg (sdu : BitBuffer) (handle : Z) (received_address : TetraAddress)
  | LcmcMleUnitdataIndMsg (prim : LcmcMleUnitdataInd)
  | LtpdMleUnitdataIndMsg (sdu : BitBuffer) (endpoint_id link_id : Z) (received_tetra_address : TetraAddress)
  | LmmMleReportInd (handle transfer_result : Z)
  | LcmcMleReportInd (handle transfer_result : Z) (channel_change_response_required : bool) (channel_change_handle : Z)
  | LtpdMleReportInd (handle transfer_result : Z).

(** What the LLC and the layer 3 entities send to the MLE. *)
Inductive MlePrim :=
  | TlDataInd (ind : TlIndication) (req_handle : Z)
  | TlDataConf (ind : TlIndication) (req_handle report : Z)
  | TlReport (req_handle : option Z) (report : Z) (chan_change_resp_req : option bool) (chan_change_handle : option Z)
  | TlUnitdataInd (ind : TlIndication)
  | LmmReq (prim : LmmMleUnitdataReq)
  | LcmcReq (prim : LcmcMleUnitdataReq)
  | LtpdReq (prim : LtpdMleUnitdataReq).

(** ** State *)

Inductive MleSapUser := UserMm | UserCmce | UserSndcp | UserBroadcast.
#[export] Instance MleSapUser_eq_dec : EqDecision MleSapUser.
Proof. solve_decision. Defined.
Record PendingMleTransfer := mkPending { pt_user : MleSapUser; pt_upper_handle : Z }.
#[export] Instance PendingMleTransfer_eq_dec : EqDecision PendingMleTransfer.
Proof. solve_decision. Defined.

Inductive BroadcastType := BroadcastNone | BroadcastNetworkTime.

Record MleBs := mkMle {
  next_tla_handle : Z;
  pending_data_transfers : gmap Z PendingMleTransfer;
  last_broadcast_type : BroadcastType
}.
Definition MleBs_new : MleBs := mkMle 1 ∅ BroadcastNone.

Record MleConfig := mkMleConfig {
  cfg_subscriber_class : Z;
  cfg_sndcp_service : bool;
  cfg_timezone : bool;   (* a timezone is configured *)
  cfg_neighbor_cells_ca : list NeighbourCellInformationForCa
}.

Definition with_handle (self : MleBs) n := mkMle n (pending_data_transfers self) (last_broadcast_type self).
Definition with_pending (self : MleBs) m := mkMle (next_tla_handle self) m (last_broadcast_type self).
Definition with_broadcast (self : MleBs) b := mkMle (next_tla_handle self) (pending_data_transfers self) b.

(** ** Handles *)

(** The loop of [allocate_tla_handle]; [None]: out of fuel.  The counter is an [i32] and wraps
    around, as it does in the release profile. *)
Fixpoint allocate_loop (fuel : nat) (self : MleBs) : option (Z * MleBs) :=
  match fuel with
  | O => None
  | S fuel =>
      let handle := next_tla_handle self in
      let next := i32 (handle + 1) in
      let self := with_handle self (if (next <=? 0)%Z then 1%Z else next) in
      if (0 <? handle)%Z && bool_decide (pending_data_transfers self !! handle = None) then Some (handle, self)
      else allocate_loop fuel self
  end.
Definition allocate_tla_handle (self : MleBs) : option (Z * MleBs) :=
  allocate_loop (S (size (pending_data_transfers self))) self.

Definition track_tla_data_request (self : MleBs) (user : MleSapUser) (upper_handle : Z) : option (Z * MleBs) :=
  '(handle, self) ← allocate_tla_handle self;
  Some (handle, with_pending self (<[handle := mkPending user upper_handle]> (pending_data_transfers self))).

Definition todo_to_mle_handle (handle : Z) : Z := if (0 <=? handle)%Z then handle else 0.
Definition mle_handle_to_todo (handle : Z) : Z := if (handle <=? 2147483647)%Z then handle else 2147483647.

(** ** Reports *)

Definition push_mle_report (pending : PendingMleTransfer) (transfer_result : Z)
  (channel_change_response_required : bool) (channel_change_handle : Z) : list MleMsg :=
  match pt_user pending with
  | UserMm => [LmmMleReportInd (pt_upper_handle pending) transfer_result]
  | UserCmce => [LcmcMleReportInd (i32 (pt_upper_handle pending)) transfer_result channel_change_response_required channel_change_handle]
  | UserSndcp => [LtpdMleReportInd (i32 (pt_upper_handle pending)) transfer_result]
  | UserBroadcast => []
  end.

Definition rx_tla_report_ind (self : MleBs) (req_handle : option Z) (report : Z) (chan_change_resp_req : option bool)
  (chan_change_handle : option Z) : MleBs * list MleMsg :=
  match req_handle with
  | None => (self, [])
  | Some req_handle =>
      if (report =? TLA_REPORT_NO_SPECIFIC_REPORT)%Z then (self, [])
      else if (report =? TLA_REPORT_FIRST_COMPLETE_TRANSMISSION)%Z then
        match pending_data_transfers self !! req_handle with
        | None => (self, [])
        | Some pending =>
            match pt_user pending with
            | UserSndcp => (self, push_mle_report pending report (default false chan_change_resp_req) (default 0%Z chan_change_handle))
            | _ => (self, [])
            end
        end
      else if (report =? TLA_REPORT_FAILED_TRANSFER)%Z || (report =? TLA_REPORT_SUCCESSFUL_TRANSFER)%Z then
        match pending_data_transfers self !! req_handle with
        | None => (self, [])
        | Some pending =>
            (with_pending self (delete req_handle (pending_data_transfers self)),
             push_mle_report pending report (default false chan_change_resp_req) (default 0%Z chan_change_handle))
        end
      else (self, [])
  end.

(** ** Received TL-SDUs *)

Inductive MleProtocolDiscriminator := PdMm | PdCmce | PdSndcp | PdMle | PdManagement.
Definition discriminator_into_raw (d : MleProtocolDiscriminator) : Z :=
  match d with PdMm => 1 | PdCmce => 2 | PdSndcp => 4 | PdMle => 5 | PdManagement => 6 end.
Definition discriminator_try_from (x : Z) : option MleProtocolDiscriminator :=
  match x with
  | 1 => Some PdMm | 2 => Some PdCmce | 4 => Some PdSndcp | 5 => Some PdMle | 6 => Some PdManagement | _ => None
  end%Z.

(** The messages pushed; the entity does not change. *)
Definition route_prefixed_tl_sdu (sdu : BitBuffer) (main_address : TetraAddress) (endpoint_id link_id handle : Z)
  : option (list MleMsg) :=
  sdu ← (if negb (get_pos sdu =? 0) then snd <$> run (seek 0) sdu else Some sdu);
  '(bits, sdu) ← run (read_bits 3) sdu;
  match bits ≫= discriminator_try_from with
  | None => Some []
  | Some PdMm => Some [LmmMleUnitdataIndMsg sdu handle main_address]
  | Some PdCmce => Some [LcmcMleUnitdataIndMsg (mkLcmcInd sdu handle endpoint_id link_id main_address false None)]
  | Some PdSndcp => Some [LtpdMleUnitdataIndMsg sdu endpoint_id link_id main_address]
  | Some PdMle | Some PdManagement => Some []
  end.

Definition rx_tla_data_conf_bl (self : MleBs) (ind : TlIndication) (req_handle report : Z) : option (MleBs * list MleMsg) :=
  let pending := pending_data_transfers self !! req_handle in
  let self := with_pending self (delete req_handle (pending_data_transfers self)) in
  let reports :=
    match pending with
    | Some pending => push_mle_report pending report (in_chan_change_resp_req ind) (default 0%Z (in_chan_change_handle ind))
    | None => []
    end in
  match in_tl_sdu ind with
  | None => Some (self, reports)
  | Some sdu =>
      let handle := match pending with Some pending => pt_upper_handle pending | None => todo_to_mle_handle req_handle end in
      msgs ← route_prefixed_tl_sdu sdu (in_main_address ind) (in_endpoint_id ind) (in_link_id ind) handle;
      Some (self, reports ++ msgs)
  end.

Definition rx_tla_data_ind_bl (self : MleBs) (ind : TlIndication) (req_handle : Z) : option (MleBs * list MleMsg) :=
  match in_tl_sdu ind with
  | None => Some (self, [])
  | Some sdu =>
      msgs ← route_prefixed_tl_sdu sdu (in_main_address ind) (in_endpoint_id ind) (in_link_id ind) (todo_to_mle_handle req_handle);
      Some (self, msgs)
  end.

Definition rx_tla_unitdata_ind_bl (self : MleBs) (ind : TlIndication) : option (MleBs * list MleMsg) :=
  match in_tl_sdu ind with
  | None => Some (self, [])
  | Some sdu =>
      msgs ← route_prefixed_tl_sdu sdu (in_main_address ind) (in_endpoint_id ind) (in_link_id ind) 0;
      Some (self, msgs)
  end.

(** ** Requests of layer 3 *)

(** The TL-SDU: the discriminator and the SDU. *)
Definition prefixed (discriminator : MleProtocolDiscriminator) (sdu : BitBuffer) : option BitBuffer :=
  let sdu_len := get_len sdu in
  '(_, pdu) ← run (write_bits (discriminator_into_raw discriminator) 3) (new (3 + sdu_len));
  '(pdu, _) ← copy sdu_len pdu sdu;
  '(_, pdu) ← run (seek 0) pdu;
  Some pdu.

Definition rx_lmm_mle_unitdata_req (cfg : MleConfig) (self : MleBs) (prim : LmmMleUnitdataReq) : option (MleBs * list MleMsg) :=
  match lm_layer2service prim with
  | L2Todo => Some (self, [])
  | service =>
      pdu ← prefixed PdMm (lm_sdu prim);
      let req_handle := mle_handle_to_todo (lm_handle prim) in
      match service with
      | L2Unacknowledged =>
          Some (self, [ToLlc (PrimUnitdataReq (mkTlUnitdataReq (lm_address prim) 0 0 pdu 0 (lm_stealing_permission prim)
            (cfg_subscriber_class cfg) false None (Some (lm_stealing_repeats_flag prim)) None None req_handle None
            (lm_tx_reporter prim)))])
      | L2AcknowledgedResponse =>
          Some (self, [ToLlc (PrimDataResp (mkTlDataResp (lm_address prim) 0 0 pdu 0 (lm_stealing_permission prim)
            (cfg_subscriber_class cfg) false 0 (Some (lm_stealing_repeats_flag prim)) None req_handle))])
      | _ =>
          '(tla_handle, self) ← track_tla_data_request self UserMm (lm_handle prim);
          Some (self, [ToLlc (PrimDataReq (mkTlDataReq (lm_address prim) 0 0 pdu 0 (lm_stealing_permission prim)
            (cfg_subscriber_class cfg) false None (Some (lm_stealing_repeats_flag prim)) None tla_handle None
            (lm_tx_reporter prim)))])
      end
  end.

Definition rx_lcmc_mle_unitdata_req (cfg : MleConfig) (self : MleBs) (prim : LcmcMleUnitdataReq) : option (MleBs * list MleMsg) :=
  match lc_layer2service prim with
  | L2Todo => Some (self, [])
  | service =>
      pdu ← prefixed PdCmce (lc_sdu prim);
      match service with
      | L2Unacknowledged =>
          '(tla_handle, self) ← track_tla_data_request self UserCmce (lc_handle prim);
          Some (self, [ToLlc (PrimUnitdataReq (mkTlUnitdataReq (lc_main_address prim) (lc_link_id prim) (lc_endpoint_id prim) pdu
            (lc_pdu_prio prim) (lc_stealing_permission prim) (cfg_subscriber_class cfg) false None
            (Some (lc_stealing_repeats_flag prim)) (lc_unacked_bl_repetitions prim) None tla_handle (lc_chan_alloc prim)
            (lc_tx_reporter prim)))])
      | L2AcknowledgedResponse =>
          Some (self, [ToLlc (PrimDataResp (mkTlDataResp (lc_main_address prim) (lc_link_id prim) (lc_endpoint_id prim) pdu
            (lc_pdu_prio prim) (lc_stealing_permission prim) (cfg_subscriber_class cfg) false 0
            (Some (lc_stealing_repeats_flag prim)) None (mle_handle_to_todo (lc_handle prim))))])
      | _ =>
          '(tla_handle, self) ← track_tla_data_request self UserCmce (lc_handle prim);
          Some (self, [ToLlc (PrimDataReq (mkTlDataReq (lc_main_address prim) (lc_link_id prim) (lc_endpoint_id prim) pdu
            (lc_pdu_prio prim) (lc_stealing_permission prim) (cfg_subscriber_class cfg) false None
            (Some (lc_stealing_repeats_flag prim)) None tla_handle (lc_chan_alloc prim) (lc_tx_reporter prim)))])
      end
  end.

Definition ltpd_todo_to_optional_u8 (value : Z) : option Z := if ((0 <=? value) && (value <=? 255))%Z then Some value else None.
Definition ltpd_todo_to_optional_todo (value : Z) : option Z := if (0 <=? value)%Z then Some value else None.

(** [normalize_pdch_timeslots_to_single] (sndcp/pdch.rs): the first assigned slot after slot 1,
    or slot 1 if that is the only one. *)
Definition normalize_pdch_timeslots_to_single (timeslots : list bool) : list bool :=
  let selected_idx :=
    match List.find (fun p => snd p && (0 <? fst p)) (imap pair timeslots) with
    | Some (idx, _) => Some idx
    | None => fst <$> List.find (fun p => snd p) (imap pair timeslots)
    end in
  match selected_idx with
  | Some idx => <[idx := true]> (replicate 4 false)
  | None => replicate 4 false
  end.
Definition normalize_sndcp_pdch_chan_alloc_to_single_slot (chan_alloc : option CmceChanAllocReq) : option CmceChanAllocReq :=
  (fun ca => mkCmceChanAlloc (ca_usage ca) (ca_carrier ca) (normalize_pdch_timeslots_to_single (ca_timeslots ca))
               (ca_alloc_type ca) (ca_ul_dl_assigned ca)) <$> chan_alloc.

Definition rx_ltpd_mle_unitdata_req (cfg : MleConfig) (self : MleBs) (prim : LtpdMleUnitdataReq) : option (MleBs * list MleMsg) :=
  match lt_layer2service prim with
  | L2Todo => Some (self, [])
  | service =>
      if negb (cfg_sndcp_service cfg) then Some (self, [])
      else
        pdu ← prefixed PdSndcp (lt_sdu prim);
        let chan_alloc := normalize_sndcp_pdch_chan_alloc_to_single_slot (lt_chan_alloc prim) in
        match service with
        | L2Unacknowledged =>
            '(tla_handle, self) ← track_tla_data_request self UserSndcp (todo_to_mle_handle (lt_handle prim));
            Some (self, [ToLlc (PrimUnitdataReq (mkTlUnitdataReq (lt_address prim) (lt_link_id prim) (lt_endpoint_id prim) pdu
              (lt_pdu_prio prim) (lt_stealing_permission prim) (cfg_subscriber_class cfg) (lt_fcs_flag prim) None
              (Some (lt_stealing_repeats_flag prim)) (ltpd_todo_to_optional_u8 (lt_unacked_bl_repetitions prim))
              (ltpd_todo_to_optional_todo (lt_data_class_info prim)) tla_handle chan_alloc None))])
        | L2AcknowledgedResponse =>
            Some (self, [ToLlc (PrimDataResp (mkTlDataResp (lt_address prim) (lt_link_id prim) (lt_endpoint_id prim) pdu
              (lt_pdu_prio prim) (lt_stealing_permission prim) (cfg_subscriber_class cfg) (lt_fcs_flag prim) 0
              (Some (lt_stealing_repeats_flag prim)) (ltpd_todo_to_optional_todo (lt_data_class_info prim)) (lt_handle prim)))])
        | _ =>
            '(tla_handle, self) ← track_tla_data_request self UserSndcp (todo_to_mle_handle (lt_handle prim));
            Some (self, [ToLlc (PrimDataReq (mkTlDataReq (lt_address prim) (lt_link_id prim) (lt_endpoint_id prim) pdu
              (lt_pdu_prio prim) (lt_stealing_permission prim) (cfg_subscriber_class cfg) (lt_fcs_flag prim) None
              (Some (lt_stealing_repeats_flag prim)) (ltpd_todo_to_optional_todo (lt_data_class_info prim)) tla_handle chan_alloc
              None))])
        end
  end.

(** [rx_prim] with the dispatch of [rx_tla_prim], [rx_lmm_prim], [rx_tlpd_prim] and [rx_lcmc_prim]. *)
Definition mle_rx_prim (cfg : MleConfig) (self : MleBs) (message : MlePrim) : option (MleBs * list MleMsg) :=
  match message with
  | TlDataInd ind req_handle => rx_tla_data_ind_bl self ind req_handle
  | TlDataConf ind req_handle report => rx_tla_data_conf_bl self ind req_handle report
  | TlReport req_handle report resp_req change_handle => Some (rx_tla_report_ind self req_handle report resp_req change_handle)
  | TlUnitdataInd ind => rx_tla_unitdata_ind_bl self ind
  | LmmReq prim => rx_lmm_mle_unitdata_req cfg self prim
  | LcmcReq prim => rx_lcmc_mle_unitdata_req cfg self prim
  | LtpdReq prim => rx_ltpd_mle_unitdata_req cfg self prim
  end.

(** ** Broadcast *)

Definition determine_next_broadcast_type (cfg : MleConfig) (self : MleBs) : BroadcastType :=
  match last_broadcast_type self with
  | BroadcastNone => if cfg_timezone cfg || negb (bool_decide (cfg_neighbor_cells_ca cfg = [])) then BroadcastNetworkTime else BroadcastNone
  | BroadcastNetworkTime => BroadcastNetworkTime
  end.

(** [cfg_to_bs_service_details]: a neighbour's packet data service is not advertised. *)
Definition cfg_to_bs_service_details (c : BsServiceDetails) : BsServiceDetails :=
  mkBsServiceDetails (bsd_registration c) (bsd_deregistration c) (bsd_priority_cell c) (bsd_no_minimum_mode c) (bsd_migration c)
    (bsd_system_wide_services c) (bsd_voice_service c) (bsd_circuit_mode_data_service c) false (bsd_aie_service c)
    (bsd_advanced_link c).
Definition cfg_to_neighbour (c : NeighbourCellInformationForCa) : NeighbourCellInformationForCa :=
  mkNeighbour (nc_cell_identifier_ca c) (nc_cell_reselection_types_supported c) (nc_neighbour_cell_synchronized c)
    (nc_cell_load_ca c) (nc_main_carrier_number c) (nc_main_carrier_number_extension c) (nc_mcc c) (nc_mnc c) (nc_location_area c)
    (nc_maximum_ms_transmit_power c) (nc_minimum_rx_access_level c) (nc_subscriber_class c)
    (cfg_to_bs_service_details <$> nc_bs_service_details c) (nc_timeshare_cell_information_or_security_parameters c)
    (nc_tdma_frame_offset c).

(** The TL-UNITDATA request with the serialized PDU; [Some None]: it could not be serialized. *)
Definition transmit_pdu (cfg : MleConfig) (pdu : DNwrkBroadcast) (req_handle : Z) : option (option MleMsg) :=
  match DNwrkBroadcast_to_bitbuf pdu (new_autoexpand 256) with
  | Panic => None
  | Err _ _ => Some None
  | Ok _ pdu_buf =>
      let pdu_len := get_pos pdu_buf in
      '(_, pdu_buf) ← run (seek 0) pdu_buf;
      '(_, tl_sdu) ← run (write_bits (discriminator_into_raw PdMle) 3) (new (3 + pdu_len));
      '(tl_sdu, _) ← copy pdu_len tl_sdu pdu_buf;
      '(_, tl_sdu) ← run (seek 0) tl_sdu;
      Some (Some (ToLlc (PrimUnitdataReq (mkTlUnitdataReq (mkAddr 0xffffff Gssi) 0 0 tl_sdu 0 false (cfg_subscriber_class cfg)
        false None None (Some 0%Z) None req_handle None None))))
  end.

(** [network_time]: what [encode_tetra_network_time] returns for the configured timezone. *)
Definition send_d_nwrk_broadcast (cfg : MleConfig) (network_time : option Z) (req_handle : Z) : option (option MleMsg) :=
  let time_value := if cfg_timezone cfg then network_time else None in
  match cfg_neighbor_cells_ca cfg, time_value with
  | [], None => Some None
  | [], Some time_value => transmit_pdu cfg (mkNwrkBroadcast 0 0 (Some time_value) (Some 0%Z) []) req_handle
  | cells, _ =>
      let neighbour_cells := cfg_to_neighbour <$> cells in
      transmit_pdu cfg
        (mkNwrkBroadcast 0 0 time_value (Some (u8 (Z.of_nat (length neighbour_cells)))) neighbour_cells) req_handle
  end.

Definition send_broadcast (cfg : MleConfig) (network_time : option Z) (self : MleBs) (req_handle : Z)
  : option (option MleMsg * MleBs) :=
  let broadcast_type := determine_next_broadcast_type cfg self in
  let self := with_broadcast self broadcast_type in
  match broadcast_type with
  | BroadcastNetworkTime => msg ← send_d_nwrk_broadcast cfg network_time req_handle; Some (msg, self)
  | BroadcastNone => Some (None, self)
  end.

Definition mle_tick_start (cfg : MleConfig) (network_time : option Z) (self : MleBs) (ts : TdmaTime) : option (MleBs * list MleMsg) :=
  if ((m ts =? 20) || (m ts =? 50))%Z && (f ts =? 1)%Z && (t ts =? 1)%Z then
    '(req_handle, self) ← allocate_tla_handle self;
    '(msg, self) ← send_broadcast cfg network_time self req_handle;
    match msg with
    | Some msg =>
        Some (with_pending self (<[req_handle := mkPending UserBroadcast 0]> (pending_data_transfers self)), [msg])
    | None => Some (self, [])
    end
  else Some (self, []).
