(* ===== verification/MleFacts.v ===== *)
(** * Facts of the MLE

    Handles, TL-SDUs with their protocol discriminator, and the broadcast. *)

From Stdlib Require Import ZArith Lia ZifyNat.
From stdpp Require Import gmap strings.
From S2P Require Import Prelude.
From S2P Require Import BitBuffer.
From S2P Require Import BitBufferFacts.
From S2P Require Import Codec.
From S2P Require Import Tdma.
From S2P Require Import MacFields.
From S2P Require Import TxReceipt.
From S2P Require Import Frag.
From S2P Require Import Typed.
From S2P Require Import MlePdus.
From S2P Require Import Llc.
From S2P Require Import LlcFacts.
From S2P Require Import Mle.

(** ** Handles *)

Abbreviation MAX_HANDLE := 2147483647%Z.

(** The counter and the handles in use are positive [i32]s. *)
Record mle_ok (self : MleBs) : Prop := {
  mo_next : (1 <= next_tla_handle self <= MAX_HANDLE)%Z;
  mo_keys : map_Forall (fun h _ => 1 <= h <= MAX_HANDLE)%Z (pending_data_transfers self)
}.

Lemma mle_ok_new : mle_ok MleBs_new.
Proof. constructor; [cbn; lia|apply map_Forall_empty]. Qed.

Definition next_of (h : Z) : Z := if (i32 (h + 1) <=? 0)%Z then 1 else i32 (h + 1).

Lemma next_of_spec h : (1 <= h <= MAX_HANDLE)%Z -> next_of h = if (h =? MAX_HANDLE)%Z then 1%Z else (h + 1)%Z.
Proof.
  intros H. unfold next_of. destruct (Z.eqb_spec h MAX_HANDLE) as [->|Hn]; [done|].
  rewrite i32_small by lia. destruct (Z.leb_spec (h + 1) 0); lia.
Qed.

(** The handles tried, from [h] on. *)
Definition candidate (h : Z) (i : nat) : Z := (1 + (h - 1 + Z.of_nat i) mod MAX_HANDLE)%Z.

Lemma candidate_0 h : (1 <= h <= MAX_HANDLE)%Z -> candidate h 0 = h.
Proof. intros H. unfold candidate. rewrite Z.mod_small; lia. Qed.

Lemma candidate_next h i : (1 <= h <= MAX_HANDLE)%Z -> candidate (next_of h) i = candidate h (S i).
Proof.
  intros H. rewrite next_of_spec by done. unfold candidate. f_equal. destruct (Z.eqb_spec h MAX_HANDLE) as [->|Hn].
  - replace (MAX_HANDLE - 1 + Z.of_nat (S i))%Z with (1 - 1 + Z.of_nat i + 1 * MAX_HANDLE)%Z by lia. by rewrite Z.mod_add.
  - f_equal. lia.
Qed.

Lemma candidate_inj h i j :
  (Z.of_nat i < MAX_HANDLE)%Z -> (Z.of_nat j < MAX_HANDLE)%Z -> candidate h i = candidate h j -> i = j.
Proof.
  unfold candidate. intros Hi Hj E. assert (E' : ((h - 1 + Z.of_nat i) mod MAX_HANDLE = (h - 1 + Z.of_nat j) mod MAX_HANDLE)%Z) by lia.
  apply (f_equal (fun x => (x - (h - 1)) mod MAX_HANDLE)%Z) in E'. rewrite !Zminus_mod_idemp_l in E'.
  replace (h - 1 + Z.of_nat i - (h - 1))%Z with (Z.of_nat i) in E' by lia.
  replace (h - 1 + Z.of_nat j - (h - 1))%Z with (Z.of_nat j) in E' by lia.
  rewrite !Z.mod_small in E' by lia. lia.
Qed.

(** The handle found is the first free one. *)
Lemma allocate_loop_spec fuel : forall self,
  mle_ok self ->
  match allocate_loop fuel self with
  | Some (handle, self') =>
      exists i, i < fuel /\ handle = candidate (next_tla_handle self) i /\ pending_data_transfers self !! handle = None /\
        (forall j, j < i -> is_Some (pending_data_transfers self !! candidate (next_tla_handle self) j)) /\
        self' = with_handle self (candidate (next_tla_handle self) (S i))
  | None => forall j, j < fuel -> is_Some (pending_data_transfers self !! candidate (next_tla_handle self) j)
  end.
Proof.
  induction fuel as [|fuel IH]; intros self [Hn Hk]; cbn [allocate_loop]; [intros j ?; lia|].
  change (if (i32 (next_tla_handle self + 1) <=? 0)%Z then 1%Z else i32 (next_tla_handle self + 1)) with (next_of (next_tla_handle self)).
  assert (Hn' : (1 <= next_of (next_tla_handle self) <= MAX_HANDLE)%Z).
  { rewrite next_of_spec by done. destruct (Z.eqb_spec (next_tla_handle self) MAX_HANDLE); lia. }
  replace (0 <? next_tla_handle self)%Z with true by lia. cbn [andb pending_data_transfers with_handle].
  case_bool_decide as Hf.
  - exists 0. rewrite candidate_0 by done. split_and!; [lia|done|done|intros; lia|].
    by rewrite <- candidate_next, candidate_0.
  - assert (Hs : is_Some (pending_data_transfers self !! next_tla_handle self)).
    { destruct (pending_data_transfers self !! next_tla_handle self) eqn:E; [by eexists|done]. }
    specialize (IH (with_handle self (next_of (next_tla_handle self)))). cbn [next_tla_handle pending_data_transfers with_handle] in IH.
    assert (Hc : forall j, is_Some (pending_data_transfers self !! candidate (next_of (next_tla_handle self)) j) <->
                           is_Some (pending_data_transfers self !! candidate (next_tla_handle self) (S j))).
    { intros j. by rewrite candidate_next. }
    specialize (IH ltac:(by constructor)). destruct (allocate_loop fuel _) as [[handle self']|].
    + destruct IH as (i & Hi & -> & Hfree & Hb & ->). exists (S i). rewrite !candidate_next in * by done.
      split_and!; [lia|done|done| |done]. intros [|j] Hj; [by rewrite candidate_0|]. apply Hc, Hb. lia.
    + intros [|j] Hj; [by rewrite candidate_0|]. apply Hc, IH. lia.
Qed.

Lemma candidates_in_use (m : gmap Z PendingMleTransfer) h n :
  (Z.of_nat n <= MAX_HANDLE)%Z -> (forall j, j < n -> is_Some (m !! candidate h j)) -> n <= size m.
Proof.
  intros Hn Hall. rewrite <- size_dom. set (l := candidate h <$> seq 0 n).
  assert (Hnd : NoDup l).
  { apply NoDup_fmap_2_strong; [|apply NoDup_seq]. intros i j Hi%elem_of_seq Hj%elem_of_seq. apply candidate_inj; lia. }
  replace n with (size (list_to_set l : gset Z)).
  - apply subseteq_size. intros x Hx. apply elem_of_list_to_set, list_elem_of_fmap in Hx as (j & -> & Hj%elem_of_seq). apply elem_of_dom, Hall. lia.
  - rewrite size_list_to_set by done. unfold l. by rewrite length_fmap, length_seq.
Qed.

Lemma candidate_bounds h i : (1 <= candidate h i <= MAX_HANDLE)%Z.
Proof. unfold candidate. pose proof (Z.mod_pos_bound (h - 1 + Z.of_nat i) MAX_HANDLE). lia. Qed.

(** The loop ends: with a free handle, the first one from the counter on. *)
Lemma allocate_tla_handle_spec self :
  mle_ok self -> (Z.of_nat (size (pending_data_transfers self)) < MAX_HANDLE)%Z ->
  exists i, allocate_tla_handle self
      = Some (candidate (next_tla_handle self) i, with_handle self (candidate (next_tla_handle self) (S i))) /\
    pending_data_transfers self !! candidate (next_tla_handle self) i = None /\
    forall j, j < i -> is_Some (pending_data_transfers self !! candidate (next_tla_handle self) j).
Proof.
  intros Ho Hs. unfold allocate_tla_handle. pose proof (allocate_loop_spec (S (size (pending_data_transfers self))) self Ho) as H.
  destruct (allocate_loop _ _) as [[handle self']|].
  - destruct H as (i & _ & -> & Hf & Hb & ->). by exists i.
  - apply candidates_in_use in H; lia.
Qed.

Lemma mle_ok_handle self n : mle_ok self -> (1 <= n <= MAX_HANDLE)%Z -> mle_ok (with_handle self n).
Proof. intros [] H. by constructor. Qed.
Lemma mle_ok_insert self h p : mle_ok self -> (1 <= h <= MAX_HANDLE)%Z -> mle_ok (with_pending self (<[h := p]> (pending_data_transfers self))).
Proof. intros [H1 H2] H. constructor; [done|]. by apply map_Forall_insert_2. Qed.
Lemma mle_ok_delete self h : mle_ok self -> mle_ok (with_pending self (delete h (pending_data_transfers self))).
Proof. intros [H1 H2]. constructor; [done|]. by apply map_Forall_delete. Qed.

(** A tracked request. *)
Lemma track_spec self user upper :
  mle_ok self -> (Z.of_nat (size (pending_data_transfers self)) < MAX_HANDLE)%Z ->
  exists h self', track_tla_data_request self user upper = Some (h, self') /\ mle_ok self' /\ (0 < h)%Z /\
    pending_data_transfers self !! h = None /\ pending_data_transfers self' = <[h := mkPending user upper]> (pending_data_transfers self) /\
    last_broadcast_type self' = last_broadcast_type self.
Proof.
  intros Ho Hs. destruct (allocate_tla_handle_spec self Ho Hs) as (i & E & Hf & _). unfold track_tla_data_request. rewrite E.
  pose proof (candidate_bounds (next_tla_handle self) i). pose proof (candidate_bounds (next_tla_handle self) (S i)).
  do 2 eexists. split; [done|]. split_and!; [|lia|done|done|done].
  apply mle_ok_insert; [by apply mle_ok_handle|done].
Qed.

(** ** TL-SDUs *)

(** Writing a header and then a whole SDU into a fresh buffer. *)
Lemma header_and_sdu (v : Z) (n : nat) src bs :
  (0 <= v < 2 ^ Z.of_nat n)%Z -> n <= 64 -> wf src -> remaining src = bs ->
  exists pdu src', run (write_bits v n) (new (n + length bs)) ≫= (fun '(_, b) => copy (length bs) b src) = Some (pdu, src') /\
    run (seek 0) pdu = Some (tt, with_pos pdu 0) /\ holds (with_pos pdu 0) (val_bits n v ++ bs).
Proof.
  intros Hv Hn W Hs.
  assert (R : room (new (n + length bs)) (length (val_bits n v))) by (left; cbn; rewrite length_val_bits; lia).
  destruct (run_emits _ _ _ _ (write_bits_emits v n Hv Hn) (wf_new _) R) as (b1 & E1 & W1). rewrite E1. step.
  destruct (copy_bits_spec b1 src bs []) as (b2 & E2 & W2); [apply W1|done|by rewrite app_nil_r|..].
  { left. rewrite (wr_pos _ _ _ W1), (wr_end _ _ _ W1), length_val_bits. cbn. lia. }
  unfold copy. rewrite E2. do 2 eexists. split; [done|].
  pose proof (wrote_trans _ _ _ _ _ W1 W2) as [W3 S3 P3 F3 N3 B3 _]. cbn in S3, P3, N3, B3.
  rewrite length_app, length_val_bits in *.
  split; [unfold run, seek; by rewrite S3|]. constructor; cbn; [apply wf_with_pos; [done|lia]|done|].
  unfold window. cbn. rewrite S3, N3, Nat.max_id, Nat.sub_0_r. exact B3.
Qed.

Lemma discriminator_small d : (0 <= discriminator_into_raw d < 2 ^ Z.of_nat 3)%Z.
Proof. by destruct d. Qed.
Lemma discriminator_roundtrip d : discriminator_try_from (discriminator_into_raw d) = Some d.
Proof. by destruct d. Qed.

Definition tl_sdu_img (d : MleProtocolDiscriminator) (sdu : list bool) : list bool := val_bits 3 (discriminator_into_raw d) ++ sdu.

Lemma prefixed_holds d sdu bs : holds sdu bs -> exists pdu, prefixed d sdu = Some pdu /\ holds pdu (tl_sdu_img d bs).
Proof.
  intros H. unfold prefixed. rewrite (holds_len _ _ H).
  destruct (header_and_sdu (discriminator_into_raw d) 3 sdu bs) as (pdu & src' & E & Es & Hb);
    [apply discriminator_small|lia|apply H|by apply holds_remaining|].
  destruct (run (write_bits _ 3) _) as [[u b]|]; [|done]. rewrite bind_Some in E. step. rewrite E. step.
  rewrite Es. by eexists.
Qed.

(** What routing does with a TL-SDU. *)
Definition indication (d : MleProtocolDiscriminator) (sdu : BitBuffer) (addr : TetraAddress) (endpoint_id link_id handle : Z)
  : list MleMsg :=
  match d with
  | PdMm => [LmmMleUnitdataIndMsg sdu handle addr]
  | PdCmce => [LcmcMleUnitdataIndMsg (mkLcmcInd sdu handle endpoint_id link_id addr false None)]
  | PdSndcp => [LtpdMleUnitdataIndMsg sdu endpoint_id link_id addr]
  | PdMle | PdManagement => []
  end.

Lemma route_holds sdu d bs addr ep link handle :
  holds sdu (tl_sdu_img d bs) ->
  exists sdu', route_prefixed_tl_sdu sdu addr ep link handle = Some (indication d sdu' addr ep link handle) /\
    sdu' = with_pos sdu (pos sdu + 3) /\ wf sdu' /\ remaining sdu' = bs.
Proof.
  intros H. unfold route_prefixed_tl_sdu. assert (get_pos sdu = 0) as -> by (unfold get_pos; rewrite (ho_pos _ _ H); lia).
  pose proof (discriminator_small d) as Hd.
  assert (P : parses (read_bits 3) (val_bits 3 (discriminator_into_raw d)) bs (Some (discriminator_into_raw d))).
  { rewrite <- (bits_val_val_bits_small 3 (discriminator_into_raw d)) at 2 by done. by apply read_bits_parses; [apply length_val_bits|lia]. }
  destruct (parses_advance sdu _ _ (ho_wf _ _ H) (holds_remaining _ _ H)) as (W & R & _).
  pose proof (P sdu (ho_wf _ _ H) (holds_remaining _ _ H)) as E. rewrite length_val_bits in *.
  exists (with_pos sdu (pos sdu + 3)). split; [|by split_and!]. change (negb (0 =? 0)) with false. cbv beta iota. step. unfold run. rewrite E. step. rewrite discriminator_roundtrip.
  by destruct d.
Qed.

(** Routing never panics. *)
Lemma route_total sdu addr ep link handle :
  wf sdu -> exists msgs, route_prefixed_tl_sdu sdu addr ep link handle = Some msgs /\
    Forall (fun m => match m with ToLlc _ | LmmMleReportInd _ _ | LcmcMleReportInd _ _ _ _ | LtpdMleReportInd _ _ => False | _ => True end) msgs.
Proof.
  intros W. unfold route_prefixed_tl_sdu.
  assert (exists b, (if negb (get_pos sdu =? 0) then snd <$> run (seek 0) sdu else Some sdu) = Some b /\ wf b) as (b & E & Wb).
  { destruct (negb _); [|by exists sdu]. destruct W as [Wb Ws Wp We]. unfold run, seek. btrue (start sdu + 0 <=? end_ sdu).
    eexists. split; [done|]. constructor; cbn; try done; lia. }
  rewrite E. step. unfold run.
  assert (exists bits b', read_bits 3 b = Ok bits b') as (bits & b' & Er).
  { destruct (decide (3 <= length (remaining b))) as [Hl|Hl].
    - pose proof (read_bits_parses 3 (take 3 (remaining b)) (drop 3 (remaining b))) as P. do 2 eexists. apply P; [|lia|done|].
      + rewrite length_take. lia.
      + by rewrite take_drop.
    - do 2 eexists. apply read_bits_short; [done|lia]. }
  rewrite Er. step. destruct (bits ≫= discriminator_try_from) as [[]|]; eexists; (split; [done|repeat constructor]).
Qed.

(** ** Broadcast *)

Record cfg_ok (cfg : MleConfig) (network_time : option Z) : Prop := {
  co_time : option_all (fun v => 0 <= v < 2 ^ 48)%Z network_time;
  co_cells : Forall NeighbourCell_ok (cfg_neighbor_cells_ca cfg);
  co_count : length (cfg_neighbor_cells_ca cfg) <= 7
}.

Lemma cfg_to_neighbour_ok c : NeighbourCell_ok c -> NeighbourCell_ok (cfg_to_neighbour c).
Proof. intros []. by constructor. Qed.

(** A PDU that can be serialized goes out as a TL-UNITDATA request to all stations. *)
Lemma transmit_pdu_sends cfg pdu h :
  DNwrkBroadcast_ok pdu ->
  exists req bs, transmit_pdu cfg pdu h = Some (Some (ToLlc (PrimUnitdataReq req))) /\
    ur_req_handle req = h /\ ur_main_address req = mkAddr 0xffffff Gssi /\ ur_tx_reporter req = None /\
    holds (ur_tl_sdu req) (tl_sdu_img PdMle bs) /\ forall rest, parses DNwrkBroadcast_from_bitbuf bs rest pdu.
Proof.
  intros Hp. destruct (DNwrkBroadcast_roundtrips pdu Hp) as (bs & He & Hr). unfold transmit_pdu.
  destruct (run_emits _ _ _ (new_autoexpand 256) He) as (b & E & Wr); [apply wf_new_autoexpand|by apply (written_room _ []), written_new|].
  pose proof (written_app _ _ _ _ (written_new 256) Wr) as Wn. rewrite app_nil_l in Wn.
  destruct (written_holds _ _ Wn) as [Es Hb]. unfold run in E. destruct (DNwrkBroadcast_to_bitbuf pdu (new_autoexpand 256)); try done.
  injection E as -> ->. unfold get_pos. rewrite (wn_pos _ _ Wn), (wn_start _ _ Wn), Nat.sub_0_r, Es. step.
  destruct (header_and_sdu (discriminator_into_raw PdMle) 3 (with_pos b 0) bs) as (tl & src' & E2 & Es2 & Hb2);
    [apply discriminator_small|lia|apply Hb|by apply holds_remaining|].
  destruct (run (write_bits _ 3) _) as [[u b1]|]; [|done]. rewrite bind_Some in E2. step. rewrite E2. step.
  rewrite Es2. step. do 2 eexists. by split_and!.
Qed.

(** What is broadcast: the network time and the neighbour cells. *)
Definition broadcast_time (cfg : MleConfig) (network_time : option Z) : option Z := if cfg_timezone cfg then network_time else None.
Definition broadcast_pdu (cfg : MleConfig) (network_time : option Z) : DNwrkBroadcast :=
  mkNwrkBroadcast 0 0 (broadcast_time cfg network_time) (Some (Z.of_nat (length (cfg_neighbor_cells_ca cfg))))
    (cfg_to_neighbour <$> cfg_neighbor_cells_ca cfg).
Definition announces (cfg : MleConfig) (network_time : option Z) : bool :=
  is_some (broadcast_time cfg network_time) || negb (bool_decide (cfg_neighbor_cells_ca cfg = [])).

Lemma broadcast_pdu_ok cfg network_time : cfg_ok cfg network_time -> DNwrkBroadcast_ok (broadcast_pdu cfg network_time).
Proof.
  intros [Ht Hc Hn]. constructor; cbn; try lia.
  - unfold broadcast_time. by destruct (cfg_timezone cfg).
  - apply Forall_fmap. eapply Forall_impl; [exact Hc|]. apply cfg_to_neighbour_ok.
  - unfold DNwrkBroadcast_check. cbn. rewrite length_fmap, Z.eqb_refl. cbn. unfold at_most.
    by bfalse (7 <? Z.of_nat (length (cfg_neighbor_cells_ca cfg)))%Z.
Qed.

Lemma send_d_nwrk_broadcast_spec cfg network_time h :
  cfg_ok cfg network_time ->
  send_d_nwrk_broadcast cfg network_time h
    = if announces cfg network_time then transmit_pdu cfg (broadcast_pdu cfg network_time) h else Some None.
Proof.
  intros [_ _ Hn]. unfold send_d_nwrk_broadcast, announces, broadcast_pdu, broadcast_time.
  destruct (cfg_neighbor_cells_ca cfg) as [|c cells].
  - by destruct (if cfg_timezone cfg then network_time else None).
  - rewrite orb_true_r, length_fmap. unfold u8. by rewrite Z.mod_small by lia.
Qed.

Lemma send_d_nwrk_broadcast_sends cfg network_time h :
  cfg_ok cfg network_time ->
  exists o, send_d_nwrk_broadcast cfg network_time h = Some o /\ is_some o = announces cfg network_time /\
    forall m, o = Some m -> exists req bs, m = ToLlc (PrimUnitdataReq req) /\ ur_req_handle req = h /\
      ur_main_address req = mkAddr 0xffffff Gssi /\ holds (ur_tl_sdu req) (tl_sdu_img PdMle bs) /\
      forall rest, parses DNwrkBroadcast_from_bitbuf bs rest (broadcast_pdu cfg network_time).
Proof.
  intros Hc. rewrite send_d_nwrk_broadcast_spec by done. destruct (announces cfg network_time); [|by eexists].
  destruct (transmit_pdu_sends cfg _ h (broadcast_pdu_ok _ _ Hc)) as (req & bs & E & H1 & H2 & H3 & H4 & H5).
  eexists. split; [done|]. split; [done|]. intros m [= <-]. by exists req, bs.
Qed.
