(* ===== verification/MleRun.v ===== *)
(** * The MLE over the basic link

    The MLE and the LLC of one station exchanging primitives, under any sequence of requests
    of layer 3, timeslots, received PDUs and reports of the MAC, with the messages between the
    two delivered in any order: neither panics, and every request that a layer 3 entity can
    expect a report for is reported to that entity, with its own handle, exactly once. *)

From Stdlib Require Import ZArith Lia ZifyNat.
From stdpp Require Import gmap strings.
From S2P Require Import Prelude.
From S2P Require Import BitBuffer.
From S2P Require Import BitBufferFacts.
From S2P Require Import Codec.
From S2P Require Import Tdma.
From S2P Require Import MacFields.
From S2P Require Import Defrag.
From S2P Require Import TxReceipt.
From S2P Require Import Frag.
From S2P Require Import Typed.
From S2P Require Import MlePdus.
From S2P Require Import Llc.
From S2P Require Import LlcFacts.
From S2P Require Import LlcInv.
From S2P Require Import LlcTick.
From S2P Require Import LlcRun.
From S2P Require Import LlcUp.
From S2P Require Import Mle.
From S2P Require Import MleFacts.

(** ** The two entities *)

(** A message on its way between them. *)
Inductive bus_msg := ForLlc (p : LlcPrim) | ForMle (p : MlePrim).

Definition to_bus (m : MleMsg) : option bus_msg := match m with ToLlc p => Some (ForLlc p) | _ => None end.
Definition from_llc (m : LlcMsg) : option bus_msg :=
  match m with
  | TlaTlReportInd h r _ => Some (ForMle (TlReport (Some h) r None None))
  | TlDataConfBl ind h r => Some (ForMle (TlDataConf ind h r))
  | TlaTlDataIndBl ind h => Some (ForMle (TlDataInd ind h))
  | TlaTlUnitdataIndBl ind => Some (ForMle (TlUnitdataInd ind))
  | TmaUnitdataReqMsg _ | TmaCancelReqMsg _ => None
  end.

(** [st_log]: the primitives the MLE was given, each with the messages it pushed. *)
Record stack := mkStack {
  st_mle : MleBs;
  st_llc : Llc;
  st_heap : store;
  st_bus : list bus_msg;
  st_log : list (MlePrim * list MleMsg)
}.
Definition stack_initial : stack := mkStack MleBs_new Llc_new ∅ [] [].

(** [SRequest p]: a request of layer 3; [SLlc e]: an event at the LLC from below;
    [SDeliver n]: the message at position [n] of the queue reaches its destination. *)
Inductive stack_event :=
  | SRequest (p : MlePrim)
  | SMleTick (network_time : option Z) (ts : TdmaTime)
  | SLlc (e : llc_event)
  | SDeliver (n : nat).

Section stack.
Variable main_carrier : Z.
Variable cfg : MleConfig.

Definition give_mle (st : stack) (p : MlePrim) : option stack :=
  '(mle, msgs) ← mle_rx_prim cfg (st_mle st) p;
  Some (mkStack mle (st_llc st) (st_heap st) (st_bus st ++ omap to_bus msgs) (st_log st ++ [(p, msgs)])).

Definition give_llc (st : stack) (e : llc_event) : option stack :=
  '(llc, msgs, heap) ← run_event main_carrier (st_llc st, [], st_heap st) e;
  Some (mkStack (st_mle st) llc heap (st_bus st ++ omap from_llc msgs) (st_log st)).

Definition stack_step (st : stack) (e : stack_event) : option stack :=
  match e with
  | SRequest p => give_mle st p
  | SMleTick network_time ts =>
      '(mle, msgs) ← mle_tick_start cfg network_time (st_mle st) ts;
      Some (mkStack mle (st_llc st) (st_heap st) (st_bus st ++ omap to_bus msgs) (st_log st))
  | SLlc e => give_llc st e
  | SDeliver n =>
      let rest := mkStack (st_mle st) (st_llc st) (st_heap st) (delete n (st_bus st)) (st_log st) in
      match st_bus st !! n with
      | Some (ForLlc p) => give_llc rest (EvPrim p)
      | Some (ForMle p) => give_mle rest p
      | None => Some st
      end
  end.
Definition stack_run (st : stack) (es : list stack_event) : option stack := foldM stack_step es st.

(** ** Requests and reports *)

(** Who is told about the end of a transfer, and by which handle; nobody about a broadcast. *)
Definition report_id (p : PendingMleTransfer) : option (MleSapUser * Z) :=
  match pt_user p with
  | UserMm => Some (UserMm, pt_upper_handle p)
  | UserCmce => Some (UserCmce, i32 (pt_upper_handle p))
  | UserSndcp => Some (UserSndcp, i32 (pt_upper_handle p))
  | UserBroadcast => None
  end.

(** Requests to be reported on: acknowledged ones, of CMCE and SNDCP unacknowledged ones too. *)
Definition tracked (p : MlePrim) : option PendingMleTransfer :=
  match p with
  | LmmReq r => match lm_layer2service r with L2Acknowledged => Some (mkPending UserMm (lm_handle r)) | _ => None end
  | LcmcReq r =>
      match lc_layer2service r with L2Acknowledged | L2Unacknowledged => Some (mkPending UserCmce (lc_handle r)) | _ => None end
  | LtpdReq r =>
      match lt_layer2service r with
      | L2Acknowledged | L2Unacknowledged =>
          if cfg_sndcp_service cfg then Some (mkPending UserSndcp (todo_to_mle_handle (lt_handle r))) else None
      | _ => None
      end
  | _ => None
  end.
Definition requested (log : list (MlePrim * list MleMsg)) : list (MleSapUser * Z) :=
  omap (fun entry => tracked entry.1 ≫= report_id) log.

(** The reports sent on the confirmation of a transfer, or on its final report. *)
Definition reported (m : MleMsg) : option (MleSapUser * Z) :=
  match m with
  | LmmMleReportInd h _ => Some (UserMm, h)
  | LcmcMleReportInd h _ _ _ => Some (UserCmce, h)
  | LtpdMleReportInd h _ => Some (UserSndcp, h)
  | _ => None
  end.
Definition final (p : MlePrim) : option Z :=
  match p with
  | TlDataConf _ h _ => Some h
  | TlReport (Some h) r _ _ =>
      if (r =? TLA_REPORT_FAILED_TRANSFER)%Z || (r =? TLA_REPORT_SUCCESSFUL_TRANSFER)%Z then Some h else None
  | _ => None
  end.
Definition settled (log : list (MlePrim * list MleMsg)) : list (MleSapUser * Z) :=
  log ≫= (fun entry => match final entry.1 with Some _ => omap reported entry.2 | None => [] end).

Definition outstanding (m : gmap Z PendingMleTransfer) : list (MleSapUser * Z) := omap (fun hp => report_id hp.2) (map_to_list m).

(** Handles of the MLE (positive ones) in a message on its way down or in a final report. *)
Definition handles (m : bus_msg) : list Z :=
  match m with
  | ForLlc (PrimDataReq r) => [dr_req_handle r]
  | ForLlc (PrimDataResp r) => [dp_req_handle r]
  | ForLlc (PrimUnitdataReq r) => [ur_req_handle r]
  | ForLlc _ => []
  | ForMle p => option_list (final p)
  end.
Definition positives (l : list Z) : list Z := filter (fun h => 0 < h)%Z l.

(** ** What the environment does *)

(** A request: its SDU is read from the start; one to be acknowledged is on the basic link and
    to an individual address; one that is not tracked carries no handle of its own. *)
Definition request_ok (p : MlePrim) : Prop :=
  match p with
  | LmmReq r =>
      holds (lm_sdu r) (window (lm_sdu r)) /\
      match lm_layer2service r with
      | L2Acknowledged => ssi_type (lm_address r) <> Gssi
      | L2AcknowledgedResponse => ssi_type (lm_address r) <> Gssi /\ lm_handle r = 0%Z
      | L2Unacknowledged => lm_handle r = 0%Z
      | L2Todo => True
      end
  | LcmcReq r =>
      holds (lc_sdu r) (window (lc_sdu r)) /\
      match lc_layer2service r with
      | L2Acknowledged => ssi_type (lc_main_address r) <> Gssi /\ lc_link_id r = 0%Z
      | L2AcknowledgedResponse => ssi_type (lc_main_address r) <> Gssi /\ lc_link_id r = 0%Z /\ lc_handle r = 0%Z
      | _ => True
      end
  | LtpdReq r =>
      holds (lt_sdu r) (window (lt_sdu r)) /\
      match lt_layer2service r with
      | L2Acknowledged => ssi_type (lt_address r) <> Gssi /\ lt_link_id r = 0%Z
      | L2AcknowledgedResponse => ssi_type (lt_address r) <> Gssi /\ lt_link_id r = 0%Z /\ (lt_handle r <= 0)%Z
      | _ => True
      end
  | _ => False
  end.

(** The queue holds less than 2^30 messages. *)
Definition queue_short (st : stack) : Prop := (Z.of_nat (length (st_bus st)) < 2 ^ 30)%Z.

(** The receipt that comes with a request is its own when it reaches the LLC. *)
Definition receipt_own (self : Llc) (heap : store) (p : LlcPrim) : Prop :=
  match p with
  | PrimDataReq r => receipt_ok self heap true (dr_tx_reporter r)
  | PrimUnitdataReq r => receipt_ok self heap false (ur_tx_reporter r)
  | _ => True
  end.

Definition stack_event_ok (st : stack) (e : stack_event) : Prop :=
  match e with
  | SRequest p => request_ok p /\ queue_short st
  | SMleTick network_time _ => cfg_ok cfg network_time /\ queue_short st
  | SLlc e =>
      event_ok (st_llc st, [], st_heap st) e /\
      match e with EvPrim (PrimDataReq _ | PrimDataResp _ | PrimUnitdataReq _) => False | _ => True end
  | SDeliver n => forall p, st_bus st !! n = Some (ForLlc p) -> receipt_own (st_llc st) (st_heap st) p
  end.
Fixpoint stack_events_ok (st : stack) (es : list stack_event) : Prop :=
  match es with
  | [] => True
  | e :: es => stack_event_ok st e /\ forall st', stack_step st e = Some st' -> stack_events_ok st' es
  end.

(** ** The invariant *)

Definition bus_ok (m : bus_msg) : Prop :=
  match m with
  | ForLlc (PrimDataReq r) => dr_link_id r = 0%Z /\ ssi_type (dr_main_address r) <> Gssi /\ wf (dr_tl_sdu r)
  | ForLlc (PrimDataResp r) =>
      dp_link_id r = 0%Z /\ ssi_type (dp_main_address r) <> Gssi /\ wf (dp_tl_sdu r) /\ (dp_req_handle r <= 0)%Z
  | ForLlc (PrimUnitdataReq r) => wf (ur_tl_sdu r)
  | ForLlc _ => False
  | ForMle (TlDataInd ind _) | ForMle (TlDataConf ind _ _) | ForMle (TlUnitdataInd ind) => sdu_ok ind
  | ForMle (TlReport _ _ _ _) => True
  | ForMle _ => False
  end.

Record stack_inv (st : stack) : Prop := {
  si_llc : inv (st_llc st) (st_heap st);
  si_up : up (st_llc st) [];
  si_mle : mle_ok (st_mle st);
  si_bus : Forall bus_ok (st_bus st);
  si_handles : positives ((st_bus st ≫= handles) ++ (pending (st_llc st)).*1)
                 ≡ₚ (map_to_list (pending_data_transfers (st_mle st))).*1;
  si_log : settled (st_log st) ++ outstanding (pending_data_transfers (st_mle st)) ≡ₚ requested (st_log st)
}.

Lemma stack_inv_initial : stack_inv stack_initial.
Proof.
  constructor; cbn; try done.
  - apply inv_initial.
  - apply up_initial.
Qed.

Lemma positives_app l1 l2 : positives (l1 ++ l2) = positives l1 ++ positives l2.
Proof. apply filter_app. Qed.
Lemma length_positives l : length (positives l) <= length l.
Proof. apply length_filter. Qed.

Lemma settled_app l1 l2 : settled (l1 ++ l2) = settled l1 ++ settled l2.
Proof. apply bind_app. Qed.
Lemma requested_app l1 l2 : requested (l1 ++ l2) = requested l1 ++ requested l2.
Proof. apply omap_app. Qed.

(** The table of a bounded number of transfers has a handle left. *)
Lemma handles_length m : length (handles m) <= 1.
Proof. by destruct m as [[]|p]; cbn; [lia..|destruct (final p); cbn; lia]. Qed.

Lemma bus_handles_length bus : length (bus ≫= handles) <= length bus.
Proof. induction bus as [|m bus IH]; cbn; [done|]. rewrite length_app. pose proof (handles_length m). lia. Qed.

Lemma table_bounded st : stack_inv st -> queue_short st -> (Z.of_nat (size (pending_data_transfers (st_mle st))) < MAX_HANDLE)%Z.
Proof.
  intros [Hl _ _ _ Hh _] Hq. rewrite <- length_map_to_list, <- (length_fmap fst (map_to_list _)), <- Hh.
  pose proof (length_positives ((st_bus st ≫= handles) ++ (pending (st_llc st)).*1)) as Hp. rewrite length_app in Hp.
  pose proof (bus_handles_length (st_bus st)). unfold queue_short in Hq.
  assert (Z.of_nat (length (pending (st_llc st)).*1) <= 8192 + 8192)%Z.
  { rewrite length_fmap. unfold pending. rewrite length_app, !length_fmap.
    pose proof (iv_out_len _ _ Hl). pose proof (iv_udata_len _ _ Hl). unfold LLC_MAX_OUTBOUND_ACKED_MESSAGES, LLC_MAX_OUTBOUND_UDATA_MESSAGES in *. lia. }
  change (2 ^ 30)%Z with 1073741824%Z in Hq. lia.
Qed.
(** ** The LLC *)

Lemma from_llc_handles msgs : omap from_llc msgs ≫= handles = answers msgs.
Proof.
  unfold answers. induction msgs as [|m msgs IH]; [done|].
  destruct m; cbn; rewrite ?IH; try done. by destruct (_ || _).
Qed.

Lemma from_llc_ok msgs : Forall msg_ok msgs -> Forall bus_ok (omap from_llc msgs).
Proof.
  induction 1 as [|m msgs Hm _ IH]; [constructor|]. destruct m; cbn; try done; constructor; try done; by apply Hm.
Qed.

Lemma llc_event_effect llc heap e :
  inv llc heap -> up llc [] -> event_ok (llc, [], heap) e ->
  exists llc' msgs heap', run_event main_carrier (llc, [], heap) e = Some (llc', msgs, heap') /\
    inv llc' heap' /\ up llc' [] /\ Forall bus_ok (omap from_llc msgs) /\
    (omap from_llc msgs ≫= handles) ++ (pending llc').*1 ≡ₚ (asks llc e).*1 ++ (pending llc).*1.
Proof.
  intros I U He. destruct (run_event_effect main_carrier llc [] heap e I He) as (llc' & msgs & heap' & E & [I' (d & Ed & P)]).
  cbn [app] in E. pose proof (run_event_up main_carrier _ _ _ _ _ _ _ He E U) as [U1 U2 U3].
  exists llc', msgs, heap'. split_and!; try done.
  - by apply from_llc_ok.
  - by rewrite from_llc_handles, <- Ed, <- fmap_app, P, fmap_app.
Qed.

(** Handles asked for and not positive do not count. *)
Lemma asks_positives llc p :
  bus_ok (ForLlc p) -> positives (asks llc (EvPrim p)).*1 = positives (handles (ForLlc p)).
Proof.
  destruct p as [r|r|r| |]; cbn; try done; [intros (_ & Ha & _); by rewrite bool_decide_false|].
  intros (_ & _ & _ & Hh). destruct (resp_asks _ _); [done|].
  unfold positives. cbn. destruct (decide (0 < dp_req_handle r)%Z); [lia|done].
Qed.

(** ** The MLE *)

Lemma map_to_list_insert_fst (m : gmap Z PendingMleTransfer) h p :
  m !! h = None -> (map_to_list (<[h := p]> m)).*1 ≡ₚ h :: (map_to_list m).*1.
Proof. intros H. by rewrite map_to_list_insert. Qed.
Lemma outstanding_insert (m : gmap Z PendingMleTransfer) h p :
  m !! h = None -> outstanding (<[h := p]> m) ≡ₚ option_list (report_id p) ++ outstanding m.
Proof. intros H. unfold outstanding. rewrite map_to_list_insert by done. cbn. by destruct (report_id p). Qed.
Lemma map_to_list_delete_fst (m : gmap Z PendingMleTransfer) h p :
  m !! h = Some p -> (map_to_list m).*1 ≡ₚ h :: (map_to_list (delete h m)).*1.
Proof. intros H. by rewrite <- (map_to_list_delete m h p). Qed.
Lemma outstanding_delete (m : gmap Z PendingMleTransfer) h p :
  m !! h = Some p -> outstanding m ≡ₚ option_list (report_id p) ++ outstanding (delete h m).
Proof. intros H. unfold outstanding. rewrite <- (map_to_list_delete m h p) by done. cbn. by destruct (report_id p). Qed.

Lemma push_report_reported p r c h : omap reported (push_mle_report p r c h) = option_list (report_id p).
Proof. unfold push_mle_report, report_id. by destruct (pt_user p). Qed.
Lemma push_report_bus p r c h : omap to_bus (push_mle_report p r c h) = [].
Proof. unfold push_mle_report. by destruct (pt_user p). Qed.

Lemma route_quiet sdu addr ep link handle :
  wf sdu -> exists msgs, route_prefixed_tl_sdu sdu addr ep link handle = Some msgs /\ omap reported msgs = [] /\ omap to_bus msgs = [].
Proof.
  intros W. destruct (route_total sdu addr ep link handle W) as (msgs & E & H). exists msgs. split; [done|]. clear E.
  induction H as [|m msgs Hm _ [IH1 IH2]]; [done|]. by destruct m; cbn; rewrite ?IH1, ?IH2.
Qed.

(** A primitive at the MLE: what enters and leaves the table, and what is told to whom. *)
Record mle_effect (mle : MleBs) (p : MlePrim) (mle' : MleBs) (msgs : list MleMsg) : Prop := {
  me_ok : mle_ok mle';
  me_bus : Forall bus_ok (omap to_bus msgs);
  me_keys : positives (option_list (final p)) ++ (map_to_list (pending_data_transfers mle')).*1
              ≡ₚ positives (omap to_bus msgs ≫= handles) ++ (map_to_list (pending_data_transfers mle)).*1;
  me_told : match final p with Some _ => omap reported msgs | None => [] end ++ outstanding (pending_data_transfers mle')
              ≡ₚ option_list (tracked p ≫= report_id) ++ outstanding (pending_data_transfers mle)
}.

(** Nothing changes in the table. *)
Lemma mle_effect_same mle p msgs :
  mle_ok mle -> final p = None -> tracked p = None -> Forall bus_ok (omap to_bus msgs) ->
  positives (omap to_bus msgs ≫= handles) = [] -> mle_effect mle p mle msgs.
Proof. intros Ho Hf Ht Hb Hh. constructor; try done; by rewrite ?Hf, ?Ht, ?Hh. Qed.

(** A tracked request goes down under a fresh handle. *)
Lemma mle_effect_tracked mle p h pend m mle' msg :
  to_bus msg = Some m -> mle_ok mle' -> final p = None -> tracked p = Some pend -> bus_ok m -> handles m = [h] -> (0 < h)%Z ->
  pending_data_transfers mle !! h = None -> pending_data_transfers mle' = <[h := pend]> (pending_data_transfers mle) ->
  mle_effect mle p mle' [msg].
Proof.
  intros Em Ho Hf Ht Hb Hh Hpos Hfree Hm. constructor; cbn; rewrite ?Em; cbn; try done.
  - by constructor.
  - rewrite Hf, Hh, Hm, map_to_list_insert_fst by done. unfold positives. cbn. by destruct (decide (0 < h)%Z).
  - rewrite Hf, Ht, Hm. cbn. by rewrite outstanding_insert.
Qed.

(** A transfer is over. *)
Lemma mle_effect_final mle p h pend :
  mle_ok mle -> final p = Some h -> tracked p = None -> pending_data_transfers mle !! h = Some pend ->
  forall msgs, omap reported msgs = option_list (report_id pend) -> omap to_bus msgs = [] ->
  mle_effect mle p (with_pending mle (delete h (pending_data_transfers mle))) msgs.
Proof.
  intros Ho Hf Ht Hm msgs Hr Hb. assert (0 < h)%Z by (destruct Ho as [_ Hk]; specialize (Hk h pend Hm); cbn in Hk; lia).
  constructor; rewrite ?Hb, ?Hf, ?Ht; cbn; try done.
  - by apply mle_ok_delete.
  - rewrite (map_to_list_delete_fst (pending_data_transfers mle) h pend) by done. unfold positives. cbn. by destruct (decide (0 < h)%Z).
  - by rewrite Hr, (outstanding_delete (pending_data_transfers mle) h pend).
Qed.

(** A final report for a handle that is not the MLE's. *)
Lemma mle_effect_stray mle p h :
  mle_ok mle -> final p = Some h -> tracked p = None -> (h <= 0)%Z ->
  forall mle' msgs, mle_ok mle' -> pending_data_transfers mle' = pending_data_transfers mle ->
  omap reported msgs = [] -> omap to_bus msgs = [] -> mle_effect mle p mle' msgs.
Proof.
  intros Ho Hf Ht Hh mle' msgs Ho' Hm Hr Hb. constructor; rewrite ?Hb, ?Hf, ?Ht, ?Hm; cbn; rewrite ?Hr; try done.
  unfold positives. cbn. by destruct (decide (0 < h)%Z); [lia|].
Qed.

(** Requests of layer 3. *)
Ltac tracked_request M user upper :=
  let h := fresh "h" in let mle' := fresh "mle'" in
  match goal with Ho : mle_ok ?mle, Hs : (Z.of_nat (size _) < MAX_HANDLE)%Z |- _ =>
    destruct (track_spec mle user upper Ho Hs) as (h & mle' & E' & Ho' & Hpos & Hfree & Hm & _); rewrite E'; step;
    exists mle'; eexists; split; [reflexivity|]; eapply (mle_effect_tracked _ _ h); [reflexivity|exact Ho'|done|M| |done|exact Hpos|exact Hfree|exact Hm]
  end.
Ltac untracked_request Ht :=
  do 2 eexists; split; [reflexivity|]; apply mle_effect_same; [done|done|cbn; rewrite ?Ht; done| |]; cbn.

Lemma lmm_effect mle r :
  mle_ok mle -> (Z.of_nat (size (pending_data_transfers mle)) < MAX_HANDLE)%Z -> request_ok (LmmReq r) ->
  exists mle' msgs, rx_lmm_mle_unitdata_req cfg mle r = Some (mle', msgs) /\ mle_effect mle (LmmReq r) mle' msgs.
Proof.
  intros Ho Hs [Hb Hr]. unfold rx_lmm_mle_unitdata_req. destruct (prefixed_holds PdMm _ _ Hb) as (pdu & E & Hp).
  destruct (lm_layer2service r) eqn:El; rewrite ?E; try step.
  - untracked_request El; [constructor|done].
  - tracked_request ltac:(cbn; by rewrite El) UserMm (lm_handle r). cbn. by split_and!; [done|done|apply Hp].
  - destruct Hr as [Ha Hh]. untracked_request El; [|by rewrite Hh]. constructor; [|constructor]. cbn. rewrite ?Hh. split_and!; try done. apply Hp.
  - untracked_request El; [|by rewrite Hr]. constructor; [apply Hp|constructor].
Qed.

Lemma lcmc_effect mle r :
  mle_ok mle -> (Z.of_nat (size (pending_data_transfers mle)) < MAX_HANDLE)%Z -> request_ok (LcmcReq r) ->
  exists mle' msgs, rx_lcmc_mle_unitdata_req cfg mle r = Some (mle', msgs) /\ mle_effect mle (LcmcReq r) mle' msgs.
Proof.
  intros Ho Hs [Hb Hr]. unfold rx_lcmc_mle_unitdata_req. destruct (prefixed_holds PdCmce _ _ Hb) as (pdu & E & Hp).
  destruct (lc_layer2service r) eqn:El; rewrite ?E; try step.
  - untracked_request El; [constructor|done].
  - tracked_request ltac:(cbn; by rewrite El) UserCmce (lc_handle r). cbn. destruct Hr. by split_and!; [done|done|apply Hp].
  - destruct Hr as (Ha & Hl & Hh). untracked_request El; [|by rewrite Hh]. constructor; [|constructor]. cbn. rewrite ?Hh. split_and!; try done. apply Hp.
  - tracked_request ltac:(cbn; by rewrite El) UserCmce (lc_handle r). apply Hp.
Qed.

Lemma ltpd_effect mle r :
  mle_ok mle -> (Z.of_nat (size (pending_data_transfers mle)) < MAX_HANDLE)%Z -> request_ok (LtpdReq r) ->
  exists mle' msgs, rx_ltpd_mle_unitdata_req cfg mle r = Some (mle', msgs) /\ mle_effect mle (LtpdReq r) mle' msgs.
Proof.
  intros Ho Hs [Hb Hr]. unfold rx_ltpd_mle_unitdata_req. destruct (prefixed_holds PdSndcp _ _ Hb) as (pdu & E & Hp).
  destruct (cfg_sndcp_service cfg) eqn:Ec; cbn [negb].
  2:{ destruct (lt_layer2service r) eqn:El; (do 2 eexists; split; [reflexivity|]; apply mle_effect_same; cbn; rewrite ?El, ?Ec; done || constructor). }
  destruct (lt_layer2service r) eqn:El; rewrite ?E; try step.
  - untracked_request El; [constructor|done].
  - tracked_request ltac:(cbn; by rewrite El, Ec) UserSndcp (todo_to_mle_handle (lt_handle r)). cbn. destruct Hr. by split_and!; [done|done|apply Hp].
  - destruct Hr as (Ha & Hl & Hh). untracked_request El.
    + constructor; [|constructor]. cbn. split_and!; try done. apply Hp.
    + unfold positives. cbn. by destruct (decide (0 < lt_handle r)%Z); [lia|].
  - tracked_request ltac:(cbn; by rewrite El, Ec) UserSndcp (todo_to_mle_handle (lt_handle r)). apply Hp.
Qed.

Lemma request_effect mle p :
  mle_ok mle -> (Z.of_nat (size (pending_data_transfers mle)) < MAX_HANDLE)%Z -> request_ok p ->
  exists mle' msgs, mle_rx_prim cfg mle p = Some (mle', msgs) /\ mle_effect mle p mle' msgs.
Proof. destruct p; try done; intros; by first [apply lmm_effect|apply lcmc_effect|apply ltpd_effect]. Qed.

(** Primitives of the LLC. *)
Lemma routed_effect mle p (o : option BitBuffer) addr ep link handle :
  mle_ok mle -> final p = None -> tracked p = None -> (forall sdu, o = Some sdu -> wf sdu /\ pos sdu = start sdu) ->
  exists mle' msgs,
    match o with None => Some (mle, []) | Some sdu => msgs ← route_prefixed_tl_sdu sdu addr ep link handle; Some (mle, msgs) end
      = Some (mle', msgs) /\ mle_effect mle p mle' msgs.
Proof.
  intros Ho Hf Ht Hs. destruct o as [sdu|].
  - destruct (route_quiet sdu addr ep link handle) as (msgs & E & _ & Hb); [by apply Hs|]. rewrite E. step.
    exists mle, msgs. split; [done|]. by apply mle_effect_same; rewrite ?Hb.
  - exists mle, []. split; [done|]. by apply mle_effect_same.
Qed.

Lemma report_effect mle h r c ch :
  mle_ok mle -> (forall h', final (TlReport h r c ch) = Some h' -> (0 < h')%Z -> is_Some (pending_data_transfers mle !! h')) ->
  let '(mle', msgs) := rx_tla_report_ind mle h r c ch in mle_effect mle (TlReport h r c ch) mle' msgs.
Proof.
  intros Ho Hk. unfold rx_tla_report_ind. destruct h as [h|]; [|by apply mle_effect_same].
  assert (Hn : final (TlReport (Some h) r c ch) = None -> forall p r' c' ch', mle_effect mle (TlReport (Some h) r c ch) mle (push_mle_report p r' c' ch')).
  { intros Hf p r' c' ch'. by apply mle_effect_same; rewrite ?push_report_bus. }
  assert (Hq : final (TlReport (Some h) r c ch) = None -> mle_effect mle (TlReport (Some h) r c ch) mle []).
  { intros Hf. by apply mle_effect_same. }
  destruct (Z.eqb_spec r TLA_REPORT_NO_SPECIFIC_REPORT) as [->|H0]; [by apply Hq|].
  destruct (Z.eqb_spec r TLA_REPORT_FIRST_COMPLETE_TRANSMISSION) as [->|H1].
  { destruct (pending_data_transfers mle !! h) as [p|]; [|by apply Hq]. destruct (pt_user p); by first [apply Hq|apply Hn]. }
  destruct (_ || _) eqn:Ef; [|apply Hq; cbn; by rewrite Ef].
  assert (Hf : final (TlReport (Some h) r c ch) = Some h) by (cbn; by rewrite Ef).
  destruct (pending_data_transfers mle !! h) as [p|] eqn:Em.
  - eapply mle_effect_final; [done|done|done|done|apply push_report_reported|apply push_report_bus].
  - eapply mle_effect_stray; try done. destruct (decide (0 < h)%Z) as [Hp|]; [|lia].
    destruct (Hk h Hf Hp) as [x Hx]. congruence.
Qed.

Lemma conf_effect mle ind h r :
  mle_ok mle -> sdu_ok ind -> ((0 < h)%Z -> is_Some (pending_data_transfers mle !! h)) ->
  exists mle' msgs, rx_tla_data_conf_bl mle ind h r = Some (mle', msgs) /\ mle_effect mle (TlDataConf ind h r) mle' msgs.
Proof.
  intros Ho Hs Hk. unfold rx_tla_data_conf_bl.
  assert (H : forall msgs, omap reported msgs = [] -> omap to_bus msgs = [] ->
    mle_effect mle (TlDataConf ind h r) (with_pending mle (delete h (pending_data_transfers mle)))
      (match pending_data_transfers mle !! h with
       | Some p => push_mle_report p r (in_chan_change_resp_req ind) (default 0%Z (in_chan_change_handle ind)) | None => [] end ++ msgs)).
  { intros msgs Hr Hb. destruct (pending_data_transfers mle !! h) as [p|] eqn:Em.
    - eapply mle_effect_final; try done; rewrite omap_app, ?Hr, ?Hb, ?push_report_reported, ?push_report_bus, ?app_nil_r; done.
    - eapply (mle_effect_stray _ _ h); try done.
      + destruct (decide (0 < h)%Z) as [Hp|]; [|lia]. destruct (Hk Hp) as [x Hx]. congruence.
      + by apply mle_ok_delete.
      + cbn. by apply delete_id. }
  destruct (in_tl_sdu ind) as [sdu|] eqn:Ei.
  - destruct (route_quiet sdu (in_main_address ind) (in_endpoint_id ind) (in_link_id ind)
      match pending_data_transfers mle !! h with Some p => pt_upper_handle p | None => todo_to_mle_handle h end) as (msgs & E & Hr & Hb);
      [by apply Hs|]. rewrite E. step. do 2 eexists. split; [done|]. by apply H.
  - do 2 eexists. split; [done|]. rewrite <- (app_nil_r (match _ with Some _ => _ | None => _ end)). by apply H.
Qed.

Lemma llc_prim_effect mle p :
  mle_ok mle -> bus_ok (ForMle p) -> (forall h, final p = Some h -> (0 < h)%Z -> is_Some (pending_data_transfers mle !! h)) ->
  exists mle' msgs, mle_rx_prim cfg mle p = Some (mle', msgs) /\ mle_effect mle p mle' msgs.
Proof.
  intros Ho Hb Hk. destruct p; cbn [mle_rx_prim]; try done.
  - by apply routed_effect.
  - apply conf_effect; [done|done|]. by apply Hk.
  - pose proof (report_effect mle req_handle report chan_change_resp_req chan_change_handle Ho Hk) as H.
    destruct (rx_tla_report_ind _ _ _ _ _) as [mle' msgs]. by exists mle', msgs.
  - by apply routed_effect.
Qed.

(** The broadcast, sent or not. *)
Lemma tick_effect mle network_time ts :
  mle_ok mle -> (Z.of_nat (size (pending_data_transfers mle)) < MAX_HANDLE)%Z -> cfg_ok cfg network_time ->
  exists mle' msgs, mle_tick_start cfg network_time mle ts = Some (mle', msgs) /\ mle_ok mle' /\ Forall bus_ok (omap to_bus msgs) /\
    (map_to_list (pending_data_transfers mle')).*1 ≡ₚ positives (omap to_bus msgs ≫= handles) ++ (map_to_list (pending_data_transfers mle)).*1 /\
    outstanding (pending_data_transfers mle') ≡ₚ outstanding (pending_data_transfers mle).
Proof.
  intros Ho Hs Hc. unfold mle_tick_start. destruct (_ && _); [|by exists mle, []].
  destruct (allocate_tla_handle_spec mle Ho Hs) as (i & E & Hfree & _). rewrite E. step.
  pose proof (candidate_bounds (next_tla_handle mle) i) as Bh. pose proof (candidate_bounds (next_tla_handle mle) (S i)) as Bn.
  set (h := candidate (next_tla_handle mle) i) in *. set (mle1 := with_handle mle _).
  assert (Ho1 : mle_ok mle1) by (by apply mle_ok_handle).
  assert (exists o b, send_broadcast cfg network_time mle1 h = Some (o, with_broadcast mle1 b) /\
    forall m, o = Some m -> exists req, m = ToLlc (PrimUnitdataReq req) /\ ur_req_handle req = h /\ wf (ur_tl_sdu req)) as (o & b & Eb & Hm).
  { unfold send_broadcast. destruct (determine_next_broadcast_type cfg mle1); [by do 2 eexists|].
    destruct (send_d_nwrk_broadcast_sends cfg network_time h Hc) as (o & Es & _ & Hm). rewrite Es. step. do 2 eexists. split; [done|].
    intros m ->. destruct (Hm m eq_refl) as (req & bs & -> & Hh & _ & Hb & _). exists req. split_and!; [done|done|apply Hb]. }
  rewrite Eb. step. assert (Hob : mle_ok (with_broadcast mle1 b)) by (by destruct Ho1).
  destruct o as [m|]; [|by do 2 eexists]. destruct (Hm m eq_refl) as (req & -> & Hh & W). do 2 eexists. split; [done|].
  split_and!.
  - by apply mle_ok_insert.
  - by constructor.
  - cbn. rewrite Hh. unfold positives. cbn. destruct (decide (0 < h)%Z); [|lia]. by rewrite map_to_list_insert_fst.
  - cbn. by rewrite outstanding_insert.
Qed.

(** ** One event, and all of them *)

(** The invariant but for handles [hs] taken from the queue. *)
Record stack_inv_but (hs : list Z) (st : stack) : Prop := {
  sb_llc : inv (st_llc st) (st_heap st);
  sb_up : up (st_llc st) [];
  sb_mle : mle_ok (st_mle st);
  sb_bus : Forall bus_ok (st_bus st);
  sb_handles : positives (hs ++ (st_bus st ≫= handles) ++ (pending (st_llc st)).*1)
                 ≡ₚ (map_to_list (pending_data_transfers (st_mle st))).*1;
  sb_log : settled (st_log st) ++ outstanding (pending_data_transfers (st_mle st)) ≡ₚ requested (st_log st)
}.

Lemma stack_inv_none st : stack_inv st -> stack_inv_but [] st.
Proof. intros []. by constructor. Qed.

Lemma stack_inv_take st n m :
  stack_inv st -> st_bus st !! n = Some m ->
  bus_ok m /\ stack_inv_but (handles m) (mkStack (st_mle st) (st_llc st) (st_heap st) (delete n (st_bus st)) (st_log st)).
Proof.
  intros [] Hm. assert (P : st_bus st ≡ₚ m :: delete n (st_bus st)) by (by apply delete_Permutation).
  set (rest := delete n (st_bus st)) in *. clearbody rest. rewrite P in si_bus0. apply Forall_cons in si_bus0 as [Hb Hr]. split; [done|]. constructor; try done. cbn.
  rewrite <- si_handles0. apply filter_Permutation. rewrite P. cbn. by rewrite app_assoc.
Qed.

Lemma give_mle_inv st p :
  stack_inv_but (option_list (final p)) st ->
  (exists mle' msgs, mle_rx_prim cfg (st_mle st) p = Some (mle', msgs) /\ mle_effect (st_mle st) p mle' msgs) ->
  exists st', give_mle st p = Some st' /\ stack_inv st'.
Proof.
  intros [] (mle' & msgs & E & [M1 M2 M3 M4]). unfold give_mle. rewrite E. step. eexists. split; [done|]. constructor; cbn; try done.
  - by apply Forall_app.
  - rewrite bind_app, <- app_assoc, (Permutation_app_comm (omap to_bus msgs ≫= handles)), app_assoc, positives_app.
    apply (Permutation_app_inv_l (positives (option_list (final p)))). rewrite M3, <- sb_handles0, !positives_app.
    rewrite (Permutation_app_comm (positives (omap _ _ ≫= _))). by rewrite !app_assoc.
  - rewrite settled_app, requested_app, <- sb_log0. cbn. rewrite app_nil_r.
    rewrite <- app_assoc, M4. destruct (tracked p ≫= report_id) as [x|]; cbn; [|by rewrite app_nil_r].
    rewrite <- Permutation_middle. symmetry. rewrite Permutation_app_comm. done.
Qed.

Lemma give_llc_inv st e :
  event_ok (st_llc st, [], st_heap st) e -> stack_inv_but (asks (st_llc st) e).*1 st ->
  exists st', give_llc st e = Some st' /\ stack_inv st'.
Proof.
  intros He []. destruct (llc_event_effect _ _ e sb_llc0 sb_up0 He) as (llc' & msgs & heap' & E & I & U & Hb & P).
  unfold give_llc. rewrite E. step. eexists. split; [done|]. constructor; cbn; try done.
  - by apply Forall_app.
  - rewrite <- sb_handles0. apply filter_Permutation. rewrite bind_app, <- app_assoc, P, !app_assoc.
    by rewrite (Permutation_app_comm (st_bus st ≫= handles)).
Qed.

Lemma deliver_event_ok st p :
  bus_ok (ForLlc p) -> receipt_own (st_llc st) (st_heap st) p -> event_ok (st_llc st, [], st_heap st) (EvPrim p).
Proof.
  intros Hb Hr. destruct p; cbn in *; try done.
  - destruct Hb as (H1 & H2 & H3). split; [done|]. by constructor.
  - destruct Hb as (H1 & H2 & H3 & _). by constructor.
Qed.

Lemma stack_step_inv st e : stack_inv st -> stack_event_ok st e -> exists st', stack_step st e = Some st' /\ stack_inv st'.
Proof.
  intros I He. destruct e as [p|nt ts|e|n]; cbn [stack_step].
  - destruct He as [Hp Hq]. pose proof (table_bounded st I Hq) as Hs.
    apply give_mle_inv; [|by apply request_effect; [apply I|..]]. destruct p; try done; by apply stack_inv_none.
  - destruct He as [Hc Hq]. pose proof (table_bounded st I Hq) as Hs.
    destruct (tick_effect (st_mle st) nt ts (si_mle _ I) Hs Hc) as (mle' & msgs & E & Ho & Hb & Hk & Ht).
    rewrite E. step. eexists. split; [done|]. destruct I. constructor; cbn; try done.
    + by apply Forall_app.
    + rewrite Hk, <- si_handles0, bind_app, <- positives_app. apply filter_Permutation. rewrite !app_assoc.
      by rewrite (Permutation_app_comm (st_bus st ≫= handles)).
    + by rewrite Ht.
  - destruct He as [He Hp]. apply give_llc_inv; [done|].
    assert (asks (st_llc st) e = []) as -> by (destruct e as [[]| | |]; done). by apply stack_inv_none.
  - destruct (st_bus st !! n) as [m|] eqn:Em; [|by exists st]. destruct (stack_inv_take st n m I Em) as [Hm Hb].
    destruct m as [p|p].
    + apply give_llc_inv; [apply deliver_event_ok; [done|by apply (He p)]|]. destruct Hb. constructor; try done.
      cbn [st_mle st_llc st_bus] in *. by rewrite positives_app, asks_positives, <- positives_app.
    + apply give_mle_inv; [done|]. apply llc_prim_effect; [apply Hb|done|]. cbn. intros h Hf Hpos.
      destruct Hb as [_ _ _ _ Hb _]. cbn in Hb.
      rewrite Hf in Hb. unfold positives in Hb. cbn in Hb. destruct (decide (0 < h)%Z); [|lia].
      assert (Hin : h ∈ (map_to_list (pending_data_transfers (st_mle st))).*1) by (rewrite <- Hb; by left).
      apply list_elem_of_fmap in Hin as ([h' q] & -> & Hin). apply elem_of_map_to_list in Hin. by eexists.
Qed.

Lemma stack_run_inv es : forall st, stack_inv st -> stack_events_ok st es -> exists st', stack_run st es = Some st' /\ stack_inv st'.
Proof.
  unfold stack_run. induction es as [|e es IH]; intros st I Hok; cbn [foldM]; [by exists st|].
  destruct Hok as [He Hok]. destruct (stack_step_inv st e I He) as (st1 & E & I1). rewrite E. step. by apply IH, Hok.
Qed.

(** C4 (layer 3 is told once).  Let requests to be acknowledged and responses be addressed to a
    station, not to a group, responses and unacknowledged requests of MM carry no handle, and each
    receipt be one request's.  Whatever such requests of MM, CMCE and SNDCP, the timeslots, the PDUs received and the reports of the MAC, and in whatever order MLE and LLC get each other's
    messages: neither of them panics, and the requests a report is due for, by user and handle, are
    exactly those reported as confirmed, successful or failed, and those still in the MLE's table.
    The table in turn has exactly the transfers that are under way: in a message to the LLC, in
    its queues, or in a final report to the MLE; so once nothing is under way every request has
    been reported, to the entity that made it and once. *)
Theorem layer3_told_once es :
  stack_events_ok stack_initial es ->
  exists st, stack_run stack_initial es = Some st /\
    settled (st_log st) ++ outstanding (pending_data_transfers (st_mle st)) ≡ₚ requested (st_log st) /\
    positives ((st_bus st ≫= handles) ++ (pending (st_llc st)).*1) ≡ₚ (map_to_list (pending_data_transfers (st_mle st))).*1 /\
    (st_bus st = [] -> pending (st_llc st) = [] -> settled (st_log st) ≡ₚ requested (st_log st)).
Proof.
  intros Hok. destruct (stack_run_inv es _ stack_inv_initial Hok) as (st & E & I). exists st. split_and!; [done|apply I|apply I|].
  intros Hb Hp. destruct I as [_ _ _ _ Hh Hl]. rewrite Hb, Hp in Hh. cbn in Hh. apply Permutation_nil_l in Hh.
  rewrite <- Hl. unfold outstanding. symmetry in Hh. apply fmap_nil_inv in Hh. rewrite Hh. cbn. by rewrite app_nil_r.
Qed.
End stack.

(** ** A short run *)

Definition no_cells : MleConfig := mkMleConfig 0 false false [].
Definition cmce_request (handle : Z) (service : Layer2Service) (sdu : list bool) : MlePrim :=
  LcmcReq (mkLcmcReq (buffer_of sdu) handle 1 0 service 0 0 false false None station None None).

(** A request of CMCE reaches the LLC, which reports that it has accepted it. *)
Definition short_stack_run : list stack_event :=
  [SRequest (cmce_request 5 L2Acknowledged [true; false; true]); SDeliver 0; SDeliver 0].

Lemma short_stack_run_ok : stack_events_ok 1 no_cells stack_initial short_stack_run.
Proof.
  split; [split; [|done]; split; [apply buffer_of_holds with (bits := [true; false; true])|done]|].
  intros st1 E1. vm_compute in E1. injection E1 as <-. split; [by intros p [= <-]|].
  intros st2 E2. vm_compute in E2. injection E2 as <-. split; [by intros p [=]|]. done.
Qed.

Lemma layer3_told_once_witness :
  exists st, stack_run 1 no_cells stack_initial short_stack_run = Some st /\
    (settled (st_log st) ++ outstanding (pending_data_transfers (st_mle st)) ≡ₚ requested no_cells (st_log st)) /\
    (positives ((st_bus st ≫= handles) ++ (pending (st_llc st)).*1) ≡ₚ (map_to_list (pending_data_transfers (st_mle st))).*1) /\
    (st_bus st = [] -> pending (st_llc st) = [] -> settled (st_log st) ≡ₚ requested no_cells (st_log st)).
Proof. apply (layer3_told_once 1 no_cells short_stack_run), short_stack_run_ok. Defined.
