(* ===== verification/MleClaims.v ===== *)
(** * Promises of the MLE

    The handles it gives to transfers, the broadcast it sends, and what becomes of the answers
    of layer 3 to acknowledged data. *)

From Stdlib Require Import ZArith Lia ZifyNat.
From stdpp Require Import gmap strings.
From S2P Require Import Prelude.
From S2P Require Import BitBuffer.
From S2P Require Import BitBufferFacts.
From S2P Require Import Codec.
From S2P Require Import Tdma.
From S2P Require Import MacFields.
From S2P Require Import Defrag.
From S2P Require Import TxReceipt.
From S2P Require Import Frag.
From S2P Require Import Typed.
From S2P Require Import MlePdus.
From S2P Require Import Llc.
From S2P Require Import LlcFacts.
From S2P Require Import LlcInv.
From S2P Require Import LlcTick.
From S2P Require Import LlcRun.
From S2P Require Import LlcUp.
From S2P Require Import Mle.
From S2P Require Import MleFacts.
From S2P Require Import MleRun.

(** ** Handles *)

Lemma candidate_succ h i : candidate h (S i) = (if candidate h i =? MAX_HANDLE then 1 else candidate h i + 1)%Z.
Proof.
  unfold candidate. replace (h - 1 + Z.of_nat (S i))%Z with (h - 1 + Z.of_nat i + 1)%Z by lia. rewrite <- Zplus_mod_idemp_l.
  pose proof (Z.mod_pos_bound (h - 1 + Z.of_nat i) MAX_HANDLE). set (x := ((h - 1 + Z.of_nat i) mod MAX_HANDLE)%Z) in *.
  destruct (Z.eqb_spec (1 + x) MAX_HANDLE) as [Hx|Hx].
  - replace (x + 1)%Z with MAX_HANDLE by lia. by rewrite Z.mod_same.
  - rewrite Z.mod_small; lia.
Qed.

(** C24 (handles).  The search for a free transfer handle ends whenever fewer than 2^31 - 1
    transfers are outstanding, within one try more than there are transfers: it returns the first
    handle from the counter on, cyclically through 1 .. 2^31 - 1, that no outstanding transfer has,
    and leaves the counter behind it and the table as it was. *)
Theorem free_handle_found self :
  mle_ok self -> (Z.of_nat (size (pending_data_transfers self)) < MAX_HANDLE)%Z ->
  exists i handle self', allocate_tla_handle self = Some (handle, self') /\ i <= size (pending_data_transfers self) /\
    handle = candidate (next_tla_handle self) i /\ (1 <= handle <= MAX_HANDLE)%Z /\
    pending_data_transfers self !! handle = None /\
    (forall j, j < i -> is_Some (pending_data_transfers self !! candidate (next_tla_handle self) j)) /\
    next_tla_handle self' = (if handle =? MAX_HANDLE then 1 else handle + 1)%Z /\
    pending_data_transfers self' = pending_data_transfers self /\ mle_ok self'.
Proof.
  intros Ho Hs. destruct (allocate_tla_handle_spec self Ho Hs) as (i & E & Hf & Hb). exists i. do 2 eexists. split; [exact E|].
  pose proof (candidate_bounds (next_tla_handle self) i). pose proof (candidate_bounds (next_tla_handle self) (S i)).
  split_and!; try done; try lia.
  - destruct (decide (i <= size (pending_data_transfers self))) as [|Hi]; [done|].
    pose proof (candidates_in_use (pending_data_transfers self) (next_tla_handle self) (S (size (pending_data_transfers self)))) as Hc.
    enough (S (size (pending_data_transfers self)) <= size (pending_data_transfers self)) by lia.
    apply Hc; [lia|]. intros j Hj. apply Hb. lia.
  - apply candidate_succ.
  - by apply mle_ok_handle.
Qed.

(** ** Broadcast *)

Definition broadcast_slot (ts : TdmaTime) : bool := ((m ts =? 20) || (m ts =? 50))%Z && (f ts =? 1)%Z && (t ts =? 1)%Z.

Lemma nothing_determined cfg network_time self :
  determine_next_broadcast_type cfg self = BroadcastNone -> announces cfg network_time = false.
Proof.
  unfold determine_next_broadcast_type, announces, broadcast_time. destruct (last_broadcast_type self); [|done].
  destruct (cfg_timezone cfg); [done|]. by destruct (negb _).
Qed.

(** A neighbour cell as it is to be announced: without packet data service, else as configured. *)
Record details_announced (d d' : BsServiceDetails) : Prop := {
  da_sndcp : bsd_sndcp_service d' = false;
  da_registration : (bsd_registration d', bsd_deregistration d') = (bsd_registration d, bsd_deregistration d);
  da_cell : (bsd_priority_cell d', bsd_no_minimum_mode d', bsd_migration d') = (bsd_priority_cell d, bsd_no_minimum_mode d, bsd_migration d);
  da_services : (bsd_system_wide_services d', bsd_voice_service d', bsd_circuit_mode_data_service d')
                  = (bsd_system_wide_services d, bsd_voice_service d, bsd_circuit_mode_data_service d);
  da_link : (bsd_aie_service d', bsd_advanced_link d') = (bsd_aie_service d, bsd_advanced_link d)
}.
Record cell_announced (c c' : NeighbourCellInformationForCa) : Prop := {
  ca_identity : (nc_cell_identifier_ca c', nc_mcc c', nc_mnc c', nc_location_area c')
                  = (nc_cell_identifier_ca c, nc_mcc c, nc_mnc c, nc_location_area c);
  ca_carrier : (nc_main_carrier_number c', nc_main_carrier_number_extension c')
                 = (nc_main_carrier_number c, nc_main_carrier_number_extension c);
  ca_timing : (nc_neighbour_cell_synchronized c', nc_tdma_frame_offset c') = (nc_neighbour_cell_synchronized c, nc_tdma_frame_offset c);
  ca_selection : (nc_cell_reselection_types_supported c', nc_cell_load_ca c', nc_subscriber_class c')
                   = (nc_cell_reselection_types_supported c, nc_cell_load_ca c, nc_subscriber_class c);
  ca_power : (nc_maximum_ms_transmit_power c', nc_minimum_rx_access_level c')
               = (nc_maximum_ms_transmit_power c, nc_minimum_rx_access_level c);
  ca_timeshare : nc_timeshare_cell_information_or_security_parameters c' = nc_timeshare_cell_information_or_security_parameters c;
  ca_details : option_Forall2 details_announced (nc_bs_service_details c) (nc_bs_service_details c')
}.

Lemma cfg_to_neighbour_announced c : cell_announced c (cfg_to_neighbour c).
Proof. constructor; try done. cbn. destruct (nc_bs_service_details c) as [d|]; constructor. by constructor. Qed.

(** C16 (broadcast).  In the first slot of frame 1 of multiframes 20 and 50 the MLE broadcasts,
    if a network time or neighbour cells are configured, exactly one D-NWRK-BROADCAST to all
    stations: what a station reads behind the MLE discriminator is the configured time and, cell by
    cell, the configured neighbours without their packet data service.  Its handle, which was free,
    is kept for the report.  With nothing to announce, and in all other slots, it sends nothing. *)
Theorem broadcast_announces_cells cfg network_time self ts :
  mle_ok self -> (Z.of_nat (size (pending_data_transfers self)) < MAX_HANDLE)%Z -> cfg_ok cfg network_time ->
  exists self' msgs, mle_tick_start cfg network_time self ts = Some (self', msgs) /\
    if broadcast_slot ts && announces cfg network_time then
      exists req bs, msgs = [ToLlc (PrimUnitdataReq req)] /\ ur_main_address req = mkAddr 0xffffff Gssi /\
        holds (ur_tl_sdu req) (val_bits 3 (discriminator_into_raw PdMle) ++ bs) /\
        (exists pdu, (forall rest, parses DNwrkBroadcast_from_bitbuf bs rest pdu) /\
           nb_tetra_network_time pdu = (if cfg_timezone cfg then network_time else None) /\
           Forall2 cell_announced (cfg_neighbor_cells_ca cfg) (nb_neighbour_cell_information_for_ca pdu)) /\
        pending_data_transfers self !! ur_req_handle req = None /\
        pending_data_transfers self' = <[ur_req_handle req := mkPending UserBroadcast 0]> (pending_data_transfers self)
    else msgs = [] /\ pending_data_transfers self' = pending_data_transfers self.
Proof.
  intros Ho Hs Hc. unfold mle_tick_start. fold (broadcast_slot ts). destruct (broadcast_slot ts); cbn [andb]; [|by exists self, []].
  destruct (allocate_tla_handle_spec self Ho Hs) as (i & E & Hfree & _). rewrite E. step. unfold send_broadcast.
  destruct (send_d_nwrk_broadcast_sends cfg network_time (candidate (next_tla_handle self) i) Hc) as (o & Eo & Ha & Hm).
  destruct (determine_next_broadcast_type _ _) eqn:Ed.
  - rewrite (nothing_determined _ network_time _ Ed). by do 2 eexists.
  - rewrite Eo, <- Ha. step. destruct o as [m|]; [|by do 2 eexists]. destruct (Hm m eq_refl) as (req & bs & -> & Hh & H1 & H2 & H3).
    do 2 eexists. split; [done|]. exists req, bs. rewrite Hh. split_and!; try done. eexists. split; [exact H3|]. split; [done|].
    apply Forall2_fmap_r, Forall_Forall2_diag, Forall_true. apply cfg_to_neighbour_announced.
Qed.

(** ** Responses *)

Lemma negative_not_found self addr endpoint_id :
  acks_negative (scheduled_out_acks self) -> take_scheduled_out_ack_for_response self addr endpoint_id 0 = None.
Proof.
  intros H. unfold take_scheduled_out_ack_for_response.
  assert (take_first (fun ack => ack_on addr endpoint_id ack && (so_ind_req_handle ack =? 0)%Z) (scheduled_out_acks self) = None) as ->;
    [|done].
  induction H as [|k l Hk _ IH]; [done|]. cbn [take_first]. bfalse (so_ind_req_handle k =? 0)%Z. rewrite andb_false_r. by rewrite IH.
Qed.

(** C32 (responses).  After any run of MLE and LLC, let layer 3 answer acknowledged data with the
    handle the MLE gave it for the indication, as a TL-DATA response.  The LLC handles of
    indications are negative and the MLE passes each of them on as 0, so the response names no
    waiting acknowledgement of the LLC, whatever the address: it is never sent together with one. *)
Theorem response_finds_no_acknowledgement main_carrier cfg es st k r :
  stack_events_ok main_carrier cfg stack_initial es -> stack_run main_carrier cfg stack_initial es = Some st ->
  k ∈ scheduled_out_acks (st_llc st) -> lm_layer2service r = L2AcknowledgedResponse ->
  lm_handle r = todo_to_mle_handle (so_ind_req_handle k) -> holds (lm_sdu r) (window (lm_sdu r)) ->
  exists resp, rx_lmm_mle_unitdata_req cfg (st_mle st) r = Some (st_mle st, [ToLlc (PrimDataResp resp)]) /\
    forall addr endpoint_id, take_scheduled_out_ack_for_response (st_llc st) addr endpoint_id (dp_req_handle resp) = None.
Proof.
  intros Hok E Hk Hr Hh Hb. destruct (stack_run_inv main_carrier cfg es _ (stack_inv_initial cfg) Hok) as (st' & E' & I).
  assert (st' = st) as -> by congruence. pose proof (up_acks _ _ (si_up _ _ I)) as Hn.
  assert (Hz : lm_handle r = 0%Z).
  { rewrite Hh. unfold todo_to_mle_handle. pose proof (proj1 (Forall_forall _ _) Hn k Hk) as Hk'. cbn in Hk'.
    by bfalse (0 <=? so_ind_req_handle k)%Z. }
  unfold rx_lmm_mle_unitdata_req. rewrite Hr. destruct (prefixed_holds PdMm _ _ Hb) as (pdu & Ep & _). rewrite Ep. step.
  eexists. split; [done|]. intros addr endpoint_id. cbn [dp_req_handle]. rewrite Hz. by apply negative_not_found.
Qed.

(** ** Examples *)

(** The last handle is followed by the first; both are taken. *)
Definition busy_mle : MleBs :=
  mkMle MAX_HANDLE (<[MAX_HANDLE := mkPending UserMm 1]> (<[1%Z := mkPending UserCmce 2]> ∅)) BroadcastNone.

Lemma busy_mle_ok : mle_ok busy_mle.
Proof. constructor; cbn; [lia|]. apply map_Forall_insert_2; [lia|]. apply map_Forall_insert_2; [lia|apply map_Forall_empty]. Defined.

Lemma free_handle_found_witness :
  exists i handle self', allocate_tla_handle busy_mle = Some (handle, self') /\ i <= size (pending_data_transfers busy_mle) /\ (1 <= handle <= MAX_HANDLE)%Z /\
    pending_data_transfers busy_mle !! handle = None.
Proof.
  destruct (free_handle_found busy_mle) as (i & handle & self' & E & Hi & _ & Hb & Hf & _); [apply busy_mle_ok|by vm_compute|].
  exists i, handle, self'. split; [exact E|]. split; [exact Hi|]. split; [exact Hb|exact Hf].
Defined.

Definition neighbour : NeighbourCellInformationForCa :=
  mkNeighbour 3 1 true 0 1520 None (Some 901%Z) (Some 9999%Z) (Some 12%Z) None None None
    (Some (mkBsServiceDetails true true false true false true true false true false false)) None None.
Definition with_cells : MleConfig := mkMleConfig 0 false true [neighbour].

Lemma with_cells_ok : cfg_ok with_cells (Some 0x123456789abc%Z).
Proof.
  constructor; cbn; [by intros ? [= <-]| |lia]. constructor; [|constructor].
  constructor; first [done | reflexivity | by intros ? [= <-]].
Defined.

Lemma broadcast_announces_cells_witness :
  exists self' msgs, mle_tick_start with_cells (Some 0x123456789abc%Z) MleBs_new (mkTime 1 1 20 0) = Some (self', msgs) /\
    exists req bs, msgs = [ToLlc (PrimUnitdataReq req)] /\ ur_main_address req = mkAddr 0xffffff Gssi /\
      holds (ur_tl_sdu req) (val_bits 3 (discriminator_into_raw PdMle) ++ bs) /\
      (exists pdu, (forall rest, parses DNwrkBroadcast_from_bitbuf bs rest pdu) /\
         nb_tetra_network_time pdu = Some 0x123456789abc%Z /\
         Forall2 cell_announced (cfg_neighbor_cells_ca with_cells) (nb_neighbour_cell_information_for_ca pdu)) /\
      pending_data_transfers MleBs_new !! ur_req_handle req = None /\
      pending_data_transfers self' = <[ur_req_handle req := mkPending UserBroadcast 0]> (pending_data_transfers MleBs_new).
Proof.
  apply (broadcast_announces_cells with_cells (Some 0x123456789abc%Z) MleBs_new (mkTime 1 1 20 0)); [apply mle_ok_new|by vm_compute|apply with_cells_ok].
Defined.

(** MM answers data that a station has sent it. *)
Definition data_received : list stack_event :=
  [SLlc (EvPrim (PrimUnitdataInd (mkTmaUnitdataInd (Some (buffer_of (data_img false None 0 (tl_sdu_img PdMm [true; false; true]))))
     station 0 1 None None 0 false None None)))].
Definition after_data : stack := default stack_initial (stack_run 1 no_cells stack_initial data_received).
Definition waiting : ScheduledOutAck := mkScheduled station (mkTime 3 18 60 65535) 0 (-1) 1 0 3.
Definition answer : LmmMleUnitdataReq :=
  mkLmmReq (buffer_of [true; true]) (todo_to_mle_handle (so_ind_req_handle waiting)) station L2AcknowledgedResponse false false None.

Lemma data_received_ok : stack_events_ok 1 no_cells stack_initial data_received.
Proof.
  split; [|intros st _; exact I]. split; [|exact I]. intros pdu Hp. cbn [ti_pdu] in Hp. apply (inj Some) in Hp as <-. pose proof (buffer_of_holds (data_img false None 0 (tl_sdu_img PdMm [true; false; true]))) as Hb.
  split; [apply Hb|]. split; [apply Hb|].
  rewrite (peek_pdu_type_img _ false 1 (val_bits 1 0 ++ tl_sdu_img PdMm [true; false; true])); [done|apply Hb|apply Hb|lia|].
  by rewrite (holds_remaining _ _ Hb).
Defined.

Lemma response_finds_no_acknowledgement_witness :
  exists st resp, stack_run 1 no_cells stack_initial data_received = Some st /\ waiting ∈ scheduled_out_acks (st_llc st) /\
    rx_lmm_mle_unitdata_req no_cells (st_mle st) answer = Some (st_mle st, [ToLlc (PrimDataResp resp)]) /\
    forall addr endpoint_id, take_scheduled_out_ack_for_response (st_llc st) addr endpoint_id (dp_req_handle resp) = None.
Proof.
  assert (E : stack_run 1 no_cells stack_initial data_received = Some after_data) by (by vm_compute).
  assert (Hk : waiting ∈ scheduled_out_acks (st_llc after_data)) by (vm_compute; left).
  destruct (response_finds_no_acknowledgement 1 no_cells data_received after_data waiting answer data_received_ok E Hk eq_refl eq_refl)
    as (resp & Er & Hr); [apply (buffer_of_holds [true; true])|].
  exists after_data, resp. split; [exact E|]. split; [exact Hk|]. split; [exact Er|exact Hr].
Defined.
