(* ===== verification/CmceIngress.v ===== *)
(** * Received call control and short data PDUs (crates/tetra-entities/src/cmce)

    The way of an uplink PDU through the CMCE of the base station up to the state machines:
    cmce_bs.rs ([rx_lcmc_mle_unitdata_ind]), cc_bs/ingress.rs, the checks and replies of
    cc_bs/shared.rs, and the entry of sds_bs.rs; and CMCE FUNCTION NOT SUPPORTED
    (cmce_function_not_supported.rs), the reply to what is not supported.

    What a state machine is called with is a value of [CmceIngress]; [None] is a panic. *)

From Stdlib Require Import ZArith Lia ZifyNat.
From stdpp Require Import gmap strings.
From S2P Require Import Prelude.
From S2P Require Import BitBuffer.
From S2P Require Import BitBufferFacts.
From S2P Require Import Codec.
From S2P Require Import MacFields.
From S2P Require Import MacPdus.
From S2P Require Import Robust.
From S2P Require Import Circuits.
From S2P Require Import TxReceipt.
From S2P Require Import Frag.
From S2P Require Import Typed.
From S2P Require Import CmceFields.
From S2P Require Import SdsCodec.
From S2P Require Import CmceUl.
From S2P Require Import CmceDl.
From S2P Require Import Llc.
From S2P Require Import Mle.

(** ** PDU types *)

Inductive CmcePduTypeUl :=
  | UlAlert | UlConnect | UlDisconnect | UlInfo | UlRelease | UlSetup | UlStatus | UlTxCeased | UlTxDemand | UlCallRestore
  | UlSdsData | UlFacility | UlFunctionNotSupported.
Definition CmcePduTypeUl_into_raw (x : CmcePduTypeUl) : Z :=
  match x with
  | UlAlert => 0 | UlConnect => 2 | UlDisconnect => 4 | UlInfo => 5 | UlRelease => 6 | UlSetup => 7 | UlStatus => 8
  | UlTxCeased => 9 | UlTxDemand => 10 | UlCallRestore => 14 | UlSdsData => 15 | UlFacility => 16 | UlFunctionNotSupported => 31
  end.
Definition CmcePduTypeUl_try_from (raw : Z) : option CmcePduTypeUl :=
  match u8 raw with
  | 0 => Some UlAlert | 2 => Some UlConnect | 4 => Some UlDisconnect | 5 => Some UlInfo | 6 => Some UlRelease
  | 7 => Some UlSetup | 8 => Some UlStatus | 9 => Some UlTxCeased | 10 => Some UlTxDemand | 14 => Some UlCallRestore
  | 15 => Some UlSdsData | 16 => Some UlFacility | 31 => Some UlFunctionNotSupported | _ => None
  end%Z.

(** Of the downlink types, those that matter for the priority. *)
Definition D_TX_CEASED : Z := 9.
Definition D_TX_GRANTED : Z := 11.
Definition D_TX_INTERRUPT : Z := 13.

(** ** CMCE FUNCTION NOT SUPPORTED *)

Record CmceFunctionNotSupported := mkFns {
  fns_not_supported_pdu_type : Z;
  fns_call_identifier_present : bool;
  fns_call_identifier : option Z;
  fns_function_not_supported_pointer : Z;
  fns_length_of_received_pdu_extract : option Z;
  fns_received_pdu_extract : option BitBuffer
}.

(** The extract of [len_bits] bits: [let mut extract = BitBuffer::new_autoexpand(len_bits);
    extract.copy_bits(buffer, len_bits); extract.seek(0)], if they are there. *)
Definition read_extract (len_bits : nat) : M BitBuffer := fun buffer =>
  if get_len_remaining buffer <? len_bits then Err (BufferEnded (Some "received_pdu_extract")) buffer
  else
    match copy_bits len_bits (new_autoexpand len_bits) buffer with
    | Ok _ (extract, buffer) => match seek 0 extract with Ok _ extract => Ok extract buffer | _ => Panic end
    | _ => Panic
    end.

Definition Fns_from_bitbuf : M CmceFunctionNotSupported :=
  expect_pdu_type 5 31;;
  not_supported_pdu_type ← read_u8 5 "not_supported_pdu_type";
  call_identifier_present ← read_flag "call_identifier_present";
  call_identifier ← read_if call_identifier_present 14 "call_identifier";
  function_not_supported_pointer ← read_u8 8 "function_not_supported_pointer";
  length_of_received_pdu_extract ← read_if (negb (function_not_supported_pointer =? 0)%Z) 8 "length_of_received_pdu_extract";
  received_pdu_extract ←
    (if negb (function_not_supported_pointer =? 0)%Z then
       extract ← read_extract (Z.to_nat (default 0%Z length_of_received_pdu_extract)); mret (Some extract)
     else mret None);
  obit ← read_obit;
  read_trailing obit;;
  mret (mkFns not_supported_pdu_type call_identifier_present call_identifier function_not_supported_pointer
          length_of_received_pdu_extract received_pdu_extract).

(** The checks at the beginning of [to_bitbuf]. *)
Definition Fns_check (self : CmceFunctionNotSupported) : unit + PduParseErr :=
  let pointer := fns_function_not_supported_pointer self in
  if negb (Bool.eqb (fns_call_identifier_present self) (is_some (fns_call_identifier self)))
  then inr (Inconsistency "call_identifier" "presence flag and optional field disagree")
  else if (pointer =? 0)%Z && (is_some (fns_length_of_received_pdu_extract self) || is_some (fns_received_pdu_extract self))
  then inr (Inconsistency "received_pdu_extract" "extract fields are present while pointer is zero")
  else if negb (pointer =? 0)%Z && negb (is_some (fns_received_pdu_extract self))
  then inr (Inconsistency "received_pdu_extract" "extract is required when pointer is non-zero")
  else
    match get_len <$> fns_received_pdu_extract self with
    | None => inl tt
    | Some len =>
        if 255 <? len then inr (InvalidValue "length_of_received_pdu_extract" (Z.of_nat len))
        else
          match fns_length_of_received_pdu_extract self with
          | Some declared_len =>
              if negb (Z.to_nat declared_len =? len) then inr (InconsistentLength (Z.to_nat declared_len) len) else inl tt
          | None => inl tt
          end
    end.

(** [buffer.copy_bits(&mut extract, extract.get_len())] on a rewound copy *)
Definition write_extract (extract : BitBuffer) : M unit := fun buffer =>
  match seek 0 extract with
  | Ok _ extract => match copy_bits (get_len extract) buffer extract with Ok _ (buffer, _) => Ok tt buffer | _ => Panic end
  | _ => Panic
  end.

Definition Fns_to_bitbuf (self : CmceFunctionNotSupported) : M unit :=
  validated (Fns_check self) (
    write_bits 31 5;;
    write_bits (fns_not_supported_pdu_type self) 5;;
    write_bits (b2z (fns_call_identifier_present self)) 1;;
    write_some (fun v => write_bits v 14) (fns_call_identifier self);;
    write_bits (fns_function_not_supported_pointer self) 8;;
    (if negb (fns_function_not_supported_pointer self =? 0)%Z then
       match get_len <$> fns_received_pdu_extract self with
       | Some len => write_bits (Z.of_nat len) 8
       | None => fun _ => Panic
       end
     else mret tt);;
    write_some write_extract (fns_received_pdu_extract self);;
    write_mbit 0).

(** ** Replies *)

Definition CMCE_FLOOR_CONTROL_PDU_PRIO : Z := 7.

(** [None]: the probe panics. *)
Definition cmce_downlink_pdu_prio (sdu : BitBuffer) : option Z :=
  probe ← from_bitbuffer sdu;
  match read_field 5 "cmce_pdu_type_dl" probe with
  | Panic => None
  | Err _ _ => Some 0%Z
  | Ok bits _ =>
      if (bits =? D_TX_CEASED)%Z || (bits =? D_TX_INTERRUPT)%Z then Some CMCE_FLOOR_CONTROL_PDU_PRIO
      else if (bits =? D_TX_GRANTED)%Z then
        grant_probe ← from_bitbuffer sdu;
        match DTxGranted_from_bitbuf grant_probe with
        | Panic => None
        | Err _ _ => Some 0%Z
        | Ok grant _ =>
            match TransmissionGrant_try_from (dtg_transmission_grant grant) with
            | Some (TgGranted | TgGrantedToOtherUser) => Some CMCE_FLOOR_CONTROL_PDU_PRIO
            | _ => Some 0%Z
            end
        end
      else Some 0%Z
  end.

Definition build_sapmsg_direct (sdu : BitBuffer) (address : TetraAddress) (handle link_id endpoint_id : Z) : option LcmcMleUnitdataReq :=
  pdu_prio ← cmce_downlink_pdu_prio sdu;
  Some (mkLcmcReq sdu handle endpoint_id link_id L2Unacknowledged pdu_prio 0 false false None address None None).

(** [to_bitbuf(&mut sdu).expect(..)] and [sdu.seek(0)] *)
Definition serialized (pdu : M unit) (room : nat) : option BitBuffer :=
  '(_, sdu) ← run pdu (new_autoexpand room);
  '(_, sdu) ← run (seek 0) sdu;
  Some sdu.

Definition whole_pdu_not_supported (unsupported_pdu_type : CmcePduTypeUl) : CmceFunctionNotSupported :=
  mkFns (u8 (CmcePduTypeUl_into_raw unsupported_pdu_type)) false None 0 None None.

Definition build_cmce_function_not_supported_direct (unsupported_pdu_type : CmcePduTypeUl) (target : TetraAddress)
  (handle link_id endpoint_id : Z) : option LcmcMleUnitdataReq :=
  sdu ← serialized (Fns_to_bitbuf (whole_pdu_not_supported unsupported_pdu_type)) 32;
  build_sapmsg_direct sdu target handle link_id endpoint_id.

Definition build_cmce_function_not_supported_element_direct (unsupported_pdu_type : CmcePduTypeUl) (call_identifier : Z)
  (function_not_supported_pointer : Z) (received_pdu : BitBuffer) (target : TetraAddress) (handle link_id endpoint_id : Z)
  : option LcmcMleUnitdataReq :=
  '(_, received) ← run (seek 5) received_pdu;
  let extract_len := get_len_remaining received in
  '(received_pdu_extract, _) ← copy extract_len (new_autoexpand extract_len) received;
  '(_, received_pdu_extract) ← run (seek 0) received_pdu_extract;
  let pdu := mkFns (u8 (CmcePduTypeUl_into_raw unsupported_pdu_type)) true (Some call_identifier) function_not_supported_pointer
    (Some (Z.of_nat extract_len)) (Some received_pdu_extract) in
  sdu ← serialized (Fns_to_bitbuf pdu) (64 + extract_len);
  build_sapmsg_direct sdu target handle link_id endpoint_id.

(** The reply of the short data service: acknowledged, and of priority 0. *)
Definition sds_build_cmce_function_not_supported_direct (unsupported_pdu_type : CmcePduTypeUl) (target : TetraAddress)
  (handle link_id endpoint_id : Z) : option LcmcMleUnitdataReq :=
  sdu ← serialized (Fns_to_bitbuf (whole_pdu_not_supported unsupported_pdu_type)) 32;
  Some (mkLcmcReq sdu handle endpoint_id link_id L2Acknowledged 0 0 false false None target None None).

(** ** What is not supported *)

Definition basic_service_information_matches (a b : BasicServiceInformation) : bool :=
  bool_decide (bsi_circuit_mode_type a = bsi_circuit_mode_type b)
  && Bool.eqb (bsi_encryption_flag a) (bsi_encryption_flag b)
  && bool_decide (bsi_communication_type a = bsi_communication_type b)
  && bool_decide (bsi_slots_per_frame a = bsi_slots_per_frame b)
  && bool_decide (bsi_speech_service a = bsi_speech_service b).

(** An offered basic service other than the one requested. *)
Definition offer_refused (offered requested : option BasicServiceInformation) : bool :=
  match offered with
  | Some offered => negb (match requested with Some requested => basic_service_information_matches offered requested | None => false end)
  | None => false
  end.

(** The pointers, without the texts for the log. *)
Definition unsupported_u_alert_function (pdu : UAlert) (requested_basic_service : option BasicServiceInformation) : option Z :=
  if negb (ual_reserved pdu) then Some 14%Z
  else if offer_refused (ual_basic_service_information pdu) requested_basic_service then Some 17%Z
  else if is_some (ual_facility pdu) then Some 18%Z
  else if is_some (ual_proprietary pdu) then Some 18%Z
  else None.
Definition unsupported_u_disconnect_function (pdu : UDisconnect) : option Z :=
  if is_some (udc_facility pdu) then Some 20%Z else if is_some (udc_proprietary pdu) then Some 20%Z else None.
Definition unsupported_u_info_function (pdu : UInfo) : option Z :=
  if is_some (uin_modify pdu) then Some 16%Z
  else if is_some (uin_facility pdu) then Some 17%Z
  else if is_some (uin_proprietary pdu) then Some 17%Z
  else None.
Definition unsupported_u_release_function (pdu : URelease) : option Z :=
  if is_some (url_facility pdu) then Some 20%Z else if is_some (url_proprietary pdu) then Some 20%Z else None.
Definition unsupported_u_tx_demand_function (pdu : UTxDemand) : option Z :=
  if utd_encryption_control pdu then Some 16%Z
  else if utd_reserved pdu then Some 17%Z
  else if is_some (utd_facility pdu) then Some 19%Z
  else if is_some (utd_dm_ms_address pdu) then Some 19%Z
  else if is_some (utd_proprietary pdu) then Some 19%Z
  else None.

Definition MAX_AIR_INTERFACE_SSI : Z := 0xffffff.

Definition feature_check_called_party_address (local_mni : Z) (called_party_type_identifier : PartyTypeIdentifier)
  (called_party_short_number_address called_party_ssi called_party_extension : option Z)
  (external_subscriber_number_present dm_ms_address_present : bool) : bool :=
  match called_party_type_identifier with
  | PtiSna => false
  | PtiSsi => negb (is_some called_party_short_number_address) && negb (is_some called_party_extension) && is_some called_party_ssi
  | PtiTsi =>
      negb (is_some called_party_short_number_address) && is_some called_party_ssi
      && match called_party_extension with Some extension => (extension =? local_mni)%Z | None => false end
  | PtiReserved => false
  end
  && match called_party_ssi with Some ssi => (ssi <=? MAX_AIR_INTERFACE_SSI)%Z | None => true end
  && negb external_subscriber_number_present && negb dm_ms_address_present.
Definition feature_check_u_sds_data (local_mni : Z) (pdu : USdsData) : bool :=
  feature_check_called_party_address local_mni (usd_called_party_type_identifier pdu) (usd_called_party_short_number_address pdu)
    (usd_called_party_ssi pdu) (usd_called_party_extension pdu) (is_some (usd_external_subscriber_number pdu))
    (is_some (usd_dm_ms_address pdu)).
Definition feature_check_u_status (local_mni : Z) (pdu : UStatus) : bool :=
  feature_check_called_party_address local_mni (ust_called_party_type_identifier pdu) (ust_called_party_short_number_address pdu)
    (ust_called_party_ssi pdu) (ust_called_party_extension pdu) (is_some (ust_external_subscriber_number pdu))
    (is_some (ust_dm_ms_address pdu)).

(** ** Reception *)

(** Logged and dropped, answered, or handed to a state machine. *)
Inductive CmceIngress :=
  | Dropped
  | Answered (reply : LcmcMleUnitdataReq)
  | OnUSetup (prim : LcmcMleUnitdataInd) (pdu : USetup)
  | OnUTxCeased (sender : TetraAddress) (pdu : UTxCeased)
  | OnUTxDemand (requesting_party : TetraAddress) (handle link_id endpoint_id : Z) (pdu : UTxDemand)
  | OnURelease (sender : TetraAddress) (handle link_id endpoint_id : Z) (pdu : URelease)
  | OnUDisconnect (sender : TetraAddress) (handle link_id endpoint_id : Z) (pdu : UDisconnect)
  | OnUAlert (sender : TetraAddress) (handle link_id endpoint_id : Z) (pdu : UAlert)
  | OnUConnect (sender : TetraAddress) (handle link_id endpoint_id : Z) (pdu : UConnect) (received_pdu : BitBuffer)
  | OnUInfo (pdu : UInfo)
  | OnUStatus (source_ssi dest_ssi : Z) (pdu : UStatus)
  | OnUSdsData (source_ssi dest_ssi : Z) (pdu : USdsData).

(** What the ingress reads of the rest of the entity: the basic service of a cached set-up,
    the registered subscribers and the local network. *)
Record CmceContext := mkCmceContext {
  cached_setup_basic_service : Z -> option BasicServiceInformation;
  is_registered : Z -> bool;
  cfg_mcc : Z;
  cfg_mnc : Z
}.
Definition local_mni (ctx : CmceContext) : Z := Z.lor (Z.shiftl (cfg_mcc ctx) 14) (cfg_mnc ctx).

(** [match X::from_bitbuf(&mut prim.sdu) { Ok(pdu) => .., Err(e) => { log; return } }] *)
Definition parsed {T} (from_bitbuf : M T) (sdu : BitBuffer) (k : T -> option CmceIngress) : option CmceIngress :=
  match from_bitbuf sdu with Ok pdu _ => k pdu | Err _ _ => Some Dropped | Panic => None end.

(** An unsupported element is answered with a pointer to it, otherwise the PDU goes on. *)
Definition reject_or (ty : CmcePduTypeUl) (call_identifier : Z) (unsupported : option Z) (prim : LcmcMleUnitdataInd)
  (k : CmceIngress) : option CmceIngress :=
  match unsupported with
  | Some pointer =>
      Answered <$> build_cmce_function_not_supported_element_direct ty call_identifier pointer (ci_sdu prim)
        (ci_received_tetra_address prim) (ci_handle prim) (ci_link_id prim) (ci_endpoint_id prim)
  | None => Some k
  end.

Definition rx_u_setup (prim : LcmcMleUnitdataInd) : option CmceIngress :=
  parsed USetup_from_bitbuf (ci_sdu prim) (fun pdu => Some (OnUSetup prim pdu)).
Definition rx_u_tx_ceased (prim : LcmcMleUnitdataInd) : option CmceIngress :=
  parsed UTxCeased_from_bitbuf (ci_sdu prim) (fun pdu => Some (OnUTxCeased (ci_received_tetra_address prim) pdu)).
Definition rx_u_tx_demand (prim : LcmcMleUnitdataInd) : option CmceIngress :=
  parsed UTxDemand_from_bitbuf (ci_sdu prim) (fun pdu =>
    reject_or UlTxDemand (utd_call_identifier pdu) (unsupported_u_tx_demand_function pdu) prim
      (OnUTxDemand (ci_received_tetra_address prim) (ci_handle prim) (ci_link_id prim) (ci_endpoint_id prim) pdu)).
Definition rx_u_release (prim : LcmcMleUnitdataInd) : option CmceIngress :=
  parsed URelease_from_bitbuf (ci_sdu prim) (fun pdu =>
    reject_or UlRelease (url_call_identifier pdu) (unsupported_u_release_function pdu) prim
      (OnURelease (ci_received_tetra_address prim) (ci_handle prim) (ci_link_id prim) (ci_endpoint_id prim) pdu)).
Definition rx_u_disconnect (prim : LcmcMleUnitdataInd) : option CmceIngress :=
  parsed UDisconnect_from_bitbuf (ci_sdu prim) (fun pdu =>
    reject_or UlDisconnect (udc_call_identifier pdu) (unsupported_u_disconnect_function pdu) prim
      (OnUDisconnect (ci_received_tetra_address prim) (ci_handle prim) (ci_link_id prim) (ci_endpoint_id prim) pdu)).
Definition rx_u_alert (ctx : CmceContext) (prim : LcmcMleUnitdataInd) : option CmceIngress :=
  parsed UAlert_from_bitbuf (ci_sdu prim) (fun pdu =>
    reject_or UlAlert (ual_call_identifier pdu)
      (unsupported_u_alert_function pdu (cached_setup_basic_service ctx (ual_call_identifier pdu))) prim
      (OnUAlert (ci_received_tetra_address prim) (ci_handle prim) (ci_link_id prim) (ci_endpoint_id prim) pdu)).
Definition rx_u_connect (prim : LcmcMleUnitdataInd) : option CmceIngress :=
  parsed UConnect_from_bitbuf (ci_sdu prim) (fun pdu =>
    Some (OnUConnect (ci_received_tetra_address prim) (ci_handle prim) (ci_link_id prim) (ci_endpoint_id prim) pdu (ci_sdu prim))).
Definition rx_u_info (prim : LcmcMleUnitdataInd) : option CmceIngress :=
  parsed UInfo_from_bitbuf (ci_sdu prim) (fun pdu =>
    reject_or UlInfo (uin_call_identifier pdu) (unsupported_u_info_function pdu) prim (OnUInfo pdu)).

(** [sdu.peek_bits(5)] as a PDU type; the outer [option] is a panic. *)
Definition peek_type (sdu : BitBuffer) : option (option CmcePduTypeUl) :=
  bits ← peek_bits sdu 5;
  Some (bits ≫= CmcePduTypeUl_try_from).

Definition route_xx_deliver (ctx : CmceContext) (prim : LcmcMleUnitdataInd) : option CmceIngress :=
  pdu_type ← peek_type (ci_sdu prim);
  match pdu_type with
  | None => Some Dropped
  | Some UlSetup => rx_u_setup prim
  | Some UlTxCeased => rx_u_tx_ceased prim
  | Some UlTxDemand => rx_u_tx_demand prim
  | Some UlRelease => rx_u_release prim
  | Some UlDisconnect => rx_u_disconnect prim
  | Some UlAlert => rx_u_alert ctx prim
  | Some UlConnect => rx_u_connect prim
  | Some UlInfo => rx_u_info prim
  | Some UlCallRestore =>
      Answered <$> build_cmce_function_not_supported_direct UlCallRestore (ci_received_tetra_address prim) (ci_handle prim)
        (ci_link_id prim) (ci_endpoint_id prim)
  | Some (UlStatus | UlSdsData | UlFacility | UlFunctionNotSupported) => Some Dropped
  end.

Definition rf_calling_party_issi (address : TetraAddress) : option Z :=
  if negb (bool_decide (ssi_type address = Issi)) || negb (ssi address <=? MAX_AIR_INTERFACE_SSI)%Z then None else Some (ssi address).
Definition registered_rf_calling_party_issi (ctx : CmceContext) (address : TetraAddress) : option Z :=
  source_issi ← rf_calling_party_issi address;
  if is_registered ctx source_issi then Some source_issi else None.

(** Up to the destination of the message. *)
Definition route_status_deliver (ctx : CmceContext) (prim : LcmcMleUnitdataInd) : option CmceIngress :=
  match registered_rf_calling_party_issi ctx (ci_received_tetra_address prim) with
  | None => Some Dropped
  | Some source_ssi =>
      parsed UStatus_from_bitbuf (ci_sdu prim) (fun pdu =>
        if negb (feature_check_u_status (local_mni ctx) pdu) then
          Answered <$> sds_build_cmce_function_not_supported_direct UlStatus (ci_received_tetra_address prim) (ci_handle prim)
            (ci_link_id prim) (ci_endpoint_id prim)
        else
          match ust_called_party_ssi pdu with
          | None => Some Dropped
          | Some dest_ssi_raw => Some (OnUStatus source_ssi (u32 dest_ssi_raw) pdu)
          end)
  end.
Definition route_rf_deliver_with_busy (ctx : CmceContext) (prim : LcmcMleUnitdataInd) : option CmceIngress :=
  match registered_rf_calling_party_issi ctx (ci_received_tetra_address prim) with
  | None => Some Dropped
  | Some source_ssi =>
      parsed USdsData_from_bitbuf (ci_sdu prim) (fun pdu =>
        if negb (feature_check_u_sds_data (local_mni ctx) pdu) then
          Answered <$> sds_build_cmce_function_not_supported_direct UlSdsData (ci_received_tetra_address prim) (ci_handle prim)
            (ci_link_id prim) (ci_endpoint_id prim)
        else
          match usd_called_party_ssi pdu with
          | None => Some Dropped
          | Some dest_ssi_raw => Some (OnUSdsData source_ssi (u32 dest_ssi_raw) pdu)
          end)
  end.

Definition rx_lcmc_mle_unitdata_ind (ctx : CmceContext) (prim : LcmcMleUnitdataInd) : option CmceIngress :=
  pdu_type ← peek_type (ci_sdu prim);
  match pdu_type with
  | None => Some Dropped
  | Some (UlAlert | UlConnect | UlDisconnect | UlInfo | UlRelease | UlSetup | UlTxCeased | UlTxDemand | UlCallRestore) =>
      route_xx_deliver ctx prim
  | Some UlStatus => route_status_deliver ctx prim
  | Some UlSdsData => route_rf_deliver_with_busy ctx prim
  | Some UlFacility =>
      Answered <$> build_cmce_function_not_supported_direct UlFacility (ci_received_tetra_address prim) (ci_handle prim)
        (ci_link_id prim) (ci_endpoint_id prim)
  | Some UlFunctionNotSupported => Some Dropped
  end.
