(* ===== verification/CmceReceive.v ===== *)
(** * Reception of call control and short data PDUs

    What a mobile sends through the MLE reaches the state machine for its type unchanged, or
    is answered with CMCE FUNCTION NOT SUPPORTED; and what makes the reception panic. *)

From Stdlib Require Import ZArith Lia ZifyNat.
From stdpp Require Import gmap strings.
From S2P Require Import Prelude.
From S2P Require Import BitBuffer.
From S2P Require Import BitBufferFacts.
From S2P Require Import Codec.
From S2P Require Import MacFields.
From S2P Require Import MacPdus.
From S2P Require Import Robust.
From S2P Require Import Circuits.
From S2P Require Import TxReceipt.
From S2P Require Import Frag.
From S2P Require Import Typed.
From S2P Require Import CmceFields.
From S2P Require Import SdsCodec.
From S2P Require Import CmceUl.
From S2P Require Import CmceDl.
From S2P Require Import Llc.
From S2P Require Import LlcFacts.
From S2P Require Import Mle.
From S2P Require Import MleFacts.
From S2P Require Import CmceIngress.

(** ** CMCE FUNCTION NOT SUPPORTED *)

(** The extract, by its bits. *)
Definition extract_is (o : option BitBuffer) (bits : option (list bool)) : Prop :=
  match o, bits with Some e, Some bs => wf e /\ window e = bs | None, None => True | _, _ => False end.

Record fns_ok (x : CmceFunctionNotSupported) (bits : option (list bool)) : Prop := {
  fo_type : (0 <= fns_not_supported_pdu_type x < 2 ^ 5)%Z;
  fo_call : option_all (fun v => 0 <= v < 2 ^ 14)%Z (fns_call_identifier x);
  fo_pointer : (0 <= fns_function_not_supported_pointer x < 2 ^ 8)%Z;
  fo_extract : extract_is (fns_received_pdu_extract x) bits;
  fo_length : fns_length_of_received_pdu_extract x = Z.of_nat ∘ length <$> bits;
  fo_valid : Fns_check x = inl tt
}.
Definition with_extract (x : CmceFunctionNotSupported) (o : option BitBuffer) : CmceFunctionNotSupported :=
  mkFns (fns_not_supported_pdu_type x) (fns_call_identifier_present x) (fns_call_identifier x)
    (fns_function_not_supported_pointer x) (fns_length_of_received_pdu_extract x) o.

Definition fns_img (x : CmceFunctionNotSupported) (bits : option (list bool)) : list bool :=
  val_bits 5 31 ++ val_bits 5 (fns_not_supported_pdu_type x) ++ img_bool (fns_call_identifier_present x) ++
  from_option (val_bits 14) [] (fns_call_identifier x) ++ val_bits 8 (fns_function_not_supported_pointer x) ++
  from_option (fun bs => val_bits 8 (Z.of_nat (length bs))) [] bits ++ default [] bits ++ [false].

Lemma seek0_wf b : wf b -> seek 0 b = Ok tt (with_pos b (start b)) /\ holds (with_pos b (start b)) (window b).
Proof.
  intros W. pose proof W as [Wb Ws Wp We]. unfold seek. rewrite Nat.add_0_r. btrue (start b <=? end_ b). split; [done|].
  constructor; [apply wf_with_pos; [done|lia]|done|done].
Qed.

Lemma write_extract_emits e bs : wf e -> window e = bs -> emits (write_extract e) tt bs.
Proof.
  intros W <- b Wb R. unfold write_extract. destruct (seek0_wf e W) as [-> Hh].
  destruct (copy_bits_spec b (with_pos e (start e)) (window e) []) as (b' & E & Wr); [done|apply Hh| |done|].
  { rewrite app_nil_r. by apply holds_remaining. }
  change (get_len (with_pos e (start e))) with (get_len e).
  assert (get_len e = length (window e)) as -> by (by rewrite <- (holds_len _ _ Hh)).
  rewrite E. by exists b'.
Qed.

Lemma read_extract_parses bs rest : exists e, holds e bs /\ parses (read_extract (length bs)) bs rest e.
Proof.
  pose proof (written_new (length bs)) as Wn.
  destruct (copy_bits_uniform (new_autoexpand (length bs)) bs rest (wf_new_autoexpand _) (written_room _ _ _ Wn)) as (e & Wr & H).
  destruct (written_holds _ _ (written_app _ _ _ _ Wn Wr)) as [Es Hb]. exists (with_pos e 0). split; [exact Hb|].
  intros b W R. unfold read_extract, get_len_remaining.
  rewrite <- length_remaining, R, length_app. bfalse (length bs + length rest <? length bs).
  rewrite (H b W R). unfold run in Es. destruct (seek 0 e); try done. by injection Es as -> ->.
Qed.

Lemma Fns_emits x bits : fns_ok x bits -> emits (Fns_to_bitbuf x) tt (fns_img x bits).
Proof.
  intros [Ht Hc Hp He Hl Hv]. unfold Fns_to_bitbuf, fns_img. rewrite Hv. cbn [validated].
  assert (Hlen : forall e bs, fns_received_pdu_extract x = Some e -> bits = Some bs -> wf e /\ window e = bs /\
    fns_function_not_supported_pointer x <> 0%Z /\ get_len e = length bs /\ (Z.of_nat (length bs) < 2 ^ 8)%Z).
  { intros e bs Ee ->. rewrite Ee in He. destruct He as [We Wb]. unfold Fns_check in Hv. rewrite Ee, Hl in Hv. cbn in Hv.
    assert (Hg : get_len e = length bs) by (rewrite <- Wb; unfold get_len, window; by rewrite length_getbits).
    rewrite Hg in Hv. destruct (negb (Bool.eqb _ _)); [done|].
    destruct (Z.eqb_spec (fns_function_not_supported_pointer x) 0); [done|]. cbn in Hv.
    destruct (Nat.ltb_spec 255 (length bs)); [done|]. split_and!; try done. lia. }
  assert (Hnone : fns_received_pdu_extract x = None -> fns_function_not_supported_pointer x = 0%Z /\ bits = None).
  { intros Ee. rewrite Ee in He. destruct bits; [done|]. split; [|done]. unfold Fns_check in Hv. rewrite Ee, Hl in Hv. cbn in Hv.
    destruct (negb (Bool.eqb _ _)); [done|]. rewrite andb_false_r, andb_true_r in Hv.
    by destruct (Z.eqb_spec (fns_function_not_supported_pointer x) 0). }
  do 3 (eapply emits_bind_tt; [emit_field|]).
  eapply emits_bind_tt.
  { destruct (fns_call_identifier x) as [v|]; [|apply emits_ret]. cbn. apply write_bits_emits; [by apply Hc|lia]. }
  eapply emits_bind_tt; [emit_field|].
  destruct (fns_received_pdu_extract x) as [e|] eqn:Ee.
  - destruct bits as [bs|]; [|done]. destruct (Hlen e bs eq_refl eq_refl) as (We & Wb & Hp0 & Hg & Hb).
    rewrite (proj2 (Z.eqb_neq _ _) Hp0). cbn [negb fmap option_fmap option_map from_option default]. rewrite Hg.
    eapply emits_bind_tt; [apply write_bits_emits; lia|].
    eapply emits_bind_tt; [by apply write_extract_emits|apply (write_delimiter_emits false)].
  - destruct (Hnone eq_refl) as [-> ->]. cbn [negb Z.eqb from_option default app].
    rewrite <- (app_nil_l [false]). eapply emits_bind_tt; [apply emits_ret|].
    rewrite <- (app_nil_l [false]). eapply emits_bind_tt; [apply emits_ret|apply (write_delimiter_emits false)].
Qed.

Lemma Fns_parses x bits rest :
  fns_ok x bits -> exists e, extract_is e bits /\ parses Fns_from_bitbuf (fns_img x bits) rest (with_extract x e).
Proof.
  intros [Ht Hc Hp He Hl Hv]. unfold Fns_from_bitbuf, fns_img, with_extract.
  assert (Hpres : fns_call_identifier_present x = is_some (fns_call_identifier x)).
  { unfold Fns_check in Hv. destruct (Bool.eqb_spec (fns_call_identifier_present x) (is_some (fns_call_identifier x))); done. }
  assert (exists e, extract_is e bits /\ parses
    (length_of_received_pdu_extract ← read_if (negb (fns_function_not_supported_pointer x =? 0)%Z) 8 "length_of_received_pdu_extract";
     received_pdu_extract ←
       (if negb (fns_function_not_supported_pointer x =? 0)%Z then
          extract ← read_extract (Z.to_nat (default 0%Z length_of_received_pdu_extract)); mret (Some extract)
        else mret None);
     obit ← read_obit; read_trailing obit;;
     mret (mkFns (fns_not_supported_pdu_type x) (fns_call_identifier_present x) (fns_call_identifier x)
             (fns_function_not_supported_pointer x) length_of_received_pdu_extract received_pdu_extract))
    (from_option (fun bs => val_bits 8 (Z.of_nat (length bs))) [] bits ++ default [] bits ++ [false]) rest
    (mkFns (fns_not_supported_pdu_type x) (fns_call_identifier_present x) (fns_call_identifier x)
       (fns_function_not_supported_pointer x) (fns_length_of_received_pdu_extract x) e)) as (e & Hx & HP).
  { destruct bits as [bs|]; cbn [from_option default].
    - destruct (fns_received_pdu_extract x) as [e0|] eqn:Ee; [|done]. destruct He as [We Wb].
      assert (Hg : get_len e0 = length bs) by (rewrite <- Wb; unfold get_len, window; by rewrite length_getbits).
      unfold Fns_check in Hv. rewrite Ee, Hl in Hv. cbn in Hv. rewrite Hg in Hv. destruct (negb (Bool.eqb _ _)); [done|].
      destruct (Z.eqb_spec (fns_function_not_supported_pointer x) 0); [done|]. cbn in Hv.
      destruct (Nat.ltb_spec 255 (length bs)); [done|].
      destruct (read_extract_parses bs ([false] ++ rest)) as (e & Hh & He). exists (Some e).
      split; [split; [apply Hh|by rewrite <- (ho_window _ _ Hh)]|]. cbn [negb]. rewrite Hl. cbn.
      eapply parses_bind; [apply read_if_parses; lia|]. cbv beta. eapply parses_bind; [|apply plain_end].
      cbn. rewrite Nat2Z.id. by apply (parses_fmap _ Some).
    - destruct (fns_received_pdu_extract x) eqn:Ee; [done|]. exists None. split; [done|]. rewrite Hl. cbn.
      assert (fns_function_not_supported_pointer x = 0%Z) as ->.
      { unfold Fns_check in Hv. rewrite Ee, Hl in Hv. cbn in Hv. destruct (negb (Bool.eqb _ _)); [done|].
        rewrite andb_false_r, andb_true_r in Hv. by destruct (Z.eqb_spec (fns_function_not_supported_pointer x) 0). }
      apply plain_end. }
  exists e. split; [done|].
  do 3 (eapply parses_bind; [parse_field|]; cbv beta iota).
  eapply parses_bind with (a := fns_call_identifier x).
  { rewrite Hpres. destruct (fns_call_identifier x) as [v|]; cbn [is_some from_option]; [|apply read_if_not_parses].
    apply read_if_parses; [by apply Hc|lia]. }
  cbv beta iota. eapply parses_bind; [parse_field|]. cbv beta iota. apply HP.
Qed.

(** ** Replies *)

Lemma serialized_holds m bs room : emits m tt bs -> exists sdu, serialized m room = Some sdu /\ holds sdu bs.
Proof.
  intros He. unfold serialized.
  destruct (run_emits _ _ _ (new_autoexpand room) He) as (b & E & Wr); [apply wf_new_autoexpand|by apply (written_room _ []), written_new|].
  rewrite E. step. destruct (written_holds _ _ (written_app _ _ _ _ (written_new room) Wr)) as [-> Hb]. step. by eexists.
Qed.

Lemma downlink_prio_other sdu v bs :
  holds sdu (val_bits 5 v ++ bs) -> (0 <= v < 2 ^ 5)%Z -> v <> D_TX_CEASED -> v <> D_TX_INTERRUPT -> v <> D_TX_GRANTED ->
  cmce_downlink_pdu_prio sdu = Some 0%Z.
Proof.
  intros H Hv H1 H2 H3. unfold cmce_downlink_pdu_prio. destruct (from_bitbuffer_holds sdu (ho_wf _ _ H)) as (probe & E & Hp).
  rewrite E. step. rewrite (ho_window _ _ H) in Hp.
  rewrite (read_field_val 5 "cmce_pdu_type_dl" v bs Hv ltac:(lia) probe (ho_wf _ _ Hp) (holds_remaining _ _ Hp)).
  by rewrite (proj2 (Z.eqb_neq _ _) H1), (proj2 (Z.eqb_neq _ _) H2), (proj2 (Z.eqb_neq _ _) H3).
Qed.

(** The message decodes as CMCE FUNCTION NOT SUPPORTED. *)
Definition says_not_supported (sdu : BitBuffer) (ty : CmcePduTypeUl) (call : option Z) (pointer : Z) (extract : option (list bool)) : Prop :=
  exists e b, Fns_from_bitbuf sdu
      = Ok (mkFns (CmcePduTypeUl_into_raw ty) (is_some call) call pointer (Z.of_nat ∘ length <$> extract) e) b /\ extract_is e extract.

Lemma fns_said x bits sdu ty :
  fns_ok x bits -> holds sdu (fns_img x bits) -> fns_not_supported_pdu_type x = CmcePduTypeUl_into_raw ty ->
  says_not_supported sdu ty (fns_call_identifier x) (fns_function_not_supported_pointer x) bits.
Proof.
  intros Ho Hh Ht. destruct (Fns_parses x bits [] Ho) as (e & He & P).
  assert (fns_call_identifier_present x = is_some (fns_call_identifier x)) as Hp.
  { destruct Ho as [_ _ _ _ _ Hv]. unfold Fns_check in Hv.
    by destruct (Bool.eqb_spec (fns_call_identifier_present x) (is_some (fns_call_identifier x))). }
  exists e. eexists. split; [|exact He]. rewrite <- Hp, <- Ht, <- (fo_length _ _ Ho). apply P; [apply Hh|].
  rewrite app_nil_r. by apply holds_remaining.
Qed.

Lemma type_raw_bound ty : (0 <= CmcePduTypeUl_into_raw ty < 32)%Z.
Proof. by destruct ty. Qed.
Lemma type_raw_u8 ty : u8 (CmcePduTypeUl_into_raw ty) = CmcePduTypeUl_into_raw ty.
Proof. by destruct ty. Qed.

Lemma whole_ok ty : fns_ok (whole_pdu_not_supported ty) None.
Proof. pose proof (type_raw_bound ty). constructor; cbn; by rewrite ?type_raw_u8. Qed.

Lemma whole_reply ty target h l ep :
  exists req, build_cmce_function_not_supported_direct ty target h l ep = Some req /\
    lc_main_address req = target /\ lc_handle req = h /\ lc_link_id req = l /\ lc_endpoint_id req = ep /\
    says_not_supported (lc_sdu req) ty None 0 None.
Proof.
  unfold build_cmce_function_not_supported_direct.
  destruct (serialized_holds _ _ 32 (Fns_emits _ _ (whole_ok ty))) as (sdu & E & Hh). rewrite E. step.
  unfold build_sapmsg_direct. rewrite (downlink_prio_other sdu 31 _ Hh) by done. step.
  eexists. split_and!; [done..|]. apply (fns_said (whole_pdu_not_supported ty)); [apply whole_ok|done|apply type_raw_u8].
Qed.

Lemma sds_reply ty target h l ep :
  exists req, sds_build_cmce_function_not_supported_direct ty target h l ep = Some req /\
    lc_main_address req = target /\ lc_handle req = h /\ lc_link_id req = l /\ lc_endpoint_id req = ep /\
    says_not_supported (lc_sdu req) ty None 0 None.
Proof.
  unfold sds_build_cmce_function_not_supported_direct.
  destruct (serialized_holds _ _ 32 (Fns_emits _ _ (whole_ok ty))) as (sdu & E & Hh). rewrite E. step.
  eexists. split_and!; [done..|]. apply (fns_said (whole_pdu_not_supported ty)); [apply whole_ok|done|apply type_raw_u8].
Qed.

(** The extract of a received PDU. *)
Lemma seek5 b : wf b -> 5 <= get_len b ->
  run (seek 5) b = Some (tt, with_pos b (start b + 5)) /\ wf (with_pos b (start b + 5)) /\
  remaining (with_pos b (start b + 5)) = drop 5 (window b) /\ get_len_remaining (with_pos b (start b + 5)) = length (drop 5 (window b)).
Proof.
  intros W Hl. pose proof W as [Wb Ws Wp We]. unfold get_len in Hl. unfold run, seek. btrue (start b + 5 <=? end_ b).
  assert (R : remaining (with_pos b (start b + 5)) = drop 5 (window b)).
  { unfold remaining, window. cbn. rewrite drop_getbits by lia. f_equal; lia. }
  split_and!; [done|apply wf_with_pos; [done|lia]|done|]. by rewrite <- R, length_remaining.
Qed.

Lemma element_serialized ty id ptr b :
  wf b -> 5 <= get_len b -> (0 <= id < 2 ^ 14)%Z -> (0 < ptr < 2 ^ 8)%Z -> forall target h l ep,
  if get_len b <=? 260 then
    exists req, build_cmce_function_not_supported_element_direct ty id ptr b target h l ep = Some req /\
      lc_main_address req = target /\ lc_handle req = h /\ lc_link_id req = l /\ lc_endpoint_id req = ep /\
      says_not_supported (lc_sdu req) ty (Some id) ptr (Some (drop 5 (window b)))
  else build_cmce_function_not_supported_element_direct ty id ptr b target h l ep = None.
Proof.
  intros W Hl Hid Hptr target h l ep. destruct (seek5 b W Hl) as (E1 & W1 & R1 & L1).
  unfold build_cmce_function_not_supported_element_direct. rewrite E1. step. rewrite L1.
  set (bs := drop 5 (window b)) in *. pose proof (written_new (length bs)) as Wn.
  destruct (copy_bits_spec (new_autoexpand (length bs)) (with_pos b (start b + 5)) bs []) as (e & E2 & Wr);
    [apply wf_new_autoexpand|done|by rewrite app_nil_r|by apply (written_room _ [])|].
  unfold copy. rewrite E2. step. destruct (written_holds _ _ (written_app _ _ _ _ Wn Wr)) as [E3 He]. rewrite E3. step.
  set (x := mkFns _ true (Some id) ptr _ _).
  assert (Hlen : length bs = get_len b - 5).
  { unfold bs. rewrite length_drop. unfold window, get_len. by rewrite length_getbits. }
  assert (Hg : get_len (with_pos e 0) = length bs) by (by rewrite (holds_len _ _ He)).
  assert (Hc : Fns_check x = if 255 <? length bs then inr (InvalidValue "length_of_received_pdu_extract" (Z.of_nat (length bs))) else inl tt).
  { unfold Fns_check, x. cbn. rewrite Hg. destruct (Z.eqb_spec ptr 0); [lia|]. cbn. destruct (255 <? length bs); [done|].
    by rewrite Nat2Z.id, Nat.eqb_refl. }
  destruct (Nat.leb_spec (get_len b) 260).
  - rewrite (proj2 (Nat.ltb_ge 255 (length bs))) in Hc by lia.
    assert (Ho : fns_ok x (Some bs)).
    { pose proof (type_raw_bound ty). constructor; cbn; rewrite ?type_raw_u8; try done; try lia.
      - by intros v [= <-].
      - split; [apply He|]. by rewrite (ho_window _ _ He). }
    destruct (serialized_holds _ _ (64 + length bs) (Fns_emits _ _ Ho)) as (sdu & E4 & Hh). rewrite E4. step.
    unfold build_sapmsg_direct. rewrite (downlink_prio_other sdu 31 _ Hh) by done. step.
    eexists. split_and!; [done..|]. apply (fns_said x); [done|done|apply type_raw_u8].
  - rewrite (proj2 (Nat.ltb_lt 255 (length bs))) in Hc by lia. unfold serialized, run, Fns_to_bitbuf. by rewrite Hc.
Qed.

(** ** The PDUs of a mobile *)

Inductive UlPdu :=
  | PAlert (x : UAlert) | PCallRestore (x : UCallRestore) | PConnect (x : UConnect) | PDisconnect (x : UDisconnect)
  | PFacility (x : UFacility) | PInfo (x : UInfo) | PRelease (x : URelease) | PSetup (x : USetup) | PStatus (x : UStatus)
  | PTxCeased (x : UTxCeased) | PTxDemand (x : UTxDemand) | PSdsData (x : USdsData).

Definition ul_to_bitbuf (p : UlPdu) : M unit :=
  match p with
  | PAlert x => UAlert_to_bitbuf x | PCallRestore x => UCallRestore_to_bitbuf x | PConnect x => UConnect_to_bitbuf x
  | PDisconnect x => UDisconnect_to_bitbuf x | PFacility x => UFacility_to_bitbuf x | PInfo x => UInfo_to_bitbuf x
  | PRelease x => URelease_to_bitbuf x | PSetup x => USetup_to_bitbuf x | PStatus x => UStatus_to_bitbuf x
  | PTxCeased x => UTxCeased_to_bitbuf x | PTxDemand x => UTxDemand_to_bitbuf x | PSdsData x => USdsData_to_bitbuf x
  end.
Definition ul_ok (p : UlPdu) : Prop :=
  match p with
  | PAlert x => UAlert_ok x | PCallRestore x => UCallRestore_ok x | PConnect x => UConnect_ok x
  | PDisconnect x => UDisconnect_ok x | PFacility x => True | PInfo x => UInfo_ok x
  | PRelease x => URelease_ok x | PSetup x => USetup_ok x | PStatus x => UStatus_ok x
  | PTxCeased x => UTxCeased_ok x | PTxDemand x => UTxDemand_ok x | PSdsData x => USdsData_ok x
  end.

(** The first bits of a PDU that parses are its type. *)
Lemma type_first {A} t (k : M A) bs x b :
  parses (expect_pdu_type 5 t;; k) bs [] x -> wf b -> remaining b = bs -> 5 <= get_len_remaining b /\ peek_bits b 5 = Some (Some t).
Proof.
  intros P W R. specialize (P b W). rewrite app_nil_r in P. specialize (P R).
  unfold get_len_remaining. rewrite <- length_remaining, (peek_here b 5 W) by lia.
  unfold expect_pdu_type, mbind, method_bind in P. cbn beta in P.
  destruct (Nat.ltb_spec (length (remaining b)) 5) as [Hl|Hl].
  - unfold read_field, mbind, method_bind in P. by rewrite (read_bits_short 5 b W Hl) in P.
  - split; [done|]. pose proof (read_field_parses 5 "pdu_type" (take 5 (remaining b)) (drop 5 (remaining b))) as Pr.
    rewrite Pr in P; [|rewrite length_take; lia|lia|done|by rewrite take_drop].
    by destruct (Z.eqb_spec (bits_val (take 5 (remaining b))) t) as [<-|].
Qed.

(** ** Delivery *)

(** An element that is not supported is pointed at, with an extract of what was received. *)
Definition delivered_or_rejected (ty : CmcePduTypeUl) (call_identifier : Z) (unsupported : option Z) (prim : LcmcMleUnitdataInd)
  (k out : CmceIngress) : Prop :=
  match unsupported with
  | None => out = k
  | Some pointer =>
      exists req, out = Answered req /\ lc_main_address req = ci_received_tetra_address prim /\ lc_handle req = ci_handle prim /\
        lc_link_id req = ci_link_id prim /\ lc_endpoint_id req = ci_endpoint_id prim /\
        says_not_supported (lc_sdu req) ty (Some call_identifier) pointer (Some (drop 5 (window (ci_sdu prim))))
  end.
Definition rejected (ty : CmcePduTypeUl) (prim : LcmcMleUnitdataInd) (out : CmceIngress) : Prop :=
  exists req, out = Answered req /\ lc_main_address req = ci_received_tetra_address prim /\ lc_handle req = ci_handle prim /\
    lc_link_id req = ci_link_id prim /\ lc_endpoint_id req = ci_endpoint_id prim /\
    says_not_supported (lc_sdu req) ty None 0 None.
(** A short message from a registered subscriber to a supported address. *)
Definition delivered_message (ctx : CmceContext) (ty : CmcePduTypeUl) (supported : bool) (called : option Z)
  (k : Z -> Z -> CmceIngress) (prim : LcmcMleUnitdataInd) (out : CmceIngress) : Prop :=
  match registered_rf_calling_party_issi ctx (ci_received_tetra_address prim) with
  | None => out = Dropped
  | Some source_ssi =>
      if supported then exists dest_ssi, called = Some dest_ssi /\ out = k source_ssi dest_ssi
      else rejected ty prim out
  end.

(** What is done with a PDU. *)
Definition outcome_of (ctx : CmceContext) (prim : LcmcMleUnitdataInd) (p : UlPdu) (out : CmceIngress) : Prop :=
  let sender := ci_received_tetra_address prim in
  let h := ci_handle prim in let l := ci_link_id prim in let ep := ci_endpoint_id prim in
  match p with
  | PSetup x => out = OnUSetup prim x
  | PTxCeased x => out = OnUTxCeased sender x
  | PConnect x => out = OnUConnect sender h l ep x (ci_sdu prim)
  | PTxDemand x =>
      delivered_or_rejected UlTxDemand (utd_call_identifier x) (unsupported_u_tx_demand_function x) prim (OnUTxDemand sender h l ep x) out
  | PRelease x =>
      delivered_or_rejected UlRelease (url_call_identifier x) (unsupported_u_release_function x) prim (OnURelease sender h l ep x) out
  | PDisconnect x =>
      delivered_or_rejected UlDisconnect (udc_call_identifier x) (unsupported_u_disconnect_function x) prim (OnUDisconnect sender h l ep x) out
  | PAlert x =>
      delivered_or_rejected UlAlert (ual_call_identifier x)
        (unsupported_u_alert_function x (cached_setup_basic_service ctx (ual_call_identifier x))) prim (OnUAlert sender h l ep x) out
  | PInfo x => delivered_or_rejected UlInfo (uin_call_identifier x) (unsupported_u_info_function x) prim (OnUInfo x) out
  | PCallRestore _ => rejected UlCallRestore prim out
  | PFacility _ => rejected UlFacility prim out
  | PStatus x =>
      delivered_message ctx UlStatus (feature_check_u_status (local_mni ctx) x) (ust_called_party_ssi x)
        (fun source_ssi dest_ssi => OnUStatus source_ssi dest_ssi x) prim out
  | PSdsData x =>
      delivered_message ctx UlSdsData (feature_check_u_sds_data (local_mni ctx) x) (usd_called_party_ssi x)
        (fun source_ssi dest_ssi => OnUSdsData source_ssi dest_ssi x) prim out
  end.

Lemma reject_or_spec ty call unsupported prim k :
  wf (ci_sdu prim) -> 5 <= get_len (ci_sdu prim) <= 260 -> (0 <= call < 2 ^ 14)%Z -> option_all (fun p => 0 < p < 2 ^ 8)%Z unsupported ->
  exists out, reject_or ty call unsupported prim k = Some out /\ delivered_or_rejected ty call unsupported prim k out.
Proof.
  intros W [Hl Hu] Hc Hp. unfold reject_or, delivered_or_rejected. destruct unsupported as [ptr|]; [|by eexists].
  pose proof (element_serialized ty call ptr (ci_sdu prim) W Hl Hc (Hp ptr eq_refl) (ci_received_tetra_address prim) (ci_handle prim)
    (ci_link_id prim) (ci_endpoint_id prim)) as H. rewrite (proj2 (Nat.leb_le _ _) Hu) in H. destruct H as (req & E & H).
  rewrite E. eexists. split; [done|]. by exists req.
Qed.

Lemma rejected_spec ty prim :
  exists out, Answered <$> build_cmce_function_not_supported_direct ty (ci_received_tetra_address prim) (ci_handle prim) (ci_link_id prim)
      (ci_endpoint_id prim) = Some out /\ rejected ty prim out.
Proof.
  destruct (whole_reply ty (ci_received_tetra_address prim) (ci_handle prim) (ci_link_id prim) (ci_endpoint_id prim)) as (req & E & H).
  rewrite E. eexists. split; [done|]. by exists req.
Qed.

Lemma called_ssi_checked mni pti sna called ext esn dm :
  feature_check_called_party_address mni pti sna called ext esn dm = true -> option_all (fun v => 0 <= v)%Z called ->
  exists v, called = Some v /\ u32 v = v.
Proof.
  unfold feature_check_called_party_address. intros H Hc. destruct called as [v|].
  - specialize (Hc v eq_refl). cbn in Hc. exists v. split; [done|]. apply Z.mod_small.
    assert (v <= MAX_AIR_INTERFACE_SSI)%Z; [|unfold MAX_AIR_INTERFACE_SSI in *; lia].
    apply andb_true_iff in H as [H _]. apply andb_true_iff in H as [H _]. apply andb_true_iff in H as [_ H]. lia.
  - destruct pti; cbn in H; rewrite ?andb_false_r in H; done.
Qed.

(** A PDU of a given type whose parser has succeeded. *)
Lemma peeked {A} t ty (k : M A) bs x b :
  parses (expect_pdu_type 5 t;; k) bs [] x -> wf b -> remaining b = bs -> CmcePduTypeUl_try_from t = Some ty ->
  peek_type b = Some (Some ty) /\ 5 <= get_len_remaining b.
Proof. intros P W R Ht. destruct (type_first t k bs x b P W R) as [Hl E]. unfold peek_type. rewrite E. step. by rewrite Ht. Qed.

Lemma parsed_as {T} (from : M T) bs x b k :
  parses from bs [] x -> wf b -> remaining b = bs -> parsed from b k = k x.
Proof. intros P W R. unfold parsed. rewrite P; [done|done|by rewrite app_nil_r]. Qed.

Lemma message_spec {T} (from : M T) bs x ctx ty prim (supported : T -> bool) (called : T -> option Z) (k : Z -> Z -> T -> CmceIngress) :
  parses from bs [] x -> wf (ci_sdu prim) -> remaining (ci_sdu prim) = bs ->
  (supported x = true -> exists v, called x = Some v /\ u32 v = v) ->
  exists out,
    match registered_rf_calling_party_issi ctx (ci_received_tetra_address prim) with
    | None => Some Dropped
    | Some source_ssi =>
        parsed from (ci_sdu prim) (fun pdu =>
          if negb (supported pdu) then
            Answered <$> sds_build_cmce_function_not_supported_direct ty (ci_received_tetra_address prim) (ci_handle prim)
              (ci_link_id prim) (ci_endpoint_id prim)
          else match called pdu with None => Some Dropped | Some dest_ssi_raw => Some (k source_ssi (u32 dest_ssi_raw) pdu) end)
    end = Some out /\
    delivered_message ctx ty (supported x) (called x) (fun source_ssi dest_ssi => k source_ssi dest_ssi x) prim out.
Proof.
  intros P W R Hs. unfold delivered_message. destruct (registered_rf_calling_party_issi _ _) as [s|]; [|by eexists].
  rewrite (parsed_as from bs x) by done. destruct (supported x); cbn [negb].
  - destruct (Hs eq_refl) as (v & -> & ->). eexists. split; [done|]. by exists v.
  - destruct (sds_reply ty (ci_received_tetra_address prim) (ci_handle prim) (ci_link_id prim) (ci_endpoint_id prim)) as (req & E & H).
    rewrite E. eexists. split; [done|]. by exists req.
Qed.

Lemma call_identifier_bound name v r : (0 <= v)%Z -> then_ (at_most name MAX_U14 v) r = inl tt -> (0 <= v < 2 ^ 14)%Z.
Proof. intros H [V _]%checks_inl. apply at_most_inl in V. lia. Qed.
Lemma call_identifier_bound_only name v : (0 <= v)%Z -> at_most name MAX_U14 v = inl tt -> (0 <= v < 2 ^ 14)%Z.
Proof. intros H V. apply at_most_inl in V. lia. Qed.

(** One kind of PDU: it is written, peeked at and parsed. *)
Ltac receive R T ty :=
  let bs := fresh "bs" in let E := fresh "E" in let P := fresh "P" in
  destruct R as (bs & E & P); exists bs; split; [exact E|]; intros prim W Hr Hl; specialize (P []);
  let Q := fresh "Q" in pose proof P as Q;
  match type of P with parses ?from _ _ _ => unfold from in Q end;
  let Ep := fresh "Ep" in
  destruct (peeked T ty _ bs _ (ci_sdu prim) Q W Hr eq_refl) as [Ep H5]; clear Q;
  assert (5 <= get_len (ci_sdu prim)) by (destruct W as [_ Ws _ _]; unfold get_len, get_len_remaining in *; lia);
  unfold rx_lcmc_mle_unitdata_ind, route_xx_deliver; rewrite Ep; step; cbn [outcome_of].
(** The unsupported elements all have pointers of eight bits. *)
Ltac pointers := repeat case_match; intros v [= <-]; lia.

Lemma received_outcome ctx p :
  ul_ok p ->
  exists bs, emits (ul_to_bitbuf p) tt bs /\
    forall prim, wf (ci_sdu prim) -> remaining (ci_sdu prim) = bs -> get_len (ci_sdu prim) <= 260 ->
      exists out, rx_lcmc_mle_unitdata_ind ctx prim = Some out /\ outcome_of ctx prim p out.
Proof.
  destruct p as [x|x|x|x|x|x|x|x|x|x|x|x]; intros H.
  - receive (UAlert_roundtrips x H) 0%Z UlAlert. unfold rx_u_alert. rewrite (parsed_as _ bs x) by done.
    apply reject_or_spec; [done|done| |unfold unsupported_u_alert_function; pointers].
    destruct H. by eapply call_identifier_bound.
  - receive (UCallRestore_roundtrips x H) 14%Z UlCallRestore. apply rejected_spec.
  - receive (UConnect_roundtrips x H) 2%Z UlConnect. unfold rx_u_connect. rewrite (parsed_as _ bs x) by done. by eexists.
  - receive (UDisconnect_roundtrips x H) 4%Z UlDisconnect. unfold rx_u_disconnect. rewrite (parsed_as _ bs x) by done.
    apply reject_or_spec; [done|done| |unfold unsupported_u_disconnect_function; pointers].
    destruct H. by eapply call_identifier_bound_only.
  - receive (UFacility_roundtrips x) 16%Z UlFacility. apply rejected_spec.
  - receive (UInfo_roundtrips x H) 5%Z UlInfo. unfold rx_u_info. rewrite (parsed_as _ bs x) by done.
    apply reject_or_spec; [done|done| |unfold unsupported_u_info_function; pointers].
    destruct H. by eapply call_identifier_bound.
  - receive (URelease_roundtrips x H) 6%Z UlRelease. unfold rx_u_release. rewrite (parsed_as _ bs x) by done.
    apply reject_or_spec; [done|done| |unfold unsupported_u_release_function; pointers].
    destruct H. by eapply call_identifier_bound_only.
  - receive (USetup_roundtrips x H) 7%Z UlSetup. unfold rx_u_setup. rewrite (parsed_as _ bs x) by done. by eexists.
  - receive (UStatus_roundtrips x H) 8%Z UlStatus. unfold route_status_deliver.
    apply (message_spec _ bs x ctx UlStatus prim (feature_check_u_status (local_mni ctx)) ust_called_party_ssi OnUStatus); [done..|].
    intros Hf. destruct H. by eapply called_ssi_checked.
  - receive (UTxCeased_roundtrips x H) 9%Z UlTxCeased. unfold rx_u_tx_ceased. rewrite (parsed_as _ bs x) by done. by eexists.
  - receive (UTxDemand_roundtrips x H) 10%Z UlTxDemand. unfold rx_u_tx_demand. rewrite (parsed_as _ bs x) by done.
    apply reject_or_spec; [done|done| |unfold unsupported_u_tx_demand_function; pointers].
    destruct H. by eapply call_identifier_bound.
  - receive (USdsData_roundtrips x H) 15%Z UlSdsData. unfold route_rf_deliver_with_busy.
    apply (message_spec _ bs x ctx UlSdsData prim (feature_check_u_sds_data (local_mni ctx)) usd_called_party_ssi OnUSdsData); [done..|].
    intros Hf. destruct H. by eapply called_ssi_checked.
Qed.

(** ** Panics *)

(** Like [guarded], and what is returned satisfies [Q]. *)
Definition sound {A} (m : M A) (Q : A -> Prop) : Prop :=
  forall b, wf b ->
    match m b with
    | Ok a b' => advanced b b' /\ Q a
    | Err _ b' => advanced b b'
    | Panic => exists p, pos b <= p <= end_ b /\ overlong (with_pos b p)
    end.

Lemma sound_guarded {A} (m : M A) : guarded m -> sound m (fun _ => True).
Proof. intros H b W. specialize (H b W). by destruct (m b). Qed.
Lemma sound_ret {A} (a : A) (Q : A -> Prop) : Q a -> sound (mret a) Q.
Proof. intros H b W. split; [by apply advanced_refl|done]. Qed.
Lemma sound_fail {A} e (Q : A -> Prop) : sound (fail e) Q.
Proof. intros b W. by apply advanced_refl. Qed.
Lemma sound_bind {A B} (m : M A) (k : A -> M B) P Q : sound m P -> (forall a, P a -> sound (k a) Q) -> sound (m ≫= k) Q.
Proof.
  intros Hm Hk b W. specialize (Hm b W). unfold mbind, method_bind.
  destruct (m b) as [a b1|e b1|]; [|done|done]. destruct Hm as [Hm HP].
  specialize (Hk a HP b1 (advanced_wf _ _ W Hm)).
  destruct (k a b1); [split; [by eapply advanced_trans, Hk|apply Hk]|by eapply advanced_trans|].
  destruct Hm as (p & -> & Hp). destruct Hk as (q & Hq & Ho). exists q. cbn in *. split; [lia|done].
Qed.
Lemma sound_any {A B} (m : M A) (k : A -> M B) Q : guarded m -> (forall a, sound (k a) Q) -> sound (m ≫= k) Q.
Proof. intros H Hk. eapply sound_bind; [by apply sound_guarded|]. auto. Qed.

Lemma read_field_here n name b :
  wf b -> n <= 64 -> n <= length (remaining b) ->
  read_field n name b = Ok (bits_val (take n (remaining b))) (with_pos b (pos b + n)).
Proof.
  intros W Hn Hs. assert (Hl : length (take n (remaining b)) = n) by (rewrite length_take; lia).
  rewrite (read_field_parses n name (take n (remaining b)) (drop n (remaining b))) by (done || by rewrite take_drop). by rewrite Hl.
Qed.
Lemma sound_field n name : n <= 64 -> sound (read_field n name) (fun v => 0 <= v < 2 ^ Z.of_nat n)%Z.
Proof.
  intros Hn b W. pose proof (robust_read_field n name Hn b W) as Hr.
  destruct (decide (length (remaining b) < n)) as [Hs|Hs]; [by rewrite read_field_short in * by done|].
  rewrite read_field_here in * by (done || lia). split; [done|].
  pose proof (bits_val_bound (take n (remaining b))) as Hv. by rewrite length_take, Nat.min_l in Hv by lia.
Qed.
Lemma sound_u16_14 name : sound (read_u16 14 name) (fun v => 0 <= v < 2 ^ 14)%Z.
Proof.
  unfold read_u16. eapply sound_bind; [apply sound_field; lia|]. intros v Hv. apply sound_ret. unfold u16. cbv beta in *.
  change (2 ^ Z.of_nat 14)%Z with (2 ^ 14)%Z in Hv. rewrite Z.mod_small; lia.
Qed.

(** The fields of the call control PDUs. *)
Lemma robust_bsi : robust Bsi_from_bitbuf.
Proof.
  unfold Bsi_from_bitbuf. robust; (apply robust_enum_unwrap; [lia|]); intros v Hv.
  - change (2 ^ Z.of_nat 3)%Z with 8%Z in Hv.
    assert (v = 0 \/ v = 1 \/ v = 2 \/ v = 3 \/ v = 4 \/ v = 5 \/ v = 6 \/ v = 7)%Z as E by lia. intuition (subst; by eexists).
  - change (2 ^ Z.of_nat 2)%Z with 4%Z in Hv.
    assert (v = 0 \/ v = 1 \/ v = 2 \/ v = 3)%Z as E by lia. intuition (subst; by eexists).
Qed.

Lemma robust_slice_loop n : forall bits acc, bits <= 8 * n -> robust (read_bits_into_slice_loop n bits acc).
Proof.
  induction n as [|n IH]; intros bits acc Hb; cbn [read_bits_into_slice_loop]; [apply robust_ret|].
  apply robust_bind; [apply robust_read_bits; lia|]. intros [v|]; [|apply robust_ret]. apply IH. lia.
Qed.

Lemma robust_type4 len : robust (read_sds_type4_user_data len).
Proof.
  unfold read_sds_type4_user_data. destruct (validate_type4_length len); [|apply robust_fail].
  unfold type4_declared_byte_count. destruct (2047 <? len); [apply robust_fail|].
  apply robust_bind.
  - unfold read_bits_into_slice. rewrite Nat.leb_refl. apply robust_slice_loop. pose proof (Nat.div_mod_eq (len + 7) 8).
    pose proof (Nat.mod_upper_bound (len + 7) 8). lia.
  - intros [data|]; [|apply robust_fail]. destruct (canonical_type4_bytes len data); [apply robust_ret|apply robust_fail].
Qed.

Lemma guarded_user_data : guarded read_user_data.
Proof.
  assert (H : sound read_user_data (fun _ => True)).
  { unfold read_user_data. eapply sound_bind.
    { unfold read_u8. eapply sound_bind; [apply sound_field; lia|]. intros v Hv. apply (sound_ret _ (fun w => 0 <= w < 4)%Z).
      unfold u8. cbv beta in *. change (2 ^ Z.of_nat 2)%Z with 4%Z in Hv. rewrite Z.mod_small; lia. }
    intros v Hv. cbv beta in Hv. assert (v = 0 \/ v = 1 \/ v = 2 \/ v = 3)%Z as [->|[->|[->| ->]]] by lia; apply sound_guarded, guarded_robust; robust.
    apply robust_type4. }
  intros b W. specialize (H b W). by destruct (read_user_data b) as [? ?|? ?|]; [destruct H|..].
Qed.

(** One field. *)
Ltac guarded_field :=
  lazymatch goal with
  | |- guarded (expect_pdu_type _ _) => apply guarded_pdu_type; lia
  | |- guarded (parse_type3_generic _ _) => apply guarded_type3_generic; cbn; lia
  | |- guarded (parse_type2_struct _ _) => apply guarded_type2_struct, robust_bsi
  | |- guarded (parse_type2_generic _ _ _) => apply guarded_type2_generic; lia
  | |- guarded (read_if _ _ _) => apply guarded_read_if; lia
  | |- guarded (read_trailing _) => apply guarded_trailing
  | |- guarded Bsi_from_bitbuf => apply guarded_robust, robust_bsi
  | |- guarded read_user_data => apply guarded_user_data
  | |- guarded _ => apply guarded_robust; unfold read_obit, read_delimiter, read_pre_coded_status; robust
  end.
Ltac sound_pdu :=
  repeat first
    [ apply sound_fail
    | apply sound_ret; done
    | eapply sound_bind; [apply sound_u16_14|]; intros ? ?; cbv beta
    | apply sound_any; [solve [guarded_field]|]; intros ?; cbv beta
    | match goal with |- sound (if ?c then _ else _) _ => destruct c end ].

Definition call_id_ok {T} (id : T -> Z) (x : T) : Prop := (0 <= id x < 2 ^ 14)%Z.
Lemma sound_u_alert : sound UAlert_from_bitbuf (call_id_ok ual_call_identifier).
Proof. unfold UAlert_from_bitbuf. sound_pdu. Qed.
Lemma sound_u_connect : sound UConnect_from_bitbuf (call_id_ok ucn_call_identifier).
Proof. unfold UConnect_from_bitbuf. sound_pdu. Qed.
Lemma sound_u_disconnect : sound UDisconnect_from_bitbuf (call_id_ok udc_call_identifier).
Proof. unfold UDisconnect_from_bitbuf. sound_pdu. Qed.
Lemma sound_u_info : sound UInfo_from_bitbuf (call_id_ok uin_call_identifier).
Proof. unfold UInfo_from_bitbuf. sound_pdu. Qed.
Lemma sound_u_release : sound URelease_from_bitbuf (call_id_ok url_call_identifier).
Proof. unfold URelease_from_bitbuf. sound_pdu. Qed.
Lemma sound_u_tx_demand : sound UTxDemand_from_bitbuf (call_id_ok utd_call_identifier).
Proof. unfold UTxDemand_from_bitbuf. sound_pdu. Qed.
Lemma sound_u_tx_ceased : sound UTxCeased_from_bitbuf (call_id_ok utc_call_identifier).
Proof. unfold UTxCeased_from_bitbuf. sound_pdu. Qed.
Lemma sound_u_setup : sound USetup_from_bitbuf (fun _ => True).
Proof. unfold USetup_from_bitbuf. sound_pdu. Qed.
Lemma sound_u_status : sound UStatus_from_bitbuf (fun _ => True).
Proof. unfold UStatus_from_bitbuf. sound_pdu. Qed.
Lemma sound_u_sds_data : sound USdsData_from_bitbuf (fun _ => True).
Proof. unfold USdsData_from_bitbuf. sound_pdu. Qed.

(** Where the reception may panic. *)
Definition crash (sdu : BitBuffer) : Prop :=
  (exists p, pos sdu <= p <= end_ sdu /\ overlong (with_pos sdu p)) \/ 260 < get_len sdu.

Lemma parsed_crash {T} (from : M T) Q sdu k :
  sound from Q -> wf sdu -> (forall x, Q x -> k x = None -> crash sdu) -> parsed from sdu k = None -> crash sdu.
Proof.
  intros Hs W Hk E. specialize (Hs sdu W). unfold parsed in E. destruct (from sdu) as [x b|e b|]; [|done|by left].
  destruct Hs as [_ HQ]. by eapply Hk.
Qed.

Lemma reject_or_crash ty call unsupported prim k :
  wf (ci_sdu prim) -> 5 <= get_len (ci_sdu prim) -> (0 <= call < 2 ^ 14)%Z -> option_all (fun p => 0 < p < 2 ^ 8)%Z unsupported ->
  reject_or ty call unsupported prim k = None -> crash (ci_sdu prim).
Proof.
  intros W Hl Hc Hp E. destruct (Nat.le_gt_cases (get_len (ci_sdu prim)) 260); [|by right].
  destruct (reject_or_spec ty call unsupported prim k W (conj Hl H) Hc Hp) as (out & E' & _). congruence.
Qed.

Lemma peek_type_total b : wf b -> exists o, peek_type b = Some o /\ (is_Some o -> 5 <= get_len b).
Proof.
  intros W. unfold peek_type. rewrite (peek_here b 5 W) by lia. step.
  destruct (Nat.ltb_spec (length (remaining b)) 5) as [Hl|Hl]; eexists; (split; [done|]); [by intros [? [=]]|].
  intros _. rewrite length_remaining in Hl. destruct W as [_ Ws _ _]. unfold get_len. lia.
Qed.

Lemma message_crash {T} (from : M T) (k : Z -> T -> option CmceIngress) ctx addr sdu :
  sound from (fun _ => True) -> wf sdu -> (forall s x, is_Some (k s x)) ->
  match registered_rf_calling_party_issi ctx addr with None => Some Dropped | Some s => parsed from sdu (k s) end = None -> crash sdu.
Proof.
  intros Hs W Hk E. destruct (registered_rf_calling_party_issi ctx addr) as [s|]; [|done].
  apply (parsed_crash _ _ _ _ Hs W) in E; [done|]. intros x _ Ex. destruct (Hk s x) as [o Ho]. congruence.
Qed.

Lemma route_xx_crash ctx prim :
  wf (ci_sdu prim) -> route_xx_deliver ctx prim = None -> crash (ci_sdu prim).
Proof.
  intros W. unfold route_xx_deliver. destruct (peek_type_total (ci_sdu prim) W) as (o & E & H5). rewrite E. step.
  destruct o as [ty|]; [|done]. specialize (H5 ltac:(by eexists)).
  destruct ty; lazymatch goal with |- Some Dropped = None -> _ => intros [=] | _ => idtac end.
  - apply (parsed_crash _ _ _ _ sound_u_alert W). intros x Hx. apply reject_or_crash; [done|done|done|].
    unfold unsupported_u_alert_function; pointers.
  - apply (parsed_crash _ _ _ _ sound_u_connect W). done.
  - apply (parsed_crash _ _ _ _ sound_u_disconnect W). intros x Hx. apply reject_or_crash; [done|done|done|].
    unfold unsupported_u_disconnect_function; pointers.
  - apply (parsed_crash _ _ _ _ sound_u_info W). intros x Hx. apply reject_or_crash; [done|done|done|].
    unfold unsupported_u_info_function; pointers.
  - apply (parsed_crash _ _ _ _ sound_u_release W). intros x Hx. apply reject_or_crash; [done|done|done|].
    unfold unsupported_u_release_function; pointers.
  - apply (parsed_crash _ _ _ _ sound_u_setup W). done.
  - apply (parsed_crash _ _ _ _ sound_u_tx_ceased W). done.
  - apply (parsed_crash _ _ _ _ sound_u_tx_demand W). intros x Hx. apply reject_or_crash; [done|done|done|].
    unfold unsupported_u_tx_demand_function; pointers.
  - destruct (rejected_spec UlCallRestore prim) as (out & E' & _). rewrite E'. done.
Qed.

Lemma sds_reply_some {A} (f : LcmcMleUnitdataReq -> A) ty prim :
  is_Some (f <$> sds_build_cmce_function_not_supported_direct ty (ci_received_tetra_address prim) (ci_handle prim) (ci_link_id prim) (ci_endpoint_id prim)).
Proof.
  destruct (sds_reply ty (ci_received_tetra_address prim) (ci_handle prim) (ci_link_id prim) (ci_endpoint_id prim)) as (req & -> & _). by eexists.
Qed.

Lemma reception_crash ctx prim :
  wf (ci_sdu prim) -> rx_lcmc_mle_unitdata_ind ctx prim = None -> crash (ci_sdu prim).
Proof.
  intros W. unfold rx_lcmc_mle_unitdata_ind. destruct (peek_type_total (ci_sdu prim) W) as (o & E & H5). rewrite E. step.
  destruct o as [ty|]; [|done]. destruct ty; lazymatch goal with
  | |- Some Dropped = None -> _ => intros [=] | |- route_xx_deliver _ _ = None -> _ => by apply route_xx_crash | _ => idtac end.
  - apply message_crash; [apply sound_u_status|done|]. intros s x. destruct (negb _); [apply sds_reply_some|].
    destruct (ust_called_party_ssi x); by eexists.
  - apply message_crash; [apply sound_u_sds_data|done|]. intros s x. destruct (negb _); [apply sds_reply_some|].
    destruct (usd_called_party_ssi x); by eexists.
  - destruct (rejected_spec UlFacility prim) as (out & E' & _). by rewrite E'.
Qed.

(** A U-RELEASE begins with its type. *)
Lemma release_bits x bs : URelease_ok x -> emits (URelease_to_bitbuf x) tt bs -> exists k, bs = val_bits 5 6 ++ k.
Proof.
  intros H He. destruct (URelease_roundtrips x H) as (bs' & He' & P). specialize (P []).
  assert (bs' = bs) as ->.
  { destruct (serialized_holds _ _ 0 He) as (s1 & E1 & H1). destruct (serialized_holds _ _ 0 He') as (s2 & E2 & H2).
    rewrite E1 in E2. injection E2 as ->. by rewrite <- (ho_window _ _ H1), <- (ho_window _ _ H2). }
  destruct (from_bitarr_holds bs) as (b & _ & Hb & _). unfold URelease_from_bitbuf in P.
  destruct (type_first 6 _ bs x b P (ho_wf _ _ Hb) (holds_remaining _ _ Hb)) as [Hl Ep].
  rewrite (peek_here b 5 (ho_wf _ _ Hb)), (holds_remaining _ _ Hb) in Ep by lia.
  unfold get_len_remaining in Hl. rewrite <- length_remaining, (holds_remaining _ _ Hb) in Hl.
  rewrite (proj2 (Nat.ltb_ge _ _) Hl) in Ep. injection Ep as Ev. exists (drop 5 bs). rewrite <- (take_drop 5 bs) at 1. f_equal.
  apply bits_val_inj; [rewrite length_take, length_val_bits; lia|by rewrite Ev].
Qed.

(** ** Claims *)

Lemma mle_hands_over sdu bs addr ep link handle :
  holds sdu (tl_sdu_img PdCmce bs) ->
  let prim := mkLcmcInd (with_pos sdu (pos sdu + 3)) handle ep link addr false None in
  route_prefixed_tl_sdu sdu addr ep link handle = Some [LcmcMleUnitdataIndMsg prim] /\ wf (ci_sdu prim) /\
  remaining (ci_sdu prim) = bs /\ get_len (ci_sdu prim) = 3 + length bs /\ window (ci_sdu prim) = tl_sdu_img PdCmce bs.
Proof.
  intros H prim. destruct (route_holds sdu PdCmce bs addr ep link handle H) as (sdu' & E & -> & W & R).
  split; [exact E|]. split; [exact W|]. split; [exact R|]. split.
  - change (get_len (ci_sdu prim)) with (get_len sdu). rewrite (holds_len _ _ H). unfold tl_sdu_img. by rewrite length_app, length_val_bits.
  - exact (ho_window _ _ H).
Qed.

(** C5 (an uplink PDU reaches its state machine).  Any of the twelve CMCE PDUs a mobile can send,
    written by its codec, behind the protocol discriminator of CMCE and of up to 257 bits, its
    elements of at most 128 bits, is routed by the MLE to CMCE and there, with every field as it was sent and with the sender's
    address, handle, link and endpoint, handed to the state machine for its type.  Where the PDU
    or an element of it is not supported, the sender gets one CMCE FUNCTION NOT SUPPORTED instead,
    which decodes to the PDU type, the call identifier and the pointer to the element; a short
    message from a station that is not registered is dropped. *)
Theorem uplink_pdu_delivered ctx p addr ep link handle :
  ul_ok p ->
  exists bs, emits (ul_to_bitbuf p) tt bs /\
    forall sdu, holds sdu (tl_sdu_img PdCmce bs) -> length bs <= 257 ->
      exists prim out, route_prefixed_tl_sdu sdu addr ep link handle = Some [LcmcMleUnitdataIndMsg prim] /\
        ci_received_tetra_address prim = addr /\ ci_handle prim = handle /\ ci_endpoint_id prim = ep /\ ci_link_id prim = link /\
        rx_lcmc_mle_unitdata_ind ctx prim = Some out /\ outcome_of ctx prim p out.
Proof.
  intros Hp. destruct (received_outcome ctx p Hp) as (bs & He & Hr). exists bs. split; [exact He|]. intros sdu Hs Hl.
  destruct (mle_hands_over sdu bs addr ep link handle Hs) as (E & W & R & Hg & _).
  destruct (Hr _ W R) as (out & Eo & Ho); [lia|]. eexists _, out. by split_and!.
Qed.

(** An element that makes the reception panic has a header and more than 128 bits. *)
Lemma crash_long sdu : wf sdu -> crash sdu -> 144 <= length (remaining sdu) \/ 260 < get_len sdu.
Proof.
  intros W [(p & Hp & id & len & rest & Hr & Hl & _)|H]; [left|by right].
  apply (f_equal length) in Hr. rewrite !length_app, !length_val_bits, !length_remaining in *. cbn in Hr. lia.
Qed.

(** C15 (short SDUs do not make the reception panic).  Whatever bits an SDU has, with fewer than
    144 of them behind the discriminator (and 260 in all) CMCE returns: it hands a PDU to its
    state machine, answers it or drops it. *)
Theorem short_sdu_never_panics ctx prim :
  wf (ci_sdu prim) -> length (remaining (ci_sdu prim)) < 144 -> get_len (ci_sdu prim) <= 260 ->
  exists out, rx_lcmc_mle_unitdata_ind ctx prim = Some out.
Proof.
  intros W Hr Hl. destruct (rx_lcmc_mle_unitdata_ind ctx prim) as [out|] eqn:E; [by exists out|].
  destruct (crash_long _ W (reception_crash ctx prim W E)); lia.
Qed.

(** C31 (a long PDU with an unsupported element stops the station).  A valid U-RELEASE with a
    facility or proprietary element and more than 257 bits makes the reception panic: the reply is
    to quote the whole PDU, its writer refuses an extract of more than 255 bits, and the caller
    expects it to succeed. *)
Theorem long_release_panics ctx x addr ep link handle :
  URelease_ok x -> is_some (url_facility x) || is_some (url_proprietary x) = true ->
  exists bs, emits (URelease_to_bitbuf x) tt bs /\
    forall sdu, holds sdu (tl_sdu_img PdCmce bs) -> 257 < length bs ->
      exists prim, route_prefixed_tl_sdu sdu addr ep link handle = Some [LcmcMleUnitdataIndMsg prim] /\
        rx_lcmc_mle_unitdata_ind ctx prim = None.
Proof.
  intros H Hu. destruct (URelease_roundtrips x H) as (bs & He & P). exists bs. split; [exact He|]. intros sdu Hs Hl.
  destruct (mle_hands_over sdu bs addr ep link handle Hs) as (E & W & R & Hg & _). eexists. split; [exact E|].
  set (prim := mkLcmcInd _ _ _ _ _ _ _) in *. specialize (P []). pose proof P as Q. unfold URelease_from_bitbuf in Q.
  destruct (peeked 6%Z UlRelease _ bs _ (ci_sdu prim) Q W R eq_refl) as [Ep H5].
  unfold rx_lcmc_mle_unitdata_ind, route_xx_deliver. rewrite Ep. step. unfold rx_u_release. rewrite (parsed_as _ bs x) by done.
  assert (unsupported_u_release_function x = Some 20%Z) as ->.
  { unfold unsupported_u_release_function. by destruct (is_some (url_facility x)), (is_some (url_proprietary x)). }
  assert (Hc : (0 <= url_call_identifier x < 2 ^ 14)%Z) by (destruct H; by eapply call_identifier_bound_only).
  pose proof (element_serialized UlRelease (url_call_identifier x) 20 (ci_sdu prim) W ltac:(lia) Hc ltac:(lia)
    (ci_received_tetra_address prim) (ci_handle prim) (ci_link_id prim) (ci_endpoint_id prim)) as Hx.
  rewrite (proj2 (Nat.leb_gt (get_len (ci_sdu prim)) 260)) in Hx by lia. unfold reject_or. by rewrite Hx.
Qed.

(** C40 (the extract starts three bits early).  The reply to a U-RELEASE with an unsupported
    element is meant to quote the received PDU without its 5-bit type.  The MLE leaves the 3-bit
    discriminator in the buffer it hands over, so the quote starts with the last three bits of
    the type, and all that follows is three bits late in it. *)
Theorem release_extract_starts_early ctx x addr ep link handle :
  URelease_ok x -> is_some (url_facility x) || is_some (url_proprietary x) = true ->
  exists bs, emits (URelease_to_bitbuf x) tt bs /\
    forall sdu, holds sdu (tl_sdu_img PdCmce bs) -> length bs <= 257 ->
      exists prim req, route_prefixed_tl_sdu sdu addr ep link handle = Some [LcmcMleUnitdataIndMsg prim] /\
        rx_lcmc_mle_unitdata_ind ctx prim = Some (Answered req) /\
        says_not_supported (lc_sdu req) UlRelease (Some (url_call_identifier x)) 20 (Some ([true; true; false] ++ drop 5 bs)).
Proof.
  intros H Hu. destruct (received_outcome ctx (PRelease x) H) as (bs & He & Hr). exists bs. split; [exact He|]. intros sdu Hs Hl.
  destruct (mle_hands_over sdu bs addr ep link handle Hs) as (E & W & R & Hg & Hw).
  destruct (Hr _ W R) as (out & Eo & Ho); [lia|]. cbn [outcome_of] in Ho.
  assert (Ex : unsupported_u_release_function x = Some 20%Z).
  { unfold unsupported_u_release_function. by destruct (is_some (url_facility x)), (is_some (url_proprietary x)). }
  rewrite Ex in Ho. destruct Ho as (req & -> & _ & _ & _ & _ & Hq). eexists _, req. split; [exact E|]. split; [exact Eo|].
  rewrite Hw in Hq. destruct (release_bits x bs H He) as (k & ->). exact Hq.
Qed.

(** ** Instances *)

Definition some_context : CmceContext := mkCmceContext (fun _ => None) (fun _ => true) 901 9999.
Definition ceased : UTxCeased := mkUTxCeased 4 None None None.
Definition caller : TetraAddress := mkAddr 2001 Issi.
Lemma uplink_pdu_delivered_witness :
  exists bs, emits (ul_to_bitbuf (PTxCeased ceased)) tt bs /\
    forall sdu, holds sdu (tl_sdu_img PdCmce bs) -> length bs <= 257 ->
      exists prim out, route_prefixed_tl_sdu sdu caller 1 0 0 = Some [LcmcMleUnitdataIndMsg prim] /\
        ci_received_tetra_address prim = caller /\ ci_handle prim = 0%Z /\ ci_endpoint_id prim = 1%Z /\ ci_link_id prim = 0%Z /\
        rx_lcmc_mle_unitdata_ind some_context prim = Some out /\ outcome_of some_context prim (PTxCeased ceased) out.
Proof. apply (uplink_pdu_delivered some_context (PTxCeased ceased) caller 1 0 0). by constructor. Defined.

(** A U-TX CEASED that announces a facility element of 2047 bits, of which 128 are there. *)
Definition overlong_ceased : LcmcMleUnitdataInd :=
  mkLcmcInd (buffer_of (val_bits 5 9 ++ val_bits 14 4 ++ [true; true] ++ val_bits 4 (elem_id Facility) ++ val_bits 11 2047 ++ replicate 128 false)) 0 1 0 caller false None.
Lemma overlong_ceased_panics : rx_lcmc_mle_unitdata_ind some_context overlong_ceased = None.
Proof. vm_compute. reflexivity. Qed.

(** Sixty bits of a U-TX CEASED with an element of 2047 bits. *)
Definition cut_ceased : LcmcMleUnitdataInd :=
  mkLcmcInd (buffer_of (val_bits 5 9 ++ val_bits 14 4 ++ [true] ++ [true] ++ val_bits 4 3 ++ val_bits 11 2047 ++ replicate 24 true))
    0 0 0 caller false None.
Lemma short_sdu_never_panics_witness : exists out, rx_lcmc_mle_unitdata_ind some_context cut_ceased = Some out.
Proof.
  apply short_sdu_never_panics; [apply buffer_of_holds| |].
  - cbn [ci_sdu cut_ceased]. rewrite (holds_remaining _ _ (buffer_of_holds _)), !length_app, !length_val_bits, length_replicate. cbn. lia.
  - cbn [ci_sdu cut_ceased]. rewrite (holds_len _ _ (buffer_of_holds _)), !length_app, !length_val_bits, length_replicate. cbn. lia.
Defined.

(** U-RELEASE with a facility element, and with two elements of 128 bits. *)
Definition short_release : URelease := mkURelease 4 DcUserRequestedDisconnection (Some (mkType3 (elem_id Facility) 8 1)) None.
Definition long_release : URelease :=
  mkURelease 4 DcUserRequestedDisconnection (Some (mkType3 (elem_id Facility) 128 1)) (Some (mkType3 (elem_id Proprietary) 128 1)).
Lemma short_release_ok : URelease_ok short_release.
Proof. constructor; [done|intros f [= <-]; constructor; cbn; lia|by intros f [=]|done]. Qed.
Lemma long_release_ok : URelease_ok long_release.
Proof. constructor; [done|intros f [= <-]; constructor; cbn; lia|intros f [= <-]; constructor; cbn; lia|done]. Qed.

(** Its image really has more than 257 bits. *)
Lemma long_release_length bs : emits (URelease_to_bitbuf long_release) tt bs -> length bs = 314.
Proof.
  intros He. destruct (serialized_holds _ _ 0 He) as (s & E & H). rewrite <- (holds_len _ _ H).
  vm_compute in E. injection E as <-. reflexivity.
Qed.

Lemma long_release_panics_witness :
  exists sdu prim, route_prefixed_tl_sdu sdu caller 1 0 0 = Some [LcmcMleUnitdataIndMsg prim] /\
    rx_lcmc_mle_unitdata_ind some_context prim = None.
Proof.
  destruct (long_release_panics some_context long_release caller 1 0 0 long_release_ok eq_refl) as (bs & He & H).
  exists (buffer_of (tl_sdu_img PdCmce bs)). apply H; [apply buffer_of_holds|]. rewrite (long_release_length bs He). lia.
Defined.

Lemma release_extract_starts_early_witness :
  exists bs, emits (URelease_to_bitbuf short_release) tt bs /\
    forall sdu, holds sdu (tl_sdu_img PdCmce bs) -> length bs <= 257 ->
      exists prim req, route_prefixed_tl_sdu sdu caller 1 0 0 = Some [LcmcMleUnitdataIndMsg prim] /\
        rx_lcmc_mle_unitdata_ind some_context prim = Some (Answered req) /\
        says_not_supported (lc_sdu req) UlRelease (Some 4%Z) 20 (Some ([true; true; false] ++ drop 5 bs)).
Proof. apply (release_extract_starts_early some_context short_release caller 1 0 0); [apply short_release_ok|reflexivity]. Defined.
