(* ===== verification/CmceDown.v ===== *)
(** * Downlink PDUs of the circuit mode control entity

    Every PDU the base station sends to a mobile is read back as it was sent, and the priority
    it is queued with, which the code finds by probing the serialized bits, is that of the PDU. *)

From Stdlib Require Import ZArith Lia ZifyNat.
From stdpp Require Import gmap strings.
From S2P Require Import Prelude.
From S2P Require Import BitBuffer.
From S2P Require Import BitBufferFacts.
From S2P Require Import Codec.
From S2P Require Import MacFields.
From S2P Require Import MacPdus.
From S2P Require Import Robust.
From S2P Require Import Typed.
From S2P Require Import CmceFields.
From S2P Require Import SdsCodec.
From S2P Require Import CmceDl.
From S2P Require Import Mle.
From S2P Require Import CmceIngress.
From S2P Require Import CmceReceive.

(** The PDUs a mobile may be sent. *)
Inductive DlPdu :=
  | QAlert (x : DAlert) | QCallProceeding (x : DCallProceeding) | QConnect (x : DConnect)
  | QConnectAcknowledge (x : DConnectAcknowledge) | QDisconnect (x : DDisconnect) | QInfo (x : DInfo)
  | QRelease (x : DRelease) | QSetup (x : DSetup) | QStatus (x : DStatus)
  | QTxCeased (x : DTxCeased) | QTxContinue (x : DTxContinue) | QTxGranted (x : DTxGranted)
  | QTxWait (x : DTxWait) | QTxInterrupt (x : DTxInterrupt) | QCallRestore (x : DCallRestore)
  | QSdsData (x : DSdsData) | QFacility (x : DFacility).

(** [CmcePduTypeDl] of a PDU, the first five bits of its encoding. *)
Definition dl_type (p : DlPdu) : Z :=
  match p with
  | QAlert _ => 0 | QCallProceeding _ => 1 | QConnect _ => 2 | QConnectAcknowledge _ => 3 | QDisconnect _ => 4 | QInfo _ => 5
  | QRelease _ => 6 | QSetup _ => 7 | QStatus _ => 8 | QTxCeased _ => 9 | QTxContinue _ => 10 | QTxGranted _ => 11
  | QTxWait _ => 12 | QTxInterrupt _ => 13 | QCallRestore _ => 14 | QSdsData _ => 15 | QFacility _ => 16
  end.

Definition dl_to_bitbuf (p : DlPdu) : M unit :=
  match p with
  | QAlert x => DAlert_to_bitbuf x | QCallProceeding x => DCallProceeding_to_bitbuf x | QConnect x => DConnect_to_bitbuf x
  | QConnectAcknowledge x => DConnectAcknowledge_to_bitbuf x | QDisconnect x => DDisconnect_to_bitbuf x | QInfo x => DInfo_to_bitbuf x
  | QRelease x => DRelease_to_bitbuf x | QSetup x => DSetup_to_bitbuf x | QStatus x => DStatus_to_bitbuf x
  | QTxCeased x => DTxCeased_to_bitbuf x | QTxContinue x => DTxContinue_to_bitbuf x | QTxGranted x => DTxGranted_to_bitbuf x
  | QTxWait x => DTxWait_to_bitbuf x | QTxInterrupt x => DTxInterrupt_to_bitbuf x | QCallRestore x => DCallRestore_to_bitbuf x
  | QSdsData x => DSdsData_to_bitbuf x | QFacility x => DFacility_to_bitbuf x
  end.

(** The parser of the type of [p]. *)
Definition dl_from_bitbuf (p : DlPdu) : M DlPdu :=
  match p with
  | QAlert _ => x ← DAlert_from_bitbuf; mret (QAlert x) | QCallProceeding _ => x ← DCallProceeding_from_bitbuf; mret (QCallProceeding x)
  | QConnect _ => x ← DConnect_from_bitbuf; mret (QConnect x) | QConnectAcknowledge _ => x ← DConnectAcknowledge_from_bitbuf; mret (QConnectAcknowledge x)
  | QDisconnect _ => x ← DDisconnect_from_bitbuf; mret (QDisconnect x) | QInfo _ => x ← DInfo_from_bitbuf; mret (QInfo x)
  | QRelease _ => x ← DRelease_from_bitbuf; mret (QRelease x) | QSetup _ => x ← DSetup_from_bitbuf; mret (QSetup x)
  | QStatus _ => x ← DStatus_from_bitbuf; mret (QStatus x) | QTxCeased _ => x ← DTxCeased_from_bitbuf; mret (QTxCeased x)
  | QTxContinue _ => x ← DTxContinue_from_bitbuf; mret (QTxContinue x) | QTxGranted _ => x ← DTxGranted_from_bitbuf; mret (QTxGranted x)
  | QTxWait _ => x ← DTxWait_from_bitbuf; mret (QTxWait x) | QTxInterrupt _ => x ← DTxInterrupt_from_bitbuf; mret (QTxInterrupt x)
  | QCallRestore _ => x ← DCallRestore_from_bitbuf; mret (QCallRestore x) | QSdsData _ => x ← DSdsData_from_bitbuf; mret (QSdsData x)
  | QFacility _ => x ← DFacility_from_bitbuf; mret (QFacility x)
  end.

(** What the field types of a PDU hold and its encoder accepts, with the generic elements in the
    form the parsers make, which the encoders do not check. *)
Definition dl_ok (p : DlPdu) : Prop :=
  match p with
  | QAlert x => DAlert_ok x | QCallProceeding x => DCallProceeding_ok x | QConnect x => DConnect_ok x
  | QConnectAcknowledge x => DConnectAcknowledge_ok x | QDisconnect x => DDisconnect_ok x | QInfo x => DInfo_ok x
  | QRelease x => DRelease_ok x | QSetup x => DSetup_ok x | QStatus x => DStatus_ok x
  | QTxCeased x => DTxCeased_ok x | QTxContinue x => DTxContinue_ok x | QTxGranted x => DTxGranted_ok x
  | QTxWait x => DTxWait_ok x | QTxInterrupt x => DTxInterrupt_ok x | QCallRestore x => DCallRestore_ok x
  | QSdsData x => DSdsData_ok x | QFacility x => True
  end.

(** The PDUs that say who may speak. *)
Definition floor_control (p : DlPdu) : bool :=
  match p with
  | QTxCeased _ | QTxInterrupt _ => true
  | QTxGranted x =>
      match TransmissionGrant_try_from (dtg_transmission_grant x) with
      | Some (TgGranted | TgGrantedToOtherUser) => true
      | _ => false
      end
  | _ => false
  end.

(** The type probed is that of the parser that accepts the bits. *)
Lemma type_read {A} t (k : M A) bs x name b :
  parses (expect_pdu_type 5 t;; k) bs [] x -> wf b -> remaining b = bs -> exists b', read_field 5 name b = Ok t b'.
Proof.
  intros P W R. specialize (P b W). rewrite app_nil_r in P. specialize (P R).
  unfold expect_pdu_type, mbind, method_bind in P. cbn beta in P.
  unfold read_field, mbind, method_bind in *. destruct (read_bits 5 b) as [[v|] b1|?|]; try done. cbn in *.
  destruct (Z.eqb_spec v t) as [->|]; [by eexists|done].
Qed.

Lemma wrapped {T} (to_bitbuf : T -> M unit) t (k : M T) (f : T -> DlPdu) x :
  roundtrips to_bitbuf (expect_pdu_type 5 t;; k) x ->
  exists bs, emits (to_bitbuf x) tt bs /\ (forall rest, parses (y ← (expect_pdu_type 5 t;; k); mret (f y)) bs rest (f x)) /\
    forall name b, wf b -> remaining b = bs -> exists b', read_field 5 name b = Ok t b'.
Proof.
  intros (bs & He & P). exists bs. split_and!; [done|intros rest; by apply parses_fmap|].
  intros name b. exact (type_read _ _ _ _ name b (P [])).
Qed.

Lemma dl_roundtrips p :
  dl_ok p -> exists bs, emits (dl_to_bitbuf p) tt bs /\ (forall rest, parses (dl_from_bitbuf p) bs rest p) /\
    forall name b, wf b -> remaining b = bs -> exists b', read_field 5 name b = Ok (dl_type p) b'.
Proof.
  destruct p as [x|x|x|x|x|x|x|x|x|x|x|x|x|x|x|x|x]; cbn [dl_ok]; intros Hp.
  - exact (wrapped _ _ _ QAlert x (DAlert_roundtrips x Hp)).
  - exact (wrapped _ _ _ QCallProceeding x (DCallProceeding_roundtrips x Hp)).
  - exact (wrapped _ _ _ QConnect x (DConnect_roundtrips x Hp)).
  - exact (wrapped _ _ _ QConnectAcknowledge x (DConnectAcknowledge_roundtrips x Hp)).
  - exact (wrapped _ _ _ QDisconnect x (DDisconnect_roundtrips x Hp)).
  - exact (wrapped _ _ _ QInfo x (DInfo_roundtrips x Hp)).
  - exact (wrapped _ _ _ QRelease x (DRelease_roundtrips x Hp)).
  - exact (wrapped _ _ _ QSetup x (DSetup_roundtrips x Hp)).
  - exact (wrapped _ _ _ QStatus x (DStatus_roundtrips x Hp)).
  - exact (wrapped _ _ _ QTxCeased x (DTxCeased_roundtrips x Hp)).
  - exact (wrapped _ _ _ QTxContinue x (DTxContinue_roundtrips x Hp)).
  - exact (wrapped _ _ _ QTxGranted x (DTxGranted_roundtrips x Hp)).
  - exact (wrapped _ _ _ QTxWait x (DTxWait_roundtrips x Hp)).
  - exact (wrapped _ _ _ QTxInterrupt x (DTxInterrupt_roundtrips x Hp)).
  - exact (wrapped _ _ _ QCallRestore x (DCallRestore_roundtrips x Hp)).
  - exact (wrapped _ _ _ QSdsData x (DSdsData_roundtrips x Hp)).
  - exact (wrapped _ _ _ QFacility x (DFacility_roundtrips x)).
Qed.

Lemma dl_serialized p room :
  dl_ok p -> exists sdu bs, serialized (dl_to_bitbuf p) room = Some sdu /\ holds sdu bs /\
    (forall rest, parses (dl_from_bitbuf p) bs rest p) /\
    forall name b, wf b -> remaining b = bs -> exists b', read_field 5 name b = Ok (dl_type p) b'.
Proof.
  intros Hp. destruct (dl_roundtrips p Hp) as (bs & He & P & Ht). destruct (serialized_holds _ _ room He) as (sdu & E & Hh). by exists sdu, bs.
Qed.

(** C22 (downlink PDUs are read back).  Every downlink PDU of call control and short data that
    satisfies its encoder's checks, and whose elements are such as the parsers make (type 3 elements
    of at most 128 bits, status values and user data in their one form), is serialized into a buffer of any initial size without a panic, and the parser of its type
    reads the same PDU back from that buffer and leaves nothing of it unread. *)
Theorem downlink_pdus_roundtrip p room :
  dl_ok p -> exists sdu sdu', serialized (dl_to_bitbuf p) room = Some sdu /\ dl_from_bitbuf p sdu = Ok p sdu' /\
    get_len_remaining sdu' = 0.
Proof.
  intros Hp. destruct (dl_serialized p room Hp) as (sdu & bs & E & Hh & P & _). exists sdu. eexists. split; [done|].
  pose proof (holds_remaining _ _ Hh) as Hr. split.
  { apply (P []); [apply Hh|by rewrite app_nil_r]. }
  apply (f_equal length) in Hr. rewrite length_remaining in Hr. unfold get_len_remaining. cbn. lia.
Qed.

(** C23 (priority of a downlink message).  The priority of a downlink message, found by probing the bits of the serialized PDU for
    its type and, in a D-TX-GRANTED, for its grant, is the floor control priority for exactly the
    PDUs that tell a mobile to stop or start speaking, and 0 for all others: the probe never
    panics and its answer does not depend on the rest of the PDU. *)
Theorem downlink_priority_of_pdu p room :
  dl_ok p -> exists sdu, serialized (dl_to_bitbuf p) room = Some sdu /\
    cmce_downlink_pdu_prio sdu = Some (if floor_control p then CMCE_FLOOR_CONTROL_PDU_PRIO else 0%Z).
Proof.
  intros Hp. destruct (dl_serialized p room Hp) as (sdu & bs & E & Hh & P & Ht). exists sdu. split; [done|].
  unfold cmce_downlink_pdu_prio. destruct (from_bitbuffer_holds sdu (ho_wf _ _ Hh)) as (probe & Ep & Hp').
  rewrite Ep. step. rewrite (ho_window _ _ Hh) in Hp'. pose proof (holds_remaining _ _ Hp') as Hr.
  destruct (Ht "cmce_pdu_type_dl" probe (ho_wf _ _ Hp') Hr) as (b' & ->).
  destruct p; try reflexivity. cbn [dl_type floor_control].
  change ((11 =? D_TX_CEASED)%Z || (11 =? D_TX_INTERRUPT)%Z) with false. change (11 =? D_TX_GRANTED)%Z with true. cbv iota.
  specialize (P [] probe (ho_wf _ _ Hp')). rewrite app_nil_r in P. specialize (P Hr).
  cbn [dl_from_bitbuf] in P. unfold mbind, method_bind in P.
  destruct (DTxGranted_from_bitbuf probe) as [y b1|?|]; try done. injection P as -> _.
  by destruct (TransmissionGrant_try_from (dtg_transmission_grant x)) as [[]|].
Qed.

(** A grant of the floor to another user, with the speaker's address. *)
Definition grant_example : DTxGranted :=
  mkDTxGranted 77 3 false false false None (Some 1%Z) (Some 2000001%Z) None None None None None.

Lemma downlink_pdus_roundtrip_witness :
  exists sdu sdu', serialized (dl_to_bitbuf (QTxGranted grant_example)) 80 = Some sdu /\
    dl_from_bitbuf (QTxGranted grant_example) sdu = Ok (QTxGranted grant_example) sdu' /\ get_len_remaining sdu' = 0.
Proof. apply (downlink_pdus_roundtrip (QTxGranted grant_example) 80). constructor; first [done | reflexivity | by intros ? [= <-]]. Defined.

Lemma downlink_priority_of_pdu_witness :
  exists sdu, serialized (dl_to_bitbuf (QTxGranted grant_example)) 80 = Some sdu /\ cmce_downlink_pdu_prio sdu = Some 7%Z.
Proof. apply (downlink_priority_of_pdu (QTxGranted grant_example) 80). constructor; first [done | reflexivity | by intros ? [= <-]]. Defined.
