(* ===== verification/SndcpPdus.v ===== *)
(** * PDUs of the packet data convergence protocol (crates/tetra-entities/src/sndcp)

    [pdp.rs]: activation and deactivation of packet data contexts; [transfer.rs]: control of
    the transfer; [unitdata.rs]: user data; with the primitives of [tetra-saps/src/sn.rs]. *)

From Stdlib Require Import ZArith Lia ZifyNat.
From stdpp Require Import strings.
From S2P Require Import Prelude.
From S2P Require Import BitBuffer.
From S2P Require Import BitBufferFacts.
From S2P Require Import Codec.
From S2P Require Import Frag.

(** ** SN-SAP *)

Inductive SnPdpType := PdpIpv4 | PdpIpv6.
#[export] Instance SnPdpType_eq_dec : EqDecision SnPdpType.
Proof. solve_decision. Defined.

Definition Ipv4Octets : Type := Z * Z * Z * Z.

Inductive SnAddress := DynamicIpv4 | Ipv4 (address : Ipv4Octets) | Ipv6 (address : list Z).
#[export] Instance SnAddress_eq_dec : EqDecision SnAddress.
Proof. solve_decision. Defined.

Inductive SnPacketDataMsType := TypeAParallel | TypeBAlternating | TypeCIpSingleMode | TypeDRestrictedIpSingleMode.
#[export] Instance SnPacketDataMsType_eq_dec : EqDecision SnPacketDataMsType.
Proof. solve_decision. Defined.

(** [validate_nsapi], as a test *)
Definition validate_nsapi (nsapi : Z) : bool := ((1 <=? nsapi) && (nsapi <=? 14))%Z.
Definition validate_pdu_priority (pdu_priority : Z) : bool := (pdu_priority <=? 7)%Z.

(** ** Reading and writing

    The modules have readers of the same shape over their own error types; [PduError] names
    the errors they share. *)

Class PduError (E : Type) := {
  TooShort : string -> E;
  TrailingBits : nat -> E;
  UnsupportedOptionalElements : E;
  UnexpectedPduType : Z -> Z -> E;
  ReservedNsapi : Z -> E
}.

Section readers.
Context {E : Type} `{PduError E}.

Abbreviation D := (method BitBuffer E).

Definition read_sn (bits : nat) (field : string) : D Z := fun pdu =>
  match read_bits bits pdu with
  | Ok (Some value) pdu => Ok (u8 value) pdu
  | Ok None pdu => Err (TooShort field) pdu
  | Err _ _ | Panic => Panic
  end.
Definition read_sn_bool (field : string) : D bool := v ← read_sn 1 field; mret (negb (v =? 0)%Z).

Definition expect_sn_pdu_type (expected : Z) : D unit :=
  actual ← read_sn 4 "sn_pdu_type";
  if (actual =? expected)%Z then mret tt else fail (UnexpectedPduType expected actual).

Definition reject_trailing_bits : D unit := fun pdu =>
  if get_len_remaining pdu =? 0 then Ok tt pdu else Err (TrailingBits (get_len_remaining pdu)) pdu.

Definition read_no_optional_tail : D unit :=
  o_bit ← read_sn 1 "o_bit";
  if (o_bit =? 0)%Z then reject_trailing_bits else fail UnsupportedOptionalElements.

Definition nsapi_valid (nsapi : Z) : unit + E := if validate_nsapi nsapi then inl tt else inr (ReservedNsapi nsapi).

(** [validate(..)?] in a reader and in a writer *)
Definition ensure (c : unit + E) : D unit := match c with inl _ => mret tt | inr e => fail e end.
Definition ensuring {A} (c : unit + E) (k : option (A + E)) : option (A + E) :=
  match c with inl _ => k | inr e => Some (inr e) end.

(** [reader], then the fields *)
Definition decoded {A} (m : D A) (pdu : BitBuffer) : option (A + E) :=
  pdu ← from_bitbuffer pdu;
  '(_, pdu) ← run (seek 0) pdu;
  match m pdu with Ok a _ => Some (inl a) | Err e _ => Some (inr e) | Panic => None end.

(** [BitBuffer::new(len)], the fields, [seek(0)] *)
Definition encoded (len : nat) (m : M unit) : option (BitBuffer + E) :=
  '(_, pdu) ← run m (new len);
  '(_, pdu) ← run (seek 0) pdu;
  Some (inl pdu).
End readers.
Arguments ensuring {E A} c k.

Definition write_no_optional_elements : M unit := write_bits 0 1.

(** ** Packet data contexts ([pdp.rs]) *)

Inductive SndcpPdpError :=
  | PdpTooShort (field : string)
  | PdpTrailingBits (bits : nat)
  | PdpUnsupportedOptionalElements
  | PdpUnexpectedPduType (expected actual : Z)
  | ReservedSndcpVersion (version : Z)
  | PdpReservedNsapi (nsapi : Z)
  | ReservedAddressTypeIdentifierInDemand (code : Z)
  | ReservedTypeIdentifierInAccept (code : Z)
  | ReservedPacketDataMsType (code : Z)
  | ReservedReadyTimer (timer : Z)
  | ReservedStandbyTimer (timer : Z)
  | ReservedResponseWaitTimer (timer : Z)
  | ReservedPduPriorityMax (priority : Z)
  | ReservedMaximumTransmissionUnit (code : Z)
  | ReservedDeactivationType (code : Z)
  | UnsupportedPcompNegotiation (pcomp : Z)
  | MissingStaticIpv4Address
  | MissingPrimaryNsapi.
#[export] Instance SndcpPdpError_pdu : PduError SndcpPdpError :=
  {| TooShort := PdpTooShort; TrailingBits := PdpTrailingBits; UnsupportedOptionalElements := PdpUnsupportedOptionalElements;
     UnexpectedPduType := PdpUnexpectedPduType; ReservedNsapi := PdpReservedNsapi |}.

Inductive SndcpTypeIdentifierInAccept := NoAddress | Ipv4StaticAddress | Ipv4DynamicAddress.
Inductive SndcpMaximumTransmissionUnit := Octets296 | Octets576 | Octets1006 | Octets1500 | Octets2002.
#[export] Instance SndcpMaximumTransmissionUnit_eq_dec : EqDecision SndcpMaximumTransmissionUnit.
Proof. solve_decision. Defined.

Inductive SndcpActivateAddressDemand :=
  | DemandIpv4Static (address : Ipv4Octets)
  | DemandIpv4Dynamic
  | DemandIpv6
  | DemandMobileIpv4ForeignAgentCareOfAddress
  | DemandMobileIpv4CoLocatedCareOfAddress
  | DemandSecondaryPdpContext (primary_nsapi : Z).

Record SndcpActivatePdpContextDemand := mkDemand {
  ad_sndcp_version : Z;
  ad_nsapi : Z;
  ad_address : SndcpActivateAddressDemand;
  ad_packet_data_ms_type : SnPacketDataMsType;
  ad_pcomp_negotiation : Z
}.

Record SndcpActivatePdpContextAccept := mkAccept {
  aa_nsapi : Z;
  aa_pdu_priority_max : Z;
  aa_ready_timer : Z;
  aa_standby_timer : Z;
  aa_response_wait_timer : Z;
  aa_type_identifier : SndcpTypeIdentifierInAccept;
  aa_assigned_address : option SnAddress;
  aa_pcomp_negotiation : Z;
  aa_maximum_transmission_unit : SndcpMaximumTransmissionUnit
}.

Inductive SndcpActivationRejectCause :=
  | ArUndefined | ArMsNotProvisionedForPacketData | ArIpv4NotSupported | ArIpv6NotSupported
  | ArIpv4DynamicAddressNegotiationNotSupported | ArDynamicAddressPoolEmpty | ArStaticAddressNotCorrect
  | ArStaticAddressInUse | ArStaticAddressNotAllowed | ArPacketDataMsTypeNotSupported | ArSndcpVersionNotSupported
  | ArMaximumNumberOfPdpContextsPerItsiExceeded | ArSecondaryPdpContextsNotSupported
  | ArPrimaryPdpContextDoesNotExist | ArSndcpServiceTemporarilyNotAvailable | ArOther (code : Z).

Record SndcpActivatePdpContextReject := mkReject { ar_nsapi : Z; ar_cause : SndcpActivationRejectCause }.

Inductive SndcpDeactivation := AllNsapis | Nsapi (nsapi : Z).

Definition validate_sndcp_version (version : Z) : unit + SndcpPdpError :=
  if (version =? 1)%Z then inl tt else inr (ReservedSndcpVersion version).
Definition validate_pcomp_negotiation (pcomp : Z) : unit + SndcpPdpError :=
  if (pcomp =? 0)%Z then inl tt else inr (UnsupportedPcompNegotiation pcomp).
Definition validate_pdu_priority_max (priority : Z) : unit + SndcpPdpError :=
  if (priority <=? 7)%Z then inl tt else inr (ReservedPduPriorityMax priority).
Definition validate_ready_timer (timer : Z) : unit + SndcpPdpError :=
  if ((1 <=? timer) && (timer <=? 14))%Z then inl tt else inr (ReservedReadyTimer timer).
Definition validate_standby_timer (timer : Z) : unit + SndcpPdpError :=
  if ((1 <=? timer) && (timer <=? 15))%Z then inl tt else inr (ReservedStandbyTimer timer).
Definition validate_response_wait_timer (timer : Z) : unit + SndcpPdpError :=
  if (timer <=? 14)%Z then inl tt else inr (ReservedResponseWaitTimer timer).

Definition address_demand_code (address : SndcpActivateAddressDemand) : Z :=
  match address with
  | DemandIpv4Static _ => 0 | DemandIpv4Dynamic => 1 | DemandIpv6 => 2
  | DemandMobileIpv4ForeignAgentCareOfAddress => 3 | DemandMobileIpv4CoLocatedCareOfAddress => 4
  | DemandSecondaryPdpContext _ => 5
  end.
Definition packet_data_ms_type (code : Z) : SnPacketDataMsType + SndcpPdpError :=
  match code with
  | 0 => inl TypeAParallel | 1 => inl TypeBAlternating | 2 => inl TypeCIpSingleMode
  | 3 => inl TypeDRestrictedIpSingleMode | other => inr (ReservedPacketDataMsType other)
  end%Z.
Definition packet_data_ms_type_code (x : SnPacketDataMsType) : Z :=
  match x with TypeAParallel => 0 | TypeBAlternating => 1 | TypeCIpSingleMode => 2 | TypeDRestrictedIpSingleMode => 3 end.
Definition type_identifier_in_accept (code : Z) : SndcpTypeIdentifierInAccept + SndcpPdpError :=
  match code with
  | 0 => inl NoAddress | 1 => inl Ipv4StaticAddress | 2 => inl Ipv4DynamicAddress
  | other => inr (ReservedTypeIdentifierInAccept other)
  end%Z.
Definition type_identifier_in_accept_code (x : SndcpTypeIdentifierInAccept) : Z :=
  match x with NoAddress => 0 | Ipv4StaticAddress => 1 | Ipv4DynamicAddress => 2 end.
Definition maximum_transmission_unit (code : Z) : SndcpMaximumTransmissionUnit + SndcpPdpError :=
  match code with
  | 1 => inl Octets296 | 2 => inl Octets576 | 3 => inl Octets1006 | 4 => inl Octets1500 | 5 => inl Octets2002
  | other => inr (ReservedMaximumTransmissionUnit other)
  end%Z.
Definition maximum_transmission_unit_code (x : SndcpMaximumTransmissionUnit) : Z :=
  match x with Octets296 => 1 | Octets576 => 2 | Octets1006 => 3 | Octets1500 => 4 | Octets2002 => 5 end.
Definition deactivation_type_code (x : SndcpDeactivation) : Z := match x with AllNsapis => 0 | Nsapi _ => 1 end.
Definition activation_reject_cause (code : Z) : SndcpActivationRejectCause :=
  match code with
  | 0 => ArUndefined | 1 => ArMsNotProvisionedForPacketData | 2 => ArIpv4NotSupported | 3 => ArIpv6NotSupported
  | 4 => ArIpv4DynamicAddressNegotiationNotSupported | 7 => ArDynamicAddressPoolEmpty | 8 => ArStaticAddressNotCorrect
  | 9 => ArStaticAddressInUse | 10 => ArStaticAddressNotAllowed | 15 => ArPacketDataMsTypeNotSupported
  | 16 => ArSndcpVersionNotSupported | 19 => ArMaximumNumberOfPdpContextsPerItsiExceeded
  | 27 => ArSecondaryPdpContextsNotSupported | 28 => ArPrimaryPdpContextDoesNotExist
  | 34 => ArSndcpServiceTemporarilyNotAvailable | other => ArOther other
  end%Z.
Definition activation_reject_cause_code (cause : SndcpActivationRejectCause) : Z :=
  match cause with
  | ArUndefined => 0 | ArMsNotProvisionedForPacketData => 1 | ArIpv4NotSupported => 2 | ArIpv6NotSupported => 3
  | ArIpv4DynamicAddressNegotiationNotSupported => 4 | ArDynamicAddressPoolEmpty => 7 | ArStaticAddressNotCorrect => 8
  | ArStaticAddressInUse => 9 | ArStaticAddressNotAllowed => 10 | ArPacketDataMsTypeNotSupported => 15
  | ArSndcpVersionNotSupported => 16 | ArMaximumNumberOfPdpContextsPerItsiExceeded => 19
  | ArSecondaryPdpContextsNotSupported => 27 | ArPrimaryPdpContextDoesNotExist => 28
  | ArSndcpServiceTemporarilyNotAvailable => 34 | ArOther code => code
  end.

Definition lift_sum {A} (x : A + SndcpPdpError) : method BitBuffer SndcpPdpError A :=
  match x with inl a => mret a | inr e => fail e end.

Definition read_ipv4 : method BitBuffer SndcpPdpError Ipv4Octets :=
  o1 ← read_sn 8 "ipv4_octet_1"; o2 ← read_sn 8 "ipv4_octet_2";
  o3 ← read_sn 8 "ipv4_octet_3"; o4 ← read_sn 8 "ipv4_octet_4";
  mret (o1, o2, o3, o4).
Definition write_ipv4 (address : Ipv4Octets) : M unit :=
  let '(o1, o2, o3, o4) := address in write_bits o1 8;; write_bits o2 8;; write_bits o3 8;; write_bits o4 8.

Definition encode_activate_pdp_context_demand (demand : SndcpActivatePdpContextDemand) : option (BitBuffer + SndcpPdpError) :=
  ensuring (validate_sndcp_version (ad_sndcp_version demand)) (
  ensuring (nsapi_valid (ad_nsapi demand)) (
  ensuring (validate_pcomp_negotiation (ad_pcomp_negotiation demand)) (
  let atid := address_demand_code (ad_address demand) in
  let go conditional_len conditional :=
    encoded (4 + 4 + 4 + 3 + conditional_len + 4 + 8 + 1) (
      write_bits 0 4;;
      write_bits (ad_sndcp_version demand) 4;;
      write_bits (ad_nsapi demand) 4;;
      write_bits atid 3;;
      conditional;;
      write_bits (packet_data_ms_type_code (ad_packet_data_ms_type demand)) 4;;
      write_bits (ad_pcomp_negotiation demand) 8;;
      write_no_optional_elements) in
  match ad_address demand with
  | DemandIpv4Static address => go 32 (write_ipv4 address)
  | DemandSecondaryPdpContext primary_nsapi => ensuring (nsapi_valid primary_nsapi) (go 4 (write_bits primary_nsapi 4))
  | _ => go 0 (mret tt)
  end))).

Definition read_address_demand (atid : Z) : method BitBuffer SndcpPdpError SndcpActivateAddressDemand :=
  match atid with
  | 0 => address ← read_ipv4; mret (DemandIpv4Static address)
  | 1 => mret DemandIpv4Dynamic
  | 2 => mret DemandIpv6
  | 3 => mret DemandMobileIpv4ForeignAgentCareOfAddress
  | 4 => mret DemandMobileIpv4CoLocatedCareOfAddress
  | 5 =>
      primary_nsapi ← read_sn 4 "primary_nsapi";
      ensure (nsapi_valid primary_nsapi);;
      mret (DemandSecondaryPdpContext primary_nsapi)
  | other => fail (ReservedAddressTypeIdentifierInDemand other)
  end%Z.

Definition decode_activate_pdp_context_demand : BitBuffer -> option (SndcpActivatePdpContextDemand + SndcpPdpError) :=
  decoded (
    expect_sn_pdu_type 0;;
    sndcp_version ← read_sn 4 "sndcp_version";
    ensure (validate_sndcp_version sndcp_version);;
    nsapi ← read_sn 4 "nsapi";
    ensure (nsapi_valid nsapi);;
    atid ← read_sn 3 "address_type_identifier_in_demand";
    address ← read_address_demand atid;
    code ← read_sn 4 "packet_data_ms_type";
    packet_data_ms_type ← lift_sum (packet_data_ms_type code);
    pcomp_negotiation ← read_sn 8 "pcomp_negotiation";
    ensure (validate_pcomp_negotiation pcomp_negotiation);;
    read_no_optional_tail;;
    mret (mkDemand sndcp_version nsapi address packet_data_ms_type pcomp_negotiation)).

Definition encode_activate_pdp_context_accept (accept : SndcpActivatePdpContextAccept) : option (BitBuffer + SndcpPdpError) :=
  ensuring (nsapi_valid (aa_nsapi accept)) (
  ensuring (validate_pdu_priority_max (aa_pdu_priority_max accept)) (
  ensuring (validate_ready_timer (aa_ready_timer accept)) (
  ensuring (validate_standby_timer (aa_standby_timer accept)) (
  ensuring (validate_response_wait_timer (aa_response_wait_timer accept)) (
  ensuring (validate_pcomp_negotiation (aa_pcomp_negotiation accept)) (
  let head :=
    write_bits 0 4;;
    write_bits (aa_nsapi accept) 4;;
    write_bits (aa_pdu_priority_max accept) 3;;
    write_bits (aa_ready_timer accept) 4;;
    write_bits (aa_standby_timer accept) 4;;
    write_bits (aa_response_wait_timer accept) 4;;
    write_bits (type_identifier_in_accept_code (aa_type_identifier accept)) 3 in
  let tail :=
    write_bits (aa_pcomp_negotiation accept) 8;;
    write_bits (maximum_transmission_unit_code (aa_maximum_transmission_unit accept)) 3;;
    write_no_optional_elements in
  let len conditional_len := 4 + 4 + 3 + 4 + 4 + 4 + 3 + conditional_len + 8 + 3 + 1 in
  match aa_type_identifier accept with
  | NoAddress => encoded (len 0) (head;; tail)
  | _ =>
      match aa_assigned_address accept with
      | Some (Ipv4 address) => encoded (len 32) (head;; write_ipv4 address;; tail)
      | _ => run head (new (len 32)) ≫= (fun _ => Some (inr MissingStaticIpv4Address))
      end
  end)))))).

Definition decode_activate_pdp_context_accept : BitBuffer -> option (SndcpActivatePdpContextAccept + SndcpPdpError) :=
  decoded (
    expect_sn_pdu_type 0;;
    nsapi ← read_sn 4 "nsapi";
    ensure (nsapi_valid nsapi);;
    pdu_priority_max ← read_sn 3 "pdu_priority_max";
    ensure (validate_pdu_priority_max pdu_priority_max);;
    ready_timer ← read_sn 4 "ready_timer";
    ensure (validate_ready_timer ready_timer);;
    standby_timer ← read_sn 4 "standby_timer";
    ensure (validate_standby_timer standby_timer);;
    response_wait_timer ← read_sn 4 "response_wait_timer";
    ensure (validate_response_wait_timer response_wait_timer);;
    code ← read_sn 3 "type_identifier_in_accept";
    type_identifier ← lift_sum (type_identifier_in_accept code);
    assigned_address ← match type_identifier with
                       | NoAddress => mret None
                       | _ => address ← read_ipv4; mret (Some (Ipv4 address))
                       end;
    pcomp_negotiation ← read_sn 8 "pcomp_negotiation";
    ensure (validate_pcomp_negotiation pcomp_negotiation);;
    code ← read_sn 3 "maximum_transmission_unit";
    mtu ← lift_sum (maximum_transmission_unit code);
    read_no_optional_tail;;
    mret (mkAccept nsapi pdu_priority_max ready_timer standby_timer response_wait_timer type_identifier assigned_address
      pcomp_negotiation mtu)).

Definition encode_activate_pdp_context_reject (reject : SndcpActivatePdpContextReject) : option (BitBuffer + SndcpPdpError) :=
  ensuring (nsapi_valid (ar_nsapi reject)) (
  encoded (4 + 4 + 8 + 1) (
    write_bits 3 4;;
    write_bits (ar_nsapi reject) 4;;
    write_bits (activation_reject_cause_code (ar_cause reject)) 8;;
    write_no_optional_elements)).

Definition decode_activate_pdp_context_reject : BitBuffer -> option (SndcpActivatePdpContextReject + SndcpPdpError) :=
  decoded (
    expect_sn_pdu_type 3;;
    nsapi ← read_sn 4 "nsapi";
    ensure (nsapi_valid nsapi);;
    code ← read_sn 8 "activation_reject_cause";
    read_no_optional_tail;;
    mret (mkReject nsapi (activation_reject_cause code))).

Definition encode_deactivate_pdp_context (pdu_type : Z) (deactivation : SndcpDeactivation) : option (BitBuffer + SndcpPdpError) :=
  let go conditional_len conditional :=
    encoded (4 + 8 + conditional_len + 1) (
      write_bits pdu_type 4;;
      write_bits (deactivation_type_code deactivation) 8;;
      conditional;;
      write_no_optional_elements) in
  match deactivation with
  | AllNsapis => go 0 (mret tt)
  | Nsapi nsapi => ensuring (nsapi_valid nsapi) (go 4 (write_bits nsapi 4))
  end.

Definition decode_deactivate_pdp_context (expected_pdu_type : Z) : BitBuffer -> option (SndcpDeactivation + SndcpPdpError) :=
  decoded (
    expect_sn_pdu_type expected_pdu_type;;
    deactivation_type ← read_sn 8 "deactivation_type";
    deactivation ← match deactivation_type with
                   | 0 => mret AllNsapis
                   | 1 => nsapi ← read_sn 4 "nsapi"; ensure (nsapi_valid nsapi);; mret (Nsapi nsapi)
                   | other => fail (ReservedDeactivationType other)
                   end%Z;
    read_no_optional_tail;;
    mret deactivation).
Definition encode_deactivate_pdp_context_demand := encode_deactivate_pdp_context 2.
Definition decode_deactivate_pdp_context_demand := decode_deactivate_pdp_context 2.
Definition encode_deactivate_pdp_context_accept := encode_deactivate_pdp_context 1.
Definition decode_deactivate_pdp_context_accept := decode_deactivate_pdp_context 1.

(** ** Transfer control ([transfer.rs]) *)

Record SndcpPhaseModulationResourceRequest := mkPhaseModulation {
  pm_uplink_timeslots : Z;
  pm_downlink_timeslots : Z;
  pm_full_phase_modulation_capability_timeslots : Z;
  pm_unspecified_phase_modulation_resource : bool
}.
Inductive SndcpPacketDataResourceRequest := NoResource | PhaseModulation (request : SndcpPhaseModulationResourceRequest).

Inductive SndcpTransferRejectCause :=
  | TrUndefined | TrUnknownNsapi | TrSystemResourcesNotAvailable | TrRequestedMinimumPeakThroughputNotAvailable
  | TrRequestedScheduleNotAvailable | TrSndcpServiceTemporarilyNotAvailable.

Record SndcpDataTransmitRequest := mkTransmitRequest {
  dt_nsapi : Z;
  dt_logical_link_status : bool;
  dt_resource_request : SndcpPacketDataResourceRequest
}.
Inductive SndcpDataTransmitResponseResult := Accepted | Rejected (cause : SndcpTransferRejectCause).
Record SndcpDataTransmitResponse := mkTransmitResponse { ds_nsapi : Z; ds_result : SndcpDataTransmitResponseResult }.
Record SndcpEndOfData := mkEndOfData { immediate_service_change : bool }.
Record SndcpReconnect := mkReconnect { rc_nsapi : option Z; rc_resource_request : SndcpPacketDataResourceRequest }.
Record SndcpNotSupported := mkNotSupported { not_supported_pdu_type : Z }.

Inductive SndcpTransferError :=
  | TransferTooShort (field : string)
  | TransferTrailingBits (bits : nat)
  | TransferUnsupportedOptionalElements
  | UnsupportedResourceRequest
  | TransferUnexpectedPduType (expected actual : Z)
  | UnsupportedPduType (pdu_type : Z)
  | TransferReservedNsapi (nsapi : Z)
  | ReservedTransmitRejectCause (code : Z)
  | ReservedNotSupportedPduType (pdu_type : Z)
  | MissingRejectCause
  | UnexpectedRejectCause.
#[export] Instance SndcpTransferError_pdu : PduError SndcpTransferError :=
  {| TooShort := TransferTooShort; TrailingBits := TransferTrailingBits;
     UnsupportedOptionalElements := TransferUnsupportedOptionalElements; UnexpectedPduType := TransferUnexpectedPduType;
     ReservedNsapi := TransferReservedNsapi |}.

Definition one_to_four (timeslots : Z) : bool := ((1 <=? timeslots) && (timeslots <=? 4))%Z.

Definition validate_phase_modulation_resource_request (request : SndcpPhaseModulationResourceRequest) : unit + SndcpTransferError :=
  let up := pm_uplink_timeslots request in
  let down := pm_downlink_timeslots request in
  let full := pm_full_phase_modulation_capability_timeslots request in
  if negb (forallb one_to_four [up; down; full]) then inr UnsupportedResourceRequest
  else if ((full <? up) || (full <? down))%Z then inr UnsupportedResourceRequest
  else if pm_unspecified_phase_modulation_resource request && (negb (up =? down) || negb (up =? full))%Z
  then inr UnsupportedResourceRequest
  else inl tt.

Definition timeslot_count_from_code (code : Z) : Z := u8 (code + 1).
Definition timeslot_count_code (timeslots : Z) : Z + SndcpTransferError :=
  if one_to_four timeslots then inl (timeslots - 1)%Z else inr UnsupportedResourceRequest.

Definition resource_request_len (resource_request : SndcpPacketDataResourceRequest) : nat + SndcpTransferError :=
  match resource_request with
  | NoResource => inl 0
  | PhaseModulation request =>
      match validate_phase_modulation_resource_request request with
      | inl _ => inl (if (pm_uplink_timeslots request =? pm_downlink_timeslots request)%Z then 10 else 12)
      | inr e => inr e
      end
  end.

(** The fields of a request whose slot counts have codes. *)
Definition write_phase_modulation (request : SndcpPhaseModulationResourceRequest) (up down full : Z) : M unit :=
  let asymmetric := negb (pm_uplink_timeslots request =? pm_downlink_timeslots request)%Z in
  write_bits (b2z asymmetric) 1;;
  write_bits (if pm_unspecified_phase_modulation_resource request then 6 else 0) 3;;
  write_bits up 2;;
  (if asymmetric then write_bits down 2 else mret tt);;
  write_bits full 2;;
  write_bits 3 2.
Definition write_resource_request (resource_request : SndcpPacketDataResourceRequest) : M unit + SndcpTransferError :=
  match resource_request with
  | NoResource => inl (mret tt)
  | PhaseModulation request =>
      match validate_phase_modulation_resource_request request, timeslot_count_code (pm_uplink_timeslots request),
            timeslot_count_code (pm_downlink_timeslots request),
            timeslot_count_code (pm_full_phase_modulation_capability_timeslots request) with
      | inl _, inl up, inl down, inl full => inl (write_phase_modulation request up down full)
      | inr e, _, _, _ | _, inr e, _, _ | _, _, inr e, _ | _, _, _, inr e => inr e
      end
  end.

Definition requests_resource (resource_request : SndcpPacketDataResourceRequest) : bool :=
  match resource_request with NoResource => false | PhaseModulation _ => true end.

Definition decode_resource_request : method BitBuffer SndcpTransferError SndcpPacketDataResourceRequest :=
  asymmetric ← read_sn_bool "resource_request_connection_symmetry";
  mean_throughput ← read_sn 3 "resource_request_mean_throughput";
  code ← read_sn 2 "resource_request_uplink_timeslots";
  let uplink_timeslots := timeslot_count_from_code code in
  downlink_timeslots ← (if (asymmetric : bool)
                        then code ← read_sn 2 "resource_request_downlink_timeslots"; mret (timeslot_count_from_code code)
                        else mret uplink_timeslots);
  code ← read_sn 2 "resource_request_full_phase_modulation_capability";
  let full := timeslot_count_from_code code in
  reserved ← read_sn 2 "resource_request_reserved";
  if negb (reserved =? 3)%Z then fail UnsupportedResourceRequest else
  let unspecified := (mean_throughput =? 6)%Z in
  if unspecified && (asymmetric || negb (uplink_timeslots =? full)%Z) then fail UnsupportedResourceRequest else
  let request := mkPhaseModulation uplink_timeslots downlink_timeslots full unspecified in
  ensure (validate_phase_modulation_resource_request request);;
  mret (PhaseModulation request).
Definition read_resource_request : method BitBuffer SndcpTransferError SndcpPacketDataResourceRequest :=
  enhanced_pi4dqpsk_service ← read_sn_bool "enhanced_pi4dqpsk_service";
  if (enhanced_pi4dqpsk_service : bool) then decode_resource_request else mret NoResource.

Definition transmit_reject_cause (code : Z) : SndcpTransferRejectCause + SndcpTransferError :=
  match code with
  | 0 => inl TrUndefined | 1 => inl TrUnknownNsapi | 2 => inl TrSystemResourcesNotAvailable
  | 23 => inl TrRequestedMinimumPeakThroughputNotAvailable | 25 => inl TrRequestedScheduleNotAvailable
  | 34 => inl TrSndcpServiceTemporarilyNotAvailable | other => inr (ReservedTransmitRejectCause other)
  end%Z.
Definition transmit_reject_cause_code (cause : SndcpTransferRejectCause) : Z :=
  match cause with
  | TrUndefined => 0 | TrUnknownNsapi => 1 | TrSystemResourcesNotAvailable => 2
  | TrRequestedMinimumPeakThroughputNotAvailable => 23 | TrRequestedScheduleNotAvailable => 25
  | TrSndcpServiceTemporarilyNotAvailable => 34
  end.
Definition validate_not_supported_pdu_type (pdu_type : Z) : unit + SndcpTransferError :=
  if ((0 <=? pdu_type) && (pdu_type <=? 10) || (pdu_type =? 12) || (pdu_type =? 13))%Z then inl tt
  else inr (ReservedNotSupportedPduType pdu_type).

Definition encode_data_transmit_request (request : SndcpDataTransmitRequest) : option (BitBuffer + SndcpTransferError) :=
  ensuring (nsapi_valid (dt_nsapi request)) (
  match resource_request_len (dt_resource_request request), write_resource_request (dt_resource_request request) with
  | inl resource_bits, inl write_resource =>
      encoded (4 + 4 + 1 + 1 + resource_bits + 1) (
        write_bits 6 4;;
        write_bits (dt_nsapi request) 4;;
        write_bits (b2z (dt_logical_link_status request)) 1;;
        write_bits (b2z (requests_resource (dt_resource_request request))) 1;;
        write_resource;;
        write_no_optional_elements)
  | inr e, _ | _, inr e => Some (inr e)
  end).

Definition decode_data_transmit_request : BitBuffer -> option (SndcpDataTransmitRequest + SndcpTransferError) :=
  decoded (
    expect_sn_pdu_type 6;;
    nsapi ← read_sn 4 "nsapi";
    ensure (nsapi_valid nsapi);;
    logical_link_status ← read_sn_bool "logical_link_status";
    resource_request ← read_resource_request;
    read_no_optional_tail;;
    mret (mkTransmitRequest nsapi logical_link_status resource_request)).

Definition encode_data_transmit_response (response : SndcpDataTransmitResponse) : option (BitBuffer + SndcpTransferError) :=
  ensuring (nsapi_valid (ds_nsapi response)) (
  let go reject_bits result :=
    encoded (4 + 4 + 1 + reject_bits + 1) (
      write_bits 7 4;;
      write_bits (ds_nsapi response) 4;;
      result;;
      write_no_optional_elements) in
  match ds_result response with
  | Accepted => go 0 (write_bits 1 1)
  | Rejected cause => go 8 (write_bits 0 1;; write_bits (transmit_reject_cause_code cause) 8)
  end).

Definition decode_data_transmit_response : BitBuffer -> option (SndcpDataTransmitResponse + SndcpTransferError) :=
  decoded (
    expect_sn_pdu_type 7;;
    nsapi ← read_sn 4 "nsapi";
    ensure (nsapi_valid nsapi);;
    accept ← read_sn_bool "accept_reject";
    result ← (if (accept : bool) then mret Accepted
              else
                code ← read_sn 8 "transmit_response_reject_cause";
                match transmit_reject_cause code with inl cause => mret (Rejected cause) | inr e => fail e end);
    read_no_optional_tail;;
    mret (mkTransmitResponse nsapi result)).

Definition encode_end_of_data (end_of_data : SndcpEndOfData) : option (BitBuffer + SndcpTransferError) :=
  encoded (4 + 1 + 1) (
    write_bits 8 4;;
    write_bits (b2z (immediate_service_change end_of_data)) 1;;
    write_no_optional_elements).
Definition decode_end_of_data : BitBuffer -> option (SndcpEndOfData + SndcpTransferError) :=
  decoded (
    expect_sn_pdu_type 8;;
    immediate_service_change ← read_sn_bool "immediate_service_change";
    read_no_optional_tail;;
    mret (mkEndOfData immediate_service_change)).

Definition encode_reconnect (reconnect : SndcpReconnect) : option (BitBuffer + SndcpTransferError) :=
  ensuring (from_option nsapi_valid (inl tt) (rc_nsapi reconnect)) (
  let nsapi_bits := match rc_nsapi reconnect with Some _ => 4 | None => 0 end in
  match resource_request_len (rc_resource_request reconnect), write_resource_request (rc_resource_request reconnect) with
  | inl resource_bits, inl write_resource =>
      encoded (4 + 1 + nsapi_bits + 1 + resource_bits + 1) (
        write_bits 9 4;;
        write_bits (b2z (bool_decide (is_Some (rc_nsapi reconnect)))) 1;;
        match rc_nsapi reconnect with Some nsapi => write_bits nsapi 4 | None => mret tt end;;
        write_bits (b2z (requests_resource (rc_resource_request reconnect))) 1;;
        write_resource;;
        write_no_optional_elements)
  | inr e, _ | _, inr e => Some (inr e)
  end).
Definition decode_reconnect : BitBuffer -> option (SndcpReconnect + SndcpTransferError) :=
  decoded (
    expect_sn_pdu_type 9;;
    data_to_send ← read_sn_bool "data_to_send";
    nsapi ← (if (data_to_send : bool)
             then nsapi ← read_sn 4 "nsapi"; ensure (nsapi_valid nsapi);; mret (Some nsapi)
             else mret None);
    resource_request ← read_resource_request;
    read_no_optional_tail;;
    mret (mkReconnect nsapi resource_request)).

Definition encode_not_supported (not_supported : SndcpNotSupported) : option (BitBuffer + SndcpTransferError) :=
  ensuring (validate_not_supported_pdu_type (not_supported_pdu_type not_supported)) (
  encoded 8 (write_bits 11 4;; write_bits (not_supported_pdu_type not_supported) 4)).
Definition decode_not_supported : BitBuffer -> option (SndcpNotSupported + SndcpTransferError) :=
  decoded (
    expect_sn_pdu_type 11;;
    pdu_type ← read_sn 4 "not_supported_sn_pdu_type";
    ensure (validate_not_supported_pdu_type pdu_type);;
    reject_trailing_bits;;
    mret (mkNotSupported pdu_type)).

Definition sn_pdu_type : BitBuffer -> option (Z + SndcpTransferError) := decoded (read_sn 4 "sn_pdu_type").

Inductive SndcpTransferControl :=
  | TcDataTransmitRequest (x : SndcpDataTransmitRequest)
  | TcDataTransmitResponse (x : SndcpDataTransmitResponse)
  | TcEndOfData (x : SndcpEndOfData)
  | TcReconnect (x : SndcpReconnect)
  | TcNotSupported (x : SndcpNotSupported).
Definition map_inl {A B E} (f : A -> B) (x : option (A + E)) : option (B + E) :=
  x ← x; Some match x with inl a => inl (f a) | inr e => inr e end.
Definition decode_transfer_control_pdu (pdu : BitBuffer) : option (SndcpTransferControl + SndcpTransferError) :=
  pdu_type ← sn_pdu_type pdu;
  match pdu_type with
  | inl 6 => map_inl TcDataTransmitRequest (decode_data_transmit_request pdu)
  | inl 7 => map_inl TcDataTransmitResponse (decode_data_transmit_response pdu)
  | inl 8 => map_inl TcEndOfData (decode_end_of_data pdu)
  | inl 9 => map_inl TcReconnect (decode_reconnect pdu)
  | inl 11 => map_inl TcNotSupported (decode_not_supported pdu)
  | inl other => Some (inr (UnsupportedPduType other))
  | inr e => Some (inr e)
  end%Z.

(** ** User data ([unitdata.rs]) *)

Inductive NetworkPduKind := NpIpv4 | NpIpv6 | NpOther (version : Z) | NpTooShort.
Record SnUnitdata := mkSnUnitdata {
  un_nsapi : Z;
  un_pcomp : Z;
  un_dcomp : Z;
  un_n_pdu : BitBuffer;
  un_network_pdu_kind : NetworkPduKind
}.
Inductive SndcpUnitdataError :=
  | UdUnsupportedPduType (pdu_type : Z)
  | UdUnsupportedNsapi (nsapi : Z)
  | UdUnsupportedCompression (pcomp dcomp : Z)
  | UdEmptyNPdu
  | UdMalformed (field : string).
Inductive SndcpEncodeError :=
  | SeUnsupportedNsapi (nsapi : Z)
  | SeUnsupportedCompression (pcomp dcomp : Z)
  | SeEmptyNPdu.

Definition classify_network_pdu (n_pdu : BitBuffer) : option NetworkPduKind :=
  version ← peek_bits n_pdu 4;
  Some match version with
       | None => NpTooShort
       | Some version => if (u8 version =? 4)%Z then NpIpv4 else if (u8 version =? 6)%Z then NpIpv6 else NpOther (u8 version)
       end.

(** [let Some(v) = sdu.read_bits(n) else { return Err(Malformed(field)) }] *)
Definition read_or_malformed (n : nat) (field : string) : method BitBuffer SndcpUnitdataError Z := fun sdu =>
  match read_bits n sdu with
  | Ok (Some v) sdu => Ok (u8 v) sdu
  | Ok None sdu => Err (UdMalformed field) sdu
  | Err _ _ | Panic => Panic
  end.
Definition unitdata_header : method BitBuffer SndcpUnitdataError (Z * Z * Z) :=
  nsapi ← read_or_malformed 4 "nsapi";
  if negb (validate_nsapi nsapi) then fail (UdUnsupportedNsapi nsapi) else
  pcomp ← read_or_malformed 4 "pcomp";
  dcomp ← read_or_malformed 4 "dcomp";
  if (negb (pcomp =? 0) || negb (dcomp =? 0))%Z then fail (UdUnsupportedCompression pcomp dcomp) else
  fun sdu => if get_len_remaining sdu =? 0 then Err UdEmptyNPdu sdu else Ok (nsapi, pcomp, dcomp) sdu.

Definition decode_sn_unitdata_body (sdu : BitBuffer) : option (SnUnitdata + SndcpUnitdataError) :=
  sdu ← from_bitbuffer_pos sdu;
  match unitdata_header sdu with
  | Panic => None
  | Err e _ => Some (inr e)
  | Ok (nsapi, pcomp, dcomp) sdu =>
      n_pdu ← from_bitbuffer_pos sdu;
      network_pdu_kind ← classify_network_pdu n_pdu;
      Some (inl (mkSnUnitdata nsapi pcomp dcomp n_pdu network_pdu_kind))
  end.

(** [decode_sn_user_data_pdu_of_type] and [decode_sn_user_data_pdu], by the types they accept. *)
Definition decode_sn_user_data_pdu_of (accepted : Z -> bool) (sdu : BitBuffer) : option (SnUnitdata + SndcpUnitdataError) :=
  sdu ← from_bitbuffer sdu;
  sdu ← (if negb (get_pos sdu =? 0) then snd <$> run (seek 0) sdu else Some sdu);
  match read_or_malformed 4 "sn_pdu_type" sdu with
  | Panic => None
  | Err e _ => Some (inr e)
  | Ok sn_pdu_type sdu =>
      if negb (accepted sn_pdu_type) then Some (inr (UdUnsupportedPduType sn_pdu_type)) else decode_sn_unitdata_body sdu
  end.
Definition decode_sn_unitdata_pdu := decode_sn_user_data_pdu_of (fun ty => ty =? 4)%Z.
Definition decode_sn_data_pdu := decode_sn_user_data_pdu_of (fun ty => ty =? 5)%Z.
Definition decode_sn_user_data_pdu := decode_sn_user_data_pdu_of (fun ty => (ty =? 4) || (ty =? 5))%Z.

(** [while let Some(bit) = n_pdu.read_bits(1) { pdu.write_bits(bit, 1) }]; [None]: a panic or out
    of fuel. *)
Fixpoint copy_n_pdu (fuel : nat) (n_pdu pdu : BitBuffer) : option BitBuffer :=
  match fuel with
  | O => None
  | S fuel =>
      '(bit, n_pdu) ← run (read_bits 1) n_pdu;
      match bit with
      | None => Some pdu
      | Some bit => '(_, pdu) ← run (write_bits bit 1) pdu; copy_n_pdu fuel n_pdu pdu
      end
  end.

Definition encode_sn_user_data (sn_pdu_type nsapi pcomp dcomp : Z) (n_pdu : BitBuffer) : option (BitBuffer + SndcpEncodeError) :=
  if negb (validate_nsapi nsapi) then Some (inr (SeUnsupportedNsapi nsapi))
  else if (negb (pcomp =? 0) || negb (dcomp =? 0))%Z then Some (inr (SeUnsupportedCompression pcomp dcomp))
  else if get_len n_pdu =? 0 then Some (inr SeEmptyNPdu)
  else
    '(_, pdu) ← run (write_bits sn_pdu_type 4;; write_bits nsapi 4;; write_bits pcomp 4;; write_bits dcomp 4)
                  (new (16 + get_len n_pdu));
    n_pdu ← from_bitbuffer n_pdu;
    '(_, n_pdu) ← run (seek 0) n_pdu;
    pdu ← copy_n_pdu (S (get_len n_pdu)) n_pdu pdu;
    '(_, pdu) ← run (seek 0) pdu;
    Some (inl pdu).
Definition encode_sn_unitdata := encode_sn_user_data 4.
Definition encode_sn_data := encode_sn_user_data 5.
