(* ===== verification/SndcpCodec.v ===== *)
(** * Round trips of the packet data PDUs

    What an encoder of [SndcpPdus] writes the decoder of the same PDU reads back. *)

From Stdlib Require Import ZArith Lia ZifyNat.
From stdpp Require Import strings.
From S2P Require Import Prelude.
From S2P Require Import BitBuffer.
From S2P Require Import BitBufferFacts.
From S2P Require Import Codec.
From S2P Require Import Frag.
From S2P Require Import SndcpPdus.

(** ** Rules *)

(** [parses], for the readers with errors of their own. *)
Definition reads {E A} (m : method BitBuffer E A) (bs rest : list bool) (a : A) : Prop :=
  forall b, wf b -> remaining b = bs ++ rest -> m b = Ok a (with_pos b (pos b + length bs)).

Lemma reads_ret {E A} (a : A) rest : reads (E := E) (mret a) [] rest a.
Proof. intros b W R. cbn. rewrite Nat.add_0_r. by destruct b. Qed.

Lemma reads_bind {E A B} (m : method BitBuffer E A) (k : A -> method BitBuffer E B) a c bs1 bs2 rest :
  reads m bs1 (bs2 ++ rest) a -> reads (k a) bs2 rest c -> reads (m ≫= k) (bs1 ++ bs2) rest c.
Proof.
  intros H1 H2 b W R. rewrite <- app_assoc in R. unfold mbind, method_bind. rewrite (H1 b) by done.
  destruct (parses_advance b bs1 (bs2 ++ rest)) as (W1 & R1 & _); [done..|]. rewrite (H2 _ W1 R1). cbn.
  rewrite length_app. unfold with_pos. cbn. by rewrite Nat.add_assoc.
Qed.

Lemma reads_skip {E A B} (m : method BitBuffer E A) (k : A -> method BitBuffer E B) a c bs rest :
  reads m [] (bs ++ rest) a -> reads (k a) bs rest c -> reads (m ≫= k) bs rest c.
Proof. intros H1 H2. change bs with ([] ++ bs). by eapply reads_bind. Qed.

Section readers.
Context {E : Type} `{PduError E}.

Lemma read_sn_reads n field v rest : (0 <= v < 2 ^ Z.of_nat n)%Z -> n <= 8 -> reads (E := E) (read_sn n field) (val_bits n v) rest v.
Proof.
  intros Hv Hn b W R. unfold read_sn. rewrite (read_bits_parses n (val_bits n v) rest (length_val_bits n v)) by (done || lia).
  rewrite bits_val_val_bits_small by done. f_equal. apply Z.mod_small. pose proof (Z.pow_le_mono_r 2 (Z.of_nat n) 8). lia.
Qed.

Lemma read_sn_bool_reads field (v : bool) rest : reads (E := E) (read_sn_bool field) (val_bits 1 (b2z v)) rest v.
Proof.
  unfold read_sn_bool. rewrite <- (app_nil_r (val_bits 1 (b2z v))).
  eapply reads_bind; [apply read_sn_reads; [by destruct v|lia]|]. destruct v; apply reads_ret.
Qed.

Lemma expect_sn_reads t rest : (0 <= t < 2 ^ 4)%Z -> reads (E := E) (expect_sn_pdu_type t) (val_bits 4 t) rest tt.
Proof.
  intros Ht. unfold expect_sn_pdu_type. rewrite <- (app_nil_r (val_bits 4 t)). eapply reads_bind; [apply read_sn_reads; [done|lia]|].
  cbn beta. rewrite Z.eqb_refl. apply reads_ret.
Qed.

Lemma ensure_reads (c : unit + E) rest : c = inl tt -> reads (ensure c) [] rest tt.
Proof. intros ->. apply reads_ret. Qed.

Lemma trailing_reads : reads (E := E) reject_trailing_bits [] [] tt.
Proof.
  intros b W R. unfold reject_trailing_bits, get_len_remaining. rewrite <- length_remaining, R. cbn. rewrite Nat.add_0_r. by destruct b.
Qed.

Lemma tail_reads : reads (E := E) read_no_optional_tail (val_bits 1 0) [] tt.
Proof.
  unfold read_no_optional_tail. rewrite <- (app_nil_r (val_bits 1 0)). eapply reads_bind; [by apply read_sn_reads; [|lia]|].
  apply trailing_reads.
Qed.

Lemma decoded_reads {A} (m : method BitBuffer E A) bs a pdu : reads m bs [] a -> holds pdu bs -> decoded m pdu = Some (inl a).
Proof.
  intros Hm Hh. unfold decoded. destruct (from_bitbuffer_holds pdu (ho_wf _ _ Hh)) as (b & Eb & Hb). rewrite Eb. step.
  rewrite (ho_window _ _ Hh) in Hb. pose proof (ho_wf _ _ Hb) as [Wb Ws Wp We]. unfold run, seek.
  btrue (start b + 0 <=? end_ b). step. replace (with_pos b (start b + 0)) with b.
  - rewrite Hm; [done|apply Hb|]. rewrite app_nil_r. by apply holds_remaining.
  - rewrite Nat.add_0_r, <- (ho_pos _ _ Hb). by destruct b.
Qed.

Lemma encoded_emits len m bs : emits m tt bs -> length bs = len -> exists pdu, encoded (E := E) len m = Some (inl pdu) /\ holds pdu bs.
Proof.
  intros He <-. unfold encoded, run. destruct (emits_new_holds m tt bs He) as (b & Eb & S & Hh & _). rewrite Eb. step.
  unfold seek. rewrite S. btrue (0 + 0 <=? end_ b). step. by eexists.
Qed.
End readers.

(** An encoder and the decoder of the same PDU. *)
Lemma sn_roundtrip {E A} `{PduError E} (m : method BitBuffer E A) len w bs a :
  emits w tt bs -> length bs = len -> reads m bs [] a ->
  exists pdu, encoded (E := E) len w = Some (inl pdu) /\ decoded m pdu = Some (inl a).
Proof.
  intros He Hl Hm. destruct (encoded_emits (E := E) len w bs He Hl) as (pdu & Ep & Hh). exists pdu. split; [done|].
  by eapply decoded_reads.
Qed.

Lemma nsapi_valid_inl {E} `{PduError E} nsapi : nsapi_valid (E := E) nsapi = inl tt <-> (1 <= nsapi <= 14)%Z.
Proof. unfold nsapi_valid, validate_nsapi. destruct (Z.leb_spec 1 nsapi), (Z.leb_spec nsapi 14); cbn; split; done || lia. Qed.

Lemma lift_reads {A} (x : A + SndcpPdpError) a rest : x = inl a -> reads (lift_sum x) [] rest a.
Proof. intros ->. apply reads_ret. Qed.

Ltac sn_emit :=
  repeat first
    [ eapply emits_bind_tt
    | apply write_bits_emits; [solve [lia | done]|lia]
    | apply emits_ret ].
Ltac sn_field :=
  first [ apply expect_sn_reads; lia
        | apply read_sn_reads; [solve [lia | done]|lia]
        | apply read_sn_bool_reads ].
Ltac sn_skip :=
  first [ apply ensure_reads; solve [done | eassumption | apply nsapi_valid_inl; lia]
        | eapply lift_reads; eassumption
        | match goal with |- reads (mret _) _ _ _ => apply reads_ret end ].
Ltac sn_read :=
  repeat first
    [ eapply reads_skip; [sn_skip|cbn beta]
    | eapply reads_bind; [sn_field|cbn beta] ].
Ltac sn_end := rewrite <- (app_nil_r (val_bits 1 0)); eapply reads_bind; [apply tail_reads|apply reads_ret].

(** ** Packet data contexts *)

Definition octets_ok (address : Ipv4Octets) : Prop :=
  let '(o1, o2, o3, o4) := address in (0 <= o1 < 256 /\ 0 <= o2 < 256 /\ 0 <= o3 < 256 /\ 0 <= o4 < 256)%Z.
Definition ipv4_img (address : Ipv4Octets) : list bool :=
  let '(o1, o2, o3, o4) := address in val_bits 8 o1 ++ val_bits 8 o2 ++ val_bits 8 o3 ++ val_bits 8 o4.

Lemma ipv4_emits address : octets_ok address -> emits (write_ipv4 address) tt (ipv4_img address).
Proof. destruct address as [[[o1 o2] o3] o4]. intros (H1 & H2 & H3 & H4). unfold write_ipv4, ipv4_img. sn_emit. Qed.

Lemma ipv4_reads address rest : octets_ok address -> reads read_ipv4 (ipv4_img address) rest address.
Proof.
  destruct address as [[[o1 o2] o3] o4]. intros (H1 & H2 & H3 & H4). unfold read_ipv4, ipv4_img.
  rewrite <- (app_nil_r (val_bits 8 o4)). sn_read. apply reads_ret.
Qed.

Lemma length_ipv4_img address : length (ipv4_img address) = 32.
Proof. destruct address as [[[o1 o2] o3] o4]. unfold ipv4_img. by rewrite !length_app, !length_val_bits. Qed.

Definition address_demand_ok (address : SndcpActivateAddressDemand) : Prop :=
  match address with
  | DemandIpv4Static address => octets_ok address
  | DemandSecondaryPdpContext primary_nsapi => (1 <= primary_nsapi <= 14)%Z
  | _ => True
  end.
Definition address_demand_img (address : SndcpActivateAddressDemand) : list bool :=
  match address with
  | DemandIpv4Static address => ipv4_img address
  | DemandSecondaryPdpContext primary_nsapi => val_bits 4 primary_nsapi
  | _ => []
  end.

Lemma address_demand_reads address rest :
  address_demand_ok address -> reads (read_address_demand (address_demand_code address)) (address_demand_img address) rest address.
Proof.
  intros Ha. destruct address as [octets| | | | |primary]; cbn in *; try apply reads_ret.
  - rewrite <- (app_nil_r (ipv4_img octets)). eapply reads_bind; [by apply ipv4_reads|apply reads_ret].
  - rewrite <- (app_nil_r (val_bits 4 primary)). sn_read. apply reads_ret.
Qed.

(** What an encoder accepts, of fields that fit their types. *)
Record demand_ok (x : SndcpActivatePdpContextDemand) : Prop := {
  do_version : ad_sndcp_version x = 1%Z;
  do_nsapi : (1 <= ad_nsapi x <= 14)%Z;
  do_address : address_demand_ok (ad_address x);
  do_pcomp : ad_pcomp_negotiation x = 0%Z
}.

Ltac sn_length := cbn [address_demand_img]; rewrite ?length_app, ?length_val_bits, ?length_ipv4_img; reflexivity.

Lemma demand_roundtrip x :
  demand_ok x ->
  exists pdu, encode_activate_pdp_context_demand x = Some (inl pdu) /\ decode_activate_pdp_context_demand pdu = Some (inl x).
Proof.
  destruct x as [version nsapi address ms pcomp]. intros [Hv Hn Ha Hp]. cbn in *. subst version pcomp.
  unfold encode_activate_pdp_context_demand, decode_activate_pdp_context_demand.
  cbn [ad_sndcp_version ad_nsapi ad_address ad_packet_data_ms_type ad_pcomp_negotiation].
  assert (Hm : (0 <= packet_data_ms_type_code ms < 2 ^ 4)%Z) by (by destruct ms).
  assert (Em : packet_data_ms_type (packet_data_ms_type_code ms) = inl ms) by (by destruct ms).
  assert (Hc : (0 <= address_demand_code address < 2 ^ 3)%Z) by (by destruct address).
  rewrite (proj2 (nsapi_valid_inl nsapi) Hn). cbn [ensuring validate_sndcp_version validate_pcomp_negotiation Z.eqb].
  set (bs := val_bits 4 0 ++ val_bits 4 1 ++ val_bits 4 nsapi ++ val_bits 3 (address_demand_code address) ++
    address_demand_img address ++ val_bits 4 (packet_data_ms_type_code ms) ++ val_bits 8 0 ++ val_bits 1 0).
  destruct address as [octets| | | | |primary]; cbn in Ha; [..|rewrite (proj2 (nsapi_valid_inl primary) Ha); cbn [ensuring]].
  all: apply (sn_roundtrip _ _ _ bs); [|unfold bs; sn_length|].
  all: unfold bs.
  all: try (sn_read; eapply reads_bind; [by apply address_demand_reads|cbn beta; sn_read; sn_end]).
  all: sn_emit.
  by apply ipv4_emits.
Qed.

(** The assigned address goes with the type identifier. *)
Definition assigned_ok (type_identifier : SndcpTypeIdentifierInAccept) (assigned : option SnAddress) : Prop :=
  match type_identifier, assigned with
  | NoAddress, None => True
  | (Ipv4StaticAddress | Ipv4DynamicAddress), Some (Ipv4 address) => octets_ok address
  | _, _ => False
  end.
Record accept_ok (x : SndcpActivatePdpContextAccept) : Prop := {
  ao_nsapi : (1 <= aa_nsapi x <= 14)%Z;
  ao_priority : (0 <= aa_pdu_priority_max x <= 7)%Z;
  ao_ready : (1 <= aa_ready_timer x <= 14)%Z;
  ao_standby : (1 <= aa_standby_timer x <= 15)%Z;
  ao_response : (0 <= aa_response_wait_timer x <= 14)%Z;
  ao_assigned : assigned_ok (aa_type_identifier x) (aa_assigned_address x);
  ao_pcomp : aa_pcomp_negotiation x = 0%Z
}.
Definition assigned_img (assigned : option SnAddress) : list bool :=
  match assigned with Some (Ipv4 address) => ipv4_img address | _ => [] end.

Lemma accept_roundtrip x :
  accept_ok x ->
  exists pdu, encode_activate_pdp_context_accept x = Some (inl pdu) /\ decode_activate_pdp_context_accept pdu = Some (inl x).
Proof.
  destruct x as [nsapi prio ready standby response ty assigned pcomp mtu]. intros [Hn Hp Hr Hs Hw Ha Hc]. cbn in *. subst pcomp.
  unfold encode_activate_pdp_context_accept, decode_activate_pdp_context_accept.
  cbn [aa_nsapi aa_pdu_priority_max aa_ready_timer aa_standby_timer aa_response_wait_timer aa_type_identifier aa_assigned_address
    aa_pcomp_negotiation aa_maximum_transmission_unit].
  assert (Et : type_identifier_in_accept (type_identifier_in_accept_code ty) = inl ty) by (by destruct ty).
  assert (Ht : (0 <= type_identifier_in_accept_code ty < 2 ^ 3)%Z) by (by destruct ty).
  assert (Em : maximum_transmission_unit (maximum_transmission_unit_code mtu) = inl mtu) by (by destruct mtu).
  assert (Hm : (0 <= maximum_transmission_unit_code mtu < 2 ^ 3)%Z) by (by destruct mtu).
  assert (E1 : validate_pdu_priority_max prio = inl tt) by (unfold validate_pdu_priority_max; by btrue (prio <=? 7)%Z).
  assert (E2 : validate_ready_timer ready = inl tt) by (unfold validate_ready_timer; by btrue (1 <=? ready)%Z; btrue (ready <=? 14)%Z).
  assert (E3 : validate_standby_timer standby = inl tt) by (unfold validate_standby_timer; by btrue (1 <=? standby)%Z; btrue (standby <=? 15)%Z).
  assert (E4 : validate_response_wait_timer response = inl tt) by (unfold validate_response_wait_timer; by btrue (response <=? 14)%Z).
  rewrite (proj2 (nsapi_valid_inl nsapi) Hn), E1, E2, E3, E4. cbn [ensuring validate_pcomp_negotiation Z.eqb].
  set (bs := (val_bits 4 0 ++ val_bits 4 nsapi ++ val_bits 3 prio ++ val_bits 4 ready ++ val_bits 4 standby ++ val_bits 4 response ++
    val_bits 3 (type_identifier_in_accept_code ty)) ++ assigned_img assigned ++ val_bits 8 0 ++
    val_bits 3 (maximum_transmission_unit_code mtu) ++ val_bits 1 0).
  assert (R : forall rest, reads (match ty with NoAddress => mret None | _ => address ← read_ipv4; mret (Some (Ipv4 address)) end)
    (assigned_img assigned) rest assigned).
  { intros rest. destruct ty, assigned as [[| |]|]; try done; cbn [assigned_img]; try apply reads_ret;
      rewrite <- (app_nil_r (ipv4_img _)); (eapply reads_bind; [by apply ipv4_reads|apply reads_ret]). }
  destruct ty, assigned as [[|octets|]|]; try done.
  all: apply (sn_roundtrip _ _ _ bs); unfold bs; [|cbn [assigned_img]; sn_length|].
  all: cbn [assigned_img]; rewrite ?app_nil_l.
  all: try (rewrite <- !app_assoc; sn_read; first [sn_end | eapply reads_bind; [apply R|cbn beta; sn_read; sn_end]]).
  all: sn_emit; by apply ipv4_emits.
Qed.

(** A cause that is not named has a code that is not assigned. *)
Definition cause_ok (cause : SndcpActivationRejectCause) : Prop :=
  (0 <= activation_reject_cause_code cause < 256)%Z /\ activation_reject_cause (activation_reject_cause_code cause) = cause.

Lemma reject_roundtrip x :
  (1 <= ar_nsapi x <= 14)%Z -> cause_ok (ar_cause x) ->
  exists pdu, encode_activate_pdp_context_reject x = Some (inl pdu) /\ decode_activate_pdp_context_reject pdu = Some (inl x).
Proof.
  destruct x as [nsapi cause]. cbn. intros Hn [Hc Ec]. unfold encode_activate_pdp_context_reject. cbn [ar_nsapi ar_cause].
  rewrite (proj2 (nsapi_valid_inl nsapi) Hn). cbn [ensuring].
  replace (mkReject nsapi cause) with (mkReject nsapi (activation_reject_cause (activation_reject_cause_code cause))) by (by rewrite Ec).
  eapply sn_roundtrip; [sn_emit|sn_length|].
  sn_read. sn_end.
Qed.

Definition deactivation_ok (x : SndcpDeactivation) : Prop := match x with AllNsapis => True | Nsapi nsapi => (1 <= nsapi <= 14)%Z end.

Lemma deactivation_roundtrip pdu_type x :
  (0 <= pdu_type < 2 ^ 4)%Z -> deactivation_ok x ->
  exists pdu, encode_deactivate_pdp_context pdu_type x = Some (inl pdu) /\ decode_deactivate_pdp_context pdu_type pdu = Some (inl x).
Proof.
  intros Ht Hx. unfold encode_deactivate_pdp_context, decode_deactivate_pdp_context. destruct x as [|nsapi]; cbn [deactivation_type_code].
  - eapply sn_roundtrip; [sn_emit|sn_length|]. do 2 (eapply reads_bind; [sn_field|cbn beta]).
    eapply reads_bind; [apply reads_ret|cbn beta; sn_end].
  - cbn in Hx. rewrite (proj2 (nsapi_valid_inl nsapi) Hx). cbn [ensuring]. eapply sn_roundtrip; [sn_emit|sn_length|]. do 2 (eapply reads_bind; [sn_field|cbn beta]).
    eapply reads_bind; [|cbn beta; sn_end]. lazy match beta. rewrite <- (app_nil_r (val_bits 4 nsapi)). sn_read. apply reads_ret.
Qed.

(** ** Transfer control *)

Definition resource_ok (x : SndcpPacketDataResourceRequest) : Prop :=
  match x with NoResource => True | PhaseModulation request => validate_phase_modulation_resource_request request = inl tt end.

Lemma response_roundtrip x :
  (1 <= ds_nsapi x <= 14)%Z ->
  exists pdu, encode_data_transmit_response x = Some (inl pdu) /\ decode_data_transmit_response pdu = Some (inl x).
Proof.
  destruct x as [nsapi result]. cbn. intros Hn. unfold encode_data_transmit_response. cbn [ds_nsapi ds_result].
  rewrite (proj2 (nsapi_valid_inl nsapi) Hn). cbn [ensuring]. destruct result as [|cause].
  - eapply sn_roundtrip; [sn_emit|sn_length|]. sn_read. change (val_bits 1 1) with (val_bits 1 (b2z true)). sn_read. sn_end.
  - assert (Hc : (0 <= transmit_reject_cause_code cause < 2 ^ 8)%Z) by (by destruct cause).
    assert (Ec : transmit_reject_cause (transmit_reject_cause_code cause) = inl cause) by (by destruct cause).
    eapply sn_roundtrip; [sn_emit|sn_length|]. rewrite <- !app_assoc. sn_read. change (val_bits 1 0) with (val_bits 1 (b2z false)) at 1. sn_read.
    eapply reads_bind; [|cbn beta; sn_end]. rewrite <- (app_nil_r (val_bits 8 _)). sn_read. rewrite Ec. apply reads_ret.
Qed.

Lemma end_of_data_roundtrip x :
  exists pdu, encode_end_of_data x = Some (inl pdu) /\ decode_end_of_data pdu = Some (inl x).
Proof.
  destruct x as [b]. unfold encode_end_of_data. cbn [immediate_service_change].
  eapply sn_roundtrip; [eapply emits_bind_tt; [sn_emit|eapply emits_bind_tt; [apply write_bits_emits; [by destruct b|lia]|sn_emit]]|sn_length|].
  sn_read. sn_end.
Qed.

Lemma not_supported_roundtrip x :
  validate_not_supported_pdu_type (not_supported_pdu_type x) = inl tt ->
  exists pdu, encode_not_supported x = Some (inl pdu) /\ decode_not_supported pdu = Some (inl x).
Proof.
  destruct x as [ty]. cbn. intros Hv. unfold encode_not_supported. cbn [not_supported_pdu_type]. rewrite Hv. cbn [ensuring].
  assert (0 <= ty < 14)%Z.
  { unfold validate_not_supported_pdu_type in Hv. destruct (_ || _) eqn:Hb; [|done]. lia. }
  eapply sn_roundtrip; [sn_emit|sn_length|]. rewrite <- (app_nil_r (val_bits 4 ty)). sn_read.
  eapply reads_skip; [apply trailing_reads|apply reads_ret].
Qed.

Lemma validated_request request :
  validate_phase_modulation_resource_request request = inl tt ->
  let up := pm_uplink_timeslots request in
  let down := pm_downlink_timeslots request in
  let full := pm_full_phase_modulation_capability_timeslots request in
  (1 <= up <= 4 /\ 1 <= down <= 4 /\ 1 <= full <= 4)%Z /\
  (pm_unspecified_phase_modulation_resource request = true -> up = down /\ up = full).
Proof.
  unfold validate_phase_modulation_resource_request, one_to_four. cbn [forallb]. intros H.
  destruct (negb _) eqn:E1; [done|]. destruct (_ || _) eqn:E2 in H; [done|]. destruct (_ && _) eqn:E3 in H; [done|].
  split; [lia|]. intros Hu. rewrite Hu in E3. cbn in E3. lia.
Qed.

Definition request_img (request : SndcpPhaseModulationResourceRequest) : list bool :=
  let asymmetric := negb (pm_uplink_timeslots request =? pm_downlink_timeslots request)%Z in
  val_bits 1 (b2z asymmetric) ++ val_bits 3 (if pm_unspecified_phase_modulation_resource request then 6 else 0) ++
  val_bits 2 (pm_uplink_timeslots request - 1) ++ (if asymmetric then val_bits 2 (pm_downlink_timeslots request - 1) else []) ++
  val_bits 2 (pm_full_phase_modulation_capability_timeslots request - 1) ++ val_bits 2 3.
Definition resource_img (x : SndcpPacketDataResourceRequest) : list bool :=
  match x with NoResource => [] | PhaseModulation request => request_img request end.

Lemma resource_write x :
  resource_ok x ->
  exists w, write_resource_request x = inl w /\ emits w tt (resource_img x) /\ resource_request_len x = inl (length (resource_img x)).
Proof.
  destruct x as [|request]; cbn; intros Hv; [eexists; split_and!; [done|apply emits_ret|done]|].
  destruct (validated_request request Hv) as [(Hu & Hd & Hf) _]. rewrite Hv. unfold timeslot_count_code, one_to_four.
  btrue (1 <=? pm_uplink_timeslots request)%Z. btrue (pm_uplink_timeslots request <=? 4)%Z.
  btrue (1 <=? pm_downlink_timeslots request)%Z. btrue (pm_downlink_timeslots request <=? 4)%Z.
  btrue (1 <=? pm_full_phase_modulation_capability_timeslots request)%Z. btrue (pm_full_phase_modulation_capability_timeslots request <=? 4)%Z.
  cbn [andb]. eexists. split; [done|]. unfold write_phase_modulation, request_img.
  destruct (Z.eqb_spec (pm_uplink_timeslots request) (pm_downlink_timeslots request)); cbn [negb b2z].
  all: split; [destruct (pm_unspecified_phase_modulation_resource request); sn_emit|].
  all: by rewrite ?length_app, ?length_val_bits.
Qed.

Lemma count_of_code v : (1 <= v <= 4)%Z -> timeslot_count_from_code (v - 1) = v.
Proof. intros H. unfold timeslot_count_from_code, u8. rewrite Z.mod_small; lia. Qed.

Lemma request_reads request rest :
  validate_phase_modulation_resource_request request = inl tt ->
  reads decode_resource_request (request_img request) rest (PhaseModulation request).
Proof.
  intros Hv. destruct (validated_request request Hv) as [(Hu & Hd & Hf) Hsame]. unfold decode_resource_request, request_img.
  destruct request as [up down full unspecified]. cbn [pm_uplink_timeslots pm_downlink_timeslots
    pm_full_phase_modulation_capability_timeslots pm_unspecified_phase_modulation_resource] in *.
  eapply reads_bind; [apply read_sn_bool_reads|cbn beta]. eapply reads_bind; [apply read_sn_reads; [by destruct unspecified|lia]|cbn beta].
  eapply reads_bind; [apply read_sn_reads; lia|cbn beta zeta]. rewrite (count_of_code up Hu).
  eapply reads_bind with (a := down).
  { destruct (Z.eqb_spec up down) as [->|]; cbn [negb]; [apply reads_ret|].
    rewrite <- (app_nil_r (val_bits 2 _)). eapply reads_bind; [apply read_sn_reads; lia|]. rewrite (count_of_code down Hd). apply reads_ret. }
  cbn beta. eapply reads_bind; [apply read_sn_reads; lia|cbn beta zeta]. rewrite (count_of_code full Hf).
  rewrite <- (app_nil_r (val_bits 2 3)). eapply reads_bind; [apply read_sn_reads; lia|cbn beta zeta].
  change (negb (3 =? 3)%Z) with false. cbv iota.
  destruct unspecified.
  - destruct (Hsame eq_refl) as [<- <-]. change (6 =? 6)%Z with true. rewrite !Z.eqb_refl. cbn [negb orb andb].
    eapply reads_skip; [by apply ensure_reads|apply reads_ret].
  - change (0 =? 6)%Z with false. cbn [andb]. eapply reads_skip; [by apply ensure_reads|apply reads_ret].
Qed.

Lemma resource_reads x rest :
  resource_ok x -> reads read_resource_request (val_bits 1 (b2z (requests_resource x)) ++ resource_img x) rest x.
Proof.
  intros Hx. unfold read_resource_request. eapply reads_bind; [apply read_sn_bool_reads|]. cbn beta.
  destruct x as [|request]; cbn; [apply reads_ret|by apply request_reads].
Qed.

Lemma bool_bit (v : bool) : (0 <= b2z v < 2 ^ 1)%Z.
Proof. by destruct v. Qed.

Lemma request_roundtrip x :
  (1 <= dt_nsapi x <= 14)%Z -> resource_ok (dt_resource_request x) ->
  exists pdu, encode_data_transmit_request x = Some (inl pdu) /\ decode_data_transmit_request pdu = Some (inl x).
Proof.
  destruct x as [nsapi status resource]. cbn [dt_nsapi dt_resource_request]. intros Hn Hr. unfold encode_data_transmit_request.
  cbn [dt_nsapi dt_logical_link_status dt_resource_request]. destruct (resource_write resource Hr) as (w & -> & Hw & ->).
  rewrite (proj2 (nsapi_valid_inl nsapi) Hn). cbn [ensuring]. pose proof (bool_bit status). pose proof (bool_bit (requests_resource resource)).
  apply (sn_roundtrip _ _ _ (val_bits 4 6 ++ val_bits 4 nsapi ++ val_bits 1 (b2z status) ++ val_bits 1 (b2z (requests_resource resource)) ++
    resource_img resource ++ val_bits 1 0)).
  - repeat first [eapply emits_bind_tt | exact Hw | apply write_bits_emits; [lia|lia]].
  - rewrite !length_app, !length_val_bits. lia.
  - sn_read. rewrite (app_assoc (val_bits 1 _)). eapply reads_bind; [by apply resource_reads|cbn beta]. sn_end.
Qed.

Lemma reconnect_roundtrip x :
  match rc_nsapi x with Some nsapi => (1 <= nsapi <= 14)%Z | None => True end -> resource_ok (rc_resource_request x) ->
  exists pdu, encode_reconnect x = Some (inl pdu) /\ decode_reconnect pdu = Some (inl x).
Proof.
  destruct x as [nsapi resource]. cbn [rc_nsapi rc_resource_request]. intros Hn Hr. unfold encode_reconnect.
  cbn [rc_nsapi rc_resource_request]. destruct (resource_write resource Hr) as (w & -> & Hw & ->).
  pose proof (bool_bit (requests_resource resource)).
  set (img := match nsapi with Some nsapi => val_bits 4 nsapi | None => [] end).
  assert (exists b, bool_decide (is_Some nsapi) = b /\ b = match nsapi with Some _ => true | None => false end) as (b & -> & Eb).
  { eexists. split; [done|]. by destruct nsapi. }
  assert (ensure_ok : from_option nsapi_valid (inl tt) nsapi = inl tt) by (destruct nsapi; [by apply nsapi_valid_inl|done]).
  rewrite ensure_ok. cbn [ensuring].
  apply (sn_roundtrip _ _ _ (val_bits 4 9 ++ val_bits 1 (b2z b) ++ img ++ val_bits 1 (b2z (requests_resource resource)) ++
    resource_img resource ++ val_bits 1 0)).
  - pose proof (bool_bit b). unfold img. destruct nsapi; repeat first [eapply emits_bind_tt | exact Hw | apply write_bits_emits; [lia|lia] | apply emits_ret].
  - unfold img. rewrite !length_app, !length_val_bits. destruct nsapi; rewrite ?length_val_bits; cbn; lia.
  - do 2 (eapply reads_bind; [sn_field|cbn beta]). eapply reads_bind with (a := nsapi).
    { subst b. unfold img. destruct nsapi as [nsapi|]; [|apply reads_ret]. rewrite <- (app_nil_r (val_bits 4 _)). sn_read. apply reads_ret. }
    cbn beta. rewrite (app_assoc (val_bits 1 _)). eapply reads_bind; [by apply resource_reads|cbn beta]. sn_end.
Qed.

(** ** User data *)

(** The bits written one by one. *)
Definition write_all (bs : list bool) : M unit := foldr (fun x k => write_bits (b2z x) 1;; k) (mret tt) bs.

Lemma val_bits_1 (x : bool) : val_bits 1 (b2z x) = [x].
Proof. by destruct x. Qed.

Lemma write_all_emits bs : emits (write_all bs) tt bs.
Proof.
  induction bs as [|x bs IH]; cbn; [apply emits_ret|]. change (x :: bs) with ([x] ++ bs). rewrite <- val_bits_1.
  apply emits_bind_tt; [|done]. apply write_bits_emits; [apply bool_bit|lia].
Qed.

Lemma run_bind {A B} (m : M A) (k : A -> M B) b : run (m ≫= k) b = '(a, b) ← run m b; run (k a) b.
Proof. unfold run, mbind, method_bind at 1. by destruct (m b). Qed.

Lemma run_ok {A} (m : M A) b a b' : m b = Ok a b' -> run m b = Some (a, b').
Proof. intros E. unfold run. by rewrite E. Qed.

Lemma copy_n_pdu_spec bs : forall fuel src dst,
  wf src -> remaining src = bs -> length bs < fuel -> copy_n_pdu fuel src dst = snd <$> run (write_all bs) dst.
Proof.
  induction bs as [|x bs IH]; intros [|fuel] src dst W R Hf; cbn in Hf; try lia; cbn [copy_n_pdu].
  - rewrite (run_ok _ _ _ _ (read_bits_short 1 src W ltac:(rewrite R; cbn; lia))). by step.
  - rewrite (run_ok _ _ _ _ (read_bits_parses 1 [x] bs eq_refl ltac:(lia) src W R)). step.
    change (x :: bs) with ([x] ++ bs) in R. destruct (parses_advance src [x] bs W R) as (W' & R' & _).
    change (write_all (x :: bs)) with (write_bits (b2z x) 1;; write_all bs). rewrite run_bind.
    replace (bits_val [x]) with (b2z x) by (by destruct x). destruct (run (write_bits (b2z x) 1) dst) as [[u dst']|]; [|done]. step.
    by apply IH; [..|lia].
Qed.

Lemma u8_nibble v : (0 <= v < 2 ^ 4)%Z -> u8 v = v.
Proof. intros H. apply Z.mod_small. lia. Qed.

Lemma malformed_reads n field v rest :
  (0 <= v < 2 ^ Z.of_nat n)%Z -> n <= 8 -> reads (read_or_malformed n field) (val_bits n v) rest v.
Proof.
  intros Hv Hn b W R. unfold read_or_malformed. rewrite (read_bits_parses n (val_bits n v) rest (length_val_bits n v)) by (done || lia).
  rewrite bits_val_val_bits_small by done. f_equal. apply Z.mod_small. pose proof (Z.pow_le_mono_r 2 (Z.of_nat n) 8). lia.
Qed.

Definition kind_of (bs : list bool) : NetworkPduKind :=
  if length bs <? 4 then NpTooShort
  else let version := bits_val (take 4 bs) in
       if (version =? 4)%Z then NpIpv4 else if (version =? 6)%Z then NpIpv6 else NpOther version.

Lemma classify_holds b bs : holds b bs -> classify_network_pdu b = Some (kind_of bs).
Proof.
  intros H. unfold classify_network_pdu. rewrite (peek_here b 4 (ho_wf _ _ H)) by lia. rewrite (holds_remaining _ _ H). step.
  unfold kind_of. destruct (Nat.ltb_spec (length bs) 4) as [|Hl]; [done|].
  pose proof (bits_val_bound (take 4 bs)) as B. rewrite length_take, Nat.min_l in B by lia. by rewrite u8_nibble.
Qed.

Lemma unitdata_header_reads nsapi rest :
  (1 <= nsapi <= 14)%Z -> rest <> [] ->
  reads unitdata_header (val_bits 4 nsapi ++ val_bits 4 0 ++ val_bits 4 0) rest (nsapi, 0%Z, 0%Z).
Proof.
  intros Hn Hr. unfold unitdata_header. eapply reads_bind; [apply malformed_reads; lia|]. cbn beta.
  replace (validate_nsapi nsapi) with true by (unfold validate_nsapi; lia). cbn [negb].
  eapply reads_bind; [apply malformed_reads; lia|]. cbn beta. rewrite <- (app_nil_r (val_bits 4 0)).
  eapply reads_bind; [apply malformed_reads; lia|]. cbn beta. change (negb (0 =? 0)%Z || negb (0 =? 0)%Z) with false. cbv iota.
  intros b W R. unfold get_len_remaining. rewrite <- length_remaining, R. destruct rest as [|x rest]; [done|]. cbn.
  rewrite Nat.add_0_r. by destruct b.
Qed.

Lemma copied_n_pdu n_pdu bs head hdr :
  holds n_pdu bs -> emits head tt hdr ->
  exists pdu0 src, run head (new (length hdr + length bs)) = Some (tt, pdu0) /\ from_bitbuffer n_pdu = Some src /\
    run (seek 0) src = Some (tt, src) /\
    exists pdu, copy_n_pdu (S (get_len src)) src pdu0 = Some pdu /\ exists pdu', run (seek 0) pdu = Some (tt, pdu') /\ holds pdu' (hdr ++ bs).
Proof.
  intros Hn He. destruct (from_bitbuffer_holds n_pdu (ho_wf _ _ Hn)) as (src & Es & Hs). rewrite (ho_window _ _ Hn) in Hs.
  pose proof (emits_bind_tt head (write_all bs) tt hdr bs He (write_all_emits bs)) as Hall.
  destruct (emits_new_holds _ _ _ Hall) as (pdu & Ep & S0 & Hh & _). rewrite length_app in Ep.
  assert (Er : run (head;; write_all bs) (new (length hdr + length bs)) = Some (tt, pdu)) by (by apply run_ok).
  rewrite run_bind in Er. destruct (run head _) as [[[] pdu0]|] eqn:E0; [|done]. rewrite bind_Some in Er.
  exists pdu0, src. split; [done|]. split; [done|]. pose proof (ho_wf _ _ Hs) as [Wb Ws Wp We]. split.
  { unfold run, seek. btrue (start src + 0 <=? end_ src). rewrite Nat.add_0_r, <- (ho_pos _ _ Hs). by destruct src. }
  exists pdu. split.
  - rewrite (copy_n_pdu_spec bs); [by rewrite Er|apply Hs|by apply holds_remaining|]. rewrite (holds_len _ _ Hs). lia.
  - exists (with_pos pdu 0). split; [|done]. unfold run, seek. rewrite S0. by btrue (0 + 0 <=? end_ pdu).
Qed.

Lemma user_data_roundtrip ty nsapi n_pdu bs accepted :
  (0 <= ty < 2 ^ 4)%Z -> (1 <= nsapi <= 14)%Z -> holds n_pdu bs -> bs <> [] -> accepted ty = true ->
  exists pdu x, encode_sn_user_data ty nsapi 0 0 n_pdu = Some (inl pdu) /\ decode_sn_user_data_pdu_of accepted pdu = Some (inl x) /\
    un_nsapi x = nsapi /\ holds (un_n_pdu x) bs /\ un_network_pdu_kind x = kind_of bs.
Proof.
  intros Ht Hn Hh Hne Ha. unfold encode_sn_user_data. replace (validate_nsapi nsapi) with true by (unfold validate_nsapi; lia).
  change (negb true) with false. change (negb (0 =? 0)%Z || negb (0 =? 0)%Z) with false. cbv iota.
  assert (Hlen : 0 < length bs) by (destruct bs; [done|cbn; lia]). rewrite (holds_len _ _ Hh). bfalse (length bs =? 0).
  assert (He : emits (write_bits ty 4;; write_bits nsapi 4;; write_bits 0 4;; write_bits 0 4) tt
    (val_bits 4 ty ++ val_bits 4 nsapi ++ val_bits 4 0 ++ val_bits 4 0)) by sn_emit.
  destruct (copied_n_pdu n_pdu bs _ _ Hh He) as (pdu0 & src & E0 & Es & Ek & pdu1 & E1 & pdu & E2 & Hp).
  assert (El : length (val_bits 4 ty ++ val_bits 4 nsapi ++ val_bits 4 0 ++ val_bits 4 0) = 16) by (by rewrite !length_app, !length_val_bits).
  rewrite El in E0. rewrite E0. step. rewrite Es. step. rewrite Ek. step. rewrite E1. step. rewrite E2. step. exists pdu.
  unfold decode_sn_user_data_pdu_of. destruct (from_bitbuffer_holds pdu (ho_wf _ _ Hp)) as (b & Eb & Hb). rewrite Eb. step.
  rewrite (ho_window _ _ Hp), <- !app_assoc in Hb. unfold get_pos. rewrite (ho_pos _ _ Hb), Nat.sub_diag. change (negb (0 =? 0)) with false. cbv iota. step.
  rewrite (malformed_reads 4 _ ty _ Ht ltac:(lia) b (ho_wf _ _ Hb) (holds_remaining _ _ Hb)). rewrite Ha. cbn [negb].
  destruct (parses_advance b _ _ (ho_wf _ _ Hb) (holds_remaining _ _ Hb)) as (W1 & R1 & _).
  unfold decode_sn_unitdata_body. destruct (from_bitbuffer_pos_holds _ W1) as (b1 & Eb1 & Hb1). rewrite Eb1. step. rewrite R1 in Hb1.
  rewrite !(app_assoc (val_bits 4 nsapi)), <- (app_assoc (val_bits 4 nsapi)) in Hb1.
  rewrite (unitdata_header_reads nsapi bs Hn Hne b1 (ho_wf _ _ Hb1)) by (rewrite (holds_remaining _ _ Hb1); by rewrite <- ?app_assoc).
  destruct (parses_advance b1 (val_bits 4 nsapi ++ val_bits 4 0 ++ val_bits 4 0) bs (ho_wf _ _ Hb1)) as (W2 & R2 & _);
    [rewrite (holds_remaining _ _ Hb1); by rewrite <- ?app_assoc|].
  destruct (from_bitbuffer_pos_holds _ W2) as (b2 & Eb2 & Hb2). rewrite R2 in Hb2. rewrite Eb2. step.
  rewrite (classify_holds b2 bs Hb2). step. eexists. by split_and!.
Qed.
