(* ===== verification/Sndcp.v ===== *)
(** * Packet data contexts and bearers (crates/tetra-entities/src/sndcp)

    [state.rs]: the state machine the base station keeps for a terminal; [context.rs]: the table
    of packet data contexts; [pdp_service.rs]: activation and deactivation; [bearer.rs]: the
    manager that keeps table and machines together; [wap_session.rs]: the handlers of control
    PDUs.  A method is a [method] over the receiver; [Panic] is a panic. *)

From Stdlib Require Import ZArith Lia ZifyNat.
From stdpp Require Import gmap strings.
From S2P Require Import Prelude.
From S2P Require Import BitBuffer.
From S2P Require Import SndcpPdus.

(** ** State machine ([state.rs]) *)

Inductive SwmiSndcpState := SnIdle | SnStandby | SnReady.
#[export] Instance SwmiSndcpState_eq_dec : EqDecision SwmiSndcpState.
Proof. solve_decision. Defined.

Record SwmiSndcpTimers := mkTimers { tm_standby : bool; tm_ready : bool; tm_context_ready : bool }.

Inductive SwmiSndcpEvent :=
  | PdpContextActivated | PdpContextDeactivated | StandbyTimerExpired | MsDeregistered | ServiceUserDataRequest
  | DataTransmitRequestReceived | PacketDataTransferred | ReadyTimerExpired | EndOfDataReceived | ReconnectReceived.

Inductive SwmiSndcpAction :=
  | StartStandbyTimer | StopStandbyTimer | StartReadyTimer | RestartReadyTimer | StopReadyTimer
  | StartContextReadyTimers | RestartContextReadyTimers | StopContextReadyTimers
  | DeleteAllPdpContexts | IndicateAllNsapisDeallocated
  | TransmitDataTransmitRequest | TransmitDataTransmitResponseAccept | TransmitEndOfData.
#[export] Instance SwmiSndcpAction_eq_dec : EqDecision SwmiSndcpAction.
Proof. solve_decision. Defined.

Record SwmiSndcpTransition := mkTransition {
  previous_state : SwmiSndcpState;
  new_state : SwmiSndcpState;
  actions : list SwmiSndcpAction
}.

Inductive SwmiSndcpStateError :=
  | InvalidEvent (state : SwmiSndcpState) (event : SwmiSndcpEvent)
  | NoActivePdpContext
  | SwmiStillTransmittingTlSdu.

Record SwmiSndcpStateMachine := mkMachine {
  sm_state : SwmiSndcpState;
  active_pdp_contexts : nat;
  sm_timers : SwmiSndcpTimers
}.
Definition machine_default : SwmiSndcpStateMachine := mkMachine SnIdle 0 (mkTimers false false false).

(** An expression over the receiver, then a method *)
Definition asking {S E A} (k : S -> method S E A) : method S E A := fun s => k s s.

Abbreviation SM := (method SwmiSndcpStateMachine SwmiSndcpStateError SwmiSndcpTransition).

(** [Ok(transition(previous_state, self.state, actions))], with the receiver left in [s'] *)
Definition moves (s s' : SwmiSndcpStateMachine) (actions : list SwmiSndcpAction) : outcome SwmiSndcpStateMachine SwmiSndcpStateError SwmiSndcpTransition :=
  Ok (mkTransition (sm_state s) (sm_state s') actions) s'.
Definition invalid (event : SwmiSndcpEvent) : SM := fun s => Err (InvalidEvent (sm_state s) event) s.
Definition is_state (s : SwmiSndcpStateMachine) (state : SwmiSndcpState) : bool := bool_decide (sm_state s = state).

Definition enter_idle (n : nat) : SwmiSndcpStateMachine := mkMachine SnIdle n (mkTimers false false false).
Definition enter_standby (n : nat) : SwmiSndcpStateMachine := mkMachine SnStandby n (mkTimers true false false).
Definition enter_ready (n : nat) : SwmiSndcpStateMachine := mkMachine SnReady n (mkTimers false true true).

Definition activate_pdp_context : SM := fun s =>
  if active_pdp_contexts s =? 0 then
    if negb (is_state s SnIdle) then invalid PdpContextActivated s
    else moves s (enter_standby 1) [StartStandbyTimer]
  else moves s (mkMachine (sm_state s) (active_pdp_contexts s + 1) (sm_timers s)) [].

Definition deactivate_pdp_context : SM := fun s =>
  if active_pdp_contexts s =? 0 then Err NoActivePdpContext s
  else if 1 <? active_pdp_contexts s then moves s (mkMachine (sm_state s) (active_pdp_contexts s - 1) (sm_timers s)) []
  else if negb (is_state s SnStandby) then invalid PdpContextDeactivated s
  else moves s (enter_idle 0) [StopStandbyTimer].

Definition standby_timer_expired : SM := fun s =>
  if negb (is_state s SnStandby) then invalid StandbyTimerExpired s
  else moves s (enter_idle 0) [StopStandbyTimer; DeleteAllPdpContexts; IndicateAllNsapisDeallocated].

Definition deregister_ms : SM := fun s =>
  moves s (enter_idle 0)
    match sm_state s with
    | SnIdle => []
    | SnStandby => [StopStandbyTimer; DeleteAllPdpContexts]
    | SnReady => [StopReadyTimer; StopContextReadyTimers; DeleteAllPdpContexts]
    end.

Definition service_user_data_request : SM := fun s =>
  if active_pdp_contexts s =? 0 then Err NoActivePdpContext s
  else if negb (is_state s SnStandby) then invalid ServiceUserDataRequest s
  else moves s (enter_ready (active_pdp_contexts s))
         [TransmitDataTransmitRequest; StopStandbyTimer; StartReadyTimer; StartContextReadyTimers].

Definition data_transmit_request_received : SM := fun s =>
  if active_pdp_contexts s =? 0 then Err NoActivePdpContext s
  else if negb (is_state s SnStandby) then invalid DataTransmitRequestReceived s
  else moves s (enter_ready (active_pdp_contexts s))
         [TransmitDataTransmitResponseAccept; StopStandbyTimer; StartReadyTimer; StartContextReadyTimers].

Definition packet_data_transferred : SM := fun s =>
  if active_pdp_contexts s =? 0 then Err NoActivePdpContext s
  else if negb (is_state s SnReady) then invalid PacketDataTransferred s
  else moves s (mkMachine (sm_state s) (active_pdp_contexts s) (mkTimers (tm_standby (sm_timers s)) true true))
         [RestartReadyTimer; RestartContextReadyTimers].

Definition ready_timer_expired : SM := fun s =>
  if negb (is_state s SnReady) then invalid ReadyTimerExpired s
  else moves s (enter_standby (active_pdp_contexts s))
         [TransmitEndOfData; StopReadyTimer; StopContextReadyTimers; StartStandbyTimer].

Definition end_of_data_received (immediate_service_change swmi_transmitting_tl_sdu : bool) : SM := fun s =>
  if negb (is_state s SnReady) then invalid EndOfDataReceived s
  else if negb immediate_service_change && swmi_transmitting_tl_sdu then Err SwmiStillTransmittingTlSdu s
  else moves s (enter_standby (active_pdp_contexts s))
         ((if negb immediate_service_change then [TransmitEndOfData] else []) ++
          [StopReadyTimer; StopContextReadyTimers; StartStandbyTimer]).

Definition reconnect_received : SM := fun s =>
  if negb (is_state s SnReady) then invalid ReconnectReceived s
  else moves s (enter_standby (active_pdp_contexts s)) [StopReadyTimer; StopContextReadyTimers; StartStandbyTimer].

Definition reconnect_without_data_received : SM := fun s =>
  if active_pdp_contexts s =? 0 then Err NoActivePdpContext s
  else if is_state s SnReady then reconnect_received s
  else if negb (is_state s SnStandby) then invalid ReconnectReceived s
  else moves s (mkMachine (sm_state s) (active_pdp_contexts s)
                  (mkTimers true (tm_ready (sm_timers s)) (tm_context_ready (sm_timers s)))) [StartStandbyTimer].

(** ** Bearer profile ([bearer_policy.rs]) *)

Inductive SndcpPacketDataClass := Background | Telemetry | RealTime | OtherClass.
#[export] Instance SndcpPacketDataClass_eq_dec : EqDecision SndcpPacketDataClass.
Proof. solve_decision. Defined.
Record SndcpPacketDataBearerProfile := mkBearerProfile {
  qos_negotiated : bool;
  data_class : SndcpPacketDataClass;
  unacknowledged_basic_link_repetitions : Z;
  fcs_required : bool
}.
#[export] Instance SndcpPacketDataBearerProfile_eq_dec : EqDecision SndcpPacketDataBearerProfile.
Proof. solve_decision. Defined.
Definition bearer_profile_default : SndcpPacketDataBearerProfile := mkBearerProfile false Background 0 false.

(** ** Context table ([context.rs]) *)

(** The ISSI and the NSAPI *)
Abbreviation SndcpContextKey := (Z * Z)%type.

Record SndcpPdpContext := mkContext {
  cx_key : SndcpContextKey;
  cx_pdp_type : SnPdpType;
  cx_address : SnAddress;
  cx_packet_data_ms_type : SnPacketDataMsType;
  cx_primary_nsapi : option Z;
  cx_pdu_priority : option Z;
  cx_data_priority : option Z;
  cx_max_npdu_len : option Z;
  cx_bearer_profile : SndcpPacketDataBearerProfile
}.
#[export] Instance SndcpPdpContext_eq_dec : EqDecision SndcpPdpContext.
Proof. solve_decision. Defined.

Inductive SndcpContextError :=
  | CxReservedNsapi (nsapi : Z)
  | DuplicateContext (key : SndcpContextKey)
  | MissingContext (key : SndcpContextKey)
  | PrimaryContextMissing (key : SndcpContextKey).

Abbreviation SndcpContextTable := (gmap (Z * Z) SndcpPdpContext).

Definition context_key_new (issi nsapi : Z) : SndcpContextKey + SndcpContextError :=
  if validate_nsapi nsapi then inl (issi, nsapi) else inr (CxReservedNsapi nsapi).

Definition primary_ipv4 (issi nsapi : Z) (address : SnAddress) (ms : SnPacketDataMsType) : SndcpPdpContext + SndcpContextError :=
  match context_key_new issi nsapi with
  | inl key => inl (mkContext key PdpIpv4 address ms None None None None bearer_profile_default)
  | inr e => inr e
  end.
Definition secondary (issi nsapi primary_nsapi : Z) (pdp_type : SnPdpType) (address : SnAddress) (ms : SnPacketDataMsType)
    : SndcpPdpContext + SndcpContextError :=
  match context_key_new issi nsapi with
  | inr e => inr e
  | inl key =>
      match context_key_new issi primary_nsapi with
      | inl primary_key => inl (mkContext key pdp_type address ms (Some primary_key.2) None None None bearer_profile_default)
      | inr e => inr e
      end
  end.

Definition with_qos (c : SndcpPdpContext) (pdu_priority data_priority max_npdu_len : option Z) : SndcpPdpContext :=
  mkContext (cx_key c) (cx_pdp_type c) (cx_address c) (cx_packet_data_ms_type c) (cx_primary_nsapi c)
    pdu_priority data_priority max_npdu_len (cx_bearer_profile c).
Definition with_bearer_profile (c : SndcpPdpContext) (bearer_profile : SndcpPacketDataBearerProfile) : SndcpPdpContext :=
  mkContext (cx_key c) (cx_pdp_type c) (cx_address c) (cx_packet_data_ms_type c) (cx_primary_nsapi c)
    (cx_pdu_priority c) (cx_data_priority c) (cx_max_npdu_len c) bearer_profile.
Definition with_ms_type (c : SndcpPdpContext) (ms : SnPacketDataMsType) : SndcpPdpContext :=
  mkContext (cx_key c) (cx_pdp_type c) (cx_address c) ms (cx_primary_nsapi c)
    (cx_pdu_priority c) (cx_data_priority c) (cx_max_npdu_len c) (cx_bearer_profile c).

Abbreviation TM A := (method SndcpContextTable SndcpContextError A).

Definition contains_key (key : SndcpContextKey) (t : SndcpContextTable) : bool := bool_decide (is_Some (t !! key)).

(** The primary a secondary context names is in the table. *)
Definition check_primary (context : SndcpPdpContext) : TM unit := fun t =>
  match cx_primary_nsapi context with
  | None => Ok tt t
  | Some primary_nsapi =>
      match context_key_new (cx_key context).1 primary_nsapi with
      | inr e => Err e t
      | inl primary_key => if negb (contains_key primary_key t) then Err (PrimaryContextMissing primary_key) t else Ok tt t
      end
  end.

Definition put_context (context : SndcpPdpContext) : TM unit := fun t => Ok tt (<[cx_key context := context]> t).

Definition activate (context : SndcpPdpContext) : TM unit :=
  asking (fun t =>
    if contains_key (cx_key context) t then fail (DuplicateContext (cx_key context))
    else check_primary context;; put_context context).

Definition replace_existing (context : SndcpPdpContext) : TM SndcpPdpContext :=
  asking (fun t =>
    if negb (contains_key (cx_key context) t) then fail (MissingContext (cx_key context))
    else check_primary context;; put_context context;; panicking (t !! cx_key context)).

Definition get_issi_nsapi (t : SndcpContextTable) (issi nsapi : Z) : option SndcpPdpContext + SndcpContextError :=
  match context_key_new issi nsapi with inl key => inl (t !! key) | inr e => inr e end.
(** [get_issi_nsapi(..).ok().flatten()] *)
Definition context_of (t : SndcpContextTable) (issi nsapi : Z) : option SndcpPdpContext :=
  match get_issi_nsapi t issi nsapi with inl c => c | inr _ => None end.

Definition deactivate (key : SndcpContextKey) : TM SndcpPdpContext := fun t =>
  match t !! key with Some c => Ok c (delete key t) | None => Err (MissingContext key) t end.

Definition linked (key : SndcpContextKey) (kc : SndcpContextKey * SndcpPdpContext) : Prop :=
  kc.1.1 = key.1 /\ cx_primary_nsapi kc.2 = Some key.2.
#[export] Instance linked_dec key kc : Decision (linked key kc).
Proof. unfold linked. apply _. Defined.

(** [retain], and [1 + before - self.contexts.len()] *)
Definition retain_unlinked (key : SndcpContextKey) : TM nat := fun t =>
  let t' := filter (fun kc => ~ linked key kc) t in Ok (1 + size t - size t') t'.

Definition deactivate_with_linked_secondaries (key : SndcpContextKey) : TM nat :=
  removed ← deactivate key;
  if bool_decide (is_Some (cx_primary_nsapi removed)) then mret 1 else retain_unlinked key.

Definition deactivate_issi (issi : Z) (t : SndcpContextTable) : nat * SndcpContextTable :=
  let t' := filter (fun kc => kc.1.1 <> issi) t in (size t - size t', t').

Definition has_ipv4 (address : Ipv4Octets) (kc : SndcpContextKey * SndcpPdpContext) : Prop :=
  cx_pdp_type kc.2 = PdpIpv4 /\ cx_address kc.2 = Ipv4 address.
#[export] Instance has_ipv4_dec address kc : Decision (has_ipv4 address kc).
Proof. unfold has_ipv4. apply _. Defined.
(** [any_ipv4_context(address).is_some()], the use the service makes of it *)
Definition any_ipv4_context (t : SndcpContextTable) (address : Ipv4Octets) : bool :=
  negb (bool_decide (filter (has_ipv4 address) t = ∅)).

Definition contexts_for_issi (t : SndcpContextTable) (issi : Z) : SndcpContextTable :=
  filter (fun kc => (cx_key kc.2).1 = issi) t.

(** ** Activation and deactivation ([pdp_service.rs]) *)

Record SndcpIpv4Pool := mkPool { pool_prefix : Z * Z * Z; first_host : Z; last_host : Z }.

Record SndcpPdpPolicy := mkPdpPolicy {
  service_enabled : bool;
  dynamic_ipv4_pool : option SndcpIpv4Pool;
  allow_static_ipv4 : bool;
  allow_secondary_contexts : bool;
  accept_type_a_parallel : bool;
  accept_type_b_alternating : bool;
  accept_type_c_ip_single_mode : bool;
  accept_type_d_restricted_ip_single_mode : bool;
  po_pdu_priority_max : Z;
  po_ready_timer : Z;
  po_standby_timer : Z;
  po_response_wait_timer : Z;
  po_maximum_transmission_unit : SndcpMaximumTransmissionUnit;
  max_contexts_per_issi : nat;
  default_bearer_profile : SndcpPacketDataBearerProfile
}.

Definition pool_default : SndcpIpv4Pool := mkPool (10, 0, 0)%Z 2 254.
Definition policy_default : SndcpPdpPolicy :=
  mkPdpPolicy false None false false false false false false 4 8 4 7 Octets576 4 bearer_profile_default.
Definition experimental_wap_ipv4 : SndcpPdpPolicy :=
  mkPdpPolicy true (Some pool_default) true false true true true false 4 8 4 7 Octets576 4 bearer_profile_default.

Inductive SndcpPdpActivationResult :=
  | PdpAccepted (accept : SndcpActivatePdpContextAccept) (context : SndcpPdpContext) (reused_existing : bool)
  | PdpRejected (reject : SndcpActivatePdpContextReject).
Record SndcpPdpDeactivationResult := mkDeactivationResult { de_accept : SndcpDeactivation; removed_contexts : nat }.

Record SndcpPdpService := mkPdpService { policy : SndcpPdpPolicy; contexts : SndcpContextTable }.
Definition with_contexts (s : SndcpPdpService) (t : SndcpContextTable) : SndcpPdpService := mkPdpService (policy s) t.

Definition maximum_transmission_unit_octets (mtu : SndcpMaximumTransmissionUnit) : Z :=
  match mtu with Octets296 => 296 | Octets576 => 576 | Octets1006 => 1006 | Octets1500 => 1500 | Octets2002 => 2002 end.
Definition context_error_to_reject_cause (error : SndcpContextError) : SndcpActivationRejectCause :=
  match error with
  | PrimaryContextMissing _ => ArPrimaryPdpContextDoesNotExist
  | DuplicateContext _ => ArUndefined
  | CxReservedNsapi _ | MissingContext _ => ArOther 0
  end.

Definition ipv4_in_pool (address : Ipv4Octets) (pool : SndcpIpv4Pool) : bool :=
  let '(o1, o2, o3, o4) := address in
  bool_decide ((o1, o2, o3) = pool_prefix pool) && ((first_host pool <=? o4) && (o4 <=? last_host pool))%Z.
Definition static_ipv4_address_allowed (p : SndcpPdpPolicy) (address : Ipv4Octets) : bool :=
  from_option (ipv4_in_pool address) true (dynamic_ipv4_pool p).
Definition pool_address (pool : SndcpIpv4Pool) (host : Z) : Ipv4Octets :=
  let '(p1, p2, p3) := pool_prefix pool in (p1, p2, p3, host).
Definition allocate_dynamic_ipv4 (s : SndcpPdpService) : option Ipv4Octets :=
  pool ← dynamic_ipv4_pool (policy s);
  if (last_host pool <? first_host pool)%Z then None else
  snd <$> list_find (fun address => any_ipv4_context (contexts s) address = false)
            (pool_address pool <$> seqZ (first_host pool) (last_host pool - first_host pool + 1)).
Definition packet_data_ms_type_supported (p : SndcpPdpPolicy) (ms : SnPacketDataMsType) : bool :=
  match ms with
  | TypeAParallel => accept_type_a_parallel p
  | TypeBAlternating => accept_type_b_alternating p
  | TypeCIpSingleMode => accept_type_c_ip_single_mode p
  | TypeDRestrictedIpSingleMode => accept_type_d_restricted_ip_single_mode p
  end.

(** The policy's quality of service on a context, and its answer *)
Definition with_policy (p : SndcpPdpPolicy) (c : SndcpPdpContext) : SndcpPdpContext :=
  with_bearer_profile
    (with_qos c (Some (po_pdu_priority_max p)) None (Some (maximum_transmission_unit_octets (po_maximum_transmission_unit p))))
    (default_bearer_profile p).
Definition policy_accept (p : SndcpPdpPolicy) (nsapi : Z) (ty : SndcpTypeIdentifierInAccept) (assigned : option SnAddress)
    : SndcpActivatePdpContextAccept :=
  mkAccept nsapi (po_pdu_priority_max p) (po_ready_timer p) (po_standby_timer p) (po_response_wait_timer p) ty assigned 0
    (po_maximum_transmission_unit p).

(** The context a demand asks for, with what its acceptance says of the address *)
Definition demanded_context (s : SndcpPdpService) (issi : Z) (demand : SndcpActivatePdpContextDemand)
    : (SndcpPdpContext * SndcpTypeIdentifierInAccept * option SnAddress) + SndcpActivationRejectCause :=
  let primary ty address :=
    match primary_ipv4 issi (ad_nsapi demand) (Ipv4 address) (ad_packet_data_ms_type demand) with
    | inl c => inl (c, ty, Some (Ipv4 address))
    | inr e => inr (context_error_to_reject_cause e)
    end in
  match ad_address demand with
  | DemandIpv4Static address =>
      if negb (allow_static_ipv4 (policy s)) then inr ArStaticAddressNotAllowed
      else if negb (static_ipv4_address_allowed (policy s) address) then inr ArStaticAddressNotAllowed
      else if any_ipv4_context (contexts s) address then inr ArStaticAddressInUse
      else primary Ipv4StaticAddress address
  | DemandIpv4Dynamic =>
      match allocate_dynamic_ipv4 s with
      | None => inr ArDynamicAddressPoolEmpty
      | Some address => primary Ipv4DynamicAddress address
      end
  | DemandSecondaryPdpContext primary_nsapi =>
      if negb (allow_secondary_contexts (policy s)) then inr ArSecondaryPdpContextsNotSupported else
      match get_issi_nsapi (contexts s) issi primary_nsapi with
      | inr e => inr (context_error_to_reject_cause e)
      | inl None => inr ArPrimaryPdpContextDoesNotExist
      | inl (Some primary) =>
          match secondary issi (ad_nsapi demand) primary_nsapi (cx_pdp_type primary) (cx_address primary) (ad_packet_data_ms_type demand) with
          | inl c => inl (c, NoAddress, None)
          | inr e => inr (context_error_to_reject_cause e)
          end
      end
  | DemandIpv6 => inr ArIpv6NotSupported
  | DemandMobileIpv4ForeignAgentCareOfAddress => inr (ArOther 17)
  | DemandMobileIpv4CoLocatedCareOfAddress => inr (ArOther 18)
  end.
Definition build_context_and_accept (s : SndcpPdpService) (issi : Z) (demand : SndcpActivatePdpContextDemand)
    : (SndcpPdpContext * SndcpActivatePdpContextAccept) + SndcpActivationRejectCause :=
  match demanded_context s issi demand with
  | inr cause => inr cause
  | inl (c, ty, assigned) => inl (with_policy (policy s) c, policy_accept (policy s) (ad_nsapi demand) ty assigned)
  end.

Definition accept_for_existing_context (p : SndcpPdpPolicy) (demand : SndcpActivatePdpContextDemand) (c : SndcpPdpContext)
    : option (SndcpActivatePdpContextAccept * SndcpPdpContext) :=
  '(ty, assigned) ←
    match ad_address demand, cx_address c with
    | DemandIpv4Dynamic, Ipv4 address => Some (Ipv4DynamicAddress, Some (Ipv4 address))
    | DemandIpv4Static requested, Ipv4 existing =>
        if bool_decide (requested = existing) then Some (Ipv4StaticAddress, Some (Ipv4 existing)) else None
    | DemandSecondaryPdpContext primary_nsapi, _ =>
        if bool_decide (cx_primary_nsapi c = Some primary_nsapi) then Some (NoAddress, None) else None
    | _, _ => None
    end;
  c ← (if bool_decide (cx_packet_data_ms_type c = ad_packet_data_ms_type demand) then Some c
       else match ad_address demand with
            | DemandIpv4Dynamic | DemandIpv4Static _ =>
                if bool_decide (cx_primary_nsapi c = None) then Some (with_ms_type c (ad_packet_data_ms_type demand)) else None
            | _ => None
            end);
  Some (policy_accept p (ad_nsapi demand) ty assigned, with_policy p c).

(** [handle_activate_demand] of the service; [None] is a panic. *)
Definition pdp_handle_activate_demand (issi : Z) (demand : SndcpActivatePdpContextDemand) (s : SndcpPdpService)
    : option (SndcpPdpActivationResult * SndcpPdpService) :=
  let reject cause s := Some (PdpRejected (mkReject (ad_nsapi demand) cause), s) in
  if negb (service_enabled (policy s)) then reject ArSndcpServiceTemporarilyNotAvailable s
  else if negb (packet_data_ms_type_supported (policy s) (ad_packet_data_ms_type demand)) then reject ArPacketDataMsTypeNotSupported s
  else
    match context_of (contexts s) issi (ad_nsapi demand) with
    | Some existing =>
        match accept_for_existing_context (policy s) demand existing with
        | None => reject ArUndefined s
        | Some (accept, refreshed) =>
            if bool_decide (refreshed = existing) then Some (PdpAccepted accept refreshed true, s)
            else match replace_existing refreshed (contexts s) with
                 | Panic => None
                 | Err e t => reject (context_error_to_reject_cause e) (with_contexts s t)
                 | Ok _ t => Some (PdpAccepted accept refreshed true, with_contexts s t)
                 end
        end
    | None =>
        if max_contexts_per_issi (policy s) <=? size (contexts_for_issi (contexts s) issi)
        then reject ArMaximumNumberOfPdpContextsPerItsiExceeded s
        else if negb (validate_pdu_priority (po_pdu_priority_max (policy s))) then reject ArUndefined s
        else
          match build_context_and_accept s issi demand with
          | inr cause => reject cause s
          | inl (context, accept) =>
              match activate context (contexts s) with
              | Ok _ t => Some (PdpAccepted accept context false, with_contexts s t)
              | Err (PrimaryContextMissing _) t => reject ArPrimaryPdpContextDoesNotExist (with_contexts s t)
              | Err (DuplicateContext _) t => reject ArUndefined (with_contexts s t)
              | Err (CxReservedNsapi nsapi) t => Some (PdpRejected (mkReject nsapi (ArOther 0)), with_contexts s t)
              | Err (MissingContext _) t => reject (ArOther 0) (with_contexts s t)
              | Panic => None
              end
          end
    end.

(** [handle_deactivate_demand] of the service *)
Definition pdp_handle_deactivate_demand (issi : Z) (deactivation : SndcpDeactivation) (s : SndcpPdpService)
    : SndcpPdpDeactivationResult * SndcpPdpService :=
  let '(removed, t) :=
    match deactivation with
    | AllNsapis => deactivate_issi issi (contexts s)
    | Nsapi nsapi =>
        match context_key_new issi nsapi with
        | inr _ => (0, contexts s)
        | inl key =>
            match deactivate_with_linked_secondaries key (contexts s) with
            | Ok removed t => (removed, t)
            | Err _ t => (0, t)
            | Panic => (0, contexts s)
            end
        end
    end in
  (mkDeactivationResult deactivation removed, with_contexts s t).

(** ** Bearer manager ([bearer.rs]) *)

Record SndcpBearerManager := mkManager { pdp : SndcpPdpService; states : gmap Z SwmiSndcpStateMachine }.
Definition manager_new (p : SndcpPdpPolicy) : SndcpBearerManager := mkManager (mkPdpService p ∅) ∅.

Inductive SndcpBearerActivationOutcome :=
  | BearerAccepted (accept : SndcpActivatePdpContextAccept) (transition : SwmiSndcpTransition)
  | BearerRejected (reject : SndcpActivatePdpContextReject).
Record SndcpBearerDeactivationOutcome := mkBearerDeactivation {
  bd_deactivation : SndcpPdpDeactivationResult;
  bd_transitions : list SwmiSndcpTransition
}.
Record SndcpBearerControlOutcome := mkControl { co_transition : option SwmiSndcpTransition; control_pdu : option BitBuffer }.
Inductive SndcpBearerError :=
  | MissingPdpContext (issi nsapi : Z)
  | PacketDataTransferNotReady (issi : Z) (state : SwmiSndcpState)
  | StateError (e : SwmiSndcpStateError)
  | EncodeTransferControl.

Abbreviation BM A := (method SndcpBearerManager SndcpBearerError A).

Definition machine_of (m : SndcpBearerManager) (issi : Z) : SwmiSndcpStateMachine := default machine_default (states m !! issi).
Definition state_for_issi (m : SndcpBearerManager) (issi : Z) : SwmiSndcpState := sm_state (machine_of m issi).
Definition context_missing (m : SndcpBearerManager) (issi nsapi : Z) : bool :=
  negb (bool_decide (is_Some (context_of (contexts (pdp m)) issi nsapi))).

(** [self.state_for_issi_mut(issi).op()], with [map_err(State)] *)
Definition state_for_issi_mut (issi : Z) (op : SM) : BM SwmiSndcpTransition := fun m =>
  match op (machine_of m issi) with
  | Ok a s => Ok a (mkManager (pdp m) (<[issi := s]> (states m)))
  | Err e s => Err (StateError e) (mkManager (pdp m) (<[issi := s]> (states m)))
  | Panic => Panic
  end.
Definition remove_idle_state (issi : Z) (m : SndcpBearerManager) : SndcpBearerManager :=
  if bool_decide (state_for_issi m issi = SnIdle) then mkManager (pdp m) (delete issi (states m)) else m.

(** [encode(..)?] in a method of the manager *)
Definition transfer_pdu {S} (x : option (BitBuffer + SndcpTransferError)) : method S SndcpBearerError BitBuffer :=
  x ← panicking x; match x with inl pdu => mret pdu | inr _ => fail EncodeTransferControl end.
Definition encode_reject_response (nsapi : Z) (cause : SndcpTransferRejectCause) : BM BitBuffer :=
  transfer_pdu (encode_data_transmit_response (mkTransmitResponse nsapi (Rejected cause))).
Definition control_pdu_for_transition (transition : SwmiSndcpTransition) : BM (option BitBuffer) :=
  if bool_decide (TransmitEndOfData ∈ actions transition)
  then pdu ← transfer_pdu (encode_end_of_data (mkEndOfData false)); mret (Some pdu)
  else mret None.
Definition state_error_to_reject_cause (error : SwmiSndcpStateError) : SndcpTransferRejectCause :=
  match error with NoActivePdpContext => TrUnknownNsapi | InvalidEvent _ _ | SwmiStillTransmittingTlSdu => TrUndefined end.

Definition mark_ready_bearer_temporarily_broken (issi : Z) : BM (option SwmiSndcpTransition) :=
  asking (fun m =>
    if negb (bool_decide (state_for_issi m issi = SnReady)) then mret None
    else t ← state_for_issi_mut issi reconnect_without_data_received; mret (Some t)).

(** The service's [handle_activate_demand], on the manager's service *)
Definition service_activate (issi : Z) (demand : SndcpActivatePdpContextDemand) : BM SndcpPdpActivationResult := fun m =>
  match pdp_handle_activate_demand issi demand (pdp m) with
  | Some (result, s) => Ok result (mkManager s (states m))
  | None => Panic
  end.
Definition handle_activate_demand (issi : Z) (demand : SndcpActivatePdpContextDemand) : BM SndcpBearerActivationOutcome :=
  result ← service_activate issi demand;
  match result with
  | PdpAccepted accept _ reused_existing =>
      transition ← (if (reused_existing : bool)
                    then reading (fun m => mkTransition (state_for_issi m issi) (state_for_issi m issi) [])
                    else state_for_issi_mut issi activate_pdp_context);
      mret (BearerAccepted accept transition)
  | PdpRejected reject => mret (BearerRejected reject)
  end.

(** The loop of [handle_deactivate_demand]: one step of the machine for each context removed,
    until one is refused. *)
Fixpoint deactivate_states (n : nat) (issi : Z) (m : SndcpBearerManager) : list SwmiSndcpTransition * SndcpBearerManager :=
  match n with
  | O => ([], m)
  | S n =>
      match states m !! issi with
      | None => ([], m)
      | Some s =>
          match deactivate_pdp_context s with
          | Ok transition s =>
              let '(transitions, m) := deactivate_states n issi (mkManager (pdp m) (<[issi := s]> (states m))) in
              (transition :: transitions, m)
          | Err _ s => ([], mkManager (pdp m) (<[issi := s]> (states m)))
          | Panic => ([], m)
          end
      end
  end.
Definition handle_deactivate_demand (issi : Z) (deactivation : SndcpDeactivation) (m : SndcpBearerManager)
    : SndcpBearerDeactivationOutcome * SndcpBearerManager :=
  let '(result, s) := pdp_handle_deactivate_demand issi deactivation (pdp m) in
  let '(transitions, m) := deactivate_states (removed_contexts result) issi (mkManager s (states m)) in
  (mkBearerDeactivation result transitions, remove_idle_state issi m).

(** [match op { Ok(a) => .., Err(error) => .. }] over a step of a machine *)
Definition or_else {A B} (op : BM A) (ok : A -> BM B) (err : SwmiSndcpStateError -> BM B) : BM B := fun m =>
  match op m with
  | Ok a m => ok a m
  | Err (StateError error) m => err error m
  | Err e m => Err e m
  | Panic => Panic
  end.

Definition handle_ms_data_transmit_request (issi : Z) (request : SndcpDataTransmitRequest) : BM SndcpBearerControlOutcome :=
  asking (fun m =>
    if context_missing m issi (dt_nsapi request)
    then pdu ← encode_reject_response (dt_nsapi request) TrUnknownNsapi; mret (mkControl None (Some pdu))
    else
      or_else (state_for_issi_mut issi data_transmit_request_received)
        (fun transition =>
           pdu ← transfer_pdu (encode_data_transmit_response (mkTransmitResponse (dt_nsapi request) Accepted));
           mret (mkControl (Some transition) (Some pdu)))
        (fun error =>
           pdu ← encode_reject_response (dt_nsapi request) (state_error_to_reject_cause error);
           mret (mkControl None (Some pdu)))).

Definition handle_swmi_service_user_data_request (issi nsapi : Z) : BM SndcpBearerControlOutcome :=
  asking (fun m =>
    if context_missing m issi nsapi then fail (MissingPdpContext issi nsapi)
    else
      transition ← state_for_issi_mut issi service_user_data_request;
      pdu ← transfer_pdu (encode_data_transmit_request (mkTransmitRequest nsapi false NoResource));
      mret (mkControl (Some transition) (Some pdu))).

Definition handle_packet_data_transferred (issi : Z) : BM SwmiSndcpTransition := state_for_issi_mut issi packet_data_transferred.

Definition prepare_swmi_unitdata_transfer (issi nsapi : Z) : BM SwmiSndcpTransition :=
  asking (fun m =>
    if context_missing m issi nsapi then fail (MissingPdpContext issi nsapi)
    else if negb (bool_decide (state_for_issi m issi = SnReady)) then fail (PacketDataTransferNotReady issi (state_for_issi m issi))
    else handle_packet_data_transferred issi).

Definition handle_ready_timer_expired (issi : Z) : BM SndcpBearerControlOutcome :=
  transition ← state_for_issi_mut issi ready_timer_expired;
  pdu ← control_pdu_for_transition transition;
  mret (mkControl (Some transition) pdu).

Definition handle_end_of_data_received (issi : Z) (end_of_data : SndcpEndOfData) (swmi_transmitting_tl_sdu : bool)
    : BM SndcpBearerControlOutcome :=
  transition ← state_for_issi_mut issi (end_of_data_received (immediate_service_change end_of_data) swmi_transmitting_tl_sdu);
  pdu ← control_pdu_for_transition transition;
  mret (mkControl (Some transition) pdu).

Definition handle_reconnect_received (issi : Z) (reconnect : SndcpReconnect) : BM SndcpBearerControlOutcome :=
  match rc_nsapi reconnect with
  | None => transition ← state_for_issi_mut issi reconnect_without_data_received; mret (mkControl (Some transition) None)
  | Some nsapi =>
      asking (fun m =>
        if context_missing m issi nsapi
        then pdu ← encode_reject_response nsapi TrUnknownNsapi; mret (mkControl None (Some pdu))
        else
          state_for_issi_mut issi reconnect_received;;
          ready_transition ← state_for_issi_mut issi data_transmit_request_received;
          pdu ← transfer_pdu (encode_data_transmit_response (mkTransmitResponse nsapi Accepted));
          mret (mkControl (Some ready_transition) (Some pdu)))
  end.

(** Statements that cannot fail *)
Definition modifying {S E} (f : S -> S) : method S E unit := fun s => Ok tt (f s).
Definition service_deactivate (issi : Z) (deactivation : SndcpDeactivation) (m : SndcpBearerManager) : SndcpBearerManager :=
  mkManager (pdp_handle_deactivate_demand issi deactivation (pdp m)).2 (states m).

Definition deregister_issi (issi : Z) : BM SwmiSndcpTransition :=
  modifying (service_deactivate issi AllNsapis);;
  transition ← state_for_issi_mut issi deregister_ms;
  modifying (remove_idle_state issi);;
  mret transition.

(** ** Control PDUs of a session ([wap_session.rs]) *)

Inductive SndcpWapSessionError :=
  | SessionPdp (e : SndcpPdpError)
  | SessionBearer (e : SndcpBearerError)
  | SessionTransfer (e : SndcpTransferError)
  | MissingControlPdu (what : string).
Inductive SndcpWapSessionResponse := ControlResponse (pdu : BitBuffer) | NoResponse.

Abbreviation WM A := (method SndcpBearerManager SndcpWapSessionError A).

(** [?] on the results of the PDP module, of the transfer module, of the manager *)
Definition pdp_result {A} (x : option (A + SndcpPdpError)) : WM A :=
  x ← panicking x; match x with inl a => mret a | inr e => fail (SessionPdp e) end.
Definition transfer_result {A} (x : option (A + SndcpTransferError)) : WM A :=
  x ← panicking x; match x with inl a => mret a | inr e => fail (SessionTransfer e) end.
Definition bearer_result {A} (op : BM A) : WM A := fun m =>
  match op m with Ok a m => Ok a m | Err e m => Err (SessionBearer e) m | Panic => Panic end.

Definition handle_activate_pdp_context_demand (issi : Z) (pdu : BitBuffer) : WM BitBuffer :=
  demand ← pdp_result (decode_activate_pdp_context_demand pdu);
  outcome ← bearer_result (handle_activate_demand issi demand);
  match outcome with
  | BearerAccepted accept _ => pdp_result (encode_activate_pdp_context_accept accept)
  | BearerRejected reject => pdp_result (encode_activate_pdp_context_reject reject)
  end.

Definition bearer_deactivate (issi : Z) (deactivation : SndcpDeactivation) : WM SndcpBearerDeactivationOutcome := fun m =>
  let '(result, m) := handle_deactivate_demand issi deactivation m in Ok result m.
Definition handle_deactivate_pdp_context_demand (issi : Z) (pdu : BitBuffer) : WM BitBuffer :=
  deactivation ← pdp_result (decode_deactivate_pdp_context_demand pdu);
  result ← bearer_deactivate issi deactivation;
  pdp_result (encode_deactivate_pdp_context_accept (de_accept (bd_deactivation result))).

Definition recover_missing_wap_ipv4_context_for_ms_transfer (issi nsapi : Z) : WM bool :=
  asking (fun m =>
    if bool_decide (is_Some (context_of (contexts (pdp m)) issi nsapi)) then mret false
    else
      bearer_result (handle_activate_demand issi (mkDemand 1 nsapi DemandIpv4Dynamic TypeAParallel 0));;
      mret true).

Definition handle_data_transmit_request (issi : Z) (pdu : BitBuffer) : WM BitBuffer :=
  request ← transfer_result (decode_data_transmit_request pdu);
  recover_missing_wap_ipv4_context_for_ms_transfer issi (dt_nsapi request);;
  outcome ← bearer_result (handle_ms_data_transmit_request issi request);
  match control_pdu outcome with
  | Some pdu => mret pdu
  | None => fail (MissingControlPdu "sn_data_transmit_response")
  end.

Definition control_response (outcome : SndcpBearerControlOutcome) : SndcpWapSessionResponse :=
  match control_pdu outcome with Some pdu => ControlResponse pdu | None => NoResponse end.

Definition handle_end_of_data_response (issi : Z) (pdu : BitBuffer) : WM SndcpWapSessionResponse :=
  end_of_data ← transfer_result (decode_end_of_data pdu);
  outcome ← bearer_result (handle_end_of_data_received issi end_of_data false);
  mret (control_response outcome).

Definition handle_reconnect_response (issi : Z) (pdu : BitBuffer) : WM SndcpWapSessionResponse :=
  reconnect ← transfer_result (decode_reconnect pdu);
  asking (fun m =>
    if bool_decide (rc_nsapi reconnect = None) && bool_decide (state_for_issi m issi = SnIdle)
       && bool_decide (contexts_for_issi (contexts (pdp m)) issi = ∅)
    then mret NoResponse
    else
      recovered ← match rc_nsapi reconnect with
                  | Some nsapi => recover_missing_wap_ipv4_context_for_ms_transfer issi nsapi
                  | None => mret false
                  end;
      outcome ← match rc_nsapi reconnect, (recovered : bool) with
                | Some nsapi, true =>
                    bearer_result (handle_ms_data_transmit_request issi
                      (mkTransmitRequest nsapi false (rc_resource_request reconnect)))
                | _, _ => bearer_result (handle_reconnect_received issi reconnect)
                end;
      mret (control_response outcome)).
