(* ===== verification/SndcpFacts.v ===== *)
(** * Invariants of packet data contexts and bearers

    What the decoders of SNDCP control PDUs deliver, and what the operations of the bearer
    manager keep of its table of contexts and of its state machines. *)

From Stdlib Require Import ZArith Lia ZifyNat.
From stdpp Require Import gmap strings.
From S2P Require Import Prelude.
From S2P Require Import BitBuffer.
From S2P Require Import BitBufferFacts.
From S2P Require Import Codec.
From S2P Require Import Robust.
From S2P Require Import Frag.
From S2P Require Import SndcpPdus.
From S2P Require Import SndcpCodec.
From S2P Require Import Sndcp.

(** ** What a decoder delivers *)

(** No panic on a well-formed buffer, and a value that satisfies [P]. *)
Definition yields {E A} (P : A -> Prop) (m : method BitBuffer E A) : Prop :=
  forall b, wf b -> match m b with Ok a b' => wf b' /\ P a | Err _ _ => True | Panic => False end.

Lemma yields_ret {E A} (P : A -> Prop) a : P a -> yields (E := E) P (mret a).
Proof. by intros H b W. Qed.

Lemma yields_fail {E A} (P : A -> Prop) (e : E) : yields P (fail e).
Proof. by intros b W. Qed.

Lemma yields_bind {E A B} (P : A -> Prop) (Q : B -> Prop) (m : method BitBuffer E A) (k : A -> method BitBuffer E B) :
  yields P m -> (forall a, P a -> yields Q (k a)) -> yields Q (m ≫= k).
Proof.
  intros Hm Hk b W. specialize (Hm b W). unfold mbind, method_bind. destruct (m b) as [a b1|e b1|]; [|done|done].
  destruct Hm as [W1 Ha]. exact (Hk a Ha b1 W1).
Qed.

Section readers.
Context {E : Type} `{PduError E}.

Lemma read_sn_yields n field : n <= 64 -> yields (E := E) is_byte (read_sn n field).
Proof.
  intros Hn b W. pose proof (robust_read_bits n Hn b W) as Hr. unfold read_sn.
  assert (Ne : forall e b', read_bits n b <> Err e b').
  { intros e b'. unfold read_bits. by destruct (peek_bits_startoffset b _ n) as [[?|]|]. }
  destruct (read_bits n b) as [[v|] b1|e b1|]; [|done|by destruct (Ne e b1)|done].
  split; [by eapply advanced_wf|]. unfold is_byte, u8. pose proof (Z.mod_pos_bound v (2 ^ 8)). lia.
Qed.

Lemma read_sn_bool_yields field : yields (E := E) (fun _ => True) (read_sn_bool field).
Proof. eapply yields_bind; [apply read_sn_yields; lia|intros v _; by apply yields_ret]. Qed.

Lemma expect_yields t : yields (E := E) (fun _ => True) (expect_sn_pdu_type t).
Proof.
  eapply yields_bind; [apply read_sn_yields; lia|intros v _]. destruct (v =? t)%Z; [by apply yields_ret|apply yields_fail].
Qed.

Lemma trailing_yields : yields (E := E) (fun _ => True) reject_trailing_bits.
Proof. intros b W. unfold reject_trailing_bits. by destruct (get_len_remaining b =? 0). Qed.

Lemma tail_yields : yields (E := E) (fun _ => True) read_no_optional_tail.
Proof.
  eapply yields_bind; [apply read_sn_yields; lia|intros v _]. destruct (v =? 0)%Z; [apply trailing_yields|apply yields_fail].
Qed.

Lemma ensure_yields (c : unit + E) : yields (fun _ => c = inl tt) (ensure c).
Proof. destruct c as [[]|e]; [by apply yields_ret|apply yields_fail]. Qed.

Lemma decoded_yields {A} (P : A -> Prop) (m : method BitBuffer E A) pdu :
  wf pdu -> yields P m -> match decoded m pdu with Some (inl a) => P a | Some (inr _) => True | None => False end.
Proof.
  intros W Hm. destruct (from_bitbuffer_holds pdu W) as (b & Eb & Hb). unfold decoded. rewrite Eb. step.
  pose proof (ho_wf _ _ Hb) as Wb. pose proof (ho_pos _ _ Hb) as Hp. pose proof Wb as [_ Ws Wp _].
  assert (Es : run (seek 0) b = Some (tt, b)).
  { unfold run, seek. btrue (start b + 0 <=? end_ b). rewrite Nat.add_0_r, <- Hp. by destruct b. }
  rewrite Es. step. specialize (Hm b Wb). destruct (m b) as [a b1|e b1|]; [apply Hm|done|done].
Qed.
End readers.

Ltac sn_yields :=
  repeat first
    [ eapply yields_bind; [first [apply expect_yields|apply read_sn_yields; lia|apply read_sn_bool_yields|apply ensure_yields|apply tail_yields|apply trailing_yields]|cbn beta; intros ? ?]
    | apply yields_fail
    | match goal with |- yields _ (mret _) => apply yields_ret end ].

Ltac sn_nsapi := match goal with H : nsapi_valid ?n = inl tt |- _ => exact (proj1 (nsapi_valid_inl n) H) end.

Lemma lift_yields {A} (x : A + SndcpPdpError) : yields (fun _ => True) (lift_sum x).
Proof. destruct x; [by apply yields_ret|apply yields_fail]. Qed.

Lemma ipv4_yields : yields octets_ok read_ipv4.
Proof. unfold read_ipv4. sn_yields. unfold is_byte in *. cbn. lia. Qed.

Lemma address_demand_yields atid : yields address_demand_ok (read_address_demand atid).
Proof.
  unfold read_address_demand. repeat case_match; try by (apply yields_ret || apply yields_fail).
  - eapply yields_bind; [apply ipv4_yields|]. intros a Ha. by apply yields_ret.
  - sn_yields. cbn. sn_nsapi.
Qed.

(** A decoded demand is one an encoder accepts. *)
Lemma demand_yields pdu :
  wf pdu -> match decode_activate_pdp_context_demand pdu with Some (inl x) => demand_ok x | Some (inr _) => True | None => False end.
Proof.
  intros W. apply (decoded_yields _ _ _ W). sn_yields.
  eapply yields_bind; [apply address_demand_yields|]. cbn beta; intros. sn_yields.
  eapply yields_bind; [apply lift_yields|]. cbn beta; intros. sn_yields.
  split; cbn; [|sn_nsapi|done|].
  - match goal with H : validate_sndcp_version ?v = _ |- _ => unfold validate_sndcp_version in H; destruct (Z.eqb_spec v 1); [done|discriminate] end.
  - match goal with H : validate_pcomp_negotiation ?v = _ |- _ => unfold validate_pcomp_negotiation in H; destruct (Z.eqb_spec v 0); [done|discriminate] end.
Qed.

Lemma deactivation_yields t pdu :
  wf pdu -> match decode_deactivate_pdp_context t pdu with Some (inl x) => deactivation_ok x | Some (inr _) => True | None => False end.
Proof.
  intros W. apply (decoded_yields _ _ _ W). sn_yields. eapply (yields_bind deactivation_ok).
  - repeat case_match; try by (apply yields_ret || apply yields_fail). sn_yields. cbn. sn_nsapi.
  - intros x Hx. sn_yields. done.
Qed.

Lemma resource_yields : yields (fun _ => True) read_resource_request.
Proof.
  unfold read_resource_request, decode_resource_request. sn_yields. destruct a; [|by apply yields_ret]. sn_yields.
  eapply (yields_bind (fun _ => True)); [case_match; sn_yields; done|]. intros down _. sn_yields.
  case_match; [apply yields_fail|]. case_match; [apply yields_fail|]. sn_yields. done.
Qed.

Lemma transmit_request_yields pdu :
  wf pdu -> match decode_data_transmit_request pdu with Some (inl x) => (1 <= dt_nsapi x <= 14)%Z | Some (inr _) => True | None => False end.
Proof.
  intros W. apply (decoded_yields _ _ _ W). sn_yields. eapply yields_bind; [apply resource_yields|]. cbn beta; intros. sn_yields.
  cbn. sn_nsapi.
Qed.

Lemma end_of_data_yields pdu :
  wf pdu -> match decode_end_of_data pdu with Some (inl _) => True | Some (inr _) => True | None => False end.
Proof. intros W. apply (decoded_yields (fun _ => True) _ _ W). sn_yields. done. Qed.

Lemma reconnect_yields pdu :
  wf pdu -> match decode_reconnect pdu with Some (inl x) => from_option (fun nsapi => 1 <= nsapi <= 14)%Z True (rc_nsapi x) | Some (inr _) => True | None => False end.
Proof.
  intros W. apply (decoded_yields _ _ _ W). sn_yields.
  eapply (yields_bind (fun nsapi => from_option (fun nsapi => 1 <= nsapi <= 14)%Z True nsapi)).
  - case_match; sn_yields; [|done]. cbn. sn_nsapi.
  - intros nsapi Hn. eapply yields_bind; [apply resource_yields|]. cbn beta; intros. sn_yields. done.
Qed.

(** ** The table *)

Definition count (t : SndcpContextTable) (issi : Z) : nat := size (contexts_for_issi t issi).

Record context_ok (p : SndcpPdpPolicy) (k : SndcpContextKey) (c : SndcpPdpContext) : Prop := {
  cxo_key : cx_key c = k;
  cxo_nsapi : (1 <= k.2 <= 14)%Z;
  cxo_type : cx_pdp_type c = PdpIpv4;
  cxo_address : exists a, cx_address c = Ipv4 a /\ octets_ok a /\ static_ipv4_address_allowed p a = true;
  cxo_secondary : allow_secondary_contexts p = false -> cx_primary_nsapi c = None;
  cxo_primary : forall n, cx_primary_nsapi c = Some n -> (1 <= n <= 14)%Z
}.
Record table_ok (p : SndcpPdpPolicy) (t : SndcpContextTable) : Prop := {
  to_context : forall k c, t !! k = Some c -> context_ok p k c;
  to_distinct : forall k1 k2 c1 c2, t !! k1 = Some c1 -> t !! k2 = Some c2 ->
    cx_primary_nsapi c1 = None -> cx_primary_nsapi c2 = None -> cx_address c1 = cx_address c2 -> k1 = k2;
  to_max : forall issi, count t issi <= max_contexts_per_issi p
}.

Definition keyed (t : SndcpContextTable) : Prop := forall k c, t !! k = Some c -> cx_key c = k.

Lemma table_keyed p t : table_ok p t -> keyed t.
Proof. intros Ht k c E. by destruct (to_context _ _ Ht _ _ E). Qed.

Lemma count_by_key t issi : keyed t -> count t issi = size (filter (fun kc => kc.1.1 = issi) t).
Proof.
  intros K. unfold count, contexts_for_issi. f_equal. apply map_filter_ext. intros k c E. cbn. by rewrite (K _ _ E).
Qed.

Lemma size_split (t : SndcpContextTable) (issi : Z) :
  size t = size (filter (fun kc : SndcpContextKey * SndcpPdpContext => kc.1.1 = issi) t) + size (filter (fun kc => kc.1.1 <> issi) t).
Proof.
  rewrite <- map_size_disj_union by apply map_disjoint_filter_complement. by rewrite map_filter_union_complement.
Qed.

(** [r] contexts of the terminal were removed, those of the others kept. *)
Record removal (issi : Z) (t t' : SndcpContextTable) (r : nat) : Prop := {
  rm_sub : t' ⊆ t;
  rm_other : forall k, k.1 <> issi -> t' !! k = t !! k;
  rm_size : r + size t' = size t
}.

Lemma removal_keyed issi t t' r : removal issi t t' r -> keyed t -> keyed t'.
Proof. intros R K k c E. apply K. by eapply lookup_weaken; [|apply R]. Qed.

Lemma removal_count issi t t' r :
  keyed t -> removal issi t t' r -> r + count t' issi = count t issi /\ forall j, j <> issi -> count t' j = count t j.
Proof.
  intros K R. pose proof (removal_keyed _ _ _ _ R K) as K'. destruct R as [Rs Ro Rz].
  assert (F : forall j, filter (fun kc : SndcpContextKey * SndcpPdpContext => kc.1.1 = j /\ kc.1.1 <> issi) t'
                = filter (fun kc => kc.1.1 = j /\ kc.1.1 <> issi) t).
  { intros j. apply map_eq. intros k. apply option_eq. intros c. rewrite !map_lookup_filter_Some. cbn.
    split; intros (E & Ej & Ei); (split; [|done]); [by rewrite <- Ro|by rewrite Ro]. }
  assert (G : filter (fun kc : SndcpContextKey * SndcpPdpContext => kc.1.1 <> issi) t' = filter (fun kc => kc.1.1 <> issi) t).
  { apply map_eq. intros k. apply option_eq. intros c. rewrite !map_lookup_filter_Some. cbn.
    split; intros (E & Ei); (split; [|done]); [by rewrite <- Ro|by rewrite Ro]. }
  split.
  - rewrite !count_by_key by done. pose proof (size_split t issi). pose proof (size_split t' issi). rewrite G in *. lia.
  - intros j Hj. rewrite !count_by_key by done. f_equal.
    transitivity (filter (fun kc : SndcpContextKey * SndcpPdpContext => kc.1.1 = j /\ kc.1.1 <> issi) t');
      [|rewrite F]; apply map_filter_ext; intros k c _; cbn; intuition congruence.
Qed.

Lemma removal_ok p issi t t' r : table_ok p t -> removal issi t t' r -> table_ok p t'.
Proof.
  intros Ht R. pose proof (table_keyed _ _ Ht) as K. destruct (removal_count _ _ _ _ K R) as [Ci Cj]. destruct R as [Rs Ro Rz].
  assert (L : forall k c, t' !! k = Some c -> t !! k = Some c) by (intros k c E; by eapply lookup_weaken).
  split.
  - intros k c E. by apply (to_context _ _ Ht), L.
  - intros k1 k2 c1 c2 E1 E2. apply (to_distinct _ _ Ht); by apply L.
  - intros j. pose proof (to_max _ _ Ht j). destruct (decide (j = issi)) as [->|Hj]; [lia|]. by rewrite Cj.
Qed.

Lemma filter_removal issi t (P : SndcpContextKey * SndcpPdpContext -> Prop) `{!forall kc, Decision (P kc)} :
  (forall k c, k.1 <> issi -> P (k, c)) -> removal issi t (filter P t) (size t - size (filter P t)).
Proof.
  intros HP. assert (S : filter P t ⊆ t) by apply map_filter_subseteq. split; [done| |].
  - intros k Hk. apply option_eq. intros c. rewrite map_lookup_filter_Some. split; [by intros [? _]|intros E; split; [done|by apply HP]].
  - pose proof (map_subseteq_size _ _ S). lia.
Qed.

Lemma delete_removal (key : SndcpContextKey) c t : t !! key = Some c -> removal key.1 t (delete key t) 1.
Proof.
  intros E. split; [apply delete_subseteq| |].
  - intros k Hk. rewrite lookup_delete_ne; [done|]. intros <-. done.
  - rewrite (map_size_delete_Some key t); [|by exists c]. destruct (size t) eqn:Es; [|lia].
    apply map_size_empty_inv in Es. by rewrite Es, lookup_empty in E.
Qed.

Lemma removal_trans issi t1 t2 t3 r1 r2 : removal issi t1 t2 r1 -> removal issi t2 t3 r2 -> removal issi t1 t3 (r1 + r2).
Proof.
  intros [S1 O1 Z1] [S2 O2 Z2]. split; [by etrans| |lia]. intros k Hk. by rewrite O2, O1.
Qed.

Lemma deactivate_issi_removal issi t : removal issi t (deactivate_issi issi t).2 (deactivate_issi issi t).1.
Proof. unfold deactivate_issi. cbn. apply filter_removal. done. Qed.

Lemma linked_removal (key : SndcpContextKey) t :
  match deactivate_with_linked_secondaries key t with
  | Ok r t' => removal key.1 t t' r
  | Err _ t' => t' = t
  | Panic => False
  end.
Proof.
  unfold deactivate_with_linked_secondaries, deactivate, mbind, method_bind. destruct (t !! key) as [c|] eqn:E; [|done].
  pose proof (delete_removal key c t E) as R1. case_bool_decide; [done|]. unfold retain_unlinked.
  pose proof (filter_removal key.1 (delete key t) (fun kc => ~ linked key kc)) as R2.
  assert (Hs : 1 + size (delete key t) = size t) by apply R1.
  assert (Hf : size (filter (fun kc => ~ linked key kc) (delete key t)) <= size (delete key t))
    by apply map_subseteq_size, map_filter_subseteq.
  eapply removal_trans in R2; [|done|]; [|intros k d Hk [Hl _]; done].
  by replace (1 + size (delete key t) - _) with (1 + (size (delete key t) - size (filter (fun kc => ~ linked key kc) (delete key t)))) by lia.
Qed.

(** ** Activation *)

Definition pool_ok (pool : SndcpIpv4Pool) : Prop :=
  let '(p1, p2, p3) := pool_prefix pool in
  (is_byte p1 /\ is_byte p2 /\ is_byte p3 /\ is_byte (first_host pool) /\ is_byte (last_host pool))%Z.
(** A policy whose numbers fit the fields of an acceptance. *)
Record policy_ok (p : SndcpPdpPolicy) : Prop := {
  po_priority : (0 <= po_pdu_priority_max p <= 7)%Z;
  po_ready : (1 <= po_ready_timer p <= 14)%Z;
  po_standby : (1 <= po_standby_timer p <= 15)%Z;
  po_response : (0 <= po_response_wait_timer p <= 14)%Z;
  po_pool : from_option pool_ok True (dynamic_ipv4_pool p)
}.

Lemma valid_nsapi_true nsapi : validate_nsapi nsapi = true <-> (1 <= nsapi <= 14)%Z.
Proof. unfold validate_nsapi. lia. Qed.

Lemma context_key_valid issi nsapi : (1 <= nsapi <= 14)%Z -> context_key_new issi nsapi = inl (issi, nsapi).
Proof. intros Hn. unfold context_key_new. by rewrite (proj2 (valid_nsapi_true nsapi)). Qed.

Lemma context_of_valid t issi nsapi : (1 <= nsapi <= 14)%Z -> context_of t issi nsapi = t !! (issi, nsapi).
Proof. intros Hn. unfold context_of, get_issi_nsapi. by rewrite context_key_valid. Qed.

Lemma unused_address t a : any_ipv4_context t a = false -> forall k c, t !! k = Some c -> ~ has_ipv4 a (k, c).
Proof.
  unfold any_ipv4_context. rewrite negb_false_iff, bool_decide_eq_true. intros Hf k c E Hc.
  assert (L : filter (has_ipv4 a) t !! k = Some c) by (by apply map_lookup_filter_Some). by rewrite Hf in L.
Qed.

Lemma pool_address_allowed p pool a :
  dynamic_ipv4_pool p = Some pool -> pool_ok pool ->
  a ∈ (pool_address pool <$> seqZ (first_host pool) (last_host pool - first_host pool + 1)) ->
  octets_ok a /\ static_ipv4_address_allowed p a = true.
Proof.
  intros Ep Hp Ha. apply list_elem_of_fmap in Ha as (host & -> & Hh). apply elem_of_seqZ in Hh.
  unfold static_ipv4_address_allowed. rewrite Ep. cbn. unfold pool_ok, pool_address, ipv4_in_pool in *.
  destruct (pool_prefix pool) as [[p1 p2] p3]. unfold is_byte in *. split; [cbn; lia|].
  rewrite bool_decide_true by done. cbn. lia.
Qed.

Lemma allocated_address s a :
  policy_ok (policy s) -> allocate_dynamic_ipv4 s = Some a ->
  octets_ok a /\ static_ipv4_address_allowed (policy s) a = true /\ any_ipv4_context (contexts s) a = false.
Proof.
  intros Hp. unfold allocate_dynamic_ipv4. destruct (dynamic_ipv4_pool (policy s)) as [pool|] eqn:Ep; [|done]. cbn [mbind option_bind].
  destruct (last_host pool <? first_host pool)%Z; [done|]. intros E.
  destruct (list_find _ _) as [[i a']|] eqn:Ef; [|done]. injection E as ->.
  apply list_find_Some in Ef as (El & Eu & _). pose proof (po_pool _ Hp) as Hpool. rewrite Ep in Hpool.
  destruct (pool_address_allowed _ _ a Ep Hpool) as [Ho Hs]; [by eapply list_elem_of_lookup_2|done].
Qed.

(** What is recorded for an accepted demand goes with what the acceptance says. *)
Record accepted_as (p : SndcpPdpPolicy) (issi nsapi : Z) (accept : SndcpActivatePdpContextAccept) (c : SndcpPdpContext) : Prop := {
  as_accept : accept_ok accept;
  as_nsapi : aa_nsapi accept = nsapi;
  as_context : context_ok p (issi, nsapi) c;
  as_address : forall a, aa_assigned_address accept = Some a -> cx_address c = a;
  as_primary : aa_assigned_address accept = None -> cx_primary_nsapi c <> None
}.

Lemma policy_accept_ok p nsapi ty assigned :
  policy_ok p -> (1 <= nsapi <= 14)%Z -> assigned_ok ty assigned -> accept_ok (policy_accept p nsapi ty assigned).
Proof. by intros [] Hn Ha. Qed.

Definition unshared (t : SndcpContextTable) (c : SndcpPdpContext) : Prop :=
  match cx_primary_nsapi c with
  | None => forall k d, t !! k = Some d -> cx_pdp_type d = PdpIpv4 -> cx_address d <> cx_address c
  | Some n => is_Some (t !! ((cx_key c).1, n)) /\ (1 <= n <= 14)%Z
  end.

Lemma demanded_context_spec s issi demand :
  policy_ok (policy s) -> table_ok (policy s) (contexts s) -> demand_ok demand ->
  match demanded_context s issi demand with
  | inl (c, ty, assigned) =>
      context_ok (policy s) (issi, ad_nsapi demand) c /\ unshared (contexts s) c /\ assigned_ok ty assigned /\
      (forall a, assigned = Some a -> cx_address c = a) /\ (assigned = None -> cx_primary_nsapi c <> None)
  | inr cause => cause_ok cause
  end.
Proof.
  intros Hp Ht [_ Hn Ha _]. unfold demanded_context, primary_ipv4, secondary. rewrite context_key_valid by done.
  destruct (ad_address demand) as [a| | | | |n]; cbn in Ha; try done.
  - destruct (allow_static_ipv4 (policy s)); [|done]. destruct (static_ipv4_address_allowed (policy s) a) eqn:Ea; [|done].
    destruct (any_ipv4_context (contexts s) a) eqn:Eu; [done|]. cbn [negb]. split_and!; [by split; eauto| |done| |done].
    + intros k d E Hd Had. by apply (unused_address _ _ Eu k d E).
    + by intros ? [= <-].
  - destruct (allocate_dynamic_ipv4 s) as [a|] eqn:Ea; [|done]. destruct (allocated_address _ _ Hp Ea) as (Ho & Hs & Eu).
    split_and!; [by split; eauto| |done| |done].
    + intros k d E Hd Had. by apply (unused_address _ _ Eu k d E).
    + by intros ? [= <-].
  - destruct (allow_secondary_contexts (policy s)) eqn:El; [|done]. cbn [negb]. unfold get_issi_nsapi.
    rewrite context_key_valid by done. destruct (contexts s !! (issi, n)) as [c|] eqn:Ec; [|done].
    pose proof (to_context _ _ Ht _ _ Ec) as [_ _ Hty Hadd _ _]. split_and!; [|by split; [exists c|]|done|done|done].
    split; [done|done|done|done|by rewrite El|by intros ? [= <-]].
Qed.

Lemma with_policy_ok p k c : context_ok p k c -> context_ok p k (with_policy p c).
Proof. by intros []. Qed.

Lemma check_primary_spec t c :
  unshared t c -> check_primary c t = Ok tt t.
Proof.
  unfold unshared, check_primary. destruct (cx_primary_nsapi c) as [n|]; [|done]. intros [Hi Hn].
  rewrite context_key_valid by done. unfold contains_key. by rewrite bool_decide_true.
Qed.

Lemma activate_fresh t c : t !! cx_key c = None -> unshared t c -> activate c t = Ok tt (<[cx_key c := c]> t).
Proof.
  intros E Hu. unfold activate, asking, contains_key, mbind, method_bind. rewrite bool_decide_false by (rewrite E; by intros [? ?]).
  by rewrite check_primary_spec.
Qed.

Lemma count_insert_new t k c issi : keyed t -> cx_key c = k -> t !! k = None ->
  count (<[k := c]> t) issi = count t issi + if decide (k.1 = issi) then 1 else 0.
Proof.
  intros K Hk E. unfold count, contexts_for_issi. destruct (decide (k.1 = issi)) as [Hi|Hi].
  - rewrite map_filter_insert_True by (cbn; by rewrite Hk). rewrite map_size_insert_None; [lia|].
    apply map_lookup_filter_None. by left.
  - rewrite map_filter_insert_False by (cbn; by rewrite Hk). rewrite delete_id by done. lia.
Qed.

Lemma count_insert_old t k c d issi : cx_key c = k -> t !! k = Some d -> cx_key d = k -> count (<[k := c]> t) issi = count t issi.
Proof.
  intros Hc E Hd. unfold count, contexts_for_issi. destruct (decide (k.1 = issi)) as [Hi|Hi].
  - rewrite map_filter_insert_True by (cbn; by rewrite Hc). apply map_size_insert_Some. exists d. apply map_lookup_filter_Some. split; [done|]. cbn. by rewrite Hd.
  - rewrite map_filter_insert_False by (cbn; by rewrite Hc). f_equal. apply map_eq. intros k'. apply option_eq. intros c'.
    rewrite !map_lookup_filter_Some. cbn. destruct (decide (k' = k)) as [->|Hne].
    + rewrite lookup_delete_eq, E. split; [by intros [? ?]|]. intros [[= <-] Hx]. by rewrite Hd in Hx.
    + by rewrite lookup_delete_ne.
Qed.

Lemma insert_new_ok p t k c :
  table_ok p t -> t !! k = None -> context_ok p k c -> unshared t c -> count t k.1 < max_contexts_per_issi p ->
  table_ok p (<[k := c]> t).
Proof.
  intros Ht E Hc Hu Hm. pose proof (table_keyed _ _ Ht) as K. split.
  - intros k' c' E'. apply lookup_insert_Some in E' as [[<- <-]|[_ E']]; [done|by apply (to_context _ _ Ht)].
  - assert (F : forall k' c', t !! k' = Some c' -> cx_primary_nsapi c = None -> cx_address c' <> cx_address c).
    { intros k' c' E' Hn. unfold unshared in Hu. rewrite Hn in Hu. apply (Hu k' c' E'). apply (to_context _ _ Ht _ _ E'). }
    intros k1 k2 c1 c2 E1 E2 P1 P2 A.
    apply lookup_insert_Some in E1 as [[<- <-]|[_ E1]]; apply lookup_insert_Some in E2 as [[<- <-]|[_ E2]]; [done| | |].
    + by destruct (F k2 c2 E2 P1).
    + by destruct (F k1 c1 E1 P2).
    + by apply (to_distinct _ _ Ht k1 k2 c1 c2).
  - intros j. rewrite count_insert_new by (done || apply Hc). pose proof (to_max _ _ Ht j). case_decide; [subst; lia|lia].
Qed.

Lemma insert_old_ok p t k c d :
  table_ok p t -> t !! k = Some d -> context_ok p k c -> cx_primary_nsapi c = cx_primary_nsapi d -> cx_address c = cx_address d ->
  table_ok p (<[k := c]> t).
Proof.
  intros Ht E Hc Hn Ha. split.
  - intros k' c' E'. apply lookup_insert_Some in E' as [[<- <-]|[_ E']]; [done|by apply (to_context _ _ Ht)].
  - assert (F : forall k' c', <[k := c]> t !! k' = Some c' -> exists d', t !! k' = Some d' /\ cx_primary_nsapi d' = cx_primary_nsapi c' /\ cx_address d' = cx_address c').
    { intros k' c' E'. apply lookup_insert_Some in E' as [[<- <-]|[_ E']]; eauto. }
    intros k1 k2 c1 c2 E1 E2 P1 P2 A.
    destruct (F _ _ E1) as (d1 & E1' & N1 & A1). destruct (F _ _ E2) as (d2 & E2' & N2 & A2).
    apply (to_distinct _ _ Ht k1 k2 d1 d2); congruence.
  - intros j. rewrite (count_insert_old t k c d); [apply (to_max _ _ Ht)|apply Hc|done|]. apply (to_context _ _ Ht _ _ E).
Qed.

(** What the service does with a demand: it records one context for it, or nothing. *)
Record activation_spec (issi : Z) (demand : SndcpActivatePdpContextDemand) (s : SndcpPdpService)
    (result : SndcpPdpActivationResult) (t : SndcpContextTable) : Prop := {
  av_table : table_ok (policy s) t;
  av_result :
    match result with
    | PdpAccepted accept c reused =>
        accepted_as (policy s) issi (ad_nsapi demand) accept c /\ t = <[(issi, ad_nsapi demand) := c]> (contexts s) /\
        reused = bool_decide (is_Some (contexts s !! (issi, ad_nsapi demand)))
    | PdpRejected reject => ar_nsapi reject = ad_nsapi demand /\ cause_ok (ar_cause reject) /\ t = contexts s
    end
}.

Lemma with_contexts_id s : s = with_contexts s (contexts s).
Proof. by destruct s. Qed.

(** The answer to a repeated demand, for the context there is. *)
Lemma accept_existing_spec p issi demand c accept c' :
  policy_ok p -> (1 <= ad_nsapi demand <= 14)%Z -> context_ok p (issi, ad_nsapi demand) c ->
  accept_for_existing_context p demand c = Some (accept, c') ->
  accepted_as p issi (ad_nsapi demand) accept c' /\ cx_primary_nsapi c' = cx_primary_nsapi c /\ cx_address c' = cx_address c.
Proof.
  intros Hp Hn Hc. unfold accept_for_existing_context. destruct Hc as [Hk Hv Hty (a & Ha & Ho & Hs) Hsec Hprim]. rewrite Ha.
  set (refresh := if bool_decide (cx_packet_data_ms_type c = _) then _ else _).
  assert (R : forall d, refresh = Some d ->
    context_ok p (issi, ad_nsapi demand) (with_policy p d) /\ cx_primary_nsapi d = cx_primary_nsapi c /\ cx_address d = cx_address c).
  { intros d Ed. unfold refresh in Ed. repeat case_match; simplify_eq; (split; [by split; eauto|done]). }
  assert (Hd : forall ty assigned d, refresh = Some d -> assigned_ok ty assigned -> (forall x, assigned = Some x -> Ipv4 a = x) ->
    (assigned = None -> cx_primary_nsapi c <> None) ->
    accepted_as p issi (ad_nsapi demand) (policy_accept p (ad_nsapi demand) ty assigned) (with_policy p d) /\
    cx_primary_nsapi (with_policy p d) = cx_primary_nsapi c /\ cx_address (with_policy p d) = Ipv4 a).
  { intros ty assigned d Ed Hok Has Hnone. destruct (R d Ed) as (Hcd & Hp1 & Ha1). rewrite <- Ha, <- Hp1, <- Ha1.
    split_and!; [|done|done]. split; [by apply policy_accept_ok|done|done| |].
    - intros x Ex. cbn in *. by rewrite Ha1, Ha, (Has x Ex).
    - intros Ex. cbn in *. rewrite Hp1. by apply Hnone. }
  destruct (ad_address demand) as [b| | | | |n]; cbn [mbind option_bind]; try done.
  - case_bool_decide; [subst b|done]. cbn. destruct refresh as [d|]; [|done]. intros [= <- <-]. apply Hd; try done. by intros ? [= <-].
  - destruct refresh as [d|]; [|done]. intros [= <- <-]. apply Hd; try done. by intros ? [= <-].
  - case_bool_decide as Ep; [|done]. cbn. destruct refresh as [d|]; [|done]. intros [= <- <-]. apply Hd; try done. by rewrite Ep.
Qed.

Lemma activation_rejected issi demand s cause :
  table_ok (policy s) (contexts s) -> cause_ok cause ->
  activation_spec issi demand s (PdpRejected (mkReject (ad_nsapi demand) cause)) (contexts s).
Proof. by split. Qed.

Lemma replaced_spec p k t c d :
  t !! k = Some d -> context_ok p k c ->
  replace_existing c t = Ok d (<[k := c]> t) \/ exists key, replace_existing c t = Err (PrimaryContextMissing key) t.
Proof.
  intros E [Hk _ _ _ _ Hn]. unfold replace_existing, asking, contains_key, mbind, method_bind. rewrite Hk.
  rewrite bool_decide_true by (by eexists). cbn [negb].
  assert (C : check_primary c t = Ok tt t \/ exists key, check_primary c t = Err (PrimaryContextMissing key) t).
  { unfold check_primary. destruct (cx_primary_nsapi c) as [n|]; [|by left].
    rewrite (context_key_valid _ _ (Hn n eq_refl)). destruct (contains_key _ t); eauto. }
  destruct C as [->|(key & ->)]; [left|right; by exists key]. unfold put_context, panicking. by rewrite E, Hk.
Qed.

Lemma pdp_activate_spec issi demand s :
  policy_ok (policy s) -> table_ok (policy s) (contexts s) -> demand_ok demand ->
  exists result t, pdp_handle_activate_demand issi demand s = Some (result, with_contexts s t) /\ activation_spec issi demand s result t.
Proof.
  intros Hp Ht Hd. pose proof (SndcpCodec.do_nsapi _ Hd) as Hn. unfold pdp_handle_activate_demand.
  assert (Rej : forall cause, cause_ok cause -> exists result t,
    Some (PdpRejected (mkReject (ad_nsapi demand) cause), s) = Some (result, with_contexts s t) /\ activation_spec issi demand s result t).
  { intros cause Hc. exists (PdpRejected (mkReject (ad_nsapi demand) cause)), (contexts s).
    rewrite <- with_contexts_id. split; [done|by apply activation_rejected]. }
  destruct (service_enabled _); [cbn [negb]|by apply Rej]. destruct (packet_data_ms_type_supported _ _); [cbn [negb]|by apply Rej].
  rewrite context_of_valid by done. destruct (contexts s !! (issi, ad_nsapi demand)) as [c|] eqn:Ec.
  - pose proof (to_context _ _ Ht _ _ Ec) as Hc.
    destruct (accept_for_existing_context (policy s) demand c) as [[accept c']|] eqn:Ea; [|by apply Rej].
    destruct (accept_existing_spec _ issi _ _ _ _ Hp Hn Hc Ea) as (Has & Hpr & Had). pose proof (cxo_key _ _ _ (as_context _ _ _ _ _ Has)) as Hk.
    assert (Sp : activation_spec issi demand s (PdpAccepted accept c' true) (<[(issi, ad_nsapi demand) := c']> (contexts s))).
    { split; [by apply (insert_old_ok _ _ _ _ c); try done; apply Has|]. split_and!; [done|done|]. by rewrite bool_decide_true by (by eexists). }
    case_bool_decide as Er.
    { subst c'. eexists _, _. split; [|exact Sp]. rewrite insert_id by done. by rewrite <- with_contexts_id. }
    destruct (replaced_spec _ _ _ c' c Ec (as_context _ _ _ _ _ Has)) as [->|(e & ->)].
    + by eexists _, _.
    + rewrite <- with_contexts_id. by apply Rej.
  - destruct (Nat.leb_spec (max_contexts_per_issi (policy s)) (size (contexts_for_issi (contexts s) issi))) as [|Hm]; [by apply Rej|].
    destruct (validate_pdu_priority _); [cbn [negb]|by apply Rej]. unfold build_context_and_accept.
    pose proof (demanded_context_spec s issi demand Hp Ht Hd) as Hs.
    destruct (demanded_context s issi demand) as [[[c ty] assigned]|cause]; [|by apply Rej].
    destruct Hs as (Hc & Hu & Hok & Has & Hnone). pose proof (with_policy_ok _ _ _ Hc) as Hc'.
    pose proof (cxo_key _ _ _ Hc') as Hk.
    rewrite activate_fresh by (by rewrite ?Hk). rewrite Hk. eexists _, _. split; [done|]. split.
    + by apply insert_new_ok.
    + split_and!; [|done|by rewrite bool_decide_false by (rewrite Ec; by intros [? ?])].
      split; [by apply policy_accept_ok|done|done|done|done].
Qed.
