(* ===== verification/SndcpRun.v ===== *)
(** * Runs of the packet data bearers

    The bearer manager under any sequence of control PDUs of the terminals, requests of the
    network and timer expiries: it never panics, the table keeps its addresses apart and its
    limits, and the state machine of each terminal goes with the contexts the terminal has. *)

From Stdlib Require Import ZArith Lia ZifyNat.
From stdpp Require Import gmap strings.
From S2P Require Import Prelude.
From S2P Require Import BitBuffer.
From S2P Require Import BitBufferFacts.
From S2P Require Import SndcpPdus.
From S2P Require Import SndcpCodec.
From S2P Require Import Sndcp.
From S2P Require Import SndcpFacts.

(** ** The machines *)

(** State, timers and number of contexts go together. *)
Definition machine_ok (s : SwmiSndcpStateMachine) : Prop :=
  match sm_state s with
  | SnIdle => s = enter_idle 0
  | SnStandby => s = enter_standby (active_pdp_contexts s) /\ 0 < active_pdp_contexts s
  | SnReady => s = enter_ready (active_pdp_contexts s) /\ 0 < active_pdp_contexts s
  end.
(** With [c] contexts in the table the machine counts [c], or one more. *)
Definition bearer_ok (c : nat) (s : SwmiSndcpStateMachine) : Prop :=
  machine_ok s /\ c <= active_pdp_contexts s <= c + 1.





(** Deactivation counts one less; the last context of a terminal in READY is not counted down. *)
Lemma deactivate_machine s :
  machine_ok s -> 0 < active_pdp_contexts s ->
  match deactivate_pdp_context s with
  | Ok _ s' => machine_ok s' /\ active_pdp_contexts s' = active_pdp_contexts s - 1 /\ (sm_state s = SnReady -> sm_state s' = SnReady)
  | Err _ s' => s' = s /\ sm_state s = SnReady /\ active_pdp_contexts s = 1
  | Panic => False
  end.
Proof.
  destruct s as [[] n tm]; cbn.
  - intros [= -> ->]. lia.
  - intros [[= ->] _] Hn. unfold deactivate_pdp_context. cbn. bfalse (n =? 0). destruct (Nat.ltb_spec 1 n); cbn; [split_and!; [done|lia|lia|done]|].
    by assert (n = 1) as -> by lia.
  - intros [[= ->] _] Hn. unfold deactivate_pdp_context. cbn. bfalse (n =? 0). destruct (Nat.ltb_spec 1 n); cbn; [split_and!; [done|lia|lia|done]|].
    by assert (n = 1) as -> by lia.
Qed.

(** ** The manager *)

Record manager_ok (p : SndcpPdpPolicy) (m : SndcpBearerManager) : Prop := {
  mo_policy : policy (pdp m) = p;
  mo_table : table_ok p (contexts (pdp m));
  mo_bearers : forall issi, bearer_ok (count (contexts (pdp m)) issi) (machine_of m issi)
}.


Section keeps.
Context (p : SndcpPdpPolicy).


Lemma machine_of_insert q t s issi j :
  machine_of (mkManager q (<[issi := s]> t)) j = if decide (j = issi) then s else machine_of (mkManager q t) j.
Proof.
  unfold machine_of. cbn. case_decide as H; [subst; by rewrite lookup_insert_eq|by rewrite lookup_insert_ne].
Qed.




End keeps.

(** ** Activation *)





(** ** Deactivation *)



(** The machine of a terminal that loses [n] contexts counts them down, in READY not to zero. *)
Record counted_down (issi : Z) (n : nat) (m m' : SndcpBearerManager) : Prop := {
  cd_pdp : pdp m' = pdp m;
  cd_other : forall j, j <> issi -> machine_of m' j = machine_of m j;
  cd_machine : machine_ok (machine_of m' issi);
  cd_active : active_pdp_contexts (machine_of m issi) - n <= active_pdp_contexts (machine_of m' issi)
                <= 1 `max` (active_pdp_contexts (machine_of m issi) - n);
  cd_ready : sm_state (machine_of m issi) = SnReady -> sm_state (machine_of m' issi) = SnReady
}.

Lemma deactivate_states_spec issi n : forall m,
  machine_ok (machine_of m issi) -> n <= active_pdp_contexts (machine_of m issi) ->
  counted_down issi n m (deactivate_states n issi m).2.
Proof.
  induction n as [|n IH]; intros m Hm Hn; cbn [deactivate_states].
  { split; try done. cbn. lia. }
  destruct (states m !! issi) as [s|] eqn:Es; [|unfold machine_of in Hn; rewrite Es in Hn; cbn in Hn; lia].
  assert (Em : machine_of m issi = s) by (unfold machine_of; by rewrite Es). rewrite Em in Hm, Hn.
  pose proof (deactivate_machine s Hm ltac:(lia)) as Hd. destruct (deactivate_pdp_context s) as [tr s'|e s'|]; [| |done].
  - destruct Hd as (Hs & Ha & Hr). set (m1 := mkManager (pdp m) (<[issi := s']> (states m))).
    assert (E1 : forall j, machine_of m1 j = if decide (j = issi) then s' else machine_of m j) by (intros j; apply machine_of_insert).
    destruct (IH m1) as [C1 C2 C3 C4 C5]; [by rewrite E1, decide_True|rewrite E1, decide_True by done; lia|].
    destruct (deactivate_states n issi m1) as [trs m2]. cbn in *. rewrite E1, decide_True in C4, C5 by done. split; [done| |done| |].
    + intros j Hj. by rewrite (C2 j Hj), E1, decide_False.
    + rewrite Em. lia.
    + rewrite Em. auto.
  - destruct Hd as (-> & Hr & Ha). cbn. assert (E1 : forall j, machine_of (mkManager (pdp m) (<[issi := s]> (states m))) j = machine_of m j).
    { intros j. rewrite machine_of_insert. case_decide; [by subst|done]. }
    split; [done|intros j _; apply E1|by rewrite E1, Em| |by rewrite E1]. rewrite E1, Em, Ha. lia.
Qed.



Lemma emptied_count t issi : keyed t -> count (deactivate_issi issi t).2 issi = 0.
Proof.
  intros K. unfold count. rewrite (proj2 (map_empty (contexts_for_issi _ issi))); [apply map_size_empty|].
  intros k. apply map_lookup_filter_None. right. intros c E Hc. cbn in *. apply map_lookup_filter_Some in E as [E Hk].
  apply Hk. cbn. by rewrite <- Hc, (K _ _ E).
Qed.


(** ** The other operations *)


Section operations.
Context (p : SndcpPdpPolicy).






End operations.

(** ** The handlers of control PDUs *)

Section sessions.
Context (p : SndcpPdpPolicy) (Hp : policy_ok p).








End sessions.

(** ** Runs *)

(** Control PDUs of terminals, and what the network does: [OpUnitdata] is the step a session takes
    before it answers user data, [OpBroken] the loss of the packet data channel. *)
Inductive bearer_op :=
  | OpActivate (issi : Z) (pdu : BitBuffer)
  | OpDeactivate (issi : Z) (pdu : BitBuffer)
  | OpDataTransmit (issi : Z) (pdu : BitBuffer)
  | OpEndOfData (issi : Z) (pdu : BitBuffer)
  | OpReconnect (issi : Z) (pdu : BitBuffer)
  | OpUserDataRequest (issi nsapi : Z)
  | OpUnitdata (issi nsapi : Z)
  | OpTransferred (issi : Z)
  | OpReadyTimer (issi : Z)
  | OpBroken (issi : Z)
  | OpDeregister (issi : Z).


(** What an operation leaves, successful or not; [None] is a panic. *)
Definition after {E A} (x : outcome SndcpBearerManager E A) : option SndcpBearerManager :=
  match x with Ok _ m | Err _ m => Some m | Panic => None end.
Definition run_op (m : SndcpBearerManager) (o : bearer_op) : option SndcpBearerManager :=
  match o with
  | OpActivate issi pdu => after (handle_activate_pdp_context_demand issi pdu m)
  | OpDeactivate issi pdu => after (handle_deactivate_pdp_context_demand issi pdu m)
  | OpDataTransmit issi pdu => after (handle_data_transmit_request issi pdu m)
  | OpEndOfData issi pdu => after (handle_end_of_data_response issi pdu m)
  | OpReconnect issi pdu => after (handle_reconnect_response issi pdu m)
  | OpUserDataRequest issi nsapi => after (handle_swmi_service_user_data_request issi nsapi m)
  | OpUnitdata issi nsapi => after (prepare_swmi_unitdata_transfer issi nsapi m)
  | OpTransferred issi => after (handle_packet_data_transferred issi m)
  | OpReadyTimer issi => after (handle_ready_timer_expired issi m)
  | OpBroken issi => after (mark_ready_bearer_temporarily_broken issi m)
  | OpDeregister issi => after (deregister_issi issi m)
  end.
Definition run_bearers (os : list bearer_op) (m : SndcpBearerManager) : option SndcpBearerManager := foldM run_op os m.





(** ** Requests to transmit *)





(** ** Deactivation in READY *)

(** A terminal in READY that gives up all its contexts has none left, and its machine stays in
    READY: the step for the last context is refused, and the refusal ends the loop. *)
Lemma deactivated_in_ready p issi m :
  manager_ok p m -> state_for_issi m issi = SnReady ->
  count (contexts (pdp (handle_deactivate_demand issi AllNsapis m).2)) issi = 0 /\
  state_for_issi (handle_deactivate_demand issi AllNsapis m).2 issi = SnReady.
Proof.
  intros Hm Hs. pose proof (mo_table _ _ Hm) as Ht. pose proof (emptied_count _ issi (table_keyed _ _ Ht)) as Hz.
  destruct (removal_count _ _ _ _ (table_keyed _ _ Ht) (deactivate_issi_removal issi (contexts (pdp m)))) as [Ri _].
  unfold handle_deactivate_demand, pdp_handle_deactivate_demand. destruct (deactivate_issi issi (contexts (pdp m))) as [r t]. cbn in *.
  set (m1 := mkManager (with_contexts (pdp m) t) (states m)). destruct (mo_bearers _ _ Hm issi) as [Hb Ha].
  destruct (deactivate_states_spec issi r m1) as [C1 _ _ _ C5]; [exact Hb|change (machine_of m1 issi) with (machine_of m issi); lia|].
  destruct (deactivate_states r issi m1) as [trs m2]. cbn in *. unfold remove_idle_state.
  assert (Hr : state_for_issi m2 issi = SnReady) by (by apply C5). rewrite Hr. rewrite bool_decide_false by done. by rewrite C1.
Qed.

(** ** Claims *)




(** ** A first context *)


(** A demand for a dynamic address under NSAPI 1, and a request to transmit under it *)
Definition demand_pdu : BitBuffer :=
  buffer_of (val_bits 4 0 ++ val_bits 4 1 ++ val_bits 4 1 ++ val_bits 3 1 ++ val_bits 4 0 ++ val_bits 8 0 ++ val_bits 1 0).
Definition transmit_pdu : BitBuffer :=
  buffer_of (val_bits 4 6 ++ val_bits 4 1 ++ val_bits 1 0 ++ val_bits 1 0 ++ val_bits 1 0).
Definition first_ops : list bearer_op := [OpActivate 2001 demand_pdu; OpDataTransmit 2001 transmit_pdu; OpReadyTimer 2001].
Definition first_manager : SndcpBearerManager := default (manager_new experimental_wap_ipv4) (run_bearers first_ops (manager_new experimental_wap_ipv4)).


(** The context of the first demand is there, and its machine in STANDBY again. *)
Lemma first_manager_state :
  size (contexts (pdp first_manager)) = 1 /\ machine_of first_manager 2001 = enter_standby 1.
Proof. vm_compute. done. Qed.



